(* ===== verification/_CoqProject ===== *)
-Q . S2P
Prelude.v
PyTypes.v
PyParse.v
Sha256.v
PyJson.v
JsonText.v
PyStore.v
Kahn.v
TaskGraphData.v
TaskGraphServices.v
TaskGraph.v
TaskGraphStore.v
TaskGraphEquiv.v
TaskGraphApp.v
CampaignData.v
TaskGraphExecution.v
SafetyMonitor.v
CampaignServices.v
CampaignStore.v
CampaignApp.v
ExecData.v
KillSwitch.v
RateLimit.v
Worker.v
Action.v
Journal.v
Authorization.v
ExecStore.v
ExecApp.v
ExecActions.v
EngagementData.v
EngagementAggregate.v
ScopeHash.v
TargetAuth.v
EngagementStore.v
EngagementPorts.v
EngagementApp.v
OperationData.v
PlanGraph.v
OperationAggregate.v
PlanValidator.v
PlanVersion.v
OperationStore.v
OperationApp.v
PlanHash.v
IsoText.v
CampaignRootData.v
CampaignRoot.v
CampaignInstance.v
Recurrence.v
CampaignGate.v
CampaignPorts.v
CampaignRootStore.v
CampaignRootApp.v
EvidenceData.v
EvidenceChain.v
ExecEvidence.v
EvidenceVault.v
EvidenceStore.v
EvidenceApp.v
PyRegex.v
PayloadData.v
PayloadAggregate.v
PluginRegistration.v
PayloadStore.v
PayloadApp.v
PayloadCascade.v
OperatorData.v
OperatorAggregate.v
OperatorStore.v
OperatorApp.v
