(* ===== verification/Prelude.v ===== *)
(** * RedForge: the red-team execution pipeline

    RedForge is a Python platform of bounded contexts under
    [src/backend/src/<context>/], each with a [domain] (aggregates, value
    objects, services), an [application] service and [infrastructure] adapters.
    This development models the pipeline that turns a signed task graph into
    attack actions on workers, the contexts [taskgraph], [campaignexecution] and
    [execution], the context that says who may attack what, [engagement], the one
    that plans and signs an operation, [operation], the one that schedules
    campaigns and starts their runs, [campaign], the one that keeps what the
    actions find, [evidence], the one that approves and withdraws the artifacts they
    use, [payload], and the one that keeps the members of the team and what they may
    approve, [red_team_operator].

    ** Parts and files

    Shared: this file (exceptions that keep mutations, weakest preconditions,
    record update, dictionaries, strings), [PyTypes] (ids, [isoformat],
    [str(uuid)], the event envelope), [PyParse] ([fromisoformat] and [UUID(text)],
    with their round trips), [IsoText] ([fromisoformat] of any ISO text), [Sha256] ([hashlib.sha256] on UTF-8), [PyJson]
    ([json.dumps] with sorted keys), [JsonText] (the text of a value determines
    it), [PyStore] (JSON columns, tables, sessions), [PyRegex] (regular expressions,
    their language and a matcher by derivatives).

    [taskgraph]: a campaign as a graph of tasks.
    - [TaskGraphData]: [domain/value_objects], [entities], [events], [exceptions].
    - [Kahn]: the queue loops of Kahn's algorithm that
      [services/task_graph_validator.py] and [execution_order_resolver.py]
      share, with their theory.
    - [TaskGraphServices]: validator, execution order, critical path, rollback plan.
    - [TaskGraph]: the aggregate [aggregates/task_graph.py].
    - [TaskGraphStore]: JSON columns, tables and [pg_task_graph_repository.py].
      [TaskGraphEquiv]: the order of the rows does not matter to the aggregate.
    - [TaskGraphApp]: [task_graph_application_service.py] and its unit of work.

    [campaignexecution]: one run of a graph.
    - [CampaignData], [TaskGraphExecution], [SafetyMonitor]: data and the two
      aggregates [task_graph_execution.py], [campaign_safety_monitor.py].
    - [CampaignServices]: branch resolution, rollback, dispatch, pause coordinator.
    - [CampaignStore]: rows, repositories and the unit of work.
    - [CampaignApp]: [execution_application_service.py].

    [execution]: attack actions and their safety controls.
    - [ExecData]: enumerations, value objects with digests, events, exceptions.
    - [KillSwitch], [RateLimit], [Worker], [Action], [Journal]: the aggregates
      with their services and in-memory stores.
    - [Authorization]: scope, window and the five-check gate
      ([execution_authorization_service.py]).
    - [ExecStore]: the four tables and the optimistic locking of the [pg_*]
      repositories.  [ExecApp], [ExecActions]: [execution_application_service.py],
      kill switch and journal commands in the first, actions and workers in the
      second.

    [engagement]: who may attack what, when and with which techniques.
    - [EngagementData]: enumerations, value objects, entities, events, exceptions.
    - [EngagementAggregate]: the aggregate [aggregates/engagement.py].
    - [ScopeHash]: what the hash of a signed scope binds.
    - [TargetAuth]: [aggregates/target_authorization.py], the factory and
      [services/authorization_services.py].
    - [EngagementStore]: the seven tables and the two [pg_*] repositories.
    - [EngagementPorts]: the asset and signature ports with their adapters (HMAC).
    - [EngagementApp]: [engagement_application_service.py] and its unit of work.

    [operation]: the plan of an operation, its approval and its signed versions.
    - [OperationData]: enumerations, value objects, entities, events, exceptions.
    - [PlanGraph]: the three graph searches of the aggregate and the validator.
    - [OperationAggregate]: [aggregates/operation.py] and
      [services/operation_risk_assessor.py].
    - [PlanValidator]: [services/execution_plan_validator.py].
    - [PlanVersion]: [aggregates/execution_plan_version.py].
    - [OperationStore]: the six tables and the two [pg_*] repositories.
    - [OperationApp]: [operation_application_service.py], its unit of work, ports
      and degraded adapters.  [PlanHash]: what the hash of a signed plan binds.

    [campaign]: an approved campaign, its schedule and its runs.
    - [CampaignRootData]: enumerations, value objects, entities, events, exceptions.
    - [CampaignRoot], [CampaignInstance]: the aggregates [aggregates/campaign.py]
      and [campaign_instance.py].
    - [Recurrence]: blackout periods and the failure check of
      [services/recurrence_scheduler.py].
    - [CampaignGate]: [campaign_authorization_service.py] and
      [target_resolution_service.py] with their ports.  [CampaignPorts]: the
      scheduler and graph ports with the stub adapters.
    - [CampaignRootStore]: the four tables and the two [pg_*] repositories.
    - [CampaignRootApp]: [campaign_application_service.py] and its unit of work.

    [evidence]: encrypted evidence, its custody and its hash chains.
    - [EvidenceData]: enumerations, value objects with their hashes, events, exceptions.
    - [EvidenceChain], [ExecEvidence]: the aggregates [aggregates/evidence_chain.py]
      and [execution_evidence.py].
    - [EvidenceVault]: [in_memory_evidence_blob_store.py] and
      [in_memory_key_management.py], which the container wires.
    - [EvidenceStore]: the two tables, sessions with their identity map, and the two
      [pg_*] repositories.
    - [EvidenceApp]: [evidence_application_service.py] and its unit of work.

    [payload]: versioned offensive artifacts and the plugins that execute them.
    - [PayloadData]: enumerations, value objects with their patterns, events, exceptions.
    - [PayloadAggregate], [PluginRegistration]: the aggregates [aggregates/payload.py]
      and [plugin_registration.py].
    - [PayloadStore]: the two tables and the two [pg_*] repositories.
    - [PayloadApp]: [payload_application_service.py], its unit of work, and the port
      through which a revocation reaches the plans, with the degraded adapter.
    - [PayloadCascade]: the adapter of that port around [OperationApp].

    [red_team_operator]: members of the team, their clearance and approval authority.
    - [OperatorData]: enumerations, clearance tables, value objects, events, exceptions.
    - [OperatorAggregate]: the aggregate [aggregates/red_team_operator.py].
    - [OperatorStore]: the table and [pg_red_team_operator_repository.py].
    - [OperatorApp]: [operator_application_service.py], [operator_query_service.py] and
      the unit of work.

    ** How state and calls correspond

    An aggregate is a [Record] with the attributes of the Python object and the
    list of its pending events; a method is a value of [PyM S E A]: from a state
    to a result or an exception, and a state, since a raise does not undo
    assignments.  Methods keep the order of guards, assignments, version
    increments and events.  A store is a class with the laws its clients use
    ([KillSwitchStore], [RateLimitStore]) and an instance for the in-memory
    implementation; a port to another context is a class ([OperationCreationPort],
    [EngagementScopePort], [PayloadQueryPort], [EventPublisher], [NotificationPort],
    [GraphPort], [AssetQueryPort], [DigitalSignaturePort], [EngagementQueryPort],
    [VulnerabilityQueryPort], [EngagementStatusPort], [InventoryQueryPort],
    [OptionalPorts], [PlanInvalidationPort]), and so is the order in which a query without
    [ORDER BY] answers ([RowOrder]).  [TenantColumns] says what the code under [src]
    leaves to libraries in the operation, campaign, evidence, payload and operator repositories: whether the
    driver binds an id object where a UUID is expected, and whether a UUID equals a ULID;
    [Fernet] is the encryption, with its round trip as law, [UlidText] the text of a ULID.
    An application command is a computation over a world: the view of the session,
    the durable tables, what was published, and the stores no transaction covers.
    [now] and fresh ids are arguments.  Ids are integers (0 is the nil UUID), a
    datetime is a number of microseconds since 1970 UTC.

    ** Theorems

    - Task graphs: the validator decides validity, the layers are a topological
      layering, the critical path is the longest walk, the traversals terminate,
      ready tasks make progress; the aggregate keeps its invariant, is final once
      signed, and changes nothing when it raises; an edit after validation
      escapes the check.
    - Stored graphs: the tables refine the aggregate (up to row order every stored
      graph is one its calls reach), stay well typed, give back what was saved,
      and a command that raises changes nothing, the ontology port excepted.
    - Runs: every call follows the lifecycle, terminal states and results are
      final, barriers wait for their group; the monitor refines its contract;
      branch resolution partitions the successors; rollback reverses completion.
    - Persistence: saved executions are found again, a save accepts one version
      step, commands that raise roll back; of the [execution] repositories, that
      no stored aggregate is ever updated and what this leaves unrecorded.
    - Safety controls: the kill switch is audited and its evaluation fails safe,
      rate limit bounds, workers run only what their manifest allows, actions are
      sealed, the journal appends, verifies and is tamper-evident up to SHA-256
      (and what its check does not see).
    - The gate refines its contract, a target gets one Destruct permit, and an
      action reaches a worker only when every control allowed it.
    - Engagements: every engagement the calls reach is governed (quorum, sealed
      scope, rules), follows its lifecycle, is authorized only for what its scope,
      rules and window allow, and its scope hash identifies the scope up to
      SHA-256; an unsigned engagement that resumes, approvals that outlive the
      scope and a quorum that cannot be revoked are what escapes.  The same holds
      of every stored engagement: a saved one is found again, a command that
      raises changes nothing, a grant stays within the scope and the rules.
    - Operations: the validator decides whether a plan may be signed, a dependency
      is refused exactly when it closes a cycle, the lifecycle is followed, every
      stored operation is governed (steps, approvals, risk), a signature seals a
      valid plan whose hash binds the plan up to SHA-256, a signed version does not
      change, withdrawing a payload reaches every plan in force, a saved operation
      is found again, a command that raises changes nothing; what escapes is a
      resumed operation that nobody checks, a queued one without a signed plan, a
      destructive step without a gate, a lost update, and the fields the hash
      leaves out.

    - Campaigns: every stored campaign is governed (quorum, engagement, rules),
      objectives stay sealed, a run is a snapshot, it starts only with the engagement
      active and armed and against targets in scope, a saved campaign is found again,
      a command that raises changes nothing; blackout periods cover what they say.
      What escapes: a scheduled fire never starts a run, a recurring campaign is
      never approved, runs overlap after a resume, an abort fails another campaign.
    - Evidence: custody is append-only, a chain is append-only until it is sealed and
      final then, its hash binds what its entries hash up to SHA-256, no key that
      encrypted is lost by a rotation; everything stored is sound, a command only
      extends it, verification decides whether a payload is what was collected and
      a tampered one is quarantined for good, and of two concurrent appends to a
      chain the later is refused.  What escapes: a restart loses blobs and keys, and
      the ids of the entries of a chain can be exchanged.
    - Payloads: what is dispatched was approved, with the CISO's approval when it
      destroys, a revoked payload is final, the hash check decides, a command only
      extends what is stored and one that raises changes nothing, a payload key is
      parts between dots; with the adapter of [PayloadCascade] no plan in force uses a
      payload after its revocation.  What escapes: a version published after the
      approval, and the plans when the cascade of a revocation fails.
    - Operators: every scope an operator holds is backed by the clearance, one who was
      suspended or revoked is powerless for good, the query for approvers answers
      exactly those who may approve, a command extends what is stored and one that
      raises changes nothing.  What escapes: the identity of a revoked operator is
      activated again under a new id.

    ** Fuel

    The loops of [Kahn] take one unit of fuel per task and the reachability
    search one per dependency, which [traversals_terminate] and the functional
    theorems prove enough; the searches of [PlanGraph] take one unit per edge and
    start node, which [would_reach_ok] and its companions prove enough; [Sha256.hash_blocks] takes the number of words, which
    bounds the number of blocks.  No theorem assumes that fuel suffices.

    ** Bounds of the model

    A [str] is its code points up to U+00FF.  JSON numbers are integers.  Rows are
    records of decoded columns: column codecs, database constraints other than
    keys, and errors of the database driver are not modelled, and a
    transaction is not interleaved with another one, but for two sessions on one
    evidence chain ([concurrent_save_is_refused]); a relationship of a row loads
    when it is read.  [IsoText] leaves out week dates, [24:00] and the stray character
    before an offset that CPython skips.  Exceptions carry the values
    of their message (those that wrap the [ValueError] of a constructor of [payload] leave out its text), [event_id]s are not kept, logging is not modelled.

    ** Not modelled

    The Redis stores (clients of a server; their interfaces are classes here),
    the HTTP API, the wiring containers, the projections of [execution];
    of [engagement] and [operation] the graph adapters that no command calls; of
    [campaign] the summary projection, the exposure scope adapter, the proposal
    queue and the cron computation; of [evidence], [payload] and [red_team_operator] the logging publisher;
    the other bounded contexts, which the
    pipeline does not call or sees only through the ports above; the web layer
    [redforge], the front end, generators and tests. *)
From stdpp Require Import base tactics list gmap strings decidable sorting relations.
From Stdlib Require Import ZArith Lia.

(** ** Exceptions that keep mutations

    A method of an aggregate mutates [self] and may raise.  A raise does not
    undo the assignments already made, so a computation returns the state in
    both cases. *)

Inductive result (E A : Type) : Type :=
  | Ok (a : A)
  | Err (e : E).
Arguments Ok {E A} a.
Arguments Err {E A} e.

Definition is_ok {E A} (r : result E A) : bool :=
  match r with Ok _ => true | Err _ => false end.

Definition PyM (S E A : Type) : Type := S -> result E A * S.

#[export] Instance PyM_ret {S E} : MRet (PyM S E) :=
  fun A a s => (Ok a, s).

#[export] Instance PyM_bind {S E} : MBind (PyM S E) :=
  fun A B k m s =>
    match m s with
    | (Ok a, s') => k a s'
    | (Err e, s') => (Err e, s')
    end.

Definition raise {S E A} (e : E) : PyM S E A := fun s => (Err e, s).
Definition self {S E} : PyM S E S := fun s => (Ok s, s).
Definition modify {S E} (f : S -> S) : PyM S E unit := fun s => (Ok tt, f s).

(** A call of a function that may raise and has no state. *)
Definition lift {S E A} (r : result E A) : PyM S E A := fun s => (r, s).

(** [if cond: raise e] *)
Definition raise_if {S E} (b : bool) (e : E) : PyM S E unit :=
  if b then raise e else mret tt.

(** [if cond: body] *)
Definition when {S E} (b : bool) (m : PyM S E unit) : PyM S E unit :=
  if b then m else mret tt.

(** [for x in l: body] *)
Fixpoint for_each {S E A} (l : list A) (body : A -> PyM S E unit) : PyM S E unit :=
  match l with
  | [] => mret tt
  | x :: l' => body x;; for_each l' body
  end.

(** ** Weakest preconditions

    [wp m Q X s]: run from [s], the computation [m] ends in a state that
    satisfies [Q] when it returns and [X] when it raises. *)

Definition wp {S E A} (m : PyM S E A) (Q : A -> S -> Prop) (X : E -> S -> Prop) (s : S) : Prop :=
  match m s with
  | (Ok a, s') => Q a s'
  | (Err e, s') => X e s'
  end.

(** A computation that raises leaves the state as it was. *)
Definition atomic {S E A} (m : PyM S E A) : Prop :=
  forall s, wp m (fun _ _ => True) (fun _ s' => s' = s) s.

(** A computation keeps [I], whether it returns or raises. *)
Definition keeps {S E A} (I : S -> Prop) (m : PyM S E A) : Prop :=
  forall s, I s -> wp m (fun _ => I) (fun _ => I) s.

Create HintDb py.

Section Wp.
Context {S E : Type}.
Implicit Types (X : E -> S -> Prop) (s : S).

Lemma wp_ret {A} (a : A) Q X s : Q a s -> wp (mret a) Q X s.
Proof. done. Qed.

Lemma wp_bind {A B} (m : PyM S E A) (k : A -> PyM S E B) Q X s :
  wp m (fun a s' => wp (k a) Q X s') X s -> wp (m ≫= k) Q X s.
Proof. unfold wp, mbind, PyM_bind. destruct (m s) as [[a|e] s']; done. Qed.

Lemma wp_raise {A} (e : E) (Q : A -> S -> Prop) X s : X e s -> wp (raise e) Q X s.
Proof. done. Qed.

Lemma wp_lift {A} (r : result E A) (Q : A -> S -> Prop) X s :
  (forall a, r = Ok a -> Q a s) -> (forall e, r = Err e -> X e s) -> wp (lift r) Q X s.
Proof. unfold wp, lift. destruct r; auto. Qed.

Lemma wp_self Q X s : Q s s -> wp self Q X s.
Proof. done. Qed.

Lemma wp_modify (f : S -> S) Q X s : Q tt (f s) -> wp (modify f) Q X s.
Proof. done. Qed.

Lemma wp_raise_if (b : bool) (e : E) Q X s :
  (b = true -> X e s) -> (b = false -> Q tt s) -> wp (raise_if b e) Q X s.
Proof. destruct b; naive_solver. Qed.

Lemma wp_when (b : bool) (m : PyM S E unit) Q X s :
  (b = true -> wp m Q X s) -> (b = false -> Q tt s) -> wp (when b m) Q X s.
Proof. destruct b; naive_solver. Qed.

Lemma wp_for_each {A} (I : list A -> S -> Prop) (l : list A) (body : A -> PyM S E unit) Q X s :
  I l s -> (forall s', I [] s' -> Q tt s') ->
  (forall x l' s', I (x :: l') s' -> wp (body x) (fun _ => I l') X s') ->
  wp (for_each l body) Q X s.
Proof.
  intros HI HQ Hstep. revert s HI. induction l as [|x l IH]; intros s HI; simpl; [by apply HQ|].
  apply wp_bind. specialize (Hstep x l s HI). unfold wp in *.
  destruct (body x s) as [[[]|e] s']; [by apply IH|done].
Qed.

Lemma wp_mono {A} (m : PyM S E A) (Q Q' : A -> S -> Prop) X X' s :
  wp m Q X s -> (forall a s', Q a s' -> Q' a s') -> (forall e s', X e s' -> X' e s') ->
  wp m Q' X' s.
Proof. unfold wp. destruct (m s) as [[a|e] s']; auto. Qed.

(** What [wp] says of the pair a call returns. *)
Lemma wp_ok {A} (m : PyM S E A) Q X s a s' : wp m Q X s -> m s = (Ok a, s') -> Q a s'.
Proof. unfold wp. intros H Heq. by rewrite Heq in H. Qed.

Lemma wp_err {A} (m : PyM S E A) Q X s e s' : wp m Q X s -> m s = (Err e, s') -> X e s'.
Proof. unfold wp. intros H Heq. by rewrite Heq in H. Qed.

Lemma keeps_state {A} (I : S -> Prop) (m : PyM S E A) s : keeps I m -> I s -> I (m s).2.
Proof. intros Hk HI. specialize (Hk s HI). unfold wp in Hk. by destruct (m s) as [[]]. Qed.

Lemma keeps_then_unit {A} (I : S -> Prop) (m : PyM S E A) : keeps I m -> keeps I (m;; mret tt).
Proof. intros Hm s Hs. apply wp_bind. eapply wp_mono; [by apply Hm|done|done]. Qed.

Lemma atomic_state {A} (m : PyM S E A) s e s' : atomic m -> m s = (Err e, s') -> s' = s.
Proof. intros Ha. by apply (wp_err _ _ _ _ _ _ (Ha s)). Qed.
End Wp.

(** ** Sequences of calls

    A client calls the methods of an object in any order and catches what they
    raise. *)
Definition run_all {S E C : Type} (run : C -> PyM S E unit) (cs : list C) (s : S) : S :=
  foldl (fun s c => (run c s).2) s cs.

Section RunAll.
Context {S E C : Type} (run : C -> PyM S E unit).

Lemma run_all_keeps (I : S -> Prop) cs s : (forall c, keeps I (run c)) -> I s -> I (run_all run cs s).
Proof.
  intros Hrun. revert s. induction cs as [|c cs IH]; intros s HI; simpl; [done|].
  apply IH. by apply keeps_state.
Qed.

(** A call relates the state before to the state after, also when it raises. *)
Definition follows (R : S -> S -> Prop) (c : C) : Prop :=
  forall s, wp (run c) (fun _ => R s) (fun _ => R s) s.

Lemma run_all_follows (R : S -> S -> Prop) `{!PreOrder R} cs s :
  (forall c, follows R c) -> R s (run_all run cs s).
Proof.
  intros Hrun. revert s. induction cs as [|c cs IH]; intros s; simpl; [done|].
  transitivity (run c s).2; [|apply IH].
  specialize (Hrun c s). unfold wp in Hrun. by destruct (run c s) as [[]].
Qed.
End RunAll.

(** Symbolic execution of a method: one rule per statement. *)
Ltac wp_step :=
  lazymatch goal with
  | |- wp (mbind _ _) _ _ _ => apply wp_bind
  | |- wp (mret _) _ _ _ => apply wp_ret
  | |- wp (raise _) _ _ _ => apply wp_raise
  | |- wp (lift _) _ _ _ => apply wp_lift; intros ? ?
  | |- wp self _ _ _ => apply wp_self
  | |- wp (modify _) _ _ _ => apply wp_modify
  | |- wp (raise_if _ _) _ _ _ => apply wp_raise_if; intros ?
  | |- wp (when _ _) _ _ _ => apply wp_when; intros ?
  | |- wp (match ?x with _ => _ end) _ _ _ => let H := fresh "Hm" in destruct x eqn:H
  | |- wp (let '(_, _) := ?x in _) _ _ _ => let H := fresh "Hm" in destruct x eqn:H
  end; cbv beta.
Ltac wp_run := repeat wp_step.

(** The facts a guard leaves behind, as propositions. *)
Lemma orb_false_both a b : a || b = false <-> a = false /\ b = false.
Proof. destruct a, b; naive_solver. Qed.
Ltac guards :=
  repeat match goal with
  | H : _ || _ = false |- _ => apply orb_false_both in H as [? ?]
  | H : _ && _ = true |- _ => apply andb_prop in H as [? ?]
  | H : negb _ = true |- _ => apply negb_true_iff in H
  | H : negb _ = false |- _ => apply negb_false_iff in H
  | H : bool_decide _ = true |- _ => apply bool_decide_eq_true in H
  | H : bool_decide _ = false |- _ => apply bool_decide_eq_false in H
  end.

(** Guards of the form [if x not in l] and [if x != y] that did not raise. *)
Ltac stable :=
  guards;
  repeat match goal with
  | H : ¬ (_ ∉ _) |- _ => apply dec_stable in H
  | H : ¬ (_ ≠ _) |- _ => apply dec_stable in H
  | H : ¬ ¬ _ |- _ => apply dec_stable in H
  end.

(** Proves a decidable proposition by evaluating its decision procedure. *)
Ltac by_compute := apply (bool_decide_unpack _); vm_compute; exact I.

(** ** Record update

    [r <| f := v |>] assigns the field [f] of the record [r].  A record opts
    in with a [Settable] instance that gives its eta expansion. *)

Class Settable (R : Type) := eta_record : R -> R.
Class Setter {R T : Type} (proj : R -> T) := upd : (T -> T) -> R -> R.
#[global] Hint Mode Setter - - ! : typeclass_instances.

Ltac solve_setter :=
  match goal with
  | |- @Setter ?R ?T ?proj =>
      let f := fresh "f" in
      let r := fresh "r" in
      refine (fun (f : T -> T) (r : R) => _);
      let inst := constr:(ltac:(typeclasses eauto) : Settable R) in
      let e := eval hnf in (inst r) in
      let e' := eval pattern (proj r) in e in
      match e' with
      | ?g _ => let res := eval cbv beta in (g (f (proj r))) in exact res
      end
  end.
#[export] Hint Extern 1 (Setter _) => solve_setter : typeclass_instances.

Declare Scope py_scope.
Notation "r <| f := v |>" := (upd (proj := f) (fun _ => v) r)
  (at level 1, f at next level, v at level 200, left associativity) : py_scope.
Notation "r <| f ::= g |>" := (upd (proj := f) g r)
  (at level 1, f at next level, g at level 200, left associativity) : py_scope.
#[global] Open Scope py_scope.

(** ** Insertion-ordered dictionaries

    A Python [dict] iterates in insertion order, and the traversals below
    depend on it: a dictionary is the list of its items. *)

Section Dict.
Context {K V : Type} `{EqDecision K}.
Implicit Types (d : list (K * V)) (k : K) (v : V).

Fixpoint dget d k : option V :=
  match d with
  | [] => None
  | (k', v) :: d' => if decide (k' = k) then Some v else dget d' k
  end.

Fixpoint dset d k v : list (K * V) :=
  match d with
  | [] => [(k, v)]
  | (k', v') :: d' =>
      if decide (k' = k) then (k', v) :: d' else (k', v') :: dset d' k v
  end.

(** [d[k] = f(d[k])], with [dflt] for a missing key (a [defaultdict]). *)
Definition dmod d k (dflt : V) (f : V -> V) : list (K * V) :=
  dset d k (f (default dflt (dget d k))).

Definition dkeys d : list K := map fst d.

(** A dict comprehension over the items of a list: a later item with an
    existing key overwrites it. *)
Definition dict_of (l : list (K * V)) : list (K * V) :=
  foldl (fun d kv => dset d kv.1 kv.2) [] l.
End Dict.

Section DictLemmas.
Context {K V : Type} `{EqDecision K}.
Implicit Types (d : list (K * V)) (k : K) (v : V).

Lemma dget_dset_eq d k v : dget (dset d k v) k = Some v.
Proof. induction d as [|[k' v'] d IH]; simpl; repeat (case_decide; simpl); congruence. Qed.

Lemma dget_dset_ne d k k' v : k ≠ k' → dget (dset d k v) k' = dget d k'.
Proof.
  intros Hne. induction d as [|[k1 v1] d IH]; simpl.
  - by rewrite decide_False.
  - repeat (case_decide; simpl); congruence.
Qed.

Lemma dget_dmod_eq d k dflt f :
  dget (dmod d k dflt f) k = Some (f (default dflt (dget d k))).
Proof. apply dget_dset_eq. Qed.

Lemma dget_dmod_ne d k k' dflt f : k ≠ k' → dget (dmod d k dflt f) k' = dget d k'.
Proof. apply dget_dset_ne. Qed.

Lemma dget_is_Some d k : is_Some (dget d k) ↔ k ∈ dkeys d.
Proof.
  induction d as [|[k' v'] d IH]; simpl.
  - split; [intros [??]; done | intros []%not_elem_of_nil].
  - rewrite elem_of_cons. case_decide; naive_solver.
Qed.

Lemma dget_None d k : dget d k = None ↔ k ∉ dkeys d.
Proof. rewrite <- dget_is_Some, eq_None_not_Some. done. Qed.

Lemma dkeys_dset_in d k v : k ∈ dkeys d → dkeys (dset d k v) = dkeys d.
Proof.
  induction d as [|[k' v'] d IH]; simpl; [intros []%not_elem_of_nil|].
  rewrite elem_of_cons. case_decide; simpl; [done|]. intros [->|?]; [done|]. f_equal; auto.
Qed.

Lemma dkeys_dset_notin d k v : k ∉ dkeys d → dkeys (dset d k v) = dkeys d ++ [k].
Proof.
  induction d as [|[k' v'] d IH]; simpl; [done|].
  rewrite not_elem_of_cons. intros [Hne ?].
  rewrite decide_False by congruence. simpl. f_equal; auto.
Qed.

Lemma NoDup_dkeys_dset d k v : NoDup (dkeys d) → NoDup (dkeys (dset d k v)).
Proof.
  intros Hd. destruct (decide (k ∈ dkeys d)) as [Hin|Hin].
  - by rewrite dkeys_dset_in.
  - rewrite dkeys_dset_notin by done. apply NoDup_app. split_and!; [done| |apply NoDup_singleton].
    intros x Hx ->%list_elem_of_singleton. done.
Qed.

Lemma elem_of_dict d k v : NoDup (dkeys d) → (k, v) ∈ d ↔ dget d k = Some v.
Proof.
  induction d as [|[k' v'] d IH]; simpl.
  - intros _. split; [intros []%not_elem_of_nil | done].
  - intros [Hni Hd]%NoDup_cons. rewrite elem_of_cons. case_decide as Hk; subst.
    + split; [intros [?|Hin]; [by simplify_eq|] | intros ?; left; congruence].
      exfalso. apply Hni, list_elem_of_fmap. by exists (k, v).
    + rewrite IH by done. naive_solver.
Qed.

Lemma dget_elem d k v : dget d k = Some v → (k, v) ∈ d.
Proof.
  induction d as [|[k' v'] d IH]; simpl; [done|].
  case_decide; intros; simplify_eq; [left|right; auto].
Qed.

Lemma dict_of_NoDup_aux (l d : list (K * V)) :
  NoDup (dkeys d ++ l.*1) → foldl (fun d kv => dset d kv.1 kv.2) d l = d ++ l.
Proof.
  revert d. induction l as [|[k v] l IH]; intros d Hd; simpl; [by rewrite app_nil_r|].
  assert (k ∉ dkeys d) as Hni.
  { apply NoDup_app in Hd as (_ & Hdis & _). intros Hin. apply (Hdis k Hin). left. }
  assert (dset d k v = d ++ [(k, v)]) as ->.
  { clear -Hni. induction d as [|[k' v'] d IH]; simpl in *; [done|].
    apply not_elem_of_cons in Hni as [? ?]. rewrite decide_False by congruence. f_equal. auto. }
  rewrite IH; [by rewrite <- app_assoc|].
  unfold dkeys in *. rewrite map_app. simpl. by rewrite <- app_assoc.
Qed.

Lemma dict_of_NoDup (l : list (K * V)) : NoDup l.*1 → dict_of l = l.
Proof. intros Hl. unfold dict_of. rewrite dict_of_NoDup_aux; done. Qed.
End DictLemmas.

(** ** Strings *)

(** A Python [str] is a [string] whose characters are its code points, up to
    U+00FF.  [is_space] is the whitespace [str.strip] removes in that range. *)
Definition is_space (c : Ascii.ascii) : bool :=
  let n := Ascii.nat_of_ascii c in
  ((9 <=? n) && (n <=? 13) || (28 <=? n) && (n <=? 32) || (n =? 133) || (n =? 160))%nat.

Fixpoint lstrip (s : string) : string :=
  match s with
  | EmptyString => EmptyString
  | String c s' => if is_space c then lstrip s' else s
  end.

Fixpoint rstrip (s : string) : string :=
  match s with
  | EmptyString => EmptyString
  | String c s' =>
      match rstrip s' with
      | EmptyString => if is_space c then EmptyString else String c EmptyString
      | t => String c t
      end
  end.

(** [str.strip()] *)
Definition strip (s : string) : string := rstrip (lstrip s).

Definition lower_char (c : Ascii.ascii) : Ascii.ascii :=
  let n := Ascii.nat_of_ascii c in
  if ((65 <=? n) && (n <=? 90) || (192 <=? n) && (n <=? 222) && negb (n =? 215))%nat
  then Ascii.ascii_of_nat (n + 32) else c.

(** [str.lower()] *)
Fixpoint lower (s : string) : string :=
  match s with
  | EmptyString => EmptyString
  | String c s' => String (lower_char c) (lower s')
  end.

(** [not s.strip()] *)
Definition blank (s : string) : bool := bool_decide (strip s = EmptyString).

(** [not s] *)
Definition empty_str (s : string) : bool := bool_decide (s = EmptyString).

(** ** Concatenation *)

Lemma string_length_app (s t : string) :
  String.length (s +:+ t) = (String.length s + String.length t)%nat.
Proof. induction s as [|c s IH]; [done|]. simpl. by rewrite IH. Qed.

(** Equal strings with prefixes of the same length. *)
Lemma string_app_inj a a' b b' : String.length a = String.length a' → a +:+ b = a' +:+ b' → a = a' ∧ b = b'.
Proof.
  revert a'. induction a as [|c a IH]; intros [|c' a']; simpl; try done.
  intros [= Hl] [= -> Heq]. destruct (IH _ Hl Heq) as [-> ->]. done.
Qed.

Lemma string_app_assoc (a b c : string) : (a +:+ b) +:+ c = a +:+ b +:+ c.
Proof.
  induction a as [|x a IH]; [done|].
  change (String x ((a +:+ b) +:+ c) = String x (a +:+ b +:+ c)). by rewrite IH.
Qed.

(** Equal strings with suffixes that are equal. *)
Lemma string_app_inj_r (a a' s : string) : a +:+ s = a' +:+ s → a = a'.
Proof.
  intros Heq. assert (String.length a = String.length a') as Hlen.
  { apply (f_equal String.length) in Heq. rewrite !string_length_app in Heq. lia. }
  by apply (string_app_inj a a' s s).
Qed.

(** ** Generic lemmas *)

Lemma decide_bool_decide (P : Prop) `{Decision P} {A} (x y : A) :
  (if decide P then x else y) = (if bool_decide P then x else y).
Proof. case_bool_decide; case_decide; naive_solver. Qed.

Lemma elem_of_map_fst {A B} (l : list (A * B)) a : a ∈ l.*1 ↔ ∃ b, (a, b) ∈ l.
Proof. rewrite list_elem_of_fmap. split; [intros [[??][-> ?]]; eauto | intros [b ?]; by exists (a, b)]. Qed.

Lemma elem_of_concat {A} (x : A) (L : list (list A)) : x ∈ concat L ↔ ∃ l, l ∈ L ∧ x ∈ l.
Proof.
  rewrite list_elem_of_In, in_concat. setoid_rewrite list_elem_of_In. done.
Qed.

Lemma not_elem_nil {A} (l : list A) : (∀ x, x ∉ l) → l = [].
Proof. destruct l as [|x l]; [done|]. intros H. destruct (H x). left. Qed.

Lemma list_filter_all {A} (P : A → Prop) `{∀ x, Decision (P x)} (l : list A) :
  (∀ x, x ∈ l → P x) → filter P l = l.
Proof.
  induction l as [|x l IH]; intros HP; [done|]. rewrite filter_cons_True by (apply HP; left).
  f_equal. apply IH. intros y Hy. apply HP. by right.
Qed.

Lemma flat_map_nil {A B} (f : A → list B) (l : list A) :
  flat_map f l = [] ↔ ∀ x, x ∈ l → f x = [].
Proof.
  induction l as [|a l IH]; simpl; [split; [by intros _ ? []%not_elem_of_nil|done]|].
  rewrite app_nil, IH. setoid_rewrite elem_of_cons. naive_solver.
Qed.

Lemma forall_elem_proper {A} (l : list A) (P Q : A → Prop) :
  (∀ x, P x ↔ Q x) → (∀ x, x ∈ l → P x) ↔ (∀ x, x ∈ l → Q x).
Proof. naive_solver. Qed.

(** [exists!] respects pointwise equivalence. *)
#[export] Instance unique_proper {A} :
  Proper (pointwise_relation A iff ==> pointwise_relation A iff) (@unique A).
Proof. intros P Q HPQ x. unfold unique. by setoid_rewrite HPQ. Qed.

Lemma length_1_unique {A} (l : list A) : NoDup l → length l = 1 ↔ exists! x, x ∈ l.
Proof.
  intros Hnd. split.
  - destruct l as [|x [|y l]]; try done. intros _. exists x. split; [left|].
    by intros z ->%list_elem_of_singleton.
  - intros (x & Hx & Hu). destruct l as [|y [|z l]]; [by apply not_elem_of_nil in Hx|done|].
    apply NoDup_cons in Hnd as [Hy _]. exfalso. apply Hy.
    rewrite <- (Hu y), (Hu z); [left|right; left|left].
Qed.

Lemma filter_split {A} (P : A → Prop) `{∀ x, Decision (P x)} (l l1 l2 : list A) x :
  filter P l = l1 ++ x :: l2 →
  ∃ k1 k2, l = k1 ++ x :: k2 ∧ filter P k1 = l1 ∧ filter P k2 = l2.
Proof.
  revert l1. induction l as [|y l IH]; intros l1; [by destruct l1|].
  rewrite filter_cons. case_decide as Hy.
  - destruct l1 as [|z l1]; simpl; intros Heq; injection Heq as -> Heq.
    + by exists [], l.
    + destruct (IH _ Heq) as (k1 & k2 & -> & <- & <-). exists (z :: k1), k2.
      split_and!; [done|by rewrite filter_cons_True|done].
  - intros Heq. destruct (IH _ Heq) as (k1 & k2 & -> & <- & <-). exists (y :: k1), k2.
    split_and!; [done|by rewrite filter_cons_False|done].
Qed.

(** If every element of a non-empty finite collection has a predecessor in it,
    the relation has a cycle. *)
Lemma finite_no_source_cycle {A} `{EqDecision A} (R : A → A → Prop) (L : list A) :
  L ≠ [] → (∀ x, x ∈ L → ∃ y, y ∈ L ∧ R y x) → ∃ x, x ∈ L ∧ tc R x x.
Proof.
  intros Hne Hpred.
  (* walk backwards from the head of a chain of distinct elements *)
  cut (∀ n h C, NoDup (h :: C) → h :: C ⊆ L → length L ≤ n + length (h :: C) →
            (∀ c, c ∈ C → tc R h c) → ∃ x, x ∈ L ∧ tc R x x).
  { intros Hcut. destruct L as [|a L]; [done|].
    apply (Hcut (length L) a []); simpl; [apply NoDup_singleton| |lia|by intros ? []%not_elem_of_nil].
    intros z ->%list_elem_of_singleton. left. }
  intros n. induction n as [|n IH]; intros h C Hnd Hsub Hlen HC;
    destruct (Hpred h) as (y & Hy & HR); try (apply Hsub; left);
    destruct (decide (y ∈ h :: C)) as [[->|Hin]%elem_of_cons|Hni].
  - exists h. split; [done|by apply tc_once].
  - exists y. split; [done|]. eapply tc_l; [done|by apply HC].
  - exfalso. assert (NoDup (y :: h :: C)) as Hnd' by by constructor.
    assert (y :: h :: C ⊆+ L) as Hm%submseteq_length.
    { apply NoDup_submseteq; [done|]. intros z [->|Hz]%elem_of_cons; [done|by apply Hsub]. }
    simpl in *. lia.
  - exists h. split; [done|by apply tc_once].
  - exists y. split; [done|]. eapply tc_l; [done|by apply HC].
  - apply (IH y (h :: C)); [by constructor| |simpl in *; lia|].
    + intros z [->|Hz]%elem_of_cons; [done|by apply Hsub].
    + intros c [->|Hc]%elem_of_cons; [by apply tc_once|]. eapply tc_l; [done|by apply HC].
Qed.
