(* ===== verification/PyTypes.v ===== *)
(** Values of the Python standard library the domain uses: UUIDs, ULID-backed
    entity ids, aware datetimes, and their textual forms. *)
From stdpp Require Import base tactics list countable strings pretty.
From Stdlib Require Import ZArith Lia.
From S2P Require Import Prelude.

Local Open Scope Z_scope.

(** ** Identifiers *)

(** [uuid.UUID], by its 128-bit integer value [UUID.int]. *)
Definition uuid := Z.

(** [redforge.shared.identifiers.EntityId]: a value object around a ULID, with
    equality and order those of the 128-bit ULID. *)
Record EntityId := mkEntityId { ulid : Z }.

#[export] Instance EntityId_eq_dec : EqDecision EntityId.
Proof. solve_decision. Defined.
#[export] Instance EntityId_countable : Countable EntityId.
Proof. by refine (inj_countable' ulid mkEntityId _); intros []. Defined.

(** [EntityId.__lt__] *)
Definition EntityId_lt (a b : EntityId) : bool := ulid a <? ulid b.

Abbreviation TenantId := EntityId.

(** [X.__post_init__] of the UUID-backed identifiers: the nil UUID is
    rejected with [ValueError]. *)
Definition non_nil (u : uuid) : option uuid := if u =? 0 then None else Some u.

(** ** Text *)

Definition hex_digit (n : Z) : Ascii.ascii :=
  Ascii.ascii_of_nat (Z.to_nat (if n <? 10 then 48 + n else 87 + n)).

(** The [w] low hexadecimal digits of [n], most significant first. *)
Fixpoint hex (w : nat) (n : Z) : string :=
  match w with
  | O => EmptyString
  | S w' => String (hex_digit (Z.land (Z.shiftr n (4 * Z.of_nat w')) 15)) (hex w' n)
  end.

Lemma hex_length w n : String.length (hex w n) = w.
Proof. induction w as [|w IH]; [done|]. cbn [hex String.length]. by rewrite IH. Qed.

(** [str(UUID)]: the 8-4-4-4-12 form. *)
Definition str_uuid (u : uuid) : string :=
  hex 8 (Z.shiftr u 96) +:+ "-" +:+ hex 4 (Z.shiftr u 80) +:+ "-" +:+
  hex 4 (Z.shiftr u 64) +:+ "-" +:+ hex 4 (Z.shiftr u 48) +:+ "-" +:+ hex 12 u.

(** [str(int)] *)
Definition str_int (n : Z) : string := pretty n.

(** ** Datetimes

    An aware [datetime] in UTC is its number of microseconds since the Unix
    epoch; comparison and subtraction are those of the integers. *)
Definition datetime := Z.

(** The [w] low decimal digits of [n]. *)
Fixpoint dec (w : nat) (n : Z) : string :=
  match w with
  | O => EmptyString
  | S w' =>
      dec w' (n / 10) +:+ String (Ascii.ascii_of_nat (Z.to_nat (48 + n mod 10))) EmptyString
  end.

(** Year, month and day of a day number (days since 1970-01-01) in the
    proleptic Gregorian calendar. *)
Definition civil_of_days (days : Z) : Z * Z * Z :=
  let z := days + 719468 in
  let era := z / 146097 in
  let doe := z - era * 146097 in
  let yoe := (doe - doe / 1460 + doe / 36524 - doe / 146096) / 365 in
  let doy := doe - (365 * yoe + yoe / 4 - yoe / 100) in
  let mp := (5 * doy + 2) / 153 in
  let d := doy - (153 * mp + 2) / 5 + 1 in
  let m := if mp <? 10 then mp + 3 else mp - 9 in
  let y := yoe + era * 400 in
  ((if m <=? 2 then y + 1 else y), m, d).

(** [datetime.isoformat()] of an aware UTC datetime: the fraction is printed
    only when it is not zero. *)
Definition isoformat (t : datetime) : string :=
  let secs := t / 1000000 in
  let us := t mod 1000000 in
  let '(y, m, d) := civil_of_days (secs / 86400) in
  let sod := secs mod 86400 in
  dec 4 y +:+ "-" +:+ dec 2 m +:+ "-" +:+ dec 2 d +:+ "T" +:+
  dec 2 (sod / 3600) +:+ ":" +:+ dec 2 (sod / 60 mod 60) +:+ ":" +:+ dec 2 (sod mod 60) +:+
  (if us =? 0 then "" else "." +:+ dec 6 us) +:+ "+00:00".

(** [timedelta.total_seconds() >= n], in microseconds. *)
Definition elapsed_at_least (now since : datetime) (seconds : Z) : bool :=
  seconds * 1000000 <=? now - since.

(** ** Sanity of the textual forms *)

Example str_uuid_example :
  str_uuid 0x0123456789abcdef0123456789abcdef = "01234567-89ab-cdef-0123-456789abcdef".
Proof. vm_compute. reflexivity. Qed.

Example isoformat_example :
  isoformat 1709210096000000 = "2024-02-29T12:34:56+00:00" ∧
  isoformat 1709210096000042 = "2024-02-29T12:34:56.000042+00:00".
Proof. vm_compute. done. Qed.

(** ** Domain events

    The envelope every bounded context gives its events.  [event_id] is a fresh
    [uuid7()] that nothing reads back and [aggregate_type] is a constant of the
    aggregate, so neither is kept; [str()] of an id is kept as the id. *)
Record DomainEvent (P : Type) := mkEvent {
  ev_occurred_at : datetime;
  ev_tenant_id : TenantId;
  ev_aggregate_id : uuid;
  ev_payload : P
}.
Arguments mkEvent {P}.
Arguments ev_occurred_at {P}.
Arguments ev_tenant_id {P}.
Arguments ev_aggregate_id {P}.
Arguments ev_payload {P}.
