(* ===== verification/PyParse.v ===== *)
(** Reading back the texts of the standard library: [UUID(text)] and
    [datetime.fromisoformat(text)], inverse to [str] and [isoformat]. *)
From stdpp Require Import base tactics list strings.
From Stdlib Require Import Ascii ZArith Lia.
From S2P Require Import Prelude PyTypes.

Local Open Scope Z_scope.

(** ** UUIDs *)

(** A 128-bit integer. *)
Definition uuid_ok (u : uuid) : Prop := 0 <= u < 2 ^ 128.

Definition hex_value (c : Ascii.ascii) : option Z :=
  let n := Z.of_nat (Ascii.nat_of_ascii c) in
  if (48 <=? n) && (n <=? 57) then Some (n - 48)
  else if (97 <=? n) && (n <=? 102) then Some (n - 87)
  else if (65 <=? n) && (n <=? 70) then Some (n - 55)
  else None.

(** [int(s, 16)] of hexadecimal digits, with the digits read so far. *)
Fixpoint int16 (acc : Z) (s : string) : option Z :=
  match s with
  | EmptyString => Some acc
  | String c s => d ← hex_value c; int16 (16 * acc + d) s
  end.

Definition dash : Ascii.ascii := Ascii.ascii_of_nat 45.

(** [s.replace("-", "")] *)
Fixpoint drop_dashes (s : string) : string :=
  match s with
  | EmptyString => EmptyString
  | String c s => if decide (c = dash) then drop_dashes s else String c (drop_dashes s)
  end.

(** [UUID(s)]; the [urn:uuid:] prefix and the braces it also accepts are not
    modelled. *)
Definition uuid_of_text (s : string) : option uuid :=
  let h := drop_dashes s in
  if bool_decide (String.length h = 32%nat) then int16 0 h else None.

(** *** Lemmas *)

Lemma append_cons c s r : String c s +:+ r = String c (s +:+ r).
Proof. done. Qed.
Lemma append_nil r : "" +:+ r = r.
Proof. done. Qed.

Lemma hex_value_digit n : 0 <= n < 16 → hex_value (hex_digit n) = Some n ∧ hex_digit n ≠ dash.
Proof.
  intros Hn. assert (n ∈ map Z.of_nat (seq 0 16)) as Hin.
  { apply list_elem_of_fmap. exists (Z.to_nat n). split; [lia|]. apply elem_of_seq. lia. }
  repeat (apply elem_of_cons in Hin as [->|Hin]; [done|]). by apply not_elem_of_nil in Hin.
Qed.

Lemma nibble_bounds n k : 0 <= Z.land (Z.shiftr n k) 15 < 16.
Proof. change 15 with (Z.ones 4). rewrite Z.land_ones by lia. by apply Z.mod_pos_bound. Qed.

(** Reading the digits of a number. *)
Lemma int16_hex w n acc : int16 acc (hex w n) = Some (acc * 16 ^ Z.of_nat w + n mod 16 ^ Z.of_nat w).
Proof.
  revert acc. induction w as [|w IH]; intros acc.
  - cbn [hex int16]. f_equal. rewrite Z.pow_0_r, Z.mod_1_r. lia.
  - cbn [hex int16]. rewrite (proj1 (hex_value_digit _ (nibble_bounds _ _))). cbn [mbind option_bind].
    rewrite IH. f_equal. change 15 with (Z.ones 4). rewrite Z.land_ones, Z.shiftr_div_pow2 by lia.
    replace (2 ^ (4 * Z.of_nat w)) with (16 ^ Z.of_nat w) by (rewrite Z.pow_mul_r by lia; done).
    rewrite Nat2Z.inj_succ, Z.pow_succ_r by lia. change (2 ^ 4) with 16.
    rewrite (Z.mul_comm 16 (16 ^ _)), Z.rem_mul_r by lia. ring.
Qed.

Lemma hex_add a b n : hex (a + b) n = hex a (Z.shiftr n (4 * Z.of_nat b)) +:+ hex b n.
Proof.
  induction a as [|a IH]; [done|]. cbn [hex Nat.add]. rewrite append_cons, IH. f_equal.
  rewrite Z.shiftr_shiftr by lia.
  by replace (4 * Z.of_nat b + 4 * Z.of_nat a) with (4 * Z.of_nat (a + b)) by lia.
Qed.

Lemma drop_dashes_hex w n r : drop_dashes (hex w n +:+ r) = hex w n +:+ drop_dashes r.
Proof.
  induction w as [|w IH]; [done|]. cbn [hex]. rewrite !append_cons. cbn [drop_dashes].
  rewrite decide_False by (apply hex_value_digit, nibble_bounds). by rewrite IH.
Qed.

Lemma drop_dash r : drop_dashes ("-" +:+ r) = drop_dashes r.
Proof. done. Qed.

Lemma string_append_empty s : s +:+ "" = s.
Proof. induction s as [|c s IH]; [done|]. by rewrite append_cons, IH. Qed.

Lemma drop_dashes_uuid u : drop_dashes (str_uuid u) = hex 32 u.
Proof.
  unfold str_uuid. rewrite drop_dashes_hex. rewrite drop_dash.
  rewrite drop_dashes_hex. rewrite drop_dash.
  rewrite drop_dashes_hex. rewrite drop_dash.
  rewrite drop_dashes_hex. rewrite drop_dash.
  rewrite <- (string_append_empty (hex 12 u)), drop_dashes_hex. cbn [drop_dashes].
  rewrite string_append_empty. change 32%nat with (8 + (4 + (4 + (4 + 12))))%nat.
  by rewrite !hex_add.
Qed.

Lemma uuid_round u : uuid_ok u → uuid_of_text (str_uuid u) = Some u.
Proof.
  intros Hu. unfold uuid_of_text. rewrite drop_dashes_uuid, hex_length, bool_decide_eq_true_2 by done.
  rewrite int16_hex. f_equal. change (16 ^ Z.of_nat 32) with (2 ^ 128). rewrite Z.mod_small by done. lia.
Qed.

Lemma str_uuid_inj u v : uuid_ok u → uuid_ok v → str_uuid u = str_uuid v → u = v.
Proof. intros Hu Hv Heq. apply (f_equal uuid_of_text) in Heq. rewrite !uuid_round in Heq by done. by injection Heq. Qed.

(** ** Datetimes *)

Definition dec_value (c : Ascii.ascii) : option Z :=
  let n := Z.of_nat (Ascii.nat_of_ascii c) in
  if (48 <=? n) && (n <=? 57) then Some (n - 48) else None.

(** [w] decimal digits from the front of a text, after those read so far. *)
Fixpoint digits (w : nat) (acc : Z) (s : string) : option (Z * string) :=
  match w, s with
  | O, _ => Some (acc, s)
  | S w, String c s => d ← dec_value c; digits w (10 * acc + d) s
  | S _, EmptyString => None
  end.

(** A separator from the front of a text. *)
Definition expect (c : Ascii.ascii) (s : string) : option string :=
  match s with
  | String c' s => if decide (c' = c) then Some s else None
  | EmptyString => None
  end.

Arguments expect c%_char_scope s%_string_scope.

(** A number of [w] digits and the separator after it. *)
Definition number (w : nat) (sep : Ascii.ascii) (s : string) : option (Z * string) :=
  '(n, s) ← digits w 0 s;
  s ← expect sep s;
  Some (n, s).
Arguments number w%_nat_scope sep%_char_scope s%_string_scope.

(** The day number of a date, inverse to [civil_of_days]. *)
Definition days_of_civil (y m d : Z) : Z :=
  let y := if m <=? 2 then y - 1 else y in
  let era := y / 400 in
  let yoe := y - era * 400 in
  let doy := (153 * (if m <=? 2 then m + 9 else m - 3) + 2) / 5 + d - 1 in
  era * 146097 + (yoe * 365 + yoe / 4 - yoe / 100 + doy) - 719468.

(** A date of the calendar between [MINYEAR] and [MAXYEAR]. *)
Definition date_ok (y m d : Z) : bool :=
  (1 <=? y) && (y <=? 9999) && bool_decide (civil_of_days (days_of_civil y m d) = (y, m, d)).

(** [datetime.fromisoformat(s)] on the form [isoformat] writes for UTC, with an
    optional fraction of six digits; the other ISO 8601 forms are not
    modelled. *)
Definition fromisoformat (s : string) : option datetime :=
  '(y, s) ← number 4 "-" s;
  '(m, s) ← number 2 "-" s;
  '(d, s) ← number 2 "T" s;
  '(hh, s) ← number 2 ":" s;
  '(mm, s) ← number 2 ":" s;
  '(ss, s) ← digits 2 0 s;
  '(us, s) ← match expect "."%char s with Some s => digits 6 0 s | None => Some (0, s) end;
  if bool_decide (s = "+00:00") && date_ok y m d && (hh <? 24) && (mm <? 60) && (ss <? 60)
  then Some ((days_of_civil y m d * 86400 + hh * 3600 + mm * 60 + ss) * 1000000 + us)
  else None.

(** A value of the type [datetime]: its year has four digits. *)
Definition datetime_ok (t : datetime) : Prop := 1 <= (civil_of_days (t / 1000000 / 86400)).1.1 <= 9999.

(** *** Lemmas *)

Lemma dec_value_digit n : 0 <= n < 10 → dec_value (Ascii.ascii_of_nat (Z.to_nat (48 + n))) = Some n.
Proof.
  intros Hn. assert (n ∈ map Z.of_nat (seq 0 10)) as Hin.
  { apply list_elem_of_fmap. exists (Z.to_nat n). split; [lia|]. apply elem_of_seq. lia. }
  repeat (apply elem_of_cons in Hin as [->|Hin]; [done|]). by apply not_elem_of_nil in Hin.
Qed.

Lemma digits_add a b acc s : digits (a + b) acc s = '(acc, s) ← digits a acc s; digits b acc s.
Proof.
  revert acc s. induction a as [|a IH]; intros acc s; [done|]. destruct s as [|c s]; [done|].
  simpl. destruct (dec_value c); [apply IH|done].
Qed.

Lemma digits_dec w n acc r :
  digits w acc (dec w n +:+ r) = Some (acc * 10 ^ Z.of_nat w + n mod 10 ^ Z.of_nat w, r).
Proof.
  revert n acc r. induction w as [|w IH]; intros n acc r.
  - cbn [dec digits]. rewrite Z.pow_0_r, Z.mod_1_r. simpl. do 2 f_equal. lia.
  - replace (S w) with (w + 1)%nat at 1 by lia. cbn [dec]. rewrite digits_add, string_app_assoc, IH.
    rewrite append_cons, append_nil. cbn [mbind option_bind digits]. rewrite dec_value_digit by by apply Z.mod_pos_bound.
    cbn [mbind option_bind]. do 2 f_equal. rewrite Nat2Z.inj_succ, Z.pow_succ_r by lia.
    rewrite (Z.rem_mul_r n 10) by lia. ring.
Qed.

Lemma digits_read w n r : 0 <= n < 10 ^ Z.of_nat w → digits w 0 (dec w n +:+ r) = Some (n, r).
Proof. intros Hn. rewrite digits_dec, Z.mod_small by done. done. Qed.

Lemma expect_read c s : expect c (String c s) = Some s.
Proof. unfold expect. by rewrite decide_True. Qed.

(** The year of an era and the day of a year. *)
Lemma year_of_era doe : 0 <= doe < 146097 →
  let yoe := (doe - doe / 1460 + doe / 36524 - doe / 146096) / 365 in
  0 <= yoe < 400 ∧ 0 <= doe - (365 * yoe + yoe / 4 - yoe / 100) <= 365.
Proof. intros Hd yoe. subst yoe. Z.to_euclidean_division_equations. lia. Qed.

(** The month and the day of a day of the year that starts in March. *)
Lemma month_of_year doy : 0 <= doy <= 365 →
  let mp := (5 * doy + 2) / 153 in 0 <= mp <= 11 ∧ 1 <= doy - (153 * mp + 2) / 5 + 1 <= 31.
Proof. intros Hd mp. subst mp. Z.to_euclidean_division_equations. lia. Qed.

(** [days_of_civil] inverts [civil_of_days], which answers two-digit months and
    days. *)
Lemma civil_round z : let '(y, m, d) := civil_of_days z in
  days_of_civil y m d = z ∧ 1 <= m <= 12 ∧ 1 <= d <= 31.
Proof.
  unfold civil_of_days. set (era := (z + 719468) / 146097). set (doe := z + 719468 - era * 146097).
  assert (0 <= doe < 146097) as Hdoe.
  { subst doe era. pose proof (Z.mod_pos_bound (z + 719468) 146097 ltac:(lia)) as Hb.
    rewrite Z.mod_eq in Hb by lia. lia. }
  destruct (year_of_era doe Hdoe) as [Hyoe Hdoy].
  set (yoe := (doe - doe / 1460 + doe / 36524 - doe / 146096) / 365) in *.
  set (doy := doe - (365 * yoe + yoe / 4 - yoe / 100)) in *.
  destruct (month_of_year doy Hdoy) as [Hmp Hd]. set (mp := (5 * doy + 2) / 153) in *.
  assert ((yoe + era * 400) / 400 = era) as Hera by (rewrite Z.div_add by lia; rewrite Z.div_small by lia; lia).
  unfold days_of_civil. destruct (Z.ltb_spec mp 10).
  - rewrite !(proj2 (Z.leb_gt (mp + 3) 2)) by lia. rewrite Hera.
    replace (mp + 3 - 3) with mp by lia. replace (yoe + era * 400 - era * 400) with yoe by lia.
    split; [|lia]. subst doy doe. lia.
  - rewrite !(proj2 (Z.leb_le (mp - 9) 2)) by lia.
    replace (yoe + era * 400 + 1 - 1) with (yoe + era * 400) by lia. rewrite Hera.
    replace (mp - 9 + 9) with mp by lia. replace (yoe + era * 400 - era * 400) with yoe by lia.
    split; [|lia]. subst doy doe. lia.
Qed.

Lemma number_read w sep n r : 0 <= n < 10 ^ Z.of_nat w →
  number w sep (dec w n +:+ String sep EmptyString +:+ r) = Some (n, r).
Proof.
  intros Hn. unfold number. rewrite digits_read by done. cbn [mbind option_bind].
  by rewrite append_cons, append_nil, expect_read.
Qed.

(** A time of day from its hour, minute and second. *)
Lemma time_of_day sod : 0 <= sod < 86400 →
  sod / 3600 * 3600 + sod / 60 mod 60 * 60 + sod mod 60 = sod ∧
  0 <= sod / 3600 < 24 ∧ 0 <= sod / 60 mod 60 < 60 ∧ 0 <= sod mod 60 < 60.
Proof. intros Hs. Z.to_euclidean_division_equations. lia. Qed.

(** ** Round trip *)

Lemma isoformat_round t : datetime_ok t → fromisoformat (isoformat t) = Some t.
Proof.
  unfold datetime_ok, isoformat. pose proof (civil_round (t / 1000000 / 86400)) as Hc.
  destruct (civil_of_days (t / 1000000 / 86400)) as [[y m] d] eqn:Hciv. cbn [fst]. destruct Hc as (Hdays & Hm & Hd). intros Hy.
  set (sod := t / 1000000 mod 86400). assert (0 <= sod < 86400) as Hsod by by apply Z.mod_pos_bound.
  destruct (time_of_day sod Hsod) as (Htime & Hhh & Hmm & Hss).
  assert (0 <= t mod 1000000 < 1000000) as Hus by by apply Z.mod_pos_bound.
  unfold fromisoformat.
  rewrite (number_read 4) by (simpl; lia). cbn [mbind option_bind].
  rewrite (number_read 2) by (simpl; lia). cbn [mbind option_bind].
  rewrite (number_read 2) by (simpl; lia). cbn [mbind option_bind].
  rewrite (number_read 2) by (simpl; lia). cbn [mbind option_bind].
  rewrite (number_read 2) by (simpl; lia). cbn [mbind option_bind].
  rewrite digits_read by (simpl; lia). cbn [mbind option_bind].
  assert (match expect "."%char ((if t mod 1000000 =? 0 then "" else "." +:+ dec 6 (t mod 1000000)) +:+ "+00:00")
          with Some s => digits 6 0 s | None => Some (0, (if t mod 1000000 =? 0 then "" else
            "." +:+ dec 6 (t mod 1000000)) +:+ "+00:00") end = Some (t mod 1000000, "+00:00")) as ->.
  { destruct (Z.eqb_spec (t mod 1000000) 0) as [->|Hne]; [done|].
    rewrite string_app_assoc, append_cons, append_nil, expect_read. by rewrite digits_read. }
  cbn [mbind option_bind]. unfold date_ok. rewrite Hdays, Hciv, !bool_decide_eq_true_2 by done.
  rewrite !(proj2 (Z.leb_le _ _)), !(proj2 (Z.ltb_lt _ _)) by lia. simpl. f_equal.
  pose proof (Z.div_mod t 1000000 ltac:(lia)). pose proof (Z.div_mod (t / 1000000) 86400 ltac:(lia)) as Hdiv.
  fold sod in Hdiv. lia.
Qed.

Example fromisoformat_examples :
  fromisoformat "2024-02-29T12:34:56.000042+00:00" = Some 1709210096000042 ∧
  fromisoformat "2023-02-29T12:34:56+00:00" = None ∧ fromisoformat "2024-02-01T25:00:00+00:00" = None.
Proof. vm_compute. done. Qed.
