(* ===== verification/Sha256.v ===== *)
(** [hashlib.sha256(text.encode("utf-8")).hexdigest()]: UTF-8, SHA-256
    (FIPS 180-4) on 32-bit words, and the hexadecimal digest. *)
From stdpp Require Import base tactics list strings.
From Stdlib Require Import ZArith Lia.
From S2P Require Import Prelude PyTypes.

Local Open Scope Z_scope.

(** ** UTF-8 *)

(** [str.encode("utf-8")] of code points up to U+00FF. *)
Fixpoint utf8 (s : string) : list Z :=
  match s with
  | EmptyString => []
  | String c s' =>
      let n := Z.of_nat (Ascii.nat_of_ascii c) in
      (if n <? 128 then [n] else [192 + n / 64; 128 + n mod 64]) ++ utf8 s'
  end.

(** ** 32-bit words *)

Definition mask32 : Z := 0xffffffff.
Definition w32 (x : Z) : Z := Z.land x mask32.
Definition add32 (x y : Z) : Z := w32 (x + y).
Definition shr (x n : Z) : Z := Z.shiftr x n.
Definition rotr (x n : Z) : Z := Z.lor (Z.shiftr x n) (w32 (Z.shiftl x (32 - n))).
Definition not32 (x : Z) : Z := Z.lxor x mask32.

Definition Ch (x y z : Z) : Z := Z.lxor (Z.land x y) (Z.land (not32 x) z).
Definition Maj (x y z : Z) : Z := Z.lxor (Z.lxor (Z.land x y) (Z.land x z)) (Z.land y z).
Definition Sigma0 (x : Z) : Z := Z.lxor (Z.lxor (rotr x 2) (rotr x 13)) (rotr x 22).
Definition Sigma1 (x : Z) : Z := Z.lxor (Z.lxor (rotr x 6) (rotr x 11)) (rotr x 25).
Definition sigma0 (x : Z) : Z := Z.lxor (Z.lxor (rotr x 7) (rotr x 18)) (shr x 3).
Definition sigma1 (x : Z) : Z := Z.lxor (Z.lxor (rotr x 17) (rotr x 19)) (shr x 10).

(** The constants are the first 32 bits of the fractional parts of the cube
    roots of the first 64 primes, and of the square roots of the first 8. *)
Definition is_prime (n : nat) : bool :=
  (2 <=? n)%nat && forallb (fun d => negb (n mod d =? 0)%nat) (seq 2 (n - 2)).

Definition primes64 : list Z := map Z.of_nat (List.filter is_prime (seq 0 312)).

(** The integer cube root of [n], one bit at a time from bit [k]. *)
Fixpoint cube_root (k : nat) (acc n : Z) : Z :=
  match k with
  | O => acc
  | S k' =>
      let acc' := acc + 2 ^ Z.of_nat k' in
      cube_root k' (if acc' ^ 3 <=? n then acc' else acc) n
  end.

Definition frac_cube_root (p : Z) : Z := w32 (cube_root 36 0 (p * 2 ^ 96)).
Definition frac_sqrt (p : Z) : Z := w32 (Z.sqrt (p * 2 ^ 64)).

Definition K256 : list Z := Eval vm_compute in map frac_cube_root primes64.

Record HashState := mkHash { ha : Z; hb : Z; hc : Z; hd : Z; he : Z; hf : Z; hg : Z; hh : Z }.

Definition H256 : HashState := Eval vm_compute in
  match map frac_sqrt (take 8 primes64) with
  | [a; b; c; d; e; f; g; h] => mkHash a b c d e f g h
  | _ => mkHash 0 0 0 0 0 0 0 0
  end.

(** ** Padding and blocks *)

Definition big_endian_64 (n : Z) : list Z :=
  map (fun i => Z.land (Z.shiftr n (8 * i)) 255) [7; 6; 5; 4; 3; 2; 1; 0].

(** The message, a one bit, zeros, and the bit length, in whole 64-byte blocks. *)
Definition pad (bytes : list Z) : list Z :=
  let len := Z.of_nat (length bytes) in
  bytes ++ [128] ++ replicate (Z.to_nat ((55 - len) mod 64)) 0 ++ big_endian_64 (8 * len).

Fixpoint words_of (bytes : list Z) : list Z :=
  match bytes with
  | a :: b :: c :: d :: rest =>
      Z.lor (Z.shiftl a 24) (Z.lor (Z.shiftl b 16) (Z.lor (Z.shiftl c 8) d)) :: words_of rest
  | _ => []
  end.

(** The message schedule, latest word first: each step needs the words 2, 7,
    15 and 16 positions back. *)
Fixpoint schedule (n : nat) (rev_words : list Z) : list Z :=
  match n with
  | O => rev_words
  | S n' =>
      let w i := nth i rev_words 0 in
      schedule n' (add32 (add32 (sigma1 (w 1%nat)) (w 6%nat)) (add32 (sigma0 (w 14%nat)) (w 15%nat)) :: rev_words)
  end.

Definition round (h : HashState) (kw : Z * Z) : HashState :=
  let t1 := add32 (add32 (hh h) (Sigma1 (he h))) (add32 (Ch (he h) (hf h) (hg h)) (add32 kw.1 kw.2)) in
  let t2 := add32 (Sigma0 (ha h)) (Maj (ha h) (hb h) (hc h)) in
  mkHash (add32 t1 t2) (ha h) (hb h) (hc h) (add32 (hd h) t1) (he h) (hf h) (hg h).

Definition compress (h : HashState) (block : list Z) : HashState :=
  let ws := rev (schedule 48 (rev block)) in
  let r := foldl round h (combine K256 ws) in
  mkHash (add32 (ha h) (ha r)) (add32 (hb h) (hb r)) (add32 (hc h) (hc r)) (add32 (hd h) (hd r))
    (add32 (he h) (he r)) (add32 (hf h) (hf r)) (add32 (hg h) (hg r)) (add32 (hh h) (hh r)).

(** The blocks are 16 words each; the number of words bounds their number. *)
Fixpoint hash_blocks (fuel : nat) (h : HashState) (ws : list Z) : HashState :=
  match fuel, ws with
  | S fuel', _ :: _ => hash_blocks fuel' (compress h (take 16 ws)) (drop 16 ws)
  | _, _ => h
  end.

Definition sha256 (bytes : list Z) : HashState :=
  let ws := words_of (pad bytes) in hash_blocks (length ws) H256 ws.

Definition hexdigest (h : HashState) : string :=
  hex 8 (ha h) +:+ hex 8 (hb h) +:+ hex 8 (hc h) +:+ hex 8 (hd h) +:+
  hex 8 (he h) +:+ hex 8 (hf h) +:+ hex 8 (hg h) +:+ hex 8 (hh h).

(** [hashlib.sha256(s.encode("utf-8")).hexdigest()] *)
Definition sha256_hex (s : string) : string := hexdigest (sha256 (utf8 s)).

(** ** Facts *)

(** The test vectors of FIPS 180-4: one block, the empty message, two blocks. *)
Example sha256_vectors :
  sha256_hex "abc" = "ba7816bf8f01cfea414140de5dae2223b00361a396177a9cb410ff61f20015ad" ∧
  sha256_hex "" = "e3b0c44298fc1c149afbf4c8996fb92427ae41e4649b934ca495991b7852b855" ∧
  sha256_hex "abcdbcdecdefdefgefghfghighijhijkijkljklmklmnlmnomnopnopq" =
    "248d6a61d20638b8e5c026930c3e6039a33ce45964ff2167f6ecedd419db06c1".
Proof. vm_compute. done. Qed.

Lemma sha256_hex_length s : String.length (sha256_hex s) = 64%nat.
Proof. unfold sha256_hex, hexdigest. rewrite !string_length_app, !hex_length. done. Qed.
