(* ===== verification/PyJson.v ===== *)
(** [json.dumps(value, sort_keys=True, separators=(",", ":"))] on the values
    without floating-point numbers. *)
From stdpp Require Import base tactics list strings sorting.
From Stdlib Require Import ZArith Lia.
From S2P Require Import Prelude PyTypes.

Local Open Scope Z_scope.

Inductive Json :=
  | JNull
  | JBool (b : bool)
  | JInt (n : Z)
  | JStr (s : string)
  | JArr (l : list Json)
  | JObj (items : list (string * Json)).

(** Order of [str] by code points. *)
Definition str_le (a b : string) : Prop := String.leb a b = true.
#[export] Instance str_le_dec : RelDecision str_le.
Proof. intros a b. unfold str_le. exact (bool_eq_dec _ _). Defined.

(** [sorted] of a collection of strings. *)
Definition sorted_strings (l : list string) : list string := merge_sort str_le l.

(** [sep.join(l)] *)
Fixpoint join (sep : string) (l : list string) : string :=
  match l with
  | [] => ""
  | [s] => s
  | s :: l' => s +:+ sep +:+ join sep l'
  end.

(** One character inside a JSON string, with [ensure_ascii]. *)
Definition escape_char (c : Ascii.ascii) : string :=
  let n := Z.of_nat (Ascii.nat_of_ascii c) in
  let bs := String (Ascii.ascii_of_nat 92) EmptyString in
  if n =? 34 then bs +:+ String (Ascii.ascii_of_nat 34) EmptyString
  else if n =? 92 then bs +:+ bs
  else if n =? 10 then bs +:+ "n"
  else if n =? 13 then bs +:+ "r"
  else if n =? 9 then bs +:+ "t"
  else if n =? 12 then bs +:+ "f"
  else if n =? 8 then bs +:+ "b"
  else if (32 <=? n) && (n <=? 126) then String c EmptyString
  else bs +:+ "u" +:+ hex 4 n.

Fixpoint escape (s : string) : string :=
  match s with
  | EmptyString => EmptyString
  | String c s' => escape_char c +:+ escape s'
  end.

Definition quote : string := String (Ascii.ascii_of_nat 34) EmptyString.
Definition dumps_str (s : string) : string := quote +:+ escape s +:+ quote.

(** Items in the order of their keys, keys compared by code points. *)
Fixpoint insert_item {A} (kv : string * A) (l : list (string * A)) : list (string * A) :=
  match l with
  | [] => [kv]
  | kv' :: l' => if String.leb kv.1 kv'.1 then kv :: l else kv' :: insert_item kv l'
  end.

Definition sort_items {A} (l : list (string * A)) : list (string * A) := foldr insert_item [] l.

Fixpoint dumps (v : Json) : string :=
  match v with
  | JNull => "null"
  | JBool b => if b then "true" else "false"
  | JInt n => str_int n
  | JStr s => dumps_str s
  | JArr l => "[" +:+ join "," (map dumps l) +:+ "]"
  | JObj items =>
      "{" +:+ join "," (map (fun kv => dumps_str kv.1 +:+ ":" +:+ kv.2)
                         (sort_items (map (fun kv => (kv.1, dumps kv.2)) items))) +:+ "}"
  end.

Example dumps_example :
  dumps (JObj [("port", JInt 443); ("host", JStr "10.0.0.1"); ("flags", JArr [JBool true; JNull; JInt (-7)])])
  = "{" +:+ dumps_str "flags" +:+ ":[true,null,-7]," +:+ dumps_str "host" +:+ ":" +:+
    dumps_str "10.0.0.1" +:+ "," +:+ dumps_str "port" +:+ ":443}".
Proof. vm_compute. reflexivity. Qed.
