(* ===== verification/JsonText.v ===== *)
(** What the text of [json.dumps] determines: compact JSON with sorted keys can be
    read back from the front of a text, so it identifies the value up to the order
    of the members of its objects. *)
From stdpp Require Import base tactics list strings sorting pretty.
From Stdlib Require Import ZArith Lia Ascii.
From S2P Require Import Prelude PyTypes PyParse PyJson.

Local Open Scope Z_scope.

(** ** Reading escaped characters back *)

Definition backslash : Ascii.ascii := Ascii.ascii_of_nat 92.
Definition quote_char : Ascii.ascii := Ascii.ascii_of_nat 34.

Definition of_hex (c : Ascii.ascii) : nat :=
  let n := Ascii.nat_of_ascii c in if (n <? 58)%nat then (n - 48)%nat else (n - 87)%nat.

(** The character an escaped text begins with, and the rest. *)
Definition read_char (s : string) : option (Ascii.ascii * string) :=
  match s with
  | EmptyString => None
  | String c r =>
      if Ascii.eqb c quote_char then None
      else if Ascii.eqb c backslash then
        match r with
        | String "n"%char r => Some (Ascii.ascii_of_nat 10, r)
        | String "r"%char r => Some (Ascii.ascii_of_nat 13, r)
        | String "t"%char r => Some (Ascii.ascii_of_nat 9, r)
        | String "f"%char r => Some (Ascii.ascii_of_nat 12, r)
        | String "b"%char r => Some (Ascii.ascii_of_nat 8, r)
        | String "u"%char (String _ (String _ (String h (String l r)))) =>
            Some (Ascii.ascii_of_nat (16 * of_hex h + of_hex l), r)
        | String d r => Some (d, r)
        | EmptyString => None
        end
      else Some (c, r)
  end.

Lemma read_escape_char c r : read_char (escape_char c +:+ r) = Some (c, r).
Proof. by destruct c as [[] [] [] [] [] [] [] []]. Qed.

Lemma read_quote r : read_char (quote +:+ r) = None.
Proof. done. Qed.

Lemma escape_inj s s' r r' : escape s +:+ quote +:+ r = escape s' +:+ quote +:+ r' → s = s' ∧ r = r'.
Proof.
  revert s'. induction s as [|c s IH]; intros [|c' s']; cbn [escape].
  - change ("" +:+ quote +:+ r) with (quote +:+ r). change ("" +:+ quote +:+ r') with (quote +:+ r').
    intros Heq. split; [done|]. by apply string_app_inj in Heq as [_ ?].
  - intros Heq. apply (f_equal read_char) in Heq.
    rewrite string_app_assoc, read_escape_char in Heq. discriminate Heq.
  - intros Heq. apply (f_equal read_char) in Heq.
    rewrite string_app_assoc, read_escape_char in Heq. discriminate Heq.
  - rewrite !string_app_assoc. intros Heq. pose proof Heq as Hread. apply (f_equal read_char) in Hread.
    rewrite !read_escape_char in Hread. injection Hread as -> Hrest.
    destruct (IH s' Hrest) as [-> ->]. done.
Qed.

Lemma dumps_str_inj s s' r r' : dumps_str s +:+ r = dumps_str s' +:+ r' → s = s' ∧ r = r'.
Proof.
  unfold dumps_str. rewrite !string_app_assoc.
  intros [_ Heq]%string_app_inj; [|done]. by apply escape_inj.
Qed.

(** ** Characters of texts *)

(** A property of every character of a text. *)
Fixpoint string_all (P : Ascii.ascii → Prop) (s : string) : Prop :=
  match s with String c s' => P c ∧ string_all P s' | EmptyString => True end.

Lemma string_all_app P a b : string_all P a → string_all P b → string_all P (a +:+ b).
Proof. induction a as [|c a IH]; [done|]. rewrite append_cons. intros [? ?] ?. split; auto. Qed.

(** The characters of the text of a UUID. *)
Lemma uuid_all (P : Ascii.ascii → Prop) u : (∀ d, 0 ≤ d < 16 → P (hex_digit d)) → P dash → string_all P (str_uuid u).
Proof.
  intros Hd Hdash. assert (∀ w n, string_all P (hex w n)) as Hhex.
  { intros w n. induction w as [|w IH]; [done|]. split; [|done]. apply Hd. change 15 with (Z.ones 4).
    rewrite Z.land_ones by lia. by apply Z.mod_pos_bound. }
  unfold str_uuid. repeat (apply string_all_app; [first [apply Hhex|by split]|]). apply Hhex.
Qed.

Lemma hex_digit_cases (P : Ascii.ascii → Prop) : Forall P (map hex_digit [0; 1; 2; 3; 4; 5; 6; 7; 8; 9; 10; 11; 12; 13; 14; 15]) →
  ∀ d, 0 ≤ d < 16 → P (hex_digit d).
Proof.
  rewrite Forall_forall. intros HP d Hd. apply HP, list_elem_of_fmap_2. rewrite !elem_of_cons. lia.
Qed.

(** ** Sorted members *)

Lemma insert_item_perm {A} (kv : string * A) l : insert_item kv l ≡ₚ kv :: l.
Proof.
  induction l as [|kv' l IH]; simpl; [done|]. destruct (String.leb kv.1 kv'.1); [done|].
  rewrite IH. apply Permutation_swap.
Qed.

Lemma sort_items_perm {A} (l : list (string * A)) : sort_items l ≡ₚ l.
Proof. induction l as [|kv l IH]; simpl; [done|]. by rewrite insert_item_perm, IH. Qed.

Lemma str_le_trans a b c : str_le a b → str_le b c → str_le a c.
Proof.
  unfold str_le, String.leb. revert b c. induction a as [|x a IH]; intros [|y b] [|z c]; simpl; try done.
  destruct (Ascii.compare x y) eqn:Hxy, (Ascii.compare y z) eqn:Hyz; try done;
    unfold Ascii.compare in *; rewrite ?N.compare_eq_iff, ?N.compare_lt_iff in *.
  - replace (N.compare (Ascii.N_of_ascii x) (Ascii.N_of_ascii z)) with Eq by (symmetry; apply N.compare_eq_iff; congruence).
    apply IH.
  - intros _ _. by rewrite (proj2 (N.compare_lt_iff _ _)) by lia.
  - intros _ _. by rewrite (proj2 (N.compare_lt_iff _ _)) by lia.
  - intros _ _. by rewrite (proj2 (N.compare_lt_iff _ _)) by lia.
Qed.

Definition key_le {A} (x y : string * A) : Prop := str_le x.1 y.1.

Lemma insert_item_sorted {A} (kv : string * A) l : StronglySorted key_le l → StronglySorted key_le (insert_item kv l).
Proof.
  induction 1 as [|kv' l Hs IH Hall]; simpl; [by repeat constructor|].
  destruct (String.leb kv.1 kv'.1) eqn:Hle.
  - constructor; [by constructor|]. constructor; [done|].
    eapply Forall_impl; [exact Hall|]. intros z Hz. by apply (str_le_trans _ kv'.1).
  - constructor; [done|]. rewrite Forall_forall. intros z. rewrite insert_item_perm, elem_of_cons. intros [->|Hz].
    + destruct (String.leb_total kv.1 kv'.1) as [Hle'|Hle']; [congruence|exact Hle'].
    + rewrite Forall_forall in Hall. by apply Hall.
Qed.

Lemma sort_items_sorted {A} (l : list (string * A)) : StronglySorted key_le (sort_items l).
Proof. induction l as [|kv l IH]; simpl; [constructor|by apply insert_item_sorted]. Qed.

(** Sorting only looks at the keys. *)
Lemma sort_items_map {A B} (f : A → B) (l : list (string * A)) :
  sort_items (map (λ kv, (kv.1, f kv.2)) l) = map (λ kv, (kv.1, f kv.2)) (sort_items l).
Proof.
  assert (∀ kv l, insert_item (kv.1, f kv.2) (map (λ kv, (kv.1, f kv.2)) l) =
    map (λ kv, (kv.1, f kv.2)) (insert_item kv l)) as Hins.
  { intros kv l'. induction l' as [|kv' l' IH]; [done|]. simpl. destruct (String.leb kv.1 kv'.1); simpl; [done|by rewrite IH]. }
  induction l as [|kv l IH]; [done|]. simpl. by rewrite IH, Hins.
Qed.

(** ** Numerals *)

Definition numeral_char (c : Ascii.ascii) : Prop :=
  c ∈ map Ascii.ascii_of_nat [45; 48; 49; 50; 51; 52; 53; 54; 55; 56; 57]%nat.

(** A text of such characters that is not empty. *)
Definition numeral (s : string) : Prop := s ≠ "" ∧ string_all numeral_char s.

Lemma pretty_N_go_numeral n s : numeral s → numeral (pretty_N_go n s).
Proof.
  revert s. induction (N.lt_wf_0 n) as [n _ IH]; intros s Hs. destruct (decide (n = 0)%N) as [->|Hn]; [done|].
  rewrite pretty_N_go_step by lia. apply IH; [apply N.div_lt; lia|]. split; [done|]. split; [|apply Hs].
  unfold pretty_N_char. repeat case_match; by_compute.
Qed.

Lemma str_int_numeral n : numeral (str_int n).
Proof.
  assert (∀ m : N, numeral (pretty m)) as HN.
  { intros m. cbv [pretty pretty_N]. case_decide as Hm; [split; [done|split; [by_compute|done]]|].
    rewrite pretty_N_go_step by lia. apply pretty_N_go_numeral. split; [done|]. split; [|done].
    unfold pretty_N_char. repeat case_match; by_compute. }
  cbv [str_int pretty pretty_Z]. destruct n; [split; [done|split; [by_compute|done]]|apply HN|].
  split; [done|]. apply string_all_app; [split; [by_compute|done]|apply HN].
Qed.

(** ** What a value may be followed by *)

Definition closer (c : Ascii.ascii) : Prop := c ∈ map Ascii.ascii_of_nat [44; 93; 125]%nat.
Definition ends (r : string) : Prop := match r with String c _ => closer c | EmptyString => True end.

Lemma numeral_inj a b r r' : string_all numeral_char a → string_all numeral_char b → ends r → ends r' →
  a +:+ r = b +:+ r' → a = b ∧ r = r'.
Proof.
  assert (∀ c s, ends (String c s) → ¬ numeral_char c) as Hno.
  { intros c s Hc. unfold ends, closer, numeral_char in *. revert Hc. rewrite !list_elem_of_fmap.
    intros (x & -> & Hx) (y & Heq & Hy). revert Hx Hy Heq. rewrite !elem_of_cons, !elem_of_nil. naive_solver. }
  intros Ha Hb Hr Hr'. revert b Hb. induction a as [|c a IH]; intros [|d b] Hb; rewrite ?append_nil, ?append_cons.
  - done.
  - intros ->. exfalso. apply (Hno d (b +:+ r')); [done|apply Hb].
  - intros <-. exfalso. apply (Hno c (a +:+ r)); [done|apply Ha].
  - intros [= -> Heq]. destruct Ha, Hb. destruct (IH ltac:(done) b) as [-> ->]; done.
Qed.

(** Members joined by commas and closed, in a code that can be read back from the
    front of a text where a member ends. *)
Section Join.
Context {A B : Type} (f : A → string) (g : A → B).

Definition opens (s : string) : Prop := match s with String c _ => ¬ closer c | EmptyString => False end.

Lemma join_inj l l' close r r' : closer close → close ≠ ","%char → (∀ x, opens (f x)) →
  (∀ x y r r', x ∈ l → ends r → ends r' → f x +:+ r = f y +:+ r' → g x = g y ∧ r = r') →
  join "," (map f l) +:+ String close r = join "," (map f l') +:+ String close r' → map g l = map g l' ∧ r = r'.
Proof.
  intros Hclose Hbracket Hopen. assert (closer ",") as Hcomma by by_compute.
  assert (∀ k (ks : list A) q, join "," (map f (k :: ks)) +:+ String close q =
    f k +:+ match ks with [] => String close q | _ :: _ => String "," (join "," (map f ks) +:+ String close q) end) as Hcons.
  { intros k [|k' ks] q; [done|]. change (join "," (map f (k :: k' :: ks))) with
      (f k +:+ "," +:+ join "," (map f (k' :: ks))). by rewrite !string_app_assoc, append_cons, append_nil. }
  assert (∀ k ks q q', String close q = join "," (map f (k :: ks)) +:+ String close q' → False) as Hnil.
  { intros k ks q q'. rewrite Hcons. specialize (Hopen k). destruct (f k) as [|c s]; [done|]. rewrite append_cons.
    by intros [= <- _]. }
  revert l'. induction l as [|x l IH]; intros [|y l'] Hinj Heq.
  - by injection Heq.
  - by apply Hnil in Heq.
  - symmetry in Heq. by apply Hnil in Heq.
  - rewrite !Hcons in Heq.
    assert (∀ (ks : list A) q, ends match ks with [] => String close q
      | _ :: _ => String "," (join "," (map f ks) +:+ String close q) end) as Hends by (intros [] ?; done).
    apply Hinj in Heq as [Hg Heq]; [|left|apply Hends..]. simpl. rewrite Hg.
    destruct l as [|x' l], l' as [|y' l'].
    + by injection Heq as ->.
    + by injection Heq as ? _.
    + by injection Heq as ? _.
    + injection Heq as Heq. destruct (IH (y' :: l')) as [-> ->]; [|done|done].
      intros a b q q' Ha. apply Hinj. by right.
Qed.
End Join.

(** ** Values *)

(** Induction with the members of containers. *)
Section Induction.
Context (P : Json → Prop) (Hnull : P JNull) (Hbool : ∀ b, P (JBool b)) (Hint : ∀ n, P (JInt n)) (Hstr : ∀ s, P (JStr s))
  (Harr : ∀ l, Forall P l → P (JArr l)) (Hobj : ∀ d, Forall (λ kv, P kv.2) d → P (JObj d)).

Fixpoint json_induction (v : Json) : P v :=
  match v with
  | JNull => Hnull
  | JBool b => Hbool b
  | JInt n => Hint n
  | JStr s => Hstr s
  | JArr l => Harr l ((fix all l := match l return Forall P l with
      | [] => List.Forall_nil P
      | v :: l => List.Forall_cons P v l (json_induction v) (all l) end) l)
  | JObj d => Hobj d ((fix all d := match d return Forall (λ kv, P kv.2) d with
      | [] => List.Forall_nil _
      | kv :: d => List.Forall_cons _ kv d (json_induction kv.2) (all d) end) d)
  end.
End Induction.

(** A value with the members of its objects in the order of their keys. *)
Fixpoint canon (v : Json) : Json :=
  match v with
  | JArr l => JArr (map canon l)
  | JObj d => JObj (sort_items (map (fun kv => (kv.1, canon kv.2)) d))
  | v => v
  end.

Definition member (kv : string * Json) : string := dumps_str kv.1 +:+ ":" +:+ dumps kv.2.

Lemma dumps_arr l : dumps (JArr l) = "[" +:+ join "," (map dumps l) +:+ "]".
Proof. done. Qed.
Lemma dumps_obj d : dumps (JObj d) = "{" +:+ join "," (map member (sort_items d)) +:+ "}".
Proof. cbn [dumps]. by rewrite sort_items_map, map_map. Qed.

(** The kind of a value shows in the first character of its text. *)
Definition kind (v : Json) : nat :=
  match v with JNull => 0 | JBool _ => 1 | JInt _ => 2 | JStr _ => 3 | JArr _ => 4 | JObj _ => 5 end.
Definition kind_of_char (c : Ascii.ascii) : nat :=
  if Ascii.eqb c "n" then 0 else if Ascii.eqb c "t" || Ascii.eqb c "f" then 1
  else if Ascii.eqb c quote_char then 3 else if Ascii.eqb c "[" then 4 else if Ascii.eqb c "{" then 5 else 2.

Lemma dumps_first v r : match dumps v +:+ r with String c _ => kind_of_char c = kind v ∧ ¬ closer c | EmptyString => False end.
Proof.
  destruct v as [|[]|n|s|l|d].
  1-3, 5: split; [done|by_compute].
  - destruct (str_int_numeral n) as [Hne Hall]. cbn [dumps]. destruct (str_int n) as [|c s]; [done|].
    rewrite append_cons. destruct Hall as [Hc _]. clear -Hc. unfold numeral_char in Hc.
    assert (Forall (λ c, kind_of_char c = 2%nat ∧ ¬ closer c) (map Ascii.ascii_of_nat [45; 48; 49; 50; 51; 52; 53; 54; 55; 56; 57]%nat))
      as Hf by by_compute. rewrite Forall_forall in Hf. by apply Hf.
  - rewrite dumps_arr. split; [done|by_compute].
  - rewrite dumps_obj. split; [done|by_compute].
Qed.

Lemma dumps_opens v : opens (dumps v).
Proof.
  pose proof (dumps_first v "") as Hv. unfold opens. destruct (dumps v) as [|c s]; [done|]. rewrite append_cons in Hv. apply Hv.
Qed.

Lemma dumps_kind v v' r r' : dumps v +:+ r = dumps v' +:+ r' → kind v = kind v'.
Proof.
  intros Heq. pose proof (dumps_first v r) as Hv. pose proof (dumps_first v' r') as Hv'. rewrite Heq in Hv.
  destruct (dumps v' +:+ r'); [done|]. destruct Hv, Hv'. congruence.
Qed.

(** A text that begins with a value determines it up to the order of members; a
    number must end there. *)
Lemma dumps_inj v v' r r' : (kind v = 2%nat → ends r ∧ ends r') → dumps v +:+ r = dumps v' +:+ r' → canon v = canon v' ∧ r = r'.
Proof.
  revert v' r r'. induction v as [|b|n|s|l IH|d IH] using json_induction; intros v' r r' Hends Heq;
    pose proof (dumps_kind _ _ _ _ Heq) as Hk; destruct v' as [|b'|n'|s'|l'|d']; try discriminate Hk; clear Hk.
  - by apply string_app_inj in Heq as [_ ->].
  - destruct b, b'; [by apply string_app_inj in Heq as [_ ->]|discriminate Heq..|by apply string_app_inj in Heq as [_ ->]].
  - cbn [dumps] in Heq. apply numeral_inj in Heq as [Hn ->]; [|apply str_int_numeral..|by apply Hends|by apply Hends].
    apply (inj pretty) in Hn as ->. done.
  - by apply dumps_str_inj in Heq as [-> ->].
  - rewrite !dumps_arr, !string_app_assoc in Heq. apply string_app_inj in Heq as [_ Heq]; [|done].
    apply (join_inj dumps canon) in Heq as [Hl ->]; [by cbn [canon]; rewrite Hl|by_compute|done|apply dumps_opens|].
    rewrite Forall_forall in IH. intros x y q q' Hx ??. by apply IH.
  - rewrite !dumps_obj, !string_app_assoc in Heq. apply string_app_inj in Heq as [_ Heq]; [|done].
    apply (join_inj member (λ kv, (kv.1, canon kv.2))) in Heq as [Hd ->];
      [by cbn [canon]; rewrite !sort_items_map, Hd|by_compute|done|by intros kv; unfold opens, member; by_compute|].
    rewrite Forall_forall in IH. intros [k x] [k' y] q q' Hx Hq Hq' Hm. rewrite sort_items_perm in Hx.
    unfold member in Hm. simpl in Hm. rewrite !string_app_assoc in Hm.
    apply dumps_str_inj in Hm as [-> Hm]. apply string_app_inj in Hm as [_ Hm]; [|done].
    destruct (IH (k', x) Hx y q q') as [Hc ->]; [done..|]. simpl in *. by rewrite Hc.
Qed.
