(* ===== verification/PyStore.v ===== *)
(** What the persistence layers share: decoding of JSON columns, tables that
    answer in any order, the session of a unit of work, and their lemmas. *)
From stdpp Require Import base tactics list strings.
From Stdlib Require Import ZArith Lia.
From S2P Require Import Prelude PyTypes PyJson.

Local Open Scope Z_scope.

(** ** JSON columns *)

(** [str(x)]; the [repr] of containers is not modelled. *)
Definition py_str (j : Json) : option string :=
  match j with
  | JStr s => Some s
  | JInt n => Some (str_int n)
  | JBool b => Some (if b then "True" else "False")
  | JNull => Some "None"
  | JArr _ | JObj _ => None
  end.

(** [int(x)]; a numeral in a string is not modelled. *)
Definition py_int (j : Json) : option Z :=
  match j with
  | JInt n => Some n
  | JBool b => Some (if b then 1 else 0)
  | JNull | JStr _ | JArr _ | JObj _ => None
  end.

(** [bool(x)] *)
Definition py_truthy (j : Json) : bool :=
  match j with
  | JNull => false
  | JBool b => b
  | JInt n => negb (n =? 0)
  | JStr s => negb (empty_str s)
  | JArr l => negb (bool_decide (length l = 0%nat))
  | JObj d => negb (bool_decide (length d = 0%nat))
  end.

(** A [str | None] field. *)
Definition opt_str (s : option string) : Json := match s with Some s => JStr s | None => JNull end.
Definition to_opt_str (j : Json) : option (option string) :=
  match j with
  | JNull => Some None
  | JStr s => Some (Some s)
  | _ => None
  end.

(** [dict[str, str]] and back, from [data.get(key) or {}]. *)
Definition json_dict (d : list (string * string)) : Json := JObj (map (fun kv => (kv.1, JStr kv.2)) d).
Definition to_str_dict (j : Json) : option (list (string * string)) :=
  if negb (py_truthy j) then Some []
  else match j with
       | JObj d => mapM (fun kv => match kv.2 with JStr s => Some (kv.1, s) | _ => None end) d
       | _ => None
       end.

(** [data.get(key, default)] *)
Definition dget_default (d : list (string * Json)) (k : string) (dflt : Json) : Json := default dflt (dget d k).

(** [list[str]], from [list(data.get(key) or [])]. *)
Definition json_strs (l : list string) : Json := JArr (map JStr l).
Definition to_str_list (j : Json) : option (list string) :=
  if negb (py_truthy j) then Some []
  else match j with
       | JArr l => mapM (fun x => match x with JStr s => Some s | _ => None end) l
       | _ => None
       end.

(** [dict(data.get(key) or {})] *)
Definition to_dict (j : Json) : option (list (string * Json)) :=
  if negb (py_truthy j) then Some [] else match j with JObj d => Some d | _ => None end.

(** ** Tables *)

(** A lookup of an enumeration by its text. *)
Definition of_text {A} (text : A → string) (all : list A) (s : string) : option A :=
  head (filter (fun x => text x = s) all).

(** A [SELECT] without [ORDER BY] answers its rows in any order. *)
Class RowOrder := {
  select_order : ∀ {A : Type}, list A → list A;
  select_order_perm {A} (l : list A) : select_order l ≡ₚ l
}.

(** The rows of one parent in a child table, and these rows replaced. *)
Definition child_rows `{!RowOrder} {R K} `{EqDecision K} (key : R → K) (id : K) (rows : list R) : list R :=
  select_order (filter (fun r => key r = id) rows).
Definition replace_rows {R K} `{EqDecision K} (key : R → K) (id : K) (new old : list R) : list R :=
  filter (fun r => key r ≠ id) old ++ new.

(** The rows of one parent in a child table, in any order. *)
Definition has_rows {R K} `{EqDecision K} (key : R → K) (id : K) (rows new : list R) : Prop :=
  filter (fun r => key r = id) rows ≡ₚ new.

(** What the driver and the ULID library decide of a tenant: whether a statement
    may be given an [EntityId] where the column holds a UUID, and whether the
    [uuid.UUID] of a column equals the [ULID] of the same 128 bits. *)
Class TenantColumns := { binds_entity_id : bool; uuid_equals_ulid : bool }.

(** ** Errors of a repository

    [StatementError]: a value the driver cannot bind; [CorruptRow]: a row that the
    mapping to the domain refuses. *)

Inductive StoreError :=
  | OptimisticLockConflict (aggregate : uuid) (expected actual : Z)
  | IntegrityError
  | StatementError
  | MultipleResultsFound
  | CorruptRow.

Definition decoded {A} (x : option A) : result StoreError A :=
  match x with Some a => Ok a | None => Err CorruptRow end.

(** The version a save expects in the table. *)
Definition expected_version (v : Z) : Z := let e := v - 1 in if e <? 1 then 1 else e.

(** ** Sessions

    A session sees its own writes; [commit] makes them durable.  Leaving the unit
    of work without a commit rolls back. *)

Record Session (D : Type) := mkSession { s_view : D; s_durable : D }.
Arguments mkSession {D} s_view s_durable.
Arguments s_view {D} s.
Arguments s_durable {D} s.
#[export] Instance Session_settable {D} : Settable (Session D) := fun s => mkSession (s_view s) (s_durable s).

Definition commit {D E} : PyM (Session D) E unit := modify (fun s => s <| s_durable := s_view s |>).

(** ** Lemmas *)

Lemma opt_str_round s : to_opt_str (opt_str s) = Some s.
Proof. by destruct s. Qed.

Lemma strs_round l : to_str_list (json_strs l) = Some l.
Proof.
  unfold to_str_list, json_strs, py_truthy. rewrite length_map. destruct l as [|s l]; [done|].
  rewrite bool_decide_eq_false_2 by done. simpl negb. cbv iota.
  apply mapM_Some_2. induction (s :: l) as [|x l' IH]; constructor; done.
Qed.

Lemma dict_round d : to_dict (JObj d) = Some d.
Proof. by destruct d. Qed.

Lemma str_dict_round d : to_str_dict (json_dict d) = Some d.
Proof.
  unfold to_str_dict, json_dict, py_truthy. rewrite length_map. destruct d as [|kv d]; [done|].
  rewrite bool_decide_eq_false_2 by done. simpl negb. cbv iota.
  apply mapM_Some_2. induction (kv :: d) as [|[k v] l IH]; constructor; done.
Qed.

(** Evaluates the lookups in an object with known keys. *)
Ltac json_fields :=
  unfold dget_default; cbn [dget];
  repeat first [rewrite decide_True by done | rewrite decide_False by done];
  cbn [default from_option mbind option_bind py_str py_int]; unfold id.

(** Decoding a permutation of encoded values. *)
Lemma mapM_perm {A B} (enc : A → B) (dec : B → option A) l rows :
  (∀ x, x ∈ l → dec (enc x) = Some x) → rows ≡ₚ map enc l → ∃ l', mapM dec rows = Some l' ∧ l' ≡ₚ l.
Proof.
  intros Hdec Hp. apply Permutation_map_inv in Hp as (l' & -> & Hl). exists l'. split; [|done].
  apply mapM_Some_2. assert (∀ x, x ∈ l' → dec (enc x) = Some x) as Hdec' by (intros x; rewrite <- Hl; apply Hdec).
  clear -Hdec'. induction l' as [|x l' IH]; constructor; [apply Hdec'; left|].
  apply IH. intros y Hy. apply Hdec'. by right.
Qed.

Lemma filter_none {A} (P : A → Prop) `{∀ x, Decision (P x)} (l : list A) :
  (∀ x, x ∈ l → ¬ P x) → filter P l = [].
Proof.
  induction l as [|x l IH]; intros Hl; [done|]. rewrite filter_cons_False by (apply Hl; left).
  apply IH. intros y Hy. apply Hl. by right.
Qed.

(** The rows of one graph replaced by [rows]. *)
Lemma replaced_rows {R K} `{EqDecision K} (key : R → K) (id : K) (old rows : list R) :
  (∀ r, r ∈ rows → key r = id) →
  filter (fun r => key r = id) (filter (fun r => key r ≠ id) old ++ rows) = rows ∧
  ∀ id', id' ≠ id → filter (fun r => key r = id') (filter (fun r => key r ≠ id) old ++ rows) =
                    filter (fun r => key r = id') old.
Proof.
  intros Hrows. split.
  - rewrite filter_app, filter_none, (list_filter_all _ rows); [done|done|].
    by intros r [? _]%list_elem_of_filter.
  - intros id' Hne. rewrite filter_app, (filter_none _ rows), app_nil_r.
    + rewrite list_filter_filter. apply list_filter_iff. intros r. split; [by intros []|]. intros <-. done.
    + intros r Hr <-. by apply Hne, Hrows.
Qed.

Lemma replace_rows_spec {R K} `{EqDecision K} (key : R → K) id new old : (∀ r, r ∈ new → key r = id) →
  has_rows key id (replace_rows key id new old) new ∧
  ∀ id' l, id' ≠ id → has_rows key id' old l → has_rows key id' (replace_rows key id new old) l.
Proof.
  intros Hnew. destruct (replaced_rows key id old new Hnew) as [Hsame Hother]. unfold has_rows, replace_rows.
  split; [by rewrite Hsame|]. intros id' l Hne Hl. by rewrite Hother.
Qed.

Lemma map_key {A R K} (key : R → K) (enc : A → R) (l : list A) id :
  (∀ x, key (enc x) = id) → ∀ r, r ∈ map enc l → key r = id.
Proof. intros Henc r (x & -> & _)%list_elem_of_fmap. apply Henc. Qed.

(** Decoding the rows of a parent. *)
Lemma has_rows_decode `{!RowOrder} {R A K} `{EqDecision K} (key : R → K) id rows (enc : A → R) (dec : R → option A) l :
  has_rows key id rows (map enc l) → (∀ x, x ∈ l → dec (enc x) = Some x) →
  ∃ l', mapM dec (child_rows key id rows) = Some l' ∧ l' ≡ₚ l.
Proof.
  intros Hrows Hdec. apply (mapM_perm enc dec); [done|]. unfold child_rows. by rewrite select_order_perm.
Qed.

Lemma non_nil_ok u : u ≠ 0 → non_nil u = Some u.
Proof. intros Hu. unfold non_nil. by rewrite (proj2 (Z.eqb_neq _ _) Hu). Qed.

Lemma all_snoc {A} (P : A → Prop) (l : list A) y : (∀ x, x ∈ l → P x) → P y → ∀ x, x ∈ l ++ [y] → P x.
Proof. intros Hl Hy x [Hx| ->%list_elem_of_singleton]%elem_of_app; auto. Qed.

Lemma non_nil_some u v : non_nil u = Some v → v ≠ 0 ∧ v = u.
Proof. unfold non_nil. destruct (Z.eqb_spec u 0); [done|]. by intros [= <-]. Qed.

Lemma nodup_key_inj {R K} (key : R → K) (l : list R) x y :
  NoDup (map key l) → x ∈ l → y ∈ l → key x = key y → x = y.
Proof.
  induction l as [|z l IH]; [by intros _ []%not_elem_of_nil|].
  intros [Hz Hnd]%NoDup_cons [->|Hx]%elem_of_cons [->|Hy]%elem_of_cons Heq; try done.
  - exfalso. apply Hz. rewrite Heq. by apply list_elem_of_fmap_2.
  - exfalso. apply Hz. rewrite <- Heq. by apply list_elem_of_fmap_2.
  - by apply IH.
Qed.

(** Rows [rows'] are [rows] with [new] as the one row of [id]. *)
Record upserted {R K} (key : R → K) (id : K) (new : R) (rows rows' : list R) : Prop := {
  up_keys : NoDup (map key rows');
  up_new : new ∈ rows';
  up_kept : ∀ r, r ∈ rows → key r ≠ id → r ∈ rows';
  up_all : ∀ r, r ∈ rows' → r = new ∨ r ∈ rows ∧ key r ≠ id
}.

Lemma inserted_row {R K} (key : R → K) (new : R) rows : NoDup (map key rows) → key new ∉ map key rows →
  upserted key (key new) new rows (rows ++ [new]).
Proof.
  intros Hnd Hnew. split.
  - rewrite map_app. apply NoDup_app. split_and!; [done| |apply NoDup_singleton].
    intros x Hx ->%list_elem_of_singleton. by apply Hnew.
  - apply elem_of_app. right. left.
  - intros r Hr _. apply elem_of_app. by left.
  - intros r [Hr| ->%list_elem_of_singleton]%elem_of_app; [right|by left].
    split; [done|]. intros Heq. apply Hnew. rewrite <- Heq. by apply list_elem_of_fmap_2.
Qed.

Lemma updated_row {R K} (key : R → K) (p : R → bool) (f : R → R) (row : R) rows : NoDup (map key rows) →
  row ∈ rows → p row = true → (∀ r, p r = true → key r = key row) → key (f row) = key row →
  upserted key (key row) (f row) rows (map (fun r => if p r then f r else r) rows).
Proof.
  intros Hnd Hin Hp Hkey Hf.
  assert (∀ r, r ∈ rows → key r = key row → r = row) as Huniq by (intros; by apply (nodup_key_inj key rows)).
  split.
  - rewrite map_map. replace (map (λ r, key (if p r then f r else r)) rows) with (map key rows); [done|].
    apply map_ext_in. intros r Hr%list_elem_of_In. destruct (p r) eqn:Hpr; [|done].
    by rewrite (Huniq r Hr (Hkey r Hpr)), Hf.
  - apply list_elem_of_fmap. exists row. by rewrite Hp.
  - intros r Hr Hne. apply list_elem_of_fmap. exists r. split; [|done].
    destruct (p r) eqn:Hpr; [by apply Hkey in Hpr|done].
  - intros r (r' & -> & Hr')%list_elem_of_fmap. destruct (p r') eqn:Hpr.
    + left. by rewrite (Huniq r' Hr' (Hkey r' Hpr)).
    + right. split; [done|]. intros Heq. rewrite (Huniq r' Hr' Heq) in Hpr. congruence.
Qed.

(** The row of a key. *)
Lemma find_key_unique {R} (key : R → uuid) (l : list R) row id : NoDup (map key l) → row ∈ l → key row = id →
  find (fun r => bool_decide (key r = id)) l = Some row.
Proof.
  intros Hnd Hin <-. induction l as [|x l IH]; [by apply not_elem_of_nil in Hin|].
  apply NoDup_cons in Hnd as [Hx Hnd]. simpl. apply elem_of_cons in Hin as [->|Hin]; [by rewrite bool_decide_eq_true_2|].
  rewrite bool_decide_eq_false_2; [by apply IH|]. intros Heq. apply Hx. rewrite Heq. by apply list_elem_of_fmap_2.
Qed.

Lemma find_key_some {R} (key : R → uuid) (l : list R) row id :
  find (fun r => bool_decide (key r = id)) l = Some row → row ∈ l ∧ key row = id.
Proof. intros [Hin Hk]%find_some. apply list_elem_of_In in Hin. by apply bool_decide_eq_true in Hk. Qed.

Lemma find_key_none {R} (key : R → uuid) (l : list R) row id :
  find (fun r => bool_decide (key r = id)) l = None → row ∈ l → key row ≠ id.
Proof. intros Hn Hin Hk. apply list_elem_of_In, (find_none _ _ Hn), bool_decide_eq_false in Hin. done. Qed.

(** A database that answers in insertion order. *)
Definition insertion_order : RowOrder := {| select_order := fun _ l => l; select_order_perm _ _ := reflexivity _ |}.
