(* ===== verification/Kahn.v ===== *)
(** Kahn's algorithm as the task graph services write it: in-degree and
    successor dictionaries built by one pass over the dependencies, a queue (or
    layers) of nodes of in-degree zero, and the decrement loop.  The lemmas of
    this file are the shared theory of cycle detection, of layering and of the
    critical path. *)
From stdpp Require Import base tactics list relations.
From Stdlib Require Import ZArith Lia.
From S2P Require Import Prelude.

Local Open Scope Z_scope.

Section Defs.
Context {K : Type} `{EqDecision K}.
Implicit Types (ind : list (K * Z)) (suc : list (K * list K)) (e : K * K).

(** One dependency of the counting pass; edges with an unknown end are
    ignored. *)
Definition count_dep (st : list (K * Z) * list (K * list K)) e :=
  let '(ind, suc) := st in
  if decide (e.1 ∈ dkeys ind ∧ e.2 ∈ dkeys ind) then
    (dmod ind e.2 0 (fun n => n + 1), dmod suc e.1 [] (fun l => l ++ [e.2]))
  else st.

Definition build_degrees (ids : list K) (edges : list (K * K)) :
    list (K * Z) * list (K * list K) :=
  foldl count_dep (dict_of (map (fun k => (k, 0)) ids), []) edges.

(** The keys of in-degree zero, in dictionary order. *)
Definition zero_keys ind : list K :=
  map fst (filter (fun kd => kd.2 = 0) ind).

(** [for successor in successors[node]: in_degree[successor] -= 1; ...] *)
Fixpoint relax (ss : list K) ind (queue : list K) : list (K * Z) * list K :=
  match ss with
  | [] => (ind, queue)
  | s :: ss' =>
      let ind' := dmod ind s 0 (fun n => n - 1) in
      relax ss' ind' (if decide (dget ind' s = Some 0) then queue ++ [s] else queue)
  end.

Definition successors_of suc (node : K) : list K := default [] (dget suc node).

(** [while queue:] of the cycle check; the result is the list of visited nodes
    and the final in-degrees, [None] when the fuel runs out. *)
Fixpoint kahn_loop (fuel : nat) (queue : list K) ind suc (visited : list K)
    : option (list K * list (K * Z)) :=
  match queue with
  | [] => Some (visited, ind)
  | node :: queue' =>
      match fuel with
      | O => None
      | S fuel' =>
          let '(ind', queue'') := relax (successors_of suc node) ind queue' in
          kahn_loop fuel' queue'' ind' suc (visited ++ [node])
      end
  end.

(** One layer: [for node in current_layer: for successor in ...]. *)
Fixpoint process_layer (layer : list K) ind suc (next : list K) : list (K * Z) * list K :=
  match layer with
  | [] => (ind, next)
  | node :: layer' =>
      let '(ind', next') := relax (successors_of suc node) ind next in
      process_layer layer' ind' suc next'
  end.

(** [while current_layer:] *)
Fixpoint layers_loop (fuel : nat) (layer : list K) ind suc (layers : list (list K))
    : option (list (list K)) :=
  match layer with
  | [] => Some layers
  | _ :: _ =>
      match fuel with
      | O => None
      | S fuel' =>
          let '(ind', next) := process_layer layer ind suc [] in
          layers_loop fuel' next ind' suc (layers ++ [layer])
      end
  end.

Section Weighted.
Context (w : K -> Z).

(** The inner loop of the critical path: the candidate distance is taken
    before the in-degree is decremented. *)
Fixpoint relax_dist (node : K) (ss : list K) ind (queue : list K) (dist : list (K * Z))
    : list (K * Z) * list K * list (K * Z) :=
  match ss with
  | [] => (ind, queue, dist)
  | s :: ss' =>
      let candidate := default 0 (dget dist node) + w s in
      let dist' := if decide (default 0 (dget dist s) < candidate)
                   then dset dist s candidate else dist in
      let ind' := dmod ind s 0 (fun n => n - 1) in
      relax_dist node ss' ind'
        (if decide (dget ind' s = Some 0) then queue ++ [s] else queue) dist'
  end.

Fixpoint critical_loop (fuel : nat) (queue : list K) ind suc (dist : list (K * Z))
    : option (list (K * Z)) :=
  match queue with
  | [] => Some dist
  | node :: queue' =>
      match fuel with
      | O => None
      | S fuel' =>
          let '(ind', queue'', dist') :=
            relax_dist node (successors_of suc node) ind queue' dist in
          critical_loop fuel' queue'' ind' suc dist'
      end
  end.

(** Total weight of a sequence of nodes. *)
Definition path_weight (p : list K) : Z := foldr (fun k acc => w k + acc) 0 p.
End Weighted.

(** *** Specification vocabulary *)

(** The dependencies whose two ends are known nodes. *)
Definition known_edges (ids : list K) (edges : list (K * K)) : list (K * K) :=
  filter (fun e => e.1 ∈ ids ∧ e.2 ∈ ids) edges.

Definition edge (E : list (K * K)) (u v : K) : Prop := (u, v) ∈ E.

Definition acyclic (E : list (K * K)) : Prop := ∀ v, ¬ tc (edge E) v v.

(** A walk along the edges, as the list of its nodes. *)
Fixpoint walk (E : list (K * K)) (p : list K) : Prop :=
  match p with
  | u :: (v :: _) as p' => edge E u v ∧ walk E p'
  | _ => True
  end.

(** Edges into [v] from nodes that are not processed yet. *)
Definition open_in (E : list (K * K)) (P : list K) (v : K) : list (K * K) :=
  filter (fun e => e.2 = v ∧ e.1 ∉ P) E.

Definition succ_list (E : list (K * K)) (u : K) : list K :=
  map snd (filter (fun e => e.1 = u) E).

Definition occurrences (v : K) (l : list K) : Z := Z.of_nat (length (filter (fun x => x = v) l)).

(** What a stratification into layers must satisfy: no node twice, no empty
    layer, every predecessor in an earlier layer, and a predecessor in the
    layer just before (so the layer number is the longest distance from a
    source). *)
Record layered (E : list (K * K)) (L : list (list K)) : Prop := {
  ly_nodup : NoDup (concat L);
  ly_nonempty : ∀ l, l ∈ L → l ≠ [];
  ly_before : ∀ i l v u, L !! i = Some l → v ∈ l → edge E u v →
    ∃ j l', (j < i)%nat ∧ L !! j = Some l' ∧ u ∈ l';
  ly_tight : ∀ i l v, L !! (S i) = Some l → v ∈ l →
    ∃ l' u, L !! i = Some l' ∧ u ∈ l' ∧ edge E u v
}.

(** Distances of the critical path while [P] is processed. *)
Definition dist_inv (w : K -> Z) (V : list K) (E : list (K * K)) (P : list K)
    (dist : list (K * Z)) : Prop :=
  dkeys dist = V ∧
  ∀ v, v ∈ V → ∃ n, dget dist v = Some n ∧ w v ≤ n ∧
    (∀ u, u ∈ P → edge E u v → ∃ m, dget dist u = Some m ∧ m + w v ≤ n) ∧
    ∃ p, walk E (p ++ [v]) ∧ path_weight w (p ++ [v]) = n ∧ ∀ x, x ∈ p → x ∈ V.

(** [max(d.values(), default=0)] *)
Definition max_values (d : list (K * Z)) : Z :=
  match map snd d with
  | [] => 0
  | v :: vs => foldl Z.max v vs
  end.

(** State of Kahn's algorithm: [P] processed in order, [Q] queued. *)
Record kahn_inv (V : list K) (E : list (K * K)) (P Q : list K) ind : Prop := {
  ki_nodup : NoDup (P ++ Q);
  ki_sub : ∀ v, v ∈ P ++ Q → v ∈ V;
  ki_deg : ∀ v, v ∈ V → dget ind v = Some (Z.of_nat (length (open_in E P v)));
  ki_queued : ∀ v, v ∈ V → v ∈ P ++ Q ↔ open_in E P v = [];
  ki_topo : ∀ P1 v P2, P = P1 ++ v :: P2 → ∀ u, edge E u v → u ∈ P1
}.
End Defs.

Section Lemmas.
Context {K : Type} `{EqDecision K}.
Implicit Types (ind : list (K * Z)) (suc : list (K * list K)) (E : list (K * K)).

Lemma occurrences_cons v s (l : list K) :
  occurrences v (s :: l) = (if decide (s = v) then 1 else 0) + occurrences v l.
Proof. unfold occurrences. rewrite filter_cons. case_decide; simpl; lia. Qed.

Lemma occurrences_nonneg v (l : list K) : 0 ≤ occurrences v l.
Proof. unfold occurrences. lia. Qed.

Lemma occurrences_pos v (l : list K) : v ∈ l ↔ 0 < occurrences v l.
Proof.
  induction l as [|s l IH].
  - split; [intros []%not_elem_of_nil | unfold occurrences; simpl; lia].
  - rewrite elem_of_cons, occurrences_cons. pose proof (occurrences_nonneg v l).
    case_decide; [|rewrite IH]; split; intros; try lia; naive_solver lia.
Qed.

(** What one run of the decrement loop does. *)
Lemma relax_spec ss ind queue ind' queue' :
  relax ss ind queue = (ind', queue') →
  (∀ v, v ∈ ss → ∃ n, dget ind v = Some n ∧ occurrences v ss ≤ n) →
  (∀ v n, dget ind v = Some n → dget ind' v = Some (n - occurrences v ss)) ∧
  dkeys ind' = dkeys ind ∧
  ∃ new, queue' = queue ++ new ∧ NoDup new ∧
    ∀ v, v ∈ new ↔ v ∈ ss ∧ dget ind v = Some (occurrences v ss).
Proof.
  revert ind queue. induction ss as [|s ss IH]; intros ind queue Hr Hss; simpl in Hr.
  { simplify_eq. split_and!; [|done|].
    - intros v n ->. f_equal. unfold occurrences. simpl. lia.
    - exists []. rewrite app_nil_r. split_and!; [done|constructor|].
      intros v. split; [intros []%not_elem_of_nil|intros [[]%not_elem_of_nil _]]. }
  destruct (Hss s) as (m & Hm & Hle); [left|].
  rewrite occurrences_cons, decide_True in Hle by done.
  assert (dget (dmod ind s 0 (λ n, n - 1)) s = Some (m - 1)) as Hs.
  { by rewrite dget_dmod_eq, Hm. }
  assert (∀ v, v ≠ s → dget (dmod ind s 0 (λ n, n - 1)) v = dget ind v) as Hns.
  { intros v Hv. by apply dget_dmod_ne. }
  apply IH in Hr as (Hdeg & Hkeys & new & -> & Hnd & Hnew); clear IH.
  2:{ intros v Hv. destruct (decide (v = s)) as [->|Hne].
      - exists (m - 1). split; [done|lia].
      - rewrite Hns by done. destruct (Hss v) as (n & Hn & Hln); [by right|].
        exists n. split; [done|]. rewrite occurrences_cons, decide_False in Hln by done. lia. }
  split_and!.
  - intros v n Hn. rewrite occurrences_cons. case_decide as Hv; subst.
    + rewrite (Hdeg _ (m - 1)) by done. f_equal. assert (n = m) by congruence. lia.
    + rewrite (Hdeg _ n); [f_equal; lia|]. by rewrite Hns.
  - rewrite Hkeys. unfold dmod. apply dkeys_dset_in, dget_is_Some. by exists m.
  - rewrite Hs. case_decide as Hz.
    + exists (s :: new). rewrite <- app_assoc. split_and!; [done| |].
      * constructor; [|done]. rewrite Hnew. intros [Hin Heq].
        apply occurrences_pos in Hin. rewrite Hs in Heq. simplify_eq. lia.
      * intros v. rewrite !elem_of_cons, Hnew, occurrences_cons. simplify_eq.
        destruct (decide (v = s)) as [->|Hne].
        -- rewrite decide_True by done. split; [|naive_solver]. intros _. split; [by left|].
           pose proof (occurrences_nonneg s ss). rewrite Hm. f_equal. lia.
        -- rewrite decide_False, Hns by done. naive_solver.
    + exists new. split_and!; [done|done|]. intros v.
      rewrite Hnew, elem_of_cons, occurrences_cons.
      destruct (decide (v = s)) as [->|Hne].
      * rewrite decide_True, Hs, Hm by done. split.
        -- intros [? ?]; simplify_eq. split; [by left|f_equal; lia].
        -- intros [_ ?]; simplify_eq. split; [|f_equal; lia].
           apply occurrences_pos. pose proof (occurrences_nonneg s ss).
           destruct (decide (0 < occurrences s ss)); [done|]. exfalso. apply Hz. f_equal. lia.
      * rewrite decide_False, Hns by done. naive_solver.
Qed.

Lemma open_in_app E P u v :
  open_in E (P ++ [u]) v = filter (fun e => e.1 ≠ u) (open_in E P v).
Proof.
  unfold open_in. induction E as [|e E IH]; [done|].
  rewrite !filter_cons. repeat case_decide; rewrite ?filter_cons; try rewrite IH;
    repeat case_decide; try done; exfalso; set_solver.
Qed.

Lemma open_in_length E P u v : u ∉ P →
  Z.of_nat (length (open_in E (P ++ [u]) v)) =
  Z.of_nat (length (open_in E P v)) - occurrences v (succ_list E u).
Proof.
  intros Hu. unfold open_in, succ_list, occurrences.
  induction E as [|e E IH]; [done|].
  rewrite !filter_cons.
  destruct (decide (e.1 = u)) as [He|He], (decide (e.2 = v)) as [Hv|Hv]; simpl;
    repeat (rewrite ?filter_cons; case_decide); simpl in *; try lia; exfalso; set_solver.
Qed.

Lemma elem_of_open_in E P v e : e ∈ open_in E P v ↔ e ∈ E ∧ e.2 = v ∧ e.1 ∉ P.
Proof. unfold open_in. rewrite list_elem_of_filter. naive_solver. Qed.

Lemma open_in_nil E P v : open_in E P v = [] ↔ ∀ u, edge E u v → u ∈ P.
Proof.
  split.
  - intros Hnil u Hu. destruct (decide (u ∈ P)) as [|Hni]; [done|]. exfalso.
    assert ((u, v) ∈ open_in E P v) as Hin by by apply elem_of_open_in.
    rewrite Hnil in Hin. by apply not_elem_of_nil in Hin.
  - intros Hall. destruct (open_in E P v) as [|[u v'] l] eqn:Heq; [done|]. exfalso.
    assert ((u, v') ∈ open_in E P v) as Hin by (rewrite Heq; left).
    apply elem_of_open_in in Hin as (? & ? & ?); simpl in *; subst. naive_solver.
Qed.

Lemma elem_of_succ_list E u v : v ∈ succ_list E u ↔ edge E u v.
Proof.
  unfold succ_list, edge. rewrite list_elem_of_fmap. setoid_rewrite list_elem_of_filter.
  split; [intros ([??] & -> & <- & ?); done | intros ?; by exists (u, v)].
Qed.

(** Queue entries have no open edges, and neither have processed nodes. *)
Lemma kahn_inv_preds V E P Q ind v u :
  kahn_inv V E P Q ind → v ∈ P ++ Q → edge E u v → u ∈ P.
Proof.
  intros HI Hv. revert u. apply open_in_nil, (ki_queued _ _ _ _ _ HI); [|done].
  by apply (ki_sub _ _ _ _ _ HI).
Qed.

(** Processing the head of the queue keeps the invariant. *)
Lemma kahn_inv_step V E P u Q ind ind' Q' :
  (∀ e, e ∈ E → e.2 ∈ V) →
  kahn_inv V E P (u :: Q) ind →
  relax (succ_list E u) ind Q = (ind', Q') →
  kahn_inv V E (P ++ [u]) Q' ind'.
Proof.
  intros HEV HI Hr.
  assert (u ∉ P) as HuP.
  { pose proof (ki_nodup _ _ _ _ _ HI) as (_ & Hd & _)%NoDup_app.
    intros Hu. apply (Hd u Hu). left. }
  assert (∀ v, v ∈ V → occurrences v (succ_list E u) ≤ Z.of_nat (length (open_in E P v))) as Hocc.
  { intros v Hv. pose proof (open_in_length E P u v HuP). lia. }
  apply relax_spec in Hr as (Hdeg & _ & new & -> & Hnd & Hnew).
  2:{ intros v Hv%elem_of_succ_list. pose proof (HEV _ Hv) as HvV. simpl in HvV.
      eexists. split; [by apply (ki_deg _ _ _ _ _ HI)|by apply Hocc]. }
  assert (∀ v, v ∈ new ↔ v ∈ V ∧ open_in E P v ≠ [] ∧ open_in E (P ++ [u]) v = []) as Hnew'.
  { intros v. rewrite Hnew. split.
    - intros [Hs Hg]. pose proof Hs as HvV%elem_of_succ_list%HEV. simpl in HvV.
      rewrite (ki_deg _ _ _ _ _ HI v HvV) in Hg. simplify_eq.
      split_and!; [done| |].
      + intros Hnil. apply elem_of_succ_list in Hs. eapply open_in_nil in Hnil; done.
      + apply length_zero_iff_nil. pose proof (open_in_length E P u v HuP). lia.
    - intros (HvV & Hne & Hnil).
      pose proof (open_in_length E P u v HuP) as Hl. rewrite Hnil in Hl. simpl in Hl.
      split; [apply occurrences_pos|rewrite (ki_deg _ _ _ _ _ HI v HvV); f_equal; lia].
      destruct (open_in E P v); [done|]. simpl in *. lia. }
  pose proof (ki_nodup _ _ _ _ _ HI) as HndI.
  assert (∀ v, v ∈ new → v ∉ P ++ u :: Q) as Hfresh.
  { intros v (HvV & Hne & _)%Hnew' Hin. apply Hne, (ki_queued _ _ _ _ _ HI); done. }
  split.
  - replace ((P ++ [u]) ++ Q ++ new) with ((P ++ u :: Q) ++ new)
      by (rewrite <- !app_assoc; done).
    apply NoDup_app. split_and!; [done| |done]. intros v Hv Hn. by apply (Hfresh v).
  - intros v Hv. destruct (decide (v ∈ new)) as [Hn|Hn]; [by apply Hnew' in Hn as [? _]|].
    apply (ki_sub _ _ _ _ _ HI). set_solver.
  - intros v Hv. rewrite (Hdeg v _ (ki_deg _ _ _ _ _ HI v Hv)). f_equal.
    by rewrite open_in_length.
  - intros v Hv. pose proof (ki_queued _ _ _ _ _ HI v Hv) as Hq.
    assert (v ∈ (P ++ [u]) ++ Q ++ new ↔ v ∈ P ++ u :: Q ∨ v ∈ new) as -> by set_solver.
    rewrite Hq, Hnew'. split.
    + intros [Hnil|(_ & _ & ?)]; [|done]. rewrite open_in_app, Hnil. done.
    + intros Hnil. destruct (open_in E P v) eqn:He; [by left|right]. by split_and!.
  - intros P1 v P2 Heq w Hw. destruct P2 as [|z P2 _] using rev_ind.
    + apply app_inj_tail in Heq as [<- <-]. eapply kahn_inv_preds; [done| |done]. set_solver.
    + rewrite app_comm_cons, app_assoc in Heq. apply app_inj_tail in Heq as [-> <-].
      by apply (ki_topo _ _ _ _ _ HI P1 v P2).
Qed.
End Lemmas.

Section Loops.
Context {K : Type} `{EqDecision K}.
Implicit Types (ind : list (K * Z)) (suc : list (K * list K)) (E : list (K * K)).

Lemma zero_dict (ids : list K) : NoDup ids → dict_of (map (λ k, (k, 0)) ids) = map (λ k, (k, 0)) ids.
Proof. intros Hnd. apply dict_of_NoDup. by rewrite <- list_fmap_compose, list_fmap_id. Qed.

Lemma dget_zero_dict (ids : list K) v : v ∈ ids → dget (map (λ k, (k, 0)) ids) v = Some 0.
Proof.
  induction ids as [|k ids IH]; [intros []%not_elem_of_nil|].
  intros [->|Hv]%elem_of_cons; simpl; case_decide; auto; done.
Qed.

Lemma dkeys_zero_dict (ids : list K) : dkeys (map (λ k, (k, 0)) ids) = ids.
Proof. unfold dkeys. rewrite map_map. apply map_id. Qed.

(** The counting pass computes the in-degrees and successor lists of the
    dependencies between known nodes. *)
Lemma build_degrees_spec ids edges ind suc :
  NoDup ids → build_degrees ids edges = (ind, suc) →
  dkeys ind = ids ∧
  (∀ v, v ∈ ids → dget ind v = Some (Z.of_nat (length (open_in (known_edges ids edges) [] v)))) ∧
  (∀ u, successors_of suc u = succ_list (known_edges ids edges) u).
Proof.
  intros Hnd. unfold build_degrees. rewrite zero_dict by done.
  revert ind suc. induction edges as [|[a b] edges IH] using rev_ind; intros ind suc Hb.
  { simpl in Hb. simplify_eq. split_and!; [apply dkeys_zero_dict|apply dget_zero_dict|done]. }
  rewrite foldl_snoc in Hb. destruct (foldl _ _ edges) as [ind0 suc0].
  pose proof (IH ind0 suc0 eq_refl) as (Hk & Hd & Hs). clear IH.
  unfold known_edges in *. rewrite filter_app, filter_cons, filter_nil.
  unfold count_dep in Hb. simpl in *. rewrite Hk in Hb. case_decide as Hab; injection Hb as <- <-.
  2:{ rewrite app_nil_r. done. }
  destruct Hab as [Ha Hbi]. split_and!.
  - unfold dmod. by rewrite dkeys_dset_in; rewrite Hk.
  - intros v Hv. unfold open_in in *. rewrite filter_app, filter_cons, filter_nil, length_app. simpl.
    destruct (decide (b = v)) as [->|Hne].
    + rewrite dget_dmod_eq, (Hd v Hv), decide_True by (split; [done|apply not_elem_of_nil]).
      simpl. f_equal. lia.
    + rewrite dget_dmod_ne, (Hd v Hv), decide_False by naive_solver. simpl. f_equal. lia.
  - intros u. unfold successors_of, succ_list in *. rewrite filter_app, filter_cons, filter_nil, map_app. simpl.
    destruct (decide (a = u)) as [->|Hne].
    + rewrite dget_dmod_eq, Hs. done.
    + rewrite dget_dmod_ne, Hs by done. by rewrite app_nil_r.
Qed.

Lemma elem_of_known_edges (ids : list K) edges u v :
  edge (known_edges ids edges) u v ↔ (u, v) ∈ edges ∧ u ∈ ids ∧ v ∈ ids.
Proof. unfold edge, known_edges. rewrite list_elem_of_filter. naive_solver. Qed.

Lemma elem_of_zero_keys ind v : NoDup (dkeys ind) → v ∈ zero_keys ind ↔ dget ind v = Some 0.
Proof.
  intros Hnd. rewrite <- elem_of_dict by done. unfold zero_keys.
  rewrite list_elem_of_fmap. setoid_rewrite list_elem_of_filter.
  split; [intros ([??] & -> & ? & ?); naive_solver | intros ?; by exists (v, 0)].
Qed.

Lemma NoDup_zero_keys ind : NoDup (dkeys ind) → NoDup (zero_keys ind).
Proof.
  intros Hnd. eapply sublist_NoDup; [apply Hnd|].
  unfold zero_keys, dkeys. apply (fmap_sublist fst), sublist_filter.
Qed.

(** The state before the main loop satisfies the invariant. *)
Lemma kahn_inv_init ids edges ind suc :
  NoDup ids → build_degrees ids edges = (ind, suc) →
  kahn_inv ids (known_edges ids edges) [] (zero_keys ind) ind.
Proof.
  intros Hnd Hb. destruct (build_degrees_spec _ _ _ _ Hnd Hb) as (Hk & Hd & _).
  assert (NoDup (dkeys ind)) as Hndk by by rewrite Hk.
  assert (∀ v, v ∈ zero_keys ind → v ∈ ids) as Hsub.
  { intros v Hv%elem_of_zero_keys; [|done]. rewrite <- Hk. apply dget_is_Some. by exists 0. }
  split; simpl.
  - by apply NoDup_zero_keys.
  - done.
  - done.
  - intros v Hv. rewrite elem_of_zero_keys, Hd by done. split.
    + intros ?; simplify_eq. apply length_zero_iff_nil. lia.
    + intros ->. done.
  - intros P1 v P2 ?. by destruct P1.
Qed.

(** *** Termination

    A node is queued when its in-degree drops from 1 to 0, so the queue and the
    keys of positive in-degree together never grow: they bound the loops on any
    dictionaries, those of a cyclic graph included. *)

Definition open_keys ind : nat := length (filter (fun kd => 0 < kd.2) ind).

Lemma open_keys_dset ind s n : default 0 (dget ind s) = n →
  (open_keys (dset ind s (n - 1)%Z) + (if decide (n = 1%Z) then 1 else 0) ≤ open_keys ind)%nat.
Proof.
  unfold open_keys. induction ind as [|[k d] ind IH]; simpl.
  - intros <-. by rewrite filter_cons_False.
  - destruct (decide (k = s)) as [Hk|Hk]; simpl.
    + intros ->. rewrite !filter_cons. simpl. repeat case_decide; simpl; lia.
    + intros Hn. specialize (IH Hn). rewrite !filter_cons. simpl. repeat case_decide; simpl in *; lia.
Qed.

Lemma relax_measure ss ind queue ind' queue' : relax ss ind queue = (ind', queue') →
  (length queue' + open_keys ind' ≤ length queue + open_keys ind)%nat.
Proof.
  revert ind queue. induction ss as [|s ss IH]; intros ind queue; simpl; [by intros [= <- <-]|].
  intros Hr. apply IH in Hr. pose proof (open_keys_dset ind s _ eq_refl) as Hm.
  unfold dmod in Hr. rewrite dget_dset_eq in Hr.
  repeat case_decide; simplify_eq; rewrite ?length_app in Hr; simpl in Hr; lia.
Qed.

Lemma relax_dist_relax w node ss ind queue dist :
  (relax_dist w node ss ind queue dist).1 = relax ss ind queue.
Proof. revert ind queue dist. induction ss as [|s ss IH]; intros; simpl; [done|apply IH]. Qed.

Lemma process_layer_measure suc layer ind next ind' next' : process_layer layer ind suc next = (ind', next') →
  (length next' + open_keys ind' ≤ length next + open_keys ind)%nat.
Proof.
  revert ind next. induction layer as [|u layer IH]; intros ind next; simpl; [by intros [= <- <-]|].
  destruct (relax _ ind next) as [ind1 next1] eqn:Hr. intros Hp%IH. apply relax_measure in Hr. lia.
Qed.

Lemma kahn_loop_terminates suc fuel queue ind visited : (length queue + open_keys ind ≤ fuel)%nat →
  is_Some (kahn_loop fuel queue ind suc visited).
Proof.
  revert queue ind visited. induction fuel as [|fuel IH]; intros [|u queue] ind visited Hf; simpl in *;
    [by eexists|lia|by eexists|].
  destruct (relax _ ind queue) as [ind1 queue1] eqn:Hr. apply relax_measure in Hr. apply IH. lia.
Qed.

Lemma layers_loop_terminates suc fuel layer ind layers : (length layer + open_keys ind ≤ fuel)%nat →
  is_Some (layers_loop fuel layer ind suc layers).
Proof.
  revert layer ind layers. induction fuel as [|fuel IH]; intros [|u layer] ind layers Hf; simpl in Hf;
    [by eexists|lia|by eexists|]. cbn [layers_loop].
  destruct (process_layer (u :: layer) ind suc []) as [ind1 next] eqn:Hp.
  apply process_layer_measure in Hp. simpl in Hp. apply IH. lia.
Qed.

Lemma critical_loop_terminates w suc fuel queue ind dist : (length queue + open_keys ind ≤ fuel)%nat →
  is_Some (critical_loop w fuel queue ind suc dist).
Proof.
  revert queue ind dist. induction fuel as [|fuel IH]; intros [|u queue] ind dist Hf; simpl in *;
    [by eexists|lia|by eexists|].
  pose proof (relax_dist_relax w u (successors_of suc u) ind queue dist) as Heq.
  destruct (relax_dist _ _ _ _ _ _) as [[ind1 queue1] dist1]. simpl in Heq. symmetry in Heq.
  apply relax_measure in Heq. apply IH. lia.
Qed.

Lemma zero_open_keys ind : (length (zero_keys ind) + open_keys ind ≤ length ind)%nat.
Proof.
  unfold zero_keys, open_keys. rewrite length_map.
  induction ind as [|[k d] ind IH]; simpl; [done|]. rewrite !filter_cons. simpl.
  repeat case_decide; simpl; lia.
Qed.

Section FixedGraph.
Context (V : list K) (E : list (K * K)) (suc : list (K * list K)).
Context (HEV : ∀ e, e ∈ E → e.2 ∈ V) (Hsuc : ∀ u, successors_of suc u = succ_list E u).

Lemma kahn_inv_length P Q ind : kahn_inv V E P Q ind → (length (P ++ Q) ≤ length V)%nat.
Proof.
  intros HI. apply submseteq_length, NoDup_submseteq.
  - apply (ki_nodup _ _ _ _ _ HI).
  - intros x. apply (ki_sub _ _ _ _ _ HI).
Qed.

(** One unit of fuel per node is enough, and the loop ends with an empty
    queue. *)
Lemma kahn_loop_ok fuel Q ind P :
  kahn_inv V E P Q ind → (length V ≤ fuel + length P)%nat →
  ∃ P' ind', kahn_loop fuel Q ind suc P = Some (P', ind') ∧ kahn_inv V E P' [] ind'.
Proof.
  revert Q ind P. induction fuel as [|fuel IH]; intros Q ind P HI Hlen; destruct Q as [|u Q]; simpl.
  - eauto.
  - apply kahn_inv_length in HI. rewrite length_app in HI. simpl in HI. lia.
  - eauto.
  - destruct (relax _ _ _) as [ind' Q'] eqn:Hr. rewrite Hsuc in Hr.
    apply IH; [by eapply kahn_inv_step|]. rewrite length_app. simpl. lia.
Qed.

Lemma kahn_inv_edge_order P ind P1 v P2 u :
  kahn_inv V E P [] ind → P = P1 ++ v :: P2 → edge E u v → u ∈ P1.
Proof. intros HI HP. by apply (ki_topo _ _ _ _ _ HI P1 v P2). Qed.

(** Walking backwards along edges from a processed node only meets nodes that
    were processed earlier. *)
Lemma kahn_inv_tc_order P ind u v :
  kahn_inv V E P [] ind → tc (edge E) u v → ∀ P1 P2, P = P1 ++ v :: P2 → u ∈ P1.
Proof.
  intros HI. induction 1 as [u v Huv|u w v Huw _ IH]; intros P1 P2 HP.
  - by eapply kahn_inv_edge_order.
  - pose proof (IH P1 P2 HP) as (Q1 & Q2 & HQ)%list_elem_of_split.
    assert (u ∈ Q1) as Hu.
    { eapply (kahn_inv_edge_order P ind Q1 w (Q2 ++ v :: P2)); [done| |done].
      rewrite HP, HQ, <- app_assoc. done. }
    rewrite HQ. set_solver.
Qed.

(** A node on a cycle is never processed. *)
Lemma kahn_inv_cycle_unprocessed P ind v :
  kahn_inv V E P [] ind → tc (edge E) v v → v ∉ P.
Proof.
  intros HI Hc (P1 & P2 & HP)%list_elem_of_split.
  pose proof (kahn_inv_tc_order P ind v v HI Hc P1 P2 HP) as Hin.
  pose proof (ki_nodup _ _ _ _ _ HI) as Hnd. rewrite app_nil_r, HP in Hnd.
  apply NoDup_app in Hnd as (_ & Hd & _). apply (Hd v Hin). left.
Qed.

(** If a node stays unprocessed, some unprocessed node lies on a cycle. *)
Lemma kahn_inv_unprocessed_cycle P ind v :
  (∀ e, e ∈ E → e.1 ∈ V) →
  kahn_inv V E P [] ind → v ∈ V → v ∉ P →
  ∃ x, x ∈ V ∧ (x ∉ P) ∧ tc (edge E) x x.
Proof.
  intros HEV1 HI Hv HvP.
  destruct (finite_no_source_cycle (edge E) (filter (λ x, x ∉ P) V)) as (x & Hx & Hc).
  - intros Hnil. assert (v ∈ filter (λ x, x ∉ P) V) as Hin by by apply list_elem_of_filter.
    rewrite Hnil in Hin. by apply not_elem_of_nil in Hin.
  - intros x [HxP HxV]%list_elem_of_filter.
    destruct (open_in E P x) as [|[u x'] l] eqn:Ho.
    + apply (ki_queued _ _ _ _ _ HI) in Ho; [|done]. by rewrite app_nil_r in Ho.
    + assert ((u, x') ∈ open_in E P x) as (HE & Heq & HuP)%elem_of_open_in by (rewrite Ho; left).
      simpl in *. subst. exists u. split; [|done]. apply list_elem_of_filter. split; [done|].
      by apply (HEV1 (u, x)).
  - apply list_elem_of_filter in Hx as [? ?]. eauto.
Qed.

Lemma tc_edge_target u v : tc (edge E) u v → v ∈ V.
Proof. induction 1 as [u v Huv|]; [by apply (HEV (u, v))|done]. Qed.

(** All nodes are processed exactly when the graph is acyclic. *)
Lemma kahn_inv_acyclic P ind :
  (∀ e, e ∈ E → e.1 ∈ V) → NoDup V →
  kahn_inv V E P [] ind → (acyclic E ↔ length P = length V).
Proof.
  intros HEV1 HndV HI. split.
  - intros Hac.
    assert (∀ v, v ∈ V → v ∈ P) as Hall.
    { intros v Hv. destruct (decide (v ∈ P)) as [|HvP]; [done|].
      destruct (kahn_inv_unprocessed_cycle P ind v) as (x & _ & _ & Hx); [done..|].
      by destruct (Hac x). }
    pose proof (kahn_inv_length _ _ _ HI) as Hle. rewrite app_nil_r in Hle.
    apply NoDup_submseteq in Hall; [|done]. apply submseteq_length in Hall. lia.
  - intros Hlen v Hc.
    assert (v ∈ V) as HvV.
    { by eapply tc_edge_target. }
    apply (kahn_inv_cycle_unprocessed P ind v HI Hc).
    assert (P ≡ₚ V) as ->; [|done].
    apply submseteq_length_Permutation; [|lia].
    pose proof (ki_nodup _ _ _ _ _ HI) as Hnd. rewrite app_nil_r in Hnd.
    apply NoDup_submseteq; [done|]. intros x Hx. apply (ki_sub _ _ _ _ _ HI). by rewrite app_nil_r.
Qed.
End FixedGraph.
End Loops.

Section Layers.
Context {K : Type} `{EqDecision K}.
Implicit Types (ind : list (K * Z)).
Context (V : list K) (E : list (K * K)) (suc : list (K * list K)).
Context (HEV : ∀ e, e ∈ E → e.2 ∈ V) (Hsuc : ∀ u, successors_of suc u = succ_list E u).

Lemma relax_app_queue (ss : list K) ind Q1 Q2 ind' Q' :
  relax ss ind Q2 = (ind', Q') → relax ss ind (Q1 ++ Q2) = (ind', Q1 ++ Q').
Proof.
  revert ind Q2. induction ss as [|s ss IH]; intros ind Q2; simpl; [by intros [= <- <-]|].
  case_decide; intros Hr; apply IH in Hr; [by rewrite app_assoc in Hr|done].
Qed.

Lemma process_layer_inv layer ind next P ind' next' :
  kahn_inv V E P (layer ++ next) ind →
  process_layer layer ind suc next = (ind', next') →
  kahn_inv V E (P ++ layer) next' ind'.
Proof.
  revert ind next P. induction layer as [|u layer IH]; intros ind next P HI Hp; simpl in *.
  { simplify_eq. by rewrite app_nil_r. }
  destruct (relax _ _ _) as [ind1 next1] eqn:Hr. rewrite Hsuc in Hr.
  apply (relax_app_queue _ _ layer) in Hr.
  assert (P ++ u :: layer = (P ++ [u]) ++ layer) as -> by by rewrite <- app_assoc.
  eapply IH; [|done]. by eapply kahn_inv_step.
Qed.

(** Every node of the next layer has a predecessor in the current one. *)
Lemma process_layer_tight layer ind P ind' next v :
  kahn_inv V E P layer ind → kahn_inv V E (P ++ layer) next ind' → v ∈ next →
  ∃ u, u ∈ layer ∧ edge E u v.
Proof.
  intros HI HI' Hv.
  assert (v ∈ V) as HvV by (apply (ki_sub _ _ _ _ _ HI'); set_solver).
  assert (v ∉ P ++ layer) as Hni.
  { pose proof (ki_nodup _ _ _ _ _ HI') as (_ & Hd & _)%NoDup_app. intros Hin. by apply (Hd v). }
  rewrite (ki_queued _ _ _ _ _ HI) in Hni by done.
  destruct (open_in E P v) as [|[u v'] l] eqn:Ho; [done|].
  assert ((u, v') ∈ open_in E P v) as (HE & Heq & HuP)%elem_of_open_in by (rewrite Ho; left).
  simpl in *. subst. exists u. split; [|done].
  assert (u ∈ P ++ layer) as [|]%elem_of_app; [|done|done].
  eapply kahn_inv_preds; [done| |done]. set_solver.
Qed.

(** The loop state: completed layers, current layer, in-degrees. *)
Record layers_inv (layers : list (list K)) (layer : list K) ind : Prop := {
  li_kahn : kahn_inv V E (concat layers) layer ind;
  li_nonempty : ∀ l, l ∈ layers → l ≠ [];
  li_before : ∀ i l v u, layers !! i = Some l → v ∈ l → edge E u v →
    ∃ j l', (j < i)%nat ∧ layers !! j = Some l' ∧ u ∈ l';
  li_tight : ∀ i l v, (layers ++ [layer]) !! (S i) = Some l → v ∈ l →
    ∃ l' u, layers !! i = Some l' ∧ u ∈ l' ∧ edge E u v
}.

Lemma layers_inv_done layers ind : layers_inv layers [] ind → layered E layers.
Proof.
  intros [HI Hne Hb Ht]. split; [|done..|].
  - pose proof (ki_nodup _ _ _ _ _ HI) as Hnd. by rewrite app_nil_r in Hnd.
  - intros i l v Hl. apply Ht. by apply lookup_app_l_Some.
Qed.

Lemma layers_inv_step layers layer ind ind' next :
  layer ≠ [] → layers_inv layers layer ind →
  process_layer layer ind suc [] = (ind', next) →
  layers_inv (layers ++ [layer]) next ind'.
Proof.
  intros Hlayer [HI Hne Hb Ht] Hp.
  assert (kahn_inv V E (concat layers ++ layer) next ind') as HI'.
  { eapply process_layer_inv; [|done]. by rewrite app_nil_r. }
  split.
  - rewrite concat_app. simpl. by rewrite app_nil_r.
  - intros l [Hl|Hl]%elem_of_app; [by apply Hne|].
    apply list_elem_of_singleton in Hl. by subst.
  - intros i l v u Hl Hv Hu. apply lookup_snoc_Some in Hl as [[Hi Hl]|[-> <-]].
    + destruct (Hb i l v u) as (j & l' & Hj & Hl' & Hin); [done..|].
      exists j, l'. split_and!; [done| |done]. by apply lookup_app_l_Some.
    + assert (u ∈ concat layers) as (l' & Hl' & Hin)%elem_of_concat.
      { eapply kahn_inv_preds; [done| |done]. set_solver. }
      apply list_elem_of_lookup in Hl' as [j Hj]. exists j, l'.
      split_and!; [by eapply lookup_lt_Some| |done]. by apply lookup_app_l_Some.
  - intros i l v Hl Hv. apply lookup_snoc_Some in Hl as [[Hi Hl]|[Hi <-]].
    + destruct (Ht i l v) as (l' & u & Hl' & Hin & Hu); [done..|].
      exists l', u. split_and!; [by apply lookup_app_l_Some|done..].
    + rewrite length_app in Hi. simpl in Hi. assert (i = length layers) as -> by lia.
      destruct (process_layer_tight layer ind (concat layers) ind' next v) as (u & Hin & Hu); [done..|].
      exists layer, u. split_and!; [by apply list_lookup_middle|done..].
Qed.

Lemma layers_inv_length layers layer ind :
  layers_inv layers layer ind → (length (concat layers) + length layer ≤ length V)%nat.
Proof. intros HI. rewrite <- length_app. by eapply kahn_inv_length, li_kahn. Qed.

Lemma layers_loop_ok fuel layer ind layers :
  layers_inv layers layer ind →
  (length V ≤ fuel + length (concat layers))%nat →
  ∃ L ind', layers_loop fuel layer ind suc layers = Some L ∧ layered E L ∧
            kahn_inv V E (concat L) [] ind'.
Proof.
  revert layer ind layers. induction fuel as [|fuel IH]; intros [|u layer] ind layers HI Hlen; simpl.
  - exists layers, ind. split_and!; [done|by eapply layers_inv_done|by eapply li_kahn].
  - apply layers_inv_length in HI. simpl in HI. lia.
  - exists layers, ind. split_and!; [done|by eapply layers_inv_done|by eapply li_kahn].
  - destruct (relax _ _ _) as [ind1 next1] eqn:Hr.
    destruct (process_layer layer ind1 suc next1) as [ind' next] eqn:Hp.
    apply IH.
    + eapply (layers_inv_step layers (u :: layer)); [done..|]. simpl. by rewrite Hr.
    + rewrite concat_app, length_app. simpl. lia.
Qed.

Lemma layers_inv_init ind Q : kahn_inv V E [] Q ind → layers_inv [] Q ind.
Proof.
  intros HI. split; [done| | |].
  - by intros ? []%not_elem_of_nil.
  - done.
  - intros i l v Hl. done.
Qed.
End Layers.

Section CriticalPath.
Context {K : Type} `{EqDecision K}.
Implicit Types (ind dist : list (K * Z)).
Context (w : K -> Z) (V : list K) (E : list (K * K)) (suc : list (K * list K)).
Context (HEV : ∀ e, e ∈ E → e.2 ∈ V) (Hsuc : ∀ u, successors_of suc u = succ_list E u).

Lemma walk_snoc (p : list K) u v : walk E ((p ++ [u]) ++ [v]) ↔ walk E (p ++ [u]) ∧ edge E u v.
Proof.
  induction p as [|x p IH]; simpl; [naive_solver|].
  destruct p as [|y p]; simpl in *; [naive_solver|]. rewrite IH. naive_solver.
Qed.

Lemma path_weight_snoc (p : list K) v : path_weight w (p ++ [v]) = path_weight w p + w v.
Proof. induction p as [|x p IH]; simpl; [lia|]. rewrite IH. lia. Qed.

(** The distance loop decrements exactly as the plain loop, and raises the
    distance of each successor to the candidate. *)
Lemma relax_dist_spec node ss ind Q dist d :
  node ∉ ss → dget dist node = Some d → (∀ s, s ∈ ss → is_Some (dget dist s)) →
  ∃ dist', relax_dist w node ss ind Q dist = (relax ss ind Q, dist') ∧
    dkeys dist' = dkeys dist ∧
    ∀ v n, dget dist v = Some n →
      dget dist' v = Some (if decide (v ∈ ss) then Z.max n (d + w v) else n).
Proof.
  intros Hni. revert ind Q dist. induction ss as [|s ss IH]; intros ind Q dist Hd Hss;
    cbn [relax_dist relax].
  { exists dist. split_and!; [done|done|]. intros v n Hn.
    rewrite decide_False; [done|apply not_elem_of_nil]. }
  apply not_elem_of_cons in Hni as [Hne Hni].
  destruct (Hss s) as [m Hm]; [left|]. rewrite Hd, Hm. simpl.
  set (dist1 := if decide (m < d + w s) then _ else _).
  assert (dkeys dist1 = dkeys dist) as Hk.
  { subst dist1. case_decide; [|done]. apply dkeys_dset_in, dget_is_Some. eauto. }
  assert (dget dist1 s = Some (Z.max m (d + w s))) as Hs.
  { subst dist1. case_decide; [rewrite dget_dset_eq|rewrite Hm]; f_equal; lia. }
  assert (∀ v, v ≠ s → dget dist1 v = dget dist v) as Hns.
  { intros v Hv. subst dist1. case_decide; [by rewrite dget_dset_ne|done]. }
  destruct (IH Hni (dmod ind s 0 (λ n, n - 1))
    (if decide (dget (dmod ind s 0 (λ n, n - 1)) s = Some 0) then Q ++ [s] else Q) dist1)
    as (dist' & -> & Hk' & Hd'); [by rewrite Hns| |].
  { intros s' Hs'. apply dget_is_Some. rewrite Hk. apply dget_is_Some, Hss. by right. }
  exists dist'. split_and!; [done|congruence|]. intros v n Hn.
  destruct (decide (v = s)) as [->|Hvs].
  - rewrite (Hd' s _ Hs). simplify_eq. f_equal.
    repeat case_decide; try lia; set_solver.
  - rewrite (Hd' v n) by (by rewrite Hns). f_equal.
    destruct (decide (v ∈ ss)); [rewrite decide_True|rewrite decide_False]; set_solver.
Qed.

Lemma dist_inv_init : NoDup V → dist_inv w V E [] (map (λ k, (k, w k)) V).
Proof.
  intros Hnd. split; [unfold dkeys; rewrite map_map; apply map_id|].
  intros v Hv. exists (w v). split_and!.
  - apply elem_of_dict.
    + unfold dkeys. by rewrite map_map, map_id.
    + apply list_elem_of_fmap. by exists v.
  - lia.
  - intros u []%not_elem_of_nil.
  - exists []. split_and!; [done|simpl; lia|intros ? []%not_elem_of_nil].
Qed.

Lemma dist_inv_step P u Q ind dist :
  kahn_inv V E P (u :: Q) ind → dist_inv w V E P dist →
  ∃ dist', relax_dist w u (succ_list E u) ind Q dist = (relax (succ_list E u) ind Q, dist') ∧
           dist_inv w V E (P ++ [u]) dist'.
Proof.
  intros HI [Hkeys Hdist].
  assert (u ∈ V) as HuV by (apply (ki_sub _ _ _ _ _ HI); set_solver).
  assert (u ∉ P) as HuP.
  { pose proof (ki_nodup _ _ _ _ _ HI) as (_ & Hd & _)%NoDup_app.
    intros Hu. apply (Hd u Hu). left. }
  assert (∀ x, x ∈ P ++ [u] → x ∉ succ_list E u) as Hfix.
  { intros x Hx Hs%elem_of_succ_list. apply HuP.
    eapply kahn_inv_preds; [done| |done]. set_solver. }
  destruct (Hdist u HuV) as (d & Hd & _ & Hpred & p & Hwalk & Hpw & HpV).
  destruct (relax_dist_spec u (succ_list E u) ind Q dist d) as (dist' & Hr & Hk' & Hd'); [|done| |].
  { apply Hfix. set_solver. }
  { intros s Hs%elem_of_succ_list. apply dget_is_Some. rewrite Hkeys. by apply (HEV (u, s)). }
  exists dist'. split; [done|]. split; [congruence|].
  intros v HvV. destruct (Hdist v HvV) as (n & Hn & Hwn & Hp & q & Hq & Hqw & HqV).
  rewrite (Hd' v n Hn). eexists. split; [done|].
  assert (∀ x m, x ∈ P ++ [u] → dget dist x = Some m → dget dist' x = Some m) as Hsame.
  { intros x m Hx Hm. rewrite (Hd' x m Hm), decide_False by by apply Hfix. done. }
  split_and!.
  - case_decide; lia.
  - intros x Hx Hxv.
    apply elem_of_app in Hx as [Hx|Hx].
    + destruct (Hp x Hx Hxv) as (m & Hm & Hle). exists m.
      split; [apply Hsame; [set_solver|done]|]. case_decide; lia.
    + apply list_elem_of_singleton in Hx as ->. exists d.
      split; [apply Hsame; [set_solver|done]|].
      rewrite decide_True by by apply elem_of_succ_list. lia.
  - case_decide as Hs.
    + apply elem_of_succ_list in Hs. destruct (Z.max_spec n (d + w v)) as [[_ ->]|[_ ->]].
      * exists (p ++ [u]). split_and!; [by apply walk_snoc|rewrite path_weight_snoc; lia|].
        intros x [Hx|Hx]%elem_of_app; [by apply HpV|]. by apply list_elem_of_singleton in Hx as ->.
      * exists q. done.
    + exists q. done.
Qed.

Lemma critical_loop_ok fuel Q ind dist P :
  kahn_inv V E P Q ind → dist_inv w V E P dist → (length V ≤ fuel + length P)%nat →
  ∃ P' ind' dist', critical_loop w fuel Q ind suc dist = Some dist' ∧
                   kahn_inv V E P' [] ind' ∧ dist_inv w V E P' dist'.
Proof.
  revert Q ind dist P. induction fuel as [|fuel IH]; intros [|u Q] ind dist P HI HD Hlen; simpl.
  - eauto 10.
  - apply kahn_inv_length in HI. rewrite length_app in HI. simpl in HI. lia.
  - eauto 10.
  - rewrite Hsuc. destruct (relax (succ_list E u) ind Q) as [ind' Q'] eqn:Hr.
    destruct (dist_inv_step P u Q ind dist) as (dist' & -> & HD'); [done..|].
    rewrite Hr. apply (IH _ _ _ (P ++ [u])); [by eapply kahn_inv_step|done|].
    rewrite length_app. simpl. lia.
Qed.

(** When all nodes are processed the distances bound every walk. *)
Lemma dist_inv_bound P dist v n p :
  dist_inv w V E P dist → (∀ x, x ∈ V → x ∈ P) → v ∈ V → dget dist v = Some n →
  (∀ x, x ∈ p → x ∈ V) → walk E (p ++ [v]) → path_weight w (p ++ [v]) ≤ n.
Proof.
  intros [_ HD] Hall. revert v n. induction p as [|u p IH] using rev_ind; intros v n Hv Hn Hp Hw.
  - simpl. destruct (HD v Hv) as (n' & Hn' & Hle & _). simplify_eq. lia.
  - apply walk_snoc in Hw as [Hw Huv].
    destruct (HD v Hv) as (n' & Hn' & _ & Hpred & _). simplify_eq.
    assert (u ∈ V) as Hu by (apply Hp; set_solver).
    destruct (Hpred u (Hall u Hu) Huv) as (m & Hm & Hle).
    rewrite path_weight_snoc. assert (path_weight w (p ++ [u]) ≤ m); [|lia].
    apply IH; [done..| |done]. intros x Hx. apply Hp. set_solver.
Qed.

Lemma foldl_max_spec (l : list Z) a :
  (∀ x, x ∈ a :: l → x ≤ foldl Z.max a l) ∧ foldl Z.max a l ∈ a :: l.
Proof.
  revert a. induction l as [|b l IH]; intros a; simpl.
  - split; [intros x Hx%list_elem_of_singleton; lia|left].
  - destruct (IH (Z.max a b)) as [Hle Hin]. split.
    + intros x Hx. pose proof (Hle (Z.max a b) ltac:(left)).
      rewrite !elem_of_cons in Hx. destruct Hx as [->|[->|Hx]]; [lia|lia|].
      apply Hle. by right.
    + apply elem_of_cons in Hin as [Heq|Hin]; [|set_solver].
      destruct (Z.max_spec a b) as [[_ Hm]|[_ Hm]]; rewrite Hm in Heq at 2; rewrite Heq; set_solver.
Qed.

Lemma max_values_spec dist : dist ≠ [] → NoDup (dkeys dist) →
  (∀ v n, dget dist v = Some n → n ≤ max_values dist) ∧
  ∃ v, dget dist v = Some (max_values dist).
Proof.
  intros Hne Hnd. unfold max_values. destruct dist as [|[k a] dist]; [done|]. simpl map.
  destruct (foldl_max_spec (map snd dist) a) as [Hle Hin]. split.
  - intros v n Hn. apply elem_of_dict in Hn; [|done]. apply Hle.
    change (a :: map snd dist) with (map snd ((k, a) :: dist)).
    apply list_elem_of_fmap. by exists (v, n).
  - change (a :: map snd dist) with (map snd ((k, a) :: dist)) in Hin.
    apply list_elem_of_fmap in Hin as ([v n] & Heq & Hv). simpl in Heq. exists v.
    rewrite Heq. by apply elem_of_dict.
Qed.
End CriticalPath.
