(* ===== verification/TaskGraphData.v ===== *)
(** The task graph context: enumerations, value objects, entities and
    exceptions ([taskgraph/domain/value_objects], [entities], [exceptions]). *)
From stdpp Require Import base tactics list strings.
From Stdlib Require Import ZArith Lia.
From S2P Require Import Prelude PyTypes.

Local Open Scope Z_scope.

(** ** Enumerations *)

Module TaskGraphState.
Inductive t := DRAFT | VALIDATED | SIGNED | ACTIVE | DEPRECATED.
#[export] Instance eq_dec : EqDecision t.
Proof. solve_decision. Defined.
Definition value (x : t) : string :=
  match x with
  | DRAFT => "Draft" | VALIDATED => "Validated" | SIGNED => "Signed"
  | ACTIVE => "Active" | DEPRECATED => "Deprecated"
  end.
End TaskGraphState.
Export (hints) TaskGraphState.

Module TaskType.
Inductive t :=
  | OPERATION_TASK | WAIT_TASK | HUMAN_APPROVAL_TASK | EVALUATION_CHECKPOINT
  | ROLLBACK_TASK | BARRIER_TASK.
#[export] Instance eq_dec : EqDecision t.
Proof. solve_decision. Defined.
Definition value (x : t) : string :=
  match x with
  | OPERATION_TASK => "OperationTask" | WAIT_TASK => "WaitTask"
  | HUMAN_APPROVAL_TASK => "HumanApprovalTask"
  | EVALUATION_CHECKPOINT => "EvaluationCheckpoint"
  | ROLLBACK_TASK => "RollbackTask" | BARRIER_TASK => "BarrierTask"
  end.
End TaskType.
Export (hints) TaskType.

Module TaskCriticality.
Inductive t := OPTIONAL | REQUIRED | CRITICAL_PATH.
#[export] Instance eq_dec : EqDecision t.
Proof. solve_decision. Defined.
Definition value (x : t) : string :=
  match x with
  | OPTIONAL => "Optional" | REQUIRED => "Required" | CRITICAL_PATH => "CriticalPath"
  end.
End TaskCriticality.
Export (hints) TaskCriticality.

Module DependencyPredicate.
Inductive t :=
  | ALWAYS_EXECUTE | EXECUTE_ON_SUCCESS | EXECUTE_ON_FAILURE
  | EXECUTE_IF_OBJECTIVE_MET | EXECUTE_IF_OBJECTIVE_FAILED
  | EXECUTE_IF_DETECTION_FIRED | EXECUTE_IF_DETECTION_SILENT.
#[export] Instance eq_dec : EqDecision t.
Proof. solve_decision. Defined.
Definition value (x : t) : string :=
  match x with
  | ALWAYS_EXECUTE => "AlwaysExecute"
  | EXECUTE_ON_SUCCESS => "ExecuteOnSuccess"
  | EXECUTE_ON_FAILURE => "ExecuteOnFailure"
  | EXECUTE_IF_OBJECTIVE_MET => "ExecuteIfObjectiveMet"
  | EXECUTE_IF_OBJECTIVE_FAILED => "ExecuteIfObjectiveFailed"
  | EXECUTE_IF_DETECTION_FIRED => "ExecuteIfDetectionFired"
  | EXECUTE_IF_DETECTION_SILENT => "ExecuteIfDetectionSilent"
  end.
End DependencyPredicate.
Export (hints) DependencyPredicate.

(** ** Identifiers *)

Abbreviation TaskGraphId := uuid.
Abbreviation CampaignTaskId := uuid.

(** [TaskGroupId(value)]: [ValueError] on a blank value. *)
Definition TaskGroupId_new (value : string) : option string :=
  if blank value then None else Some value.

(** ** Value objects *)

Record TaskGraphVersion := mkVersion { major : Z; minor : Z; patch : Z }.

(** [TaskGraphVersion(...)] with its [__post_init__]. *)
Definition TaskGraphVersion_new (major minor patch : Z) : option TaskGraphVersion :=
  if (major <? 0) || (minor <? 0) || (patch <? 0) then None
  else Some (mkVersion major minor patch).

(** [TaskGraphVersion.__str__] *)
Definition str_version (v : TaskGraphVersion) : string :=
  str_int (major v) +:+ "." +:+ str_int (minor v) +:+ "." +:+ str_int (patch v).

(** [TaskGraphVersion.is_greater_than]: the tuple comparison. *)
Definition is_greater_than (a b : TaskGraphVersion) : bool :=
  if major a =? major b then
    if minor a =? minor b then patch b <? patch a else minor b <? minor a
  else major b <? major a.

Record TaskOperationTemplate := mkOperationTemplate {
  ot_technique_id : string;
  ot_technique_name : string;
  ot_parameters : list (string * string);
  ot_timeout_seconds : Z
}.

(** [TaskOperationTemplate(...)] with its [__post_init__]. *)
Definition TaskOperationTemplate_new (technique_id technique_name : string)
    (parameters : list (string * string)) (timeout_seconds : Z)
    : option TaskOperationTemplate :=
  if blank technique_id then None
  else if timeout_seconds <=? 0 then None
  else Some (mkOperationTemplate technique_id technique_name parameters timeout_seconds).

Record RollbackConfiguration := mkRollbackConfiguration {
  rc_technique_id : string;
  rc_parameters : list (string * string);
  rc_not_possible : bool;
  rc_not_possible_reason : option string
}.

Record HumanApprovalTaskConfig := mkHumanApprovalConfig {
  ha_gate_timeout_seconds : Z;
  ha_required_approver_role : string;
  ha_default_on_timeout : string;
  ha_timeout_justification : option string
}.

(** Truthiness of an optional string. *)
Definition truthy_str (s : option string) : bool :=
  match s with Some t => negb (empty_str t) | None => false end.

(** [HumanApprovalTaskConfig(...)] with its [__post_init__]: proceeding on a
    timeout needs a justification. *)
Definition HumanApprovalTaskConfig_new (gate_timeout_seconds : Z)
    (required_approver_role default_on_timeout : string)
    (timeout_justification : option string) : option HumanApprovalTaskConfig :=
  if bool_decide (default_on_timeout ∉ ["proceed"; "abort"]) then None
  else if bool_decide (default_on_timeout = "proceed") && negb (truthy_str timeout_justification)
  then None
  else Some (mkHumanApprovalConfig gate_timeout_seconds required_approver_role
               default_on_timeout timeout_justification).

Record BarrierPolicy := mkBarrierPolicy { bp_task_group_id : string }.

(** [BarrierPolicy(...)] with its [__post_init__]. *)
Definition BarrierPolicy_new (task_group_id : string) : option BarrierPolicy :=
  if blank task_group_id then None else Some (mkBarrierPolicy task_group_id).

Record ConditionalBranchConfig := mkBranchConfig {
  cb_predicate : DependencyPredicate.t;
  cb_objective_ref : option string
}.

(** [ConditionalBranchConfig(...)] with its [__post_init__]: the objective
    predicates need an objective. *)
Definition ConditionalBranchConfig_new (predicate : DependencyPredicate.t)
    (objective_ref : option string) : option ConditionalBranchConfig :=
  if bool_decide (predicate ∈ [DependencyPredicate.EXECUTE_IF_OBJECTIVE_MET;
                               DependencyPredicate.EXECUTE_IF_OBJECTIVE_FAILED])
     && negb (truthy_str objective_ref)
  then None
  else Some (mkBranchConfig predicate objective_ref).

(** ** Entities *)

Record TaskDependency := mkDependency {
  predecessor_id : CampaignTaskId;
  successor_id : CampaignTaskId;
  condition : ConditionalBranchConfig
}.

Record CampaignTask := mkTask {
  task_id : CampaignTaskId;
  task_type : TaskType.t;
  task_name : string;
  criticality : TaskCriticality.t;
  timeout_seconds : Z;
  operation_template : option TaskOperationTemplate;
  human_approval_config : option HumanApprovalTaskConfig;
  barrier_policy : option BarrierPolicy;
  rollback_config : option RollbackConfiguration;
  task_group_id : option string;
  rollback_task_ref : option CampaignTaskId
}.

(** A task with only the required fields. *)
Definition simple_task (id : CampaignTaskId) (ty : TaskType.t) (cr : TaskCriticality.t)
    (timeout : Z) : CampaignTask :=
  mkTask id ty "task" cr timeout None None None None None None.

(** ** Validation messages and exceptions

    A message is a constructor with the values the f-string interpolates. *)

Inductive ValidationError :=
  | UnknownPredecessor (id : CampaignTaskId)
  | UnknownSuccessor (id : CampaignTaskId)
  | CycleDetected (involved : list CampaignTaskId)
  | MissingApprovalConfig (id : CampaignTaskId)
  | ApprovalTimeoutNotPositive (id : CampaignTaskId)
  | MissingBarrierPolicy (id : CampaignTaskId)
  | UnknownTaskGroup (id : CampaignTaskId) (group : string)
  | MissingRollbackRef (id : CampaignTaskId)
  | UnknownRollbackRef (id ref : CampaignTaskId)
  | CriticalPathStartNodes (found : nat)
  | CriticalPathTooLong (duration window : Z).

Inductive TaskGraphException :=
  | InvalidStateTransition (from_state to_state : TaskGraphState.t) (graph_id : TaskGraphId)
  | SignedGraphImmutabilityViolation (graph_id : TaskGraphId)
  | TaskGraphValidationFailed (graph_id : TaskGraphId) (errors : list ValidationError)
  | InvalidArgument (field reason : string)
  | TenantMismatch (expected actual : TenantId)
  | TaskNotFound (id : CampaignTaskId)
  | DuplicateTask (id : CampaignTaskId).

(** ** Events and the aggregate's fields *)

Inductive TaskGraphEvent :=
  | TaskGraphCreated (name : string)
  | TaskAdded (id : CampaignTaskId) (ty : TaskType.t) (cr : TaskCriticality.t)
  | TaskRemoved (id : CampaignTaskId)
  | DependencyAdded (pred succ : CampaignTaskId) (predicate : DependencyPredicate.t)
  | ConditionalBranchAdded (pred succ : CampaignTaskId) (predicate : DependencyPredicate.t)
      (objective_ref : option string)
  | TaskGraphValidated (task_count dependency_count : nat)
  | TaskGraphSigned (signed_by version_str : string)
  | TaskGraphActivated
  | TaskGraphDeprecated.

Record TaskGraph := mkTaskGraph {
  graph_id : TaskGraphId;
  tenant_id : TenantId;
  name : string;
  description : string;
  state : TaskGraphState.t;
  version : TaskGraphVersion;
  tasks : list CampaignTask;
  dependencies : list TaskDependency;
  engagement_window_seconds : Z;
  signed_by : option string;
  signed_at : option datetime;
  signature : option string;
  created_at : datetime;
  updated_at : datetime;
  row_version : Z;
  pending_events : list (DomainEvent TaskGraphEvent)
}.

#[export] Instance TaskGraph_settable : Settable TaskGraph := fun r =>
  mkTaskGraph (graph_id r) (tenant_id r) (name r) (description r) (state r) (version r)
    (tasks r) (dependencies r) (engagement_window_seconds r) (signed_by r) (signed_at r)
    (signature r) (created_at r) (updated_at r) (row_version r) (pending_events r).

(** [_task_ids()], in list order. *)
Definition task_ids (g : TaskGraph) : list CampaignTaskId := map task_id (tasks g).

(** The (predecessor, successor) pairs of the dependencies. *)
Definition dep_edges (g : TaskGraph) : list (CampaignTaskId * CampaignTaskId) :=
  map (fun d => (predecessor_id d, successor_id d)) (dependencies g).
