(* ===== verification/TaskGraphServices.v ===== *)
(** The task graph domain services: [ExecutionOrderResolver],
    [TaskGraphValidator] and [RollbackPlanComputer], with the theorems that
    cycle detection, layering and the critical path are correct. *)
From stdpp Require Import base tactics list strings relations.
From Stdlib Require Import ZArith Lia.
From S2P Require Import Prelude PyTypes Kahn TaskGraphData.

Local Open Scope Z_scope.

(** ** ExecutionOrderResolver *)

(** [_reachable_from]: breadth-first search; [None] when the fuel runs out. *)
Fixpoint reach_loop (fuel : nat) (queue : list CampaignTaskId)
    (suc : list (CampaignTaskId * list CampaignTaskId)) (visited : list CampaignTaskId)
    : option (list CampaignTaskId) :=
  match queue with
  | [] => Some visited
  | node :: queue' =>
      match fuel with
      | O => None
      | S fuel' =>
          if decide (node ∈ visited) then reach_loop fuel' queue' suc visited
          else
            let visited' := visited ++ [node] in
            reach_loop fuel'
              (queue' ++ filter (fun s => s ∉ visited') (successors_of suc node)) suc visited'
      end
  end.

Definition _reachable_from (fuel : nat) (start : CampaignTaskId)
    (suc : list (CampaignTaskId * list CampaignTaskId)) : option (list CampaignTaskId) :=
  reach_loop fuel [start] suc [].

(** [resolve]: the layers of concurrently executable tasks.  (The source also
    groups the tasks by [task_group_id] and never reads the groups.)  The fuel
    is one unit per task for the layers, and one per edge plus one for the
    reachability search. *)
Definition resolve (g : TaskGraph) (start_task_id : option CampaignTaskId)
    : option (list (list CampaignTaskId)) :=
  let ids := task_ids g in
  match ids with
  | [] => Some []
  | _ :: _ =>
      let '(ind, suc) := build_degrees ids (dep_edges g) in
      let current := zero_keys ind in
      let start :=
        match start_task_id with
        | Some s =>
            if decide (s ∈ dkeys ind) then
              match _reachable_from (S (length (dep_edges g))) s suc with
              | Some reachable => Some (filter (fun t => t ∈ s :: reachable) current)
              | None => None
              end
            else Some current
        | None => Some current
        end in
      match start with
      | Some layer => layers_loop (length ids) layer ind suc []
      | None => None
      end
  end.

(** [get_ready_tasks]: not done, and all known predecessors done. *)
Definition get_ready_tasks (g : TaskGraph) (completed skipped : list CampaignTaskId)
    : list CampaignTaskId :=
  let done := completed ++ skipped in
  let preds t := map fst (filter (fun e => e.2 = t) (known_edges (task_ids g) (dep_edges g))) in
  filter (fun t => (t ∉ done) ∧ Forall (fun p => p ∈ done) (preds t)) (task_ids g).

(** ** TaskGraphValidator *)

Definition _validate_dependency_refs (g : TaskGraph) : list ValidationError :=
  let ids := task_ids g in
  flat_map (fun d =>
    (if decide (predecessor_id d ∈ ids) then [] else [UnknownPredecessor (predecessor_id d)]) ++
    (if decide (successor_id d ∈ ids) then [] else [UnknownSuccessor (successor_id d)]))
    (dependencies g).

(** [_find_cycle]: fewer visited nodes than tasks means a cycle, and the tasks
    with a positive in-degree are reported. *)
Definition _find_cycle (g : TaskGraph) : option (list ValidationError) :=
  let ids := task_ids g in
  let '(ind, suc) := build_degrees ids (dep_edges g) in
  match kahn_loop (length ids) (zero_keys ind) ind suc [] with
  | None => None
  | Some (visited, ind') =>
      if decide (length visited < length ids)%nat then
        Some [CycleDetected (map fst (filter (fun kd => 0 < kd.2) ind'))]
      else Some []
  end.

(** [task_map[tid].timeout_seconds]; a later task with the same id wins. *)
Definition task_timeout (g : TaskGraph) (t : CampaignTaskId) : Z :=
  default 0 (dget (dict_of (map (fun k => (task_id k, timeout_seconds k)) (tasks g))) t).

Definition _compute_critical_path_duration (g : TaskGraph) : option Z :=
  let ids := dkeys (dict_of (map (fun k => (task_id k, timeout_seconds k)) (tasks g))) in
  let '(ind, suc) := build_degrees ids (dep_edges g) in
  let dist := map (fun t => (t, task_timeout g t)) ids in
  match critical_loop (task_timeout g) (length ids) (zero_keys ind) ind suc dist with
  | Some dist' => Some (max_values dist')
  | None => None
  end.

Definition _validate_human_approval_tasks (g : TaskGraph) : list ValidationError :=
  flat_map (fun t =>
    if decide (task_type t = TaskType.HUMAN_APPROVAL_TASK) then
      match human_approval_config t with
      | None => [MissingApprovalConfig (task_id t)]
      | Some c => if ha_gate_timeout_seconds c <=? 0
                  then [ApprovalTimeoutNotPositive (task_id t)] else []
      end
    else []) (tasks g).

Definition _validate_barrier_tasks (g : TaskGraph) : list ValidationError :=
  let groups := omap task_group_id (tasks g) in
  flat_map (fun t =>
    if decide (task_type t = TaskType.BARRIER_TASK) then
      match barrier_policy t with
      | None => [MissingBarrierPolicy (task_id t)]
      | Some p => if decide (bp_task_group_id p ∈ groups) then []
                  else [UnknownTaskGroup (task_id t) (bp_task_group_id p)]
      end
    else []) (tasks g).

Definition _validate_rollback_tasks (g : TaskGraph) : list ValidationError :=
  flat_map (fun t =>
    if decide (task_type t = TaskType.ROLLBACK_TASK) then
      match rollback_task_ref t with
      | None => [MissingRollbackRef (task_id t)]
      | Some r => if decide (r ∈ task_ids g) then []
                  else [UnknownRollbackRef (task_id t) r]
      end
    else []) (tasks g).

(** [_validate_critical_path]: one start node among the critical tasks, and a
    critical path no longer than the engagement window. *)
Definition _validate_critical_path (g : TaskGraph) : option (list ValidationError) :=
  let critical := filter (fun t => criticality t = TaskCriticality.CRITICAL_PATH) (tasks g) in
  match critical with
  | [] => Some []
  | _ :: _ =>
      let ids := map task_id critical in
      let '(ind, _) := build_degrees ids (dep_edges g) in
      let starts := length (zero_keys ind) in
      if decide (starts ≠ 1%nat) then Some [CriticalPathStartNodes starts]
      else
        match _compute_critical_path_duration g with
        | None => None
        | Some duration =>
            Some (if engagement_window_seconds g <? duration
                  then [CriticalPathTooLong duration (engagement_window_seconds g)] else [])
        end
  end.

(** [validate]: all checks, in order. *)
Definition validator_validate (g : TaskGraph) : option (list ValidationError) :=
  match _find_cycle g, _validate_critical_path g with
  | Some cycle, Some critical =>
      Some (_validate_dependency_refs g ++ cycle ++ _validate_human_approval_tasks g ++
            _validate_barrier_tasks g ++ _validate_rollback_tasks g ++ critical)
  | _, _ => None
  end.

(** ** RollbackPlanComputer *)

Definition rollback_compute (completed_task_ids_in_order rollback_eligible : list uuid)
    : list uuid :=
  filter (fun t => t ∈ rollback_eligible) (rev completed_task_ids_in_order).

(** ** Specification *)

(** The dependency relation between existing tasks. *)
Definition graph_edges (g : TaskGraph) : list (CampaignTaskId * CampaignTaskId) :=
  known_edges (task_ids g) (dep_edges g).

(** Task ids are unique; [add_task] maintains it. *)
Definition unique_ids (g : TaskGraph) : Prop := NoDup (task_ids g).

(** A sequence of tasks of [g], each the successor of the one before. *)
Definition task_path (g : TaskGraph) (p : list CampaignTaskId) : Prop :=
  p ≠ [] ∧ (∀ t, t ∈ p → t ∈ task_ids g) ∧ walk (graph_edges g) p.

(** The tasks marked [CRITICAL_PATH]. *)
Definition critical_ids (g : TaskGraph) : list CampaignTaskId :=
  map task_id (filter (fun t => criticality t = TaskCriticality.CRITICAL_PATH) (tasks g)).

(** What a graph must satisfy to be signed. *)
Record valid_graph (g : TaskGraph) : Prop := {
  vg_refs : ∀ d, d ∈ dependencies g →
    predecessor_id d ∈ task_ids g ∧ successor_id d ∈ task_ids g;
  vg_acyclic : acyclic (graph_edges g);
  vg_approval : ∀ t, t ∈ tasks g → task_type t = TaskType.HUMAN_APPROVAL_TASK →
    ∃ c, human_approval_config t = Some c ∧ 0 < ha_gate_timeout_seconds c;
  vg_barrier : ∀ t, t ∈ tasks g → task_type t = TaskType.BARRIER_TASK →
    ∃ p t', barrier_policy t = Some p ∧ t' ∈ tasks g ∧
            task_group_id t' = Some (bp_task_group_id p);
  vg_rollback : ∀ t, t ∈ tasks g → task_type t = TaskType.ROLLBACK_TASK →
    ∃ r, rollback_task_ref t = Some r ∧ r ∈ task_ids g;
  vg_critical : critical_ids g ≠ [] →
    (exists! s, s ∈ critical_ids g ∧ ∀ p, (p, s) ∈ dep_edges g → p ∉ critical_ids g) ∧
    ∀ p, task_path g p → path_weight (task_timeout g) p ≤ engagement_window_seconds g
}.

(** ** A concrete graph: the diamond 1 -> {2, 3} -> 4 *)

Definition success_branch : ConditionalBranchConfig :=
  mkBranchConfig DependencyPredicate.EXECUTE_ON_SUCCESS None.

Definition graph_of (ts : list CampaignTask) (es : list (uuid * uuid)) (window : Z) : TaskGraph :=
  mkTaskGraph 7 (mkEntityId 1) "graph" "" TaskGraphState.DRAFT (mkVersion 1 0 0) ts
    (map (fun e => mkDependency e.1 e.2 success_branch) es) window None None None 0 0 1 [].

Definition diamond : TaskGraph :=
  graph_of [simple_task 1 TaskType.OPERATION_TASK TaskCriticality.CRITICAL_PATH 10;
            simple_task 2 TaskType.OPERATION_TASK TaskCriticality.REQUIRED 50;
            simple_task 3 TaskType.OPERATION_TASK TaskCriticality.OPTIONAL 20;
            simple_task 4 TaskType.OPERATION_TASK TaskCriticality.CRITICAL_PATH 5]
           [(1, 2); (1, 3); (2, 4); (3, 4)] 100.

(** ** Lemmas *)

Section Graph.
Context (g : TaskGraph) (Hwf : unique_ids g).

Lemma graph_edges_ends e : e ∈ graph_edges g → e.1 ∈ task_ids g ∧ e.2 ∈ task_ids g.
Proof. destruct e as [u v]. intros (_ & ? & ?)%elem_of_known_edges. done. Qed.

Lemma graph_edges_target e : e ∈ graph_edges g → e.2 ∈ task_ids g.
Proof. intros He. by apply graph_edges_ends. Qed.

Lemma graph_edges_source e : e ∈ graph_edges g → e.1 ∈ task_ids g.
Proof. intros He. by apply graph_edges_ends. Qed.
Hint Resolve graph_edges_target graph_edges_source : core.

(** The cycle check runs to completion with the number of tasks as fuel. *)
Lemma find_cycle_run ind suc :
  build_degrees (task_ids g) (dep_edges g) = (ind, suc) →
  (∀ u, successors_of suc u = succ_list (graph_edges g) u) ∧
  ∃ P ind', kahn_loop (length (task_ids g)) (zero_keys ind) ind suc [] = Some (P, ind') ∧
            kahn_inv (task_ids g) (graph_edges g) P [] ind'.
Proof.
  intros Hb. destruct (build_degrees_spec _ _ _ _ Hwf Hb) as (_ & _ & Hs).
  split; [done|]. eapply kahn_loop_ok; [eauto|done|by eapply kahn_inv_init|simpl; lia].
Qed.

Lemma find_cycle_spec :
  ∃ errs, _find_cycle g = Some errs ∧ (errs = [] ↔ acyclic (graph_edges g)) ∧
    (errs = [] ∨ ∃ l, errs = [CycleDetected l] ∧ ∀ v, tc (edge (graph_edges g)) v v → v ∈ l).
Proof.
  unfold _find_cycle. destruct (build_degrees _ _) as [ind suc] eqn:Hb.
  destruct (find_cycle_run ind suc Hb) as (Hs & P & ind' & -> & HI).
  pose proof (kahn_inv_acyclic _ _ suc graph_edges_target Hs P ind' graph_edges_source Hwf HI) as Hac.
  pose proof (kahn_inv_length _ _ _ _ _ HI) as Hle. rewrite app_nil_r in Hle.
  case_decide as Hlt; eexists; (split; [done|]).
  - split; [split; [done|rewrite Hac; lia]|]. right. eexists. split; [done|].
    intros v Hc.
    assert (v ∈ task_ids g) as Hv by (eapply tc_edge_target; eauto).
    assert (v ∉ P) as HvP by (eapply kahn_inv_cycle_unprocessed; eauto).
    apply list_elem_of_fmap. exists (v, Z.of_nat (length (open_in (graph_edges g) P v))).
    split; [done|]. apply list_elem_of_filter. split.
    + simpl. destruct (open_in (graph_edges g) P v) eqn:Ho; [|simpl; lia].
      apply (ki_queued _ _ _ _ _ HI) in Ho; [|done]. by rewrite app_nil_r in Ho.
    + by apply dget_elem, (ki_deg _ _ _ _ _ HI).
  - split; [|by left]. split; [intros _; apply Hac; lia|done].
Qed.

Lemma task_map_ids :
  dict_of (map (λ k, (task_id k, timeout_seconds k)) (tasks g)) =
  map (λ k, (task_id k, timeout_seconds k)) (tasks g).
Proof.
  apply dict_of_NoDup.
  change (NoDup (map fst (map (λ k, (task_id k, timeout_seconds k)) (tasks g)))).
  by rewrite map_map.
Qed.

Lemma task_map_keys :
  dkeys (dict_of (map (λ k, (task_id k, timeout_seconds k)) (tasks g))) = task_ids g.
Proof. rewrite task_map_ids. unfold dkeys. by rewrite map_map. Qed.

Lemma critical_path_spec :
  ∃ d, _compute_critical_path_duration g = Some d ∧
    (acyclic (graph_edges g) →
       (∀ p, task_path g p → path_weight (task_timeout g) p ≤ d) ∧
       (tasks g ≠ [] → ∃ p, task_path g p ∧ path_weight (task_timeout g) p = d) ∧
       (tasks g = [] → d = 0)).
Proof.
  unfold _compute_critical_path_duration. rewrite task_map_keys.
  destruct (build_degrees _ _) as [ind suc] eqn:Hb.
  destruct (build_degrees_spec _ _ _ _ Hwf Hb) as (_ & _ & Hs).
  destruct (critical_loop_ok (task_timeout g) (task_ids g) (graph_edges g) suc graph_edges_target Hs
    (length (task_ids g)) (zero_keys ind) ind (map (λ t, (t, task_timeout g t)) (task_ids g)) [])
    as (P & ind' & dist & -> & HI & HD); [by eapply kahn_inv_init|by apply dist_inv_init|simpl; lia|].
  eexists. split; [done|]. intros Hac.
  pose proof (kahn_inv_acyclic _ _ suc graph_edges_target Hs P ind' graph_edges_source Hwf HI) as [Hlen _].
  specialize (Hlen Hac).
  assert (∀ t, t ∈ task_ids g → t ∈ P) as Hall.
  { intros t Ht. assert (P ≡ₚ task_ids g) as ->; [|done].
    apply submseteq_length_Permutation; [|lia].
    pose proof (ki_nodup _ _ _ _ _ HI) as Hnd. rewrite app_nil_r in Hnd.
    apply NoDup_submseteq; [done|]. intros x Hx. apply (ki_sub _ _ _ _ _ HI). by rewrite app_nil_r. }
  pose proof HD as [Hkeys HD'].
  assert (NoDup (dkeys dist)) as Hndk by by rewrite Hkeys.
  destruct (decide (tasks g = [])) as [Hnil|Hne].
  - assert (dist = []) as ->.
    { unfold task_ids in Hkeys. rewrite Hnil in Hkeys. by apply map_eq_nil in Hkeys. }
    split_and!; [|done|done].
    intros p (Hp & Hin & _). destruct p as [|t p]; [done|]. exfalso.
    assert (t ∈ task_ids g) as Ht by (apply Hin; left).
    unfold task_ids in Ht. rewrite Hnil in Ht. by apply not_elem_of_nil in Ht.
  - assert (dist ≠ []) as Hdne.
    { intros ->. symmetry in Hkeys. by apply map_eq_nil in Hkeys. }
    destruct (max_values_spec _ _ suc graph_edges_target Hs dist Hdne Hndk) as [Hmax [v Hv]].
    split_and!; [| |done].
    + intros p (Hp & Hin & Hw). destruct p as [|t p _] using rev_ind; [done|].
      assert (t ∈ task_ids g) as Ht by (apply Hin; set_solver).
      destruct (HD' t Ht) as (n & Hn & _).
      etrans; [|by apply (Hmax t n)].
      eapply (dist_inv_bound _ _ _ suc graph_edges_target Hs P dist t n p); try done.
      intros x Hx. apply Hin. set_solver.
    + intros _. assert (v ∈ task_ids g) as Hvi.
      { rewrite <- Hkeys. apply dget_is_Some. eauto. }
      destruct (HD' v Hvi) as (n & Hn & _ & _ & p & Hw & Hpw & HpV). simplify_eq.
      exists (p ++ [v]). split; [|congruence]. split_and!; [by destruct p| |done].
      intros t [Ht|Ht]%elem_of_app; [by apply HpV|]. by apply list_elem_of_singleton in Ht as ->.
Qed.

(** Each list-valued check is empty exactly when its clause holds. *)
Lemma dependency_refs_nil : _validate_dependency_refs g = [] ↔
  ∀ d, d ∈ dependencies g → predecessor_id d ∈ task_ids g ∧ successor_id d ∈ task_ids g.
Proof.
  unfold _validate_dependency_refs. rewrite flat_map_nil. apply forall_elem_proper.
  intros d. rewrite app_nil. repeat case_decide; naive_solver.
Qed.

Lemma approval_nil : _validate_human_approval_tasks g = [] ↔
  ∀ t, t ∈ tasks g → task_type t = TaskType.HUMAN_APPROVAL_TASK →
    ∃ c, human_approval_config t = Some c ∧ 0 < ha_gate_timeout_seconds c.
Proof.
  unfold _validate_human_approval_tasks. rewrite flat_map_nil. apply forall_elem_proper.
  intros t. case_decide; [|naive_solver]. destruct (human_approval_config t) as [c|]; [|naive_solver].
  destruct (Z.leb_spec (ha_gate_timeout_seconds c) 0); split; try naive_solver.
  intros Hc. destruct Hc as (c' & [= <-] & ?); [done|lia].
Qed.

Lemma barrier_nil : _validate_barrier_tasks g = [] ↔
  ∀ t, t ∈ tasks g → task_type t = TaskType.BARRIER_TASK →
    ∃ p t', barrier_policy t = Some p ∧ t' ∈ tasks g ∧ task_group_id t' = Some (bp_task_group_id p).
Proof.
  unfold _validate_barrier_tasks. rewrite flat_map_nil. apply forall_elem_proper.
  intros t. case_decide; [|naive_solver]. destruct (barrier_policy t) as [p|]; [|naive_solver].
  case_decide as Hp; rewrite list_elem_of_omap in Hp; naive_solver.
Qed.

Lemma rollback_nil : _validate_rollback_tasks g = [] ↔
  ∀ t, t ∈ tasks g → task_type t = TaskType.ROLLBACK_TASK →
    ∃ r, rollback_task_ref t = Some r ∧ r ∈ task_ids g.
Proof.
  unfold _validate_rollback_tasks. rewrite flat_map_nil. apply forall_elem_proper.
  intros t. case_decide; [|naive_solver]. destruct (rollback_task_ref t) as [p|]; [|naive_solver].
  case_decide; naive_solver.
Qed.

Lemma NoDup_critical_ids : NoDup (critical_ids g).
Proof.
  eapply sublist_NoDup; [apply Hwf|]. unfold critical_ids, task_ids.
  apply (fmap_sublist task_id), sublist_filter.
Qed.

(** The start nodes counted by [_validate_critical_path]. *)
Lemma critical_start ind suc s :
  build_degrees (critical_ids g) (dep_edges g) = (ind, suc) →
  s ∈ zero_keys ind ↔
  s ∈ critical_ids g ∧ ∀ p, (p, s) ∈ dep_edges g → p ∉ critical_ids g.
Proof.
  intros Hb. destruct (build_degrees_spec _ _ _ _ NoDup_critical_ids Hb) as (Hk & Hd & _).
  rewrite elem_of_zero_keys by (rewrite Hk; apply NoDup_critical_ids).
  assert (s ∈ critical_ids g → dget ind s = Some 0 ↔ ∀ p, (p, s) ∈ dep_edges g → p ∉ critical_ids g) as H.
  { intros Hs. rewrite (Hd s Hs). etrans; [|etrans; [apply (open_in_nil (known_edges (critical_ids g) (dep_edges g)) [] s)|]].
    - destruct (open_in _ _ _); simpl; split; intros; simplify_eq; try done; lia.
    - setoid_rewrite elem_of_known_edges. split.
      + intros Hu p Hp Hc. by apply (not_elem_of_nil p), Hu.
      + intros Hu p (Hp & Hc & _). by destruct (Hu p Hp). }
  split; [|intros [Hs Hp]; by apply H].
  intros Hz. assert (s ∈ critical_ids g) as Hs by (rewrite <- Hk; apply dget_is_Some; eauto).
  split; [done|by apply H].
Qed.

Lemma critical_check_ok : acyclic (graph_edges g) →
  ∃ errs, _validate_critical_path g = Some errs ∧
  (errs = [] ↔ (critical_ids g ≠ [] →
    (exists! s, s ∈ critical_ids g ∧ ∀ p, (p, s) ∈ dep_edges g → p ∉ critical_ids g) ∧
    ∀ p, task_path g p → path_weight (task_timeout g) p ≤ engagement_window_seconds g)).
Proof.
  intros Hac. unfold _validate_critical_path. fold (critical_ids g).
  destruct critical_path_spec as (d & -> & Hd). destruct (Hd Hac) as (Hmax & Hatt & Hempty).
  destruct (build_degrees (critical_ids g) (dep_edges g)) as [ind suc] eqn:Hb.
  pose proof (critical_start ind suc) as Hst. specialize (fun s => Hst s Hb).
  destruct (build_degrees_spec _ _ _ _ NoDup_critical_ids Hb) as (Hk & _ & _).
  assert (NoDup (zero_keys ind)) as Hnd.
  { apply NoDup_zero_keys. rewrite Hk. apply NoDup_critical_ids. }
  pose proof (length_1_unique _ Hnd) as H1. setoid_rewrite Hst in H1.
  assert (tasks g ≠ [] ∨ critical_ids g = []) as Ht.
  { unfold critical_ids. destruct (tasks g); [by right|by left]. }
  unfold critical_ids in *.
  destruct (filter _ (tasks g)) as [|c cs] eqn:Hc; [eexists; split; [done|naive_solver]|].
  case_decide as Hlen; [eexists; split; [done|]; naive_solver|].
  eexists; split; [done|]. assert (tasks g ≠ []) as Ht' by naive_solver.
  destruct (Hatt Ht') as (p & Hp & Hpd).
  destruct (Z.ltb_spec (engagement_window_seconds g) d).
  - split; [done|]. intros Hall. exfalso. destruct (Hall ltac:(done)) as [_ Hw].
    specialize (Hw p Hp). lia.
  - split; [|done]. intros _ _. split; [apply H1; lia|]. intros q Hq. specialize (Hmax q Hq). lia.
Qed.
End Graph.

(** ** The reachability search *)

Section Reach.
Context (E : list (CampaignTaskId * CampaignTaskId)) (s : CampaignTaskId)
  (suc : list (CampaignTaskId * list CampaignTaskId))
  (Hsuc : ∀ u, successors_of suc u = succ_list E u).

(** Edges whose source is still to be visited. *)
Definition unvisited_edges (visited : list CampaignTaskId) :=
  filter (fun e => e.1 ∉ visited) E.

Record reach_inv (queue visited : list CampaignTaskId) : Prop := {
  ri_sound : ∀ x, x ∈ visited ++ queue → rtc (edge E) s x;
  ri_closed : ∀ u v, u ∈ visited → edge E u v → v ∈ visited ++ queue;
  ri_start : s ∈ visited ++ queue
}.

Lemma unvisited_edges_snoc visited u : u ∉ visited →
  length (unvisited_edges visited) =
  (length (unvisited_edges (visited ++ [u])) + length (succ_list E u))%nat.
Proof.
  intros Hu. unfold unvisited_edges, succ_list. rewrite length_map.
  clear Hsuc. induction E as [|[a b] E' IH]; [done|]. rewrite !filter_cons. cbn [fst snd].
  destruct (decide (a = u)) as [->|Hne]; [|destruct (decide (a ∈ visited))];
    repeat first [rewrite decide_True by set_solver | rewrite decide_False by set_solver];
    simpl; lia.
Qed.

Lemma reach_inv_step queue visited u : u ∉ visited →
  reach_inv (u :: queue) visited →
  reach_inv (queue ++ filter (fun x => x ∉ visited ++ [u]) (succ_list E u)) (visited ++ [u]).
Proof.
  intros Hu [Hs Hc H0].
  assert (rtc (edge E) s u) as Hsu by (apply Hs; set_solver).
  split.
  - intros x. rewrite !elem_of_app, list_elem_of_filter, elem_of_succ_list.
    intros [[?|?%list_elem_of_singleton]|[?|[_ ?]]]; subst; [|done| |by eapply rtc_r];
      apply Hs; set_solver.
  - intros a b Ha Hab. destruct (decide (b ∈ visited ++ [u])) as [|Hb]; [set_solver|].
    apply elem_of_app in Ha as [Ha| ->%list_elem_of_singleton].
    + specialize (Hc a b Ha Hab). set_solver.
    + rewrite !elem_of_app, list_elem_of_filter, elem_of_succ_list. auto.
  - set_solver.
Qed.

Lemma reach_loop_ok fuel queue visited :
  reach_inv queue visited → (length queue + length (unvisited_edges visited) ≤ fuel)%nat →
  ∃ r, reach_loop fuel queue suc visited = Some r ∧ ∀ x, x ∈ r ↔ rtc (edge E) s x.
Proof.
  revert queue visited. induction fuel as [|fuel IH]; intros [|u queue] visited HI Hf; cbn [reach_loop].
  all: try (simpl in Hf; lia).
  1,2: exists visited; split; [done|]; destruct HI as [Hs Hc H0];
    rewrite app_nil_r in Hs, Hc, H0; intros x; split; [apply Hs|];
    revert x; apply rtc_ind_r; [done|]; eauto.
  case_decide as Hu.
  - apply IH; [|simpl in Hf; lia]. destruct HI as [Hs Hc H0].
    split; [intros x ?; apply Hs; set_solver|intros a b ? ?; specialize (Hc a b); set_solver|set_solver].
  - rewrite Hsuc. apply IH; [by apply reach_inv_step|].
    rewrite (unvisited_edges_snoc visited u Hu) in Hf.
    rewrite length_app. simpl in Hf.
    pose proof (length_filter (λ x, x ∉ visited ++ [u]) (succ_list E u)). lia.
Qed.

Lemma reachable_from_ok fuel : (S (length E) ≤ fuel)%nat →
  ∃ r, _reachable_from fuel s suc = Some r ∧ ∀ x, x ∈ r ↔ rtc (edge E) s x.
Proof.
  intros Hf. apply reach_loop_ok.
  - split; [by intros x ->%list_elem_of_singleton|by intros ? ? []%not_elem_of_nil|left].
  - pose proof (length_filter (λ e : CampaignTaskId * CampaignTaskId, e.1 ∉ []) E).
    unfold unvisited_edges. simpl in *. lia.
Qed.
End Reach.

(** [resolve] without a start task runs Kahn's algorithm to the end. *)
Lemma resolve_run g : unique_ids g →
  ∃ L ind, resolve g None = Some L ∧ layered (graph_edges g) L ∧
           kahn_inv (task_ids g) (graph_edges g) (concat L) [] ind.
Proof.
  intros Hwf. unfold resolve.
  destruct (build_degrees (task_ids g) (dep_edges g)) as [ind suc] eqn:Hb.
  destruct (build_degrees_spec _ _ _ _ Hwf Hb) as (_ & _ & Hs).
  pose proof (layers_inv_init _ _ _ _ (kahn_inv_init _ _ _ _ Hwf Hb)) as HL.
  destruct (layers_loop_ok _ _ suc (graph_edges_target g) Hs (length (task_ids g)) _ _ _ HL)
    as (L & ind' & HeqL & Hlay & HI); [simpl; lia|].
  exists L, ind'. split; [|done]. destruct (task_ids g) eqn:Hids; [|done].
  simpl in HeqL. unfold build_degrees in Hb. unfold task_ids, dep_edges in *.
  assert (zero_keys ind = []) as Hz.
  { destruct (zero_keys ind) as [|z zs] eqn:Hzk; [done|].
    assert (z ∈ ([] : list uuid)) as []%not_elem_of_nil.
    apply (ki_sub _ _ _ _ _ (li_kahn _ _ _ _ _ HL)). simpl. left. }
  rewrite Hz in HeqL. by injection HeqL as <-.
Qed.

Lemma elem_of_pred_list (E : list (CampaignTaskId * CampaignTaskId)) t p :
  p ∈ map fst (filter (fun e => e.2 = t) E) ↔ edge E p t.
Proof.
  rewrite elem_of_map_fst. setoid_rewrite list_elem_of_filter. unfold edge. simpl. naive_solver.
Qed.

Lemma zero_keys_no_edge g ind suc t : unique_ids g →
  build_degrees (task_ids g) (dep_edges g) = (ind, suc) →
  t ∈ zero_keys ind → t ∈ task_ids g ∧ ∀ p, ¬ edge (graph_edges g) p t.
Proof.
  intros Hwf Hb Ht. pose proof (kahn_inv_init _ _ _ _ Hwf Hb) as HI.
  assert (t ∈ task_ids g) as Hin by by apply (ki_sub _ _ _ _ _ HI).
  split; [done|]. intros p Hp. apply (not_elem_of_nil p).
  revert p Hp. apply open_in_nil, (ki_queued _ _ _ _ _ HI); done.
Qed.

Lemma diamond_unique : unique_ids diamond.
Proof. unfold unique_ids. by_compute. Qed.

(** The validator returns, and reports nothing exactly on a valid graph. *)
Lemma validate_complete g : unique_ids g →
  ∃ errs, validator_validate g = Some errs ∧ (errs = [] ↔ valid_graph g).
Proof.
  intros Hwf. destruct (find_cycle_spec g Hwf) as (ce & Hc & Hac & _).
  unfold validator_validate. rewrite Hc.
  assert (∃ errs, _validate_critical_path g = Some errs) as [pe Hp].
  { unfold _validate_critical_path. destruct (critical_path_spec g Hwf) as (d & -> & _).
    destruct (filter _ _); [eauto|]. destruct (build_degrees _ _). case_decide; eauto. }
  rewrite Hp. eexists. split; [done|].
  rewrite !app_nil, Hac, dependency_refs_nil, approval_nil, barrier_nil, rollback_nil.
  split.
  - intros (? & Hacy & ? & ? & ? & ->). destruct (critical_check_ok g Hwf Hacy) as (? & Hp' & Hiff).
    rewrite Hp in Hp'. simplify_eq. split; naive_solver.
  - intros [? Hacy ? ? ? Hcrit]. destruct (critical_check_ok g Hwf Hacy) as (? & Hp' & Hiff).
    rewrite Hp in Hp'. simplify_eq. naive_solver.
Qed.

(** No traversal runs out of fuel. *)
Lemma traversals_end g start : unique_ids g →
  is_Some (_find_cycle g) ∧ is_Some (_compute_critical_path_duration g) ∧ is_Some (resolve g start).
Proof.
  intros Hwf. unfold _find_cycle, _compute_critical_path_duration, resolve. rewrite task_map_keys by done.
  destruct (build_degrees (task_ids g) (dep_edges g)) as [ind suc] eqn:Hb.
  destruct (build_degrees_spec _ _ _ _ Hwf Hb) as (Hk & _ & Hsuc).
  assert (length (zero_keys ind) + open_keys ind ≤ length (task_ids g))%nat as Hfuel.
  { rewrite <- Hk. unfold dkeys. rewrite length_map. apply zero_open_keys. }
  split_and!.
  - destruct (kahn_loop_terminates suc _ _ _ [] Hfuel) as [[visited ind'] ->]. case_decide; by eexists.
  - destruct (critical_loop_terminates (task_timeout g) suc _ _ _
      (map (λ t, (t, task_timeout g t)) (task_ids g)) Hfuel) as [dist ->]. by eexists.
  - destruct (task_ids g) eqn:Hids; [by eexists|]. rewrite <- Hids in *.
    destruct start as [s|]; [|by apply layers_loop_terminates].
    case_decide as Hs; [|by apply layers_loop_terminates].
    destruct (reachable_from_ok (graph_edges g) s suc Hsuc (S (length (dep_edges g))))
      as (r & -> & _); [apply le_n_S, length_filter|].
    apply layers_loop_terminates. pose proof (length_filter (λ t, t ∈ s :: r) (zero_keys ind)). lia.
Qed.

(** ** Properties *)

(** C5. [TaskGraphValidator.validate] decides validity: it always returns, and
    its error list is empty exactly when every dependency refers to existing
    tasks, the dependency relation is acyclic, approval, barrier and rollback
    tasks are configured, and the critical tasks have one start node and the
    longest walk fits the engagement window. *)
Theorem validate_decides_validity g : unique_ids g →
  ∃ errs, validator_validate g = Some errs ∧ (errs = [] ↔ valid_graph g).
Proof. apply validate_complete. Qed.

Lemma validate_decides_validity_witness :
  unique_ids diamond ∧ ∃ errs, validator_validate diamond = Some errs ∧ (errs = [] ↔ valid_graph diamond).
Proof. split; [apply diamond_unique | apply (validate_decides_validity diamond diamond_unique)]. Defined.

(** C6. [ExecutionOrderResolver.resolve] without a start task always returns,
    and its layers are a topological layering: no task occurs twice, no layer
    is empty, every predecessor of a task lies in an earlier layer, every task
    after the first layer has a predecessor in the layer just before; and the
    layers hold all the tasks exactly when the graph is acyclic. *)
Theorem resolve_is_topological_layering g : unique_ids g →
  ∃ L, resolve g None = Some L ∧ layered (graph_edges g) L ∧
       (acyclic (graph_edges g) ↔ concat L ≡ₚ task_ids g).
Proof.
  intros Hwf. destruct (resolve_run g Hwf) as (L & ind & HL & Hlay & HI).
  exists L. split_and!; [done..|].
  destruct (build_degrees (task_ids g) (dep_edges g)) as [ind0 suc] eqn:Hb.
  destruct (find_cycle_run g Hwf _ _ Hb) as (Hs & _).
  rewrite (kahn_inv_acyclic _ _ suc (graph_edges_target g) Hs _ _ (graph_edges_source g) Hwf HI).
  split; [|intros Hp; by rewrite Hp]. intros Hlen.
  apply submseteq_length_Permutation; [|lia].
  apply NoDup_submseteq; [apply (ly_nodup _ _ Hlay)|].
  intros x Hx. apply (ki_sub _ _ _ _ _ HI). by rewrite app_nil_r.
Qed.

Lemma resolve_is_topological_layering_witness :
  resolve diamond None = Some [[1]; [2; 3]; [4]] ∧
  ∃ L, resolve diamond None = Some L ∧ layered (graph_edges diamond) L ∧
       (acyclic (graph_edges diamond) ↔ concat L ≡ₚ task_ids diamond).
Proof.
  split; [vm_compute; reflexivity|].
  apply (resolve_is_topological_layering diamond diamond_unique).
Defined.

(** C20. The critical path duration is the greatest total timeout of a walk
    through the dependencies of an acyclic graph, and 0 for no tasks. *)
Theorem critical_path_is_longest_walk g : unique_ids g → acyclic (graph_edges g) →
  ∃ d, _compute_critical_path_duration g = Some d ∧
    (∀ p, task_path g p → path_weight (task_timeout g) p ≤ d) ∧
    (tasks g ≠ [] → ∃ p, task_path g p ∧ path_weight (task_timeout g) p = d) ∧
    (tasks g = [] → d = 0).
Proof.
  intros Hwf Hac. destruct (critical_path_spec g Hwf) as (d & Hd & Hspec). eauto.
Qed.

Lemma diamond_acyclic : acyclic (graph_edges diamond).
Proof.
  destruct (find_cycle_spec diamond diamond_unique) as (e & He & Hac & _).
  apply Hac. assert (_find_cycle diamond = Some []) as H0 by (vm_compute; reflexivity). congruence.
Qed.

Lemma critical_path_is_longest_walk_witness :
  _compute_critical_path_duration diamond = Some 65 ∧
  ∃ d, _compute_critical_path_duration diamond = Some d ∧
    (∀ p, task_path diamond p → path_weight (task_timeout diamond) p ≤ d) ∧
    (tasks diamond ≠ [] → ∃ p, task_path diamond p ∧ path_weight (task_timeout diamond) p = d) ∧
    (tasks diamond = [] → d = 0).
Proof.
  split; [vm_compute; reflexivity|].
  apply (critical_path_is_longest_walk diamond diamond_unique diamond_acyclic).
Defined.

(** [resolve] with a start task that has a predecessor returns no layer at
    all: the first layer keeps only tasks without predecessors that are
    reachable from the start task, and there are none. *)
Theorem resolve_from_inner_task_is_empty g s p : unique_ids g →
  edge (graph_edges g) p s → resolve g (Some s) = Some [].
Proof.
  intros Hwf Hp. unfold resolve.
  assert (s ∈ task_ids g) as Hs by apply (graph_edges_target g _ Hp).
  destruct (build_degrees (task_ids g) (dep_edges g)) as [ind suc] eqn:Hb.
  destruct (build_degrees_spec _ _ _ _ Hwf Hb) as (Hk & _ & Hsuc).
  destruct (reachable_from_ok (graph_edges g) s suc Hsuc (S (length (dep_edges g))))
    as (r & -> & Hr).
  { unfold graph_edges, known_edges. apply le_n_S, length_filter. }
  rewrite decide_True by by rewrite Hk.
  assert (filter (fun t => t ∈ s :: r) (zero_keys ind) = []) as ->.
  { apply not_elem_nil. intros t [Hin Ht]%list_elem_of_filter.
    destruct (zero_keys_no_edge g ind suc t Hwf Hb Ht) as [_ Hno].
    apply elem_of_cons in Hin as [->|Hin]; [by eapply Hno|].
    apply Hr, rtc_inv_r in Hin as [->|(u & _ & Hu)]; [by eapply Hno|by eapply Hno]. }
  destruct (task_ids g); [by apply not_elem_of_nil in Hs|done].
Qed.

Lemma resolve_from_inner_task_is_empty_witness :
  edge (graph_edges diamond) 1 2 ∧ resolve diamond (Some 2) = Some [].
Proof.
  assert (edge (graph_edges diamond) 1 2) as He
    by (unfold edge; by_compute).
  split; [done|]. apply (resolve_from_inner_task_is_empty diamond 2 1 diamond_unique He).
Defined.

(** C39. The traversals terminate on every graph with unique task ids, cyclic or
    not: the queue of the cycle check, the queue of the critical path, the
    search from a start task and the layers below it run dry within one step per
    task, respectively per dependency. *)
Theorem traversals_terminate g start : unique_ids g →
  is_Some (_find_cycle g) ∧ is_Some (_compute_critical_path_duration g) ∧ is_Some (resolve g start).
Proof. apply traversals_end. Qed.

Lemma traversals_terminate_witness :
  unique_ids diamond ∧ is_Some (_find_cycle diamond) ∧ is_Some (_compute_critical_path_duration diamond) ∧
  is_Some (resolve diamond (Some 2)).
Proof. split; [apply diamond_unique|apply (traversals_terminate diamond (Some 2) diamond_unique)]. Defined.

(** C40. [get_ready_tasks] returns exactly the tasks that are not done and whose
    predecessors are all done, and it makes progress: in an acyclic graph some
    task is ready as long as some task is not done. *)
Theorem ready_tasks_progress g completed skipped : acyclic (graph_edges g) →
  (∀ t, t ∈ get_ready_tasks g completed skipped ↔
     t ∈ task_ids g ∧ (t ∉ completed ++ skipped) ∧
     ∀ p, edge (graph_edges g) p t → p ∈ completed ++ skipped) ∧
  ((∃ t, t ∈ task_ids g ∧ t ∉ completed ++ skipped) → get_ready_tasks g completed skipped ≠ []).
Proof.
  intros Hac.
  assert (∀ t, t ∈ get_ready_tasks g completed skipped ↔
     t ∈ task_ids g ∧ (t ∉ completed ++ skipped) ∧
     ∀ p, edge (graph_edges g) p t → p ∈ completed ++ skipped) as Hspec.
  { intros t. unfold get_ready_tasks. rewrite list_elem_of_filter, Forall_forall.
    setoid_rewrite elem_of_pred_list. naive_solver. }
  split; [done|]. intros (t & Ht & Hnd) Hnil.
  destruct (finite_no_source_cycle (edge (graph_edges g))
    (filter (fun x => x ∉ completed ++ skipped) (task_ids g))) as (x & _ & Hx).
  - intros Hf. apply (not_elem_of_nil t). rewrite <- Hf. by apply list_elem_of_filter.
  - intros x [Hx Hin]%list_elem_of_filter.
    destruct (decide (Exists (fun e => e.2 = x ∧ e.1 ∉ completed ++ skipped) (graph_edges g))) as [He|He].
    + apply Exists_exists in He as ([y ?] & Hy & <- & Hyn). exists y. split; [|done].
      apply list_elem_of_filter. split; [done|]. apply (graph_edges_source g _ Hy).
    + exfalso. apply (not_elem_of_nil x). rewrite <- Hnil. apply Hspec. split_and!; [done..|].
      intros p Hp. destruct (decide (p ∈ completed ++ skipped)); [done|].
      exfalso. apply He, Exists_exists. by exists (p, x).
  - by apply (Hac x).
Qed.

Lemma ready_tasks_progress_witness :
  get_ready_tasks diamond [1] [3] = [2] ∧
  (∃ t, t ∈ task_ids diamond ∧ t ∉ [1] ++ [3]) ∧ get_ready_tasks diamond [1] [3] ≠ [].
Proof.
  assert (∃ t, t ∈ task_ids diamond ∧ t ∉ [1] ++ [3]) as He
    by (exists 2; split; by_compute).
  split_and!; [vm_compute; reflexivity|done|].
  apply (ready_tasks_progress diamond [1] [3] diamond_acyclic). exact He.
Defined.

(** [RollbackPlanComputer.compute] rolls back dependents first: when the
    tasks completed without repetition and each after its predecessors, a task
    of the plan comes before every task of the plan it depends on, directly or
    not; and the plan holds exactly the eligible completed tasks. *)
Theorem rollback_reverses_dependencies g completed eligible :
  NoDup completed →
  (∀ l1 t l2 p, completed = l1 ++ t :: l2 → edge (graph_edges g) p t → p ∈ completed → p ∈ l1) →
  (∀ p t, edge (graph_edges g) p t → t ∈ completed → p ∈ completed) →
  (∀ t, t ∈ rollback_compute completed eligible ↔ t ∈ completed ∧ t ∈ eligible) ∧
  (∀ l1 t l2 p, rollback_compute completed eligible = l1 ++ t :: l2 →
     tc (edge (graph_edges g)) p t → p ∉ l1).
Proof.
  intros Hnd Htopo Hclosed. unfold rollback_compute.
  assert (∀ p t, tc (edge (graph_edges g)) p t → ∀ l1 l2, completed = l1 ++ t :: l2 → p ∈ l1) as Htc.
  { intros p t Hpt. induction Hpt as [p t He|p q t He Hqt IH]; intros l1 l2 Hc.
    - apply (Htopo l1 t l2 p Hc He). apply (Hclosed p t He). rewrite Hc. set_solver.
    - specialize (IH l1 l2 Hc). apply list_elem_of_split in IH as (k1 & k2 & ->).
      rewrite <- app_assoc in Hc. simpl in Hc.
      assert (p ∈ k1); [|set_solver]. apply (Htopo k1 q (k2 ++ t :: l2) p Hc He).
      apply (Hclosed p q He). rewrite Hc. set_solver. }
  split.
  - intros t. rewrite list_elem_of_filter, !list_elem_of_In, <- in_rev. tauto.
  - intros l1 t l2 p Heq Hpt Hp.
    destruct (filter_split _ _ _ _ _ Heq) as (k1 & k2 & Hk & <- & _).
    apply list_elem_of_filter in Hp as [_ Hp].
    apply (f_equal (@rev _)) in Hk. rewrite rev_involutive, rev_app_distr in Hk.
    simpl in Hk. rewrite <- app_assoc in Hk. simpl in Hk.
    pose proof (Htc p t Hpt _ _ Hk) as Hpk. rewrite Hk in Hnd.
    apply NoDup_app in Hnd as (_ & Hdis & _). apply (Hdis p Hpk). right.
    rewrite list_elem_of_In, <- in_rev. by apply list_elem_of_In.
Qed.

Lemma rollback_reverses_dependencies_witness :
  rollback_compute [1; 2; 3; 4] [1; 3; 4] = [4; 3; 1] ∧
  ∀ l1 t l2 p, rollback_compute [1; 2; 3; 4] [1; 3; 4] = l1 ++ t :: l2 →
     tc (edge (graph_edges diamond)) p t → p ∉ l1.
Proof.
  split; [vm_compute; reflexivity|].
  apply (rollback_reverses_dependencies diamond [1; 2; 3; 4] [1; 3; 4]); [by_compute| |].
  - intros l1 t l2 p Hl He _.
    assert ((p, t) ∈ [(1, 2); (1, 3); (2, 4); (3, 4)]) as Hin by (revert He; by vm_compute).
    repeat (apply elem_of_cons in Hin as [[= -> ->]|Hin]; [|]);
      try (by apply not_elem_of_nil in Hin);
      repeat (destruct l1 as [|? l1]; simplify_eq/=; try (by_compute)).
  - intros p t He _.
    assert ((p, t) ∈ [(1, 2); (1, 3); (2, 4); (3, 4)]) as Hin by (revert He; by vm_compute).
    repeat (apply elem_of_cons in Hin as [[= -> ->]|Hin]; [|]);
      try (by apply not_elem_of_nil in Hin); by_compute.
Defined.
