(* ===== verification/TaskGraph.v ===== *)
(** The [TaskGraph] aggregate: its operations, lifecycle invariants, and the
    behaviour of signing. *)
From stdpp Require Import base tactics list strings relations.
From Stdlib Require Import ZArith Lia.
From S2P Require Import Prelude PyTypes Kahn TaskGraphData TaskGraphServices.

Local Open Scope Z_scope.
Import TaskGraphState.

(** ** Operations *)

Abbreviation M := (PyM TaskGraph TaskGraphException).

Definition _ALLOWED_TRANSITIONS (s : TaskGraphState.t) : list TaskGraphState.t :=
  match s with
  | DRAFT => [VALIDATED]
  | VALIDATED => [SIGNED; DRAFT]
  | SIGNED => [ACTIVE]
  | ACTIVE => [DEPRECATED]
  | DEPRECATED => []
  end.

Definition _IMMUTABLE_STATES : list TaskGraphState.t := [SIGNED; ACTIVE; DEPRECATED].

(** [_emit], with the envelope every event of the aggregate carries. *)
Definition _emit (now : datetime) (e : TaskGraphEvent) : M unit :=
  modify (fun g => g <| pending_events ::=
    fun l => l ++ [mkEvent now (tenant_id g) (graph_id g) e] |>).

Definition pop_events : M (list (DomainEvent TaskGraphEvent)) :=
  g ← self;
  modify (fun g => g <| pending_events := [] |>);;
  mret (pending_events g).

Definition _assert_tenant (t : TenantId) : M unit :=
  g ← self;
  raise_if (bool_decide (t ≠ tenant_id g)) (TenantMismatch (tenant_id g) t).

Definition _assert_topology_mutable : M unit :=
  g ← self;
  raise_if (bool_decide (state g ∈ _IMMUTABLE_STATES)) (SignedGraphImmutabilityViolation (graph_id g)).

Definition _mutate (now : datetime) : M unit :=
  modify (fun g => g <| updated_at := now |> <| row_version ::= Z.add 1 |>).

Definition _transition (to_state : TaskGraphState.t) : M unit :=
  g ← self;
  raise_if (bool_decide (to_state ∉ _ALLOWED_TRANSITIONS (state g)))
    (InvalidStateTransition (state g) to_state (graph_id g));;
  modify (fun g => g <| state := to_state |>).

Definition create (graph_id : TaskGraphId) (tenant_id : TenantId) (name description : string)
    (engagement_window_seconds : Z) (now : datetime) : result TaskGraphException TaskGraph :=
  if blank name then Err (InvalidArgument "name" "must not be empty")
  else if engagement_window_seconds <=? 0
  then Err (InvalidArgument "engagement_window_seconds" "must be positive")
  else
    let graph := mkTaskGraph graph_id tenant_id (strip name) (strip description) DRAFT
      (mkVersion 1 0 0) [] [] engagement_window_seconds None None None now now 1 [] in
    Ok (snd (_emit now (TaskGraphCreated (strip name)) graph)).

Definition add_task (t : TenantId) (task : CampaignTask) (now : datetime) : M unit :=
  _assert_tenant t;;
  _assert_topology_mutable;;
  g ← self;
  raise_if (bool_decide (task_id task ∈ task_ids g)) (DuplicateTask (task_id task));;
  raise_if (blank (task_name task)) (InvalidArgument "task.name" "must not be empty");;
  modify (fun g => g <| tasks ::= fun l => l ++ [task] |>);;
  _mutate now;;
  _emit now (TaskAdded (task_id task) (task_type task) (criticality task)).

(** [self.tasks.remove(found)], where [found] is the first task with the id. *)
Fixpoint remove_first (id : CampaignTaskId) (l : list CampaignTask) : list CampaignTask :=
  match l with
  | [] => []
  | x :: l' => if decide (task_id x = id) then l' else x :: remove_first id l'
  end.

Definition remove_task (t : TenantId) (id : CampaignTaskId) (now : datetime) : M unit :=
  _assert_tenant t;;
  _assert_topology_mutable;;
  g ← self;
  raise_if (bool_decide (id ∉ task_ids g)) (TaskNotFound id);;
  modify (fun g => g <| tasks ::= remove_first id |>);;
  modify (fun g => g <| dependencies ::=
    filter (fun d => predecessor_id d ≠ id ∧ successor_id d ≠ id) |>);;
  _mutate now;;
  _emit now (TaskRemoved id).

Definition is_conditional (c : ConditionalBranchConfig) : bool :=
  bool_decide (cb_predicate c ∉ [DependencyPredicate.ALWAYS_EXECUTE;
    DependencyPredicate.EXECUTE_ON_SUCCESS; DependencyPredicate.EXECUTE_ON_FAILURE]).

Definition add_dependency (t : TenantId) (pred succ : CampaignTaskId)
    (condition : ConditionalBranchConfig) (now : datetime) : M unit :=
  _assert_tenant t;;
  _assert_topology_mutable;;
  g ← self;
  raise_if (bool_decide (pred ∉ task_ids g)) (TaskNotFound pred);;
  raise_if (bool_decide (succ ∉ task_ids g)) (TaskNotFound succ);;
  raise_if (bool_decide (pred = succ))
    (InvalidArgument "predecessor_id" "task cannot depend on itself");;
  modify (fun g => g <| dependencies ::= fun l => l ++ [mkDependency pred succ condition] |>);;
  _mutate now;;
  if is_conditional condition
  then _emit now (ConditionalBranchAdded pred succ (cb_predicate condition) (cb_objective_ref condition))
  else _emit now (DependencyAdded pred succ (cb_predicate condition)).

(** [validate], for the errors a validator reports. *)
Definition validate (t : TenantId) (validator : TaskGraph -> list ValidationError)
    (now : datetime) : M unit :=
  _assert_tenant t;;
  g ← self;
  raise_if (bool_decide (tasks g = [])) (InvalidArgument "tasks" "graph must have at least one task");;
  raise_if (bool_decide (state g ∉ [DRAFT; VALIDATED]))
    (InvalidStateTransition (state g) VALIDATED (graph_id g));;
  raise_if (bool_decide (validator g ≠ [])) (TaskGraphValidationFailed (graph_id g) (validator g));;
  modify (fun g => g <| state := VALIDATED |>);;
  _mutate now;;
  g ← self;
  _emit now (TaskGraphValidated (length (tasks g)) (length (dependencies g))).

Definition sign (t : TenantId) (by_ sig : string) (now : datetime) : M unit :=
  _assert_tenant t;;
  g ← self;
  raise_if (bool_decide (state g ≠ VALIDATED)) (InvalidStateTransition (state g) SIGNED (graph_id g));;
  raise_if (blank by_) (InvalidArgument "signed_by" "must not be empty");;
  raise_if (blank sig) (InvalidArgument "signature" "must not be empty");;
  modify (fun g => g <| signed_by := Some (strip by_) |>);;
  modify (fun g => g <| signed_at := Some now |>);;
  modify (fun g => g <| signature := Some (strip sig) |>);;
  _transition SIGNED;;
  _mutate now;;
  g ← self;
  _emit now (TaskGraphSigned (strip by_) (str_version (version g))).

Definition activate (t : TenantId) (now : datetime) : M unit :=
  _assert_tenant t;;
  _transition ACTIVE;;
  _mutate now;;
  _emit now TaskGraphActivated.

Definition deprecate (t : TenantId) (now : datetime) : M unit :=
  _assert_tenant t;;
  _transition DEPRECATED;;
  _mutate now;;
  _emit now TaskGraphDeprecated.

(** ** Histories

    A client of the aggregate is a sequence of calls; a call that raises leaves
    the aggregate to the next one. *)

Inductive call :=
  | CAddTask (t : TenantId) (task : CampaignTask) (now : datetime)
  | CRemoveTask (t : TenantId) (id : CampaignTaskId) (now : datetime)
  | CAddDependency (t : TenantId) (pred succ : CampaignTaskId)
      (condition : ConditionalBranchConfig) (now : datetime)
  | CValidate (t : TenantId) (now : datetime)
  | CSign (t : TenantId) (by_ sig : string) (now : datetime)
  | CActivate (t : TenantId) (now : datetime)
  | CDeprecate (t : TenantId) (now : datetime)
  | CPopEvents.

(** [TaskGraphValidator().validate]; the fuel never runs out on the graphs the
    aggregate builds. *)
Definition TaskGraphValidator_validate (g : TaskGraph) : list ValidationError :=
  match validator_validate g with
  | Some errs => errs
  | None => [CycleDetected []]
  end.

Definition run_call (c : call) : M unit :=
  match c with
  | CAddTask t task now => add_task t task now
  | CRemoveTask t id now => remove_task t id now
  | CAddDependency t p s c now => add_dependency t p s c now
  | CValidate t now => validate t TaskGraphValidator_validate now
  | CSign t b s now => sign t b s now
  | CActivate t now => activate t now
  | CDeprecate t now => deprecate t now
  | CPopEvents => pop_events;; mret tt
  end.

Definition run_calls (cs : list call) (g : TaskGraph) : TaskGraph :=
  foldl (fun g c => (run_call c g).2) g cs.

(** A graph some sequence of calls leads to from its creation. *)
Definition reachable (g : TaskGraph) : Prop :=
  ∃ id tn n d w now g0 cs, create id tn n d w now = Ok g0 ∧ g = run_calls cs g0.

(** ** Specification *)

Record wf (g : TaskGraph) : Prop := {
  wf_ids : unique_ids g;
  wf_deps : ∀ d, d ∈ dependencies g →
    predecessor_id d ∈ task_ids g ∧ successor_id d ∈ task_ids g ∧ predecessor_id d ≠ successor_id d;
  wf_window : 0 < engagement_window_seconds g;
  wf_version : 1 ≤ row_version g;
  wf_signature : (state g ∈ _IMMUTABLE_STATES ↔ is_Some (signature g)) ∧
                 (is_Some (signature g) ↔ is_Some (signed_by g)) ∧
                 (is_Some (signature g) ↔ is_Some (signed_at g))
}.

(** What a signature covers. *)
Definition signed_content (g : TaskGraph) :=
  (graph_id g, tenant_id g, name g, description g, version g, tasks g, dependencies g,
   engagement_window_seconds g, signed_by g, signed_at g, signature g).

(** The order of the lifecycle after signing. *)
Definition rank (s : TaskGraphState.t) : nat :=
  match s with DRAFT => 0 | VALIDATED => 0 | SIGNED => 1 | ACTIVE => 2 | DEPRECATED => 3 end.

(** Calls that can change the tasks or the dependencies. *)
Definition edits_topology (c : call) : bool :=
  match c with
  | CAddTask _ _ _ | CRemoveTask _ _ _ | CAddDependency _ _ _ _ _ => true
  | _ => false
  end.

(** ** Concrete histories *)

Definition acme : TenantId := mkEntityId 1.

Definition op_task (id : CampaignTaskId) : CampaignTask :=
  simple_task id TaskType.OPERATION_TASK TaskCriticality.REQUIRED 10.

(** Two tasks in sequence, validated, signed and activated. *)
Definition plain_history : list call :=
  [CAddTask acme (op_task 1) 1; CAddTask acme (op_task 2) 2;
   CAddDependency acme 1 2 success_branch 3; CValidate acme 4;
   CSign acme "alice" "sig" 5; CActivate acme 6].

(** The same, with a dependency back from 2 to 1 added after validation. *)
Definition late_edit_history : list call :=
  [CAddTask acme (op_task 1) 1; CAddTask acme (op_task 2) 2;
   CAddDependency acme 1 2 success_branch 3; CValidate acme 4;
   CAddDependency acme 2 1 success_branch 5;
   CSign acme "alice" "sig" 6; CActivate acme 7].

Definition start_graph : TaskGraph :=
  match create 7 acme " graph " "" 100 0 with Ok g => g | Err _ => diamond end.

(** ** Lemmas *)

Ltac unfold_ops :=
  unfold pop_events, add_task, remove_task, add_dependency, validate, sign, activate,
    deprecate, _assert_tenant, _assert_topology_mutable, _transition, _mutate, _emit.

(** Decides what the guards on the lifecycle state say, state by state. *)
Ltac solve_lifecycle :=
  repeat match goal with
  | H : _ ∧ _ |- _ => clear H
  | H : _ ↔ _ |- _ => clear H
  end;
  repeat match goal with H : context [state ?g] |- _ => revert H end;
  destruct (state _); by_compute.

Lemma task_ids_remove_first id l :
  sublist (map task_id (remove_first id l)) (map task_id l).
Proof.
  induction l as [|x l IH]; simpl; [constructor|]. case_decide; simpl; by constructor.
Qed.

Lemma elem_of_remove_first id l x :
  x ∈ map task_id l → x ≠ id → x ∈ map task_id (remove_first id l).
Proof.
  induction l as [|y l IH]; simpl; [done|]. rewrite elem_of_cons.
  case_decide as Hy; simpl; [|rewrite elem_of_cons]; naive_solver.
Qed.

Lemma run_call_atomic c : atomic (run_call c).
Proof.
  intros g. destruct c; simpl; unfold_ops; wp_run; simplify_eq/=; try done.
  all: exfalso; guards; solve_lifecycle.
Qed.

(** Runs a method from a well-formed graph and leaves the clauses of [wf] that
    the bookkeeping updates do not discharge. *)
Ltac wf_run :=
  intros g [Hids Hdeps Hwin Hv Hsig]; unfold_ops; wp_run; guards; try done;
  split; simpl; try first [done | lia].

Lemma add_task_wf t task now : keeps wf (add_task t task now).
Proof.
  wf_run.
  - unfold unique_ids, task_ids. simpl. rewrite map_app. apply NoDup_app.
    split_and!; [done| |apply NoDup_singleton]. by intros x Hx ->%list_elem_of_singleton.
  - intros d Hd. destruct (Hdeps d Hd) as (? & ? & ?).
    unfold task_ids. simpl. rewrite map_app, !elem_of_app. auto.
Qed.

Lemma remove_task_wf t id now : keeps wf (remove_task t id now).
Proof.
  wf_run.
  - eapply sublist_NoDup; [apply Hids|apply task_ids_remove_first].
  - intros d [[? ?] Hd]%list_elem_of_filter. destruct (Hdeps d Hd) as (? & ? & ?).
    split_and!; try done; by apply elem_of_remove_first.
Qed.

Lemma add_dependency_wf t p s c now : keeps wf (add_dependency t p s c now).
Proof.
  wf_run.
  all: intros d [Hd|Hd]%elem_of_app; [by apply Hdeps|].
  all: apply list_elem_of_singleton in Hd as ->; simpl.
  all: split_and!; [by apply dec_stable..|done].
Qed.

Lemma validate_wf t v now : keeps wf (validate t v now).
Proof.
  wf_run. destruct Hsig as (Hs & ? & ?). split_and!; [|done..]. rewrite <- Hs. solve_lifecycle.
Qed.

Lemma sign_wf t by_ sig now : keeps wf (sign t by_ sig now).
Proof.
  wf_run; [solve_lifecycle|]. split_and!; [|done..]. split; [done|intros _; by_compute].
Qed.

Lemma activate_wf t now : keeps wf (activate t now).
Proof.
  wf_run. destruct Hsig as (Hs & ? & ?). split_and!; [|done..]. rewrite <- Hs. solve_lifecycle.
Qed.

Lemma deprecate_wf t now : keeps wf (deprecate t now).
Proof.
  wf_run. destruct Hsig as (Hs & ? & ?). split_and!; [|done..]. rewrite <- Hs. solve_lifecycle.
Qed.

Lemma pop_events_wf : keeps wf pop_events.
Proof. wf_run. Qed.

Lemma run_call_wf c : keeps wf (run_call c).
Proof.
  destruct c; simpl; [apply add_task_wf|apply remove_task_wf|apply add_dependency_wf
    |apply validate_wf|apply sign_wf|apply activate_wf|apply deprecate_wf|].
  intros g Hg. wp_step. eapply wp_mono; [by apply pop_events_wf|by intros|by intros].
Qed.

Lemma run_calls_wf cs g : wf g → wf (run_calls cs g).
Proof.
  revert g. induction cs as [|c cs IH]; intros g Hg; simpl; [done|].
  apply IH, (keeps_state wf _ _ (run_call_wf c) Hg).
Qed.

Lemma create_wf id tn n d w now g : create id tn n d w now = Ok g → wf g.
Proof.
  unfold create. case_match; [done|]. case_match; [done|]. intros [= <-].
  split; simpl; try done; [constructor|by intros ? []%not_elem_of_nil|lia|].
  split_and!; split; intros Hx; try (by destruct Hx); exfalso; revert Hx; by_compute.
Qed.

Lemma reachable_wf g : reachable g → wf g.
Proof. intros (? & ? & ? & ? & ? & ? & g0 & cs & ? & ->). by eapply run_calls_wf, create_wf. Qed.

Lemma start_reachable cs : reachable (run_calls cs start_graph).
Proof. exists 7, acme, " graph ", "", 100, 0, start_graph, cs. split; [vm_compute; reflexivity|reflexivity]. Qed.

Lemma run_calls_app cs1 cs2 g : run_calls (cs1 ++ cs2) g = run_calls cs2 (run_calls cs1 g).
Proof. apply foldl_app. Qed.

(** One call from a signed graph. *)
Lemma run_call_signed c g : state g ∈ _IMMUTABLE_STATES →
  let g' := (run_call c g).2 in
  signed_content g' = signed_content g ∧ (rank (state g) ≤ rank (state g'))%nat ∧
  state g' ∈ _IMMUTABLE_STATES.
Proof.
  intros Hs. cut (wp (run_call c)
    (fun _ g' => signed_content g' = signed_content g ∧ (rank (state g) ≤ rank (state g'))%nat ∧
                 state g' ∈ _IMMUTABLE_STATES)
    (fun _ g' => signed_content g' = signed_content g ∧ (rank (state g) ≤ rank (state g'))%nat ∧
                 state g' ∈ _IMMUTABLE_STATES) g).
  { unfold wp. by destruct (run_call c g) as [[]]. }
  destruct c; simpl; unfold_ops; wp_run; guards; try done; unfold signed_content; simpl.
  all: first [exfalso; solve_lifecycle | split_and!; [done|solve_lifecycle..]].
Qed.

(** A call that does not edit keeps the content the validator reads. *)
Lemma run_call_no_edit c g : edits_topology c = false →
  let g' := (run_call c g).2 in
  tasks g' = tasks g ∧ dependencies g' = dependencies g ∧
  engagement_window_seconds g' = engagement_window_seconds g.
Proof.
  intros Hc. cut (wp (run_call c)
    (fun _ g' => tasks g' = tasks g ∧ dependencies g' = dependencies g ∧
                 engagement_window_seconds g' = engagement_window_seconds g)
    (fun _ g' => tasks g' = tasks g ∧ dependencies g' = dependencies g ∧
                 engagement_window_seconds g' = engagement_window_seconds g) g).
  { unfold wp. by destruct (run_call c g) as [[]]. }
  destruct c; try done; simpl; unfold_ops; wp_run; done.
Qed.

(** The validator reads the tasks, the dependencies and the window only. *)
Lemma valid_graph_ext g g' : tasks g' = tasks g → dependencies g' = dependencies g →
  engagement_window_seconds g' = engagement_window_seconds g → valid_graph g → valid_graph g'.
Proof.
  destruct g, g'; simpl; intros -> -> -> [H1 H2 H3 H4 H5 H6]. split.
  - exact H1.
  - exact H2.
  - exact H3.
  - exact H4.
  - exact H5.
  - exact H6.
Qed.

Lemma validate_ok t now g g' : wf g →
  validate t TaskGraphValidator_validate now g = (Ok tt, g') → valid_graph g'.
Proof.
  intros Hg. cut (wp (validate t TaskGraphValidator_validate now)
    (fun _ => valid_graph) (fun _ _ => True) g).
  { intros Hwp. by apply (wp_ok _ _ _ _ _ _ Hwp). }
  unfold_ops; wp_run; guards; try done.
  apply (valid_graph_ext g); [done..|].
  match goal with H : ¬ (TaskGraphValidator_validate g ≠ []) |- _ => apply dec_stable in H; rename H into Hv end.
  unfold TaskGraphValidator_validate in Hv.
  destruct (validate_complete g (wf_ids g Hg)) as (errs & Herrs & Hiff).
  rewrite Herrs in Hv. by apply Hiff.
Qed.

(** ** Properties *)

(** C14. Whatever calls a client makes, a task graph keeps unique task ids and
    dependencies between distinct existing tasks, a positive window, and a
    signature exactly in the states from SIGNED on. *)
Theorem reachable_graphs_well_formed g : reachable g → wf g.
Proof. intros (? & ? & ? & ? & ? & ? & g0 & cs & ? & ->). by eapply run_calls_wf, create_wf. Qed.

Lemma reachable_graphs_well_formed_witness :
  state (run_calls plain_history start_graph) = ACTIVE ∧ wf (run_calls plain_history start_graph).
Proof.
  split; [vm_compute; reflexivity|].
  apply (reachable_graphs_well_formed _ (start_reachable plain_history)).
Defined.

(** A signature is final: from a signed graph, no sequence of calls changes
    the tasks, the dependencies, the window, the names, or who signed when with
    what, and the lifecycle only moves forward. *)
Theorem signed_graph_immutable g cs : state g ∈ _IMMUTABLE_STATES →
  signed_content (run_calls cs g) = signed_content g ∧
  (rank (state g) ≤ rank (state (run_calls cs g)))%nat.
Proof.
  revert g. induction cs as [|c cs IH]; intros g Hg; simpl; [done|].
  destruct (run_call_signed c g Hg) as (Hc & Hr & Hs). destruct (IH _ Hs) as [-> ?].
  split; [done|lia].
Qed.

Lemma signed_graph_immutable_witness :
  state (run_calls plain_history start_graph) ∈ _IMMUTABLE_STATES ∧
  signed_content (run_calls [CAddTask acme (op_task 9) 10; CDeprecate acme 11]
                    (run_calls plain_history start_graph)) =
  signed_content (run_calls plain_history start_graph).
Proof.
  assert (state (run_calls plain_history start_graph) ∈ _IMMUTABLE_STATES) as H by by_compute.
  split; [done|]. apply (signed_graph_immutable _ _ H).
Defined.

(** A call that raises leaves the task graph as it was, for every operation
    and every exception. *)
Theorem failed_calls_change_nothing c g e g' : run_call c g = (Err e, g') → g' = g.
Proof. apply atomic_state, run_call_atomic. Qed.

Lemma failed_calls_change_nothing_witness :
  let g := run_calls plain_history start_graph in
  run_call (CAddTask acme (op_task 9) 10) g = (Err (SignedGraphImmutabilityViolation 7), g) ∧ g = g.
Proof.
  cbv zeta. assert (run_call (CAddTask acme (op_task 9) 10) (run_calls plain_history start_graph) =
    (Err (SignedGraphImmutabilityViolation 7), run_calls plain_history start_graph)) as H
    by (vm_compute; reflexivity).
  split; [exact H|]. apply (failed_calls_change_nothing _ _ _ _ H).
Defined.

(** When [validate] succeeds on a well-formed graph, the graph satisfies the
    validity specification, and it still does after any calls that do not edit
    the tasks or the dependencies, in particular when it is signed and active. *)
Theorem validated_graph_stays_valid t now g g' cs : wf g →
  run_call (CValidate t now) g = (Ok tt, g') →
  Forall (fun c => edits_topology c = false) cs →
  valid_graph (run_calls cs g').
Proof.
  intros Hg Hv Hcs. assert (valid_graph g') as Hval by by eapply validate_ok.
  clear Hv. revert g' Hval. induction Hcs as [|c cs Hc _ IH]; intros g' Hval; simpl; [done|].
  apply IH. destruct (run_call_no_edit c g' Hc) as (? & ? & ?). by eapply valid_graph_ext.
Qed.

Lemma validated_graph_stays_valid_witness :
  let g := run_calls (take 3 plain_history) start_graph in
  state (run_calls plain_history start_graph) = ACTIVE ∧
  valid_graph (run_calls [CSign acme "alice" "sig" 5; CActivate acme 6] (run_call (CValidate acme 4) g).2).
Proof.
  cbv zeta. split; [vm_compute; reflexivity|].
  refine (validated_graph_stays_valid acme 4 (run_calls (take 3 plain_history) start_graph) _ _
    (reachable_wf _ (start_reachable _)) _ _); [vm_compute; reflexivity|by repeat constructor].
Defined.

(** Editing after validation escapes the check: a graph can be edited in the
    VALIDATED state and signed without another validation, so some reachable
    ACTIVE graph has a cyclic dependency relation. *)
Theorem active_graph_may_be_cyclic :
  ∃ g, reachable g ∧ state g = ACTIVE ∧ ¬ acyclic (graph_edges g).
Proof.
  exists (run_calls late_edit_history start_graph). split; [apply start_reachable|].
  split; [vm_compute; reflexivity|]. intros Hac. apply (Hac 1).
  apply (tc_l _ 1 2); [|apply tc_once]; unfold edge; by_compute.
Qed.
