(* ===== verification/TaskGraphStore.v ===== *)
(** Persistence of task graphs: the JSON columns, the three tables, the
    repository with its optimistic locking, and the round trip of a graph. *)
From stdpp Require Import base tactics list strings.
From Stdlib Require Import ZArith Lia.
From S2P Require Import Prelude PyTypes PyJson PyStore Kahn TaskGraphData TaskGraphServices TaskGraph.

Local Open Scope Z_scope.

(** ** JSON columns

    A codec raises ([KeyError], [ValueError]) as [None]. *)

Definition _operation_template_to_json (tmpl : option TaskOperationTemplate) : Json :=
  match tmpl with
  | None => JNull
  | Some t => JObj [("technique_id", JStr (ot_technique_id t)); ("technique_name", JStr (ot_technique_name t));
                    ("parameters", json_dict (ot_parameters t)); ("timeout_seconds", JInt (ot_timeout_seconds t))]
  end.

Definition _operation_template_from_json (data : Json) : option (option TaskOperationTemplate) :=
  match data with
  | JNull => Some None
  | JObj d =>
      id ← dget d "technique_id" ≫= py_str;
      nm ← py_str (dget_default d "technique_name" (JStr ""));
      params ← to_str_dict (dget_default d "parameters" JNull);
      timeout ← dget d "timeout_seconds" ≫= py_int;
      t ← TaskOperationTemplate_new id nm params timeout;
      Some (Some t)
  | _ => None
  end.

Definition _human_approval_to_json (cfg : option HumanApprovalTaskConfig) : Json :=
  match cfg with
  | None => JNull
  | Some c => JObj [("gate_timeout_seconds", JInt (ha_gate_timeout_seconds c));
                    ("required_approver_role", JStr (ha_required_approver_role c));
                    ("default_on_timeout", JStr (ha_default_on_timeout c));
                    ("timeout_justification", opt_str (ha_timeout_justification c))]
  end.

Definition _human_approval_from_json (data : Json) : option (option HumanApprovalTaskConfig) :=
  match data with
  | JNull => Some None
  | JObj d =>
      timeout ← dget d "gate_timeout_seconds" ≫= py_int;
      role ← dget d "required_approver_role" ≫= py_str;
      on_timeout ← py_str (dget_default d "default_on_timeout" (JStr "abort"));
      why ← to_opt_str (dget_default d "timeout_justification" JNull);
      c ← HumanApprovalTaskConfig_new timeout role on_timeout why;
      Some (Some c)
  | _ => None
  end.

Definition _barrier_policy_to_json (policy : option BarrierPolicy) : Json :=
  match policy with
  | None => JNull
  | Some p => JObj [("task_group_id", JStr (bp_task_group_id p))]
  end.

Definition _barrier_policy_from_json (data : Json) : option (option BarrierPolicy) :=
  match data with
  | JNull => Some None
  | JObj d => group ← dget d "task_group_id" ≫= py_str; p ← BarrierPolicy_new group; Some (Some p)
  | _ => None
  end.

Definition _rollback_config_to_json (cfg : option RollbackConfiguration) : Json :=
  match cfg with
  | None => JNull
  | Some c => JObj [("rollback_technique_id", JStr (rc_technique_id c));
                    ("rollback_parameters", json_dict (rc_parameters c));
                    ("rollback_not_possible", JBool (rc_not_possible c));
                    ("rollback_not_possible_reason", opt_str (rc_not_possible_reason c))]
  end.

Definition _rollback_config_from_json (data : Json) : option (option RollbackConfiguration) :=
  match data with
  | JNull => Some None
  | JObj d =>
      id ← dget d "rollback_technique_id" ≫= py_str;
      params ← to_str_dict (dget_default d "rollback_parameters" JNull);
      why ← to_opt_str (dget_default d "rollback_not_possible_reason" JNull);
      Some (Some (mkRollbackConfiguration id params
                    (py_truthy (dget_default d "rollback_not_possible" (JBool false))) why))
  | _ => None
  end.

(** ** Tables *)

Definition all_states : list TaskGraphState.t :=
  [TaskGraphState.DRAFT; TaskGraphState.VALIDATED; TaskGraphState.SIGNED; TaskGraphState.ACTIVE;
   TaskGraphState.DEPRECATED].
Definition all_types : list TaskType.t :=
  [TaskType.OPERATION_TASK; TaskType.WAIT_TASK; TaskType.HUMAN_APPROVAL_TASK; TaskType.EVALUATION_CHECKPOINT;
   TaskType.ROLLBACK_TASK; TaskType.BARRIER_TASK].
Definition all_criticalities : list TaskCriticality.t :=
  [TaskCriticality.OPTIONAL; TaskCriticality.REQUIRED; TaskCriticality.CRITICAL_PATH].
Definition all_predicates : list DependencyPredicate.t :=
  [DependencyPredicate.ALWAYS_EXECUTE; DependencyPredicate.EXECUTE_ON_SUCCESS;
   DependencyPredicate.EXECUTE_ON_FAILURE; DependencyPredicate.EXECUTE_IF_OBJECTIVE_MET;
   DependencyPredicate.EXECUTE_IF_OBJECTIVE_FAILED; DependencyPredicate.EXECUTE_IF_DETECTION_FIRED;
   DependencyPredicate.EXECUTE_IF_DETECTION_SILENT].

(** [CampaignTaskModel] *)
Record TaskRow := mkTaskRow {
  tr_id : uuid; tr_graph_id : uuid; tr_tenant_id : TenantId; tr_task_type : string; tr_name : string;
  tr_criticality : string; tr_timeout_seconds : Z; tr_operation_template_json : Json;
  tr_human_approval_config_json : Json; tr_barrier_policy_json : Json; tr_rollback_config_json : Json;
  tr_task_group_id : option string; tr_rollback_task_ref_id : option uuid }.

(** [TaskDependencyModel]; nothing reads the row's own id. *)
Record DepRow := mkDepRow {
  dr_graph_id : uuid; dr_predecessor_id : uuid; dr_successor_id : uuid; dr_predicate : string;
  dr_objective_ref : option string }.

(** [TaskGraphModel] *)
Record GraphRow := mkGraphRow {
  gr_id : uuid; gr_tenant_id : TenantId; gr_name : string; gr_description : string; gr_state : string;
  gr_version_major : Z; gr_version_minor : Z; gr_version_patch : Z; gr_engagement_window_seconds : Z;
  gr_signed_by : option string; gr_signed_at : option datetime; gr_signature : option string;
  gr_created_at : datetime; gr_updated_at : datetime; gr_row_version : Z }.

Record TgDb := mkTgDb { tb_graphs : list GraphRow; tb_tasks : list TaskRow; tb_deps : list DepRow }.
#[export] Instance TgDb_settable : Settable TgDb := fun d => mkTgDb (tb_graphs d) (tb_tasks d) (tb_deps d).

Definition empty_tg_db : TgDb := mkTgDb [] [] [].

(** ** Row mappings *)

Definition task_to_row (graph : uuid) (t : TenantId) (k : CampaignTask) : TaskRow :=
  mkTaskRow (task_id k) graph t (TaskType.value (task_type k)) (task_name k)
    (TaskCriticality.value (criticality k)) (timeout_seconds k)
    (_operation_template_to_json (operation_template k)) (_human_approval_to_json (human_approval_config k))
    (_barrier_policy_to_json (barrier_policy k)) (_rollback_config_to_json (rollback_config k))
    (task_group_id k) (rollback_task_ref k).

Definition dep_to_row (graph : uuid) (d : TaskDependency) : DepRow :=
  mkDepRow graph (predecessor_id d) (successor_id d) (DependencyPredicate.value (cb_predicate (condition d)))
    (cb_objective_ref (condition d)).

Definition graph_to_row (g : TaskGraph) (created : datetime) : GraphRow :=
  mkGraphRow (graph_id g) (tenant_id g) (name g) (description g) (TaskGraphState.value (state g))
    (major (version g)) (minor (version g)) (patch (version g)) (engagement_window_seconds g)
    (signed_by g) (signed_at g) (signature g) created (updated_at g) (row_version g).

Definition task_from_row (r : TaskRow) : option CampaignTask :=
  ty ← of_text TaskType.value all_types (tr_task_type r);
  cr ← of_text TaskCriticality.value all_criticalities (tr_criticality r);
  tmpl ← _operation_template_from_json (tr_operation_template_json r);
  human ← _human_approval_from_json (tr_human_approval_config_json r);
  barrier ← _barrier_policy_from_json (tr_barrier_policy_json r);
  rollback ← _rollback_config_from_json (tr_rollback_config_json r);
  group ← match tr_task_group_id r with
          | Some s => if empty_str s then Some None else Some <$> TaskGroupId_new s
          | None => Some None
          end;
  if (tr_id r =? 0) || bool_decide (tr_rollback_task_ref_id r = Some 0) then None
  else
  Some (mkTask (tr_id r) ty (tr_name r) cr (tr_timeout_seconds r) tmpl human barrier rollback group
          (tr_rollback_task_ref_id r)).

Definition dep_from_row (r : DepRow) : option TaskDependency :=
  p ← of_text DependencyPredicate.value all_predicates (dr_predicate r);
  c ← ConditionalBranchConfig_new p (dr_objective_ref r);
  if (dr_predecessor_id r =? 0) || (dr_successor_id r =? 0) then None
  else Some (mkDependency (dr_predecessor_id r) (dr_successor_id r) c).

(** *** What the constructors accept *)

Definition ok_task (k : CampaignTask) : Prop :=
  task_id k ≠ 0 ∧ rollback_task_ref k ≠ Some 0 ∧
  (∀ t, operation_template k = Some t →
     TaskOperationTemplate_new (ot_technique_id t) (ot_technique_name t) (ot_parameters t) (ot_timeout_seconds t) =
       Some t) ∧
  (∀ c, human_approval_config k = Some c →
     HumanApprovalTaskConfig_new (ha_gate_timeout_seconds c) (ha_required_approver_role c)
       (ha_default_on_timeout c) (ha_timeout_justification c) = Some c) ∧
  (∀ p, barrier_policy k = Some p → BarrierPolicy_new (bp_task_group_id p) = Some p) ∧
  (∀ s, task_group_id k = Some s → TaskGroupId_new s = Some s).

Definition ok_dep (d : TaskDependency) : Prop :=
  predecessor_id d ≠ 0 ∧ successor_id d ≠ 0 ∧
  ConditionalBranchConfig_new (cb_predicate (condition d)) (cb_objective_ref (condition d)) = Some (condition d).

(** A graph whose parts the constructors accept. *)
Record ok_graph (g : TaskGraph) : Prop := {
  og_id : graph_id g ≠ 0;
  og_version : TaskGraphVersion_new (major (version g)) (minor (version g)) (patch (version g)) = Some (version g);
  og_tasks : ∀ k, k ∈ tasks g → ok_task k;
  og_deps : ∀ d, d ∈ dependencies g → ok_dep d
}.

(** The same graph as far as the tables tell: tasks and dependencies in any
    order, and no pending events. *)
Record same_graph (a b : TaskGraph) : Prop := {
  sg_fields : (graph_id a, tenant_id a, name a, description a, state a, version a, engagement_window_seconds a,
               (signed_by a, signed_at a, signature a, created_at a, updated_at a, row_version a)) =
              (graph_id b, tenant_id b, name b, description b, state b, version b, engagement_window_seconds b,
               (signed_by b, signed_at b, signature b, created_at b, updated_at b, row_version b));
  sg_tasks : tasks a ≡ₚ tasks b;
  sg_deps : dependencies a ≡ₚ dependencies b
}.

#[export] Instance same_graph_equivalence : Equivalence same_graph.
Proof.
  split.
  - intros g. by split.
  - intros a b [Hf Ht Hd]. by split.
  - intros a b c [Hf Ht Hd] [Hf' Ht' Hd']. split; [by rewrite Hf|by rewrite Ht|by rewrite Hd].
Qed.

Section Store.
Context `{!RowOrder}.

Definition task_rows (db : TgDb) (graph : uuid) : list TaskRow :=
  select_order (filter (fun r => tr_graph_id r = graph) (tb_tasks db)).
Definition dep_rows (db : TgDb) (graph : uuid) : list DepRow :=
  select_order (filter (fun r => dr_graph_id r = graph) (tb_deps db)).

(** [_to_domain] *)
Definition _to_domain (db : TgDb) (row : GraphRow) : option TaskGraph :=
  ts ← mapM task_from_row (task_rows db (gr_id row));
  ds ← mapM dep_from_row (dep_rows db (gr_id row));
  st ← of_text TaskGraphState.value all_states (gr_state row);
  v ← TaskGraphVersion_new (gr_version_major row) (gr_version_minor row) (gr_version_patch row);
  if gr_id row =? 0 then None
  else
  Some (mkTaskGraph (gr_id row) (gr_tenant_id row) (gr_name row) (gr_description row) st v ts ds
          (gr_engagement_window_seconds row) (gr_signed_by row) (gr_signed_at row) (gr_signature row)
          (gr_created_at row) (gr_updated_at row) (gr_row_version row) []).

(** ** PgTaskGraphRepository *)

Inductive StoreError :=
  | OptimisticLockConflict (graph : uuid) (expected actual : Z)
  | IntegrityError
  | CorruptRow.

Definition is_row (graph : uuid) (t : TenantId) (r : GraphRow) : bool :=
  bool_decide (gr_id r = graph) && bool_decide (gr_tenant_id r = t).

Definition find_row (db : TgDb) (graph : uuid) (t : TenantId) : option GraphRow :=
  find (is_row graph t) (tb_graphs db).

(** [_sync_children]: the rows of the graph are deleted and written again; a
    task id is the primary key of its table. *)
Definition _sync_children (g : TaskGraph) (db : TgDb) : result StoreError TgDb :=
  let others := filter (fun r => tr_graph_id r ≠ graph_id g) (tb_tasks db) in
  if bool_decide (NoDup (map tr_id others ++ task_ids g))
  then Ok (mkTgDb (tb_graphs db) (others ++ map (task_to_row (graph_id g) (tenant_id g)) (tasks g))
             (filter (fun r => dr_graph_id r ≠ graph_id g) (tb_deps db) ++
              map (dep_to_row (graph_id g)) (dependencies g)))
  else Err IntegrityError.

(** [save] *)
Definition save_graph (g : TaskGraph) (db : TgDb) : result StoreError TgDb :=
  match find_row db (graph_id g) (tenant_id g) with
  | None =>
      if bool_decide (graph_id g ∈ map gr_id (tb_graphs db)) then Err IntegrityError
      else _sync_children g (db <| tb_graphs ::= fun l => l ++ [graph_to_row g (created_at g)] |>)
  | Some row =>
      let expected := row_version g - 1 in
      let expected := if expected <? 1 then 1 else expected in
      if gr_row_version row =? expected
      then _sync_children g (db <| tb_graphs ::= map (fun r =>
             if is_row (graph_id g) (tenant_id g) r then graph_to_row g (gr_created_at r) else r) |>)
      else Err (OptimisticLockConflict (graph_id g) expected (gr_row_version row))
  end.

(** [find_by_id] *)
Definition find_by_id (graph : uuid) (t : TenantId) (db : TgDb) : result StoreError (option TaskGraph) :=
  match find_row db graph t with
  | None => Ok None
  | Some row => match _to_domain db row with
                | Some g => Ok (Some g)
                | None => Err CorruptRow
                end
  end.

(** [find_signed_version] *)
Definition find_signed_version (graph : uuid) (v : TaskGraphVersion) (t : TenantId) (db : TgDb)
    : result StoreError (option TaskGraph) :=
  match find (fun r => is_row graph t r && bool_decide (gr_version_major r = major v) &&
                       bool_decide (gr_version_minor r = minor v) && bool_decide (gr_version_patch r = patch v) &&
                       bool_decide (gr_state r ∈ map TaskGraphState.value _IMMUTABLE_STATES)) (tb_graphs db) with
  | None => Ok None
  | Some row => match _to_domain db row with
                | Some g => Ok (Some g)
                | None => Err CorruptRow
                end
  end.

(** [find_active_by_tenant] *)
Definition find_active_by_tenant (t : TenantId) (db : TgDb) : result StoreError (list TaskGraph) :=
  match mapM (_to_domain db) (select_order (filter (fun r => gr_tenant_id r = t ∧
               gr_state r = TaskGraphState.value TaskGraphState.ACTIVE) (tb_graphs db))) with
  | Some gs => Ok gs
  | None => Err CorruptRow
  end.
End Store.

(** *** What the tables hold *)

(** The primary keys. *)
Record tg_keys (db : TgDb) : Prop := {
  tk_graphs : NoDup (map gr_id (tb_graphs db));
  tk_tasks : NoDup (map tr_id (tb_tasks db))
}.

(** The rows of a graph. *)
Record holds (db : TgDb) (g : TaskGraph) : Prop := {
  hd_row : graph_to_row g (created_at g) ∈ tb_graphs db;
  hd_tasks : filter (fun r => tr_graph_id r = graph_id g) (tb_tasks db) ≡ₚ
             map (task_to_row (graph_id g) (tenant_id g)) (tasks g);
  hd_deps : filter (fun r => dr_graph_id r = graph_id g) (tb_deps db) ≡ₚ
            map (dep_to_row (graph_id g)) (dependencies g)
}.

(** ** Lemmas *)

Lemma of_text_state x : of_text TaskGraphState.value all_states (TaskGraphState.value x) = Some x.
Proof. by destruct x; vm_compute. Qed.
Lemma of_text_type x : of_text TaskType.value all_types (TaskType.value x) = Some x.
Proof. by destruct x; vm_compute. Qed.
Lemma of_text_criticality x : of_text TaskCriticality.value all_criticalities (TaskCriticality.value x) = Some x.
Proof. by destruct x; vm_compute. Qed.
Lemma of_text_predicate x : of_text DependencyPredicate.value all_predicates (DependencyPredicate.value x) = Some x.
Proof. by destruct x; vm_compute. Qed.

(** What a codec writes it reads back. *)
Lemma template_round t : (∀ x, t = Some x →
    TaskOperationTemplate_new (ot_technique_id x) (ot_technique_name x) (ot_parameters x) (ot_timeout_seconds x) =
      Some x) →
  _operation_template_from_json (_operation_template_to_json t) = Some t.
Proof.
  destruct t as [x|]; [|done]. intros Hx. specialize (Hx x eq_refl).
  unfold _operation_template_from_json, _operation_template_to_json. json_fields.
  rewrite str_dict_round. simpl. by rewrite Hx.
Qed.

Lemma human_round c : (∀ x, c = Some x →
    HumanApprovalTaskConfig_new (ha_gate_timeout_seconds x) (ha_required_approver_role x)
      (ha_default_on_timeout x) (ha_timeout_justification x) = Some x) →
  _human_approval_from_json (_human_approval_to_json c) = Some c.
Proof.
  destruct c as [x|]; [|done]. intros Hx. specialize (Hx x eq_refl).
  unfold _human_approval_from_json, _human_approval_to_json. json_fields.
  rewrite opt_str_round. simpl. by rewrite Hx.
Qed.

Lemma barrier_round p : (∀ x, p = Some x → BarrierPolicy_new (bp_task_group_id x) = Some x) →
  _barrier_policy_from_json (_barrier_policy_to_json p) = Some p.
Proof.
  destruct p as [x|]; [|done]. intros Hx. specialize (Hx x eq_refl).
  unfold _barrier_policy_from_json, _barrier_policy_to_json. json_fields. by rewrite Hx.
Qed.

Lemma rollback_round c : _rollback_config_from_json (_rollback_config_to_json c) = Some c.
Proof.
  destruct c as [[id params np why]|]; [|done].
  unfold _rollback_config_from_json, _rollback_config_to_json. json_fields. simpl.
  rewrite str_dict_round. simpl. by rewrite opt_str_round.
Qed.

Lemma task_round graph t k : ok_task k → task_from_row (task_to_row graph t k) = Some k.
Proof.
  intros (Hid & Hrb & Ht & Hh & Hb & Hg). unfold task_from_row, task_to_row. simpl.
  rewrite of_text_type. simpl. rewrite of_text_criticality. simpl.
  rewrite template_round by done. simpl. rewrite human_round by done. simpl.
  rewrite barrier_round by done. simpl. rewrite rollback_round. simpl.
  assert (match task_group_id k with
          | Some s => if empty_str s then Some None else Some <$> TaskGroupId_new s
          | None => Some None
          end = Some (task_group_id k)) as ->.
  { destruct (task_group_id k) as [s|]; [|done]. specialize (Hg s eq_refl). unfold empty_str.
    case_bool_decide; [by subst|]. by rewrite Hg. }
  simpl. rewrite (proj2 (Z.eqb_neq _ _) Hid), bool_decide_eq_false_2 by done. by destruct k.
Qed.

Lemma dep_round graph d : ok_dep d → dep_from_row (dep_to_row graph d) = Some d.
Proof.
  intros (Hp & Hs & Hc). unfold dep_from_row, dep_to_row. simpl. rewrite of_text_predicate. simpl.
  rewrite Hc. simpl. rewrite (proj2 (Z.eqb_neq _ _) Hp), (proj2 (Z.eqb_neq _ _) Hs). by destruct d.
Qed.

Section StoreLemmas.
Context `{!RowOrder}.

Lemma find_row_unique db g row : tg_keys db → row ∈ tb_graphs db → gr_id row = g →
  find_row db g (gr_tenant_id row) = Some row.
Proof.
  intros [Hnd _] Hin <-. unfold find_row. induction (tb_graphs db) as [|x l IH]; [by apply not_elem_of_nil in Hin|].
  apply NoDup_cons in Hnd as [Hx Hnd]. simpl. unfold is_row at 1.
  apply elem_of_cons in Hin as [->|Hin]; [by rewrite !bool_decide_eq_true_2|].
  rewrite bool_decide_eq_false_2; [by apply IH|]. intros Heq. apply Hx. rewrite Heq.
  by apply list_elem_of_fmap_2.
Qed.

Lemma find_row_some db g t row : find_row db g t = Some row →
  row ∈ tb_graphs db ∧ gr_id row = g ∧ gr_tenant_id row = t.
Proof.
  unfold find_row, is_row. intros [Hin Hb]%find_some. apply list_elem_of_In in Hin. guards. done.
Qed.

(** A stored graph is found, up to the order of its rows. *)
Lemma holds_find db g : tg_keys db → holds db g → ok_graph g →
  ∃ g', find_by_id (graph_id g) (tenant_id g) db = Ok (Some g') ∧ same_graph g' g ∧ pending_events g' = [].
Proof.
  intros Hk [Hrow Ht Hd] [Hid Hv Hts Hds]. unfold find_by_id.
  pose proof (find_row_unique db (graph_id g) _ Hk Hrow eq_refl) as Hf. simpl in Hf. rewrite Hf.
  unfold _to_domain, task_rows, dep_rows. simpl.
  destruct (mapM_perm (task_to_row (graph_id g) (tenant_id g)) task_from_row (tasks g)
    (select_order (filter (fun r => tr_graph_id r = graph_id g) (tb_tasks db)))) as (ts & -> & Hpt).
  { intros k Hin. by apply task_round, Hts. }
  { by rewrite select_order_perm. }
  simpl. destruct (mapM_perm (dep_to_row (graph_id g)) dep_from_row (dependencies g)
    (select_order (filter (fun r => dr_graph_id r = graph_id g) (tb_deps db)))) as (ds & -> & Hpd).
  { intros d Hin. by apply dep_round, Hds. }
  { by rewrite select_order_perm. }
  simpl. rewrite of_text_state. simpl. rewrite Hv. simpl. rewrite (proj2 (Z.eqb_neq _ _) Hid).
  eexists. split; [done|]. split; [|done]. by split.
Qed.

Lemma sync_children_spec g db db' : _sync_children g db = Ok db' →
  tb_graphs db' = tb_graphs db ∧ NoDup (map tr_id (tb_tasks db')) ∧
  (graph_to_row g (created_at g) ∈ tb_graphs db → holds db' g) ∧
  ∀ g', graph_id g' ≠ graph_id g → graph_to_row g' (created_at g') ∈ tb_graphs db →
    filter (fun r => tr_graph_id r = graph_id g') (tb_tasks db) ≡ₚ
      map (task_to_row (graph_id g') (tenant_id g')) (tasks g') →
    filter (fun r => dr_graph_id r = graph_id g') (tb_deps db) ≡ₚ
      map (dep_to_row (graph_id g')) (dependencies g') → holds db' g'.
Proof.
  unfold _sync_children. case_bool_decide as Hnd; [|done]. intros [= <-]. simpl.
  destruct (replaced_rows tr_graph_id (graph_id g) (tb_tasks db)
    (map (task_to_row (graph_id g) (tenant_id g)) (tasks g))) as [Hsame Hother].
  { by intros r (k & -> & _)%list_elem_of_fmap. }
  destruct (replaced_rows dr_graph_id (graph_id g) (tb_deps db)
    (map (dep_to_row (graph_id g)) (dependencies g))) as [Hsame' Hother'].
  { by intros r (k & -> & _)%list_elem_of_fmap. }
  split_and!; [done| | |].
  - rewrite map_app, map_map. exact Hnd.
  - intros Hrow. split; simpl; [done|by rewrite Hsame|by rewrite Hsame'].
  - intros g' Hne Hrow Ht Hd. split; simpl; [done|by rewrite Hother|by rewrite Hother'].
Qed.

(** What a save leaves in the tables. *)
Lemma save_holds g db db' : tg_keys db → save_graph g db = Ok db' →
  (∀ row, find_row db (graph_id g) (tenant_id g) = Some row → gr_created_at row = created_at g) →
  tg_keys db' ∧ holds db' g ∧
  (∀ g', graph_id g' ≠ graph_id g → holds db g' → holds db' g') ∧
  (∀ row, row ∈ tb_graphs db' → row = graph_to_row g (created_at g) ∨ row ∈ tb_graphs db ∧ gr_id row ≠ graph_id g).
Proof.
  intros Hk Hsave Hcreated.
  assert (∃ rows, _sync_children g (db <| tb_graphs := rows |>) = Ok db' ∧
    upserted gr_id (graph_id g) (graph_to_row g (created_at g)) (tb_graphs db) rows)
    as (rows & Hsync & [Hnd Hin Hkeep Hall]).
  { unfold save_graph in Hsave. destruct (find_row db (graph_id g) (tenant_id g)) as [row|] eqn:Hf.
    - destruct (gr_row_version row =? _); [|done]. specialize (Hcreated row eq_refl).
      apply find_row_some in Hf as (Hin & Hid & Hten). eexists. split; [exact Hsave|].
      rewrite <- Hcreated, <- Hid. apply (updated_row gr_id _ (fun r => graph_to_row g (gr_created_at r)));
        [apply Hk|done| | |done]; unfold is_row; [by rewrite Hten, !bool_decide_eq_true_2|].
      intros r Hr. by guards.
    - case_bool_decide as Hnew; [done|]. eexists. split; [exact Hsave|].
      apply (inserted_row gr_id (graph_to_row g (created_at g))); [apply Hk|done]. }
  apply sync_children_spec in Hsync as (Hgr & Htk & Hg' & Hothers). simpl in *.
  split_and!; [|by apply Hg'| |by rewrite Hgr]. { split; [by rewrite Hgr|done]. }
  intros g' Hne [Hr Hts Hds]. by apply Hothers, Hds; [|apply Hkeep|].
Qed.
End StoreLemmas.

(** ** Properties *)

#[local] Existing Instance insertion_order.

(** A graph that is saved is found again: under its id and tenant the
    repository answers the same graph, with the same tasks and dependencies up
    to order and no pending event, and every other graph that was stored still
    is. *)
Theorem saved_graph_is_found `{!RowOrder} g db db' : tg_keys db → ok_graph g →
  (∀ row, find_row db (graph_id g) (tenant_id g) = Some row → gr_created_at row = created_at g) →
  save_graph g db = Ok db' →
  (∃ g', find_by_id (graph_id g) (tenant_id g) db' = Ok (Some g') ∧ same_graph g' g ∧ pending_events g' = []) ∧
  ∀ o, graph_id o ≠ graph_id g → holds db o → holds db' o.
Proof.
  intros Hk Hok Hcr Hsave. destruct (save_holds g db db' Hk Hsave Hcr) as (Hk' & Hh & Hothers & _).
  split; [by apply holds_find|done].
Qed.

Lemma saved_graph_is_found_witness :
  ∃ db', save_graph start_graph empty_tg_db = Ok db' ∧
  (∃ g', find_by_id 7 acme db' = Ok (Some g') ∧ same_graph g' start_graph ∧ pending_events g' = []) ∧
  ∀ o, graph_id o ≠ 7 → holds empty_tg_db o → holds db' o.
Proof.
  destruct (save_graph start_graph empty_tg_db) as [db'|e] eqn:Hsave; [|by vm_compute in Hsave].
  exists db'. split; [done|].
  apply (saved_graph_is_found start_graph empty_tg_db db'); [by split; constructor| |done|exact Hsave].
  split; [done|done| |]; by intros ? []%not_elem_of_nil.
Defined.
