(* ===== verification/TaskGraphEquiv.v ===== *)
(** The order in which the tables give back tasks and dependencies does not
    matter: validity and the calls of the aggregate respect [same_graph]. *)
From stdpp Require Import base tactics list strings relations.
From Stdlib Require Import ZArith Lia.
From S2P Require Import Prelude PyTypes PyStore Kahn TaskGraphData TaskGraphServices TaskGraph TaskGraphStore.

Local Open Scope Z_scope.

(** The calls the service makes; it never removes a task. *)
Definition service_call (c : call) : bool :=
  match c with CRemoveTask _ _ _ | CPopEvents => false | _ => true end.

(** ** Lemmas *)

Lemma tc_same {A} (R R' : relation A) x y : (∀ a b, R a b → R' a b) → tc R x y → tc R' x y.
Proof. intros HR. apply (tc_congruence (λ z, z)). done. Qed.

Lemma walk_same {K} (E E' : list (K * K)) p : (∀ e, e ∈ E ↔ e ∈ E') → walk E p → walk E' p.
Proof.
  intros HE. induction p as [|u [|v p] IH]; simpl; [done..|]. intros [Hu Hp]. split; [by apply HE|by apply IH].
Qed.

Section Same.
Context (a b : TaskGraph) (Hsame : same_graph a b) (Ha : unique_ids a).

Lemma same_task_ids : task_ids a ≡ₚ task_ids b.
Proof. unfold task_ids. by rewrite (sg_tasks _ _ Hsame). Qed.

Lemma same_dep_edges : dep_edges a ≡ₚ dep_edges b.
Proof. unfold dep_edges. by rewrite (sg_deps _ _ Hsame). Qed.

Lemma same_unique : unique_ids b.
Proof. unfold unique_ids. by rewrite <- same_task_ids. Qed.

Lemma same_graph_edges e : e ∈ graph_edges a ↔ e ∈ graph_edges b.
Proof.
  unfold graph_edges, known_edges. rewrite !list_elem_of_filter. by rewrite same_dep_edges, same_task_ids.
Qed.

Lemma same_critical_ids : critical_ids a ≡ₚ critical_ids b.
Proof. unfold critical_ids. by rewrite (sg_tasks _ _ Hsame). Qed.

Lemma same_window : engagement_window_seconds a = engagement_window_seconds b.
Proof. pose proof (sg_fields _ _ Hsame) as Hf. congruence. Qed.

Lemma same_timeout t : task_timeout a t = task_timeout b t.
Proof.
  unfold task_timeout. rewrite (task_map_ids a Ha), (task_map_ids b same_unique).
  f_equal. apply option_eq. intros n.
  rewrite <- !elem_of_dict.
  - by rewrite (sg_tasks _ _ Hsame).
  - unfold dkeys. rewrite map_map. apply same_unique.
  - unfold dkeys. rewrite map_map. apply Ha.
Qed.

(** Validity does not depend on the order. *)
Lemma same_valid : valid_graph a → valid_graph b.
Proof.
  intros [H1 H2 H3 H4 H5 H6].
  pose proof (sg_tasks _ _ Hsame) as Ht. pose proof (sg_deps _ _ Hsame) as Hd.
  split.
  - intros d. rewrite <- Hd, <- !same_task_ids. apply H1.
  - intros v Hv. apply (H2 v). revert Hv. apply tc_same. intros x y. apply same_graph_edges.
  - intros t. rewrite <- Ht. apply H3.
  - intros t Hin Hty. rewrite <- Ht in Hin. destruct (H4 t Hin Hty) as (p & t' & Hp & Hin' & ?).
    exists p, t'. by rewrite <- Ht.
  - intros t Hin Hty. rewrite <- Ht in Hin. destruct (H5 t Hin Hty) as (r & ? & Hr). exists r. by rewrite <- same_task_ids.
  - intros Hne. destruct H6 as [(s & [Hs Hpre] & Hu) Hp].
    { intros Hnil. apply Hne. apply Permutation_nil. rewrite <- Hnil. apply same_critical_ids. }
    split.
    + exists s. split.
      * split; [by rewrite <- same_critical_ids|]. intros p Hin. rewrite <- same_critical_ids.
        apply Hpre. by rewrite same_dep_edges.
      * intros s' [Hs' Hpre']. apply Hu. split; [by rewrite same_critical_ids|].
        intros p Hin. rewrite same_critical_ids. apply Hpre'. by rewrite <- same_dep_edges.
    + intros p (Hpne & Hin & Hw). rewrite <- same_window.
      replace (path_weight (task_timeout b) p) with (path_weight (task_timeout a) p).
      * apply Hp. split_and!; [done| |].
        -- intros t. rewrite same_task_ids. apply Hin.
        -- revert Hw. apply walk_same. intros e. symmetry. apply same_graph_edges.
      * clear -Ha Hsame. induction p as [|t p IH]; [done|]. simpl. by rewrite same_timeout, IH.
Qed.
End Same.

#[export] Instance valid_graph_proper a : unique_ids a → Proper (same_graph ==> iff) (λ g, unique_ids g ∧ valid_graph g).
Proof.
  intros _ x y Hxy. split; intros [Hu Hv].
  - split; [by apply (same_unique x y)|by apply (same_valid x y)].
  - symmetry in Hxy. split; [by apply (same_unique y x)|by apply (same_valid y x)].
Qed.

Lemma validator_nil g : unique_ids g → TaskGraphValidator_validate g = [] ↔ valid_graph g.
Proof.
  intros Hu. unfold TaskGraphValidator_validate. destruct (validate_complete g Hu) as (errs & -> & Hiff). done.
Qed.

Lemma same_validator a b : same_graph a b → unique_ids a →
  bool_decide (TaskGraphValidator_validate a ≠ []) = bool_decide (TaskGraphValidator_validate b ≠ []).
Proof.
  intros Hs Hu. apply bool_decide_ext. rewrite !validator_nil by (done || by apply (same_unique a b)).
  split; intros Hn Hv; apply Hn; [|by apply (same_valid a b)].
  by apply (same_valid b a); [symmetry|apply (same_unique a b)|].
Qed.


(** Two runs that agree: when one returns, so does the other. *)
Definition agree (a b : result TaskGraphException unit * TaskGraph) : Prop :=
  ∀ a', a = (Ok tt, a') → ∃ b', b = (Ok tt, b') ∧ same_graph a' b'.

Lemma agree_raise_if (x y : bool) ex ey (k k' : M unit) a b :
  x = y → (y = false → agree (k a) (k' b)) →
  agree ((raise_if x ex;; k) a) ((raise_if y ey;; k') b).
Proof. intros -> Hk. destruct y; [by intros a'|by apply Hk]. Qed.

Lemma agree_self (k k' : TaskGraph → M unit) a b :
  agree (k a a) (k' b b) → agree ((self ≫= k) a) ((self ≫= k') b).
Proof. done. Qed.

Lemma agree_modify (f f' : TaskGraph → TaskGraph) (k k' : M unit) a b :
  agree (k (f a)) (k' (f' b)) → agree ((modify f;; k) a) ((modify f';; k') b).
Proof. done. Qed.

Lemma agree_last (f f' : TaskGraph → TaskGraph) a b :
  same_graph (f a) (f' b) → agree (modify f a) (modify f' b).
Proof. intros Hs a' [= <-]. by exists (f' b). Qed.

Lemma bind_assoc {A B} (m : M A) (k : A → M B) (k' : B → M unit) s :
  ((m ≫= k) ≫= k') s = (m ≫= (λ x, k x ≫= k')) s.
Proof. unfold mbind, PyM_bind. by destruct (m s) as [[]]. Qed.

(** Splits both runs of a method, guard by guard. *)
Ltac agree_step :=
  first
    [ progress (rewrite bind_assoc)
    | apply agree_self
    | apply agree_raise_if; [|intros _]
    | apply agree_modify
    | apply agree_last ].

(** The guards of the calls say the same of both graphs. *)
Section SameGuards.
Context (a b : TaskGraph) (Hs : same_graph a b).

Lemma same_tenant t : bool_decide (t ≠ tenant_id a) = bool_decide (t ≠ tenant_id b).
Proof. pose proof (sg_fields _ _ Hs) as Hf. by replace (tenant_id b) with (tenant_id a) by congruence. Qed.

Lemma same_state (P : TaskGraphState.t → bool) : P (state a) = P (state b).
Proof. pose proof (sg_fields _ _ Hs) as Hf. by replace (state b) with (state a) by congruence. Qed.

Lemma same_member id : bool_decide (id ∈ task_ids a) = bool_decide (id ∈ task_ids b).
Proof. apply bool_decide_ext. by rewrite (same_task_ids a b). Qed.

Lemma same_not_member id : bool_decide (id ∉ task_ids a) = bool_decide (id ∉ task_ids b).
Proof. apply bool_decide_ext. by rewrite (same_task_ids a b). Qed.

Lemma same_empty : bool_decide (tasks a = []) = bool_decide (tasks b = []).
Proof.
  apply bool_decide_ext. pose proof (sg_tasks _ _ Hs) as Ht.
  split; intros Heq; apply Permutation_nil; rewrite <- Heq; by rewrite Ht.
Qed.
End SameGuards.

(** Both runs return, with the same updates done. *)
Lemma agree_ok a b : same_graph a b → agree (Ok tt, a) (Ok tt, b).
Proof. intros Hs a' [= <-]. by exists b. Qed.

Ltac same_update :=
  match goal with
  | Hs : same_graph ?a ?b |- _ =>
      let Hf := fresh in let Ht := fresh in let Hd := fresh in
      destruct Hs as [Hf Ht Hd]; destruct a, b; simpl in Hf, Ht, Hd; simplify_eq;
      split; [reflexivity| |]; simpl; by rewrite ?Ht, ?Hd
  end.

(** A call that returns on a graph returns on a stored copy of it. *)
Lemma run_call_same c a b : service_call c = true → unique_ids a → same_graph a b →
  agree (run_call c a) (run_call c b).
Proof.
  intros Hc Hu Hs. destruct c; try done; simpl; unfold_ops; repeat agree_step; cbv beta.
  all: first
    [ reflexivity | by apply same_tenant | by apply same_member | by apply same_not_member
    | by apply same_empty | by apply same_validator
    | exact (same_state a b Hs (λ s, bool_decide (s ∈ _IMMUTABLE_STATES)))
    | exact (same_state a b Hs (λ s, bool_decide (s ∉ [TaskGraphState.DRAFT; TaskGraphState.VALIDATED])))
    | exact (same_state a b Hs (λ s, bool_decide (s ≠ _)))
    | exact (same_state a b Hs (λ s, bool_decide (_ ∉ _ALLOWED_TRANSITIONS s)))
    | case_match; apply agree_ok; same_update
    | apply agree_ok; same_update ].
Qed.
