(* ===== verification/TaskGraphApp.v ===== *)
(** [taskgraph.TaskGraphApplicationService]: every command validates its input,
    loads the graph in a unit of work, calls the aggregate, saves, commits, and
    then publishes.  What the tables hold after any sequence of commands is a
    graph the aggregate reaches. *)
From stdpp Require Import base tactics list strings relations.
From Stdlib Require Import ZArith Lia.
From S2P Require Import Prelude PyTypes PyStore Kahn TaskGraphData TaskGraphServices TaskGraph TaskGraphStore TaskGraphEquiv.

Local Open Scope Z_scope.

(** ** The world of the service *)

(** [ValueErr] is a [ValueError] of a value object, which no command catches;
    [Diverges] stands for a traversal that does not end. *)
Inductive TgError :=
  | ApplicationValidationError (field reason : string)
  | ApplicationNotFoundError (resource : string) (id : uuid)
  | ValueErr
  | Domain (e : TaskGraphException)
  | Store (e : StoreError)
  | GraphPortFailure
  | Diverges.

(** The calls of [ISecurityGraphWritePort]. *)
Inductive GraphWrite :=
  | UpsertTaskGraphNode (t : TenantId) (graph : uuid) (version : string)
  | UpsertCampaignTaskNode (t : TenantId) (task : uuid) (task_type criticality : string)
  | UpsertGraphContainsEdge (t : TenantId) (graph task : uuid) (sequence : Z)
  | UpsertTaskDependsOnEdge (t : TenantId) (from_task to_task : uuid) (predicate : string).

(** The optional port; where it does not accept a write it raises. *)
Class GraphPort := { graph_port : option (GraphWrite → bool) }.

Record World := mkWorld {
  w_db : TgDb;
  w_published : list (DomainEvent TaskGraphEvent);
  w_graph : list GraphWrite
}.
#[export] Instance World_settable : Settable World := fun w => mkWorld (w_db w) (w_published w) (w_graph w).

Definition empty_world : World := mkWorld empty_tg_db [] [].

Abbreviation App := (PyM World TgError).

Abbreviation Tx := (PyM (Session TgDb) TgError).

(** [async with self._uow_factory() as uow: body] *)
Definition in_uow {A} (body : Tx A) : App A := fun w =>
  let '(r, s) := body (mkSession (w_db w) (w_db w)) in (r, w <| w_db := s_durable s |>).

(** [_publish_all]: a failing publisher is logged and ignored; the events
    handed to it are recorded. *)
Definition _publish_all (g : TaskGraph) : App unit :=
  modify (fun w => w <| w_published ::= fun l => l ++ pending_events g |>).

(** [_as_uuid] of a [UUID]. *)
Definition _as_uuid {S} (field : string) (u : uuid) : PyM S TgError uuid :=
  raise_if (u =? 0) (ApplicationValidationError field "must be a valid non-nil UUID");;
  mret u.

(** [_as_str], through [validate_str]. *)
Definition _as_str {S} (field value : string) (max_len : nat) : PyM S TgError string :=
  raise_if (blank value) (ApplicationValidationError field "must not be empty");;
  raise_if (bool_decide (max_len < String.length value)%nat)
    (ApplicationValidationError field ("must be at most " +:+ str_int (Z.of_nat max_len) +:+ " characters"));;
  mret (strip value).

(** A constructor that may raise [ValueError]. *)
Definition construct {S A} (x : option A) : PyM S TgError A :=
  match x with Some a => mret a | None => raise ValueErr end.

(** [Enum(text)], with the [ValueError] turned into a validation error. *)
Definition parse_enum {S A} (field : string) (text : A → string) (all : list A) (s : string) : PyM S TgError A :=
  match of_text text all s with
  | Some x => mret x
  | None => raise (ApplicationValidationError field ("invalid: " +:+ s))
  end.

(** Truthiness of an optional [str], with its value. *)
Definition truthy (s : option string) : option string :=
  match s with Some s => if empty_str s then None else Some s | None => None end.

(** ** Data transfer objects *)

Record TaskGraphDTO := mkTaskGraphDTO {
  dto_graph_id : uuid; dto_tenant_id : TenantId; dto_name : string; dto_description : string;
  dto_state : string; dto_version_str : string; dto_task_count : nat; dto_dependency_count : nat;
  dto_engagement_window_seconds : Z; dto_signed_by : option string; dto_signed_at : option datetime;
  dto_created_at : datetime; dto_updated_at : datetime }.

Definition graph_to_dto (g : TaskGraph) : TaskGraphDTO :=
  mkTaskGraphDTO (graph_id g) (tenant_id g) (name g) (description g) (TaskGraphState.value (state g))
    (str_version (version g)) (length (tasks g)) (length (dependencies g)) (engagement_window_seconds g)
    (signed_by g) (signed_at g) (created_at g) (updated_at g).

Record TaskDTO := mkTaskDTO {
  dto_task_id : uuid; dto_task_type : string; dto_task_name : string; dto_criticality : string;
  dto_timeout_seconds : Z; dto_task_group_id : option string }.

Definition task_to_dto (k : CampaignTask) : TaskDTO :=
  mkTaskDTO (task_id k) (TaskType.value (task_type k)) (task_name k) (TaskCriticality.value (criticality k))
    (timeout_seconds k) (task_group_id k).

Record ValidationResultDTO := mkValidationResultDTO { is_valid : bool; dto_errors : list ValidationError }.

Record ExecutionOrderDTO := mkExecutionOrderDTO {
  dto_layers : list (list string); dto_critical_path_duration_seconds : Z }.

(** ** Transactions *)

Section Transactions.
Context `{!RowOrder}.

(** A query of the repository. *)
Definition query {A} (q : TgDb → result StoreError A) : Tx A := fun s =>
  match q (s_view s) with Ok a => (Ok a, s) | Err e => (Err (Store e), s) end.

(** [uow.task_graphs.save(graph)] *)
Definition save (g : TaskGraph) : Tx unit := fun s =>
  match save_graph g (s_view s) with
  | Ok db => (Ok tt, s <| s_view := db |>)
  | Err e => (Err (Store e), s)
  end.

Definition _load_graph (id : uuid) (t : TenantId) : Tx TaskGraph :=
  gid ← _as_uuid "graph_id" id;
  found ← query (find_by_id gid t);
  match found with
  | Some g => mret g
  | None => raise (ApplicationNotFoundError "TaskGraph" gid)
  end.

(** A method of the aggregate on a loaded graph. *)
Definition on_graph (m : M unit) (g : TaskGraph) : Tx TaskGraph :=
  match m g with
  | (Ok _, g') => mret g'
  | (Err e, _) => raise (Domain e)
  end.

(** The transaction of a command that calls one method. *)
Definition update_graph (t : TenantId) (id : uuid) (m : M unit) : Tx TaskGraph :=
  g ← _load_graph id t;
  g ← on_graph m g;
  save g;;
  commit;;
  mret g.
End Transactions.

(** ** Commands *)

Record AddTaskCommand := mkAddTask {
  ac_tenant_id : TenantId; ac_graph_id : uuid; ac_task_type : string; ac_name : string;
  ac_criticality : string; ac_timeout_seconds : Z; ac_technique_id : option string;
  ac_technique_name : option string; ac_technique_parameters : option (list (string * string));
  ac_human_approval_timeout_seconds : option Z; ac_human_approval_required_role : option string;
  ac_human_approval_default_on_timeout : option string;
  ac_human_approval_timeout_justification : option string;
  ac_barrier_task_group_id : option string; ac_rollback_task_ref_id : option uuid;
  ac_rollback_technique_id : option string; ac_rollback_not_possible : bool;
  ac_rollback_not_possible_reason : option string; ac_task_group_id : option string }.

(** [if not field: raise ApplicationValidationError(...)] *)
Definition required {S A} (field reason : string) (x : option A) : PyM S TgError A :=
  match x with Some a => mret a | None => raise (ApplicationValidationError field reason) end.

(** [Some] of what a computation returns. *)
Definition some_of {S A} (m : PyM S TgError A) : PyM S TgError (option A) := a ← m; mret (Some a).

(** The parts of the task [add_task] builds. *)
Definition template_of {S} (cmd : AddTaskCommand) (ty : TaskType.t)
    : PyM S TgError (option TaskOperationTemplate) :=
  if decide (ty = TaskType.OPERATION_TASK) then
    id ← required "technique_id" "required for OperationTask" (truthy (ac_technique_id cmd));
    some_of (construct (TaskOperationTemplate_new id (default "" (truthy (ac_technique_name cmd)))
      (default [] (ac_technique_parameters cmd)) (ac_timeout_seconds cmd)))
  else mret None.

Definition human_of {S} (cmd : AddTaskCommand) (ty : TaskType.t)
    : PyM S TgError (option HumanApprovalTaskConfig) :=
  if decide (ty = TaskType.HUMAN_APPROVAL_TASK) then
    timeout ← required "human_approval_timeout_seconds" "required for HumanApprovalTask"
      (ac_human_approval_timeout_seconds cmd);
    role ← required "human_approval_required_role" "required for HumanApprovalTask"
      (truthy (ac_human_approval_required_role cmd));
    some_of (construct (HumanApprovalTaskConfig_new timeout role
      (default "abort" (truthy (ac_human_approval_default_on_timeout cmd)))
      (ac_human_approval_timeout_justification cmd)))
  else mret None.

Definition barrier_of {S} (cmd : AddTaskCommand) (ty : TaskType.t) : PyM S TgError (option BarrierPolicy) :=
  if decide (ty = TaskType.BARRIER_TASK) then
    group ← required "barrier_task_group_id" "required for BarrierTask" (truthy (ac_barrier_task_group_id cmd));
    some_of (construct (BarrierPolicy_new group))
  else mret None.

Definition rollback_ref_of {S} (cmd : AddTaskCommand) (ty : TaskType.t) : PyM S TgError (option uuid) :=
  if decide (ty = TaskType.ROLLBACK_TASK) then
    ref ← required "rollback_task_ref_id" "required for RollbackTask" (ac_rollback_task_ref_id cmd);
    some_of (_as_uuid "rollback_task_ref_id" ref)
  else mret None.

Definition rollback_of (cmd : AddTaskCommand) : option RollbackConfiguration :=
  (fun id => mkRollbackConfiguration id [] (ac_rollback_not_possible cmd)
               (ac_rollback_not_possible_reason cmd)) <$> truthy (ac_rollback_technique_id cmd).

Definition group_of {S} (cmd : AddTaskCommand) : PyM S TgError (option string) :=
  match truthy (ac_task_group_id cmd) with
  | Some s => some_of (construct (TaskGroupId_new s))
  | None => mret None
  end.

(** The task [add_task] builds from its command, with a generated id. *)
Definition build_task {S} (cmd : AddTaskCommand) (new_id : uuid) : PyM S TgError CampaignTask :=
  ty ← parse_enum "task_type" TaskType.value all_types (ac_task_type cmd);
  cr ← parse_enum "criticality" TaskCriticality.value all_criticalities (ac_criticality cmd);
  raise_if (ac_timeout_seconds cmd <=? 0) (ApplicationValidationError "timeout_seconds" "must be positive");;
  template ← template_of cmd ty;
  human ← human_of cmd ty;
  barrier ← barrier_of cmd ty;
  ref ← rollback_ref_of cmd ty;
  group ← group_of cmd;
  id ← construct (non_nil new_id);
  nm ← _as_str "name" (ac_name cmd) 512;
  mret (mkTask id ty nm cr (ac_timeout_seconds cmd) template human barrier (rollback_of cmd) group ref).

Section Commands.
Context `{!RowOrder} `{!GraphPort}.

Definition create_task_graph (t : TenantId) (nm desc : string) (window : Z) (new_id : uuid)
    (now : datetime) : App TaskGraphDTO :=
  nm ← _as_str "name" nm 512;
  raise_if (window <=? 0) (ApplicationValidationError "engagement_window_seconds" "must be positive");;
  id ← construct (non_nil new_id);
  g ← match create id t nm (strip desc) window now with
      | Ok g => mret g
      | Err e => raise (Domain e)
      end;
  in_uow (save g;; commit);;
  _publish_all g;;
  mret (graph_to_dto g).

Definition app_add_task (cmd : AddTaskCommand) (new_id : uuid) (now : datetime) : App TaskDTO :=
  task ← build_task cmd new_id;
  g ← in_uow (update_graph (ac_tenant_id cmd) (ac_graph_id cmd) (add_task (ac_tenant_id cmd) task now));
  _publish_all g;;
  mret (task_to_dto task).

Definition app_add_dependency (t : TenantId) (id pred succ : uuid) (predicate : string)
    (objective : option string) (now : datetime) : App unit :=
  p ← parse_enum "predicate" DependencyPredicate.value all_predicates predicate;
  condition ← construct (ConditionalBranchConfig_new p objective);
  pred ← _as_uuid "predecessor_task_id" pred;
  succ ← _as_uuid "successor_task_id" succ;
  g ← in_uow (update_graph t id (add_dependency t pred succ condition now));
  _publish_all g.

(** A graph that is not valid is reported and not saved.  The source publishes
    before it leaves the unit of work, after the commit. *)
Definition validate_task_graph (t : TenantId) (id : uuid) (now : datetime) : App ValidationResultDTO :=
  r ← in_uow (
    g ← _load_graph id t;
    match validate t TaskGraphValidator_validate now g with
    | (Ok _, g') => save g';; commit;; mret (inl g')
    | (Err (TaskGraphValidationFailed _ errors), _) => mret (inr errors)
    | (Err e, _) => raise (Domain e)
    end);
  match r with
  | inl g => _publish_all g;; mret (mkValidationResultDTO true [])
  | inr errors => mret (mkValidationResultDTO false errors)
  end.

(** The writes of [_write_graph_ontology], in order. *)
Definition ontology_writes (g : TaskGraph) : list GraphWrite :=
  UpsertTaskGraphNode (tenant_id g) (graph_id g) (str_version (version g)) ::
  concat (imap (fun i k =>
    [UpsertCampaignTaskNode (tenant_id g) (task_id k) (TaskType.value (task_type k))
       (TaskCriticality.value (criticality k));
     UpsertGraphContainsEdge (tenant_id g) (graph_id g) (task_id k) (Z.of_nat i)]) (tasks g)) ++
  map (fun d => UpsertTaskDependsOnEdge (tenant_id g) (predecessor_id d) (successor_id d)
    (DependencyPredicate.value (cb_predicate (condition d)))) (dependencies g).

Definition _write_graph_ontology (accepts : GraphWrite → bool) (g : TaskGraph) : App unit :=
  for_each (ontology_writes g) (fun x =>
    raise_if (negb (accepts x)) GraphPortFailure;;
    modify (fun w => w <| w_graph ::= fun l => l ++ [x] |>)).

Definition sign_task_graph (t : TenantId) (id : uuid) (by_ sig : string) (now : datetime) : App unit :=
  by_ ← _as_str "signed_by" by_ 256;
  sig ← _as_str "signature" sig 1024;
  g ← in_uow (update_graph t id (sign t by_ sig now));
  _publish_all g;;
  match graph_port with
  | Some accepts => _write_graph_ontology accepts g
  | None => mret tt
  end.

Definition activate_task_graph (t : TenantId) (id : uuid) (now : datetime) : App unit :=
  g ← in_uow (update_graph t id (activate t now));
  _publish_all g.

Definition deprecate_task_graph (t : TenantId) (id : uuid) (now : datetime) : App unit :=
  g ← in_uow (update_graph t id (deprecate t now));
  _publish_all g.

Definition get_task_graph (t : TenantId) (id : uuid) : App (option TaskGraphDTO) :=
  in_uow (
    gid ← _as_uuid "graph_id" id;
    found ← query (find_by_id gid t);
    mret (graph_to_dto <$> found)).

Definition get_execution_order (t : TenantId) (id : uuid) (start : option uuid) : App ExecutionOrderDTO :=
  g ← in_uow (_load_graph id t);
  start ← match start with
          | Some s => some_of (_as_uuid "start_task_id" s)
          | None => mret None
          end;
  match resolve g start, _compute_critical_path_duration g with
  | Some layers, Some duration => mret (mkExecutionOrderDTO (map (map str_uuid) layers) duration)
  | _, _ => raise Diverges
  end.
End Commands.

(** ** The commands as one type *)

Inductive command :=
  | CreateGraph (t : TenantId) (nm desc : string) (window : Z) (new_id : uuid)
  | AddTask (cmd : AddTaskCommand) (new_id : uuid)
  | AddDependency (t : TenantId) (id pred succ : uuid) (predicate : string) (objective : option string)
  | ValidateGraph (t : TenantId) (id : uuid)
  | SignGraph (t : TenantId) (id : uuid) (by_ sig : string)
  | ActivateGraph (t : TenantId) (id : uuid)
  | DeprecateGraph (t : TenantId) (id : uuid)
  | GetGraph (t : TenantId) (id : uuid)
  | GetOrder (t : TenantId) (id : uuid) (start : option uuid).

Definition run_command `{!RowOrder} `{!GraphPort} (c : command) (now : datetime) : App unit :=
  match c with
  | CreateGraph t nm desc w id => create_task_graph t nm desc w id now;; mret tt
  | AddTask cmd id => app_add_task cmd id now;; mret tt
  | AddDependency t id p s pr o => app_add_dependency t id p s pr o now
  | ValidateGraph t id => validate_task_graph t id now;; mret tt
  | SignGraph t id b s => sign_task_graph t id b s now
  | ActivateGraph t id => activate_task_graph t id now
  | DeprecateGraph t id => deprecate_task_graph t id now
  | GetGraph t id => get_task_graph t id;; mret tt
  | GetOrder t id s => get_execution_order t id s;; mret tt
  end.

(** [uuid7()] gives an id no graph has. *)
Definition fresh_id (c : command) (w : World) : Prop :=
  match c with
  | CreateGraph _ _ _ _ id => id ∉ map gr_id (tb_graphs (w_db w))
  | _ => True
  end.

(** A world some sequence of commands leads to from the empty one. *)
Inductive reachable_world `{!RowOrder} `{!GraphPort} : World → Prop :=
  | rw_empty : reachable_world empty_world
  | rw_command w c now : reachable_world w → fresh_id c w → reachable_world (run_command c now w).2.

(** ** Specification *)

(** The rows of a graph the aggregate reaches. *)
Definition stored (db : TgDb) (g : TaskGraph) : Prop := reachable g ∧ ok_graph g ∧ holds db g.

(** All rows are of such graphs. *)
Definition good (db : TgDb) : Prop :=
  tg_keys db ∧ ∀ row, row ∈ tb_graphs db → ∃ g, row = graph_to_row g (created_at g) ∧ stored db g.

(** What the constructors guarantee of the arguments of a call. *)
Definition ok_call (c : call) : Prop :=
  match c with
  | CAddTask _ k _ => ok_task k
  | CAddDependency _ p s c _ => ok_dep (mkDependency p s c)
  | _ => True
  end.

(** ** Lemmas *)

Lemma same_row a b : same_graph a b → graph_to_row a (created_at a) = graph_to_row b (created_at b).
Proof. intros [Hf _ _]. destruct a, b. simpl in Hf. by simplify_eq. Qed.

Lemma same_keys a b : same_graph a b →
  graph_id a = graph_id b ∧ tenant_id a = tenant_id b ∧ created_at a = created_at b ∧ state a = state b.
Proof. intros [Hf _ _]. split_and!; congruence. Qed.

Lemma same_holds db a b : same_graph a b → holds db a → holds db b.
Proof.
  intros Hs [Hr Ht Hd]. destruct (same_keys a b Hs) as (Hid & Htn & _). destruct Hs as [Hf Hpt Hpd] eqn:Heq.
  split; [by rewrite <- (same_row a b)|..]; rewrite <- Hid, <- ?Htn; by rewrite <- ?Hpt, <- ?Hpd.
Qed.

(** What no call of the service changes. *)
Lemma run_call_keeps_key c g g' : run_call c g = (Ok tt, g') →
  graph_id g' = graph_id g ∧ tenant_id g' = tenant_id g ∧ created_at g' = created_at g ∧ version g' = version g.
Proof.
  apply (wp_ok _ (λ _ g', graph_id g' = graph_id g ∧ tenant_id g' = tenant_id g ∧ created_at g' = created_at g ∧
    version g' = version g) (λ _ _, True)).
  destruct c; simpl; unfold_ops; wp_run; done.
Qed.

Lemma run_call_ok_graph c g g' : service_call c = true → ok_call c → run_call c g = (Ok tt, g') →
  ok_graph g → ok_graph g'.
Proof.
  intros Hc Hok Heq [Hid Hv Ht Hd]. destruct (run_call_keeps_key c g g' Heq) as (Hid' & _ & _ & Hv').
  rewrite <- Hid' in Hid. rewrite <- Hv' in Hv.
  cut ((∀ k, k ∈ tasks g' → ok_task k) ∧ ∀ d, d ∈ dependencies g' → ok_dep d); [by intros []; split|].
  revert Heq. apply (wp_ok _ (λ _ g', (∀ k, k ∈ tasks g' → ok_task k) ∧ ∀ d, d ∈ dependencies g' → ok_dep d)
    (λ _ _, True)). clear g' Hid Hv Hid' Hv'.
  destruct c; try done; simpl; unfold_ops; wp_run; simpl; try done.
  all: split; [|try done]; try done.
  all: intros x [Hx| ->%list_elem_of_singleton]%elem_of_app; auto.
Qed.

Lemma reachable_call c g g' : reachable g → run_call c g = (Ok tt, g') → reachable g'.
Proof.
  intros (id & tn & n & d & w & now & g0 & cs & Hc & ->) Heq.
  exists id, tn, n, d, w, now, g0, (cs ++ [c]). split; [done|].
  rewrite run_calls_app. unfold run_calls at 1. simpl. by rewrite Heq.
Qed.

Section Service.
Context `{!RowOrder} `{!GraphPort}.

(** A save of a graph the aggregate reached, over its row or as a new row. *)
Lemma save_good g g' db db' : good db → reachable g → ok_graph g → same_graph g' g →
  (∀ g0, stored db g0 → graph_id g0 = graph_id g → created_at g0 = created_at g) →
  save_graph g' db = Ok db' → good db' ∧ stored db' g.
Proof.
  intros [Hk Hrows] Hreach Hok Hs Hcreated Hsave.
  destruct (same_keys g' g Hs) as (Hid & Htn & Hcr & _).
  destruct (save_holds g' db db' Hk Hsave) as (Hk' & Hg' & Hothers & Hall).
  { intros row (Hin & Hri & _)%find_row_some. destruct (Hrows row Hin) as (g0 & -> & Hg0).
    rewrite Hcr. apply Hcreated; [done|]. by rewrite <- Hid. }
  assert (stored db' g) as Hst by (split_and!; [done..|by apply (same_holds _ g')]).
  split; [|done]. split; [done|]. intros row Hin. destruct (Hall row Hin) as [->|[Hold Hne]].
  - exists g. by rewrite (same_row g' g Hs).
  - destruct (Hrows row Hold) as (g0 & -> & Hr0 & Hok0 & Hh0). exists g0.
    split; [done|]. split_and!; [done..|]. by apply Hothers.
Qed.

(** Two stored graphs with one id are one row. *)
Lemma stored_created db a b : good db → stored db a → stored db b → graph_id a = graph_id b →
  created_at a = created_at b.
Proof.
  intros [[Hk _] _] (_ & _ & Ha) (_ & _ & Hb) Hid.
  assert (graph_to_row a (created_at a) = graph_to_row b (created_at b)) as Hrow.
  { apply (nodup_key_inj gr_id (tb_graphs db)); [done|apply Ha|apply Hb|done]. }
  by injection Hrow.
Qed.

(** A call on a loaded copy of a stored graph, then its save. *)
Lemma call_save_good c g g' g2' db db' : good db → stored db g → same_graph g' g →
  service_call c = true → ok_call c → run_call c g' = (Ok tt, g2') → save_graph g2' db = Ok db' →
  good db' ∧ ∃ g2, stored db' g2 ∧ run_call c g = (Ok tt, g2) ∧ same_graph g2' g2.
Proof.
  intros Hgood Hst Hs Hc Hok Hrun Hsave. pose proof Hst as (Hreach & Hokg & Hh).
  assert (unique_ids g') as Hu.
  { apply (same_unique g g'); [by symmetry|]. apply wf_ids, reachable_wf, Hreach. }
  destruct (run_call_same c g' g Hc Hu Hs g2' Hrun) as (g2 & Hrun2 & Hs2).
  destruct (run_call_keeps_key c g g2 Hrun2) as (Hid2 & _ & Hcr2 & _).
  destruct (save_good g2 g2' db db') as [Hgood' Hst2]; try done.
  - by apply (reachable_call c g).
  - by apply (run_call_ok_graph c g).
  - intros g0 Hg0 Hid0. rewrite Hcr2. apply (stored_created db); [done..|]. by rewrite Hid0.
  - split; [done|]. by exists g2.
Qed.

(** *** Statements of the transactions *)

Lemma wp_graph_query {A} (q : TgDb → result StoreError A) (Q : A → Session TgDb → Prop) X s :
  (∀ a, Q a s) → (∀ e, X e s) → wp (query q) Q X s.
Proof. intros HQ HX. unfold wp, query. destruct (q (s_view s)); auto. Qed.

Lemma wp_as_uuid {S} field u (Q : uuid → S → Prop) X s : (u ≠ 0 → Q u s) → (∀ e, X e s) →
  wp (_as_uuid field u) Q X s.
Proof. intros HQ HX. unfold _as_uuid. wp_run; [done|]. apply HQ. by apply Z.eqb_neq. Qed.

(** Loading answers a copy of a stored graph of the tenant. *)
Lemma wp_load id t (Q : TaskGraph → Session TgDb → Prop) X s : good (s_view s) →
  (∀ g g', stored (s_view s) g → same_graph g' g → graph_id g = id → tenant_id g = t → pending_events g' = [] →
     Q g' s) →
  (∀ e, X e s) → wp (_load_graph id t) Q X s.
Proof.
  intros [Hk Hrows] HQ HX. unfold _load_graph. wp_step. apply wp_as_uuid; [intros _|done].
  wp_step. unfold query, wp at 1.
  destruct (find_by_id id t (s_view s)) as [[g'|]|e] eqn:Hf; [wp_run|by wp_run|done].
  unfold find_by_id in Hf. destruct (find_row _ _ _) as [row|] eqn:Hr; [|done].
  apply find_row_some in Hr as (Hin & Hid & Hten). destruct (Hrows row Hin) as (g & -> & Hst).
  pose proof Hst as (Hreach & Hok & Hh). destruct (holds_find _ g Hk Hh Hok) as (g'' & Hf' & Hs' & Hp).
  simpl in Hid, Hten. unfold find_by_id in Hf'. rewrite Hid, Hten in Hf'.
  pose proof (find_row_unique _ (graph_id g) _ Hk Hin eq_refl) as Hu. simpl in Hu. rewrite Hid, Hten in Hu.
  rewrite Hu in Hf'. rewrite Hf' in Hf. simplify_eq. by apply (HQ g).
Qed.

Lemma wp_graph_save g (Q : unit → Session TgDb → Prop) X s :
  (∀ db', save_graph g (s_view s) = Ok db' → Q tt (s <| s_view := db' |>)) →
  (∀ e, X e s) → wp (save g) Q X s.
Proof. intros HQ HX. unfold wp, save. destruct (save_graph g (s_view s)); [by apply HQ|apply HX]. Qed.

(** A command's transaction: it commits the call on the stored graph, or it
    leaves the tables as they were. *)
Lemma wp_update c t id (Q : TaskGraph → Session TgDb → Prop) X db : good db →
  service_call c = true → ok_call c →
  (∀ g g2 g2' db', stored db g → graph_id g = id → tenant_id g = t → run_call c g = (Ok tt, g2) →
     same_graph g2' g2 → good db' → stored db' g2 → Q g2' (mkSession db' db')) →
  (∀ e v, X e (mkSession v db)) → wp (update_graph t id (run_call c)) Q X (mkSession db db).
Proof.
  intros Hgood Hc Hok HQ HX. unfold update_graph. wp_step. apply wp_load; [done| |intros e; apply HX]. simpl.
  intros g g' Hst Hs Hid Ht _. wp_step. unfold on_graph.
  destruct (run_call c g') as [[[]|e] g2'] eqn:Hrun; wp_run; [|by apply HX].
  apply wp_graph_save; [|intros e; apply HX]. intros db' Hsave. wp_run.
  destruct (call_save_good c g g' g2' db db') as (Hgood' & g2 & Hst2 & Hrun2 & Hs2); try done.
  by apply (HQ g g2).
Qed.
(** *** Statements of the commands *)

Lemma wp_graph_in_uow {A} (body : Tx A) (Q : A → World → Prop) X w :
  wp body (λ a s, Q a (w <| w_db := s_durable s |>)) (λ e s, X e (w <| w_db := s_durable s |>))
    (mkSession (w_db w) (w_db w)) → wp (in_uow body) Q X w.
Proof. unfold wp, in_uow. by destruct (body _) as [[]]. Qed.

Lemma world_same w : w <| w_db := w_db w |> = w.
Proof. by destruct w. Qed.

Section Inputs.
Context {S : Type}.

Lemma wp_as_str field v n (Q : string → S → Prop) X s : (∀ a, Q a s) → (∀ e, X e s) →
  wp (_as_str field v n) Q X s.
Proof. intros HQ HX. unfold _as_str. wp_run; auto. Qed.

Lemma wp_construct {A} (x : option A) (Q : A → S → Prop) X s : (∀ a, x = Some a → Q a s) → (∀ e, X e s) →
  wp (construct x) Q X s.
Proof. intros HQ HX. unfold construct. destruct x; wp_run; auto. Qed.

Lemma wp_required {A} field reason (x : option A) (Q : A → S → Prop) X s : (∀ a, x = Some a → Q a s) → (∀ e, X e s) →
  wp (required field reason x) Q X s.
Proof. intros HQ HX. unfold required. destruct x; wp_run; auto. Qed.

Lemma wp_parse_enum {A} field text (all : list A) v (Q : A → S → Prop) X s : (∀ a, Q a s) → (∀ e, X e s) →
  wp (parse_enum field text all v) Q X s.
Proof. intros HQ HX. unfold parse_enum. destruct (of_text _ _ _); wp_run; auto. Qed.

End Inputs.

Ltac input_step :=
  lazymatch goal with
  | |- wp (_as_str _ _ _) _ _ _ => apply wp_as_str; [intros ?|auto]
  | |- wp (_as_uuid _ _) _ _ _ => apply wp_as_uuid; [intros ?|auto]
  | |- wp (construct _) _ _ _ => apply wp_construct; [intros ? ?|auto]
  | |- wp (required _ _ _) _ _ _ => apply wp_required; [intros ? ?|auto]
  | |- wp (parse_enum _ _ _ _) _ _ _ => apply wp_parse_enum; [intros ?|auto]
  | |- wp (some_of _) _ _ _ => unfold some_of
  | _ => wp_step
  end.

(** What a checking constructor made it makes again. *)
Ltac constructed new :=
  let Heq := fresh in
  intros Heq; rewrite <- Heq; revert Heq; unfold new at 1; repeat case_match; by intros; simplify_eq.

Lemma new_template id nm ps n t : TaskOperationTemplate_new id nm ps n = Some t →
  TaskOperationTemplate_new (ot_technique_id t) (ot_technique_name t) (ot_parameters t) (ot_timeout_seconds t) = Some t.
Proof. constructed TaskOperationTemplate_new. Qed.

Lemma new_human n r d j c : HumanApprovalTaskConfig_new n r d j = Some c →
  HumanApprovalTaskConfig_new (ha_gate_timeout_seconds c) (ha_required_approver_role c) (ha_default_on_timeout c)
    (ha_timeout_justification c) = Some c.
Proof. constructed HumanApprovalTaskConfig_new. Qed.

Lemma new_barrier s p : BarrierPolicy_new s = Some p → BarrierPolicy_new (bp_task_group_id p) = Some p.
Proof. constructed BarrierPolicy_new. Qed.

Lemma new_group s x : TaskGroupId_new s = Some x → TaskGroupId_new x = Some x.
Proof. constructed TaskGroupId_new. Qed.

Lemma new_branch p o c : ConditionalBranchConfig_new p o = Some c →
  ConditionalBranchConfig_new (cb_predicate c) (cb_objective_ref c) = Some c.
Proof. constructed ConditionalBranchConfig_new. Qed.

(** The task a command asks for is one the constructors accept. *)
Lemma wp_build_task {S} cmd id (Q : CampaignTask → S → Prop) X s : (∀ k, ok_task k → Q k s) → (∀ e, X e s) →
  wp (build_task cmd id) Q X s.
Proof.
  intros HQ HX. unfold build_task, template_of, human_of, barrier_of, rollback_ref_of, group_of.
  repeat input_step; auto; apply HQ.
  all: repeat match goal with H : non_nil _ = Some _ |- _ => apply non_nil_some in H as [? ->] end.
  all: split_and!; simpl; try done; try (intros ? [= <-]); try congruence;
    eauto using new_template, new_human, new_barrier, new_group.
Qed.

(** After a raise the world is as before, or the ontology port raised once the
    signed graph was stored. *)
Definition after_raise (c : command) (w : World) (e : TgError) (w' : World) : Prop :=
  w' = w ∨
  e = GraphPortFailure ∧ ∃ t id by_ sig g, c = SignGraph t id by_ sig ∧ stored (w_db w') g ∧
    graph_id g = id ∧ tenant_id g = t ∧ state g = TaskGraphState.SIGNED.

Lemma wp_publish_all g (Q : unit → World → Prop) X w :
  (∀ w', w_db w' = w_db w → Q tt w') → wp (_publish_all g) Q X w.
Proof. intros HQ. unfold _publish_all. wp_run. by apply HQ. Qed.

Lemma wp_write_ontology accepts g (Q : unit → World → Prop) X w :
  (∀ w', w_db w' = w_db w → Q tt w' ∧ X GraphPortFailure w') → wp (_write_graph_ontology accepts g) Q X w.
Proof.
  intros HQ. apply (wp_for_each (λ _ w', w_db w' = w_db w)); [done|by intros; apply HQ|].
  intros x l w' Hw. wp_run; [by apply HQ|done].
Qed.

(** The unit of work of a command that calls one method of the aggregate. *)
Lemma wp_command c t id (Q : TaskGraph → World → Prop) X w : good (w_db w) → service_call c = true → ok_call c →
  (∀ g g2 g2' db', stored (w_db w) g → graph_id g = id → tenant_id g = t → run_call c g = (Ok tt, g2) →
     same_graph g2' g2 → good db' → stored db' g2 → Q g2' (w <| w_db := db' |>)) →
  (∀ e, X e w) → wp (in_uow (update_graph t id (run_call c))) Q X w.
Proof.
  intros Hgood Hc Hok HQ HX. apply wp_graph_in_uow. apply wp_update; [done..| |].
  - intros g g2 g2' db'. apply HQ.
  - intros e v. simpl. rewrite world_same. apply HX.
Qed.

Lemma sign_signs t by_ sig now g g' : sign t by_ sig now g = (Ok tt, g') → state g' = TaskGraphState.SIGNED.
Proof.
  apply (wp_ok _ (λ _ g', state g' = TaskGraphState.SIGNED) (λ _ _, True)). unfold_ops. by wp_run.
Qed.

(** A new graph is stored as its creation made it. *)
Lemma create_good id t nm desc window now g db db' : good db → id ≠ 0 → id ∉ map gr_id (tb_graphs db) →
  create id t nm desc window now = Ok g → save_graph g db = Ok db' → good db'.
Proof.
  intros Hgood Hid Hfresh Hc Hsave.
  assert (graph_id g = id ∧ version g = mkVersion 1 0 0 ∧ tasks g = [] ∧ dependencies g = []) as (Hg & Hv & Ht & Hd).
  { revert Hc. unfold create. repeat case_match; by intros; simplify_eq. }
  apply (save_good g g db); try done.
  - exists id, t, nm, desc, window, now, g, []. done.
  - split; [by rewrite Hg|by rewrite Hv|rewrite Ht|rewrite Hd]; by intros ? []%not_elem_of_nil.
  - intros g0 (_ & _ & [Hrow _ _]) Heq. exfalso. apply Hfresh. rewrite <- Hg, <- Heq.
    exact (list_elem_of_fmap_2 gr_id _ _ Hrow).
Qed.

(** The end of most commands: publish what happened and answer. *)
Ltac publish :=
  repeat first [apply wp_publish_all; let Hw := fresh in intros ? Hw; repeat rewrite Hw; clear Hw | wp_step].

(** One command. *)
Lemma run_command_good c now w : fresh_id c w → good (w_db w) →
  wp (run_command c now) (λ _ w', good (w_db w')) (λ e w', good (w_db w') ∧ after_raise c w e w') w.
Proof.
  intros Hfresh Hgood.
  assert (∀ e, good (w_db w) ∧ after_raise c w e w) as Hsame by (intros e; split; [done|by left]).
  destruct c; simpl run_command.
  - unfold create_task_graph. repeat input_step; try done.
    all: match goal with H : non_nil _ = Some _ |- _ => apply non_nil_some in H as [? ->] end.
    all: apply wp_graph_in_uow; wp_step; apply wp_graph_save; [|by intros e; simpl; rewrite world_same].
    all: intros db' Hsave; publish; simpl; by eapply create_good.
  - unfold app_add_task. repeat wp_step. apply wp_build_task; [|done]. intros k Hk. wp_step.
    apply (wp_command (CAddTask (ac_tenant_id cmd) k now)); [done..| |done].
    intros g g2 g2' db' _ _ _ _ _ Hgood' _. by publish.
  - unfold app_add_dependency. repeat input_step; try done.
    apply (wp_command (CAddDependency t _ _ _ now)); [done..| | |done].
    + split_and!; simpl; eauto using new_branch.
    + intros g g2 g2' db' _ _ _ _ _ Hgood' _. by publish.
  - unfold validate_task_graph. repeat wp_step. apply wp_graph_in_uow. wp_step.
    apply wp_load; [done| |intros e; simpl; by rewrite world_same]. simpl.
    intros g g' Hst Hs _ _ _.
    destruct (validate t TaskGraphValidator_validate now g') as [[[]|e] g2'] eqn:Hrun.
    + wp_step. apply wp_graph_save; [|intros e; simpl; by rewrite world_same]. simpl. intros db' Hsave.
      destruct (call_save_good (CValidate t now) g g' g2' (w_db w) db') as [Hgood' _]; [done..|].
      by publish.
    + destruct e; wp_run; simpl; by rewrite ?world_same.
  - unfold sign_task_graph. repeat input_step; try done.
    apply (wp_command (CSign t _ _ now)); [done..| |done].
    intros g g2 g2' db' _ <- <- Hrun _ Hgood' Hst. wp_step. apply wp_publish_all. intros w1 Hw1.
    wp_step; [|wp_step; by rewrite Hw1]. apply wp_write_ontology. intros w2 Hw2.
    assert (w_db w2 = db') as Hdb by (by rewrite Hw2, Hw1). do 2 (split; [by rewrite Hdb|]). right.
    split; [done|]. eexists _, _, _, _, g2. destruct (run_call_keeps_key _ _ _ Hrun) as (Hid & Htn & _).
    split; [done|]. split; [by rewrite Hdb|]. split_and!; [done..|]. by apply (sign_signs _ _ _ _ _ _ Hrun).
  - unfold activate_task_graph. wp_step. apply (wp_command (CActivate t now)); [done..| |done].
    intros g g2 g2' db' _ _ _ _ _ Hgood' _. by publish.
  - unfold deprecate_task_graph. wp_step. apply (wp_command (CDeprecate t now)); [done..| |done].
    intros g g2 g2' db' _ _ _ _ _ Hgood' _. by publish.
  - unfold get_task_graph. wp_step. apply wp_graph_in_uow. wp_step.
    apply wp_as_uuid; [intros _|intros e; simpl; by rewrite world_same].
    wp_step. apply wp_graph_query; [intros found|intros e; simpl; by rewrite world_same]. by publish.
  - unfold get_execution_order. repeat wp_step. apply wp_graph_in_uow.
    apply wp_load; [done| |intros e; simpl; by rewrite world_same]. simpl. rewrite world_same. intros.
    repeat input_step; try done.
Qed.

Lemma reachable_good w : reachable_world w → good (w_db w).
Proof.
  induction 1 as [|w c now _ IH Hfresh].
  - split; [split; constructor|]. by intros ? []%not_elem_of_nil.
  - pose proof (run_command_good c now w Hfresh IH) as Hwp. unfold wp in Hwp.
    destruct (run_command c now w) as [[a|e] w']; [done|by destruct Hwp].
Qed.
End Service.

(** *** A concrete history: one task, added, validated and signed *)

(** An ontology port that refuses every write. *)
Definition refusing_port : GraphPort := {| graph_port := Some (fun _ => false) |}.

Definition scan_task : AddTaskCommand :=
  mkAddTask acme 7 "OperationTask" " scan " "Required" 10 (Some "T1046") None None None None None None None None
    None false None None.

Definition signing : list (command * datetime) :=
  [(CreateGraph acme "graph" "" 100 7, 0); (AddTask scan_task 1, 1); (ValidateGraph acme 7, 2)].

Definition run_commands `{!RowOrder} `{!GraphPort} (cs : list (command * datetime)) (w : World) : World :=
  foldl (fun w c => (run_command c.1 c.2 w).2) w cs.

(** Every new id is fresh. *)
Fixpoint all_fresh `{!RowOrder} `{!GraphPort} (cs : list (command * datetime)) (w : World) : Prop :=
  match cs with
  | [] => True
  | c :: cs => fresh_id c.1 w ∧ all_fresh cs (run_command c.1 c.2 w).2
  end.

Lemma run_commands_reachable `{!RowOrder} `{!GraphPort} cs w :
  reachable_world w → all_fresh cs w → reachable_world (run_commands cs w).
Proof.
  revert w. induction cs as [|[c now] cs IH]; intros w Hw; [done|]. intros [Hc Hcs].
  apply IH; [by apply rw_command|done].
Qed.

#[local] Existing Instance insertion_order.
#[local] Existing Instance refusing_port.

Definition ready_world : World := run_commands signing empty_world.

Lemma ready_reachable : reachable_world ready_world.
Proof.
  apply run_commands_reachable; [constructor|].
  exact (conj (not_elem_of_nil _) (conj I (conj I I))).
Qed.

Definition ready_row : GraphRow :=
  mkGraphRow 7 acme "graph" "" "Validated" 1 0 0 100 None None None 0 2 3.

Definition ready_graph : TaskGraph :=
  mkTaskGraph 7 acme "graph" "" TaskGraphState.VALIDATED (mkVersion 1 0 0)
    [mkTask 1 TaskType.OPERATION_TASK "scan" TaskCriticality.REQUIRED 10 (Some (mkOperationTemplate "T1046" "" [] 10))
       None None None None None] [] 100 None None None 0 2 3 [].

Lemma ready_rows : tb_graphs (w_db ready_world) = [ready_row].
Proof. vm_compute. reflexivity. Qed.

Lemma ready_found : find_by_id 7 acme (w_db ready_world) = Ok (Some ready_graph).
Proof. vm_compute. reflexivity. Qed.

Definition sign_ready : command := SignGraph acme 7 "alice" "sig".

Lemma sign_ready_raises :
  run_command sign_ready 3 ready_world = (Err GraphPortFailure, (run_command sign_ready 3 ready_world).2).
Proof. vm_compute. reflexivity. Qed.

(** Well-formedness and the checks of the constructors do not see the order. *)
Lemma same_wf a b : same_graph a b → wf a → wf b.
Proof.
  intros Hs [Hids Hdeps Hwin Hver Hsig].
  pose proof (same_unique a b Hs Hids) as Hids'. pose proof (same_task_ids a b Hs) as Hti.
  destruct Hs as [Hf _ Hd]. split; [done| |congruence|congruence|].
  - intros d. rewrite <- Hd, <- Hti. apply Hdeps.
  - replace (state b) with (state a) by congruence. replace (signature b) with (signature a) by congruence.
    replace (signed_by b) with (signed_by a) by congruence. replace (signed_at b) with (signed_at a) by congruence.
    exact Hsig.
Qed.

Lemma same_ok a b : same_graph a b → ok_graph a → ok_graph b.
Proof.
  intros [Hf Ht Hd] [Hid Hv Hts Hds]. split.
  - congruence.
  - by replace (version b) with (version a) by congruence.
  - intros k. rewrite <- Ht. apply Hts.
  - intros d. rewrite <- Hd. apply Hds.
Qed.

(** What a lookup answers in good tables. *)
Lemma good_find `{!RowOrder} db id t : good db →
  ∃ r, find_by_id id t db = Ok r ∧ ∀ g, r = Some g → wf g ∧ ok_graph g.
Proof.
  intros [Hk Hrows]. unfold find_by_id at 1. destruct (find_row db id t) as [row|] eqn:Hr; [|by eexists].
  apply find_row_some in Hr as (Hin & _). destruct (Hrows row Hin) as (g & -> & Hreach & Hok & Hh).
  destruct (holds_find db g Hk Hh Hok) as (g' & Hf & Hs & _).
  unfold find_by_id in Hf. pose proof (find_row_unique db (graph_id g) _ Hk Hin eq_refl) as Hu.
  simpl in Hu. rewrite Hu in Hf. rewrite Hf. eexists. split; [done|]. intros g'' [= <-].
  split; [apply (same_wf g)|apply (same_ok g)]; [by symmetry|by apply reachable_wf|by symmetry|done].
Qed.

(** ** Properties *)

(** What the tables hold is what the aggregate allows: after any sequence
    of commands, failing ones included, every stored graph is found under its
    id and tenant, and what is found is, up to the order of its tasks and
    dependencies, a graph that some sequence of calls of the aggregate leads to
    from its creation. *)
Theorem stored_graphs_are_reachable `{!RowOrder} `{!GraphPort} w row : reachable_world w →
  row ∈ tb_graphs (w_db w) →
  ∃ g g', reachable g ∧ find_by_id (gr_id row) (gr_tenant_id row) (w_db w) = Ok (Some g') ∧ same_graph g' g.
Proof.
  intros Hw Hin. destruct (reachable_good w Hw) as [Hk Hrows].
  destruct (Hrows row Hin) as (g & -> & Hreach & Hok & Hh).
  destruct (holds_find _ g Hk Hh Hok) as (g' & Hf & Hs & _). by exists g, g'.
Qed.

Lemma stored_graphs_are_reachable_witness :
  reachable_world ready_world ∧ ready_row ∈ tb_graphs (w_db ready_world) ∧
  ∃ g g', reachable g ∧ find_by_id 7 acme (w_db ready_world) = Ok (Some g') ∧ same_graph g' g.
Proof.
  assert (ready_row ∈ tb_graphs (w_db ready_world)) as Hin by (rewrite ready_rows; left).
  split; [apply ready_reachable|]. split; [exact Hin|].
  apply (stored_graphs_are_reachable ready_world ready_row ready_reachable Hin).
Defined.

(** C38. The tables stay well typed: after any sequence of commands a lookup
    never fails on a corrupt row, and a graph it answers is well formed and made
    of values the constructors accept: no nil id, a version that is not
    negative, templates, approval configurations, barrier policies, group ids
    and branch conditions that passed their checks. *)
Theorem loaded_graphs_are_well_typed `{!RowOrder} `{!GraphPort} w id t : reachable_world w →
  ∃ r, find_by_id id t (w_db w) = Ok r ∧ ∀ g, r = Some g → wf g ∧ ok_graph g.
Proof. intros Hw. by apply good_find, reachable_good. Qed.

Lemma loaded_graphs_are_well_typed_witness :
  reachable_world ready_world ∧
  ∃ r, find_by_id 7 acme (w_db ready_world) = Ok r ∧ ∀ g, r = Some g → wf g ∧ ok_graph g.
Proof.
  split; [apply ready_reachable|]. apply (loaded_graphs_are_well_typed ready_world 7 acme ready_reachable).
Defined.

(** A command that raises changes nothing: the tables, the published events
    and the ontology are as before.  The one exception is the ontology port:
    when it raises, [sign_task_graph] raises although the signed graph is
    stored. *)
Theorem raising_command_changes_nothing `{!RowOrder} `{!GraphPort} c now w e w' :
  reachable_world w → fresh_id c w → run_command c now w = (Err e, w') →
  w' = w ∨
  e = GraphPortFailure ∧ ∃ t id by_ sig g', c = SignGraph t id by_ sig ∧
    find_by_id id t (w_db w') = Ok (Some g') ∧ state g' = TaskGraphState.SIGNED.
Proof.
  intros Hw Hfresh Hrun. pose proof (run_command_good c now w Hfresh (reachable_good w Hw)) as Hwp.
  destruct (wp_err _ _ _ _ _ _ Hwp Hrun) as [[Hk _] [->|(-> & t & id & b & s & g & -> & Hst & <- & <- & Hsigned)]];
    [by left|right].
  destruct Hst as (_ & Hok & Hh). destruct (holds_find _ g Hk Hh Hok) as (g' & Hf & Hs & _).
  split; [done|]. exists (tenant_id g), (graph_id g), b, s, g'. split_and!; [done..|].
  destruct (same_keys _ _ Hs) as (_ & _ & _ & ->). done.
Qed.

Lemma raising_command_changes_nothing_witness :
  let w' := (run_command sign_ready 3 ready_world).2 in
  reachable_world ready_world ∧ run_command sign_ready 3 ready_world = (Err GraphPortFailure, w') ∧
  (w' = ready_world ∨
   GraphPortFailure = GraphPortFailure ∧ ∃ t id by_ sig g', sign_ready = SignGraph t id by_ sig ∧
     find_by_id id t (w_db w') = Ok (Some g') ∧ state g' = TaskGraphState.SIGNED).
Proof.
  split; [apply ready_reachable|]. split; [apply sign_ready_raises|].
  apply (raising_command_changes_nothing sign_ready 3 ready_world GraphPortFailure _ ready_reachable I sign_ready_raises).
Defined.

(** The execution order of a stored graph is always answered, from any
    start task: no traversal diverges on a graph the tables hold, and the query
    changes nothing. *)
Theorem execution_order_is_answered `{!RowOrder} `{!GraphPort} w t id g (start : option uuid) : reachable_world w →
  id ≠ 0 → start ≠ Some 0 → find_by_id id t (w_db w) = Ok (Some g) →
  ∃ order, get_execution_order t id start w = (Ok order, w).
Proof.
  intros Hw Hid Hstart Hf. destruct (reachable_good w Hw) as [Hk Hrows].
  assert (unique_ids g) as Hu.
  { pose proof Hf as Hf'. unfold find_by_id in Hf'. destruct (find_row _ _ _) as [row|] eqn:Hr; [|done].
    apply find_row_some in Hr as (Hin & <- & <-). destruct (Hrows row Hin) as (g0 & -> & Hreach & Hok & Hh).
    destruct (holds_find _ g0 Hk Hh Hok) as (g1 & Hf1 & Hs & _).
    simpl in Hf. rewrite Hf1 in Hf. simplify_eq.
    apply (same_unique g0 g); [by symmetry|]. apply wf_ids, reachable_wf, Hreach. }
  unfold get_execution_order, in_uow, _load_graph, _as_uuid, query, some_of, mbind, PyM_bind. simpl.
  rewrite (proj2 (Z.eqb_neq _ _) Hid). simpl. rewrite Hf. simpl. rewrite world_same.
  destruct (traversals_end g start Hu) as (_ & [d Hd] & [L HL]).
  destruct start as [s|]; cbn -[resolve _compute_critical_path_duration Z.eqb].
  - assert (s ≠ 0) as Hs by (intros ->; by apply Hstart). rewrite (proj2 (Z.eqb_neq _ _) Hs).
    cbn -[resolve _compute_critical_path_duration]. rewrite HL, Hd. by eexists.
  - rewrite HL, Hd. by eexists.
Qed.

Lemma execution_order_is_answered_witness :
  reachable_world ready_world ∧ find_by_id 7 acme (w_db ready_world) = Ok (Some ready_graph) ∧
  ∃ order, get_execution_order acme 7 (Some 1) ready_world = (Ok order, ready_world).
Proof.
  split; [apply ready_reachable|]. split; [apply ready_found|].
  by apply (execution_order_is_answered ready_world acme 7 ready_graph (Some 1) ready_reachable); [| |apply ready_found].
Defined.
