(* ===== verification/CampaignData.v ===== *)
(** The campaign execution context: enumerations, value objects, entities,
    exceptions and events ([campaignexecution/domain]). *)
From stdpp Require Import base tactics list gmap strings sorting.
From Stdlib Require Import ZArith Lia.
From S2P Require Import Prelude PyTypes.

Local Open Scope Z_scope.

(** ** Enumerations *)

Module ExecutionState.
Inductive t :=
  | INITIALIZING | RUNNING | WAITING_FOR_APPROVAL | PAUSED | ROLLING_BACK
  | COMPLETED | FAILED | ABORTED.
#[export] Instance eq_dec : EqDecision t.
Proof. solve_decision. Defined.
Definition value (x : t) : string :=
  match x with
  | INITIALIZING => "Initializing" | RUNNING => "Running"
  | WAITING_FOR_APPROVAL => "WaitingForApproval" | PAUSED => "Paused"
  | ROLLING_BACK => "RollingBack" | COMPLETED => "Completed"
  | FAILED => "Failed" | ABORTED => "Aborted"
  end.
Definition all : list t :=
  [INITIALIZING; RUNNING; WAITING_FOR_APPROVAL; PAUSED; ROLLING_BACK; COMPLETED; FAILED; ABORTED].
(** [ExecutionState(value)] *)
Definition of_value (s : string) : option t := head (filter (fun x => value x = s) all).
End ExecutionState.
Export (hints) ExecutionState.

Module TaskExecutionState.
Inductive t :=
  | PENDING | READY_TO_DISPATCH | DISPATCHING | RUNNING | COMPLETED | FAILED
  | SKIPPED | ROLLED_BACK | TIMED_OUT.
#[export] Instance eq_dec : EqDecision t.
Proof. solve_decision. Defined.
Definition value (x : t) : string :=
  match x with
  | PENDING => "Pending" | READY_TO_DISPATCH => "ReadyToDispatch"
  | DISPATCHING => "Dispatching" | RUNNING => "Running" | COMPLETED => "Completed"
  | FAILED => "Failed" | SKIPPED => "Skipped" | ROLLED_BACK => "RolledBack"
  | TIMED_OUT => "TimedOut"
  end.
Definition all : list t :=
  [PENDING; READY_TO_DISPATCH; DISPATCHING; RUNNING; COMPLETED; FAILED; SKIPPED; ROLLED_BACK; TIMED_OUT].
(** [TaskExecutionState(value)] *)
Definition of_value (s : string) : option t := head (filter (fun x => value x = s) all).
End TaskExecutionState.
Export (hints) TaskExecutionState.

Module TaskOutcome.
Inductive t := SUCCESS | FAILURE | PARTIAL_SUCCESS | TIMED_OUT | SKIPPED | ABORTED.
#[export] Instance eq_dec : EqDecision t.
Proof. solve_decision. Defined.
Definition value (x : t) : string :=
  match x with
  | SUCCESS => "Success" | FAILURE => "Failure" | PARTIAL_SUCCESS => "PartialSuccess"
  | TIMED_OUT => "TimedOut" | SKIPPED => "Skipped" | ABORTED => "Aborted"
  end.
Definition all : list t := [SUCCESS; FAILURE; PARTIAL_SUCCESS; TIMED_OUT; SKIPPED; ABORTED].
(** [TaskOutcome(value)]: [ValueError] for an unknown value. *)
Definition of_value (s : string) : option t := head (filter (fun x => value x = s) all).
End TaskOutcome.
Export (hints) TaskOutcome.

Module MonitorState.
Inductive t := ACTIVE | ABORTED | RELEASED.
#[export] Instance eq_dec : EqDecision t.
Proof. solve_decision. Defined.
Definition value (x : t) : string :=
  match x with ACTIVE => "Active" | ABORTED => "Aborted" | RELEASED => "Released" end.
Definition all : list t := [ACTIVE; ABORTED; RELEASED].
(** [MonitorState(value)] *)
Definition of_value (s : string) : option t := head (filter (fun x => value x = s) all).
End MonitorState.
Export (hints) MonitorState.

(** ** Identifiers and value objects *)

Abbreviation TaskGraphExecutionId := uuid.
Abbreviation SafetyMonitorId := uuid.
Abbreviation TaskExecutionRecordId := uuid.
Abbreviation CampaignInstanceId := uuid.
Abbreviation CampaignTaskId := uuid.

Record CampaignInstanceRef := mkCampaignInstanceRef {
  instance_id : uuid; campaign_id : uuid; cir_tenant_id : TenantId }.
Record TaskGraphVersionRef := mkTaskGraphVersionRef { graph_id : uuid; version_str : string }.
Record OperationRef := mkOperationRef { operation_id : uuid; op_tenant_id : TenantId }.
Record EngagementRef := mkEngagementRef { engagement_id : uuid; er_tenant_id : TenantId }.

Record PendingApprovalGate := mkPendingApprovalGate {
  pg_task_id : CampaignTaskId;
  gate_created_at : datetime;
  gate_timeout_seconds : Z;
  required_approver_role : string;
  default_on_timeout : string
}.

(** [PendingApprovalGate.is_timed_out] *)
Definition is_timed_out (g : PendingApprovalGate) (now : datetime) : bool :=
  elapsed_at_least now (gate_created_at g) (gate_timeout_seconds g).

Record PolicySnapshot := mkPolicySnapshot {
  max_concurrent_actions : Z;
  auto_abort_on_detection : bool;
  auto_abort_on_objective_failure : bool;
  blast_radius_ceiling : string
}.

(** [ObjectiveStateMap]: objective id to state, in insertion order. *)
Definition ObjectiveStateMap := list (string * string).
Definition osm_get (m : ObjectiveStateMap) (objective_id : string) : option string :=
  dget m objective_id.
Definition osm_set (m : ObjectiveStateMap) (objective_id st : string) : ObjectiveStateMap :=
  dset m objective_id st.

(** [ActiveBranchPath]: an immutable set of task ids. *)
Definition ActiveBranchPath := gset uuid.
Definition with_added (p : ActiveBranchPath) (ids : list uuid) : ActiveBranchPath :=
  p ∪ list_to_set ids.
Definition with_removed (p : ActiveBranchPath) (ids : list uuid) : ActiveBranchPath :=
  p ∖ list_to_set ids.

(** ** Entities *)

Record TaskExecutionRecord := mkRecord {
  record_id : TaskExecutionRecordId;
  rec_task_id : CampaignTaskId;
  rec_state : TaskExecutionState.t;
  outcome : option TaskOutcome.t;
  operation_ref : option OperationRef;
  dispatched_at : option datetime;
  completed_at : option datetime;
  failure_reason : option string;
  is_rollback_task : bool
}.

#[export] Instance TaskExecutionRecord_settable : Settable TaskExecutionRecord := fun r =>
  mkRecord (record_id r) (rec_task_id r) (rec_state r) (outcome r) (operation_ref r)
    (dispatched_at r) (completed_at r) (failure_reason r) (is_rollback_task r).

Definition mark_ready (r : TaskExecutionRecord) : TaskExecutionRecord :=
  r <| rec_state := TaskExecutionState.READY_TO_DISPATCH |>.
Definition mark_dispatching (r : TaskExecutionRecord) : TaskExecutionRecord :=
  r <| rec_state := TaskExecutionState.DISPATCHING |>.
Definition mark_running (op : OperationRef) (at_ : datetime) (r : TaskExecutionRecord) :=
  r <| rec_state := TaskExecutionState.RUNNING |> <| operation_ref := Some op |>
    <| dispatched_at := Some at_ |>.
Definition mark_completed (o : TaskOutcome.t) (at_ : datetime) (r : TaskExecutionRecord) :=
  r <| rec_state := TaskExecutionState.COMPLETED |> <| outcome := Some o |>
    <| completed_at := Some at_ |>.
Definition mark_failed (reason : string) (at_ : datetime) (r : TaskExecutionRecord) :=
  r <| rec_state := TaskExecutionState.FAILED |> <| outcome := Some TaskOutcome.FAILURE |>
    <| failure_reason := Some reason |> <| completed_at := Some at_ |>.
Definition mark_skipped (r : TaskExecutionRecord) : TaskExecutionRecord :=
  r <| rec_state := TaskExecutionState.SKIPPED |> <| outcome := Some TaskOutcome.SKIPPED |>.
Definition mark_timed_out (at_ : datetime) (r : TaskExecutionRecord) :=
  r <| rec_state := TaskExecutionState.TIMED_OUT |> <| outcome := Some TaskOutcome.TIMED_OUT |>
    <| completed_at := Some at_ |>.
Definition mark_rolled_back (op : OperationRef) (at_ : datetime) (r : TaskExecutionRecord) :=
  r <| rec_state := TaskExecutionState.ROLLED_BACK |> <| operation_ref := Some op |>
    <| completed_at := Some at_ |>.

Definition terminal_state (s : TaskExecutionState.t) : bool :=
  match s with
  | TaskExecutionState.COMPLETED | TaskExecutionState.FAILED | TaskExecutionState.SKIPPED
  | TaskExecutionState.ROLLED_BACK | TaskExecutionState.TIMED_OUT => true
  | _ => false
  end.
Definition is_terminal (r : TaskExecutionRecord) : bool := terminal_state (rec_state r).

Definition done_state (s : TaskExecutionState.t) : bool :=
  match s with
  | TaskExecutionState.COMPLETED | TaskExecutionState.FAILED | TaskExecutionState.SKIPPED
  | TaskExecutionState.TIMED_OUT => true
  | _ => false
  end.
Definition is_done (r : TaskExecutionRecord) : bool := done_state (rec_state r).

Record ExecutionTrack := mkTrack { track_id : string; track_task_ids : list CampaignTaskId }.

Record CheckpointRecord := mkCheckpoint {
  checkpoint_task_id : CampaignTaskId;
  cp_objective_states : list (string * string);
  captured_at : datetime
}.

Definition item_le (a b : string * string) : Prop := String.leb a.1 b.1 = true.
#[export] Instance item_le_dec : RelDecision item_le.
Proof. intros a b. unfold item_le. apply _. Defined.

(** [sorted(states.items())]; the keys of a dict are distinct. *)
Definition sorted_items (m : ObjectiveStateMap) : list (string * string) :=
  merge_sort item_le m.

(** ** Exceptions *)

Inductive CampaignExecutionException :=
  | InvalidStateTransition (from_state operation : string) (aggregate_id : uuid)
  | TenantMismatch (expected actual : TenantId)
  | TaskNotFound (id : CampaignTaskId)
  | TaskAlreadyDispatched (id : CampaignTaskId)
  | TaskNotReadyToDispatch (id : CampaignTaskId) (state : string)
  | BarrierNotPassable (barrier : CampaignTaskId) (pending_count : nat)
  | SafetyPolicyViolation (policy_field message : string)
  | ConcurrencyConflict (aggregate_id : uuid)
  | NoApprovalGatePending (execution : uuid)
  | RollbackNotAllowed (state : string)
  | MonitorAutoAbortAlreadyTriggered (monitor : uuid).

(** ** Events *)

Inductive ExecutionEvent :=
  | TaskGraphExecutionInitialized (campaign_instance graph : uuid) (graph_version : string)
      (task_count : nat)
  | ExecutionTrackStarted (track : string) (task_ids : list CampaignTaskId)
  | TaskDispatched (task : CampaignTaskId) (operation campaign_instance : uuid)
  | TaskCompleted (task : CampaignTaskId) (o : TaskOutcome.t) (operation : option uuid)
  | TaskFailed (task : CampaignTaskId) (reason : string) (operation : option uuid)
  | TaskTimedOut (task : CampaignTaskId) (timeout : Z)
  | TaskSkipped (task completed : CampaignTaskId)
  | BarrierPassed (barrier : CampaignTaskId) (task_group : option CampaignTaskId) (count : nat)
  | HumanApprovalGateReached (task : CampaignTaskId) (timeout : Z) (role default : string)
  | HumanApprovalGranted (task : CampaignTaskId) (approver : string)
  | HumanApprovalDenied (task : CampaignTaskId) (approver reason : string)
  | ApprovalGateTimedOutProceeded (task : CampaignTaskId) (timeout : Z)
  | ConditionalBranchResolved (completed : CampaignTaskId) (o : TaskOutcome.t)
      (ready skipped : list CampaignTaskId)
  | EvaluationCheckpointReached (task : CampaignTaskId) (states : list (string * string))
  | RollbackInitiated (reason : string) (count : nat)
  | TaskRolledBack (task : CampaignTaskId) (operation : uuid)
  | RollbackCompleted (count : nat)
  | ExecutionCompleted (campaign_instance : uuid) (completed skipped failed : nat)
  | ExecutionFailed (campaign_instance : uuid) (reason : string)
  | ExecutionAborted (campaign_instance : uuid) (reason : string)
  | SafetyPolicyBreached (breach_type details : string) (auto_abort : bool).

Inductive MonitorEvent :=
  | SafetyMonitorInitialized (campaign_instance : uuid) (max_actions : Z) (on_detection : bool)
  | ConcurrentActionRegistered (operation : string) (count : nat) (ceiling : Z)
  | ConcurrentActionReleased (operation : string) (count : nat)
  | SafetyMonitorAborted (campaign_instance : uuid) (reason : string)
  | SafetyMonitorReleased (campaign_instance : uuid).
