(* ===== verification/TaskGraphExecution.v ===== *)
(** The [TaskGraphExecution] aggregate: the runtime state of a campaign run. *)
From stdpp Require Import base tactics list gmap strings.
From Stdlib Require Import ZArith Lia.
From S2P Require Import Prelude PyTypes CampaignData.

Local Open Scope Z_scope.
Import ExecutionState.

Record TaskGraphExecution := mkExecution {
  execution_id : TaskGraphExecutionId;
  tenant_id : TenantId;
  campaign_instance_ref : CampaignInstanceRef;
  graph_version_ref : TaskGraphVersionRef;
  engagement_ref : EngagementRef;
  policy_snapshot : PolicySnapshot;
  state : ExecutionState.t;
  task_records : list TaskExecutionRecord;
  tracks : list ExecutionTrack;
  checkpoints : list CheckpointRecord;
  objective_states : ObjectiveStateMap;
  pending_approval_gate : option PendingApprovalGate;
  active_branch_path : ActiveBranchPath;
  version : Z;
  pending_events : list (DomainEvent ExecutionEvent)
}.

#[export] Instance TaskGraphExecution_settable : Settable TaskGraphExecution := fun r =>
  mkExecution (execution_id r) (tenant_id r) (campaign_instance_ref r) (graph_version_ref r)
    (engagement_ref r) (policy_snapshot r) (state r) (task_records r) (tracks r)
    (checkpoints r) (objective_states r) (pending_approval_gate r) (active_branch_path r)
    (version r) (pending_events r).

(** ** Helpers *)

Abbreviation M := (PyM TaskGraphExecution CampaignExecutionException).

Definition _ALLOWED_TRANSITIONS (s : ExecutionState.t) : list ExecutionState.t :=
  match s with
  | INITIALIZING => [RUNNING; FAILED]
  | RUNNING => [WAITING_FOR_APPROVAL; PAUSED; COMPLETED; FAILED; ABORTED]
  | WAITING_FOR_APPROVAL => [RUNNING; PAUSED; FAILED; ABORTED]
  | PAUSED => [RUNNING; ROLLING_BACK; ABORTED]
  | ROLLING_BACK => [FAILED; ABORTED]
  | COMPLETED => []
  | FAILED => []
  | ABORTED => []
  end.

Definition pop_events : M (list (DomainEvent ExecutionEvent)) :=
  e ← self;
  modify (fun e => e <| pending_events := [] |>);;
  mret (pending_events e).

(** [_emit]; the events carry the tenant the caller passed. *)
Definition _emit (t : TenantId) (now : datetime) (ev : ExecutionEvent) : M unit :=
  modify (fun e => e <| pending_events ::= fun l => l ++ [mkEvent now t (execution_id e) ev] |>).

Definition _mutate : M unit := modify (fun e => e <| version ::= Z.add 1 |>).

Definition _assert_tenant (t : TenantId) : M unit :=
  e ← self;
  raise_if (bool_decide (t ≠ tenant_id e)) (TenantMismatch (tenant_id e) t).

Definition _transition (to_state : ExecutionState.t) : M unit :=
  e ← self;
  raise_if (bool_decide (to_state ∉ _ALLOWED_TRANSITIONS (state e)))
    (InvalidStateTransition (ExecutionState.value (state e))
       ("→" +:+ ExecutionState.value to_state) (execution_id e));;
  modify (fun e => e <| state := to_state |>).

(** [initialize]; [record_ids] are the generated record ids, one per task. *)
Definition pending_record (rid : TaskExecutionRecordId) (tid : CampaignTaskId) : TaskExecutionRecord :=
  mkRecord rid tid TaskExecutionState.PENDING None None None None None false.

Definition initialize (execution_id : TaskGraphExecutionId) (tenant_id : TenantId)
    (instance : CampaignInstanceRef) (graph : TaskGraphVersionRef) (engagement : EngagementRef)
    (policy : PolicySnapshot) (record_ids : list TaskExecutionRecordId)
    (task_ids : list CampaignTaskId) (now : datetime) : TaskGraphExecution :=
  let execution := mkExecution execution_id tenant_id instance graph engagement policy
    INITIALIZING (zip_with pending_record record_ids task_ids) [] [] [] None ∅ 1 [] in
  (_emit tenant_id now (TaskGraphExecutionInitialized (instance_id instance) (graph_id graph)
     (version_str graph) (length task_ids)) execution).2.

(** [_find_record]: the first record of the task. *)
Definition find_record (l : list TaskExecutionRecord) (id : CampaignTaskId)
    : option TaskExecutionRecord :=
  head (filter (fun r => rec_task_id r = id) l).

Definition _find_record (id : CampaignTaskId) : M TaskExecutionRecord :=
  e ← self;
  match find_record (task_records e) id with
  | Some r => mret r
  | None => raise (TaskNotFound id)
  end.

(** A call of a method of the record [_find_record] returned: the aggregate
    holds the same object, so the first record of the task changes in place. *)
Fixpoint update_first (id : CampaignTaskId) (f : TaskExecutionRecord -> TaskExecutionRecord)
    (l : list TaskExecutionRecord) : list TaskExecutionRecord :=
  match l with
  | [] => []
  | r :: l' => if decide (rec_task_id r = id) then f r :: l' else r :: update_first id f l'
  end.

Definition on_record (id : CampaignTaskId) (f : TaskExecutionRecord -> TaskExecutionRecord)
    : M unit :=
  modify (fun e => e <| task_records ::= update_first id f |>).

(** [try: body  except TaskNotFound: pass] *)
Definition pass_not_found (body : M unit) : M unit := fun e =>
  match body e with
  | (Err (TaskNotFound _), e') => (Ok tt, e')
  | r => r
  end.

Definition get_ready_task_ids (e : TaskGraphExecution) : list CampaignTaskId :=
  map rec_task_id (filter (fun r => rec_state r = TaskExecutionState.READY_TO_DISPATCH) (task_records e)).

Definition get_running_task_ids (e : TaskGraphExecution) : list CampaignTaskId :=
  map rec_task_id (filter (fun r => rec_state r = TaskExecutionState.RUNNING) (task_records e)).

Definition concurrent_action_count (e : TaskGraphExecution) : nat :=
  length (filter (fun r => rec_state r = TaskExecutionState.RUNNING) (task_records e)).

Definition all_tasks_terminal (e : TaskGraphExecution) : bool :=
  forallb is_terminal (task_records e).

(** ** Tasks *)

Definition mark_running (now : datetime) : M unit := _transition RUNNING;; _mutate.

Definition mark_task_ready (t : TenantId) (id : CampaignTaskId) (now : datetime) : M unit :=
  _assert_tenant t;;
  rec ← _find_record id;
  raise_if (bool_decide (rec_state rec ∉ [TaskExecutionState.PENDING]))
    (TaskNotReadyToDispatch id (TaskExecutionState.value (rec_state rec)));;
  on_record id mark_ready;;
  _mutate.

Definition record_task_dispatched (t : TenantId) (id : CampaignTaskId) (op : OperationRef)
    (now : datetime) : M unit :=
  _assert_tenant t;;
  rec ← _find_record id;
  if bool_decide (rec_state rec = TaskExecutionState.RUNNING) then mret tt
  else
    raise_if (bool_decide (rec_state rec ∉ [TaskExecutionState.READY_TO_DISPATCH;
                                            TaskExecutionState.DISPATCHING]))
      (TaskAlreadyDispatched id);;
    on_record id (CampaignData.mark_running op now);;
    _mutate;;
    e ← self;
    _emit t now (TaskDispatched id (operation_id op) (instance_id (campaign_instance_ref e))).

(** The operation id of a record, [None] for the empty string of the source. *)
Definition op_id (rec : TaskExecutionRecord) : option uuid := operation_id <$> operation_ref rec.

(** The loop over [ready_successor_ids]. *)
Definition mark_successors_ready (ids : list CampaignTaskId) : M unit :=
  for_each ids (fun sid => pass_not_found (
    succ ← _find_record sid;
    when (bool_decide (rec_state succ = TaskExecutionState.PENDING)) (on_record sid mark_ready))).

(** The loop over [skipped_successor_ids]. *)
Definition mark_successors_skipped (t : TenantId) (completed : CampaignTaskId) (now : datetime)
    (ids : list CampaignTaskId) : M unit :=
  for_each ids (fun sid => pass_not_found (
    succ ← _find_record sid;
    when (bool_decide (rec_state succ ∈ [TaskExecutionState.PENDING;
                                         TaskExecutionState.READY_TO_DISPATCH]))
      (on_record sid mark_skipped;; _emit t now (TaskSkipped sid completed)))).

Definition record_task_completion (t : TenantId) (id : CampaignTaskId) (o : TaskOutcome.t)
    (now : datetime) (ready skipped : list CampaignTaskId) : M unit :=
  _assert_tenant t;;
  rec ← _find_record id;
  if is_terminal rec then mret tt
  else
    on_record id (mark_completed o now);;
    _mutate;;
    _emit t now (TaskCompleted id o (op_id rec));;
    mark_successors_ready ready;;
    mark_successors_skipped t id now skipped;;
    when (bool_decide (ready ≠ [] ∨ skipped ≠ []))
      (when (bool_decide (ready ≠ []))
         (modify (fun e => e <| active_branch_path ::= fun p => with_added p ready |>));;
       _emit t now (ConditionalBranchResolved id o ready skipped)).

Definition record_task_failure (t : TenantId) (id : CampaignTaskId) (reason : string)
    (now : datetime) : M unit :=
  _assert_tenant t;;
  rec ← _find_record id;
  if is_terminal rec then mret tt
  else
    on_record id (mark_failed reason now);;
    _mutate;;
    _emit t now (TaskFailed id reason (op_id rec)).

Definition record_task_timeout (t : TenantId) (id : CampaignTaskId) (timeout : Z)
    (now : datetime) : M unit :=
  _assert_tenant t;;
  rec ← _find_record id;
  if is_terminal rec then mret tt
  else
    on_record id (mark_timed_out now);;
    _mutate;;
    _emit t now (TaskTimedOut id timeout).

(** The group members that exist and are not done. *)
Definition pending_members (e : TaskGraphExecution) (group : list CampaignTaskId)
    : list CampaignTaskId :=
  filter (fun tid => match find_record (task_records e) tid with
                     | Some r => negb (is_done r)
                     | None => false
                     end = true) group.

Definition evaluate_barrier (t : TenantId) (barrier : CampaignTaskId)
    (group : list CampaignTaskId) (now : datetime) : M unit :=
  _assert_tenant t;;
  e ← self;
  raise_if (bool_decide (pending_members e group ≠ []))
    (BarrierNotPassable barrier (length (pending_members e group)));;
  rec ← _find_record barrier;
  when (bool_decide (rec_state rec = TaskExecutionState.PENDING))
    (on_record barrier mark_ready;;
     _mutate;;
     _emit t now (BarrierPassed barrier (head group) (length group))).

(** ** Approval gates *)

Definition reach_human_approval_gate (t : TenantId) (gate : PendingApprovalGate)
    (now : datetime) : M unit :=
  _assert_tenant t;;
  modify (fun e => e <| pending_approval_gate := Some gate |>);;
  _transition WAITING_FOR_APPROVAL;;
  _mutate;;
  _emit t now (HumanApprovalGateReached (pg_task_id gate) (gate_timeout_seconds gate)
    (required_approver_role gate) (default_on_timeout gate)).

(** [if self.pending_approval_gate is None: raise ...]; then the gate is taken
    out of the aggregate. *)
Definition take_gate : M PendingApprovalGate :=
  e ← self;
  match pending_approval_gate e with
  | None => raise (NoApprovalGatePending (execution_id e))
  | Some gate => modify (fun e => e <| pending_approval_gate := None |>);; mret gate
  end.

Definition grant_human_approval (t : TenantId) (approver : string) (now : datetime) : M unit :=
  _assert_tenant t;;
  gate ← take_gate;
  _find_record (pg_task_id gate);;
  on_record (pg_task_id gate) (mark_completed TaskOutcome.SUCCESS now);;
  _transition RUNNING;;
  _mutate;;
  _emit t now (HumanApprovalGranted (pg_task_id gate) approver).

Definition deny_human_approval (t : TenantId) (approver reason : string) (now : datetime) : M unit :=
  _assert_tenant t;;
  gate ← take_gate;
  _find_record (pg_task_id gate);;
  on_record (pg_task_id gate)
    (mark_failed ("Approval denied by " +:+ approver +:+ ": " +:+ reason) now);;
  _transition PAUSED;;
  _mutate;;
  _emit t now (HumanApprovalDenied (pg_task_id gate) approver reason).

Definition handle_approval_timeout (t : TenantId) (now : datetime) : M string :=
  _assert_tenant t;;
  gate ← take_gate;
  let default := default_on_timeout gate in
  if bool_decide (default = "proceed") then
    _find_record (pg_task_id gate);;
    on_record (pg_task_id gate) (mark_completed TaskOutcome.SUCCESS now);;
    _transition RUNNING;;
    _mutate;;
    _emit t now (ApprovalGateTimedOutProceeded (pg_task_id gate) (gate_timeout_seconds gate));;
    mret default
  else
    _find_record (pg_task_id gate);;
    on_record (pg_task_id gate)
      (mark_failed "Approval gate timed out with default_on_timeout=abort" now);;
    _transition PAUSED;;
    _mutate;;
    mret default.

(** ** Lifecycle *)

(** [if self.state not in allowed: raise InvalidStateTransition(state, operation, id)] *)
Definition require_state (allowed : list ExecutionState.t) (operation : string) : M unit :=
  e ← self;
  raise_if (bool_decide (state e ∉ allowed))
    (InvalidStateTransition (ExecutionState.value (state e)) operation (execution_id e)).

Definition pause (t : TenantId) (reason : string) (now : datetime) : M unit :=
  _assert_tenant t;;
  require_state [RUNNING; WAITING_FOR_APPROVAL] "pause";;
  _transition PAUSED;;
  _mutate.

Definition resume (t : TenantId) (now : datetime) : M unit :=
  _assert_tenant t;;
  require_state [PAUSED] "resume";;
  _transition RUNNING;;
  _mutate.

Definition initiate_rollback (t : TenantId) (reason : string) (count : nat) (now : datetime) : M unit :=
  _assert_tenant t;;
  e ← self;
  raise_if (bool_decide (state e ∉ [PAUSED; FAILED]))
    (RollbackNotAllowed (ExecutionState.value (state e)));;
  _transition ROLLING_BACK;;
  _mutate;;
  _emit t now (RollbackInitiated reason count).

Definition record_task_rolled_back (t : TenantId) (id : CampaignTaskId) (op : OperationRef)
    (now : datetime) : M unit :=
  _assert_tenant t;;
  _find_record id;;
  on_record id (mark_rolled_back op now);;
  _mutate;;
  _emit t now (TaskRolledBack id (operation_id op)).

Definition complete_rollback (t : TenantId) (count : nat) (now : datetime) : M unit :=
  _assert_tenant t;;
  require_state [ROLLING_BACK] "complete_rollback";;
  _transition FAILED;;
  _mutate;;
  _emit t now (RollbackCompleted count).

Definition count_in (states : list TaskExecutionState.t) (e : TaskGraphExecution) : nat :=
  length (filter (fun r => rec_state r ∈ states) (task_records e)).

Definition complete (t : TenantId) (now : datetime) : M unit :=
  _assert_tenant t;;
  require_state [RUNNING] "complete";;
  _transition COMPLETED;;
  _mutate;;
  e ← self;
  _emit t now (ExecutionCompleted (instance_id (campaign_instance_ref e))
    (count_in [TaskExecutionState.COMPLETED] e) (count_in [TaskExecutionState.SKIPPED] e)
    (count_in [TaskExecutionState.FAILED; TaskExecutionState.TIMED_OUT] e)).

Definition fail (t : TenantId) (reason : string) (now : datetime) : M unit :=
  _assert_tenant t;;
  require_state [RUNNING; PAUSED; ROLLING_BACK] "fail";;
  _transition FAILED;;
  _mutate;;
  e ← self;
  _emit t now (ExecutionFailed (instance_id (campaign_instance_ref e)) reason).

(** [abort] assigns the state directly. *)
Definition abort (t : TenantId) (reason : string) (now : datetime) : M unit :=
  _assert_tenant t;;
  e ← self;
  raise_if (bool_decide (state e ∈ [COMPLETED; FAILED; ABORTED]))
    (InvalidStateTransition (ExecutionState.value (state e)) "abort" (execution_id e));;
  modify (fun e => e <| state := ABORTED |>);;
  _mutate;;
  e ← self;
  _emit t now (ExecutionAborted (instance_id (campaign_instance_ref e)) reason).

Definition breach_safety_policy (t : TenantId) (breach_type details : string)
    (now : datetime) : M unit :=
  _assert_tenant t;;
  _emit t now (SafetyPolicyBreached breach_type details true).

Definition start_execution_track (t : TenantId) (track : string) (ids : list CampaignTaskId)
    (now : datetime) : M unit :=
  _assert_tenant t;;
  modify (fun e => e <| tracks ::= fun l => l ++ [mkTrack track ids] |>);;
  _mutate;;
  _emit t now (ExecutionTrackStarted track ids).

Definition record_evaluation_checkpoint (t : TenantId) (id : CampaignTaskId) (now : datetime) : M unit :=
  _assert_tenant t;;
  _find_record id;;
  e ← self;
  let states := sorted_items (objective_states e) in
  modify (fun e => e <| checkpoints ::= fun l => l ++ [mkCheckpoint id states now] |>);;
  _mutate;;
  _emit t now (EvaluationCheckpointReached id states).

(** ** Histories *)

Inductive call :=
  | CMarkRunning (now : datetime)
  | CMarkTaskReady (t : TenantId) (id : CampaignTaskId) (now : datetime)
  | CDispatched (t : TenantId) (id : CampaignTaskId) (op : OperationRef) (now : datetime)
  | CCompletion (t : TenantId) (id : CampaignTaskId) (o : TaskOutcome.t) (now : datetime)
      (ready skipped : list CampaignTaskId)
  | CFailure (t : TenantId) (id : CampaignTaskId) (reason : string) (now : datetime)
  | CTimeout (t : TenantId) (id : CampaignTaskId) (timeout : Z) (now : datetime)
  | CBarrier (t : TenantId) (barrier : CampaignTaskId) (group : list CampaignTaskId) (now : datetime)
  | CReachGate (t : TenantId) (gate : PendingApprovalGate) (now : datetime)
  | CGrant (t : TenantId) (approver : string) (now : datetime)
  | CDeny (t : TenantId) (approver reason : string) (now : datetime)
  | CGateTimeout (t : TenantId) (now : datetime)
  | CPause (t : TenantId) (reason : string) (now : datetime)
  | CResume (t : TenantId) (now : datetime)
  | CInitiateRollback (t : TenantId) (reason : string) (count : nat) (now : datetime)
  | CRolledBack (t : TenantId) (id : CampaignTaskId) (op : OperationRef) (now : datetime)
  | CCompleteRollback (t : TenantId) (count : nat) (now : datetime)
  | CComplete (t : TenantId) (now : datetime)
  | CFail (t : TenantId) (reason : string) (now : datetime)
  | CAbort (t : TenantId) (reason : string) (now : datetime)
  | CBreach (t : TenantId) (breach_type details : string) (now : datetime)
  | CStartTrack (t : TenantId) (track : string) (ids : list CampaignTaskId) (now : datetime)
  | CCheckpoint (t : TenantId) (id : CampaignTaskId) (now : datetime)
  | CPopEvents.

Definition run_call (c : call) : M unit :=
  match c with
  | CMarkRunning now => mark_running now
  | CMarkTaskReady t id now => mark_task_ready t id now
  | CDispatched t id op now => record_task_dispatched t id op now
  | CCompletion t id o now ready skipped => record_task_completion t id o now ready skipped
  | CFailure t id reason now => record_task_failure t id reason now
  | CTimeout t id timeout now => record_task_timeout t id timeout now
  | CBarrier t b group now => evaluate_barrier t b group now
  | CReachGate t gate now => reach_human_approval_gate t gate now
  | CGrant t a now => grant_human_approval t a now
  | CDeny t a r now => deny_human_approval t a r now
  | CGateTimeout t now => handle_approval_timeout t now;; mret tt
  | CPause t r now => pause t r now
  | CResume t now => resume t now
  | CInitiateRollback t r n now => initiate_rollback t r n now
  | CRolledBack t id op now => record_task_rolled_back t id op now
  | CCompleteRollback t n now => complete_rollback t n now
  | CComplete t now => complete t now
  | CFail t r now => fail t r now
  | CAbort t r now => abort t r now
  | CBreach t b d now => breach_safety_policy t b d now
  | CStartTrack t tr ids now => start_execution_track t tr ids now
  | CCheckpoint t id now => record_evaluation_checkpoint t id now
  | CPopEvents => pop_events;; mret tt
  end.

Definition run_calls (cs : list call) (e : TaskGraphExecution) : TaskGraphExecution :=
  foldl (fun e c => (run_call c e).2) e cs.

(** ** Specification *)

Definition terminal : list ExecutionState.t := [COMPLETED; FAILED; ABORTED].

(** Calls that decide on a gate or undo a task. *)
Definition rewrites_terminal (c : call) : bool :=
  match c with
  | CGrant _ _ _ | CDeny _ _ _ _ | CGateTimeout _ _ | CRolledBack _ _ _ _ => true
  | _ => false
  end.

(** The effect of a completion on one record, when each task has one record. *)
Definition completed_record (id : CampaignTaskId) (o : TaskOutcome.t) (now : datetime)
    (ready skipped : list CampaignTaskId) (r : TaskExecutionRecord) : TaskExecutionRecord :=
  if decide (rec_task_id r = id) then mark_completed o now r
  else
    let r1 := if decide (rec_task_id r ∈ ready ∧ rec_state r = TaskExecutionState.PENDING)
              then mark_ready r else r in
    if decide (rec_task_id r ∈ skipped ∧
               rec_state r1 ∈ [TaskExecutionState.PENDING; TaskExecutionState.READY_TO_DISPATCH])
    then mark_skipped r1 else r1.

(** ** Lemmas *)

Lemma find_record_spec l id :
  match find_record l id with
  | Some r => r ∈ l ∧ rec_task_id r = id
  | None => id ∉ map rec_task_id l
  end.
Proof.
  unfold find_record. induction l as [|x l IH]; simpl; [by intros ?%not_elem_of_nil|].
  rewrite filter_cons. case_decide as Hx; simpl.
  - split; [left|done].
  - destruct (head _).
    + destruct IH. split; [by right|done].
    + rewrite not_elem_of_cons. split; [congruence|done].
Qed.

Lemma find_record_in l id r : find_record l id = Some r → id ∈ map rec_task_id l.
Proof.
  intros Hr. pose proof (find_record_spec l id) as Hs. rewrite Hr in Hs. destruct Hs as [? <-].
  apply list_elem_of_fmap. eauto.
Qed.

Lemma find_record_elem l r : NoDup (map rec_task_id l) → r ∈ l → find_record l (rec_task_id r) = Some r.
Proof.
  unfold find_record. induction l as [|x l IH]; simpl; [by intros _ ?%not_elem_of_nil|].
  intros [Hx Hnd]%NoDup_cons [->|Hr]%elem_of_cons.
  - by rewrite filter_cons_True.
  - rewrite filter_cons_False; [by apply IH|]. intros Heq. apply Hx. rewrite Heq.
    apply list_elem_of_fmap. eauto.
Qed.

Lemma update_first_map id f l : NoDup (map rec_task_id l) →
  update_first id f l = map (λ r, if decide (rec_task_id r = id) then f r else r) l.
Proof.
  induction l as [|x l IH]; simpl; [done|]. intros [Hx Hnd]%NoDup_cons.
  case_decide as Hid; f_equal; [|by apply IH].
  rewrite <- (map_id l) at 1. apply map_ext_in. intros y Hy. rewrite decide_False; [done|].
  intros Hy'. apply Hx. rewrite Hid, <- Hy'. apply list_elem_of_fmap. exists y.
  split; [done|by apply list_elem_of_In].
Qed.

(** Updates that keep the task and the record id. *)
Definition keeps_ids (f : TaskExecutionRecord → TaskExecutionRecord) : Prop :=
  ∀ r, rec_task_id (f r) = rec_task_id r ∧ record_id (f r) = record_id r.

Lemma update_first_ids id f l : keeps_ids f →
  map rec_task_id (update_first id f l) = map rec_task_id l ∧
  map record_id (update_first id f l) = map record_id l.
Proof.
  intros Hf. induction l as [|x l [IH1 IH2]]; simpl; [done|].
  case_decide; simpl; [by destruct (Hf x) as [-> ->]|by rewrite IH1, IH2].
Qed.

(** Only the record [_find_record] returns changes. *)
Lemma update_first_other id f l i r : l !! i = Some r →
  find_record l id ≠ Some r → update_first id f l !! i = Some r.
Proof.
  revert i. unfold find_record. induction l as [|x l IH]; intros [|i] Hi Hr; simplify_eq/=;
    rewrite filter_cons in Hr; case_decide; simpl in *; naive_solver.
Qed.

Lemma keeps_ids_marks :
  keeps_ids mark_ready ∧ keeps_ids mark_skipped ∧ (∀ o t, keeps_ids (mark_completed o t)) ∧
  (∀ m t, keeps_ids (mark_failed m t)) ∧ (∀ t, keeps_ids (mark_timed_out t)) ∧
  (∀ op t, keeps_ids (CampaignData.mark_running op t)) ∧ (∀ op t, keeps_ids (mark_rolled_back op t)).
Proof. by split_and!; repeat intros ?. Qed.

(** Rules for the helpers of the aggregate. *)
Lemma wp_find_record id (Q : TaskExecutionRecord → TaskGraphExecution → Prop) X e :
  (∀ r, find_record (task_records e) id = Some r → Q r e) →
  (id ∉ map rec_task_id (task_records e) → X (TaskNotFound id) e) →
  wp (_find_record id) Q X e.
Proof.
  intros HQ HX. unfold _find_record. wp_step. wp_step. cbv beta.
  pose proof (find_record_spec (task_records e) id) as Hs.
  destruct (find_record _ _); [by apply wp_ret, HQ|by apply wp_raise, HX].
Qed.

Lemma wp_pass_not_found (m : M unit) (Q : unit → TaskGraphExecution → Prop) X e :
  wp m Q (λ ex e', match ex with TaskNotFound _ => Q tt e' | _ => X ex e' end) e →
  wp (pass_not_found m) Q X e.
Proof. unfold wp, pass_not_found. destruct (m e) as [[[]|[]] ?]; done. Qed.

Lemma wp_take_gate (Q : PendingApprovalGate → TaskGraphExecution → Prop) X e :
  (∀ g, pending_approval_gate e = Some g → Q g (e <| pending_approval_gate := None |>)) →
  (pending_approval_gate e = None → X (NoApprovalGatePending (execution_id e)) e) →
  wp take_gate Q X e.
Proof.
  intros HQ HX. unfold take_gate. wp_run; [by apply HQ|by apply HX].
Qed.

Ltac exec_step :=
  lazymatch goal with
  | |- wp (_find_record _) _ _ _ => apply wp_find_record; [intros ? ?|intros ?]
  | |- wp take_gate _ _ _ => apply wp_take_gate; [intros ? ?|intros ?]
  | |- wp (pass_not_found _) _ _ _ => apply wp_pass_not_found
  | _ => wp_step
  end; cbv beta.
Ltac unfold_ops :=
  unfold mark_running, mark_task_ready, record_task_dispatched, record_task_completion,
    record_task_failure, record_task_timeout, evaluate_barrier, reach_human_approval_gate,
    grant_human_approval, deny_human_approval, handle_approval_timeout, pause, resume,
    initiate_rollback, record_task_rolled_back, complete_rollback, complete, fail, abort,
    breach_safety_policy, start_execution_track, record_evaluation_checkpoint, pop_events,
    require_state, _assert_tenant, _transition, _mutate, _emit, on_record.
Ltac exec_run := unfold_ops; repeat exec_step.

(** What the successor loops preserve. *)
Section Successors.
Context (I : TaskGraphExecution → Prop).

Lemma wp_successors_ready ids Q X e :
  (∀ sid e r, I e → find_record (task_records e) sid = Some r →
     rec_state r = TaskExecutionState.PENDING →
     I (e <| task_records ::= update_first sid mark_ready |>)) →
  I e → (∀ e', I e' → Q tt e') → wp (mark_successors_ready ids) Q X e.
Proof.
  intros Hstep HI HQ. apply (wp_for_each (fun _ => I)); [done|done|].
  clear e HI. intros sid l e HI. unfold on_record. repeat exec_step; try done.
  guards. by eapply Hstep.
Qed.

Lemma wp_successors_skipped t id now ids Q X e :
  (∀ sid e r, I e → find_record (task_records e) sid = Some r →
     rec_state r ∈ [TaskExecutionState.PENDING; TaskExecutionState.READY_TO_DISPATCH] →
     I (e <| task_records ::= update_first sid mark_skipped |>)) →
  (∀ e ev, I e → I (e <| pending_events ::= fun l => l ++ [mkEvent now t (execution_id e) ev] |>)) →
  I e → (∀ e', I e' → Q tt e') → wp (mark_successors_skipped t id now ids) Q X e.
Proof.
  intros Hstep Hev HI HQ. apply (wp_for_each (fun _ => I)); [done|done|].
  clear e HI. intros sid l e HI. unfold on_record, _emit. repeat exec_step; try done.
  guards. apply Hev. by eapply Hstep.
Qed.
End Successors.

(** A relation between the states before and after that holds however a call
    ends is a property of the state it leaves. *)
Lemma wp_state {A} (P : TaskGraphExecution → Prop) (m : M A) e :
  wp m (λ _, P) (λ _, P) e → P (m e).2.
Proof. unfold wp. by destruct (m e) as [[]]. Qed.

(** Everything the successor loops leave alone. *)
Definition frame (e : TaskGraphExecution) :=
  (execution_id e, tenant_id e, state e, pending_approval_gate e, version e,
   map rec_task_id (task_records e), map record_id (task_records e)).

Lemma frame_state e e' : frame e' = frame e → state e' = state e.
Proof. unfold frame. congruence. Qed.

Lemma frame_update e sid f : keeps_ids f →
  frame (e <| task_records ::= update_first sid f |>) = frame e.
Proof. intros Hf. unfold frame. simpl. by destruct (update_first_ids sid f (task_records e) Hf) as [-> ->]. Qed.

Lemma wp_ready_frame ids Q X e :
  (∀ e', frame e' = frame e → Q tt e') → wp (mark_successors_ready ids) Q X e.
Proof.
  apply (wp_successors_ready (λ e', frame e' = frame e)); [|done].
  intros sid e' r He' _ _. by rewrite frame_update by apply keeps_ids_marks.
Qed.

Lemma wp_skipped_frame t id now ids Q X e :
  (∀ e', frame e' = frame e → Q tt e') → wp (mark_successors_skipped t id now ids) Q X e.
Proof.
  apply (wp_successors_skipped (λ e', frame e' = frame e)); [| |done].
  - intros sid e' r He' _ _. by rewrite frame_update by apply keeps_ids_marks.
  - by intros e' ev <-.
Qed.

Ltac frame_step :=
  lazymatch goal with
  | |- wp (mark_successors_ready _) _ _ _ => apply wp_ready_frame; intros ? ?
  | |- wp (mark_successors_skipped _ _ _ _) _ _ _ => apply wp_skipped_frame; intros ? ?
  | _ => exec_step
  end.
Ltac frame_run := unfold_ops; repeat frame_step.

(** One call is a step of the lifecycle. *)
Definition lifecycle_step (c : call) (s s' : ExecutionState.t) : Prop :=
  s' = s ∨ s' ∈ _ALLOWED_TRANSITIONS s ∨
  (s = INITIALIZING ∧ s' = ABORTED ∧ ∃ t r now, c = CAbort t r now).

Lemma run_call_lifecycle c e : lifecycle_step c (state e) (state (run_call c e).2).
Proof.
  apply (wp_state (λ e', lifecycle_step c (state e) (state e'))).
  destruct c; simpl; frame_run; guards; try (by left).
  all: repeat match goal with H : frame _ = frame _ |- _ => apply frame_state in H; simpl in H end.
  all: try (left; simpl; congruence).
  all: simpl; repeat match goal with H : context [state ?e] |- _ => revert H end; unfold lifecycle_step.
  all: destruct (state _);
    first [intros; right; left; by_compute | intros; right; right; by eauto 10
          | intros Hg1; exfalso; revert Hg1; by_compute
          | intros Hg1 Hg2; exfalso; revert Hg1 Hg2; by_compute].
Qed.

(** The lifecycle of the state machine is closed under the abstract steps. *)
Lemma terminal_no_step c s s' : s ∈ terminal → lifecycle_step c s s' → s' = s.
Proof.
  intros Hs [->|[Hs'|(-> & _)]]; [done| |exfalso; revert Hs; by_compute].
  destruct s; simpl in Hs'; try (by apply not_elem_of_nil in Hs'); exfalso; revert Hs; by_compute.
Qed.

(** Every record that is terminal in [e] is still there, unchanged. *)
Definition keeps_terminal (e e' : TaskGraphExecution) : Prop :=
  ∀ i r, task_records e !! i = Some r → is_terminal r = true → task_records e' !! i = Some r.

Lemma keeps_terminal_update e e' sid f r :
  keeps_terminal e e' → find_record (task_records e') sid = Some r → is_terminal r = false →
  keeps_terminal e (e' <| task_records ::= update_first sid f |>).
Proof.
  intros Hk Hr Ht i x Hx Hxt. simpl. apply update_first_other; [by apply Hk|].
  intros Heq. congruence.
Qed.

Lemma state_not_terminal r l : rec_state r ∈ l → forallb (λ s, negb (terminal_state s)) l = true →
  is_terminal r = false.
Proof.
  intros Hin Hl. rewrite forallb_forall in Hl. apply negb_true_iff, Hl. by apply list_elem_of_In.
Qed.

Lemma wp_ready_terminal e ids Q X e' : keeps_terminal e e' →
  (∀ e'', keeps_terminal e e'' → Q tt e'') → wp (mark_successors_ready ids) Q X e'.
Proof.
  intros Hk HQ. apply (wp_successors_ready (keeps_terminal e)); [|done..].
  intros sid e1 r H1 Hr Hs. eapply keeps_terminal_update; [done..|].
  unfold is_terminal. by rewrite Hs.
Qed.

Lemma wp_skipped_terminal e t id now ids Q X e' : keeps_terminal e e' →
  (∀ e'', keeps_terminal e e'' → Q tt e'') →
  wp (mark_successors_skipped t id now ids) Q X e'.
Proof.
  intros Hk HQ. apply (wp_successors_skipped (keeps_terminal e)); [| |done..].
  - intros sid e1 r H1 Hr Hs. eapply keeps_terminal_update; [done..|].
    by eapply state_not_terminal.
  - done.
Qed.

Lemma run_call_terminal c e : rewrites_terminal c = false → keeps_terminal e (run_call c e).2.
Proof.
  intros Hc. apply (wp_state (keeps_terminal e)).
  assert (keeps_terminal e e) as H0 by (by intros ?).
  destruct c; try done; clear Hc; simpl; unfold_ops;
    repeat first [ exec_step
      | apply (wp_ready_terminal e); [|intros ? ?]
      | apply (wp_skipped_terminal e); [done|intros ? ?] ]; try done.
  all: eapply keeps_terminal_update; [done..|].
  all: guards; try done.
  all: try (eapply state_not_terminal; [by apply dec_stable|done]).
  all: unfold is_terminal; match goal with H : rec_state _ = _ |- _ => by rewrite H end.
Qed.

(** *** The successor loops as maps *)

(** [f] on the records of the listed tasks that are in one of [states]. *)
Definition mark_matching (states : list TaskExecutionState.t)
    (f : TaskExecutionRecord → TaskExecutionRecord) (ids : list CampaignTaskId)
    (r : TaskExecutionRecord) : TaskExecutionRecord :=
  if decide (rec_task_id r ∈ ids ∧ rec_state r ∈ states) then f r else r.

Lemma map_mark_ids states f ids l : keeps_ids f →
  map rec_task_id (map (mark_matching states f ids) l) = map rec_task_id l.
Proof.
  intros Hf. rewrite map_map. apply map_ext. intros r. unfold mark_matching.
  case_decide; [apply Hf|done].
Qed.

(** One more task handled: its record is found in a state of [states]. *)
Lemma mark_matching_found states f ids sid l r :
  NoDup (map rec_task_id l) → keeps_ids f → (∀ x, rec_state (f x) ∉ states) →
  find_record (map (mark_matching states f ids) l) sid = Some r → rec_state r ∈ states →
  update_first sid f (map (mark_matching states f ids) l) =
  map (mark_matching states f (ids ++ [sid])) l.
Proof.
  intros Hnd Hf Hst Hr Hs. rewrite update_first_map by by rewrite map_mark_ids.
  rewrite map_map. apply map_ext_in. intros x Hx%list_elem_of_In.
  pose proof (find_record_spec (map (mark_matching states f ids) l) sid) as Hsp. rewrite Hr in Hsp.
  destruct Hsp as [Hin Hid].
  assert (rec_task_id x = sid → mark_matching states f ids x = r) as Hxr.
  { intros <-. assert (mark_matching states f ids x ∈ map (mark_matching states f ids) l) as Hxin
      by (apply list_elem_of_fmap; eauto).
    apply find_record_elem in Hxin; [|by rewrite map_mark_ids].
    assert (rec_task_id (mark_matching states f ids x) = rec_task_id x) as Hmx.
    { unfold mark_matching. case_decide; [apply Hf|done]. }
    rewrite Hmx in Hxin. congruence. }
  unfold mark_matching in *.
  assert (rec_task_id x ∈ ids ++ [sid] ↔ rec_task_id x ∈ ids ∨ rec_task_id x = sid) as Happ
    by by rewrite elem_of_app, list_elem_of_singleton.
  destruct (decide (rec_task_id x ∈ ids ∧ rec_state x ∈ states)) as [[Hi Hxs]|Hn].
  - destruct (Hf x) as [-> _]. destruct (decide (rec_task_id x = sid)) as [Hx'|Hx'].
    + specialize (Hxr Hx'). subst r. by destruct (Hst x).
    + rewrite decide_True; [done|naive_solver].
  - destruct (decide (rec_task_id x = sid)) as [Hx'|Hx'].
    + specialize (Hxr Hx'). subst r. rewrite decide_True; [done|naive_solver].
    + rewrite decide_False; [done|naive_solver].
Qed.

(** Its record is missing or in another state. *)
Lemma mark_matching_other states f ids sid l :
  NoDup (map rec_task_id l) → keeps_ids f →
  (∀ r, find_record (map (mark_matching states f ids) l) sid = Some r → rec_state r ∉ states) →
  map (mark_matching states f ids) l = map (mark_matching states f (ids ++ [sid])) l.
Proof.
  intros Hnd Hf Hr. apply map_ext_in. intros x Hx%list_elem_of_In.
  destruct (decide (rec_task_id x = sid)) as [<-|Hne].
  - assert (mark_matching states f ids x ∈ map (mark_matching states f ids) l) as Hxin
      by (apply list_elem_of_fmap; eauto).
    apply find_record_elem in Hxin; [|by rewrite map_mark_ids].
    assert (rec_task_id (mark_matching states f ids x) = rec_task_id x) as Hmx.
    { unfold mark_matching. case_decide; [apply Hf|done]. }
    rewrite Hmx in Hxin. specialize (Hr _ Hxin). unfold mark_matching in *.
    assert (rec_task_id x ∈ ids ++ [rec_task_id x] ↔ True) as Happ by set_solver.
    destruct (decide (rec_task_id x ∈ ids ∧ rec_state x ∈ states)).
    + rewrite decide_True; [done|naive_solver].
    + rewrite decide_False; [done|naive_solver].
  - assert (rec_task_id x ∈ ids ++ [sid] ↔ rec_task_id x ∈ ids) as Happ
      by (rewrite elem_of_app, list_elem_of_singleton; naive_solver).
    unfold mark_matching. repeat case_decide; naive_solver.
Qed.

Section LoopMap.
Context (states : list TaskExecutionState.t) (f : TaskExecutionRecord → TaskExecutionRecord)
  (Hf : keeps_ids f) (Hst : ∀ x, rec_state (f x) ∉ states).

(** The loop has handled a prefix of the listed tasks. *)
Definition loop_inv (ids : list CampaignTaskId) (e : TaskGraphExecution)
    (rest : list CampaignTaskId) (e' : TaskGraphExecution) : Prop :=
  ∃ handled, ids = handled ++ rest ∧
    task_records e' = map (mark_matching states f handled) (task_records e) ∧ frame e' = frame e.

Lemma loop_inv_init ids e : loop_inv ids e ids e.
Proof.
  clear Hf Hst. exists []. split_and!; [done| |done]. rewrite <- (map_id (task_records e)) at 1.
  apply map_ext. intros r. unfold mark_matching. rewrite decide_False; [done|]. set_solver.
Qed.

Lemma loop_inv_found ids e sid rest e' r : NoDup (map rec_task_id (task_records e)) →
  loop_inv ids e (sid :: rest) e' → find_record (task_records e') sid = Some r →
  rec_state r ∈ states → loop_inv ids e rest (e' <| task_records ::= update_first sid f |>).
Proof.
  intros Hnd (hd & -> & Hr & Hfr) Hfind Hs. exists (hd ++ [sid]). rewrite <- app_assoc.
  split_and!; [done| |by rewrite frame_update]. simpl. rewrite Hr in *.
  by eapply mark_matching_found.
Qed.

Lemma loop_inv_other ids e sid rest e' : NoDup (map rec_task_id (task_records e)) →
  loop_inv ids e (sid :: rest) e' →
  (∀ r, find_record (task_records e') sid = Some r → rec_state r ∉ states) →
  loop_inv ids e rest e'.
Proof.
  clear Hst. intros Hnd (hd & -> & Hr & Hfr) Hfind. exists (hd ++ [sid]). rewrite <- app_assoc.
  split_and!; [done| |done]. rewrite Hr in *. by apply mark_matching_other.
Qed.
End LoopMap.

Lemma wp_ready_map ids Q X e : NoDup (map rec_task_id (task_records e)) →
  (∀ e', task_records e' =
     map (mark_matching [TaskExecutionState.PENDING] mark_ready ids) (task_records e) →
     frame e' = frame e → Q tt e') →
  wp (mark_successors_ready ids) Q X e.
Proof.
  intros Hnd HQ. apply (wp_for_each (loop_inv [TaskExecutionState.PENDING] mark_ready ids e)).
  - apply loop_inv_init.
  - intros e' (hd & -> & Hr & Hfr). rewrite app_nil_r in HQ. by apply HQ.
  - intros sid rest e' HI. unfold on_record. repeat exec_step; guards.
    + eapply loop_inv_found; [apply keeps_ids_marks|intros x; rewrite list_elem_of_In; simpl; intuition congruence|done..|].
      apply list_elem_of_singleton. done.
    + eapply loop_inv_other; [apply keeps_ids_marks|done..|].
      intros r' Hr'. rewrite list_elem_of_singleton. congruence.
    + eapply loop_inv_other; [apply keeps_ids_marks|done..|]. intros r' Hr'.
      by apply find_record_in in Hr'.
Qed.

Lemma wp_skipped_map t id now ids Q X e : NoDup (map rec_task_id (task_records e)) →
  (∀ e', task_records e' =
     map (mark_matching [TaskExecutionState.PENDING; TaskExecutionState.READY_TO_DISPATCH]
            mark_skipped ids) (task_records e) →
     frame e' = frame e → Q tt e') →
  wp (mark_successors_skipped t id now ids) Q X e.
Proof.
  intros Hnd HQ. apply (wp_for_each (loop_inv
    [TaskExecutionState.PENDING; TaskExecutionState.READY_TO_DISPATCH] mark_skipped ids e)).
  - apply loop_inv_init.
  - intros e' (hd & -> & Hr & Hfr). rewrite app_nil_r in HQ. by apply HQ.
  - intros sid rest e' HI. unfold on_record, _emit. repeat exec_step; guards.
    + assert (loop_inv [TaskExecutionState.PENDING; TaskExecutionState.READY_TO_DISPATCH]
        mark_skipped ids e rest (e' <| task_records ::= update_first sid mark_skipped |>)) as HI'.
      { eapply loop_inv_found; [apply keeps_ids_marks|intros x; by_compute|done..]. }
      destruct HI' as (hd & ? & ? & ?). by exists hd.
    + eapply loop_inv_other; [apply keeps_ids_marks|done..|].
      intros r' Hr'. congruence.
    + eapply loop_inv_other; [apply keeps_ids_marks|done..|]. intros r' Hr'.
      by apply find_record_in in Hr'.
Qed.

Lemma completed_record_maps id o now ready skipped r :
  mark_matching [TaskExecutionState.PENDING; TaskExecutionState.READY_TO_DISPATCH] mark_skipped skipped
    (mark_matching [TaskExecutionState.PENDING] mark_ready ready
      (if decide (rec_task_id r = id) then mark_completed o now r else r)) =
  completed_record id o now ready skipped r.
Proof.
  unfold completed_record, mark_matching. destruct (decide (rec_task_id r = id)) as [<-|Hne].
  - rewrite (decide_False (P := _ ∧ rec_state (mark_completed _ _ _) ∈ [TaskExecutionState.PENDING])).
    + rewrite decide_False; [done|]. intros [_ Hs]. revert Hs. by_compute.
    + intros [_ Hs]. revert Hs. by_compute.
  - assert (rec_state r ∈ [TaskExecutionState.PENDING] ↔ rec_state r = TaskExecutionState.PENDING)
      as Heq by apply list_elem_of_singleton.
    destruct (decide (rec_task_id r ∈ ready ∧ rec_state r ∈ [TaskExecutionState.PENDING])) as [Hr|Hr].
    + rewrite (decide_True (P := rec_task_id r ∈ ready ∧ rec_state r = _)); [done|naive_solver].
    + rewrite (decide_False (P := rec_task_id r ∈ ready ∧ rec_state r = _)); [done|naive_solver].
Qed.

Lemma completion_wp t id o now ready skipped e r :
  t = tenant_id e → NoDup (map rec_task_id (task_records e)) →
  find_record (task_records e) id = Some r → is_terminal r = false →
  wp (record_task_completion t id o now ready skipped)
    (λ _ e', task_records e' = map (completed_record id o now ready skipped) (task_records e) ∧
             version e' = version e + 1 ∧ state e' = state e)
    (λ _ _, False) e.
Proof.
  intros -> Hnd Hfind Hnt. pose proof (find_record_in _ _ _ Hfind).
  unfold_ops. repeat exec_step; guards; try done; try congruence.
  match goal with H : find_record _ _ = Some _, H' : find_record _ _ = Some _ |- _ =>
    rewrite H in H'; injection H' as ->; clear H end.
  apply wp_ready_map; simpl.
  { by destruct (update_first_ids id (mark_completed o now) (task_records e)) as [-> _];
      [apply keeps_ids_marks|]. }
  intros e1 Hr1 Hf1. repeat exec_step. apply wp_skipped_map.
  { unfold frame in Hf1. simpl in Hf1. injection Hf1 as _ _ _ _ _ Hids _. rewrite Hids.
    by destruct (update_first_ids id (mark_completed o now) (task_records e)) as [-> _];
      [apply keeps_ids_marks|]. }
  intros e2 Hr2 Hf2.
  assert (task_records e2 = map (completed_record id o now ready skipped) (task_records e)) as Hrec.
  { rewrite Hr2, Hr1, update_first_map, !map_map by done. apply map_ext.
    intros x. apply completed_record_maps. }
  rewrite Hf1 in Hf2. unfold frame in Hf2. simpl in Hf2. injection Hf2 as _ _ Hst _ Hv _ _.
  repeat exec_step; simpl; (split_and!; [done|lia|done]).
Qed.

(** ** A concrete run: four tasks, the first dispatched *)

Definition acme : TenantId := mkEntityId 1.
Definition demo_policy : PolicySnapshot := mkPolicySnapshot 2 true false "Medium".
Definition demo_op : OperationRef := mkOperationRef 900 acme.

Definition demo_start : TaskGraphExecution :=
  initialize 50 acme (mkCampaignInstanceRef 60 61 acme) (mkTaskGraphVersionRef 7 "1.0.0")
    (mkEngagementRef 70 acme) demo_policy [101; 102; 103; 104] [1; 2; 3; 4] 0.

Definition demo_running : TaskGraphExecution :=
  run_calls [CMarkRunning 1; CMarkTaskReady acme 1 2; CDispatched acme 1 demo_op 3] demo_start.

Definition record_states (e : TaskGraphExecution) : list TaskExecutionState.t :=
  map rec_state (task_records e).

Definition demo_gate : PendingApprovalGate := mkPendingApprovalGate 2 10 60 "lead" "abort".

(** ** Properties *)

(** C13. Every call of the aggregate follows the lifecycle: the execution state
    stays, moves along [_ALLOWED_TRANSITIONS], or is aborted from Initializing
    (which [abort] allows although the table does not). *)
Theorem calls_follow_lifecycle c e :
  let s := state e in let s' := state (run_call c e).2 in
  s' = s ∨ s' ∈ _ALLOWED_TRANSITIONS s ∨
  (s = INITIALIZING ∧ s' = ABORTED ∧ ∃ t r now, c = CAbort t r now).
Proof. apply run_call_lifecycle. Qed.

(** Completed, Failed and Aborted are final: no sequence of calls, whether
    they return or raise, leads out of them. *)
Theorem terminal_execution_stays cs e : state e ∈ terminal → state (run_calls cs e) = state e.
Proof.
  revert e. induction cs as [|c cs IH]; intros e He; simpl; [done|].
  pose proof (terminal_no_step _ _ _ He (run_call_lifecycle c e)) as Heq.
  rewrite IH; [done|by rewrite Heq].
Qed.

Lemma terminal_execution_stays_witness :
  state (run_calls [CComplete acme 5] demo_running) ∈ terminal ∧
  state (run_calls [CResume acme 6; CAbort acme "x" 7; CInitiateRollback acme "r" 1 8]
           (run_calls [CComplete acme 5] demo_running)) =
  state (run_calls [CComplete acme 5] demo_running).
Proof.
  assert (state (run_calls [CComplete acme 5] demo_running) ∈ terminal) as H by by_compute.
  split; [exact H|]. apply (terminal_execution_stays _ _ H).
Defined.

(** The result of a task is final: once a record is terminal, no call other
    than an approval decision or a rollback changes it, and it keeps its place;
    in particular a repeated completion, failure or timeout report is ignored. *)
Theorem terminal_records_final c e i r : rewrites_terminal c = false →
  task_records e !! i = Some r → is_terminal r = true →
  task_records (run_call c e).2 !! i = Some r.
Proof. intros Hc. by apply run_call_terminal. Qed.

Lemma terminal_records_final_witness :
  let e := run_calls [CCompletion acme 1 TaskOutcome.SUCCESS 9 [2] [3]] demo_running in
  record_states e = [TaskExecutionState.COMPLETED; TaskExecutionState.READY_TO_DISPATCH;
                     TaskExecutionState.SKIPPED; TaskExecutionState.PENDING] ∧
  ∃ r, task_records (run_call (CFailure acme 1 "late" 10) e).2 !! 0%nat = Some r.
Proof.
  cbv zeta. split; [vm_compute; reflexivity|]. eexists.
  eapply (terminal_records_final (CFailure acme 1 "late" 10)
    (run_calls [CCompletion acme 1 TaskOutcome.SUCCESS 9 [2] [3]] demo_running) 0);
    vm_compute; reflexivity.
Defined.

(** [record_task_completion] on a task that is not terminal: the task's
    record completes with the outcome; a ready successor becomes
    ReadyToDispatch if it was Pending; a skipped successor becomes Skipped if
    it was Pending or ReadyToDispatch, skipping winning over readiness; every
    other record is unchanged; the version grows by one. *)
Theorem completion_marks_successors t id o now ready skipped e r :
  t = tenant_id e → NoDup (map rec_task_id (task_records e)) →
  find_record (task_records e) id = Some r → is_terminal r = false →
  ∃ e', record_task_completion t id o now ready skipped e = (Ok tt, e') ∧
    task_records e' = map (completed_record id o now ready skipped) (task_records e) ∧
    version e' = version e + 1 ∧ state e' = state e.
Proof.
  intros Ht Hnd Hfind Hnt.
  pose proof (completion_wp t id o now ready skipped e r Ht Hnd Hfind Hnt) as Hwp.
  unfold wp in Hwp. destruct (record_task_completion _ _ _ _ _ _ e) as [[[]|ex] e']; [eauto|done].
Qed.

Lemma completion_marks_successors_witness :
  ∃ e', record_task_completion acme 1 TaskOutcome.SUCCESS 9 [2; 3; 77] [3] demo_running = (Ok tt, e') ∧
    task_records e' = map (completed_record 1 TaskOutcome.SUCCESS 9 [2; 3; 77] [3]) (task_records demo_running) ∧
    version e' = version demo_running + 1 ∧ state e' = state demo_running.
Proof.
  eapply (completion_marks_successors acme 1 TaskOutcome.SUCCESS 9 [2; 3; 77] [3] demo_running);
    [vm_compute; reflexivity|by_compute|vm_compute; reflexivity|vm_compute; reflexivity].
Defined.

(** A barrier opens exactly when every member of its group that exists is
    done: otherwise [evaluate_barrier] raises [BarrierNotPassable] with the
    number of pending members and changes nothing. *)
Theorem barrier_waits_for_group barrier group now e r :
  find_record (task_records e) barrier = Some r →
  rec_state r = TaskExecutionState.PENDING →
  (Forall (λ tid, ∀ m, find_record (task_records e) tid = Some m → is_done m = true) group →
   ∃ e', evaluate_barrier (tenant_id e) barrier group now e = (Ok tt, e') ∧
         task_records e' = update_first barrier mark_ready (task_records e)) ∧
  (¬ Forall (λ tid, ∀ m, find_record (task_records e) tid = Some m → is_done m = true) group →
   evaluate_barrier (tenant_id e) barrier group now e =
   (Err (BarrierNotPassable barrier (length (pending_members e group))), e)).
Proof.
  intros Hr Hp.
  assert (pending_members e group = [] ↔
    Forall (λ tid, ∀ m, find_record (task_records e) tid = Some m → is_done m = true) group) as Hpm.
  { unfold pending_members. rewrite Forall_forall. split.
    - intros Hnil tid Ht m Hm. destruct (is_done m) eqn:Hd; [done|]. exfalso.
      apply (not_elem_of_nil tid). rewrite <- Hnil. apply list_elem_of_filter.
      by rewrite Hm, Hd.
    - intros Hall. apply not_elem_nil. intros tid [Ht Hin]%list_elem_of_filter.
      destruct (find_record _ tid) eqn:Hm; [|done]. by rewrite (Hall tid Hin _ Hm) in Ht. }
  rewrite <- Hpm. unfold evaluate_barrier, _assert_tenant, raise_if, self, mret, PyM_ret, mbind, PyM_bind.
  rewrite bool_decide_eq_false_2 by auto. split; intros Hn.
  - rewrite bool_decide_eq_false_2 by auto. unfold _find_record, self, mbind, PyM_bind. rewrite Hr.
    unfold mret, PyM_ret, when. rewrite bool_decide_eq_true_2 by done. by eexists.
  - by rewrite bool_decide_eq_true_2.
Qed.

Lemma barrier_waits_for_group_witness :
  evaluate_barrier acme 4 [1; 2] 9 demo_running = (Err (BarrierNotPassable 4 2), demo_running) ∧
  (¬ Forall (λ tid, ∀ m, find_record (task_records demo_running) tid = Some m → is_done m = true) [1; 2] →
   evaluate_barrier (tenant_id demo_running) 4 [1; 2] 9 demo_running =
   (Err (BarrierNotPassable 4 (length (pending_members demo_running [1; 2]))), demo_running)).
Proof.
  split; [vm_compute; reflexivity|].
  eapply (barrier_waits_for_group 4 [1; 2] 9 demo_running); vm_compute; reflexivity.
Defined.

(** Two guards promise what the transition table forbids: a rollback of a
    Failed execution and a failure of a Paused execution always raise
    [InvalidStateTransition] from [_transition], and change nothing. *)
Theorem guards_beyond_table e t reason n now : t = tenant_id e →
  (state e = FAILED → initiate_rollback t reason n now e =
     (Err (InvalidStateTransition "Failed" "→RollingBack" (execution_id e)), e)) ∧
  (state e = PAUSED → fail t reason now e =
     (Err (InvalidStateTransition "Paused" "→Failed" (execution_id e)), e)).
Proof.
  intros ->. unfold initiate_rollback, fail, require_state, _assert_tenant, _transition, raise_if, self.
  unfold mret, PyM_ret, mbind, PyM_bind.
  rewrite (bool_decide_eq_false_2 (tenant_id e ≠ tenant_id e)) by auto.
  split; intros Hs; destruct e; simpl in Hs; subst; reflexivity.
Qed.

Lemma guards_beyond_table_witness :
  let e := run_calls [CPause acme "p" 4] demo_running in
  state e = PAUSED ∧ fail acme "x" 5 e = (Err (InvalidStateTransition "Paused" "→Failed" 50), e).
Proof.
  cbv zeta. split; [vm_compute; reflexivity|].
  apply (guards_beyond_table (run_calls [CPause acme "p" 4] demo_running) acme "x" 0 5);
    vm_compute; reflexivity.
Defined.

(** A decision on an approval gate is not bound to WaitingForApproval: the
    gate survives a pause, granting it then puts the paused execution back to
    Running without [resume], and denying it raises although the task's record
    in memory is already failed. *)
Theorem gate_decision_while_paused t now approver reason e g r :
  t = tenant_id e → state e = PAUSED → pending_approval_gate e = Some g →
  find_record (task_records e) (pg_task_id g) = Some r →
  (∃ e', grant_human_approval t approver now e = (Ok tt, e') ∧ state e' = RUNNING) ∧
  (∃ e', deny_human_approval t approver reason now e =
     (Err (InvalidStateTransition "Paused" "→Paused" (execution_id e)), e') ∧
     pending_approval_gate e' = None ∧ state e' = PAUSED).
Proof.
  intros -> Hs Hg Hr.
  unfold grant_human_approval, deny_human_approval, take_gate, _assert_tenant, _find_record, on_record.
  unfold raise_if, self, modify, mret, PyM_ret, mbind, PyM_bind.
  rewrite (bool_decide_eq_false_2 (tenant_id e ≠ tenant_id e)) by auto. rewrite Hg. simpl. rewrite Hr.
  unfold _transition, raise_if, self, modify, mret, PyM_ret, mbind, PyM_bind, raise. simpl. rewrite Hs.
  split; eexists; (split; [reflexivity|]); simpl; [done|by rewrite Hs].
Qed.

Lemma gate_decision_while_paused_witness :
  let e := run_calls [CReachGate acme demo_gate 10; CPause acme "p" 11] demo_running in
  state e = PAUSED ∧
  ∃ e', grant_human_approval acme "bob" 12 e = (Ok tt, e') ∧ state e' = RUNNING.
Proof.
  cbv zeta. split; [vm_compute; reflexivity|].
  eapply (gate_decision_while_paused acme 12 "bob" ""
    (run_calls [CReachGate acme demo_gate 10; CPause acme "p" 11] demo_running) demo_gate);
    vm_compute; reflexivity.
Defined.
