(* ===== verification/SafetyMonitor.v ===== *)
(** The [CampaignSafetyMonitor] aggregate: the ceiling on concurrent actions and
    the irreversible auto-abort. *)
From stdpp Require Import base tactics list gmap strings.
From Stdlib Require Import ZArith Lia.
From S2P Require Import Prelude PyTypes CampaignData.

Local Open Scope Z_scope.

Record CampaignSafetyMonitor := mkMonitor {
  monitor_id : SafetyMonitorId;
  mon_tenant_id : TenantId;
  mon_instance_ref : CampaignInstanceRef;
  mon_policy : PolicySnapshot;
  monitor_state : MonitorState.t;
  auto_abort_triggered : bool;
  active_operation_ids : list string;
  mon_version : Z;
  mon_events : list (DomainEvent MonitorEvent)
}.

#[export] Instance CampaignSafetyMonitor_settable : Settable CampaignSafetyMonitor := fun r =>
  mkMonitor (monitor_id r) (mon_tenant_id r) (mon_instance_ref r) (mon_policy r)
    (monitor_state r) (auto_abort_triggered r) (active_operation_ids r) (mon_version r)
    (mon_events r).

Abbreviation M := (PyM CampaignSafetyMonitor CampaignExecutionException).

Definition mon_emit (t : TenantId) (now : datetime) (ev : MonitorEvent) : M unit :=
  modify (fun m => m <| mon_events ::= fun l => l ++ [mkEvent now t (monitor_id m) ev] |>).

Definition mon_pop_events : M (list (DomainEvent MonitorEvent)) :=
  m ← self;
  modify (fun m => m <| mon_events := [] |>);;
  mret (mon_events m).

Definition mon_mutate : M unit := modify (fun m => m <| mon_version ::= Z.add 1 |>).

Definition mon_assert_tenant (t : TenantId) : M unit :=
  m ← self;
  raise_if (bool_decide (t ≠ mon_tenant_id m)) (TenantMismatch (mon_tenant_id m) t).

Definition create (id : SafetyMonitorId) (t : TenantId) (instance : CampaignInstanceRef)
    (policy : PolicySnapshot) (now : datetime) : CampaignSafetyMonitor :=
  let monitor := mkMonitor id t instance policy MonitorState.ACTIVE false [] 1 [] in
  (mon_emit t now (SafetyMonitorInitialized (instance_id instance)
     (max_concurrent_actions policy) (auto_abort_on_detection policy)) monitor).2.

Definition register_action (t : TenantId) (op : string) (now : datetime) : M unit :=
  mon_assert_tenant t;;
  m ← self;
  raise_if (auto_abort_triggered m) (MonitorAutoAbortAlreadyTriggered (monitor_id m));;
  raise_if (bool_decide (monitor_state m ≠ MonitorState.ACTIVE))
    (SafetyPolicyViolation "monitor_state" "Safety monitor is not active");;
  if bool_decide (op ∈ active_operation_ids m) then mret tt
  else
    let ceiling := max_concurrent_actions (mon_policy m) in
    raise_if (ceiling <=? Z.of_nat (length (active_operation_ids m)))
      (SafetyPolicyViolation "max_concurrent_actions"
         ("Would exceed ceiling of " +:+ str_int ceiling +:+ " concurrent actions"));;
    modify (fun m => m <| active_operation_ids ::= fun l => l ++ [op] |>);;
    mon_mutate;;
    m ← self;
    mon_emit t now (ConcurrentActionRegistered op (length (active_operation_ids m)) ceiling).

(** [list.remove]: the first occurrence. *)
Fixpoint remove_op (op : string) (l : list string) : list string :=
  match l with
  | [] => []
  | x :: l' => if decide (x = op) then l' else x :: remove_op op l'
  end.

Definition release_action (t : TenantId) (op : string) (now : datetime) : M unit :=
  mon_assert_tenant t;;
  m ← self;
  if bool_decide (op ∉ active_operation_ids m) then mret tt
  else
    modify (fun m => m <| active_operation_ids ::= remove_op op |>);;
    mon_mutate;;
    m ← self;
    mon_emit t now (ConcurrentActionReleased op (length (active_operation_ids m))).

Definition trigger_auto_abort_on_detection (t : TenantId) (detail : string) (now : datetime) : M unit :=
  mon_assert_tenant t;;
  m ← self;
  if negb (auto_abort_on_detection (mon_policy m)) then mret tt
  else if auto_abort_triggered m then mret tt
  else
    modify (fun m => m <| auto_abort_triggered := true |>);;
    modify (fun m => m <| monitor_state := MonitorState.ABORTED |>);;
    mon_mutate;;
    mon_emit t now (SafetyMonitorAborted (instance_id (mon_instance_ref m))
      ("auto_abort_on_detection: " +:+ detail)).

Definition release (t : TenantId) (now : datetime) : M unit :=
  mon_assert_tenant t;;
  modify (fun m => m <| monitor_state := MonitorState.RELEASED |>);;
  modify (fun m => m <| active_operation_ids := [] |>);;
  mon_mutate;;
  m ← self;
  mon_emit t now (SafetyMonitorReleased (instance_id (mon_instance_ref m))).

(** ** Histories *)

Inductive call :=
  | CRegister (t : TenantId) (op : string) (now : datetime)
  | CReleaseAction (t : TenantId) (op : string) (now : datetime)
  | CAutoAbort (t : TenantId) (detail : string) (now : datetime)
  | CRelease (t : TenantId) (now : datetime)
  | CPopEvents.

Definition run_call (c : call) : M unit :=
  match c with
  | CRegister t op now => register_action t op now
  | CReleaseAction t op now => release_action t op now
  | CAutoAbort t d now => trigger_auto_abort_on_detection t d now
  | CRelease t now => release t now
  | CPopEvents => mon_pop_events;; mret tt
  end.

Definition run_calls (cs : list call) (m : CampaignSafetyMonitor) : CampaignSafetyMonitor :=
  foldl (fun m c => (run_call c m).2) m cs.

(** ** Specification *)

(** The monitor as its contract describes it: the set of running operations,
    whether new ones are admitted, and the ceiling. *)
Record AbstractMonitor := mkAbstract {
  am_running : gset string;
  am_admitting : bool;
  am_aborted : bool;
  am_ceiling : Z;
  am_detects : bool
}.

Definition abstract (m : CampaignSafetyMonitor) : AbstractMonitor :=
  mkAbstract (list_to_set (active_operation_ids m))
    (bool_decide (monitor_state m = MonitorState.ACTIVE)) (auto_abort_triggered m)
    (max_concurrent_actions (mon_policy m)) (auto_abort_on_detection (mon_policy m)).

(** The steps the contract allows. *)
Inductive abstract_step : AbstractMonitor → AbstractMonitor → Prop :=
  | AStay a : abstract_step a a
  | ARegister R c d op : Z.of_nat (size R) < c → op ∉ R →
      abstract_step (mkAbstract R true false c d) (mkAbstract ({[op]} ∪ R) true false c d)
  | AFinish R ad ab c d op : op ∈ R →
      abstract_step (mkAbstract R ad ab c d) (mkAbstract (R ∖ {[op]}) ad ab c d)
  | AAbort R ad c : abstract_step (mkAbstract R ad false c true) (mkAbstract R false true c true)
  | AReset R ad ab c d :
      abstract_step (mkAbstract R ad ab c d) (mkAbstract ∅ false ab c d).

Record wf (m : CampaignSafetyMonitor) : Prop := {
  wf_nodup : NoDup (active_operation_ids m);
  wf_ceiling : Z.of_nat (length (active_operation_ids m)) ≤ Z.max 0 (max_concurrent_actions (mon_policy m));
  wf_aborted : auto_abort_triggered m = true → monitor_state m ≠ MonitorState.ACTIVE
}.

(** ** Lemmas *)

Ltac unfold_ops :=
  unfold register_action, release_action, trigger_auto_abort_on_detection, release,
    mon_pop_events, mon_assert_tenant, mon_mutate, mon_emit.

Lemma elem_of_remove_op op x l : NoDup l → x ∈ remove_op op l ↔ x ∈ l ∧ x ≠ op.
Proof.
  induction l as [|y l IH]; simpl; [set_solver|]. intros [Hy Hnd]%NoDup_cons.
  case_decide as Hyo; [|rewrite !elem_of_cons, IH by done; naive_solver].
  subst. rewrite elem_of_cons. naive_solver.
Qed.

Lemma sublist_remove_op op l : sublist (remove_op op l) l.
Proof. induction l as [|y l IH]; simpl; [constructor|]. case_decide; by constructor. Qed.

Lemma mon_run_call_wf c : keeps wf (run_call c).
Proof.
  intros m [Hnd Hce Hab]. destruct c; simpl; unfold_ops; wp_run; guards; try done.
  all: split; simpl; try done.
  all: repeat match goal with H : (_ <=? _) = false |- _ => apply Z.leb_gt in H end.
  - apply NoDup_app. split_and!; [done| |apply NoDup_singleton].
    by intros x Hx ->%list_elem_of_singleton.
  - rewrite length_app. simpl. lia.
  - eapply sublist_NoDup; [done|apply sublist_remove_op].
  - pose proof (sublist_length _ _ (sublist_remove_op op (active_operation_ids m))). lia.
  - intros _. by apply Hab.
  - constructor.
  - lia.
Qed.

Lemma mon_run_call_atomic c : atomic (run_call c).
Proof. intros m. destruct c; simpl; unfold_ops; wp_run; done. Qed.

Lemma run_call_refines c m : wf m → abstract_step (abstract m) (abstract (run_call c m).2).
Proof.
  intros [Hnd Hce Hab].
  cut (wp (run_call c) (λ _ m', abstract_step (abstract m) (abstract m'))
                       (λ _ m', abstract_step (abstract m) (abstract m')) m).
  { unfold wp. by destruct (run_call c m) as [[]]. }
  destruct c; simpl; unfold_ops; wp_run; guards; try apply AStay; unfold abstract; simpl.
  - match goal with H : auto_abort_triggered m = false |- _ => rewrite H end.
    match goal with H : ¬ (monitor_state m ≠ _) |- _ => apply dec_stable in H; rewrite H end.
    rewrite bool_decide_eq_true_2 by done.
    rewrite list_to_set_app_L, (union_comm_L (list_to_set _)). simpl. rewrite union_empty_r_L.
    apply ARegister; [|by rewrite elem_of_list_to_set].
    rewrite size_list_to_set by done. by apply Z.leb_gt.
  - match goal with H : ¬ (op ∉ _) |- _ => apply dec_stable in H end.
    replace (list_to_set (remove_op op (active_operation_ids m)) : gset string)
      with (list_to_set (active_operation_ids m) ∖ {[op]} : gset string); [apply AFinish; by rewrite elem_of_list_to_set|].
    apply set_eq. intros x. rewrite elem_of_difference, !elem_of_list_to_set, elem_of_remove_op by done.
    by rewrite elem_of_singleton.
  - match goal with H : auto_abort_triggered m = false |- _ => rewrite H end.
    match goal with H : auto_abort_on_detection _ = true |- _ => rewrite H end.
    apply AAbort.
  - apply AReset.
Qed.

Lemma mon_create_wf id t i p now : wf (create id t i p now).
Proof. split; simpl; [constructor|lia|done]. Qed.

Lemma mon_run_calls_wf cs m : wf m → wf (run_calls cs m).
Proof.
  revert m. induction cs as [|c cs IH]; intros m Hm; simpl; [done|].
  apply IH, (keeps_state wf _ _ (mon_run_call_wf c) Hm).
Qed.

(** Every state the contract reaches from the first one. *)
Lemma run_calls_refines cs m : wf m → rtc abstract_step (abstract m) (abstract (run_calls cs m)).
Proof.
  revert m. induction cs as [|c cs IH]; intros m Hm; simpl; [apply rtc_refl|].
  eapply rtc_l; [by apply run_call_refines|]. apply IH, (keeps_state wf _ _ (mon_run_call_wf c) Hm).
Qed.

(** The policy never changes, and an auto-abort is never undone. *)
Lemma run_call_frozen c m :
  let m' := (run_call c m).2 in
  mon_policy m' = mon_policy m ∧ (auto_abort_triggered m = true → auto_abort_triggered m' = true).
Proof.
  cut (wp (run_call c)
    (λ _ m', mon_policy m' = mon_policy m ∧ (auto_abort_triggered m = true → auto_abort_triggered m' = true))
    (λ _ m', mon_policy m' = mon_policy m ∧ (auto_abort_triggered m = true → auto_abort_triggered m' = true)) m).
  { unfold wp. by destruct (run_call c m) as [[]]. }
  destruct c; simpl; unfold_ops; wp_run; done.
Qed.

Lemma run_calls_frozen cs m :
  mon_policy (run_calls cs m) = mon_policy m ∧
  (auto_abort_triggered m = true → auto_abort_triggered (run_calls cs m) = true).
Proof.
  revert m. induction cs as [|c cs IH]; intros m; simpl; [done|].
  destruct (run_call_frozen c m) as [Hp Ha]. destruct (IH (run_call c m).2) as [Hp' Ha'].
  split; [congruence|auto].
Qed.

(** ** A concrete monitor, with a ceiling of two *)

Definition acme : TenantId := mkEntityId 1.
Definition demo_monitor : CampaignSafetyMonitor :=
  create 80 acme (mkCampaignInstanceRef 60 61 acme) (mkPolicySnapshot 2 true false "Medium") 0.

(** ** Properties *)


(** Auto-abort is irreversible: once it is triggered, no sequence of calls
    clears it, and every later registration raises and changes nothing. *)
Theorem auto_abort_irreversible m cs op now : auto_abort_triggered m = true →
  let m' := run_calls cs m in
  auto_abort_triggered m' = true ∧
  register_action (mon_tenant_id m') op now m' =
    (Err (MonitorAutoAbortAlreadyTriggered (monitor_id m')), m').
Proof.
  cbv zeta. intros Ha. destruct (run_calls_frozen cs m) as [_ Hf]. specialize (Hf Ha).
  split; [done|]. unfold register_action, mon_assert_tenant, raise_if, self, mret, PyM_ret, mbind, PyM_bind.
  rewrite bool_decide_eq_false_2 by auto. by rewrite Hf.
Qed.

Lemma auto_abort_irreversible_witness :
  let m := run_calls [CRegister acme "a" 1; CAutoAbort acme "edr" 2] demo_monitor in
  auto_abort_triggered m = true ∧
  register_action acme "b" 4 (run_calls [CRelease acme 3] m) =
    (Err (MonitorAutoAbortAlreadyTriggered 80), run_calls [CRelease acme 3] m).
Proof.
  cbv zeta. split; [vm_compute; reflexivity|].
  apply (auto_abort_irreversible (run_calls [CRegister acme "a" 1; CAutoAbort acme "edr" 2] demo_monitor)
    [CRelease acme 3] "b" 4). vm_compute. reflexivity.
Defined.
