(* ===== verification/CampaignServices.v ===== *)
(** The domain services of campaign execution: branch resolution, rollback
    plans, task dispatch through the operation port, and the pause coordinator. *)
From stdpp Require Import base tactics list gmap strings sorting.
From Stdlib Require Import ZArith Lia.
From S2P Require Import Prelude PyTypes TaskGraphServices CampaignData TaskGraphExecution.

Local Open Scope Z_scope.

(** ** BranchResolutionService *)

(** [_evaluate_predicate] *)
Definition _evaluate_predicate (predicate : string) (o : TaskOutcome.t)
    (objective_ref : option string) (objectives : ObjectiveStateMap) : bool :=
  if bool_decide (predicate = "AlwaysExecute") then true
  else if bool_decide (predicate = "ExecuteOnSuccess") then
    bool_decide (o ∈ [TaskOutcome.SUCCESS; TaskOutcome.PARTIAL_SUCCESS])
  else if bool_decide (predicate = "ExecuteOnFailure") then
    bool_decide (o ∈ [TaskOutcome.FAILURE; TaskOutcome.TIMED_OUT])
  else if bool_decide (predicate = "ExecuteIfObjectiveMet") then
    match objective_ref with
    | Some r => if empty_str r then false else bool_decide (osm_get objectives r = Some "Achieved")
    | None => false
    end
  else if bool_decide (predicate = "ExecuteIfObjectiveFailed") then
    match objective_ref with
    | Some r => if empty_str r then false
                else bool_decide (osm_get objectives r ∈ [Some "Failed"; Some "Inconclusive"])
    | None => false
    end
  else if bool_decide (predicate = "ExecuteIfDetectionFired") then true
  else if bool_decide (predicate = "ExecuteIfDetectionSilent") then true
  else true.

(** A successor of a task: its id, the predicate and the objective. *)
Record Successor := mkSuccessor {
  succ_id : CampaignTaskId; succ_predicate : string; succ_objective : option string }.

(** [resolve]: the loop appends each successor to [ready] or [skipped]. *)
Fixpoint resolve_loop (o : TaskOutcome.t) (objectives : ObjectiveStateMap)
    (successors : list Successor) (ready skipped : list CampaignTaskId)
    : list CampaignTaskId * list CampaignTaskId :=
  match successors with
  | [] => (ready, skipped)
  | s :: rest =>
      if _evaluate_predicate (succ_predicate s) o (succ_objective s) objectives
      then resolve_loop o objectives rest (ready ++ [succ_id s]) skipped
      else resolve_loop o objectives rest ready (skipped ++ [succ_id s])
  end.

Definition branch_resolve (o : TaskOutcome.t) (successors : list Successor)
    (objectives : ObjectiveStateMap) : list CampaignTaskId * list CampaignTaskId :=
  resolve_loop o objectives successors [] [].

(** ** TaskDispatchService *)

Record TaskDispatchRequest := mkDispatchRequest {
  dr_campaign_instance_id : string;
  dr_task_id : string;
  dr_technique_id : string;
  dr_technique_name : string;
  dr_parameters : list (string * string);
  dr_engagement_id : string;
  dr_tenant_id : TenantId
}.

(** [IOperationCreationPort]: the port may fail; its contract is to return the
    same operation for the same campaign instance and task. *)
Class OperationCreationPort := {
  create_operation : TaskDispatchRequest → option OperationRef;
  create_operation_idempotent : ∀ r1 r2,
    dr_campaign_instance_id r1 = dr_campaign_instance_id r2 → dr_task_id r1 = dr_task_id r2 →
    dr_tenant_id r1 = dr_tenant_id r2 → create_operation r1 = create_operation r2
}.

(** [dispatch] *)
Definition dispatch_request (t : TenantId) (instance : CampaignInstanceId) (task : CampaignTaskId)
    (technique_id technique_name : string) (parameters : list (string * string))
    (engagement : EngagementRef) : TaskDispatchRequest :=
  mkDispatchRequest (str_uuid instance) (str_uuid task) technique_id technique_name parameters
    (str_uuid (engagement_id engagement)) t.

Definition dispatch `{OperationCreationPort} (t : TenantId) (instance : CampaignInstanceId)
    (task : CampaignTaskId) (technique_id technique_name : string)
    (parameters : list (string * string)) (engagement : EngagementRef) : option OperationRef :=
  create_operation
    (dispatch_request t instance task technique_id technique_name parameters engagement).

(** ** RollbackExecutor *)

(** The sort key [completed_at or dispatched_at or task_id.value]. *)
Definition rollback_key (r : TaskExecutionRecord) : datetime + uuid :=
  match completed_at r, dispatched_at r with
  | Some c, _ => inl c
  | None, Some d => inl d
  | None, None => inr (rec_task_id r)
  end.

(** Ordering two keys: a datetime and a UUID do not compare ([TypeError]). *)
Definition comparable (a b : datetime + uuid) : bool :=
  match a, b with inl _, inl _ => true | inr _, inr _ => true | _, _ => false end.

Definition key_le (a b : datetime + uuid) : bool :=
  match a, b with inl x, inl y => x <=? y | inr x, inr y => x <=? y | _, _ => false end.

(** [sorted(records, key=...)] is stable. *)
Fixpoint insert_by_key (r : TaskExecutionRecord) (l : list TaskExecutionRecord)
    : list TaskExecutionRecord :=
  match l with
  | [] => [r]
  | x :: l' => if key_le (rollback_key r) (rollback_key x) then r :: l else x :: insert_by_key r l'
  end.

Definition sorted_by_key (l : list TaskExecutionRecord) : list TaskExecutionRecord :=
  foldr insert_by_key [] l.

(** [compute_rollback_plan]; [None] is the [TypeError] of the sort. *)
Definition compute_rollback_plan (e : TaskGraphExecution) (eligible : list CampaignTaskId)
    : option (list TaskExecutionRecord) :=
  let completed := filter (fun r => rec_state r = TaskExecutionState.COMPLETED) (task_records e) in
  if forallb (fun a => forallb (fun b => comparable (rollback_key a) (rollback_key b)) completed) completed
  then
    let completed_ordered := sorted_by_key completed in
    let ordered_ids :=
      map rec_task_id (filter (fun r => rec_task_id r ∈ eligible) (rev completed_ordered)) in
    let by_id := dict_of (map (fun r => (rec_task_id r, r)) completed_ordered) in
    Some (omap (dget by_id) ordered_ids)
  else None.

(** What a call through a port adds to the exceptions of the aggregate. *)
Inductive StepError :=
  | DomainError (e : CampaignExecutionException)
  | PortError.

(** [execute_rollback_step] *)
Definition execute_rollback_step `{OperationCreationPort} (t : TenantId) (id : CampaignTaskId)
    (technique_id technique_name : string) (parameters : list (string * string)) (now : datetime)
    : PyM TaskGraphExecution StepError unit := fun e =>
  match dispatch t (instance_id (campaign_instance_ref e)) id technique_id technique_name
          (dset parameters "_rollback" "true") (engagement_ref e) with
  | None => (Err PortError, e)
  | Some op =>
      match record_task_rolled_back t id op now e with
      | (Ok _, e') => (Ok tt, e')
      | (Err x, e') => (Err (DomainError x), e')
      end
  end.

(** ** CampaignPauseCoordinator *)

Definition handle_safety_breach (t : TenantId) (breach_type details : string) (now : datetime)
    : PyM TaskGraphExecution CampaignExecutionException unit :=
  breach_safety_policy t breach_type details now;;
  e ← self;
  when (bool_decide (state e = ExecutionState.RUNNING))
    (pause t ("Safety breach: " +:+ breach_type) now).

Definition handle_human_approval_gate (t : TenantId) (gate : PendingApprovalGate) (now : datetime)
    : PyM TaskGraphExecution CampaignExecutionException unit :=
  reach_human_approval_gate t gate now.

Definition handle_kill_switch_triggered (t : TenantId) (now : datetime)
    : PyM TaskGraphExecution CampaignExecutionException unit :=
  e ← self;
  when (bool_decide (state e = ExecutionState.RUNNING)) (pause t "M29 kill switch triggered" now).

(** ** Specification *)

(** The predicates as their names say. *)
Definition predicate_holds (predicate : string) (o : TaskOutcome.t)
    (objective_ref : option string) (objectives : ObjectiveStateMap) : Prop :=
  (predicate = "ExecuteOnSuccess" → o = TaskOutcome.SUCCESS ∨ o = TaskOutcome.PARTIAL_SUCCESS) ∧
  (predicate = "ExecuteOnFailure" → o = TaskOutcome.FAILURE ∨ o = TaskOutcome.TIMED_OUT) ∧
  (predicate = "ExecuteIfObjectiveMet" →
     ∃ r, objective_ref = Some r ∧ r ≠ "" ∧ osm_get objectives r = Some "Achieved") ∧
  (predicate = "ExecuteIfObjectiveFailed" →
     ∃ r s, objective_ref = Some r ∧ r ≠ "" ∧ osm_get objectives r = Some s ∧
            (s = "Failed" ∨ s = "Inconclusive")).

(** Later completed first. *)
Definition completed_before (a b : TaskExecutionRecord) : Prop :=
  key_le (rollback_key a) (rollback_key b) = true.

(** ** Lemmas *)

(** A predicate without a condition of its own. *)
Lemma predicate_trivial p o r m :
  p ≠ "ExecuteOnSuccess" → p ≠ "ExecuteOnFailure" → p ≠ "ExecuteIfObjectiveMet" →
  p ≠ "ExecuteIfObjectiveFailed" → predicate_holds p o r m.
Proof. intros. unfold predicate_holds. split_and!; intros; contradiction. Qed.

(** The conjunct of a predicate that has one. *)
Ltac conjunct :=
  unfold predicate_holds; split;
  [intros; split_and!; try discriminate; intros _
  |intros (? & ? & ? & ?); repeat match goal with
     | H : ?x = ?x → _ |- _ => specialize (H eq_refl)
     | H : _ = _ → _ |- _ => clear H
     end].

Lemma on_success_spec o r m :
  bool_decide (o ∈ [TaskOutcome.SUCCESS; TaskOutcome.PARTIAL_SUCCESS]) = true ↔
  predicate_holds "ExecuteOnSuccess" o r m.
Proof.
  rewrite bool_decide_eq_true, !elem_of_cons. conjunct; [|tauto].
  match goal with H : _ ∨ _ |- _ => destruct H as [?|[?|?%not_elem_of_nil]]; tauto end.
Qed.

Lemma on_failure_spec o r m :
  bool_decide (o ∈ [TaskOutcome.FAILURE; TaskOutcome.TIMED_OUT]) = true ↔
  predicate_holds "ExecuteOnFailure" o r m.
Proof.
  rewrite bool_decide_eq_true, !elem_of_cons. conjunct; [|tauto].
  match goal with H : _ ∨ _ |- _ => destruct H as [?|[?|?%not_elem_of_nil]]; tauto end.
Qed.

Lemma objective_met_spec o r m :
  match r with
  | Some r => if empty_str r then false else bool_decide (osm_get m r = Some "Achieved")
  | None => false
  end = true ↔ predicate_holds "ExecuteIfObjectiveMet" o r m.
Proof.
  unfold empty_str. conjunct.
  - destruct r as [r|]; [|done]. case_bool_decide; [done|]. exists r.
    by match goal with H : bool_decide _ = true |- _ => apply bool_decide_eq_true in H end.
  - match goal with H : ∃ _, _ |- _ => destruct H as (r' & -> & Hr & Hg) end.
    rewrite bool_decide_eq_false_2 by done. by apply bool_decide_eq_true.
Qed.

Lemma objective_failed_spec o r m :
  match r with
  | Some r => if empty_str r then false
              else bool_decide (osm_get m r ∈ [Some "Failed"; Some "Inconclusive"])
  | None => false
  end = true ↔ predicate_holds "ExecuteIfObjectiveFailed" o r m.
Proof.
  unfold empty_str. conjunct.
  - destruct r as [r|]; [|done]. case_bool_decide; [done|]. exists r.
    match goal with H : bool_decide _ = true |- _ => apply bool_decide_eq_true in H;
      apply elem_of_cons in H as [H|H%list_elem_of_singleton] end; eauto 10.
  - match goal with H : ∃ _, _ |- _ => destruct H as (r' & s & -> & Hr & Hg & Hs) end.
    rewrite bool_decide_eq_false_2 by done. apply bool_decide_eq_true. rewrite Hg.
    destruct Hs as [-> | ->]; [left|right; left].
Qed.

Lemma evaluate_predicate_spec p o r m : _evaluate_predicate p o r m = true ↔ predicate_holds p o r m.
Proof.
  unfold _evaluate_predicate.
  case_bool_decide; [subst; split; [by intros _; apply predicate_trivial|done]|].
  case_bool_decide; [subst; apply on_success_spec|].
  case_bool_decide; [subst; apply on_failure_spec|].
  case_bool_decide; [subst; apply objective_met_spec|].
  case_bool_decide; [subst; apply objective_failed_spec|].
  repeat case_bool_decide; (split; [by intros _; apply predicate_trivial|done]).
Qed.

Lemma insert_by_key_perm r l : insert_by_key r l ≡ₚ r :: l.
Proof.
  induction l as [|x l IH]; simpl; [done|]. destruct (key_le _ _); [done|].
  rewrite IH. apply Permutation_swap.
Qed.

Lemma sorted_by_key_perm l : sorted_by_key l ≡ₚ l.
Proof. induction l as [|x l IH]; simpl; [done|]. by rewrite insert_by_key_perm, IH. Qed.

Lemma key_le_total a b : comparable a b = true → key_le a b = true ∨ key_le b a = true.
Proof. destruct a, b; simpl; try done; rewrite !Z.leb_le; lia. Qed.

Lemma key_le_trans a b c : key_le a b = true → key_le b c = true → key_le a c = true.
Proof. destruct a, b, c; simpl; try done; rewrite !Z.leb_le; lia. Qed.

Lemma insert_by_key_sorted r l :
  Forall (λ x, comparable (rollback_key r) (rollback_key x) = true) l →
  StronglySorted completed_before l → StronglySorted completed_before (insert_by_key r l).
Proof.
  intros Hc Hl. induction Hl as [|x l Hl IH Hx]; simpl; [by repeat constructor|].
  apply Forall_cons in Hc as [Hcx Hc]. destruct (key_le _ _) eqn:Hle.
  - constructor; [by constructor|]. constructor; [done|].
    eapply Forall_impl; [done|]. intros y Hy. by eapply key_le_trans.
  - constructor; [by apply IH|]. rewrite insert_by_key_perm. constructor; [|done].
    destruct (key_le_total _ _ Hcx) as [?|?]; [congruence|done].
Qed.

Lemma sorted_by_key_sorted l :
  forallb (fun a => forallb (fun b => comparable (rollback_key a) (rollback_key b)) l) l = true →
  StronglySorted completed_before (sorted_by_key l).
Proof.
  intros Hc. assert (∀ a b, a ∈ l → b ∈ l → comparable (rollback_key a) (rollback_key b) = true) as H.
  { intros a b Ha Hb. rewrite forallb_forall in Hc. specialize (Hc a). rewrite forallb_forall in Hc.
    by apply Hc; apply list_elem_of_In. }
  clear Hc. induction l as [|x l IH]; simpl; [constructor|].
  apply insert_by_key_sorted.
  - apply Forall_forall. intros y Hy. rewrite sorted_by_key_perm in Hy. apply H; [left|by right].
  - apply IH. intros a b Ha Hb. apply H; by right.
Qed.

(** Looking the ids of records up in the dict by id gives the records back. *)
Lemma by_id_lookup (l : list TaskExecutionRecord) (k : list TaskExecutionRecord) :
  NoDup (map rec_task_id l) → (∀ r, r ∈ k → r ∈ l) →
  omap (dget (dict_of (map (fun r => (rec_task_id r, r)) l))) (map rec_task_id k) = k.
Proof.
  intros Hnd Hk. rewrite dict_of_NoDup.
  2: { change (NoDup (map fst (map (λ r, (rec_task_id r, r)) l))). by rewrite map_map. }
  induction k as [|r k IH]; [done|]. simpl.
  assert (dget (map (λ r, (rec_task_id r, r)) l) (rec_task_id r) = Some r) as ->.
  { apply elem_of_dict.
    - unfold dkeys. by rewrite map_map.
    - apply list_elem_of_fmap. exists r. split; [done|]. apply Hk. left. }
  simpl. f_equal. apply IH. intros x Hx. apply Hk. by right.
Qed.

Lemma filter_map_id (l : list TaskExecutionRecord) (P : CampaignTaskId → Prop)
    `{∀ x, Decision (P x)} `{∀ r : TaskExecutionRecord, Decision (P (rec_task_id r))} :
  map rec_task_id (filter (fun r => P (rec_task_id r)) l) = filter P (map rec_task_id l).
Proof.
  induction l as [|r l IH]; [done|]. simpl. rewrite !filter_cons. repeat case_decide; simpl; try done; by rewrite IH.
Qed.

Lemma completed_NoDup e : NoDup (map rec_task_id (task_records e)) →
  NoDup (map rec_task_id
    (filter (fun r => rec_state r = TaskExecutionState.COMPLETED) (task_records e))).
Proof.
  intros Hnd. eapply sublist_NoDup; [exact Hnd|]. apply (fmap_sublist rec_task_id), sublist_filter.
Qed.

(** ** Properties *)

(** [BranchResolutionService.resolve] splits the successors by their
    predicates: ready are those whose condition holds of the outcome and the
    objective states, skipped the others, each in order and none lost;
    detection predicates and unknown ones always hold. *)
Theorem branch_resolution_partitions o successors objectives :
  let '(ready, skipped) := branch_resolve o successors objectives in
  (∀ id, id ∈ ready ↔ ∃ s, s ∈ successors ∧ succ_id s = id ∧
     predicate_holds (succ_predicate s) o (succ_objective s) objectives) ∧
  (∀ id, id ∈ skipped ↔ ∃ s, s ∈ successors ∧ succ_id s = id ∧
     ¬ predicate_holds (succ_predicate s) o (succ_objective s) objectives) ∧
  ready ++ skipped ≡ₚ map succ_id successors.
Proof.
  unfold branch_resolve.
  assert (∀ R S, resolve_loop o objectives successors R S =
    (R ++ map succ_id (filter (λ s, _evaluate_predicate (succ_predicate s) o (succ_objective s) objectives = true) successors),
     S ++ map succ_id (filter (λ s, _evaluate_predicate (succ_predicate s) o (succ_objective s) objectives ≠ true) successors))) as Heq.
  { induction successors as [|s l IH]; intros R S; simpl; [by rewrite !app_nil_r|].
    rewrite !filter_cons. destruct (_evaluate_predicate _ _ _ _); rewrite IH, <- app_assoc;
      repeat case_decide; naive_solver. }
  rewrite Heq. simpl. split_and!.
  - intros id. rewrite list_elem_of_fmap. setoid_rewrite list_elem_of_filter.
    setoid_rewrite evaluate_predicate_spec. naive_solver.
  - intros id. rewrite list_elem_of_fmap. setoid_rewrite list_elem_of_filter.
    setoid_rewrite evaluate_predicate_spec. naive_solver.
  - rewrite <- map_app. apply Permutation_map. clear Heq.
    induction successors as [|s l IH]; [done|]. rewrite !filter_cons.
    destruct (decide (_evaluate_predicate _ _ _ _ = true)) as [H|H].
    + rewrite decide_False by auto. simpl. by rewrite IH.
    + rewrite decide_True by auto. simpl. rewrite <- Permutation_middle. by rewrite IH.
Qed.

(** [RollbackExecutor.compute_rollback_plan] is the plan of
    [RollbackPlanComputer] on the completion order: when each task has one
    record and every completed record carries its completion time, it returns
    the completed eligible records, each once, the latest completed first, and
    their ids are what [compute] gives on the ids ordered by completion. *)
Theorem rollback_plan_reverses_completion e eligible :
  NoDup (map rec_task_id (task_records e)) →
  (∀ r, r ∈ task_records e → rec_state r = TaskExecutionState.COMPLETED → is_Some (completed_at r)) →
  ∃ plan ordered, compute_rollback_plan e eligible = Some plan ∧
    StronglySorted completed_before ordered ∧
    ordered ≡ₚ filter (fun r => rec_state r = TaskExecutionState.COMPLETED) (task_records e) ∧
    plan = filter (fun r => rec_task_id r ∈ eligible) (rev ordered) ∧
    map rec_task_id plan = rollback_compute (map rec_task_id ordered) eligible.
Proof.
  intros Hnd Hat. unfold compute_rollback_plan.
  set (done := filter _ (task_records e)).
  assert (forallb (fun a => forallb (fun b => comparable (rollback_key a) (rollback_key b)) done) done = true) as Hcmp.
  { apply forallb_forall. intros a Ha%list_elem_of_In. apply forallb_forall. intros b Hb%list_elem_of_In.
    unfold done in *. apply list_elem_of_filter in Ha as [Has Ha], Hb as [Hbs Hb].
    destruct (Hat a Ha Has) as [ca Hca], (Hat b Hb Hbs) as [cb Hcb].
    unfold rollback_key. by rewrite Hca, Hcb. }
  rewrite Hcmp. pose proof (sorted_by_key_sorted done Hcmp) as Hsorted.
  pose proof (sorted_by_key_perm done) as Hperm.
  set (ordered := sorted_by_key done) in *.
  assert (NoDup (map rec_task_id ordered)) as Hndo.
  { rewrite (Permutation_map rec_task_id Hperm). by apply completed_NoDup. }
  exists (filter (fun r => rec_task_id r ∈ eligible) (rev ordered)), ordered.
  split_and!; [|done|done|done|].
  - f_equal. apply by_id_lookup; [done|]. intros r [_ Hr]%list_elem_of_filter.
    by rewrite list_elem_of_In, <- in_rev, <- list_elem_of_In in Hr.
  - unfold rollback_compute.
    etrans; [apply (filter_map_id (rev ordered) (fun t => t ∈ eligible))|]. by rewrite map_rev.
Qed.

(** The example run with tasks 1 and 2 completed, the first one later. *)
Definition two_completed : TaskGraphExecution :=
  run_calls [CCompletion acme 2 TaskOutcome.SUCCESS 8 [] []; CCompletion acme 1 TaskOutcome.SUCCESS 9 [] []]
    demo_running.

Lemma rollback_plan_reverses_completion_witness :
  option_map (map rec_task_id) (compute_rollback_plan two_completed [2; 1; 3]) = Some [1; 2] ∧
  ∃ plan ordered, compute_rollback_plan two_completed [2; 1; 3] = Some plan ∧
    StronglySorted completed_before ordered ∧
    ordered ≡ₚ filter (fun r => rec_state r = TaskExecutionState.COMPLETED) (task_records two_completed) ∧
    plan = filter (fun r => rec_task_id r ∈ [2; 1; 3]) (rev ordered) ∧
    map rec_task_id plan = rollback_compute (map rec_task_id ordered) [2; 1; 3].
Proof.
  split; [vm_compute; reflexivity|].
  apply (rollback_plan_reverses_completion two_completed [2; 1; 3]); [by_compute|].
  assert (Forall (fun r => rec_state r = TaskExecutionState.COMPLETED → is_Some (completed_at r))
    (task_records two_completed)) as H by by_compute.
  intros r Hr. by apply (proj1 (Forall_forall _ _) H).
Defined.
