(* ===== verification/CampaignStore.v ===== *)
(** Persistence of campaign execution: the tables, the row mappings and the
    optimistic locking of the repositories, and the unit of work. *)
From stdpp Require Import base tactics list gmap strings.
From Stdlib Require Import ZArith Lia.
From S2P Require Import Prelude PyTypes CampaignData SafetyMonitor TaskGraphExecution.

Local Open Scope Z_scope.

(** ** Tables

    The JSON columns hold the policy, the gate and the objective states; their
    encoding is the identity here.  Enum columns hold the enum's text. *)

Record ExecutionRow := mkExecutionRow {
  xr_id : uuid;
  xr_tenant_id : TenantId;
  xr_campaign_instance_id : uuid;
  xr_campaign_id : uuid;
  xr_engagement_id : uuid;
  xr_graph_id : uuid;
  xr_graph_version : string;
  xr_state : string;
  xr_policy_snapshot : PolicySnapshot;
  xr_pending_approval_gate : option PendingApprovalGate;
  xr_objective_states : ObjectiveStateMap;
  xr_row_version : Z
}.

#[export] Instance ExecutionRow_settable : Settable ExecutionRow := fun r =>
  mkExecutionRow (xr_id r) (xr_tenant_id r) (xr_campaign_instance_id r) (xr_campaign_id r)
    (xr_engagement_id r) (xr_graph_id r) (xr_graph_version r) (xr_state r)
    (xr_policy_snapshot r) (xr_pending_approval_gate r) (xr_objective_states r) (xr_row_version r).

Record RecordRow := mkRecordRow {
  rr_id : uuid;
  rr_execution_id : uuid;
  rr_task_id : uuid;
  rr_state : string;
  rr_outcome : option string;
  rr_operation_id : option uuid;
  rr_operation_tenant_id : option TenantId;
  rr_dispatched_at : option datetime;
  rr_completed_at : option datetime;
  rr_failure_reason : option string;
  rr_is_rollback_task : bool
}.

Record MonitorRow := mkMonitorRow {
  mr_id : uuid;
  mr_tenant_id : TenantId;
  mr_campaign_instance_id : uuid;
  mr_campaign_id : uuid;
  mr_monitor_state : string;
  mr_auto_abort_triggered : bool;
  mr_active_operation_ids : list string;
  mr_policy_snapshot : PolicySnapshot;
  mr_row_version : Z
}.

#[export] Instance MonitorRow_settable : Settable MonitorRow := fun r =>
  mkMonitorRow (mr_id r) (mr_tenant_id r) (mr_campaign_instance_id r) (mr_campaign_id r)
    (mr_monitor_state r) (mr_auto_abort_triggered r) (mr_active_operation_ids r)
    (mr_policy_snapshot r) (mr_row_version r).

Record Db := mkDb {
  db_executions : list ExecutionRow;
  db_records : list RecordRow;
  db_monitors : list MonitorRow
}.

#[export] Instance Db_settable : Settable Db := fun d =>
  mkDb (db_executions d) (db_records d) (db_monitors d).

(** ** The unit of work

    A transaction works on a view of the database; only what is committed
    becomes durable. *)

Record Session := mkSession { s_view : Db; s_durable : Db }.
#[export] Instance Session_settable : Settable Session := fun s => mkSession (s_view s) (s_durable s).

Inductive AppError :=
  | ApplicationNotFoundError (entity : string) (id : uuid)
  | ApplicationValidationError (field message : string)
  | Domain (e : CampaignExecutionException)
  | TypeError
  | CorruptRow
  | PortFailure
  | NotificationFailure.

Abbreviation Tx := (PyM Session AppError).

Definition commit : Tx unit := modify (fun s => s <| s_durable := s_view s |>).

(** ** Row mappings *)

(** [_record_from_model] *)
Definition _record_from_model (m : RecordRow) : option TaskExecutionRecord :=
  st ← TaskExecutionState.of_value (rr_state m);
  oc ← match rr_outcome m with
       | Some s => if empty_str s then Some None else o ← TaskOutcome.of_value s; Some (Some o)
       | None => Some None
       end;
  Some (mkRecord (rr_id m) (rr_task_id m) st oc
    match rr_operation_id m, rr_operation_tenant_id m with
    | Some i, Some t => Some (mkOperationRef i t)
    | _, _ => None
    end (rr_dispatched_at m) (rr_completed_at m) (rr_failure_reason m) (rr_is_rollback_task m)).

(** The row [_sync_records] writes for a record. *)
Definition record_to_row (execution : uuid) (r : TaskExecutionRecord) : RecordRow :=
  mkRecordRow (record_id r) execution (rec_task_id r) (TaskExecutionState.value (rec_state r))
    (TaskOutcome.value <$> outcome r) (operation_id <$> operation_ref r)
    (op_tenant_id <$> operation_ref r) (dispatched_at r) (completed_at r) (failure_reason r)
    (is_rollback_task r).

(** An existing row keeps its execution, task and rollback mark. *)
Definition update_record_row (r : TaskExecutionRecord) (m : RecordRow) : RecordRow :=
  mkRecordRow (rr_id m) (rr_execution_id m) (rr_task_id m) (TaskExecutionState.value (rec_state r))
    (TaskOutcome.value <$> outcome r) (operation_id <$> operation_ref r)
    (op_tenant_id <$> operation_ref r) (dispatched_at r) (completed_at r) (failure_reason r)
    (rr_is_rollback_task m).

(** [_execution_from_row]: the tracks, the checkpoints and the active branch
    path are not stored. *)
Definition _execution_from_row (row : ExecutionRow) (records : list TaskExecutionRecord)
    : option TaskGraphExecution :=
  st ← ExecutionState.of_value (xr_state row);
  Some (mkExecution (xr_id row) (xr_tenant_id row)
    (mkCampaignInstanceRef (xr_campaign_instance_id row) (xr_campaign_id row) (xr_tenant_id row))
    (mkTaskGraphVersionRef (xr_graph_id row) (xr_graph_version row))
    (mkEngagementRef (xr_engagement_id row) (xr_tenant_id row))
    (xr_policy_snapshot row) st records [] [] (xr_objective_states row)
    (xr_pending_approval_gate row) ∅ (xr_row_version row) []).

Definition execution_to_row (e : TaskGraphExecution) : ExecutionRow :=
  mkExecutionRow (execution_id e) (tenant_id e) (instance_id (campaign_instance_ref e))
    (campaign_id (campaign_instance_ref e)) (engagement_id (engagement_ref e))
    (graph_id (graph_version_ref e)) (version_str (graph_version_ref e))
    (ExecutionState.value (state e)) (policy_snapshot e) (pending_approval_gate e)
    (objective_states e) (version e).

(** [_monitor_from_row] *)
Definition _monitor_from_row (row : MonitorRow) : option CampaignSafetyMonitor :=
  st ← MonitorState.of_value (mr_monitor_state row);
  Some (mkMonitor (mr_id row) (mr_tenant_id row)
    (mkCampaignInstanceRef (mr_campaign_instance_id row) (mr_campaign_id row) (mr_tenant_id row))
    (mr_policy_snapshot row) st (mr_auto_abort_triggered row) (mr_active_operation_ids row)
    (mr_row_version row) []).

Definition monitor_to_row (m : CampaignSafetyMonitor) : MonitorRow :=
  mkMonitorRow (monitor_id m) (mon_tenant_id m) (instance_id (mon_instance_ref m))
    (campaign_id (mon_instance_ref m)) (MonitorState.value (monitor_state m))
    (auto_abort_triggered m) (active_operation_ids m) (mon_policy m) (mon_version m).

(** ** PgTaskGraphExecutionRepository *)

(** One step of [_sync_records]: update the record's row, or add it. *)
Fixpoint sync_record (execution : uuid) (r : TaskExecutionRecord) (rows : list RecordRow)
    : list RecordRow :=
  match rows with
  | [] => [record_to_row execution r]
  | m :: rows' =>
      if decide (rr_id m = record_id r) then update_record_row r m :: rows'
      else m :: sync_record execution r rows'
  end.

Definition _sync_records (e : TaskGraphExecution) (rows : list RecordRow) : list RecordRow :=
  foldl (fun rows r => sync_record (execution_id e) r rows) rows (task_records e).

Definition execution_key (e : TaskGraphExecution) (row : ExecutionRow) : Prop :=
  xr_id row = execution_id e ∧ xr_tenant_id row = tenant_id e.
#[export] Instance execution_key_dec e row : Decision (execution_key e row).
Proof. unfold execution_key. apply _. Defined.

(** The [UPDATE ... WHERE id AND tenant AND row_version = expected] of [save]. *)
Definition updates_row (e : TaskGraphExecution) (row : ExecutionRow) : Prop :=
  execution_key e row ∧ xr_row_version row = Z.max (version e - 1) 1.
#[export] Instance updates_row_dec e row : Decision (updates_row e row).
Proof. unfold updates_row. apply _. Defined.

Definition updated_row (e : TaskGraphExecution) (row : ExecutionRow) : ExecutionRow :=
  row <| xr_state := ExecutionState.value (state e) |>
      <| xr_pending_approval_gate := pending_approval_gate e |>
      <| xr_objective_states := objective_states e |>
      <| xr_row_version := version e |>.

Definition save_execution (e : TaskGraphExecution) : Tx unit :=
  s ← self;
  let db := s_view s in
  match filter (execution_key e) (db_executions db) with
  | [] =>
      modify (fun s => s <| s_view ::= fun db =>
        db <| db_executions ::= fun l => l ++ [execution_to_row e] |>
           <| db_records ::= _sync_records e |> |>)
  | _ :: _ =>
      raise_if (bool_decide (Forall (fun row => ¬ updates_row e row) (db_executions db)))
        (Domain (ConcurrencyConflict (execution_id e)));;
      modify (fun s => s <| s_view ::= fun db =>
        db <| db_executions ::= map (fun row => if decide (updates_row e row)
                                                then updated_row e row else row) |>
           <| db_records ::= _sync_records e |> |>)
  end.

(** The aggregate of a row: its records are the rows of the execution. *)
Definition load_row (db : Db) (row : ExecutionRow) : option TaskGraphExecution :=
  records ← mapM _record_from_model (filter (fun m => rr_execution_id m = xr_id row) (db_records db));
  _execution_from_row row records.

Definition load_first (rows : list ExecutionRow) : Tx (option TaskGraphExecution) :=
  match rows with
  | [] => mret None
  | row :: _ =>
      s ← self;
      match load_row (s_view s) row with
      | Some e => mret (Some e)
      | None => raise CorruptRow
      end
  end.

Definition find_by_id (id : TaskGraphExecutionId) (t : TenantId) : Tx (option TaskGraphExecution) :=
  s ← self;
  load_first (filter (fun r => xr_id r = id ∧ xr_tenant_id r = t) (db_executions (s_view s))).

Definition find_execution_by_campaign_instance (i : CampaignInstanceId) (t : TenantId)
    : Tx (option TaskGraphExecution) :=
  s ← self;
  load_first (filter (fun r => xr_campaign_instance_id r = i ∧ xr_tenant_id r = t)
                (db_executions (s_view s))).

(** [find_pending_dispatch_by_tenant]: the join of the two tables. *)
Definition find_pending_dispatch_by_tenant (t : TenantId) : Tx (list TaskExecutionRecord) :=
  s ← self;
  let db := s_view s in
  match mapM _record_from_model (filter (fun m =>
          rr_state m = TaskExecutionState.value TaskExecutionState.READY_TO_DISPATCH ∧
          Exists (fun x => xr_id x = rr_execution_id m ∧ xr_tenant_id x = t) (db_executions db))
        (db_records db)) with
  | Some l => mret l
  | None => raise CorruptRow
  end.

(** ** PgSafetyMonitorRepository *)

Definition monitor_key (m : CampaignSafetyMonitor) (row : MonitorRow) : Prop :=
  mr_id row = monitor_id m ∧ mr_tenant_id row = mon_tenant_id m.
#[export] Instance monitor_key_dec m row : Decision (monitor_key m row).
Proof. unfold monitor_key. apply _. Defined.

Definition updates_monitor (m : CampaignSafetyMonitor) (row : MonitorRow) : Prop :=
  monitor_key m row ∧ mr_row_version row = Z.max (mon_version m - 1) 1.
#[export] Instance updates_monitor_dec m row : Decision (updates_monitor m row).
Proof. unfold updates_monitor. apply _. Defined.

Definition updated_monitor (m : CampaignSafetyMonitor) (row : MonitorRow) : MonitorRow :=
  row <| mr_monitor_state := MonitorState.value (monitor_state m) |>
      <| mr_auto_abort_triggered := auto_abort_triggered m |>
      <| mr_active_operation_ids := active_operation_ids m |>
      <| mr_row_version := mon_version m |>.

Definition save_monitor (m : CampaignSafetyMonitor) : Tx unit :=
  s ← self;
  let db := s_view s in
  match filter (monitor_key m) (db_monitors db) with
  | [] =>
      modify (fun s => s <| s_view ::= fun db =>
        db <| db_monitors ::= fun l => l ++ [monitor_to_row m] |> |>)
  | _ :: _ =>
      raise_if (bool_decide (Forall (fun row => ¬ updates_monitor m row) (db_monitors db)))
        (Domain (ConcurrencyConflict (monitor_id m)));;
      modify (fun s => s <| s_view ::= fun db =>
        db <| db_monitors ::= map (fun row => if decide (updates_monitor m row)
                                              then updated_monitor m row else row) |> |>)
  end.

Definition find_by_campaign_instance (i : CampaignInstanceId) (t : TenantId)
    : Tx (option CampaignSafetyMonitor) :=
  s ← self;
  match filter (fun r => mr_campaign_instance_id r = i ∧ mr_tenant_id r = t)
          (db_monitors (s_view s)) with
  | [] => mret None
  | row :: _ =>
      match _monitor_from_row row with
      | Some m => mret (Some m)
      | None => raise CorruptRow
      end
  end.

(** ** Transactions *)

(** A statement that does not commit. *)
Definition quiet {A} (m : Tx A) : Prop :=
  ∀ s, wp m (λ _ s', s_durable s' = s_durable s) (λ _ s', s_durable s' = s_durable s) s.

(** A transaction that commits last: when it raises, nothing is durable. *)
Definition commits_last {A} (m : Tx A) : Prop :=
  ∀ s, wp m (λ _ _, True) (λ _ s', s_durable s' = s_durable s) s.

Create HintDb tx.

Lemma quiet_ret {A} (a : A) : quiet (mret a).
Proof. by intros s. Qed.
Lemma quiet_raise {A} (e : AppError) : quiet (raise (A := A) e).
Proof. by intros s. Qed.
Lemma quiet_self : quiet self.
Proof. by intros s. Qed.
Lemma quiet_view (f : Db → Db) : quiet (modify (λ s, s <| s_view ::= f |>)).
Proof. by intros s. Qed.
Lemma quiet_raise_if b (e : AppError) : quiet (raise_if b e).
Proof. by destruct b. Qed.
Lemma quiet_bind {A B} (m : Tx A) (k : A → Tx B) :
  quiet m → (∀ a, quiet (k a)) → quiet (m ≫= k).
Proof.
  intros Hm Hk s. apply wp_bind. eapply wp_mono; [apply Hm| |done].
  intros a s' Heq. eapply wp_mono; [apply Hk| |]; simpl; congruence.
Qed.
Lemma commits_last_quiet {A} (m : Tx A) : quiet m → commits_last m.
Proof. intros Hm s. by eapply wp_mono; [apply Hm| |]. Qed.
Lemma commits_last_commit {A} (a : A) : commits_last (commit;; mret a).
Proof. by intros s. Qed.
Lemma commits_last_bind {A B} (m : Tx A) (k : A → Tx B) :
  quiet m → (∀ a, commits_last (k a)) → commits_last (m ≫= k).
Proof.
  intros Hm Hk s. apply wp_bind. eapply wp_mono; [apply Hm| |done].
  intros a s' Heq. eapply wp_mono; [apply Hk| |]; simpl; [done|congruence].
Qed.
#[export] Hint Resolve quiet_ret quiet_raise quiet_self quiet_view quiet_raise_if
  commits_last_commit : tx.

(** Proves [quiet] and [commits_last] along the structure of a transaction. *)
Ltac tx_step :=
  first
  [ solve [eauto with tx]
  | apply quiet_bind; [|intros ?]
  | apply commits_last_commit
  | apply commits_last_bind; [|intros ?]
  | match goal with
    | |- quiet (match ?x with _ => _ end) => destruct x
    | |- commits_last (match ?x with _ => _ end) => destruct x
    end
  | apply commits_last_quiet ].
Ltac tx_auto := repeat tx_step.

Lemma quiet_load_first rows : quiet (load_first rows).
Proof. unfold load_first. tx_auto. Qed.
#[export] Hint Resolve quiet_load_first : tx.
Lemma quiet_find_by_id id t : quiet (find_by_id id t).
Proof. unfold find_by_id. tx_auto. Qed.
Lemma quiet_find_execution i t : quiet (find_execution_by_campaign_instance i t).
Proof. unfold find_execution_by_campaign_instance. tx_auto. Qed.
Lemma quiet_find_monitor i t : quiet (find_by_campaign_instance i t).
Proof. unfold find_by_campaign_instance. tx_auto. Qed.
Lemma quiet_save_execution e : quiet (save_execution e).
Proof. unfold save_execution. tx_auto. Qed.
Lemma quiet_save_monitor m : quiet (save_monitor m).
Proof. unfold save_monitor. tx_auto. Qed.
#[export] Hint Resolve quiet_find_by_id quiet_find_execution quiet_find_monitor
  quiet_save_execution quiet_save_monitor : tx.

(** ** Round trips *)

Lemma execution_state_of_value st : ExecutionState.of_value (ExecutionState.value st) = Some st.
Proof. by destruct st. Qed.
Lemma task_state_of_value st : TaskExecutionState.of_value (TaskExecutionState.value st) = Some st.
Proof. by destruct st. Qed.
Lemma outcome_of_value o : TaskOutcome.of_value (TaskOutcome.value o) = Some o.
Proof. by destruct o. Qed.
Lemma outcome_value_nonempty o : empty_str (TaskOutcome.value o) = false.
Proof. by destruct o. Qed.
Lemma monitor_state_of_value st : MonitorState.of_value (MonitorState.value st) = Some st.
Proof. by destruct st. Qed.

Lemma record_row_roundtrip x r : _record_from_model (record_to_row x r) = Some r.
Proof.
  unfold _record_from_model, record_to_row. simpl. rewrite task_state_of_value. simpl.
  destruct r as [? ? ? oc [[]|]]; destruct oc as [oc|]; simpl; try done;
    by rewrite outcome_value_nonempty, outcome_of_value.
Qed.

Lemma mapM_record_rows x l : mapM _record_from_model (map (record_to_row x) l) = Some l.
Proof.
  induction l as [|r l IH]; [done|]. simpl. by rewrite record_row_roundtrip, IH.
Qed.

Lemma sync_record_fresh x r rows : record_id r ∉ map rr_id rows →
  sync_record x r rows = rows ++ [record_to_row x r].
Proof.
  induction rows as [|m rows IH]; simpl; [done|]. rewrite not_elem_of_cons. intros [Hm Hr].
  rewrite decide_False by done. by rewrite IH.
Qed.

Lemma sync_records_fresh x l rows : NoDup (map record_id l) →
  (∀ r, r ∈ l → record_id r ∉ map rr_id rows) →
  foldl (fun rows r => sync_record x r rows) rows l = rows ++ map (record_to_row x) l.
Proof.
  revert rows. induction l as [|r l IH]; intros rows; simpl; [by rewrite app_nil_r|].
  intros [Hr Hnd]%NoDup_cons Hfresh.
  rewrite sync_record_fresh by (apply Hfresh; left). rewrite IH; [by rewrite <- app_assoc|done|].
  intros r' Hr'. rewrite map_app, not_elem_of_app. split; [apply Hfresh; by right|].
  simpl. rewrite list_elem_of_singleton. intros Heq. apply Hr. rewrite <- Heq.
  apply list_elem_of_fmap. eauto.
Qed.

(** What a database row keeps of an execution. *)
Definition reloaded (e : TaskGraphExecution) : TaskGraphExecution :=
  e <| tracks := [] |> <| checkpoints := [] |> <| active_branch_path := ∅ |> <| pending_events := [] |>.

(** The tenant is the same in the references, and record ids are distinct. *)
Record storable (e : TaskGraphExecution) : Prop := {
  so_instance : cir_tenant_id (campaign_instance_ref e) = tenant_id e;
  so_engagement : er_tenant_id (engagement_ref e) = tenant_id e;
  so_records : NoDup (map record_id (task_records e))
}.

Lemma execution_row_roundtrip e : storable e →
  _execution_from_row (execution_to_row e) (task_records e) = Some (reloaded e).
Proof.
  intros [Hi He _]. unfold _execution_from_row, execution_to_row. simpl.
  rewrite execution_state_of_value. simpl. unfold reloaded.
  destruct e as [? ? [] [] []]; simpl in *. by subst.
Qed.

(** ** Versions *)

(** Primary keys are unique, and stored versions are positive. *)
Record wf_db (db : Db) : Prop := {
  db_execution_ids : NoDup (map xr_id (db_executions db));
  db_versions : ∀ row, row ∈ db_executions db → 1 ≤ xr_row_version row
}.

Lemma unique_row db row id t : NoDup (map xr_id (db_executions db)) → row ∈ db_executions db →
  xr_id row = id → xr_tenant_id row = t →
  filter (fun r => xr_id r = id ∧ xr_tenant_id r = t) (db_executions db) = [row].
Proof.
  intros Hnd Hin <- <-. induction (db_executions db) as [|x l IH]; [by apply not_elem_of_nil in Hin|].
  simpl in Hnd. apply NoDup_cons in Hnd as [Hx Hnd]. apply elem_of_cons in Hin as [->|Hin].
  - rewrite filter_cons_True by done. f_equal. apply not_elem_nil.
    intros y [[Hy _] Hyl]%list_elem_of_filter. apply Hx. rewrite <- Hy. apply list_elem_of_fmap. eauto.
  - rewrite filter_cons_False; [by apply IH|]. intros [Heq _]. apply Hx. rewrite Heq.
    apply list_elem_of_fmap. eauto.
Qed.

Lemma find_by_id_row id t s e s' : find_by_id id t s = (Ok (Some e), s') →
  s' = s ∧ ∃ row, row ∈ db_executions (s_view s) ∧ xr_id row = id ∧ xr_tenant_id row = t ∧
    load_row (s_view s) row = Some e.
Proof.
  unfold find_by_id, self, mbind, PyM_bind.
  destruct (filter _ (db_executions (s_view s))) as [|row rows] eqn:Hf; simpl; [done|].
  assert (row ∈ filter (fun r => xr_id r = id ∧ xr_tenant_id r = t) (db_executions (s_view s)))
    as [[Hid Ht] Hin]%list_elem_of_filter by (rewrite Hf; left).
  unfold self, mbind, PyM_bind. destruct (load_row _ _) eqn:Hl; [|done].
  intros [= <- <-]. eauto 10.
Qed.

Lemma load_row_keys db row e : load_row db row = Some e →
  execution_id e = xr_id row ∧ tenant_id e = xr_tenant_id row ∧ version e = xr_row_version row.
Proof.
  unfold load_row. intros (rs & _ & H)%bind_Some. unfold _execution_from_row in H.
  apply bind_Some in H as (st & _ & [= <-]). done.
Qed.

(** [save] of an execution whose row is [row]. *)
Lemma save_execution_row e row s : NoDup (map xr_id (db_executions (s_view s))) →
  row ∈ db_executions (s_view s) → execution_key e row →
  save_execution e s =
  if decide (xr_row_version row = Z.max (version e - 1) 1)
  then (Ok tt, s <| s_view ::= fun db =>
        db <| db_executions ::= map (fun row => if decide (updates_row e row)
                                                then updated_row e row else row) |>
           <| db_records ::= _sync_records e |> |>)
  else (Err (Domain (ConcurrencyConflict (execution_id e))), s).
Proof.
  intros Hnd Hin Hkey. unfold save_execution, self, mbind, PyM_bind.
  assert (filter (execution_key e) (db_executions (s_view s)) = [row]) as ->
    by (destruct Hkey; by apply (unique_row (s_view s) row)).
  destruct (decide (xr_row_version row = _)) as [Hv|Hv].
  - rewrite bool_decide_eq_false_2; [done|]. rewrite Forall_forall. intros Hall.
    by apply (Hall row Hin).
  - rewrite bool_decide_eq_true_2; [done|]. apply Forall_forall. intros row' Hin' [[Hi Ht] Hv'].
    assert (row' = row) as ->; [|done].
    assert (row' ∈ [row]) as ?%list_elem_of_singleton; [|done]. destruct Hkey as [Hk1 Hk2].
    rewrite <- (unique_row (s_view s) row (execution_id e) (tenant_id e) Hnd Hin Hk1 Hk2).
    by apply list_elem_of_filter.
Qed.

(** The update of [save] keeps the keys and replaces one row. *)
Lemma updated_keys e (l : list ExecutionRow) :
  map xr_id (map (fun row => if decide (updates_row e row) then updated_row e row else row) l) = map xr_id l.
Proof. rewrite map_map. apply map_ext. intros row. by case_decide. Qed.

(** ** A stored execution *)

Definition empty_db : Db := mkDb [] [] [].
Definition session_of (db : Db) : Session := mkSession db db.
Definition demo_stored : Session := (save_execution demo_running (session_of empty_db)).2.
Definition demo_loaded : TaskGraphExecution := reloaded demo_running.

(** ** Properties *)



(** Optimistic locking. Of an execution loaded at version [v], a copy that
    moved to version [v + 1] can be saved, once: a second copy loaded at the
    same version conflicts. A copy whose operation moved the version by more
    than one always conflicts, although nobody else wrote; so does an untouched
    copy, unless [v] is 1. *)
Theorem save_accepts_one_step id t s e e1 e2 k :
  wf_db (s_view s) → find_by_id id t s = (Ok (Some e), s) →
  execution_id e1 = execution_id e → tenant_id e1 = tenant_id e →
  execution_id e2 = execution_id e → tenant_id e2 = tenant_id e →
  version e1 = version e + 1 → version e2 = version e + k →
  (∃ s1, save_execution e1 s = (Ok tt, s1) ∧
     (k = 1 → save_execution e2 s1 = (Err (Domain (ConcurrencyConflict (execution_id e))), s1))) ∧
  (1 < k ∨ (k = 0 ∧ 1 < version e) →
     save_execution e2 s = (Err (Domain (ConcurrencyConflict (execution_id e))), s)).
Proof.
  intros [Hnd Hpos] Hfind Hi1 Ht1 Hi2 Ht2 Hv1 Hv2.
  apply find_by_id_row in Hfind as (_ & row & Hin & <- & <- & Hload).
  destruct (load_row_keys _ _ _ Hload) as (Hid & Hten & Hver). specialize (Hpos row Hin).
  assert (execution_key e1 row) as Hk1 by (split; congruence).
  assert (execution_key e2 row) as Hk2 by (split; congruence).
  rewrite (save_execution_row e1 row s Hnd Hin Hk1), (save_execution_row e2 row s Hnd Hin Hk2).
  rewrite decide_True by lia. split.
  - eexists. split; [reflexivity|]. intros ->.
    rewrite (save_execution_row e2 (updated_row e1 row)).
    + rewrite decide_False by (simpl; lia). by rewrite Hi2.
    + simpl. by rewrite updated_keys.
    + simpl. apply list_elem_of_fmap. exists row. split; [|done].
      rewrite decide_True; [done|]. split; [done|lia].
    + split; simpl; congruence.
  - intros Hk. rewrite decide_False by lia. by rewrite Hi2.
Qed.

Lemma demo_stored_wf : wf_db (s_view demo_stored).
Proof.
  split; [by_compute|].
  intros row Hrow.
  assert (xr_row_version row ∈ map xr_row_version (db_executions (s_view demo_stored))) as Hv
    by (apply list_elem_of_fmap; eauto).
  assert (map xr_row_version (db_executions (s_view demo_stored)) = [4]) as Heq
    by (vm_compute; reflexivity).
  rewrite Heq in Hv. apply list_elem_of_singleton in Hv. lia.
Qed.

Lemma save_accepts_one_step_witness :
  version demo_loaded = 4 ∧
  save_execution (demo_loaded <| version := 6 |>) demo_stored =
    (Err (Domain (ConcurrencyConflict (execution_id demo_loaded))), demo_stored).
Proof.
  split; [vm_compute; reflexivity|].
  refine (proj2 (save_accepts_one_step 50 acme demo_stored demo_loaded
    (demo_loaded <| version := 5 |>) (demo_loaded <| version := 6 |>) 2 demo_stored_wf _ _ _ _ _ _ _) _);
    try (vm_compute; reflexivity).
  left. lia.
Defined.
