(* ===== verification/CampaignApp.v ===== *)
(** [campaignexecution.ExecutionApplicationService]: every command loads the
    aggregates in a unit of work, calls the domain, saves, commits, and then
    publishes. *)
From stdpp Require Import base tactics list gmap strings.
From Stdlib Require Import ZArith Lia.
From S2P Require Import Prelude PyTypes CampaignData SafetyMonitor TaskGraphExecution CampaignServices CampaignStore.

Local Open Scope Z_scope.

(** ** The world of the service *)

Inductive Notification :=
  | ApprovalGate (t : TenantId) (execution : uuid) (task : CampaignTaskId) (role : string) (timeout : Z)
  | CampaignPaused (t : TenantId) (execution : uuid) (reason : string).

(** [INotificationPort]: whether the adapter accepts a notification; otherwise
    it raises. *)
Class NotificationPort := { notify_accepts : Notification → bool }.

Record World := mkWorld {
  w_db : Db;
  w_published : list (DomainEvent ExecutionEvent + DomainEvent MonitorEvent);
  w_notified : list Notification
}.
#[export] Instance World_settable : Settable World := fun w =>
  mkWorld (w_db w) (w_published w) (w_notified w).

Abbreviation App := (PyM World AppError).

(** [async with self._uow_factory() as uow: body] *)
Definition in_uow {A} (body : Tx A) : App A := fun w =>
  let '(r, s) := body (mkSession (w_db w) (w_db w)) in (r, w <| w_db := s_durable s |>).

(** [_publish]: a failing publisher is logged and ignored; the events handed to
    it are recorded. *)
Definition _publish (evs : list (DomainEvent ExecutionEvent + DomainEvent MonitorEvent)) : App unit :=
  modify (fun w => w <| w_published ::= fun l => l ++ evs |>).

Definition notify `{NotificationPort} (n : Notification) : App unit :=
  if notify_accepts n then modify (fun w => w <| w_notified ::= fun l => l ++ [n] |>)
  else raise NotificationFailure.

(** ** Calls of the domain inside a transaction *)

Definition on_execution {A} (m : PyM TaskGraphExecution CampaignExecutionException A)
    (e : TaskGraphExecution) : Tx TaskGraphExecution :=
  match m e with
  | (Ok _, e') => mret e'
  | (Err x, _) => raise (Domain x)
  end.

Definition on_monitor {A} (m : PyM CampaignSafetyMonitor CampaignExecutionException A)
    (mon : option CampaignSafetyMonitor) : Tx (option CampaignSafetyMonitor) :=
  match mon with
  | None => mret None
  | Some mon =>
      match m mon with
      | (Ok _, mon') => mret (Some mon')
      | (Err x, _) => raise (Domain x)
      end
  end.

(** [find_by_id], then [ApplicationNotFoundError] on [None]. *)
Definition load_execution (id : uuid) (t : TenantId) : Tx TaskGraphExecution :=
  found ← find_by_id id t;
  match found with
  | Some e => mret e
  | None => raise (ApplicationNotFoundError "TaskGraphExecution" id)
  end.

Definition load_monitor (e : TaskGraphExecution) (t : TenantId) : Tx (option CampaignSafetyMonitor) :=
  find_by_campaign_instance (instance_id (campaign_instance_ref e)) t.

Definition save_monitor_opt (m : option CampaignSafetyMonitor) : Tx unit :=
  match m with Some m => save_monitor m | None => mret tt end.

(** [execution.pop_events()] and [monitor.pop_events()], in that order. *)
Definition events_of (e : TaskGraphExecution) (m : option CampaignSafetyMonitor)
    : list (DomainEvent ExecutionEvent + DomainEvent MonitorEvent) :=
  map inl (pending_events e) ++ match m with Some m => map inr (mon_events m) | None => [] end.

(** ** Results *)

Record TaskExecutionRecordDTO := mkRecordDTO {
  dto_task_id : string; dto_state : string; dto_outcome : option string;
  dto_operation_id : option string; dto_dispatched_at : option datetime;
  dto_completed_at : option datetime; dto_failure_reason : option string
}.

Record ExecutionDTO := mkExecutionDTO {
  dto_execution_id : string; dto_tenant_id : TenantId; dto_campaign_instance_id : string;
  dto_graph_id : string; dto_graph_version : string; dto_execution_state : string;
  dto_concurrent_action_count : nat; dto_task_records : list TaskExecutionRecordDTO;
  dto_pending_approval_gate_task_id : option string
}.

Definition _to_execution_dto (e : TaskGraphExecution) : ExecutionDTO :=
  mkExecutionDTO (str_uuid (execution_id e)) (tenant_id e)
    (str_uuid (instance_id (campaign_instance_ref e))) (str_uuid (graph_id (graph_version_ref e)))
    (version_str (graph_version_ref e)) (ExecutionState.value (state e)) (concurrent_action_count e)
    (map (fun r => mkRecordDTO (str_uuid (rec_task_id r)) (TaskExecutionState.value (rec_state r))
            (TaskOutcome.value <$> outcome r) (str_uuid ∘ operation_id <$> operation_ref r)
            (dispatched_at r) (completed_at r) (failure_reason r)) (task_records e))
    (str_uuid ∘ pg_task_id <$> pending_approval_gate e).

Record SafetyMonitorDTO := mkMonitorDTO {
  dto_monitor_id : string; dto_monitor_tenant : TenantId; dto_monitor_instance : string;
  dto_monitor_state : string; dto_monitor_count : nat; dto_auto_abort : bool; dto_max_actions : Z
}.

Definition _to_monitor_dto (m : CampaignSafetyMonitor) : SafetyMonitorDTO :=
  mkMonitorDTO (str_uuid (monitor_id m)) (mon_tenant_id m)
    (str_uuid (instance_id (mon_instance_ref m))) (MonitorState.value (monitor_state m))
    (length (active_operation_ids m)) (auto_abort_triggered m)
    (max_concurrent_actions (mon_policy m)).

(** The end of a command that changed both aggregates, or one. *)
Definition publish_and_return (em : TaskGraphExecution * option CampaignSafetyMonitor) : App ExecutionDTO :=
  _publish (events_of em.1 em.2);;
  mret (_to_execution_dto em.1).

(** A command that calls one method of the execution and saves it. *)
Definition update_execution {A} (t : TenantId) (id : uuid)
    (m : PyM TaskGraphExecution CampaignExecutionException A) : Tx TaskGraphExecution :=
  e ← load_execution id t;
  e ← on_execution m e;
  save_execution e;;
  commit;;
  mret e.

(** A command that changes the execution and the monitor and saves both. *)
Definition update_both {A B} (t : TenantId) (id : uuid)
    (m : PyM TaskGraphExecution CampaignExecutionException A)
    (mm : PyM CampaignSafetyMonitor CampaignExecutionException B)
    : Tx (TaskGraphExecution * option CampaignSafetyMonitor) :=
  e ← load_execution id t;
  mon ← load_monitor e t;
  e ← on_execution m e;
  mon ← on_monitor mm mon;
  save_execution e;;
  save_monitor_opt mon;;
  commit;;
  mret (e, mon).

Definition parse_outcome (o : string) : App TaskOutcome.t :=
  match TaskOutcome.of_value o with
  | Some x => mret x
  | None => raise (ApplicationValidationError "outcome" ("Unknown outcome: " +:+ o))
  end.

(** ** Commands *)

Section Commands.
Context `{OperationCreationPort} `{NotificationPort}.

Record InitializeCommand := mkInitialize {
  ic_tenant_id : TenantId; ic_campaign_instance_id : uuid; ic_campaign_id : uuid;
  ic_graph_id : uuid; ic_graph_version : string; ic_engagement_id : uuid;
  ic_task_ids : list uuid; ic_policy : PolicySnapshot
}.

(** [initialize_execution], with the ids the identifiers generate. *)
Definition initialize_execution (cmd : InitializeCommand) (execution_id monitor_id : uuid)
    (record_ids : list uuid) (now : datetime) : App ExecutionDTO :=
  let t := ic_tenant_id cmd in
  let instance := mkCampaignInstanceRef (ic_campaign_instance_id cmd) (ic_campaign_id cmd) t in
  let execution := initialize execution_id t instance
    (mkTaskGraphVersionRef (ic_graph_id cmd) (ic_graph_version cmd))
    (mkEngagementRef (ic_engagement_id cmd) t) (ic_policy cmd) record_ids (ic_task_ids cmd) now in
  let monitor := create monitor_id t instance (ic_policy cmd) now in
  em ← in_uow (
    e ← on_execution (mark_running now) execution;
    save_execution e;;
    save_monitor monitor;;
    commit;;
    mret (e, Some monitor));
  publish_and_return em.

Record DispatchTaskSpec := mkSpec {
  sp_task_id : uuid; sp_technique_id : string; sp_technique_name : string;
  sp_parameters : list (string * string)
}.

(** One pass of the dispatch loop. *)
Definition dispatch_one (t : TenantId) (now : datetime) (spec : DispatchTaskSpec)
    (em : TaskGraphExecution * option CampaignSafetyMonitor)
    : Tx (TaskGraphExecution * option CampaignSafetyMonitor) :=
  let '(e, mon) := em in
  mon ← on_monitor (register_action t (str_uuid (sp_task_id spec)) now) mon;
  match dispatch t (instance_id (campaign_instance_ref e)) (sp_task_id spec) (sp_technique_id spec)
          (sp_technique_name spec) (sp_parameters spec) (engagement_ref e) with
  | None => raise PortFailure
  | Some op =>
      e ← on_execution (record_task_dispatched t (sp_task_id spec) op now) e;
      mret (e, mon)
  end.

Fixpoint dispatch_all (t : TenantId) (now : datetime) (specs : list DispatchTaskSpec)
    (em : TaskGraphExecution * option CampaignSafetyMonitor)
    : Tx (TaskGraphExecution * option CampaignSafetyMonitor) :=
  match specs with
  | [] => mret em
  | s :: rest => em ← dispatch_one t now s em; dispatch_all t now rest em
  end.

(** The specs of the command: its list, or its single task. *)
Definition command_specs (tasks : list DispatchTaskSpec) (single : option DispatchTaskSpec)
    : option (list DispatchTaskSpec) :=
  match tasks, single with
  | _ :: _, _ => Some tasks
  | [], Some s => Some [s]
  | [], None => None
  end.

(** The transaction of [dispatch_next_task]: several tasks open a track. *)
Definition dispatch_tx (t : TenantId) (id : uuid) (specs : list DispatchTaskSpec) (track : string)
    (now : datetime) : Tx (TaskGraphExecution * option CampaignSafetyMonitor) :=
  e ← load_execution id t;
  mon ← load_monitor e t;
  e ← (if 1 <? Z.of_nat (length specs)
       then on_execution (start_execution_track t track (map sp_task_id specs) now) e
       else mret e);
  em ← dispatch_all t now specs (e, mon);
  save_execution em.1;;
  save_monitor_opt em.2;;
  commit;;
  mret em.

Definition dispatch_next_task (t : TenantId) (id : uuid) (tasks : list DispatchTaskSpec)
    (single : option DispatchTaskSpec) (track : string) (now : datetime) : App ExecutionDTO :=
  match command_specs tasks single with
  | None =>
      raise (ApplicationValidationError "tasks" "Provide task_id or a non-empty tasks list")
  | Some specs =>
      em ← in_uow (dispatch_tx t id specs track now);
      publish_and_return em
  end.

(** [record_task_completion]: the successors come resolved, or with their
    predicates. *)
Definition app_record_task_completion (t : TenantId) (id task : uuid) (o : string)
    (ready skipped : list uuid) (successors : list Successor) (now : datetime) : App ExecutionDTO :=
  oc ← parse_outcome o;
  em ← in_uow (
    e ← load_execution id t;
    mon ← load_monitor e t;
    let '(ready, skipped) :=
      match successors with
      | [] => (ready, skipped)
      | _ :: _ => branch_resolve oc successors (objective_states e)
      end in
    e ← on_execution (record_task_completion t task oc now ready skipped) e;
    mon ← on_monitor (release_action t (str_uuid task) now) mon;
    save_execution e;;
    save_monitor_opt mon;;
    commit;;
    mret (e, mon));
  publish_and_return em.

Definition resolve_conditional_branch (t : TenantId) (id task : uuid) (o : string)
    (successors : list Successor) (now : datetime) : App ExecutionDTO :=
  oc ← parse_outcome o;
  e ← in_uow (
    e ← load_execution id t;
    let '(ready, skipped) := branch_resolve oc successors (objective_states e) in
    e ← on_execution (record_task_completion t task oc now ready skipped) e;
    save_execution e;;
    commit;;
    mret e);
  publish_and_return (e, None).

Definition app_record_task_failure (t : TenantId) (id task : uuid) (reason : string)
    (now : datetime) : App ExecutionDTO :=
  em ← in_uow (update_both t id (record_task_failure t task reason now)
                 (release_action t (str_uuid task) now));
  publish_and_return em.

Definition app_evaluate_barrier (t : TenantId) (id barrier : uuid) (group : list uuid)
    (now : datetime) : App ExecutionDTO :=
  e ← in_uow (update_execution t id (evaluate_barrier t barrier group now));
  publish_and_return (e, None).

Definition app_reach_human_approval_gate (t : TenantId) (id task : uuid) (timeout : Z)
    (role default : string) (now : datetime) : App ExecutionDTO :=
  e ← in_uow (update_execution t id
    (handle_human_approval_gate t (mkPendingApprovalGate task now timeout role default) now));
  notify (ApprovalGate t (execution_id e) task role timeout);;
  publish_and_return (e, None).

Definition app_grant_human_approval (t : TenantId) (id : uuid) (approver : string)
    (now : datetime) : App ExecutionDTO :=
  e ← in_uow (update_execution t id (grant_human_approval t approver now));
  publish_and_return (e, None).

Definition app_deny_human_approval (t : TenantId) (id : uuid) (approver reason : string)
    (now : datetime) : App ExecutionDTO :=
  e ← in_uow (update_execution t id (deny_human_approval t approver reason now));
  publish_and_return (e, None).

Definition app_handle_approval_timeout (t : TenantId) (id : uuid) (now : datetime) : App ExecutionDTO :=
  e ← in_uow (update_execution t id (handle_approval_timeout t now));
  publish_and_return (e, None).

Definition pause_execution (t : TenantId) (id : uuid) (reason : string) (now : datetime)
    : App ExecutionDTO :=
  e ← in_uow (update_execution t id (pause t reason now));
  notify (CampaignPaused t (execution_id e) reason);;
  publish_and_return (e, None).

Definition resume_execution (t : TenantId) (id : uuid) (now : datetime) : App ExecutionDTO :=
  e ← in_uow (update_execution t id (resume t now));
  publish_and_return (e, None).

Definition app_handle_kill_switch_triggered (t : TenantId) (id : uuid) (now : datetime)
    : App ExecutionDTO :=
  e ← in_uow (update_execution t id (handle_kill_switch_triggered t now));
  notify (CampaignPaused t (execution_id e) "M29 kill switch triggered");;
  publish_and_return (e, None).

(** One rollback step inside the transaction. *)
Definition rollback_one (t : TenantId) (now : datetime) (step : DispatchTaskSpec)
    (e : TaskGraphExecution) : Tx TaskGraphExecution :=
  match execute_rollback_step t (sp_task_id step) (sp_technique_id step) (sp_technique_name step)
          (sp_parameters step) now e with
  | (Ok _, e') => mret e'
  | (Err (DomainError x), _) => raise (Domain x)
  | (Err PortError, _) => raise PortFailure
  end.

Fixpoint rollback_all (t : TenantId) (now : datetime) (steps : list DispatchTaskSpec)
    (e : TaskGraphExecution) : Tx TaskGraphExecution :=
  match steps with
  | [] => mret e
  | s :: rest => e ← rollback_one t now s e; rollback_all t now rest e
  end.

Definition app_initiate_rollback (t : TenantId) (id : uuid) (reason : string)
    (eligible : list uuid) (steps : list DispatchTaskSpec) (now : datetime) : App ExecutionDTO :=
  e ← in_uow (
    e ← load_execution id t;
    plan ← (match compute_rollback_plan e eligible with
            | Some p => mret p
            | None => raise TypeError
            end);
    e ← on_execution (initiate_rollback t reason (length plan) now) e;
    e ← rollback_all t now steps e;
    e ← (match steps with
         | [] => mret e
         | _ :: _ => on_execution (complete_rollback t (length steps) now) e
         end);
    save_execution e;;
    commit;;
    mret e);
  publish_and_return (e, None).

Definition complete_execution (t : TenantId) (id : uuid) (now : datetime) : App ExecutionDTO :=
  em ← in_uow (update_both t id (complete t now) (release t now));
  publish_and_return em.

Definition abort_execution (t : TenantId) (id : uuid) (reason : string) (now : datetime)
    : App ExecutionDTO :=
  em ← in_uow (update_both t id (abort t reason now) (release t now));
  publish_and_return em.

(** The monitor's events come first here. *)
Definition app_trigger_auto_abort_on_detection (t : TenantId) (instance : uuid) (detail : string)
    (now : datetime) : App (option SafetyMonitorDTO) :=
  found ← in_uow (
    mon ← find_by_campaign_instance instance t;
    match mon with
    | None => mret None
    | Some _ =>
        mon ← on_monitor (trigger_auto_abort_on_detection t detail now) mon;
        e ← find_execution_by_campaign_instance instance t;
        e ← (match e with
             | None => mret None
             | Some e =>
                 e ← on_execution (handle_safety_breach t "AutoAbortOnDetection" detail now) e;
                 save_execution e;;
                 mret (Some e)
             end);
        save_monitor_opt mon;;
        commit;;
        mret (Some (mon, e))
    end);
  match found with
  | None => mret None
  | Some (mon, e) =>
      (match e with
       | Some e => notify (CampaignPaused t (execution_id e) ("Auto-abort on detection: " +:+ detail))
       | None => mret tt
       end);;
      _publish (match mon with Some m => map inr (mon_events m) | None => [] end ++
                match e with Some e => map inl (pending_events e) | None => [] end);;
      mret (_to_monitor_dto <$> mon)
  end.

Definition get_execution (t : TenantId) (id : uuid) : App (option ExecutionDTO) :=
  in_uow (e ← find_by_id id t; mret (_to_execution_dto <$> e)).

(** ** The commands as one type *)

Inductive command :=
  | Initialize (cmd : InitializeCommand) (execution_id monitor_id : uuid) (record_ids : list uuid)
  | DispatchNext (t : TenantId) (id : uuid) (tasks : list DispatchTaskSpec)
      (single : option DispatchTaskSpec) (track : string)
  | RecordCompletion (t : TenantId) (id task : uuid) (o : string) (ready skipped : list uuid)
      (successors : list Successor)
  | ResolveBranch (t : TenantId) (id task : uuid) (o : string) (successors : list Successor)
  | RecordFailure (t : TenantId) (id task : uuid) (reason : string)
  | EvaluateBarrier (t : TenantId) (id barrier : uuid) (group : list uuid)
  | ReachGate (t : TenantId) (id task : uuid) (timeout : Z) (role default : string)
  | GrantApproval (t : TenantId) (id : uuid) (approver : string)
  | DenyApproval (t : TenantId) (id : uuid) (approver reason : string)
  | ApprovalTimeout (t : TenantId) (id : uuid)
  | Pause (t : TenantId) (id : uuid) (reason : string)
  | Resume (t : TenantId) (id : uuid)
  | KillSwitch (t : TenantId) (id : uuid)
  | InitiateRollback (t : TenantId) (id : uuid) (reason : string) (eligible : list uuid)
      (steps : list DispatchTaskSpec)
  | Complete (t : TenantId) (id : uuid)
  | Abort (t : TenantId) (id : uuid) (reason : string)
  | AutoAbort (t : TenantId) (instance : uuid) (detail : string)
  | GetExecution (t : TenantId) (id : uuid).

Definition run_command (c : command) (now : datetime) : App unit :=
  match c with
  | Initialize cmd e m rs => initialize_execution cmd e m rs now;; mret tt
  | DispatchNext t id tasks single track => dispatch_next_task t id tasks single track now;; mret tt
  | RecordCompletion t id task o r s succ =>
      app_record_task_completion t id task o r s succ now;; mret tt
  | ResolveBranch t id task o succ => resolve_conditional_branch t id task o succ now;; mret tt
  | RecordFailure t id task r => app_record_task_failure t id task r now;; mret tt
  | EvaluateBarrier t id b g => app_evaluate_barrier t id b g now;; mret tt
  | ReachGate t id task to r d => app_reach_human_approval_gate t id task to r d now;; mret tt
  | GrantApproval t id a => app_grant_human_approval t id a now;; mret tt
  | DenyApproval t id a r => app_deny_human_approval t id a r now;; mret tt
  | ApprovalTimeout t id => app_handle_approval_timeout t id now;; mret tt
  | Pause t id r => pause_execution t id r now;; mret tt
  | Resume t id => resume_execution t id now;; mret tt
  | KillSwitch t id => app_handle_kill_switch_triggered t id now;; mret tt
  | InitiateRollback t id r el st => app_initiate_rollback t id r el st now;; mret tt
  | Complete t id => complete_execution t id now;; mret tt
  | Abort t id r => abort_execution t id r now;; mret tt
  | AutoAbort t i d => app_trigger_auto_abort_on_detection t i d now;; mret tt
  | GetExecution t id => get_execution t id;; mret tt
  end.
End Commands.

(** ** Lemmas *)

Lemma quiet_on_execution {A} (m : PyM TaskGraphExecution CampaignExecutionException A) e :
  quiet (on_execution m e).
Proof. unfold on_execution. tx_auto. Qed.
Lemma quiet_on_monitor {A} (m : PyM CampaignSafetyMonitor CampaignExecutionException A) mon :
  quiet (on_monitor m mon).
Proof. unfold on_monitor. tx_auto. Qed.
Lemma quiet_load_execution id t : quiet (load_execution id t).
Proof. unfold load_execution. tx_auto. Qed.
Lemma quiet_load_monitor e t : quiet (load_monitor e t).
Proof. unfold load_monitor. tx_auto. Qed.
Lemma quiet_save_monitor_opt m : quiet (save_monitor_opt m).
Proof. unfold save_monitor_opt. tx_auto. Qed.
#[export] Hint Resolve quiet_on_execution quiet_on_monitor quiet_load_execution quiet_load_monitor
  quiet_save_monitor_opt : tx.

Section Transactions.
Context `{OperationCreationPort} `{NotificationPort}.

Lemma quiet_dispatch_all t now specs em : quiet (dispatch_all t now specs em).
Proof.
  revert em. induction specs as [|s specs IH]; intros em; simpl; [tx_auto|].
  apply quiet_bind; [|apply IH]. unfold dispatch_one. tx_auto.
Qed.

Lemma quiet_rollback_all t now steps e : quiet (rollback_all t now steps e).
Proof.
  revert e. induction steps as [|s steps IH]; intros e; simpl; [tx_auto|].
  apply quiet_bind; [|apply IH]. unfold rollback_one. tx_auto.
Qed.
Hint Resolve quiet_dispatch_all quiet_rollback_all : tx.

Lemma update_execution_commits_last {A} t id (m : PyM TaskGraphExecution CampaignExecutionException A) :
  commits_last (update_execution t id m).
Proof. unfold update_execution. tx_auto. Qed.

Lemma update_both_commits_last {A B} t id (m : PyM TaskGraphExecution CampaignExecutionException A)
    (mm : PyM CampaignSafetyMonitor CampaignExecutionException B) :
  commits_last (update_both t id m mm).
Proof. unfold update_both. tx_auto. Qed.

(** A unit of work that raises leaves the world as it was; it never publishes. *)
Lemma wp_in_uow {A} (body : Tx A) Q X w : commits_last body →
  (∀ a w', w_published w' = w_published w → w_notified w' = w_notified w → Q a w') →
  (∀ x, X x w) → wp (in_uow body) Q X w.
Proof.
  intros Hb HQ HX. specialize (Hb (mkSession (w_db w) (w_db w))). unfold wp, in_uow in *.
  destruct (body _) as [[a|x] s]; simpl in *; [by apply HQ|].
  rewrite Hb. destruct w. apply HX.
Qed.

(** After a raise, the world is as before, or the notification adapter raised
    after the commit. *)
Definition rolled_back (w : World) (x : AppError) (w' : World) : Prop :=
  w' = w ∨ x = NotificationFailure.

Lemma wp_publish em Q X w :
  (∀ d w', Q d w') → wp (publish_and_return em) Q X w.
Proof. intros HQ. unfold publish_and_return, _publish. wp_run. apply HQ. Qed.

Lemma wp_notify n Q X w : (∀ w', Q tt w') → X NotificationFailure w → wp (notify n) Q X w.
Proof. intros HQ HX. unfold notify. destruct (notify_accepts n); wp_run; auto. Qed.

Lemma wp_parse_outcome o Q X w : (∀ a, Q a w) → (∀ x, X x w) → wp (parse_outcome o) Q X w.
Proof. intros HQ HX. unfold parse_outcome. destruct (TaskOutcome.of_value o); [apply HQ|apply HX]. Qed.

Ltac app_step :=
  lazymatch goal with
  | |- wp (in_uow (update_execution _ _ _)) _ _ _ =>
      apply wp_in_uow; [apply update_execution_commits_last|intros ? ? _ _|by left]
  | |- wp (in_uow (update_both _ _ _ _)) _ _ _ =>
      apply wp_in_uow; [apply update_both_commits_last|intros ? ? _ _|by left]
  | |- wp (in_uow _) _ _ _ => apply wp_in_uow; [tx_auto|intros ? ? _ _|by left]
  | |- wp (publish_and_return _) _ _ _ => apply wp_publish; intros ? ?
  | |- wp (notify _) _ _ _ => apply wp_notify; [intros ?|by right]
  | |- wp (parse_outcome _) _ _ _ => apply wp_parse_outcome; [intros ?|by left]
  | _ => wp_step
  end.

Lemma run_command_rolls_back c now w : wp (run_command c now) (λ _ _, True) (rolled_back w) w.
Proof.
  destruct c; simpl;
    unfold initialize_execution, dispatch_next_task, app_record_task_completion,
      resolve_conditional_branch, app_record_task_failure, app_evaluate_barrier,
      app_reach_human_approval_gate, app_grant_human_approval, app_deny_human_approval,
      app_handle_approval_timeout, pause_execution, resume_execution,
      app_handle_kill_switch_triggered, app_initiate_rollback, complete_execution, abort_execution,
      app_trigger_auto_abort_on_detection, get_execution, _publish, dispatch_tx.
  all: repeat app_step; try done; try by left.
Qed.
End Transactions.


(** ** Versions along a dispatch *)

Section Dispatch.
Context `{OperationCreationPort} `{NotificationPort}.

(** What dispatching one task does to the execution. *)
Lemma record_task_dispatched_effect t id op now e e' :
  record_task_dispatched t id op now e = (Ok tt, e') →
  (execution_id e' = execution_id e ∧ tenant_id e' = tenant_id e) ∧
  ((∃ r, find_record (task_records e) id = Some r ∧ rec_state r = TaskExecutionState.RUNNING) ∧ e' = e ∨
   (∃ r, find_record (task_records e) id = Some r ∧
      rec_state r ∈ [TaskExecutionState.READY_TO_DISPATCH; TaskExecutionState.DISPATCHING]) ∧
   version e' = version e + 1).
Proof.
  intros Heq.
  assert (wp (record_task_dispatched t id op now)
    (λ _ e', (execution_id e' = execution_id e ∧ tenant_id e' = tenant_id e) ∧
      ((∃ r, find_record (task_records e) id = Some r ∧ rec_state r = TaskExecutionState.RUNNING) ∧ e' = e ∨
       (∃ r, find_record (task_records e) id = Some r ∧
          rec_state r ∈ [TaskExecutionState.READY_TO_DISPATCH; TaskExecutionState.DISPATCHING]) ∧
       version e' = version e + 1)) (λ _ _, True) e) as Hwp.
  { TaskGraphExecution.unfold_ops. repeat exec_step; guards; try done.
    - split; [done|]. left. eauto.
    - split; [done|]. right. split; [|simpl; lia].
      match goal with H : ¬ (_ ∉ _) |- _ => apply dec_stable in H end. eauto. }
  exact (wp_ok _ _ _ _ _ _ Hwp Heq).
Qed.

Lemma on_execution_ok {A} (m : PyM TaskGraphExecution CampaignExecutionException A) e s e' s' :
  on_execution m e s = (Ok e', s') → s' = s ∧ ∃ a, m e = (Ok a, e').
Proof. unfold on_execution. destruct (m e) as [[a|x] e1]; [|done]. intros [= <- <-]. eauto. Qed.

Lemma on_monitor_state {A} (m : PyM CampaignSafetyMonitor CampaignExecutionException A) mon s r s' :
  on_monitor m mon s = (r, s') → s' = s.
Proof.
  unfold on_monitor. destruct mon as [mon|]; [|by intros [= _ <-]].
  destruct (m mon) as [[a|x] m1]; by intros [= _ <-].
Qed.

Lemma bind_ok {St X A B} (m : PyM St X A) (k : A → PyM St X B) s b s' :
  (m ≫= k) s = (Ok b, s') → ∃ a s1, m s = (Ok a, s1) ∧ k a s1 = (Ok b, s').
Proof. unfold mbind, PyM_bind. destruct (m s) as [[a|x] s1]; [eauto|done]. Qed.

(** One pass of the loop, when it returns. *)
Lemma dispatch_one_ok t now spec e mon s e' mon' s' :
  dispatch_one t now spec (e, mon) s = (Ok (e', mon'), s') →
  s' = s ∧ ∃ op, record_task_dispatched t (sp_task_id spec) op now e = (Ok tt, e').
Proof.
  intros Heq. unfold dispatch_one in Heq.
  apply bind_ok in Heq as (mon1 & s1 & Hm & Heq). apply on_monitor_state in Hm as ->.
  destruct (dispatch _ _ _ _ _ _ _) as [op|]; [|done].
  apply bind_ok in Heq as (e1 & s2 & He & Heq). apply on_execution_ok in He as (-> & [] & He).
  injection Heq as <- <- <-. eauto.
Qed.

(** The version after the loop: one more for each task that was not running. *)
Lemma dispatch_all_version t now specs e mon s e' mon' s' :
  dispatch_all t now specs (e, mon) s = (Ok (e', mon'), s') →
  s' = s ∧ (execution_id e' = execution_id e ∧ tenant_id e' = tenant_id e) ∧ version e ≤ version e' ∧
  ((∃ spec r, spec ∈ specs ∧ find_record (task_records e) (sp_task_id spec) = Some r ∧
      rec_state r ≠ TaskExecutionState.RUNNING) → version e < version e').
Proof.
  revert e mon. induction specs as [|spec specs IH]; intros e mon; cbn [dispatch_all].
  - intros [= <- <- <-]. split_and!; [done..|lia|]. intros (? & ? & []%not_elem_of_nil & _).
  - intros Heq. apply bind_ok in Heq as ([e1 mon1] & s1 & Hone & Heq).
    apply dispatch_one_ok in Hone as (-> & op & Hone).
    apply record_task_dispatched_effect in Hone as ([Hid1 Ht1] & Hcase).
    destruct (IH _ _ Heq) as (-> & [Hid Ht] & Hle & Hlt).
    split_and!; [done|congruence|congruence| |].
    + destruct Hcase as [[_ ->]|[_ ?]]; lia.
    + intros (sp & r & [->|Hin]%elem_of_cons & Hr & Hnr).
      * destruct Hcase as [[(r' & Hr' & ?) _]|[_ ?]]; [congruence|lia].
      * destruct Hcase as [[_ ->]|[_ ?]]; [|lia]. apply Hlt. eauto.
Qed.

Lemma load_execution_ok id t s e s' : load_execution id t s = (Ok e, s') →
  s' = s ∧ find_by_id id t s = (Ok (Some e), s).
Proof.
  unfold load_execution. intros (found & s1 & Hf & Heq)%bind_ok. destruct found as [e1|]; [|done].
  injection Heq as <- <-. pose proof (find_by_id_row _ _ _ _ _ Hf) as [-> _]. done.
Qed.

Lemma load_monitor_state e t s r s' : load_monitor e t s = (r, s') → s' = s.
Proof.
  unfold load_monitor, find_by_campaign_instance, self, mbind, PyM_bind.
  destruct (filter _ _) as [|row rows]; [by intros [= _ <-]|].
  destruct (_monitor_from_row row); by intros [= _ <-].
Qed.

(** A unit of work whose body cannot return leaves the world. *)
Lemma in_uow_fails {A} (body : Tx A) w : commits_last body →
  (∀ a s', body (mkSession (w_db w) (w_db w)) ≠ (Ok a, s')) →
  ∃ x, in_uow body w = (Err x, w).
Proof.
  intros Hc Hf. specialize (Hc (mkSession (w_db w) (w_db w))). unfold wp, in_uow in *.
  destruct (body _) as [[a|x] s'] eqn:Hb; [by destruct (Hf a s')|]. simpl in Hc. rewrite Hc.
  exists x. by destruct w.
Qed.

Lemma bind_fails {St X A B} (m : PyM St X A) (k : A → PyM St X B) s x s' :
  m s = (Err x, s') → (m ≫= k) s = (Err x, s').
Proof. unfold mbind, PyM_bind. by intros ->. Qed.
End Dispatch.

(** ** Fresh executions *)

Definition pending_row (m : RecordRow) : Prop :=
  rr_state m = TaskExecutionState.value TaskExecutionState.PENDING.

Lemma sync_record_pending x r rows : rec_state r = TaskExecutionState.PENDING →
  Forall pending_row rows → Forall pending_row (sync_record x r rows).
Proof.
  intros Hr Hrows. induction Hrows as [|m rows Hm Hrows IH]; simpl.
  - repeat constructor. unfold pending_row. simpl. by rewrite Hr.
  - case_decide; constructor; try done. unfold pending_row. simpl. by rewrite Hr.
Qed.

Lemma sync_records_pending x l rows : Forall (λ r, rec_state r = TaskExecutionState.PENDING) l →
  Forall pending_row rows → Forall pending_row (foldl (fun rows r => sync_record x r rows) rows l).
Proof.
  intros Hl. revert rows. induction Hl as [|r l Hr Hl IH]; intros rows Hrows; simpl; [done|].
  apply IH. by apply sync_record_pending.
Qed.

Lemma initialize_pending id t i g en p rids tids now :
  Forall (λ r, rec_state r = TaskExecutionState.PENDING)
    (task_records (initialize id t i g en p rids tids now)).
Proof.
  simpl. revert tids. induction rids as [|a rids IH]; intros [|b tids]; simpl; constructor; [done|apply IH].
Qed.

(** An execution all of whose stored records are pending loads as such. *)
Lemma load_pending s id t e s' : Forall pending_row (db_records (s_view s)) →
  load_execution id t s = (Ok e, s') →
  s' = s ∧ Forall (λ r, rec_state r = TaskExecutionState.PENDING) (task_records e).
Proof.
  intros Hp Hl. apply load_execution_ok in Hl as [-> Hf]. split; [done|].
  apply find_by_id_row in Hf as (_ & row & _ & _ & _ & Hrow).
  unfold load_row in Hrow. apply bind_Some in Hrow as (rs & Hm & Hrow).
  unfold _execution_from_row in Hrow. apply bind_Some in Hrow as (st & _ & [= <-]). simpl.
  apply mapM_Some in Hm. apply Forall_forall. intros r Hr.
  apply list_elem_of_lookup in Hr as [i Hi].
  destruct (Forall2_lookup_r _ _ _ _ _ Hm Hi) as (m & Hmi & Hmr).
  assert (pending_row m) as Hpm.
  { apply (proj1 (Forall_forall _ _) Hp). apply list_elem_of_lookup_2 in Hmi.
    by apply list_elem_of_filter in Hmi as [_ ?]. }
  unfold _record_from_model, pending_row in *. rewrite Hpm, task_state_of_value in Hmr. simpl in Hmr.
  destruct (match rr_outcome m with Some _ => _ | None => _ end); [|done].
  simpl in Hmr. by injection Hmr as <-.
Qed.

Section Fresh.
Context `{OperationCreationPort} `{NotificationPort}.

(** A task whose record is pending cannot be dispatched. *)
Lemma dispatch_pending_fails t now specs e mon s r : specs ≠ [] →
  Forall (λ r, rec_state r = TaskExecutionState.PENDING) (task_records e) →
  dispatch_all t now specs (e, mon) s ≠ (Ok r, s).
Proof.
  intros Hne Hp Heq. destruct specs as [|spec specs]; [done|]. cbn [dispatch_all] in Heq.
  apply bind_ok in Heq as ([e1 mon1] & s1 & Hone & _).
  apply dispatch_one_ok in Hone as (_ & op & Hone).
  apply record_task_dispatched_effect in Hone as (_ & Hcase).
  assert (∀ r', find_record (task_records e) (sp_task_id spec) = Some r' →
    rec_state r' = TaskExecutionState.PENDING) as Hpend.
  { intros r' Hr'. pose proof (find_record_spec (task_records e) (sp_task_id spec)) as Hs.
    rewrite Hr' in Hs. destruct Hs as [Hin _]. by apply (proj1 (Forall_forall _ _) Hp). }
  destruct Hcase as [[(r' & Hr' & Hs) _]|[(r' & Hr' & Hs) _]]; rewrite (Hpend _ Hr') in Hs; [done|].
  revert Hs. by_compute.
Qed.

Lemma command_specs_nonempty tasks single specs : command_specs tasks single = Some specs → specs ≠ [].
Proof. unfold command_specs. destruct tasks, single; naive_solver. Qed.

(** What a returning transaction has gone through. *)
Lemma dispatch_tx_ok t id specs track now s em s' :
  dispatch_tx t id specs track now s = (Ok em, s') →
  ∃ e e1 mon s1, load_execution id t s = (Ok e, s) ∧
    (if 1 <? Z.of_nat (length specs)
     then start_execution_track t track (map sp_task_id specs) now e = (Ok tt, e1)
     else e1 = e) ∧
    dispatch_all t now specs (e1, mon) s = (Ok em, s) ∧
    save_execution em.1 s = (Ok tt, s1).
Proof.
  unfold dispatch_tx. intros (e & s1 & Hl & Heq)%bind_ok.
  pose proof (load_execution_ok _ _ _ _ _ Hl) as [-> _].
  apply bind_ok in Heq as (mon & s1 & Hm & Heq). apply load_monitor_state in Hm as ->.
  apply bind_ok in Heq as (e1 & s1 & He1 & Heq).
  assert (s1 = s ∧ (if 1 <? Z.of_nat (length specs)
     then start_execution_track t track (map sp_task_id specs) now e = (Ok tt, e1)
     else e1 = e)) as [-> Htrack].
  { destruct (1 <? _); [|by injection He1 as <- <-].
    apply on_execution_ok in He1 as (-> & [] & He1). done. }
  apply bind_ok in Heq as (em1 & s1 & Hd & Heq).
  apply bind_ok in Heq as ([] & s2 & Hs & Heq).
  apply bind_ok in Heq as (? & s3 & _ & Heq).
  apply bind_ok in Heq as (? & s4 & _ & Heq). injection Heq as <- <-.
  destruct em1 as [e2 mon2]. pose proof (dispatch_all_version _ _ _ _ _ _ _ _ _ Hd) as [-> _].
  eauto 10.
Qed.

Lemma dispatch_tx_commits_last t id specs track now : commits_last (dispatch_tx t id specs track now).
Proof. unfold dispatch_tx. pose proof quiet_dispatch_all. tx_auto. Qed.

Lemma dispatch_next_task_fails t id tasks single track now w :
  (∀ specs em s', command_specs tasks single = Some specs →
     dispatch_tx t id specs track now (mkSession (w_db w) (w_db w)) ≠ (Ok em, s')) →
  ∃ x, dispatch_next_task t id tasks single track now w = (Err x, w).
Proof.
  intros Hfail. unfold dispatch_next_task.
  destruct (command_specs tasks single) as [specs|] eqn:Hspecs; [|by eexists].
  destruct (in_uow_fails (dispatch_tx t id specs track now) w) as [x Hx].
  - apply dispatch_tx_commits_last.
  - intros em s'. by apply Hfail.
  - exists x. by apply bind_fails.
Qed.

Lemma dispatch_tx_pending_fails t id specs track now s em s' : specs ≠ [] →
  Forall pending_row (db_records (s_view s)) → dispatch_tx t id specs track now s ≠ (Ok em, s').
Proof.
  intros Hne Hp Heq. apply dispatch_tx_ok in Heq as (e & e1 & mon & s1 & Hl & Htrack & Hd & _).
  apply (load_pending _ _ _ _ _ Hp) in Hl as [_ Hrecs].
  apply (dispatch_pending_fails _ _ _ e1 mon s em Hne) in Hd; [done|].
  destruct (1 <? _); [|by subst].
  assert (task_records e1 = task_records e) as ->; [|done].
  revert Htrack. unfold start_execution_track, _assert_tenant, raise_if, self, mbind, PyM_bind.
  case_bool_decide; [done|]. by intros [= <-].
Qed.
End Fresh.

(** ** A concrete campaign *)

(** A port that creates one operation for everything, and a notifier that
    accepts everything. *)
Definition demo_port : OperationCreationPort.
Proof.
  refine {| create_operation := fun r => Some (mkOperationRef 900 (dr_tenant_id r)) |}.
  intros r1 r2 _ _ ->. done.
Defined.
Definition demo_notifier : NotificationPort := {| notify_accepts := fun _ => true |}.

Definition empty_world : World := mkWorld empty_db [] [].

Definition demo_init : InitializeCommand :=
  mkInitialize acme 60 61 7 "1.0.0" 70 [1; 2; 3] (mkPolicySnapshot 5 false false "Medium").

Definition spec_of (task : uuid) : DispatchTaskSpec := mkSpec task "T1059" "shell" [].

Definition run_commands (cs : list command) (w : World) : World :=
  foldl (fun w c => (@run_command demo_port demo_notifier c 10 w).2) w cs.

(** Tasks 2 and 3 are ready, since task 1 completed. *)
Definition demo_world : World :=
  run_commands [Initialize demo_init 50 80 [101; 102; 103];
                RecordCompletion acme 50 1 "Success" [2; 3] [] []] empty_world.

(** The execution of [demo_world] as the repository reads it. *)
Definition demo_execution : TaskGraphExecution := Eval vm_compute in
  match find_by_id 50 acme (session_of (w_db demo_world)) with
  | (Ok (Some e), _) => e
  | _ => demo_running
  end.

(** State and running tasks of a stored execution. *)
Definition stored_status (w : World) (id : TaskGraphExecutionId) (t : TenantId) :
    option (ExecutionState.t * list uuid) :=
  match find_by_id id t (session_of (w_db w)) with
  | (Ok (Some e), _) => Some (state e, get_running_task_ids e)
  | _ => None
  end.

(** ** Properties *)

Section Properties.
Context `{OperationCreationPort} `{NotificationPort}.

(** Every command is a transaction: when it raises, the database, the
    published events and the notifications are as before, for every behaviour
    of the operation port; the one exception is a notification adapter that
    raises, which happens after the commit. *)
Theorem failed_commands_roll_back c now w x w' :
  run_command c now w = (Err x, w') → w' = w ∨ x = NotificationFailure.
Proof. intros Hrun. exact (wp_err _ _ _ _ _ _ (run_command_rolls_back c now w) Hrun). Qed.

(** Dispatching several tasks at once never succeeds: when one of them is
    not running yet, the track and the dispatch each move the version, so the
    save conflicts with the version the command itself loaded, and the whole
    dispatch is rolled back after the operations were created. *)
Theorem parallel_dispatch_conflicts t id tasks single track now w e spec r :
  wf_db (w_db w) → 1 < Z.of_nat (length tasks) →
  find_by_id id t (mkSession (w_db w) (w_db w)) = (Ok (Some e), mkSession (w_db w) (w_db w)) →
  spec ∈ tasks → find_record (task_records e) (sp_task_id spec) = Some r →
  rec_state r ≠ TaskExecutionState.RUNNING →
  ∃ x, dispatch_next_task t id tasks single track now w = (Err x, w).
Proof.
  intros Hwf Hlen Hfind Hspec Hr Hnr. apply dispatch_next_task_fails.
  intros specs em s' Hspecs Htx.
  assert (specs = tasks) as -> by (destruct tasks; naive_solver).
  apply dispatch_tx_ok in Htx as (e0 & e1 & mon & s1 & Hl & Htrack & Hd & Hsave).
  apply load_execution_ok in Hl as [_ Hl]. rewrite Hfind in Hl. injection Hl as <-.
  apply Z.ltb_lt in Hlen. rewrite Hlen in Htrack.
  assert (execution_id e1 = execution_id e ∧ tenant_id e1 = tenant_id e ∧ version e1 = version e + 1 ∧
          task_records e1 = task_records e) as (Hi1 & Ht1 & Hv1 & Hrec1).
  { revert Htrack. unfold start_execution_track, _assert_tenant, raise_if, self, mbind, PyM_bind.
    case_bool_decide; [done|]. intros [= <-]. simpl. split_and!; try done. lia. }
  destruct em as [e2 mon2]. apply dispatch_all_version in Hd as (_ & [Hi2 Ht2] & _ & Hlt).
  rewrite Hrec1 in Hlt. specialize (Hlt ltac:(eauto)). simpl in Hsave.
  apply find_by_id_row in Hfind as (_ & row & Hin & Hxi & Hxt & Hload).
  destruct (load_row_keys _ _ _ Hload) as (Hid & Hten & Hver).
  destruct Hwf as [Hnd Hpos]. specialize (Hpos row Hin).
  rewrite (save_execution_row e2 row) in Hsave; [|done..|split; congruence].
  rewrite decide_False in Hsave by lia. done.
Qed.

(** An execution fresh from [initialize_execution] cannot be dispatched: no
    command marks its tasks ready, so a dispatch of any of them, whatever the
    ports do, raises and changes nothing. *)
Theorem fresh_execution_never_dispatches cmd eid mid rids now now' w d w' t id tasks single track :
  db_records (w_db w) = [] →
  initialize_execution cmd eid mid rids now w = (Ok d, w') →
  ∃ x, dispatch_next_task t id tasks single track now' w' = (Err x, w').
Proof.
  intros Hempty Hinit.
  assert (Forall pending_row (db_records (w_db w'))) as Hp.
  { revert Hinit. unfold initialize_execution, in_uow, on_execution. simpl.
    unfold save_execution, save_monitor, publish_and_return, _publish, commit, self, modify,
      raise_if, raise, mret, PyM_ret, mbind, PyM_bind. simpl.
    repeat case_match; simplify_eq/=; intros; simplify_eq/=; try done.
    all: rewrite Hempty; apply sync_records_pending; [|constructor].
    all: apply (initialize_pending eid). }
  apply dispatch_next_task_fails. intros specs em s' Hspecs.
  apply dispatch_tx_pending_fails; [by eapply command_specs_nonempty|done].
Qed.
End Properties.

Lemma failed_commands_roll_back_witness :
  let w := demo_world in
  (@run_command demo_port demo_notifier (Pause acme 51 "r") 10 w) =
    (Err (ApplicationNotFoundError "TaskGraphExecution" 51), w) ∧ (w = w ∨
   ApplicationNotFoundError "TaskGraphExecution" 51 = NotificationFailure).
Proof.
  cbv zeta.
  assert (@run_command demo_port demo_notifier (Pause acme 51 "r") 10 demo_world =
    (Err (ApplicationNotFoundError "TaskGraphExecution" 51), demo_world)) as Hrun
    by (vm_compute; reflexivity).
  split; [exact Hrun|]. exact (failed_commands_roll_back _ _ _ _ _ Hrun).
Defined.

(** Two of the three ready tasks at once. *)
Lemma parallel_dispatch_conflicts_witness :
  stored_status demo_world 50 acme = Some (ExecutionState.RUNNING, []) ∧
  ∃ x, @dispatch_next_task demo_port acme 50 [spec_of 2; spec_of 3] None "track" 20 demo_world = (Err x, demo_world).
Proof.
  split; [vm_compute; reflexivity|].
  refine (@parallel_dispatch_conflicts demo_port acme 50 [spec_of 2; spec_of 3] None "track" 20 demo_world
            demo_execution (spec_of 2) _ _ _ _ _ _ _).
  - split; [by_compute|]. apply Forall_forall. by_compute.
  - reflexivity.
  - vm_compute. reflexivity.
  - set_solver.
  - vm_compute. reflexivity.
  - vm_compute. done.
Defined.

Lemma fresh_execution_never_dispatches_witness :
  let r := initialize_execution demo_init 50 80 [101; 102; 103] 10 empty_world in
  is_ok r.1 ∧
  ∃ x, @dispatch_next_task demo_port acme 50 [] (Some (spec_of 1)) "track" 20 r.2 = (Err x, r.2).
Proof.
  cbv zeta.
  destruct (initialize_execution demo_init 50 80 [101; 102; 103] 10 empty_world) as [[d|y] w'] eqn:Hinit.
  - split; [done|]. by refine (fresh_execution_never_dispatches _ _ _ _ _ _ _ _ _ _ _ _ _ _ _ Hinit).
  - exfalso. revert Hinit. vm_compute. discriminate.
Defined.

(** Pausing for the kill switch does not stop dispatch: [dispatch_next_task]
    never looks at the execution's state, so a ready task of an execution the
    kill switch has paused is dispatched and runs. *)
Theorem kill_switch_pause_dispatches :
  let w := run_commands [KillSwitch acme 50] demo_world in
  let (r, w') := @dispatch_next_task demo_port acme 50 [] (Some (spec_of 2)) "track" 20 w in
  stored_status w 50 acme = Some (ExecutionState.PAUSED, []) ∧
  is_ok r ∧ stored_status w' 50 acme = Some (ExecutionState.PAUSED, [2]).
Proof. vm_compute. auto. Qed.
