(* ===== verification/ExecData.v ===== *)
(** The execution context: enumerations, value objects, exceptions and events
    ([execution/domain/value_objects], [exceptions], [events]). *)
From stdpp Require Import base tactics list gmap strings.
From Stdlib Require Import ZArith Lia.
From S2P Require Import Prelude PyTypes Sha256 PyJson.

Local Open Scope Z_scope.

(** ** Enumerations *)

Module KillSwitchScope.
Inductive t := ENGAGEMENT | OPERATION | PLATFORM_WIDE.
#[global] Instance eq_dec : EqDecision t.
Proof. solve_decision. Defined.
Definition value (x : t) : string :=
  match x with ENGAGEMENT => "Engagement" | OPERATION => "Operation" | PLATFORM_WIDE => "PlatformWide" end.
Definition all : list t := [ENGAGEMENT; OPERATION; PLATFORM_WIDE].
Definition of_value (s : string) : option t := head (filter (fun x => value x = s) all).
End KillSwitchScope.

Module KillSwitchArmedState.
Inductive t := ARMED | TRIGGERED | RELEASED.
#[global] Instance eq_dec : EqDecision t.
Proof. solve_decision. Defined.
Definition value (x : t) : string :=
  match x with ARMED => "Armed" | TRIGGERED => "Triggered" | RELEASED => "Released" end.
End KillSwitchArmedState.

Module RateLimitDecision.
Inductive t := PERMITTED | THROTTLED | FORBIDDEN.
#[global] Instance eq_dec : EqDecision t.
Proof. solve_decision. Defined.
Definition value (x : t) : string :=
  match x with PERMITTED => "Permitted" | THROTTLED => "Throttled" | FORBIDDEN => "Forbidden" end.
End RateLimitDecision.

Module ImpactCeiling.
Inductive t := OBSERVE | PROBE | EXPLOIT | DESTRUCT.
#[global] Instance eq_dec : EqDecision t.
Proof. solve_decision. Defined.
Definition value (x : t) : string :=
  match x with OBSERVE => "Observe" | PROBE => "Probe" | EXPLOIT => "Exploit" | DESTRUCT => "Destruct" end.
Definition all : list t := [OBSERVE; PROBE; EXPLOIT; DESTRUCT].
Definition of_value (s : string) : option t := head (filter (fun x => value x = s) all).
End ImpactCeiling.

Module JournalEntryType.
Inductive t :=
  | ACTION_STARTED | ACTION_COMPLETED | ACTION_FAILED | ACTION_ABORTED | KILL_SWITCH_TRIGGERED
  | SAFETY_CHECK_FAILED | SCOPE_VIOLATION_ATTEMPTED | HUMAN_APPROVAL_REQUIRED | APPROVAL_GRANTED
  | APPROVAL_DENIED | ROLLBACK_INITIATED | ROLLBACK_COMPLETED | CORRECTION_ENTRY.
#[global] Instance eq_dec : EqDecision t.
Proof. solve_decision. Defined.
Definition value (x : t) : string :=
  match x with
  | ACTION_STARTED => "ActionStarted" | ACTION_COMPLETED => "ActionCompleted"
  | ACTION_FAILED => "ActionFailed" | ACTION_ABORTED => "ActionAborted"
  | KILL_SWITCH_TRIGGERED => "KillSwitchTriggered" | SAFETY_CHECK_FAILED => "SafetyCheckFailed"
  | SCOPE_VIOLATION_ATTEMPTED => "ScopeViolationAttempted"
  | HUMAN_APPROVAL_REQUIRED => "HumanApprovalRequired" | APPROVAL_GRANTED => "ApprovalGranted"
  | APPROVAL_DENIED => "ApprovalDenied" | ROLLBACK_INITIATED => "RollbackInitiated"
  | ROLLBACK_COMPLETED => "RollbackCompleted" | CORRECTION_ENTRY => "CorrectionEntry"
  end.
Definition all : list t :=
  [ACTION_STARTED; ACTION_COMPLETED; ACTION_FAILED; ACTION_ABORTED; KILL_SWITCH_TRIGGERED;
   SAFETY_CHECK_FAILED; SCOPE_VIOLATION_ATTEMPTED; HUMAN_APPROVAL_REQUIRED; APPROVAL_GRANTED;
   APPROVAL_DENIED; ROLLBACK_INITIATED; ROLLBACK_COMPLETED; CORRECTION_ENTRY].
Definition of_value (s : string) : option t := head (filter (fun x => value x = s) all).
End JournalEntryType.

Module ChainIntegrityStatus.
Inductive t := VERIFIED | BROKEN.
#[global] Instance eq_dec : EqDecision t.
Proof. solve_decision. Defined.
End ChainIntegrityStatus.

Module AttackActionState.
Inductive t := AUTHORIZED | EXECUTING | COMPLETED | FAILED | ABORTED | TIMED_OUT.
#[global] Instance eq_dec : EqDecision t.
Proof. solve_decision. Defined.
Definition value (x : t) : string :=
  match x with
  | AUTHORIZED => "Authorized" | EXECUTING => "Executing" | COMPLETED => "Completed"
  | FAILED => "Failed" | ABORTED => "Aborted" | TIMED_OUT => "TimedOut"
  end.
End AttackActionState.

Module WorkerType.
Inductive t := CLOUD_AGENT | EDGE_AGENT | CONTAINER_AGENT | LOCAL_OPERATOR_AGENT | SCHEDULED_AGENT.
#[global] Instance eq_dec : EqDecision t.
Proof. solve_decision. Defined.
Definition value (x : t) : string :=
  match x with
  | CLOUD_AGENT => "CloudAgent" | EDGE_AGENT => "EdgeAgent" | CONTAINER_AGENT => "ContainerAgent"
  | LOCAL_OPERATOR_AGENT => "LocalOperatorAgent" | SCHEDULED_AGENT => "ScheduledAgent"
  end.
Definition all : list t := [CLOUD_AGENT; EDGE_AGENT; CONTAINER_AGENT; LOCAL_OPERATOR_AGENT; SCHEDULED_AGENT].
Definition of_value (s : string) : option t := head (filter (fun x => value x = s) all).
End WorkerType.

Module WorkerHealthStatus.
Inductive t := HEALTHY | DEGRADED | UNAVAILABLE | DECOMMISSIONED.
#[global] Instance eq_dec : EqDecision t.
Proof. solve_decision. Defined.
Definition value (x : t) : string :=
  match x with
  | HEALTHY => "Healthy" | DEGRADED => "Degraded" | UNAVAILABLE => "Unavailable"
  | DECOMMISSIONED => "Decommissioned"
  end.
Definition all : list t := [HEALTHY; DEGRADED; UNAVAILABLE; DECOMMISSIONED].
Definition of_value (s : string) : option t := head (filter (fun x => value x = s) all).
End WorkerHealthStatus.

Module WorkerTrustLevel.
Inductive t := HIGH_TRUST | STANDARD_TRUST | LOW_TRUST.
#[global] Instance eq_dec : EqDecision t.
Proof. solve_decision. Defined.
Definition value (x : t) : string :=
  match x with HIGH_TRUST => "HighTrust" | STANDARD_TRUST => "StandardTrust" | LOW_TRUST => "LowTrust" end.
Definition all : list t := [HIGH_TRUST; STANDARD_TRUST; LOW_TRUST].
Definition of_value (s : string) : option t := head (filter (fun x => value x = s) all).
End WorkerTrustLevel.

Module ScopeVerificationStatus.
Inductive t := VERIFIED | FAILED | UNAVAILABLE.
#[global] Instance eq_dec : EqDecision t.
Proof. solve_decision. Defined.
Definition value (x : t) : string :=
  match x with VERIFIED => "Verified" | FAILED => "Failed" | UNAVAILABLE => "Unavailable" end.
End ScopeVerificationStatus.

Module AuthorizationFailureReason.
Inductive t :=
  | KILL_SWITCH_TRIGGERED | SCOPE_VIOLATION | RATE_LIMIT_THROTTLED | RATE_LIMIT_FORBIDDEN
  | OUTSIDE_EXECUTION_WINDOW | WORKER_CAPABILITY_INSUFFICIENT | WORKER_TRUST_INSUFFICIENT
  | WORKER_UNAVAILABLE | PAYLOAD_REVOKED | PAYLOAD_NOT_APPROVED | PAYLOAD_HASH_MISMATCH.
#[global] Instance eq_dec : EqDecision t.
Proof. solve_decision. Defined.
Definition value (x : t) : string :=
  match x with
  | KILL_SWITCH_TRIGGERED => "KillSwitchTriggered" | SCOPE_VIOLATION => "ScopeViolation"
  | RATE_LIMIT_THROTTLED => "RateLimitThrottled" | RATE_LIMIT_FORBIDDEN => "RateLimitForbidden"
  | OUTSIDE_EXECUTION_WINDOW => "OutsideExecutionWindow"
  | WORKER_CAPABILITY_INSUFFICIENT => "WorkerCapabilityInsufficient"
  | WORKER_TRUST_INSUFFICIENT => "WorkerTrustInsufficient"
  | WORKER_UNAVAILABLE => "WorkerUnavailable" | PAYLOAD_REVOKED => "PayloadRevoked"
  | PAYLOAD_NOT_APPROVED => "PayloadNotApproved" | PAYLOAD_HASH_MISMATCH => "PayloadHashMismatch"
  end.
End AuthorizationFailureReason.

Definition CISO_ROLE : string := "redteam:ciso".
Definition OVERSIGHT_ROLES : gset string := {[ "legal:oversight"; "compliance:authority" ]}.

Definition impact_rank (c : ImpactCeiling.t) : Z :=
  match c with
  | ImpactCeiling.OBSERVE => 1 | ImpactCeiling.PROBE => 2
  | ImpactCeiling.EXPLOIT => 3 | ImpactCeiling.DESTRUCT => 4
  end.

Definition trust_allows_impact (trust : WorkerTrustLevel.t) (c : ImpactCeiling.t) : bool :=
  if bool_decide (trust = WorkerTrustLevel.LOW_TRUST)
  then impact_rank c <? impact_rank ImpactCeiling.EXPLOIT
  else true.

(** ** Exceptions *)

Inductive ExecException :=
  | ValueError (message : string)
  | InvalidArgument (field reason : string)
  | InvalidStateTransition (current attempted : string) (aggregate_id : uuid)
  | TenantMismatch (expected actual : TenantId)
  | OptimisticLockConflict (aggregate_id : uuid) (expected actual : Z)
  | SameOperatorReleaseForbidden (operator_id : uuid)
  | PlatformWideReleaseAuthorizationInsufficient (reason : string)
  | AggregateSealed (aggregate_id : uuid) (state : string)
  | AuthorizationRequired (reason : string)
  | AuthorizationDenied (reason check : string)
  | WorkerCapabilityInsufficient (worker_id : option uuid) (technique_id : string)
  | WorkerTrustInsufficient (worker_id : uuid) (trust impact : string)
  | WorkerDecommissioned (worker_id : uuid)
  | PortError (message : string).   (** what an adapter raised *)

(** ** Value objects *)

Record TriggerAuthority := mkTriggerAuthority { ta_operator_id : uuid; ta_role : string }.

Definition TriggerAuthority_new (op : uuid) (role : string) : result ExecException TriggerAuthority :=
  if blank role then Err (ValueError "TriggerAuthority.role must not be empty")
  else Ok (mkTriggerAuthority op role).

Record ReleaseAuthority := mkReleaseAuthority { ra_operator_id : uuid; ra_role : string }.

Definition ReleaseAuthority_new (op : uuid) (role : string) : result ExecException ReleaseAuthority :=
  if blank role then Err (ValueError "ReleaseAuthority.role must not be empty")
  else Ok (mkReleaseAuthority op role).

(** A [TriggerReason] is its stripped text. *)
Definition TriggerReason_new (value : string) : result ExecException string :=
  let text := strip value in
  if empty_str text then Err (ValueError "TriggerReason must not be empty")
  else if 2048 <? Z.of_nat (String.length text)
       then Err (ValueError "TriggerReason must be at most 2048 characters")
  else Ok text.

Definition TriggerHash_new (value : string) : result ExecException string :=
  if negb (Z.of_nat (String.length value) =? 64)
  then Err (ValueError "TriggerHash must be a 64-char SHA-256 hex digest")
  else Ok value.

Definition trigger_payload (scope : KillSwitchScope.t) (st : KillSwitchArmedState.t)
    (authority : TriggerAuthority) (timestamp : datetime) : string :=
  KillSwitchScope.value scope +:+ "|" +:+ KillSwitchArmedState.value st +:+ "|" +:+
  str_uuid (ta_operator_id authority) +:+ "|" +:+ isoformat timestamp.

Definition TriggerHash_compute (scope : KillSwitchScope.t) (st : KillSwitchArmedState.t)
    (authority : TriggerAuthority) (timestamp : datetime) : result ExecException string :=
  TriggerHash_new (sha256_hex (trigger_payload scope st authority timestamp)).

Record RateLimitPolicy := mkPolicy {
  max_executions : Z; window_duration_seconds : Z; rp_technique_category : string }.

Definition RateLimitPolicy_new (max window : Z) (category : string) : result ExecException RateLimitPolicy :=
  if max <? 1 then Err (ValueError "max_executions must be >= 1")
  else if window <? 1 then Err (ValueError "window_duration_seconds must be >= 1")
  else if blank category then Err (ValueError "technique_category must not be empty")
  else Ok (mkPolicy max window category).

Record TechniqueRef := mkTechniqueRef {
  technique_id : string; technique_category : string; impact_ceiling : ImpactCeiling.t }.

Definition TechniqueRef_new (id category : string) (c : ImpactCeiling.t) : result ExecException TechniqueRef :=
  if blank id then Err (ValueError "technique_id must not be empty")
  else if blank category then Err (ValueError "technique_category must not be empty")
  else Ok (mkTechniqueRef id category c).

(** [TargetRef], [WorkerRef] and [OperatorRef] are the ids they wrap. *)
Record ExecutionStepRef := mkStepRef { step_id : uuid; sr_operation_id : uuid; sr_engagement_id : uuid }.

(** [ActionInput]: the parameters, a [dict[str, object]]. *)
Definition ActionInput := list (string * Json).
Definition serialized (i : ActionInput) : string := dumps (JObj i).
Definition action_input_hash (i : ActionInput) : string := sha256_hex (serialized i).

Record ActionOutputRef := mkOutputRef { output_hash : string; storage_ref : string }.

Definition ActionOutputRef_new (hash storage : string) : result ExecException ActionOutputRef :=
  if negb (Z.of_nat (String.length hash) =? 64)
  then Err (ValueError "output_hash must be a 64-char SHA-256 hex digest")
  else if blank storage then Err (ValueError "storage_ref must not be empty")
  else Ok (mkOutputRef hash storage).

Definition ActionHash_new (value : string) : result ExecException string :=
  if negb (Z.of_nat (String.length value) =? 64)
  then Err (ValueError "ActionHash must be a 64-char SHA-256 hex digest")
  else Ok value.

Definition action_payload (action_id target : uuid) (technique : TechniqueRef) (input_hash : string)
    (execution_timestamp : datetime) : string :=
  str_uuid action_id +:+ "|" +:+ str_uuid target +:+ "|" +:+ technique_id technique +:+ "|" +:+
  input_hash +:+ "|" +:+ isoformat execution_timestamp.

Definition ActionHash_compute (action_id target : uuid) (technique : TechniqueRef) (input_hash : string)
    (execution_timestamp : datetime) : result ExecException string :=
  ActionHash_new (sha256_hex (action_payload action_id target technique input_hash execution_timestamp)).

Record SafetyCheckResult := mkSafety {
  sc_kill_switch_state : KillSwitchArmedState.t;
  sc_scope_status : ScopeVerificationStatus.t;
  sc_rate_limit_decision : RateLimitDecision.t;
  sc_window_permitted : bool;
  sc_worker_capability_ok : bool }.

Record AuthorizationToken := mkToken {
  tk_token_id : uuid; tk_tenant_id : TenantId; tk_engagement_id : uuid; tk_operation_id : uuid;
  tk_step_ref : ExecutionStepRef; tk_target_ref : uuid; tk_technique_ref : TechniqueRef;
  tk_operator_ref : uuid; tk_worker_ref : option uuid; tk_safety : SafetyCheckResult;
  tk_issued_at : datetime; tk_scope_hash : string; tk_engagement_version : Z }.

Record ScopeSnapshot := mkSnapshot {
  sn_engagement_id : uuid; sn_tenant_id : TenantId; authorized_target_ids : gset uuid;
  scope_hash : string; engagement_version : Z; sn_state : string;
  window_start : option datetime; window_end : option datetime;
  allowed_techniques : gset string; kill_switch_field_hint : option KillSwitchArmedState.t;
  degraded : bool }.

Record SignedCapabilityManifest := mkManifest {
  mf_techniques : gset string; mf_trust_level : WorkerTrustLevel.t; mf_signer_operator_id : uuid;
  mf_signature : string; mf_signed_at : datetime }.

Definition SignedCapabilityManifest_new (techniques : gset string) (trust : WorkerTrustLevel.t)
    (signer : uuid) (signature : string) (signed_at : datetime)
    : result ExecException SignedCapabilityManifest :=
  if bool_decide (techniques = ∅)
  then Err (ValueError "SignedCapabilityManifest must declare at least one technique")
  else if blank signature then Err (ValueError "signature must not be empty")
  else Ok (mkManifest techniques trust signer signature signed_at).

Definition manifest_hash_of (m : SignedCapabilityManifest) : string :=
  sha256_hex (join "," (sorted_strings (elements (mf_techniques m))) +:+ "|" +:+
              WorkerTrustLevel.value (mf_trust_level m) +:+ "|" +:+
              str_uuid (mf_signer_operator_id m) +:+ "|" +:+ mf_signature m +:+ "|" +:+
              isoformat (mf_signed_at m)).

Record ChainIntegrityReport := mkReport {
  ir_status : ChainIntegrityStatus.t; ir_journal_id : uuid; ir_entry_count : Z;
  broken_at_sequence : option Z; detail : string }.

Definition is_terminal_action_state (s : AttackActionState.t) : bool :=
  match s with
  | AttackActionState.COMPLETED | AttackActionState.FAILED
  | AttackActionState.ABORTED | AttackActionState.TIMED_OUT => true
  | AttackActionState.AUTHORIZED | AttackActionState.EXECUTING => false
  end.

(** ** Events *)

Inductive SafetyEvent :=
  | KillSwitchTriggered (scope : KillSwitchScope.t) (scope_ref authority_ref : uuid)
      (reason trigger_hash : string) (previous_state : KillSwitchArmedState.t)
  | KillSwitchReleased (scope : KillSwitchScope.t) (scope_ref releasing_authority_ref : uuid)
      (countersigning_authority_ref : option uuid) (previous_state : KillSwitchArmedState.t)
  | KillSwitchReArmed (scope : KillSwitchScope.t) (scope_ref authority_ref : uuid)
      (previous_state : KillSwitchArmedState.t)
  | JournalChainIntegrityFailed (journal_id engagement_id : uuid) (broken_at_sequence : option Z)
      (detail : string)
  | JournalCreated (engagement_id : uuid)
  | JournalEntryAppended (journal_id entry_id : uuid) (entry_type : string) (sequence_number : Z)
      (entry_hash : string).

Inductive PipelineEvent :=
  | AttackActionAuthorized (engagement_id operation_id step_id target_id : uuid)
      (technique_id : string) (operator_id : uuid) (action_hash : string)
  | AttackActionStarted (engagement_id operation_id : uuid) (worker_id : option uuid)
      (execution_timestamp : datetime)
  | AttackActionCompleted (engagement_id operation_id : uuid) (completion_timestamp : datetime)
      (output_hash : option string)
  | AttackActionFailed (engagement_id operation_id : uuid) (failure_reason : string)
      (completion_timestamp : datetime)
  | AttackActionAborted (engagement_id operation_id : uuid) (abort_reason : string)
      (authority_ref : uuid) (completion_timestamp : datetime)
  | AttackActionTimedOut (engagement_id operation_id : uuid) (completion_timestamp : datetime)
      (max_duration_seconds : Z)
  | AttackActionTamperDetected (engagement_id operation_id : uuid) (expected_hash actual_hash : string)
  | ExecutionWorkerRegistered (worker_type : string) (trust_level : WorkerTrustLevel.t)
      (network_zone manifest_hash : string) (signer_operator_id : uuid)
  | ExecutionWorkerHeartbeatReceived (health_status : WorkerHealthStatus.t) (heartbeat_at : datetime)
  | ExecutionWorkerHealthDegraded (previous_status new_status : WorkerHealthStatus.t)
      (heartbeat_at : datetime)
  | ExecutionWorkerDecommissioned (authority_ref : uuid) (decommissioned_at : datetime)
  | ExecutionAssigned (action_id worker_id : uuid) (technique_id : string)
  | ExecutionCompleted (action_id worker_id : uuid) (outcome : string).

(** ** Digests are always well formed *)

Lemma digest_length_ok s : negb (Z.of_nat (String.length (sha256_hex s)) =? 64) = false.
Proof. by rewrite sha256_hex_length. Qed.

Lemma TriggerHash_compute_ok scope st authority timestamp :
  TriggerHash_compute scope st authority timestamp =
    Ok (sha256_hex (trigger_payload scope st authority timestamp)).
Proof. unfold TriggerHash_compute, TriggerHash_new. by rewrite digest_length_ok. Qed.

Lemma ActionHash_compute_ok id target technique ih ts :
  ActionHash_compute id target technique ih ts = Ok (sha256_hex (action_payload id target technique ih ts)).
Proof. unfold ActionHash_compute, ActionHash_new. by rewrite digest_length_ok. Qed.
