(* ===== verification/KillSwitch.v ===== *)
(** The [KillSwitchState] aggregate, the kill switch store, and the fail-safe
    evaluation of the switches that govern an operation. *)
From stdpp Require Import base tactics list gmap strings.
From Stdlib Require Import ZArith Lia.
From S2P Require Import Prelude PyTypes Sha256 ExecData.
Import KillSwitchArmedState.

Local Open Scope Z_scope.

(** ** The aggregate *)

Record KillSwitchState := mkKillSwitch {
  kill_switch_id : uuid;
  ks_tenant_id : TenantId;
  scope : KillSwitchScope.t;
  scope_ref : uuid;
  armed_state : KillSwitchArmedState.t;
  ks_created_at : datetime;
  ks_updated_at : datetime;
  ks_version : Z;
  trigger_authority : option TriggerAuthority;
  trigger_reason : option string;
  trigger_timestamp : option datetime;
  trigger_hash : option string;
  release_authority : option ReleaseAuthority;
  release_countersign_authority : option ReleaseAuthority;
  release_timestamp : option datetime;
  ks_events : list (DomainEvent SafetyEvent)
}.

#[export] Instance KillSwitchState_settable : Settable KillSwitchState := fun r =>
  mkKillSwitch (kill_switch_id r) (ks_tenant_id r) (scope r) (scope_ref r) (armed_state r)
    (ks_created_at r) (ks_updated_at r) (ks_version r) (trigger_authority r) (trigger_reason r)
    (trigger_timestamp r) (trigger_hash r) (release_authority r)
    (release_countersign_authority r) (release_timestamp r) (ks_events r).

Abbreviation M := (PyM KillSwitchState ExecException).

Definition _ALLOWED (s : KillSwitchArmedState.t) : list KillSwitchArmedState.t :=
  match s with
  | ARMED => [TRIGGERED]
  | TRIGGERED => [RELEASED]
  | RELEASED => [ARMED]
  end.

Definition pop_events : M (list (DomainEvent SafetyEvent)) :=
  k ← self;
  modify (fun k => k <| ks_events := [] |>);;
  mret (ks_events k).

Definition _emit (now : datetime) (ev : SafetyEvent) : M unit :=
  modify (fun k => k <| ks_events ::= fun l => l ++ [mkEvent now (ks_tenant_id k) (kill_switch_id k) ev] |>).

Definition _mutate (now : datetime) : M unit :=
  modify (fun k => k <| ks_updated_at := now |> <| ks_version ::= Z.add 1 |>).

Definition _assert_tenant (t : TenantId) : M unit :=
  k ← self;
  raise_if (bool_decide (t ≠ ks_tenant_id k)) (TenantMismatch (ks_tenant_id k) t).

Definition _transition (to_state : KillSwitchArmedState.t) : M unit :=
  k ← self;
  raise_if (bool_decide (to_state ∉ _ALLOWED (armed_state k)))
    (InvalidStateTransition (value (armed_state k)) (value to_state) (kill_switch_id k));;
  modify (fun k => k <| armed_state := to_state |>).

Definition create_armed (id : uuid) (t : TenantId) (sc : KillSwitchScope.t) (ref : uuid)
    (now : datetime) : KillSwitchState :=
  mkKillSwitch id t sc ref ARMED now now 0 None None None None None None None [].

Definition trigger (t : TenantId) (authority : TriggerAuthority) (reason : string) (now : datetime)
    : M unit :=
  _assert_tenant t;;
  raise_if (blank reason) (InvalidArgument "reason" "trigger requires a non-empty reason");;
  k ← self;
  let previous := armed_state k in
  _transition TRIGGERED;;
  modify (fun k => k <| trigger_authority := Some authority |> <| trigger_reason := Some reason |>
                     <| trigger_timestamp := Some now |>);;
  h ← lift (TriggerHash_compute (scope k) TRIGGERED authority now);
  modify (fun k => k <| trigger_hash := Some h |> <| release_authority := None |>
                     <| release_countersign_authority := None |> <| release_timestamp := None |>);;
  _mutate now;;
  _emit now (KillSwitchTriggered (scope k) (scope_ref k) (ta_operator_id authority) reason h previous).

(** [role.strip().lower()] *)
Definition norm_role (a : ReleaseAuthority) : string := lower (strip (ra_role a)).

Definition _validate_platform_wide_release (releasing : ReleaseAuthority)
    (countersigning : option ReleaseAuthority) : result ExecException unit :=
  let insufficient s := Err (PlatformWideReleaseAuthorizationInsufficient s) in
  match countersigning with
  | None => insufficient "requires two distinct authorities (redteam:ciso + oversight role)"
  | Some cs =>
      if bool_decide (ra_operator_id releasing = ra_operator_id cs)
      then insufficient "same identity may not fulfill both release roles"
      else
        let roles : gset string := {[ norm_role releasing; norm_role cs ]} in
        if bool_decide (CISO_ROLE ∉ roles) then insufficient ("one authority must hold " +:+ CISO_ROLE)
        else
          let oversight := roles ∖ {[ CISO_ROLE ]} in
          if bool_decide (oversight = ∅) || negb (bool_decide (oversight ⊆ set_map lower OVERSIGHT_ROLES))
          then insufficient ("second authority must hold a distinct oversight role " +:+
                             "(compliance:authority, legal:oversight)")
          else if bool_decide (norm_role releasing = norm_role cs)
          then insufficient "releasing authorities must hold distinct roles"
          else Ok tt
  end.

Definition release (t : TenantId) (releasing : ReleaseAuthority)
    (countersigning : option ReleaseAuthority) (now : datetime) : M unit :=
  _assert_tenant t;;
  k ← self;
  raise_if match trigger_authority k with
           | Some ta => bool_decide (ra_operator_id releasing = ta_operator_id ta)
           | None => false
           end (SameOperatorReleaseForbidden (ra_operator_id releasing));;
  (if bool_decide (scope k = KillSwitchScope.PLATFORM_WIDE)
   then lift (_validate_platform_wide_release releasing countersigning)
   else raise_if (bool_decide (is_Some countersigning))
          (InvalidArgument "countersigning" "countersigning authority is only valid for PlatformWide release"));;
  let previous := armed_state k in
  _transition RELEASED;;
  modify (fun k => k <| release_authority := Some releasing |>
                     <| release_countersign_authority := countersigning |>
                     <| release_timestamp := Some now |>);;
  _mutate now;;
  _emit now (KillSwitchReleased (scope k) (scope_ref k) (ra_operator_id releasing)
               (ra_operator_id <$> countersigning) previous).

Definition re_arm (t : TenantId) (authority : TriggerAuthority) (now : datetime) : M unit :=
  _assert_tenant t;;
  k ← self;
  let previous := armed_state k in
  _transition ARMED;;
  modify (fun k => k <| trigger_authority := None |> <| trigger_reason := None |>
                     <| trigger_timestamp := None |> <| trigger_hash := None |>
                     <| release_authority := None |> <| release_countersign_authority := None |>
                     <| release_timestamp := None |>);;
  _mutate now;;
  _emit now (KillSwitchReArmed (scope k) (scope_ref k) (ta_operator_id authority) previous).

(** ** The store and its evaluation *)

(** What [IKillSwitchStore.get_state] does for one key: it returns a state, or
    [None] for a missing key, or raises. *)
Inductive Read := Found (s : option KillSwitchArmedState.t) | ReadError.

(** [IKillSwitchStore], as the evaluation service uses it. *)
Class KillSwitchStore (S : Type) := {
  get_state : S → TenantId → KillSwitchScope.t → uuid → Read;
  set_state : S → KillSwitchState → option S;
  (** a state that was written is the one read back, and other keys keep theirs *)
  get_set_same s k s' : set_state s k = Some s' →
    get_state s' (ks_tenant_id k) (scope k) (scope_ref k) = Found (Some (armed_state k));
  get_set_other s k s' t sc ref : set_state s k = Some s' →
    (t, sc, ref) ≠ (ks_tenant_id k, scope k, scope_ref k) → get_state s' t sc ref = get_state s t sc ref
}.

(** [InMemoryKillSwitchStore] *)
Record InMemoryKillSwitchStore := mkKsStore {
  ks_states : list ((TenantId * KillSwitchScope.t * uuid) * KillSwitchArmedState.t);
  ks_unavailable : bool }.

Definition mem_get_state (s : InMemoryKillSwitchStore) (t : TenantId) (sc : KillSwitchScope.t)
    (ref : uuid) : Read :=
  if ks_unavailable s then ReadError else Found (dget (ks_states s) (t, sc, ref)).

Definition mem_set_state (s : InMemoryKillSwitchStore) (k : KillSwitchState)
    : option InMemoryKillSwitchStore :=
  if ks_unavailable s then None
  else Some (mkKsStore (dset (ks_states s) (ks_tenant_id k, scope k, scope_ref k) (armed_state k))
               (ks_unavailable s)).

#[export] Program Instance InMemory_store : KillSwitchStore InMemoryKillSwitchStore := {
  get_state := mem_get_state;
  set_state := mem_set_state
}.
Next Obligation.
  unfold mem_get_state, mem_set_state. intros s k s'. destruct (ks_unavailable s) eqn:Hu; [done|].
  intros [= <-]. simpl. rewrite dget_dset_eq. done.
Qed.
Next Obligation.
  unfold mem_get_state, mem_set_state. intros s k s' t sc ref. destruct (ks_unavailable s) eqn:Hu; [done|].
  intros [= <-] Hne. simpl. rewrite dget_dset_ne by congruence. done.
Qed.

Section Evaluation.
Context {S : Type} `{!KillSwitchStore S}.

(** [KillSwitchEvaluationService._safe_get] *)
Definition _safe_get (s : S) (t : TenantId) (sc : KillSwitchScope.t) (ref : uuid)
    : option KillSwitchArmedState.t :=
  match get_state s t sc ref with
  | Found st => st
  | ReadError => Some TRIGGERED
  end.

(** [KillSwitchEvaluationService.evaluate] *)
Definition evaluate (s : S) (t : TenantId) (engagement_id : uuid) (operation_id : option uuid)
    : KillSwitchArmedState.t :=
  let platform := _safe_get s t KillSwitchScope.PLATFORM_WIDE (ulid t) in
  if bool_decide (platform = Some TRIGGERED) then TRIGGERED
  else
    let engagement := _safe_get s t KillSwitchScope.ENGAGEMENT engagement_id in
    if bool_decide (engagement = Some TRIGGERED) then TRIGGERED
    else
      let blocked_operation :=
        match operation_id with
        | Some op => bool_decide (_safe_get s t KillSwitchScope.OPERATION op = Some TRIGGERED)
        | None => false
        end in
      if blocked_operation then TRIGGERED
      else if existsb (fun st => match st with
                                 | Some x => bool_decide (x ≠ ARMED)
                                 | None => false
                                 end) [platform; engagement]
           then TRIGGERED
           else ARMED.
End Evaluation.

(** ** Calls and contracts *)

Inductive call :=
  | Trigger (t : TenantId) (authority : TriggerAuthority) (reason : string) (now : datetime)
  | Release (t : TenantId) (releasing : ReleaseAuthority) (countersigning : option ReleaseAuthority)
      (now : datetime)
  | ReArm (t : TenantId) (authority : TriggerAuthority) (now : datetime).

Definition run_call (c : call) : M unit :=
  match c with
  | Trigger t a r now => trigger t a r now
  | Release t r cs now => release t r cs now
  | ReArm t a now => re_arm t a now
  end.

(** The state a call that returns leads to. *)
Definition target (c : call) : KillSwitchArmedState.t :=
  match c with Trigger _ _ _ _ => TRIGGERED | Release _ _ _ _ => RELEASED | ReArm _ _ _ => ARMED end.

(** Two people, one of them the CISO and the other from an oversight role. *)
Definition dual_control (ra : ReleaseAuthority) (countersigning : option ReleaseAuthority) : Prop :=
  ∃ cs, countersigning = Some cs ∧ ra_operator_id ra ≠ ra_operator_id cs ∧
    (norm_role ra = CISO_ROLE ∧ norm_role cs ∈ OVERSIGHT_ROLES ∨
     norm_role cs = CISO_ROLE ∧ norm_role ra ∈ OVERSIGHT_ROLES).

(** What the switch records about how it came to its state. *)
Definition audited (k : KillSwitchState) : Prop :=
  match armed_state k with
  | ARMED => trigger_authority k = None ∧ trigger_hash k = None ∧ release_authority k = None
  | TRIGGERED => ∃ ta ts,
      trigger_authority k = Some ta ∧ trigger_timestamp k = Some ts ∧
      trigger_hash k = Some (sha256_hex (trigger_payload (scope k) TRIGGERED ta ts)) ∧
      release_authority k = None
  | RELEASED => ∃ ta ra,
      trigger_authority k = Some ta ∧ release_authority k = Some ra ∧
      ra_operator_id ra ≠ ta_operator_id ta ∧
      (if decide (scope k = KillSwitchScope.PLATFORM_WIDE)
       then dual_control ra (release_countersign_authority k)
       else release_countersign_authority k = None)
  end.

(** A switch that does not block: no key, or an armed switch. *)
Definition clear {S} `{!KillSwitchStore S} (s : S) (t : TenantId) (sc : KillSwitchScope.t) (ref : uuid) : Prop :=
  get_state s t sc ref = Found None ∨ get_state s t sc ref = Found (Some ARMED).

(** ** Lemmas *)

Lemma oversight_roles_lower : set_map lower OVERSIGHT_ROLES = OVERSIGHT_ROLES.
Proof. by_compute. Qed.

Lemma ciso_not_oversight : CISO_ROLE ∉ OVERSIGHT_ROLES.
Proof. by_compute. Qed.

Lemma two_roles (a b ciso : string) (O : gset string) : ciso ∉ O →
  (ciso ∈ ({[a; b]} : gset string) ∧ ({[a; b]} ∖ {[ciso]} : gset string) ≠ ∅ ∧
   ({[a; b]} ∖ {[ciso]} : gset string) ⊆ O ∧ a ≠ b) ↔
  (a = ciso ∧ b ∈ O ∨ b = ciso ∧ a ∈ O).
Proof.
  intros Hc. split.
  - intros (Hin & _ & Hsub & Hne). apply elem_of_union in Hin.
    rewrite !elem_of_singleton in Hin. destruct Hin as [<-|<-].
    + left. split; [done|]. apply Hsub. set_solver.
    + right. split; [done|]. apply Hsub. set_solver.
  - intros [[-> Hb]|[-> Ha]].
    + assert (ciso ≠ b) by (intros <-; done). split_and!; [set_solver| |set_solver|done].
      intros He. assert (b ∈ (∅ : gset string)); [rewrite <- He; set_solver|set_solver].
    + assert (a ≠ ciso) by (intros ->; done). split_and!; [set_solver| |set_solver|done].
      intros He. assert (a ∈ (∅ : gset string)); [rewrite <- He; set_solver|set_solver].
Qed.

Lemma platform_wide_release_ok ra cs :
  _validate_platform_wide_release ra cs = Ok tt ↔ dual_control ra cs.
Proof.
  unfold _validate_platform_wide_release, dual_control.
  destruct cs as [cs|]; [|split; [done|by intros (? & ? & _)]].
  rewrite oversight_roles_lower.
  pose proof (two_roles (norm_role ra) (norm_role cs) _ _ ciso_not_oversight) as Hroles.
  transitivity (ra_operator_id ra ≠ ra_operator_id cs ∧
    (norm_role ra = CISO_ROLE ∧ norm_role cs ∈ OVERSIGHT_ROLES ∨
     norm_role cs = CISO_ROLE ∧ norm_role ra ∈ OVERSIGHT_ROLES)).
  2:{ split; [intros []; by exists cs|intros (? & [= <-] & ?); done]. }
  rewrite <- Hroles. generalize (norm_role ra) (norm_role cs) OVERSIGHT_ROLES. intros a b O. clear.
  repeat case_bool_decide; simpl; split; try done; try (intros (? & ? & ? & ? & ?); done).
Qed.

Ltac unfold_ops :=
  unfold trigger, release, re_arm, _assert_tenant, _transition, _mutate, _emit.

Lemma allowed_from s x : x ∈ _ALLOWED s →
  s = match x with TRIGGERED => ARMED | RELEASED => TRIGGERED | ARMED => RELEASED end.
Proof. destruct s; simpl; by intros ->%list_elem_of_singleton. Qed.

Lemma run_call_audited c : keeps audited (run_call c).
Proof.
  intros k Hk. unfold audited in *.
  destruct c as [t authority reason now|t ra cs now|t authority now]; simpl; unfold_ops; wp_run; stable; simpl in *; try done.
  - match goal with H : TriggerHash_compute _ _ _ _ = _ |- _ =>
      rewrite TriggerHash_compute_ok in H; injection H as <- end.
    by exists authority, now.
  - match goal with H : _ ∈ _ALLOWED _ |- _ => apply allowed_from in H; rewrite H in Hk end.
    destruct Hk as (ta & ts & Hta & _). rewrite Hta in *. exists ta, ra. guards.
    split_and!; try done. rewrite decide_True by done. apply platform_wide_release_ok. by destruct a.
  - match goal with H : _ ∈ _ALLOWED _ |- _ => apply allowed_from in H; rewrite H in Hk end.
    destruct Hk as (ta & ts & Hta & _). rewrite Hta in *. exists ta, ra. guards.
    split_and!; try done. rewrite decide_False by done. by apply eq_None_not_Some.
Qed.

Lemma run_call_step c k :
  wp (run_call c)
    (λ _ k', target c ∈ _ALLOWED (armed_state k) ∧ armed_state k' = target c ∧ ks_version k' = ks_version k + 1)
    (λ _ k', k' = k) k.
Proof.
  destruct c; simpl; unfold_ops; wp_run; stable; simpl in *; try done.
  all: split_and!; [done|done|lia].
Qed.

Lemma safe_get_clear {S} `{!KillSwitchStore S} (s : S) t sc ref :
  clear s t sc ref ↔ _safe_get s t sc ref = None ∨ _safe_get s t sc ref = Some ARMED.
Proof.
  unfold clear, _safe_get. destruct (get_state s t sc ref) as [st|].
  - split; (intros [?|?]; [left|right]); congruence.
  - split; intros [?|?]; done.
Qed.

Lemma safe_get_operation {S} `{!KillSwitchStore S} (s : S) t sc ref :
  (∃ st, get_state s t sc ref = Found st ∧ st ≠ Some TRIGGERED) ↔ _safe_get s t sc ref ≠ Some TRIGGERED.
Proof.
  unfold _safe_get. destruct (get_state s t sc ref) as [st|].
  - split; [intros (? & [= <-] & ?); done|by exists st].
  - split; [intros (? & ? & _); done|done].
Qed.

(** ** A concrete switch *)

Definition acme : TenantId := mkEntityId 1.
Definition demo_trigger_authority : TriggerAuthority := mkTriggerAuthority 10 "redteam:lead".
Definition demo_ciso : ReleaseAuthority := mkReleaseAuthority 11 " RedTeam:CISO".
Definition demo_legal : ReleaseAuthority := mkReleaseAuthority 12 "legal:oversight".
Definition demo_switch : KillSwitchState :=
  create_armed 500 acme KillSwitchScope.PLATFORM_WIDE 1 1709210096000000.

(** ** Properties *)

(** C9. Whatever calls a kill switch receives, it goes round
    Armed, Triggered, Released, Armed, one version per call, and a call that
    raises changes nothing; a triggered switch carries the digest of who
    triggered it and when; and a released one was released by somebody other
    than the operator who triggered it, for a platform-wide switch by two
    different people, one holding the CISO role and the other an oversight
    role. *)
Theorem kill_switch_release_is_audited id t sc ref now cs c :
  let k := run_all run_call cs (create_armed id t sc ref now) in
  audited k ∧
  match run_call c k with
  | (Ok _, k') => target c ∈ _ALLOWED (armed_state k) ∧ armed_state k' = target c ∧
                  ks_version k' = ks_version k + 1
  | (Err _, k') => k' = k
  end.
Proof.
  intros k. split.
  - apply run_all_keeps; [apply run_call_audited|]. done.
  - pose proof (run_call_step c k) as Hstep. unfold wp in Hstep.
    by destruct (run_call c k) as [[]].
Qed.

(** The evaluation fails safe: it answers Armed exactly when the platform
    switch and the engagement switch of the tenant were read and are missing or
    armed, and the operation switch, if there is one, was read and is not
    triggered; in every other case, a store error included, it answers
    Triggered.  A released operation switch does not block, unlike the other
    two. *)
Theorem evaluation_fails_safe {S} `{!KillSwitchStore S} (s : S) t engagement operation :
  (evaluate s t engagement operation = ARMED ↔
     clear s t KillSwitchScope.PLATFORM_WIDE (ulid t) ∧ clear s t KillSwitchScope.ENGAGEMENT engagement ∧
     ∀ op, operation = Some op → ∃ st, get_state s t KillSwitchScope.OPERATION op = Found st ∧ st ≠ Some TRIGGERED) ∧
  (evaluate s t engagement operation = ARMED ∨ evaluate s t engagement operation = TRIGGERED).
Proof.
  rewrite !safe_get_clear. setoid_rewrite safe_get_operation. unfold evaluate.
  generalize (_safe_get s t KillSwitchScope.PLATFORM_WIDE (ulid t))
    (_safe_get s t KillSwitchScope.ENGAGEMENT engagement). intros p e.
  assert (∃ b : bool, b = match operation with
            | Some op => bool_decide (_safe_get s t KillSwitchScope.OPERATION op = Some TRIGGERED)
            | None => false end ∧
          ((∀ op, operation = Some op → _safe_get s t KillSwitchScope.OPERATION op ≠ Some TRIGGERED) ↔ b = false))
    as (b & <- & ->).
  { eexists. split; [reflexivity|]. destruct operation as [op|]; [|done].
    rewrite bool_decide_eq_false. split; [auto|by intros ? ? [= <-]]. }
  destruct p as [[]|], e as [[]|], b; simpl; split; auto; split; auto; intros; destruct_and?; try done;
    destruct_or?; done.
Qed.
