(* ===== verification/RateLimit.v ===== *)
(** Rate limiting: the decision policy of [RateLimitBucket], the in-memory
    store with its fixed windows and Destruct slots, and
    [RateLimitEvaluationService]. *)
From stdpp Require Import base tactics list gmap strings sorting.
From Stdlib Require Import ZArith Lia.
From S2P Require Import Prelude PyTypes ExecData.
Import RateLimitDecision.

Local Open Scope Z_scope.

(** ** The policy *)

(** [RateLimitBucket.destruct_hard_limit] *)
Definition destruct_hard_limit : Z := 1.

Definition decide_from_count (count_after_increment max_executions : Z)
    (is_destruct destruct_already_used : bool) : RateLimitDecision.t :=
  if is_destruct then
    if destruct_already_used then FORBIDDEN
    else if destruct_hard_limit <? count_after_increment then FORBIDDEN else PERMITTED
  else if max_executions <? count_after_increment then THROTTLED else PERMITTED.

(** ** The store *)

(** [RateLimitBucket.bucket_key_parts] and [destruct_nx_key], as the parts
    the key strings are made of. *)
Definition BucketKey : Type := TenantId * uuid * string.
Definition bucket_key_parts (t : TenantId) (target : uuid) (category : string) : BucketKey :=
  (t, target, category).
Definition destruct_nx_key (engagement target : uuid) : uuid * uuid := (engagement, target).

Record RateRequest := mkRequest {
  rq_tenant_id : TenantId; rq_target_id : uuid; rq_technique_category : string;
  rq_policy : RateLimitPolicy; rq_engagement_id : uuid; rq_is_destruct : bool }.

(** [IRateLimitStore]: one atomic operation.  [destruct_used] is the fact a
    client may rely on: a Destruct slot, once taken, stays taken. *)
Class RateLimitStore (S : Type) := {
  evaluate_and_consume : RateRequest → datetime → S → RateLimitDecision.t * S;
  destruct_used : S → uuid → uuid → Prop;
  permitted_destruct_uses r now s :
    rq_is_destruct r = true → (evaluate_and_consume r now s).1 = PERMITTED →
    ¬ destruct_used s (rq_engagement_id r) (rq_target_id r) ∧
    destruct_used (evaluate_and_consume r now s).2 (rq_engagement_id r) (rq_target_id r);
  destruct_used_stays r now s e target :
    destruct_used s e target → destruct_used (evaluate_and_consume r now s).2 e target
}.

(** [InMemoryRateLimitStore]: per bucket the count and the start of its
    window, and the Destruct keys that were taken. *)
Record InMemoryRateLimitStore := mkRateStore {
  counts : gmap BucketKey (Z * datetime);
  destruct_keys : gset (uuid * uuid) }.

(** [evaluate_and_consume] at the time [now] of [time.time()]. *)
Definition mem_evaluate (r : RateRequest) (now : datetime) (s : InMemoryRateLimitStore)
    : RateLimitDecision.t * InMemoryRateLimitStore :=
  if rq_is_destruct r then
    let nx_key := destruct_nx_key (rq_engagement_id r) (rq_target_id r) in
    if bool_decide (nx_key ∈ destruct_keys s) then (FORBIDDEN, s)
    else (PERMITTED, mkRateStore (counts s) ({[nx_key]} ∪ destruct_keys s))
  else
    let key := bucket_key_parts (rq_tenant_id r) (rq_target_id r) (rq_technique_category r) in
    let '(count, start) := default (0, now) (counts s !! key) in
    let '(count, start) :=
      if window_duration_seconds (rq_policy r) * 1000000 <=? now - start then (0, now) else (count, start) in
    let count := count + 1 in
    (decide_from_count count (max_executions (rq_policy r)) false false,
     mkRateStore (<[key := (count, start)]> (counts s)) (destruct_keys s)).

#[export] Program Instance InMemory_rate_store : RateLimitStore InMemoryRateLimitStore := {
  evaluate_and_consume := mem_evaluate;
  destruct_used s e target := destruct_nx_key e target ∈ destruct_keys s
}.
Next Obligation.
  unfold mem_evaluate. intros r now s ->. case_bool_decide; simpl; [done|]. intros _. set_solver.
Qed.
Next Obligation.
  unfold mem_evaluate. intros r now s e target Hu. destruct (rq_is_destruct r).
  - case_bool_decide; simpl; set_solver.
  - by repeat case_match.
Qed.

(** ** The service *)

Definition consume {St} `{!RateLimitStore St} (r : RateRequest) (now : datetime)
    : PyM St ExecException RateLimitDecision.t := fun s =>
  let '(d, s') := evaluate_and_consume r now s in (Ok d, s').

(** [RateLimitEvaluationService.evaluate]: the request it makes of the store. *)
Definition rate_evaluate {St} `{!RateLimitStore St} (t : TenantId) (target : uuid) (technique : TechniqueRef)
    (policy : RateLimitPolicy) (engagement : uuid) (now : datetime) : PyM St ExecException RateLimitDecision.t :=
  let is_destruct := bool_decide (impact_ceiling technique = ImpactCeiling.DESTRUCT) in
  effective_policy ←
    (if is_destruct
     then lift (RateLimitPolicy_new destruct_hard_limit (window_duration_seconds policy)
                  (technique_category technique))
     else mret policy);
  consume (mkRequest t target (technique_category technique) effective_policy engagement is_destruct) now.

(** ** Traces of requests *)

(** The decisions on a sequence of timed requests. *)
Fixpoint decisions (reqs : list (datetime * RateRequest)) (s : InMemoryRateLimitStore)
    : list (datetime * RateRequest * RateLimitDecision.t) :=
  match reqs with
  | [] => []
  | (now, r) :: reqs' =>
      let '(d, s') := mem_evaluate r now s in (now, r, d) :: decisions reqs' s'
  end.

(** Non-Destruct requests on one bucket. *)
Definition on_bucket (key : BucketKey) (r : RateRequest) : bool :=
  negb (rq_is_destruct r) &&
  bool_decide (bucket_key_parts (rq_tenant_id r) (rq_target_id r) (rq_technique_category r) = key).

(** How many requests on a bucket were permitted at a time in [lo, hi). *)
Definition permitted_between (key : BucketKey) (lo hi : datetime)
    (log : list (datetime * RateRequest * RateLimitDecision.t)) : Z :=
  Z.of_nat (length (filter (fun x => on_bucket key x.1.2 && bool_decide (x.2 = PERMITTED) &&
                                     (lo <=? x.1.1) && (x.1.1 <? hi)) log)).

Definition empty_store : InMemoryRateLimitStore := mkRateStore ∅ ∅.

(** ** Lemmas *)

Section Windows.
Context (key : BucketKey) (pol : RateLimitPolicy).
Context (Hmax : 1 <= max_executions pol) (Hwin : 1 <= window_duration_seconds pol).
Abbreviation D := (window_duration_seconds pol * 1000000).
Abbreviation P := (permitted_between key).

(** What the bucket's entry says of the permits given so far. *)
Definition bucket_inv (log : list (datetime * RateRequest * RateLimitDecision.t)) (entry : option (Z * datetime))
    (last : datetime) : Prop :=
  (∀ a, P a (a + D) log <= 2 * max_executions pol) ∧
  match entry with
  | None => ∀ lo hi, P lo hi log = 0
  | Some (count, start) =>
      start <= last ∧ 1 <= count ∧
      (∀ hi, P start hi log <= Z.min count (max_executions pol)) ∧
      (∀ a, start < a + D → P a start log <= max_executions pol) ∧
      (∀ lo hi, start + D <= lo → P lo hi log = 0)
  end.

Lemma permitted_snoc lo hi log x :
  P lo hi (log ++ [x]) = P lo hi log +
    if on_bucket key x.1.2 && bool_decide (x.2 = PERMITTED) && (lo <=? x.1.1) && (x.1.1 <? hi) then 1 else 0.
Proof.
  unfold permitted_between. rewrite filter_app, length_app, Nat2Z.inj_add. f_equal.
  rewrite filter_cons, filter_nil. by destruct (_ && _).
Qed.

Lemma permitted_nonneg lo hi log : 0 <= P lo hi log.
Proof. unfold permitted_between. lia. Qed.

Lemma permitted_split lo mid hi log : lo <= mid <= hi → P lo hi log = P lo mid log + P mid hi log.
Proof.
  intros Hm. induction log as [|x log IH] using rev_ind; [done|]. rewrite !permitted_snoc, IH.
  destruct (on_bucket key x.1.2 && bool_decide (x.2 = PERMITTED)); simpl; [|lia].
  repeat case_match; lia.
Qed.

Lemma permitted_mono lo lo' hi hi' log : lo' <= lo → hi <= hi' → P lo hi log <= P lo' hi' log.
Proof.
  intros Hlo Hhi. induction log as [|x log IH] using rev_ind; [done|]. rewrite !permitted_snoc.
  destruct (on_bucket key x.1.2 && bool_decide (x.2 = PERMITTED)); simpl; [|lia].
  repeat case_match; lia.
Qed.
Lemma decide_permitted count :
  decide_from_count count (max_executions pol) false false = PERMITTED ↔ count <= max_executions pol.
Proof. unfold decide_from_count. case_match; split; try done; lia. Qed.

(** One request: it starts a window, or counts in the current one. *)
Lemma bucket_inv_fresh log entry last (now : datetime) (x : datetime * RateRequest * RateLimitDecision.t) :
  bucket_inv log entry last → last <= now → x.1.1 = now → on_bucket key x.1.2 = true →
  match entry with None => True | Some (_, start) => start + D <= now end →
  bucket_inv (log ++ [x]) (Some (1, now)) now.
Proof.
  intros (H2 & He) Hlast Hx Hon Hstart.
  assert (∀ lo hi, now <= lo → P lo hi log = 0) as Hzero.
  { intros lo hi Hlo. destruct entry as [[count start]|]; [|done]. apply He. lia. }
  assert (∀ a hi, now < a + D → P a hi log <= max_executions pol) as Hold.
  { intros a hi Ha. destruct entry as [[count start]|]; [|rewrite He; lia].
    destruct He as (_ & _ & H3 & _). pose proof (permitted_mono a start hi hi log ltac:(lia) ltac:(lia)).
    specialize (H3 hi). lia. }
  split; [|split_and!; try lia]; intros; rewrite permitted_snoc, Hx, Hon; simpl.
  - specialize (H2 a). specialize (Hold a (a + D)). repeat case_match; lia.
  - rewrite Hzero by lia. repeat case_match; lia.
  - specialize (Hold a now). repeat case_match; lia.
  - rewrite Hzero by lia. repeat case_match; lia.
Qed.

Lemma bucket_inv_count log count start last (now : datetime) (x : datetime * RateRequest * RateLimitDecision.t) :
  bucket_inv log (Some (count, start)) last → last <= now → x.1.1 = now → on_bucket key x.1.2 = true →
  now < start + D → (x.2 = PERMITTED ↔ count + 1 <= max_executions pol) →
  bucket_inv (log ++ [x]) (Some (count + 1, start)) now.
Proof.
  intros (H2 & Hs & Hc & H3 & H4 & H5) Hlast Hx Hon Hstart Hd.
  split; [|split_and!; try lia]; intros; rewrite permitted_snoc, Hx, Hon; simpl.
  - specialize (H2 a). case_bool_decide as Hp; simpl; [|lia]. apply Hd in Hp.
    repeat case_match; try lia. specialize (H3 (a + D)). specialize (H4 a).
    destruct (decide (a <= start)).
    + rewrite (permitted_split a start (a + D)) by lia. lia.
    + pose proof (permitted_mono a start (a + D) (a + D) log ltac:(lia) ltac:(lia)). lia.
  - specialize (H3 hi). case_bool_decide as Hp; simpl; [apply Hd in Hp|lia]. repeat case_match; lia.
  - specialize (H4 a). repeat case_match; lia.
  - rewrite H5 by lia. repeat case_match; lia.
Qed.

Lemma bucket_inv_other log entry last now x :
  bucket_inv log entry last → last <= now → on_bucket key x.1.2 = false →
  bucket_inv (log ++ [x]) entry now.
Proof.
  intros Hinv Hlast Hon. unfold bucket_inv in *.
  assert (∀ lo hi, P lo hi (log ++ [x]) = P lo hi log) as Heq.
  { intros. rewrite permitted_snoc, Hon. simpl. lia. }
  destruct Hinv as [H2 He]. split; [intros; rewrite Heq; apply H2|].
  destruct entry as [[count start]|]; [|intros; rewrite Heq; apply He].
  destruct He as (Hs & Hc & H3 & H4 & H5). split_and!; intros; rewrite ?Heq; auto; lia.
Qed.

Lemma bucket_inv_step log s last now r :
  bucket_inv log (counts s !! key) last → last <= now →
  (on_bucket key r = true → rq_policy r = pol) →
  bucket_inv (log ++ [(now, r, (mem_evaluate r now s).1)]) (counts (mem_evaluate r now s).2 !! key) now.
Proof.
  intros Hinv Hlast Hpol. destruct (on_bucket key r) eqn:Hon.
  - specialize (Hpol eq_refl). unfold mem_evaluate. rewrite Hpol.
    unfold on_bucket in Hon. apply andb_prop in Hon as [Hd Hk].
    apply negb_true_iff in Hd. apply bool_decide_eq_true in Hk.
    assert (on_bucket key r = true) as Hon
      by (unfold on_bucket; rewrite Hd; by apply bool_decide_eq_true).
    rewrite Hd, Hk. destruct (counts s !! key) as [[count start]|] eqn:He; simpl.
    + destruct (D <=? now - start) eqn:Hreset; simpl; rewrite lookup_insert, decide_True by done.
      * apply Z.leb_le in Hreset. eapply bucket_inv_fresh; [exact Hinv|done..|]. cbn. lia.
      * apply Z.leb_gt in Hreset.
        eapply bucket_inv_count; [exact Hinv|done|done|done|lia|apply decide_permitted].
    + rewrite Z.sub_diag. destruct (D <=? 0) eqn:?; [lia|]. simpl. rewrite lookup_insert, decide_True by done.
      eapply bucket_inv_fresh; [exact Hinv|exact Hlast|reflexivity|exact Hon|exact I].
  - replace (counts (mem_evaluate r now s).2 !! key) with (counts s !! key); [apply (bucket_inv_other _ _ last); [exact Hinv|exact Hlast|exact Hon]|].
    unfold mem_evaluate, on_bucket in *. destruct (rq_is_destruct r); [clear Hon; by case_bool_decide|].
    simpl in Hon. apply bool_decide_eq_false in Hon.
    destruct (counts s !! bucket_key_parts _ _ _) as [[c st]|]; simpl;
      destruct (_ <=? _); simpl; by rewrite lookup_insert_ne.
Qed.

Lemma decisions_bound log s last reqs :
  bucket_inv log (counts s !! key) last → StronglySorted Z.le (last :: reqs.*1) →
  (∀ x, x ∈ reqs → on_bucket key x.2 = true → rq_policy x.2 = pol) →
  ∀ a, P a (a + D) (log ++ decisions reqs s) <= 2 * max_executions pol.
Proof.
  revert log s last. induction reqs as [|[now r] reqs IH]; intros log s last Hinv Hsort Hpol a; simpl.
  - rewrite app_nil_r. apply Hinv.
  - assert (last <= now) as Hle by (inversion Hsort as [|?? _ Hall]; by inversion Hall).
    pose proof (bucket_inv_step _ _ _ now r Hinv Hle (Hpol (now, r) ltac:(left))) as Hstep.
    destruct (mem_evaluate r now s) as [d s'] eqn:Hr. simpl in *.
    rewrite cons_middle, app_assoc. apply (IH _ _ now Hstep); [by inversion Hsort|].
    intros x Hx. apply Hpol. by right.
Qed.
End Windows.

(** ** Properties *)

Definition demo_policy : RateLimitPolicy := mkPolicy 2 60 "recon".
Definition demo_request : RateRequest := mkRequest (mkEntityId 1) 20 "recon" demo_policy 30 false.
(** Two requests at the end of a window and two at the start of the next. *)
Definition demo_burst : list (datetime * RateRequest) :=
  [(0, demo_request); (59000000, demo_request); (60000000, demo_request); (61000000, demo_request)].


