(* ===== verification/Worker.v ===== *)
(** The [ExecutionWorker] aggregate, capability verification, and the
    assignment of a worker to a technique. *)
From stdpp Require Import base tactics list gmap strings.
From Stdlib Require Import ZArith Lia.
From S2P Require Import Prelude PyTypes ExecData.
Import WorkerHealthStatus.

Local Open Scope Z_scope.

(** ** The aggregate *)

Record ExecutionWorker := mkWorker {
  worker_id : uuid;
  wk_tenant_id : TenantId;
  worker_type : WorkerType.t;
  capabilities : gset string;
  trust_level : WorkerTrustLevel.t;
  health_status : WorkerHealthStatus.t;
  network_zone : string;
  manifest_hash : string;
  signer_operator_id : uuid;
  registered_at : datetime;
  wk_created_at : datetime;
  wk_updated_at : datetime;
  wk_version : Z;
  last_heartbeat_at : option datetime;
  decommissioned_at : option datetime;
  wk_events : list (DomainEvent PipelineEvent)
}.

#[export] Instance ExecutionWorker_settable : Settable ExecutionWorker := fun r =>
  mkWorker (worker_id r) (wk_tenant_id r) (worker_type r) (capabilities r) (trust_level r)
    (health_status r) (network_zone r) (manifest_hash r) (signer_operator_id r) (registered_at r)
    (wk_created_at r) (wk_updated_at r) (wk_version r) (last_heartbeat_at r) (decommissioned_at r)
    (wk_events r).

Abbreviation M := (PyM ExecutionWorker ExecException).

Definition pop_events : M (list (DomainEvent PipelineEvent)) :=
  w ← self;
  modify (fun w => w <| wk_events := [] |>);;
  mret (wk_events w).

Definition _emit (now : datetime) (ev : PipelineEvent) : M unit :=
  modify (fun w => w <| wk_events ::= fun l => l ++ [mkEvent now (wk_tenant_id w) (worker_id w) ev] |>).

Definition _mutate (now : datetime) : M unit :=
  modify (fun w => w <| wk_updated_at := now |> <| wk_version ::= Z.add 1 |>).

Definition _assert_tenant (t : TenantId) : M unit :=
  w ← self;
  raise_if (bool_decide (t ≠ wk_tenant_id w)) (TenantMismatch (wk_tenant_id w) t).

Definition register (id : uuid) (t : TenantId) (type : WorkerType.t) (zone : string)
    (manifest : SignedCapabilityManifest) (now : datetime) : result ExecException ExecutionWorker :=
  if blank zone then Err (InvalidArgument "network_zone" "must not be empty")
  else
    let hash := manifest_hash_of manifest in
    let worker := mkWorker id t type (mf_techniques manifest) (mf_trust_level manifest) HEALTHY
      (strip zone) hash (mf_signer_operator_id manifest) now now now 0 (Some now) None [] in
    Ok (_emit now (ExecutionWorkerRegistered (WorkerType.value type) (mf_trust_level manifest)
                     (strip zone) hash (mf_signer_operator_id manifest)) worker).2.

Definition record_heartbeat (t : TenantId) (health : WorkerHealthStatus.t) (now : datetime) : M unit :=
  _assert_tenant t;;
  w ← self;
  raise_if (bool_decide (health_status w = DECOMMISSIONED)) (WorkerDecommissioned (worker_id w));;
  let previous := health_status w in
  modify (fun w => w <| health_status := health |> <| last_heartbeat_at := Some now |>);;
  _mutate now;;
  _emit now (ExecutionWorkerHeartbeatReceived health now);;
  when (bool_decide (health ∈ [DEGRADED; UNAVAILABLE]) && bool_decide (previous = HEALTHY))
    (_emit now (ExecutionWorkerHealthDegraded previous health now)).

Definition decommission (t : TenantId) (authority : uuid) (now : datetime) : M unit :=
  _assert_tenant t;;
  w ← self;
  raise_if (bool_decide (health_status w = DECOMMISSIONED)) (WorkerDecommissioned (worker_id w));;
  modify (fun w => w <| health_status := DECOMMISSIONED |> <| decommissioned_at := Some now |>);;
  _mutate now;;
  _emit now (ExecutionWorkerDecommissioned authority now).

Definition assert_can_execute (technique : TechniqueRef) : M unit :=
  w ← self;
  raise_if (bool_decide (health_status w = DECOMMISSIONED)) (WorkerDecommissioned (worker_id w));;
  raise_if (bool_decide (technique_id technique ∉ capabilities w))
    (WorkerCapabilityInsufficient (Some (worker_id w)) (technique_id technique));;
  raise_if (negb (trust_allows_impact (trust_level w) (impact_ceiling technique)))
    (WorkerTrustInsufficient (worker_id w) (WorkerTrustLevel.value (trust_level w))
       (ImpactCeiling.value (impact_ceiling technique))).

Definition assign_action (t : TenantId) (action_id : uuid) (technique : TechniqueRef) (now : datetime)
    : M unit :=
  _assert_tenant t;;
  assert_can_execute technique;;
  w ← self;
  _emit now (ExecutionAssigned action_id (worker_id w) (technique_id technique)).

Definition report_execution_completed (t : TenantId) (action_id : uuid) (outcome : string)
    (now : datetime) : M unit :=
  _assert_tenant t;;
  w ← self;
  _emit now (ExecutionCompleted action_id (worker_id w) outcome).

Definition is_available (w : ExecutionWorker) : bool :=
  bool_decide (health_status w ∈ [HEALTHY; DEGRADED]).

(** ** The services *)

(** [WorkerCapabilityVerificationService.verify]: what [assert_can_execute]
    raises is one of the three exceptions it catches. *)
Definition verify (w : ExecutionWorker) (technique : TechniqueRef) : bool :=
  match assert_can_execute technique w with
  | (Err _, _) => false
  | (Ok _, _) =>
      if bool_decide (technique_id technique ∉ capabilities w) then false
      else trust_allows_impact (trust_level w) (impact_ceiling technique)
  end.

(** [PgExecutionWorkerRepository.find_available_by_capability] on the workers
    of the store. *)
Definition find_available_by_capability (workers : list ExecutionWorker) (t : TenantId)
    (technique : string) (zone : option string) : list ExecutionWorker :=
  filter (fun w => wk_tenant_id w = t ∧ is_available w = true ∧
                   (default (network_zone w) zone = network_zone w) ∧ technique ∈ capabilities w) workers.

(** [WorkerAssignmentService.select_worker] *)
Definition select_worker (workers : list ExecutionWorker) (t : TenantId) (technique : TechniqueRef)
    (zone : option string) (preferred : option ExecutionWorker) : result ExecException ExecutionWorker :=
  match preferred with
  | Some w =>
      if negb (verify w technique)
      then Err (WorkerCapabilityInsufficient (Some (worker_id w)) (technique_id technique))
      else if negb (is_available w)
      then Err (WorkerCapabilityInsufficient (Some (worker_id w)) (technique_id technique))
      else Ok w
  | None =>
      match filter (fun w => verify w technique && is_available w)
              (find_available_by_capability workers t (technique_id technique) zone) with
      | w :: _ => Ok w
      | [] => Err (WorkerCapabilityInsufficient None (technique_id technique))
      end
  end.

(** ** Calls *)

Inductive call :=
  | RecordHeartbeat (t : TenantId) (health : WorkerHealthStatus.t) (now : datetime)
  | Decommission (t : TenantId) (authority : uuid) (now : datetime)
  | AssignAction (t : TenantId) (action_id : uuid) (technique : TechniqueRef) (now : datetime)
  | ReportExecutionCompleted (t : TenantId) (action_id : uuid) (outcome : string) (now : datetime).

Definition run_call (c : call) : M unit :=
  match c with
  | RecordHeartbeat t h now => record_heartbeat t h now
  | Decommission t a now => decommission t a now
  | AssignAction t id te now => assign_action t id te now
  | ReportExecutionCompleted t id o now => report_execution_completed t id o now
  end.

(** What may run on a worker: declared in its manifest, and nothing from
    Exploit up on a worker of low trust. *)
Definition capable (w : ExecutionWorker) (technique : TechniqueRef) : Prop :=
  health_status w ≠ DECOMMISSIONED ∧ technique_id technique ∈ capabilities w ∧
  (trust_level w = WorkerTrustLevel.LOW_TRUST →
   impact_ceiling technique = ImpactCeiling.OBSERVE ∨ impact_ceiling technique = ImpactCeiling.PROBE).

(** The manifest a worker was registered with. *)
Definition manifest_of (w : ExecutionWorker) := (worker_id w, capabilities w, trust_level w, manifest_hash w).

(** Later states of a worker: the same manifest, and no way back from a
    decommissioning. *)
Definition later (w w' : ExecutionWorker) : Prop :=
  manifest_of w' = manifest_of w ∧
  (health_status w = DECOMMISSIONED → health_status w' = DECOMMISSIONED ∧
     decommissioned_at w' = decommissioned_at w).

(** ** Lemmas *)

#[export] Instance later_preorder : PreOrder later.
Proof.
  split; [done|]. intros w1 w2 w3 [Hm1 Hd1] [Hm2 Hd2]. split; [congruence|].
  intros Hd. destruct (Hd1 Hd) as [Hd' He]. destruct (Hd2 Hd') as [? ?]. split; congruence.
Qed.

Lemma trust_allows_spec trust c : trust_allows_impact trust c = true ↔
  (trust = WorkerTrustLevel.LOW_TRUST → c = ImpactCeiling.OBSERVE ∨ c = ImpactCeiling.PROBE).
Proof. destruct trust, c; vm_compute; naive_solver. Qed.

Lemma verify_spec w technique : verify w technique = true ↔ capable w technique.
Proof.
  unfold verify, capable, assert_can_execute, raise_if, self, raise, mbind, PyM_bind.
  rewrite <- trust_allows_spec.
  destruct (decide (health_status w = DECOMMISSIONED)) as [Hd|Hd];
    [rewrite bool_decide_eq_true_2 by done; split; [done|by intros []]|rewrite bool_decide_eq_false_2 by done].
  destruct (decide (technique_id technique ∈ capabilities w)) as [Hc|Hc];
    [rewrite !bool_decide_eq_false_2 by tauto|rewrite bool_decide_eq_true_2 by done; split; [done|by intros (_ & ? & _)]].
  destruct (trust_allows_impact _ _); simpl; (split; [|by intros (_ & _ & ?)]); done.
Qed.

Lemma worker_call_later c : follows run_call later c.
Proof.
  intros w. destruct c; simpl;
    unfold record_heartbeat, decommission, assign_action, report_execution_completed, assert_can_execute,
      _assert_tenant, _mutate, _emit; wp_run; guards; done.
Qed.

Lemma assign_action_capable t a te now w w' : assign_action t a te now w = (Ok tt, w') → capable w te.
Proof.
  intros Heq. refine (wp_ok _ (λ _ _, capable w te) (λ _ _, True) w tt w' _ Heq).
  unfold assign_action, _assert_tenant, assert_can_execute, _emit.
  wp_run; stable; try done. split; [done|]. by rewrite <- trust_allows_spec.
Qed.

(** The workers a search may choose from. *)
Definition candidate (workers : list ExecutionWorker) (t : TenantId) (zone : option string)
    (preferred : option ExecutionWorker) (w : ExecutionWorker) : Prop :=
  match preferred with
  | Some p => w = p
  | None => w ∈ workers ∧ wk_tenant_id w = t ∧ default (network_zone w) zone = network_zone w
  end.

(** ** Properties *)

Definition demo_manifest : SignedCapabilityManifest :=
  mkManifest {[ "T1059"; "T1046" ]} WorkerTrustLevel.LOW_TRUST 40 "sig" 0.
Definition demo_probe : TechniqueRef := mkTechniqueRef "T1046" "recon" ImpactCeiling.PROBE.
Definition demo_worker : ExecutionWorker :=
  match register 600 (mkEntityId 1) WorkerType.EDGE_AGENT "dmz" demo_manifest 5 with
  | Ok w => w
  | Err _ => mkWorker 0 (mkEntityId 0) WorkerType.EDGE_AGENT ∅ WorkerTrustLevel.LOW_TRUST DECOMMISSIONED
               "" "" 0 0 0 0 0 None None []
  end.

(** Selecting a worker answers a candidate that can run the technique and
    is available, and raises only when no candidate can; and whatever calls a
    registered worker receives, it accepts only actions whose technique its
    signed manifest declares, below Exploit if its trust is low, and none once
    decommissioned. *)
Theorem workers_run_what_their_manifest_allows workers t te zone preferred :
  match select_worker workers t te zone preferred with
  | Ok w => candidate workers t zone preferred w ∧ capable w te ∧ is_available w = true
  | Err _ => ∀ w, candidate workers t zone preferred w → ¬ (capable w te ∧ is_available w = true)
  end ∧
  ∀ id t0 type zone0 mf now w cs t1 a now1 w',
    register id t0 type zone0 mf now = Ok w →
    assign_action t1 a te now1 (run_all run_call cs w) = (Ok tt, w') →
    technique_id te ∈ mf_techniques mf ∧
    (mf_trust_level mf = WorkerTrustLevel.LOW_TRUST →
       impact_ceiling te = ImpactCeiling.OBSERVE ∨ impact_ceiling te = ImpactCeiling.PROBE) ∧
    health_status (run_all run_call cs w) ≠ DECOMMISSIONED.
Proof.
  split.
  - unfold select_worker, candidate. destruct preferred as [p|].
    + destruct (verify p te) eqn:Hv; simpl.
      * destruct (is_available p) eqn:Ha; simpl; [by apply verify_spec in Hv|]. intros w -> [_ ?]. congruence.
      * intros w -> [Hc _]. apply verify_spec in Hc. congruence.
    + destruct (filter _ _) as [|w l] eqn:Hf.
      * intros w (Hin & Ht & Hz) [Hc Ha]. assert (w ∈ (@nil ExecutionWorker)) as []%not_elem_of_nil.
        rewrite <- Hf. apply list_elem_of_filter. split.
        -- apply verify_spec in Hc. by rewrite Hc, Ha.
        -- apply list_elem_of_filter. destruct Hc as (_ & ? & _). done.
      * assert (w ∈ w :: l) as Hin by left. rewrite <- Hf in Hin.
        apply list_elem_of_filter in Hin as [Hw Hin]. apply list_elem_of_filter in Hin as [(? & ? & ? & ?) ?].
        apply Is_true_true, andb_prop in Hw as [Hv Ha]. by apply verify_spec in Hv.
  - intros id t0 type zone0 mf now w cs t1 a now1 w' Hreg Hassign.
    apply assign_action_capable in Hassign as (Hh & Hcap & Htrust).
    destruct (run_all_follows run_call later cs w worker_call_later) as [Hm _].
    unfold manifest_of in Hm. injection Hm as _ Hcaps Htl _.
    unfold register in Hreg. destruct (blank zone0); [done|]. injection Hreg as <-.
    rewrite Hcaps in Hcap. rewrite Htl in Htrust. done.
Qed.

Lemma workers_run_what_their_manifest_allows_witness :
  register 600 (mkEntityId 1) WorkerType.EDGE_AGENT "dmz" demo_manifest 5 = Ok demo_worker ∧
  ∃ w', assign_action (mkEntityId 1) 700 demo_probe 9
          (run_all run_call [RecordHeartbeat (mkEntityId 1) DEGRADED 8] demo_worker) = (Ok tt, w') ∧
        technique_id demo_probe ∈ mf_techniques demo_manifest.
Proof.
  assert (register 600 (mkEntityId 1) WorkerType.EDGE_AGENT "dmz" demo_manifest 5 = Ok demo_worker) as Hr
    by (vm_compute; reflexivity).
  split; [exact Hr|].
  destruct (assign_action (mkEntityId 1) 700 demo_probe 9
              (run_all run_call [RecordHeartbeat (mkEntityId 1) DEGRADED 8] demo_worker)) as [[[]|e] w'] eqn:Ha.
  - exists w'. split; [reflexivity|].
    exact (proj1 (proj2 (workers_run_what_their_manifest_allows [demo_worker] (mkEntityId 1) demo_probe None None)
      _ _ _ _ _ _ _ _ _ _ _ _ Hr Ha)).
  - exfalso. revert Ha. vm_compute. discriminate.
Defined.
