(* ===== verification/Action.v ===== *)
(** The [AttackAction] aggregate, the forensic record of one execution, and
    [ExecutionTimeoutService]. *)
From stdpp Require Import base tactics list gmap strings.
From Stdlib Require Import ZArith Lia.
From S2P Require Import Prelude PyTypes Sha256 PyJson ExecData.
Import AttackActionState.

Local Open Scope Z_scope.

(** ** The aggregate *)

Record AttackAction := mkAction {
  action_id : uuid;
  ac_tenant_id : TenantId;
  ac_engagement_id : uuid;
  ac_operation_id : uuid;
  step_ref : ExecutionStepRef;
  target_ref : uuid;
  technique_ref : TechniqueRef;
  operator_ref : uuid;
  worker_ref : option uuid;
  action_input : ActionInput;
  input_hash : string;
  action_hash : string;
  state : AttackActionState.t;
  safety_check : SafetyCheckResult;
  execution_timestamp : datetime;
  ac_created_at : datetime;
  ac_updated_at : datetime;
  ac_version : Z;
  completion_timestamp : option datetime;
  output_ref : option ActionOutputRef;
  failure_reason : option string;
  ac_events : list (DomainEvent PipelineEvent)
}.

#[export] Instance AttackAction_settable : Settable AttackAction := fun r =>
  mkAction (action_id r) (ac_tenant_id r) (ac_engagement_id r) (ac_operation_id r) (step_ref r)
    (target_ref r) (technique_ref r) (operator_ref r) (worker_ref r) (action_input r) (input_hash r)
    (action_hash r) (state r) (safety_check r) (execution_timestamp r) (ac_created_at r)
    (ac_updated_at r) (ac_version r) (completion_timestamp r) (output_ref r) (failure_reason r)
    (ac_events r).

Abbreviation M := (PyM AttackAction ExecException).

Definition _ALLOWED (s : AttackActionState.t) : list AttackActionState.t :=
  match s with
  | AUTHORIZED => [EXECUTING; ABORTED; FAILED]
  | EXECUTING => [COMPLETED; FAILED; ABORTED; TIMED_OUT]
  | COMPLETED | FAILED | ABORTED | TIMED_OUT => []
  end.

Definition pop_events : M (list (DomainEvent PipelineEvent)) :=
  a ← self;
  modify (fun a => a <| ac_events := [] |>);;
  mret (ac_events a).

Definition _emit (now : datetime) (ev : PipelineEvent) : M unit :=
  modify (fun a => a <| ac_events ::= fun l => l ++ [mkEvent now (ac_tenant_id a) (action_id a) ev] |>).

Definition _mutate (now : datetime) : M unit :=
  modify (fun a => a <| ac_updated_at := now |> <| ac_version ::= Z.add 1 |>).

Definition _assert_tenant (t : TenantId) : M unit :=
  a ← self;
  raise_if (bool_decide (t ≠ ac_tenant_id a)) (TenantMismatch (ac_tenant_id a) t).

Definition _assert_not_sealed : M unit :=
  a ← self;
  raise_if (is_terminal_action_state (state a)) (AggregateSealed (action_id a) (value (state a))).

Definition _transition (to_state : AttackActionState.t) : M unit :=
  _assert_not_sealed;;
  a ← self;
  raise_if (bool_decide (to_state ∉ _ALLOWED (state a)))
    (InvalidStateTransition (value (state a)) (value to_state) (action_id a));;
  modify (fun a => a <| state := to_state |>).

(** [AttackAction.create_authorized], with the fresh id it generates. *)
Definition create_authorized (id : uuid) (token : option AuthorizationToken) (input : ActionInput)
    (now : datetime) : result ExecException AttackAction :=
  match token with
  | None => Err (AuthorizationRequired "AttackAction requires AuthorizationToken")
  | Some tk =>
      let s := tk_safety tk in
      if bool_decide (sc_kill_switch_state s ≠ KillSwitchArmedState.ARMED)
      then Err (AuthorizationRequired "Kill switch was not Armed at authorization")
      else if bool_decide (sc_scope_status s ≠ ScopeVerificationStatus.VERIFIED)
      then Err (AuthorizationRequired "Scope was not Verified at authorization")
      else if bool_decide (sc_rate_limit_decision s ≠ RateLimitDecision.PERMITTED)
      then Err (AuthorizationRequired "Rate limit was not Permitted at authorization")
      else if negb (sc_window_permitted s)
      then Err (AuthorizationRequired "Execution window not permitted")
      else if negb (sc_worker_capability_ok s)
      then Err (AuthorizationRequired "Worker capability check failed")
      else
        let ih := action_input_hash input in
        match ActionHash_compute id (tk_target_ref tk) (tk_technique_ref tk) ih now with
        | Err e => Err e
        | Ok hash =>
            let action := mkAction id (tk_tenant_id tk) (tk_engagement_id tk) (tk_operation_id tk)
              (tk_step_ref tk) (tk_target_ref tk) (tk_technique_ref tk) (tk_operator_ref tk)
              (tk_worker_ref tk) input ih hash AUTHORIZED s now now now 0 None None None [] in
            Ok (_emit now (AttackActionAuthorized (tk_engagement_id tk) (tk_operation_id tk)
                             (step_id (tk_step_ref tk)) (tk_target_ref tk)
                             (technique_id (tk_technique_ref tk)) (tk_operator_ref tk) hash) action).2
        end
  end.

Definition start (t : TenantId) (now : datetime) : M unit :=
  _assert_tenant t;;
  _transition EXECUTING;;
  _mutate now;;
  a ← self;
  _emit now (AttackActionStarted (ac_engagement_id a) (ac_operation_id a) (worker_ref a)
               (execution_timestamp a)).

Definition complete (t : TenantId) (now : datetime) (output : option ActionOutputRef) : M unit :=
  _assert_tenant t;;
  _transition COMPLETED;;
  modify (fun a => a <| completion_timestamp := Some now |>);;
  when (bool_decide (is_Some output)) (modify (fun a => a <| output_ref := output |>));;
  _mutate now;;
  a ← self;
  _emit now (AttackActionCompleted (ac_engagement_id a) (ac_operation_id a) now (output_hash <$> output)).

Definition fail (t : TenantId) (reason : string) (now : datetime) : M unit :=
  _assert_tenant t;;
  _transition FAILED;;
  modify (fun a => a <| completion_timestamp := Some now |> <| failure_reason := Some reason |>);;
  _mutate now;;
  a ← self;
  _emit now (AttackActionFailed (ac_engagement_id a) (ac_operation_id a) reason now).

Definition abort (t : TenantId) (reason : string) (authority : uuid) (now : datetime) : M unit :=
  _assert_tenant t;;
  _transition ABORTED;;
  modify (fun a => a <| completion_timestamp := Some now |> <| failure_reason := Some reason |>);;
  _mutate now;;
  a ← self;
  _emit now (AttackActionAborted (ac_engagement_id a) (ac_operation_id a) reason authority now).

Definition timeout_reason (max_duration : Z) : string := "Timed out after " +:+ str_int max_duration +:+ "s".

Definition mark_timed_out (t : TenantId) (max_duration : Z) (now : datetime) : M unit :=
  _assert_tenant t;;
  _transition TIMED_OUT;;
  modify (fun a => a <| completion_timestamp := Some now |>
                     <| failure_reason := Some (timeout_reason max_duration) |>);;
  _mutate now;;
  a ← self;
  _emit now (AttackActionTimedOut (ac_engagement_id a) (ac_operation_id a) now max_duration).

Definition record_output_ref (t : TenantId) (output : ActionOutputRef) (now : datetime) : M unit :=
  _assert_tenant t;;
  a ← self;
  raise_if (is_terminal_action_state (state a) && bool_decide (state a ≠ COMPLETED))
    (AggregateSealed (action_id a) (value (state a)));;
  modify (fun a => a <| output_ref := Some output |>);;
  _mutate now.

Definition verify_integrity (now : datetime) : M bool :=
  a ← self;
  expected ← lift (ActionHash_compute (action_id a) (target_ref a) (technique_ref a) (input_hash a)
                     (execution_timestamp a));
  if bool_decide (expected ≠ action_hash a) then
    _emit now (AttackActionTamperDetected (ac_engagement_id a) (ac_operation_id a) expected (action_hash a));;
    mret false
  else mret true.

Definition is_terminal (a : AttackAction) : bool := is_terminal_action_state (state a).

(** ** [ExecutionTimeoutService] *)

(** [is_timed_out], with [max_duration] in microseconds. *)
Definition is_timed_out (a : AttackAction) (now : datetime) (max_duration : Z) : bool :=
  if is_terminal a then false else max_duration <? now - execution_timestamp a.

(** ** Calls *)

Inductive call :=
  | Start (t : TenantId) (now : datetime)
  | Complete (t : TenantId) (now : datetime) (output : option ActionOutputRef)
  | Fail (t : TenantId) (reason : string) (now : datetime)
  | Abort (t : TenantId) (reason : string) (authority : uuid) (now : datetime)
  | MarkTimedOut (t : TenantId) (max_duration : Z) (now : datetime)
  | RecordOutputRef (t : TenantId) (output : ActionOutputRef) (now : datetime)
  | VerifyIntegrity (now : datetime).

Definition run_call (c : call) : M unit :=
  match c with
  | Start t now => start t now
  | Complete t now o => complete t now o
  | Fail t r now => fail t r now
  | Abort t r a now => abort t r a now
  | MarkTimedOut t d now => mark_timed_out t d now
  | RecordOutputRef t o now => record_output_ref t o now
  | VerifyIntegrity now => verify_integrity now;; mret tt
  end.

(** What was done, by whom, to what, and the checks that allowed it. *)
Definition record_of (a : AttackAction) :=
  (action_id a, ac_tenant_id a, step_ref a, target_ref a, technique_ref a, operator_ref a, worker_ref a,
   (action_input a, input_hash a, action_hash a, safety_check a, execution_timestamp a)).

(** How it ended. *)
Definition outcome (a : AttackAction) := (state a, completion_timestamp a, failure_reason a).

(** Later states of an action. *)
Definition later (a a' : AttackAction) : Prop :=
  record_of a' = record_of a ∧
  (is_terminal a = true → outcome a' = outcome a ∧ (state a ≠ COMPLETED → output_ref a' = output_ref a)).

(** An action is over exactly when it has a completion time. *)
Definition dated (a : AttackAction) : Prop := is_terminal a = bool_decide (is_Some (completion_timestamp a)).

(** The checks of an action all passed. *)
Definition all_checks_passed (s : SafetyCheckResult) : Prop :=
  s = mkSafety KillSwitchArmedState.ARMED ScopeVerificationStatus.VERIFIED RateLimitDecision.PERMITTED true true.

Definition consistent (a : AttackAction) : Prop :=
  action_hash a = sha256_hex (action_payload (action_id a) (target_ref a) (technique_ref a) (input_hash a)
                                (execution_timestamp a)).

(** ** Lemmas *)

#[export] Instance later_preorder : PreOrder later.
Proof.
  split; [done|]. intros a1 a2 a3 [Hr1 Ho1] [Hr2 Ho2]. split; [congruence|].
  intros Ht. destruct (Ho1 Ht) as [He1 Hf1].
  assert (state a2 = state a1) as Hs by (unfold outcome in He1; congruence).
  unfold is_terminal in *. rewrite Hs in Ho2. destruct (Ho2 Ht) as [He2 Hf2]. split; [congruence|].
  intros Hne. rewrite Hf2, Hf1; done.
Qed.

Ltac unfold_ops :=
  unfold start, complete, fail, abort, mark_timed_out, record_output_ref, verify_integrity, _assert_tenant,
    _transition, _assert_not_sealed, _mutate, _emit.

Lemma action_call_later c : follows run_call later c.
Proof.
  intros a. destruct c; simpl; unfold_ops; wp_run; stable; try done; split; try done.
  all: unfold is_terminal; simpl; try congruence.
  intros Ht. split; [done|]. intros Hne.
  match goal with H : _ && _ = false |- _ => rewrite Ht, bool_decide_eq_true_2 in H by done end. done.
Qed.

Lemma run_call_dated c : keeps dated (run_call c).
Proof.
  intros a Ha. unfold dated, is_terminal in *.
  destruct c; simpl; unfold_ops; wp_run; stable; simpl; try done.
  match goal with H : is_terminal_action_state _ = false |- _ => rewrite H in Ha end. done.
Qed.

Lemma later_consistent a a' : later a a' → consistent a → consistent a'.
Proof.
  intros [Hr _]. unfold record_of in Hr. unfold consistent.
  injection Hr as -> _ _ -> -> _ _ _ -> -> _ ->. done.
Qed.

Lemma verify_consistent a now : consistent a → verify_integrity now a = (Ok true, a).
Proof.
  unfold consistent, verify_integrity, lift, self, mret, PyM_ret, mbind, PyM_bind. intros Hc.
  rewrite ActionHash_compute_ok, <- Hc, bool_decide_eq_false_2 by auto. done.
Qed.

Lemma create_authorized_ok id tk input now a : create_authorized id (Some tk) input now = Ok a →
  all_checks_passed (safety_check a) ∧ consistent a ∧ dated a.
Proof.
  unfold create_authorized, all_checks_passed, consistent, dated. rewrite ActionHash_compute_ok.
  destruct (tk_safety tk) as [ks sc rl w c]. simpl.
  destruct ks, sc, rl, w, c; simpl; intros [= <-]; done.
Qed.

(** ** A concrete action *)

Definition acme : TenantId := mkEntityId 1.
Definition demo_technique : TechniqueRef := mkTechniqueRef "T1046" "recon" ImpactCeiling.PROBE.
Definition demo_token : AuthorizationToken :=
  mkToken 900 acme 60 70 (mkStepRef 80 70 60) 20 demo_technique 40 (Some 600)
    (mkSafety KillSwitchArmedState.ARMED ScopeVerificationStatus.VERIFIED RateLimitDecision.PERMITTED true true)
    1000 "scope" 1.
Definition demo_input : ActionInput := [("port", JInt 443)].
Definition no_action : AttackAction :=
  mkAction 0 acme 0 0 (mkStepRef 0 0 0) 0 demo_technique 0 None [] "" "" ABORTED
    (mkSafety KillSwitchArmedState.ARMED ScopeVerificationStatus.VERIFIED RateLimitDecision.PERMITTED true true)
    0 0 0 0 None None None [].
Definition demo_action : AttackAction :=
  match create_authorized 700 (Some demo_token) demo_input 1709210096000000 with
  | Ok a => a
  | Err _ => no_action
  end.

(** ** Properties *)

(** An attack action is a sealed record: it exists only with all five
    safety checks passed; whatever calls it receives, what it records of the
    execution never changes and its digest verifies; and once it is over, its
    state, completion time and reason are final, as is its output unless it
    completed.  The digest covers the hash of the input but not the input:
    other parameters under the same record still verify. *)
Theorem attack_action_is_sealed id tk input now a cs :
  create_authorized id (Some tk) input now = Ok a →
  let a' := run_all run_call cs a in
  all_checks_passed (safety_check a') ∧ record_of a' = record_of a ∧ dated a' ∧
  (∀ now', verify_integrity now' a' = (Ok true, a')) ∧
  (is_terminal a' = true → ∀ cs', let a'' := run_all run_call cs' a' in
     outcome a'' = outcome a' ∧ (state a' ≠ COMPLETED → output_ref a'' = output_ref a')) ∧
  (∀ now' other, (verify_integrity now' (a' <| action_input := other |>)).1 = Ok true).
Proof.
  intros Hcreate a'. apply create_authorized_ok in Hcreate as (Hchecks & Hcons & Hdated).
  pose proof (run_all_follows run_call later cs a action_call_later) as Hlater.
  pose proof (later_consistent _ _ Hlater Hcons) as Hcons'.
  split_and!.
  - unfold a'. destruct Hlater as [Hr _]. unfold record_of in Hr. by injection Hr as _ _ _ _ _ _ _ _ _ _ -> _.
  - apply Hlater.
  - by apply run_all_keeps; [apply run_call_dated|].
  - intros now'. by apply verify_consistent.
  - intros Ht cs'. apply (run_all_follows run_call later cs' a' action_call_later), Ht.
  - intros now' other. rewrite verify_consistent; done.
Qed.

Lemma attack_action_is_sealed_witness :
  create_authorized 700 (Some demo_token) demo_input 1709210096000000 = Ok demo_action ∧
  let a' := run_all run_call [Start acme 1709210096000001; Complete acme 1709210096000009 None;
                              Abort acme "late" 41 1709210096000010] demo_action in
  state a' = COMPLETED ∧ record_of a' = record_of demo_action.
Proof.
  assert (create_authorized 700 (Some demo_token) demo_input 1709210096000000 = Ok demo_action) as Hc
    by (vm_compute; reflexivity).
  split; [exact Hc|]. split; [vm_compute; reflexivity|].
  exact (proj1 (proj2 (attack_action_is_sealed _ _ _ _ _ _ Hc))).
Defined.
