(* ===== verification/Journal.v ===== *)
(** The [ExecutionJournal] aggregate: an append-only, hash-chained log per
    engagement. *)
From stdpp Require Import base tactics list gmap strings pretty.
From Stdlib Require Import ZArith Lia.
From S2P Require Import Prelude PyTypes Sha256 ExecData.

Local Open Scope Z_scope.

(** ** Entries *)

Record JournalEntry := mkEntry {
  entry_id : uuid;
  entry_type : JournalEntryType.t;
  sequence_number : Z;
  entry_hash : string;
  previous_entry_hash : string;
  content : string;
  attribution : option uuid;
  system_attribution : option string;
  je_occurred_at : datetime;
  corrects_ref : option uuid
}.

#[export] Instance JournalEntry_settable : Settable JournalEntry := fun r =>
  mkEntry (entry_id r) (entry_type r) (sequence_number r) (entry_hash r) (previous_entry_hash r)
    (content r) (attribution r) (system_attribution r) (je_occurred_at r) (corrects_ref r).

#[export] Instance JournalEntry_eq_dec : EqDecision JournalEntry.
Proof. solve_decision. Defined.

Definition compute_entry_hash (previous_entry_hash entry_content : string) : string :=
  sha256_hex (previous_entry_hash +:+ entry_content).

(** Who an entry is attributed to, as the hash sees it. *)
Definition attribution_text (e : JournalEntry) : string :=
  match attribution e with
  | Some op => str_uuid op
  | None => match system_attribution e with
            | Some s => if empty_str s then "system" else s
            | None => "system"
            end
  end.

Definition content_for_hash (e : JournalEntry) : string :=
  JournalEntryType.value (entry_type e) +:+ "|" +:+ str_int (sequence_number e) +:+ "|" +:+ content e +:+ "|" +:+
  attribution_text e +:+ "|" +:+ isoformat (je_occurred_at e).

(** ** The aggregate *)

Record ExecutionJournal := mkJournal {
  journal_id : uuid;
  jn_tenant_id : TenantId;
  jn_engagement_id : uuid;
  jn_created_at : datetime;
  jn_updated_at : datetime;
  jn_version : Z;
  entries : list JournalEntry;
  jn_events : list (DomainEvent SafetyEvent)
}.

#[export] Instance ExecutionJournal_settable : Settable ExecutionJournal := fun r =>
  mkJournal (journal_id r) (jn_tenant_id r) (jn_engagement_id r) (jn_created_at r) (jn_updated_at r)
    (jn_version r) (entries r) (jn_events r).

Abbreviation M := (PyM ExecutionJournal ExecException).

Definition _GENESIS_HASH : string := String.concat "" (replicate 64 "0").

Definition pop_events : M (list (DomainEvent SafetyEvent)) :=
  j ← self;
  modify (fun j => j <| jn_events := [] |>);;
  mret (jn_events j).

Definition _emit (now : datetime) (ev : SafetyEvent) : M unit :=
  modify (fun j => j <| jn_events ::= fun l => l ++ [mkEvent now (jn_tenant_id j) (journal_id j) ev] |>).

Definition _mutate (now : datetime) : M unit :=
  modify (fun j => j <| jn_updated_at := now |> <| jn_version ::= Z.add 1 |>).

Definition _assert_tenant (t : TenantId) : M unit :=
  j ← self;
  raise_if (bool_decide (t ≠ jn_tenant_id j)) (TenantMismatch (jn_tenant_id j) t).

Definition create (id : uuid) (t : TenantId) (engagement : uuid) (now : datetime) : ExecutionJournal :=
  (_emit now (JournalCreated engagement) (mkJournal id t engagement now now 0 [] [])).2.

(** [self.entries[-1].entry_hash if self.entries else _GENESIS_HASH] *)
Definition head_hash (l : list JournalEntry) : string := default _GENESIS_HASH (entry_hash <$> last l).

Definition append_entry (id : uuid) (t : TenantId) (type : JournalEntryType.t) (text : string)
    (now : datetime) (attr : option uuid) (sys : option string) (corrects : option uuid) : M JournalEntry :=
  _assert_tenant t;;
  j ← self;
  let previous_hash := head_hash (entries j) in
  let sequence := Z.of_nat (length (entries j)) + 1 in
  let provisional := mkEntry id type sequence "" previous_hash text attr sys now corrects in
  let hash := compute_entry_hash previous_hash (content_for_hash provisional) in
  let entry := mkEntry id type sequence hash previous_hash text attr sys now corrects in
  modify (fun j => j <| entries ::= fun l => l ++ [entry] |>);;
  _mutate now;;
  _emit now (JournalEntryAppended (journal_id j) id (JournalEntryType.value type) sequence hash);;
  mret entry.

(** [entries.index(entry)]: the position of the first equal entry. *)
Fixpoint index (e : JournalEntry) (l : list JournalEntry) : Z :=
  match l with
  | [] => 0
  | e' :: l' => if decide (e' = e) then 0 else 1 + index e l'
  end.

(** The loop of [verify_chain_integrity]: the first sequence number at which
    the chain is broken, and how. *)
Fixpoint verify_loop (all : list JournalEntry) (previous : string) (l : list JournalEntry)
    : option (Z * string) :=
  match l with
  | [] => None
  | e :: l' =>
      let seq := sequence_number e in
      if bool_decide (previous_entry_hash e ≠ previous)
      then Some (seq, "previous_entry_hash mismatch at sequence " +:+ str_int seq)
      else if bool_decide (entry_hash e ≠ compute_entry_hash (previous_entry_hash e) (content_for_hash e))
      then Some (seq, "entry_hash mismatch at sequence " +:+ str_int seq)
      else if negb (seq =? index e all + 1)
      then Some (seq, "sequence gap/disorder at " +:+ str_int seq)
      else verify_loop all (entry_hash e) l'
  end.

Definition verify_chain_integrity (now : datetime) : M ChainIntegrityReport :=
  j ← self;
  let count := Z.of_nat (length (entries j)) in
  match verify_loop (entries j) _GENESIS_HASH (entries j) with
  | Some (seq, why) =>
      let report := mkReport ChainIntegrityStatus.BROKEN (journal_id j) count (Some seq) why in
      _emit now (JournalChainIntegrityFailed (journal_id j) (jn_engagement_id j)
                   (broken_at_sequence report) (detail report));;
      mret report
  | None => mret (mkReport ChainIntegrityStatus.VERIFIED (journal_id j) count None "")
  end.

(** ** Calls *)

Inductive call :=
  | AppendEntry (id : uuid) (t : TenantId) (type : JournalEntryType.t) (text : string) (now : datetime)
      (attr : option uuid) (sys : option string) (corrects : option uuid)
  | VerifyChain (now : datetime).

Definition run_call (c : call) : M unit :=
  match c with
  | AppendEntry id t ty text now a s co => append_entry id t ty text now a s co;; mret tt
  | VerifyChain now => verify_chain_integrity now;; mret tt
  end.

(** What one entry's hash covers. *)
Definition payload (e : JournalEntry) : string := previous_entry_hash e +:+ content_for_hash e.

(** Each entry is hashed over the hash of the one before it. *)
Fixpoint chained (previous : string) (l : list JournalEntry) : Prop :=
  match l with
  | [] => True
  | e :: l' => previous_entry_hash e = previous ∧ entry_hash e = sha256_hex (payload e) ∧
               chained (entry_hash e) l'
  end.

(** Entries are numbered from [n] on. *)
Fixpoint numbered (n : Z) (l : list JournalEntry) : Prop :=
  match l with
  | [] => True
  | e :: l' => sequence_number e = n ∧ numbered (n + 1) l'
  end.

Definition sound (l : list JournalEntry) : Prop := chained _GENESIS_HASH l ∧ numbered 1 l.

Definition verified (l : list JournalEntry) : Prop := verify_loop l _GENESIS_HASH l = None.

(** ** Lemmas *)

Lemma head_hash_snoc l e : head_hash (l ++ [e]) = entry_hash e.
Proof. unfold head_hash. by rewrite last_snoc. Qed.

Lemma chained_app p l1 l2 : chained p (l1 ++ l2) ↔
  chained p l1 ∧ chained (default p (entry_hash <$> last l1)) l2.
Proof.
  revert p. induction l1 as [|e l1 IH]; intros p; [simpl; tauto|]. simpl. rewrite IH.
  replace (default p (entry_hash <$> last (e :: l1)))
    with (default (entry_hash e) (entry_hash <$> last l1)) by (by destruct l1 as [|e' l1] using rev_ind;
      [|rewrite last_snoc, app_comm_cons, last_snoc]). tauto.
Qed.

Lemma numbered_app n l1 l2 : numbered n (l1 ++ l2) ↔ numbered n l1 ∧ numbered (n + Z.of_nat (length l1)) l2.
Proof.
  revert n. induction l1 as [|e l1 IH]; intros n; simpl; [by rewrite Z.add_0_r; tauto|].
  rewrite IH. replace (n + 1 + Z.of_nat (length l1)) with (n + Z.of_nat (S (length l1))) by lia. tauto.
Qed.

Lemma numbered_bounds n l e : numbered n l → e ∈ l → n <= sequence_number e < n + Z.of_nat (length l).
Proof.
  revert n. induction l as [|e' l IH]; intros n; simpl; [by intros _ []%not_elem_of_nil|].
  intros [Hs Hn] [->|Hin]%elem_of_cons; [lia|]. specialize (IH _ Hn Hin). lia.
Qed.

(** In a numbered log the first equal entry is the entry itself. *)
Lemma index_numbered n l1 e l2 : numbered n (l1 ++ e :: l2) → index e (l1 ++ e :: l2) + n = sequence_number e.
Proof.
  revert n. induction l1 as [|e' l1 IH]; intros n; simpl.
  - intros [-> _]. by rewrite decide_True.
  - intros [Hs Hn]. rewrite decide_False.
    + rewrite <- (IH _ Hn). lia.
    + intros ->. pose proof (numbered_bounds _ _ e Hn) as Hb. rewrite elem_of_app, elem_of_cons in Hb.
      specialize (Hb (or_intror (or_introl eq_refl))). lia.
Qed.

Lemma verify_sound_from l1 l2 : numbered 1 (l1 ++ l2) →
  chained (head_hash l1) l2 → verify_loop (l1 ++ l2) (head_hash l1) l2 = None.
Proof.
  revert l1. induction l2 as [|e l2 IH]; intros l1 Hnum; simpl; [done|].
  intros (Hp & Hh & Hc). rewrite Hp, bool_decide_eq_false_2 by auto.
  unfold compute_entry_hash. unfold payload in Hh. rewrite Hp in Hh.
  rewrite bool_decide_eq_false_2 by auto.
  rewrite <- (index_numbered 1 l1 e l2 Hnum), Z.eqb_refl. simpl.
  rewrite cons_middle, app_assoc in Hnum |- *. rewrite <- (head_hash_snoc l1 e) in Hc |- *.
  by apply IH.
Qed.

Lemma sound_verified l : sound l → verified l.
Proof. intros [Hc Hn]. exact (verify_sound_from [] l Hn Hc). Qed.

Lemma verified_chained l : verified l → chained _GENESIS_HASH l.
Proof.
  unfold verified. generalize _GENESIS_HASH. generalize l at 1. intros all.
  induction l as [|e l IH]; intros p; simpl; [done|].
  case_bool_decide as Hp; [done|].
  case_bool_decide as Hh; [done|]. destruct (negb _); [done|].
  intros Hv. split_and!; [done|done|by apply IH].
Qed.

Lemma run_call_sound c : keeps (λ j, sound (entries j)) (run_call c).
Proof.
  intros j Hj. destruct c; simpl; unfold append_entry, verify_chain_integrity, _assert_tenant, _mutate, _emit;
    wp_run; simpl; try done.
  destruct Hj as [Hc Hn]. split.
  - apply chained_app. split; [done|]. split_and!; [done|done|done].
  - apply numbered_app. split; [done|]. simpl. split; [lia|done].
Qed.

Fixpoint no_bar (s : string) : bool :=
  match s with
  | EmptyString => true
  | String c s' => negb (Ascii.eqb c (Ascii.ascii_of_nat 124)) && no_bar s'
  end.

(** A field before the first separator is determined by the text. *)
Lemma bar_inj a a' s s' : no_bar a = true → no_bar a' = true → a +:+ "|" +:+ s = a' +:+ "|" +:+ s' → a = a' ∧ s = s'.
Proof.
  revert a'. induction a as [|c a IH]; intros [|c' a']; simpl.
  - by intros _ _ [= ?].
  - intros _ Ha [= <- _]. done.
  - intros Ha _ [= -> _]. done.
  - intros [_ Ha]%andb_prop [_ Ha']%andb_prop [= -> Heq]. destruct (IH _ Ha Ha' Heq) as [-> ->]. done.
Qed.

Lemma entry_type_no_bar t : no_bar (JournalEntryType.value t) = true.
Proof. by destruct t. Qed.

Lemma entry_type_value_inj t t' : JournalEntryType.value t = JournalEntryType.value t' → t = t'.
Proof. by destruct t, t'. Qed.

Lemma no_bar_app a b : no_bar (a +:+ b) = no_bar a && no_bar b.
Proof.
  induction a as [|c a IH]; [done|]. change (String c a +:+ b) with (String c (a +:+ b)). simpl.
  by rewrite IH, andb_assoc.
Qed.

(** A field after the last separator is determined by the text. *)
Lemma bar_inj_r a a' s s' : no_bar s = true → no_bar s' = true → a +:+ "|" +:+ s = a' +:+ "|" +:+ s' → a = a' ∧ s = s'.
Proof.
  intros Hs Hs'. revert a'. induction a as [|c a IH]; intros [|c' a'] Heq.
  - injection Heq as Heq. exact (conj eq_refl Heq).
  - injection Heq as _ Heq. exfalso. revert Hs. change s with ("" +:+ s). rewrite Heq.
    change (no_bar (a' +:+ ("|" +:+ s')) = true → False). by rewrite no_bar_app, andb_false_r.
  - injection Heq as _ Heq. exfalso. revert Hs'. change s' with ("" +:+ s'). rewrite <- Heq.
    change (no_bar (a +:+ ("|" +:+ s)) = true → False). by rewrite no_bar_app, andb_false_r.
  - injection Heq as -> Heq. destruct (IH a' Heq) as [-> ->]. done.
Qed.

Lemma no_bar_pretty_go x s : no_bar s = true → no_bar (pretty_N_go x s) = true.
Proof.
  revert s. induction (N.lt_wf_0 x) as [x _ IH]; intros s Hs.
  destruct (decide (x = 0%N)) as [->|?]; [by rewrite pretty_N_go_0|].
  rewrite pretty_N_go_step by lia. apply IH; [apply N.div_lt; lia|]. simpl. rewrite Hs.
  unfold pretty_N_char. by repeat case_match.
Qed.

Lemma no_bar_pretty (x : N) : no_bar (pretty x) = true.
Proof. unfold pretty, pretty_N. case_decide; [done|]. by apply no_bar_pretty_go. Qed.

Lemma no_bar_str_int n : no_bar (str_int n) = true.
Proof. destruct n as [|p|p]; [done|apply (no_bar_pretty (Npos p))|]. exact (no_bar_pretty (Npos p)). Qed.

Lemma no_bar_dec w n : no_bar (dec w n) = true.
Proof.
  revert n. induction w as [|w IH]; intros n; [done|]. cbn [dec]. rewrite no_bar_app, IH. simpl.
  pose proof (Z.mod_pos_bound n 10 ltac:(lia)) as Hb. set (m := n mod 10) in *. clearbody m.
  assert (m = 0 ∨ m = 1 ∨ m = 2 ∨ m = 3 ∨ m = 4 ∨ m = 5 ∨ m = 6 ∨ m = 7 ∨ m = 8 ∨ m = 9) as Hm by lia.
  by repeat destruct Hm as [->|Hm]; [done..|subst].
Qed.

Lemma no_bar_isoformat t : no_bar (isoformat t) = true.
Proof.
  unfold isoformat. destruct (civil_of_days _) as [[y m] d]. rewrite !no_bar_app, !no_bar_dec.
  destruct (_ =? 0); [done|]. by rewrite no_bar_app, no_bar_dec.
Qed.

(** The text of an entry determines its fields, up to a separator inside the
    attribution. *)
Lemma content_for_hash_inj e e' : content_for_hash e = content_for_hash e' →
  entry_type e = entry_type e' ∧ str_int (sequence_number e) = str_int (sequence_number e') ∧
  (no_bar (attribution_text e) = true → no_bar (attribution_text e') = true →
   content e = content e' ∧ attribution_text e = attribution_text e' ∧
   isoformat (je_occurred_at e) = isoformat (je_occurred_at e')).
Proof.
  unfold content_for_hash. intros Heq.
  apply bar_inj in Heq as [Ht Heq]; [|apply entry_type_no_bar..].
  apply bar_inj in Heq as [Hs Heq]; [|apply no_bar_str_int..].
  split_and!; [by apply entry_type_value_inj|done|]. intros Ha Ha'.
  rewrite <- (string_app_assoc "|" (attribution_text e)), <- (string_app_assoc "|" (attribution_text e')) in Heq.
  rewrite <- !(string_app_assoc (content _)) in Heq.
  apply bar_inj_r in Heq as [Heq Hiso]; [|apply no_bar_isoformat..].
  rewrite !string_app_assoc in Heq. by apply bar_inj_r in Heq as [??].
Qed.

Lemma chained_head_length l : chained _GENESIS_HASH l → String.length (head_hash l) = 64%nat.
Proof.
  destruct l as [|e l _] using rev_ind; [done|]. rewrite head_hash_snoc.
  intros (_ & _ & -> & _)%chained_app. apply sha256_hex_length.
Qed.

(** What the hashes of two entries agree on. *)
Definition same_evidence (e e' : JournalEntry) : Prop :=
  entry_type e = entry_type e' ∧ sequence_number e = sequence_number e' ∧
  previous_entry_hash e = previous_entry_hash e' ∧ entry_hash e = entry_hash e' ∧
  content_for_hash e = content_for_hash e' ∧
  (no_bar (attribution_text e) = true → no_bar (attribution_text e') = true →
   content e = content e' ∧ attribution_text e = attribution_text e' ∧
   isoformat (je_occurred_at e) = isoformat (je_occurred_at e')).

(** Two entries that exhibit a SHA-256 collision. *)
Definition collision (l l' : list JournalEntry) : Prop :=
  ∃ e e', e ∈ l ∧ e' ∈ l' ∧ payload e ≠ payload e' ∧ sha256_hex (payload e) = sha256_hex (payload e').

(** An entry whose digest is the genesis constant. *)
Definition forges_genesis (l : list JournalEntry) : Prop :=
  ∃ e, e ∈ l ∧ sha256_hex (payload e) = _GENESIS_HASH.

Lemma same_head_same_log l l' :
  chained _GENESIS_HASH l → chained _GENESIS_HASH l' → head_hash l = head_hash l' →
  Forall2 same_evidence l l' ∨ collision l l' ∨ forges_genesis (l ++ l').
Proof.
  revert l'. induction l as [|e l IH] using rev_ind; intros l' Hc Hc' Hh; destruct l' as [|e' l' _] using rev_ind.
  - left. constructor.
  - right; right. apply chained_app in Hc' as (_ & _ & He' & _). rewrite head_hash_snoc in Hh.
    exists e'. split; [set_solver|]. by rewrite <- He', <- Hh.
  - right; right. apply chained_app in Hc as (_ & _ & He & _). rewrite head_hash_snoc in Hh.
    exists e. split; [set_solver|]. by rewrite <- He, Hh.
  - apply chained_app in Hc as (Hc & Hp & He & _). apply chained_app in Hc' as (Hc' & Hp' & He' & _).
    change (previous_entry_hash e = head_hash l) in Hp. change (previous_entry_hash e' = head_hash l') in Hp'.
    rewrite !head_hash_snoc in Hh. destruct (decide (payload e = payload e')) as [Hpay|Hpay].
    2:{ right; left. exists e, e'. split_and!; [set_solver|set_solver|done|congruence]. }
    apply string_app_inj in Hpay as [Hprev Hcont]; [|by rewrite Hp, Hp', !chained_head_length].
    destruct (IH l' Hc Hc' ltac:(congruence)) as [Hall|[(x & y & ? & ? & ? & ?)|(x & Hx & ?)]].
    + left. apply Forall2_app; [done|]. constructor; [|constructor].
      pose proof (content_for_hash_inj e e' Hcont) as (Ht & Hs%(inj pretty) & Hrest). by split_and!.
    + right; left. exists x, y. split_and!; [by apply elem_of_app; left|by apply elem_of_app; left|assumption|assumption].
    + right; right. exists x. split; [|assumption].
      revert Hx. rewrite !elem_of_app. tauto.
Qed.

(** ** A concrete journal *)

Definition acme : TenantId := mkEntityId 1.
Definition demo_journal : ExecutionJournal :=
  run_all run_call
    [AppendEntry 101 acme JournalEntryType.ACTION_STARTED "action=7" 1709210096000000 (Some 40) None None;
     AppendEntry 102 acme JournalEntryType.ACTION_COMPLETED "action=7" 1709210097000000 None
       (Some "edge|worker") None]
    (create 100 acme 60 1709210096000000).

(** The second entry with part of its attribution moved into its content. *)
Definition shift_attribution (e : JournalEntry) (s1 s2 : string) : JournalEntry :=
  e <| content := content e +:+ "|" +:+ s1 |> <| system_attribution := Some s2 |>.

(** ** Properties *)

(** The journal is append-only and its chain verifies: whatever calls it
    receives, its entries are numbered from 1, each is hashed over the one
    before it, the integrity check reports Verified and changes nothing, and
    later calls only add entries at the end. *)
Theorem journal_appends_and_verifies id t engagement now cs cs' now' :
  let j := run_all run_call cs (create id t engagement now) in
  sound (entries j) ∧
  verify_chain_integrity now' j =
    (Ok (mkReport ChainIntegrityStatus.VERIFIED (journal_id j) (Z.of_nat (length (entries j))) None ""), j) ∧
  entries j `prefix_of` entries (run_all run_call cs' j).
Proof.
  intros j.
  assert (sound (entries j)) as Hs
    by (apply (run_all_keeps run_call (λ j, sound (entries j))); [apply run_call_sound|done]).
  split_and!; [done| |].
  - unfold verify_chain_integrity, self, mret, PyM_ret, mbind, PyM_bind.
    by rewrite (sound_verified _ Hs : verify_loop _ _ _ = None).
  - assert (PreOrder (λ j1 j2, entries j1 `prefix_of` entries j2))
      by (split; [intros j1; reflexivity|intros j1 j2 j3; apply transitivity]).
    apply (run_all_follows run_call (λ j1 j2, entries j1 `prefix_of` entries j2)).
    intros c s. destruct c; simpl; unfold append_entry, verify_chain_integrity, _assert_tenant, _mutate, _emit;
      wp_run; simpl; try done. by apply prefix_app_r.
Qed.

(** C8. The chain is tamper-evident up to SHA-256: two logs that pass the
    integrity check and end in the same hash have the same entries: type, number,
    hashes and hashed text alike, and with them the content, the attribution and
    the time whenever no attribution contains the separator; unless they exhibit
    a collision of SHA-256 or an entry whose digest is the genesis constant. *)
Theorem journal_is_tamper_evident l l' :
  verified l → verified l' → head_hash l = head_hash l' →
  Forall2 same_evidence l l' ∨ collision l l' ∨ forges_genesis (l ++ l').
Proof. intros Hl Hl'. apply same_head_same_log; by apply verified_chained. Qed.

Lemma journal_is_tamper_evident_witness :
  let l := entries demo_journal in
  Forall2 same_evidence l l ∨ collision l l ∨ forges_genesis (l ++ l).
Proof.
  assert (verified (entries demo_journal)) as Hv by (vm_compute; reflexivity).
  exact (journal_is_tamper_evident _ _ Hv Hv eq_refl).
Defined.

(** What the check does not see: on a journal the aggregate built, cutting
    entries off the end passes, and so does moving text between the content and
    the system attribution of an entry across a separator, and changing the id
    or the corrected entry of any entry. *)
Theorem journal_check_is_blind_to j l1 e l2 s1 s2 id' corrects' :
  sound (entries j) → entries j = l1 ++ e :: l2 →
  verified l1 ∧
  verified (l1 ++ e <| entry_id := id' |> <| corrects_ref := corrects' |> :: l2) ∧
  (attribution e = None → system_attribution e = Some (s1 +:+ "|" +:+ s2) → s2 ≠ "" →
   verified (l1 ++ shift_attribution e s1 s2 :: l2) ∧ content (shift_attribution e s1 s2) ≠ content e).
Proof.
  intros [Hc Hn] Heq. rewrite Heq in Hc, Hn.
  assert (∀ e', entry_hash e' = entry_hash e → previous_entry_hash e' = previous_entry_hash e →
            content_for_hash e' = content_for_hash e → sequence_number e' = sequence_number e →
            verified (l1 ++ e' :: l2)) as Hreplace.
  { intros e' Hh Hp Hcont Hs. apply sound_verified. apply chained_app in Hc as (Hc1 & Hp0 & Hh0 & Hc2).
    apply numbered_app in Hn as (Hn1 & Hs0 & Hn2). split.
    - apply chained_app. split; [done|]. simpl. unfold payload in *. by rewrite Hh, Hp, Hcont.
    - apply numbered_app. split; [done|]. simpl. by rewrite Hs. }
  split_and!.
  - apply sound_verified. apply chained_app in Hc as [? _]. apply numbered_app in Hn as [? _]. done.
  - by apply Hreplace.
  - intros Ha Hsys Hs2. split.
    + apply Hreplace; try done. unfold content_for_hash, attribution_text, shift_attribution. simpl.
      rewrite Ha, Hsys. unfold empty_str. rewrite !bool_decide_eq_false_2; [|by destruct s1|done].
      by rewrite !string_app_assoc.
    + unfold shift_attribution. simpl. intros Hlen%(f_equal String.length).
      rewrite !string_length_app in Hlen. simpl in Hlen. lia.
Qed.

Lemma journal_check_is_blind_to_witness :
  ∃ e1 e2, entries demo_journal = [e1] ++ e2 :: [] ∧
    verified ([e1] ++ [shift_attribution e2 "edge" "worker"]) ∧
    content (shift_attribution e2 "edge" "worker") ≠ content e2.
Proof.
  destruct (entries demo_journal) as [|e1 [|e2 [|e3 l]]] eqn:He;
    try (exfalso; apply (f_equal length) in He; vm_compute in He; discriminate).
  assert (attribution e2 = None ∧ system_attribution e2 = Some ("edge" +:+ "|" +:+ "worker")) as [Ha Hs].
  { apply (f_equal (λ l, (default None (attribution <$> last l), default None (system_attribution <$> last l)))) in He.
    simpl in He. injection He as <- <-. vm_compute. done. }
  exists e1, e2. split; [done|].
  refine (proj2 (proj2 (journal_check_is_blind_to demo_journal [e1] e2 [] "edge" "worker" 0 None _ He)) Ha Hs _);
    [|done].
  apply (run_all_keeps run_call (λ j, sound (entries j))); [apply run_call_sound|done].
Defined.
