(* ===== verification/Authorization.v ===== *)
(** Scope verification, the execution window, and the five-check gate of
    [ExecutionAuthorizationService]. *)
From stdpp Require Import base tactics list gmap strings.
From Stdlib Require Import ZArith Lia.
From S2P Require Import Prelude PyTypes ExecData KillSwitch RateLimit Worker.
Import AuthorizationFailureReason.

Local Open Scope Z_scope.

(** ** Scope and window *)

(** [IEngagementScopePort] *)
Class EngagementScopePort := {
  get_scope_snapshot : uuid → TenantId → result ExecException ScopeSnapshot
}.

(** [ScopeVerificationService.verify] once the snapshot is read. *)
Definition verify_snapshot (snapshot : ScopeSnapshot) (target : uuid) (technique : TechniqueRef)
    (presented_hash : option string) (presented_version : option Z) : ScopeVerificationStatus.t :=
  if degraded snapshot && bool_decide (authorized_target_ids snapshot = ∅)
  then ScopeVerificationStatus.FAILED
  else if bool_decide (target ∉ authorized_target_ids snapshot)
  then ScopeVerificationStatus.FAILED
  else if bool_decide (allowed_techniques snapshot ≠ ∅) &&
          bool_decide (technique_id technique ∉ allowed_techniques snapshot)
  then ScopeVerificationStatus.FAILED
  else if match presented_hash with Some h => bool_decide (h ≠ scope_hash snapshot) | None => false end
  then ScopeVerificationStatus.FAILED
  else if match presented_version with Some v => bool_decide (v ≠ engagement_version snapshot) | None => false end
  then ScopeVerificationStatus.FAILED
  else if empty_str (scope_hash snapshot)
  then ScopeVerificationStatus.FAILED
  else ScopeVerificationStatus.VERIFIED.

Definition scope_verify `{EngagementScopePort} (t : TenantId) (engagement target : uuid)
    (technique : TechniqueRef) (presented_hash : option string) (presented_version : option Z)
    : result ExecException (ScopeVerificationStatus.t * ScopeSnapshot) :=
  match get_scope_snapshot engagement t with
  | Err e => Err e
  | Ok snapshot =>
      Ok (verify_snapshot snapshot target technique presented_hash presented_version, snapshot)
  end.

(** [ExecutionWindowService.is_within_window] *)
Definition is_within_window (now : datetime) (start stop : option datetime) : bool :=
  if match start with Some s => now <? s | None => false end then false
  else negb match stop with Some e => e <? now | None => false end.

(** ** The gate *)

Record AuthorizationRequest := mkAuthRequest {
  au_tenant_id : TenantId; au_engagement_id : uuid; au_operation_id : uuid;
  au_step_ref : ExecutionStepRef; au_target_ref : uuid; au_technique_ref : TechniqueRef;
  au_operator_ref : uuid; au_policy : RateLimitPolicy; au_now : datetime;
  au_worker : option ExecutionWorker; au_worker_ref : option uuid;
  au_presented_scope_hash : option string; au_presented_engagement_version : option Z }.

Record AuthorizationResult := mkResult {
  token : option AuthorizationToken;
  failure_reason : option AuthorizationFailureReason.t }.

Definition permitted (r : AuthorizationResult) : bool := bool_decide (is_Some (token r)).

Definition denied (reason : AuthorizationFailureReason.t) : AuthorizationResult := mkResult None (Some reason).

Definition passed : SafetyCheckResult :=
  mkSafety KillSwitchArmedState.ARMED ScopeVerificationStatus.VERIFIED RateLimitDecision.PERMITTED true true.

(** The token of a request that passed every check. *)
Definition issue (token_id : uuid) (rq : AuthorizationRequest) (snapshot : ScopeSnapshot) : AuthorizationToken :=
  mkToken token_id (au_tenant_id rq) (au_engagement_id rq) (au_operation_id rq) (au_step_ref rq)
    (au_target_ref rq) (au_technique_ref rq) (au_operator_ref rq)
    match au_worker rq with Some w => Some (worker_id w) | None => au_worker_ref rq end
    passed (au_now rq) (scope_hash snapshot) (engagement_version snapshot).

Section Gate.
Context {KS RS : Type} `{!KillSwitchStore KS} `{!RateLimitStore RS} `{!EngagementScopePort}.

(** [ExecutionAuthorizationService.authorize]: the kill switches are read from
    [ks], the rate limit store is the state. *)
Definition authorize (ks : KS) (token_id : uuid) (rq : AuthorizationRequest)
    : PyM RS ExecException AuthorizationResult :=
  let ks_state := evaluate ks (au_tenant_id rq) (au_engagement_id rq) (Some (au_operation_id rq)) in
  if bool_decide (ks_state ≠ KillSwitchArmedState.ARMED) then mret (denied KILL_SWITCH_TRIGGERED)
  else
    sc ← lift (scope_verify (au_tenant_id rq) (au_engagement_id rq) (au_target_ref rq) (au_technique_ref rq)
                 (au_presented_scope_hash rq) (au_presented_engagement_version rq));
    let '(scope_status, snapshot) := sc in
    if bool_decide (scope_status ≠ ScopeVerificationStatus.VERIFIED) then mret (denied SCOPE_VIOLATION)
    else
      rl ← rate_evaluate (au_tenant_id rq) (au_target_ref rq) (au_technique_ref rq) (au_policy rq)
             (au_engagement_id rq) (au_now rq);
      if bool_decide (rl = RateLimitDecision.THROTTLED) then mret (denied RATE_LIMIT_THROTTLED)
      else if bool_decide (rl = RateLimitDecision.FORBIDDEN) then mret (denied RATE_LIMIT_FORBIDDEN)
      else if negb (is_within_window (au_now rq) (window_start snapshot) (window_end snapshot))
      then mret (denied OUTSIDE_EXECUTION_WINDOW)
      else
        match au_worker rq with
        | Some w =>
            if negb (verify w (au_technique_ref rq))
            then mret (denied (if negb (is_available w) then WORKER_UNAVAILABLE else WORKER_CAPABILITY_INSUFFICIENT))
            else mret (mkResult (Some (issue token_id rq snapshot)) None)
        | None => mret (mkResult (Some (issue token_id rq snapshot)) None)
        end.

(** [authorize_or_raise] *)
Definition authorize_or_raise (ks : KS) (token_id : uuid) (rq : AuthorizationRequest)
    : PyM RS ExecException AuthorizationToken :=
  r ← authorize ks token_id rq;
  match token r with
  | Some tk => mret tk
  | None => let why := match failure_reason r with Some f => Some (value f) | None => None end in
            raise (AuthorizationDenied (default "denied" why) (default "unknown" why))
  end.

(** ** The contract

    What each answer means.  The checks are made in a fixed order and the
    first that fails decides; the rate limit budget is spent by every request
    that reaches the third check, also when a later check denies it. *)

(** The target and technique are in the engagement's signed scope. *)
Definition in_scope (rq : AuthorizationRequest) (snapshot : ScopeSnapshot) : Prop :=
  au_target_ref rq ∈ authorized_target_ids snapshot ∧
  (allowed_techniques snapshot = ∅ ∨ technique_id (au_technique_ref rq) ∈ allowed_techniques snapshot) ∧
  (∀ h, au_presented_scope_hash rq = Some h → h = scope_hash snapshot) ∧
  (∀ v, au_presented_engagement_version rq = Some v → v = engagement_version snapshot) ∧
  scope_hash snapshot ≠ "".

Definition in_window (rq : AuthorizationRequest) (snapshot : ScopeSnapshot) : Prop :=
  (∀ s, window_start snapshot = Some s → s <= au_now rq) ∧
  (∀ e, window_end snapshot = Some e → au_now rq <= e).

(** No switch of the tenant, the engagement or the operation stops it. *)
Definition armed (ks : KS) (rq : AuthorizationRequest) : Prop :=
  evaluate ks (au_tenant_id rq) (au_engagement_id rq) (Some (au_operation_id rq)) = KillSwitchArmedState.ARMED.

(** The worker, if the request names one, can run the technique. *)
Definition worker_capable (rq : AuthorizationRequest) : Prop :=
  ∀ w, au_worker rq = Some w → capable w (au_technique_ref rq).

(** The request the third check makes of the store; a Destruct technique is
    limited to one whatever the policy says. *)
Definition rate_request (rq : AuthorizationRequest) : RateRequest :=
  let destruct := bool_decide (impact_ceiling (au_technique_ref rq) = ImpactCeiling.DESTRUCT) in
  mkRequest (au_tenant_id rq) (au_target_ref rq) (technique_category (au_technique_ref rq))
    (if destruct then mkPolicy 1 (window_duration_seconds (au_policy rq)) (technique_category (au_technique_ref rq))
     else au_policy rq)
    (au_engagement_id rq) destruct.

Definition rate_decision (rq : AuthorizationRequest) (s : RS) : RateLimitDecision.t * RS :=
  evaluate_and_consume (rate_request rq) (au_now rq) s.

Inductive gate (ks : KS) (token_id : uuid) (rq : AuthorizationRequest) (snapshot : ScopeSnapshot) (s : RS)
    : AuthorizationResult → RS → Prop :=
  | GKillSwitch : ¬ armed ks rq → gate ks token_id rq snapshot s (denied KILL_SWITCH_TRIGGERED) s
  | GScope : armed ks rq → ¬ in_scope rq snapshot → gate ks token_id rq snapshot s (denied SCOPE_VIOLATION) s
  | GThrottled s' : armed ks rq → in_scope rq snapshot →
      rate_decision rq s = (RateLimitDecision.THROTTLED, s') →
      gate ks token_id rq snapshot s (denied RATE_LIMIT_THROTTLED) s'
  | GForbidden s' : armed ks rq → in_scope rq snapshot →
      rate_decision rq s = (RateLimitDecision.FORBIDDEN, s') →
      gate ks token_id rq snapshot s (denied RATE_LIMIT_FORBIDDEN) s'
  | GWindow s' : armed ks rq → in_scope rq snapshot →
      rate_decision rq s = (RateLimitDecision.PERMITTED, s') → ¬ in_window rq snapshot →
      gate ks token_id rq snapshot s (denied OUTSIDE_EXECUTION_WINDOW) s'
  | GWorker s' w : armed ks rq → in_scope rq snapshot →
      rate_decision rq s = (RateLimitDecision.PERMITTED, s') → in_window rq snapshot →
      au_worker rq = Some w → ¬ capable w (au_technique_ref rq) →
      gate ks token_id rq snapshot s
        (denied (if is_available w then WORKER_CAPABILITY_INSUFFICIENT else WORKER_UNAVAILABLE)) s'
  | GPermit s' : armed ks rq → in_scope rq snapshot →
      rate_decision rq s = (RateLimitDecision.PERMITTED, s') → in_window rq snapshot → worker_capable rq →
      gate ks token_id rq snapshot s (mkResult (Some (issue token_id rq snapshot)) None) s'.

(** A request whose policy and technique the value objects accept. *)
Definition well_formed (rq : AuthorizationRequest) : Prop :=
  1 <= max_executions (au_policy rq) ∧ 1 <= window_duration_seconds (au_policy rq) ∧
  blank (technique_category (au_technique_ref rq)) = false.

(** ** Lemmas *)

Lemma failed_unless (b : bool) x :
  (if b then ScopeVerificationStatus.FAILED else x) = ScopeVerificationStatus.VERIFIED ↔
  b = false ∧ x = ScopeVerificationStatus.VERIFIED.
Proof. destruct b; naive_solver. Qed.

Lemma presented_ok {A} `{EqDecision A} (o : option A) (x : A) :
  match o with Some y => bool_decide (y ≠ x) | None => false end = false ↔ ∀ y, o = Some y → y = x.
Proof.
  destruct o as [y|]; [|done]. rewrite bool_decide_eq_false. split; [|by auto].
  intros Hst%dec_stable ? [= <-]. done.
Qed.

Lemma verify_snapshot_spec snapshot rq :
  verify_snapshot snapshot (au_target_ref rq) (au_technique_ref rq) (au_presented_scope_hash rq)
    (au_presented_engagement_version rq) = ScopeVerificationStatus.VERIFIED ↔ in_scope rq snapshot.
Proof.
  unfold verify_snapshot, in_scope, empty_str. rewrite !failed_unless, !presented_ok, !bool_decide_eq_false.
  rewrite !andb_false_iff, !bool_decide_eq_false.
  split.
  - intros (_ & Ht & Hte & Hh & Hv & He & _). split_and!; try done; [by apply dec_stable|].
    destruct Hte as [Hte|Hte]; [left|right]; by apply dec_stable.
  - intros (Ht & Hte & Hh & Hv & He). split_and!; try done; [right; set_solver|by intros []|].
    destruct Hte as [Hte|Hte]; [left|right]; by intros [].
Qed.

Lemma within_window_spec rq snapshot :
  is_within_window (au_now rq) (window_start snapshot) (window_end snapshot) = true ↔ in_window rq snapshot.
Proof.
  unfold is_within_window, in_window.
  destruct (window_start snapshot) as [a|], (window_end snapshot) as [b|]; simpl;
    rewrite ?(Z.ltb_antisym _ (au_now rq)), ?(Z.ltb_antisym (au_now rq)).
  all: repeat match goal with |- context [?x <=? ?y] => destruct (Z.leb_spec x y) end; simpl; split; try done.
  all: try (intros _; split; intros ? [= <-]; lia).
  all: intros [Ha Hb]; try specialize (Ha _ eq_refl); try specialize (Hb _ eq_refl); lia.
Qed.

Lemma rate_evaluate_ok rq s : well_formed rq →
  rate_evaluate (au_tenant_id rq) (au_target_ref rq) (au_technique_ref rq) (au_policy rq)
    (au_engagement_id rq) (au_now rq) s =
  (Ok (rate_decision rq s).1, (rate_decision rq s).2).
Proof.
  intros (Hmax & Hwin & Hcat).
  unfold rate_evaluate, rate_decision, rate_request, consume, lift, mret, PyM_ret, mbind, PyM_bind.
  case_bool_decide; [|by destruct (evaluate_and_consume _ _ _)].
  unfold RateLimitPolicy_new, destruct_hard_limit. rewrite Hcat.
  destruct (Z.ltb_spec 1 1); [lia|]. destruct (Z.ltb_spec (window_duration_seconds (au_policy rq)) 1); [lia|].
  by destruct (evaluate_and_consume _ _ _).
Qed.

(** Every run of the gate is one of the contract's answers. *)
Lemma authorize_gate ks token_id rq snapshot s : well_formed rq →
  get_scope_snapshot (au_engagement_id rq) (au_tenant_id rq) = Ok snapshot →
  ∃ r s', authorize ks token_id rq s = (Ok r, s') ∧ gate ks token_id rq snapshot s r s'.
Proof.
  intros Hwf Hsnap. pose proof (rate_evaluate_ok rq s Hwf) as Hrate.
  unfold authorize, scope_verify, lift, mret, PyM_ret, mbind, PyM_bind. rewrite Hsnap.
  case_bool_decide as Hks; [by eexists _, _; split; [reflexivity|apply GKillSwitch]|].
  change (armed ks rq) in Hks.
  case_bool_decide as Hsc.
  { eexists _, _. split; [reflexivity|]. apply GScope; [done|]. by rewrite <- verify_snapshot_spec. }
  apply verify_snapshot_spec in Hsc. rewrite Hrate.
  destruct (rate_decision rq s) as [d s'] eqn:Hd. simpl.
  destruct d; simpl.
  2: by eexists _, _; split; [reflexivity|apply GThrottled].
  2: by eexists _, _; split; [reflexivity|apply GForbidden].
  destruct (is_within_window _ _ _) eqn:Hw; simpl.
  2:{ eexists _, _. split; [reflexivity|]. apply GWindow; try done.
      rewrite <- within_window_spec. by rewrite Hw. }
  apply within_window_spec in Hw.
  destruct (au_worker rq) as [w|] eqn:Hwk; [destruct (verify w _) eqn:Hv; simpl|].
  - apply verify_spec in Hv. eexists _, _. split; [reflexivity|]. apply GPermit; try done.
    unfold worker_capable. rewrite Hwk. by intros ? [= <-].
  - eexists _, _. split; [reflexivity|]. rewrite if_negb. eapply GWorker; try done.
    rewrite <- verify_spec, Hv. done.
  - eexists _, _. split; [reflexivity|]. apply GPermit; try done. unfold worker_capable. by rewrite Hwk.
Qed.

(** What a permit means. *)
Definition gate_passed (ks : KS) (rq : AuthorizationRequest) (s : RS) : Prop :=
  ∃ snapshot, get_scope_snapshot (au_engagement_id rq) (au_tenant_id rq) = Ok snapshot ∧
    armed ks rq ∧ in_scope rq snapshot ∧ in_window rq snapshot ∧
    (rate_decision rq s).1 = RateLimitDecision.PERMITTED ∧ worker_capable rq.

Lemma authorize_permits ks token_id rq s r s' : well_formed rq →
  authorize ks token_id rq s = (Ok r, s') → permitted r = true → gate_passed ks rq s.
Proof.
  intros Hwf Heq [tk Htk]%bool_decide_eq_true.
  destruct (get_scope_snapshot (au_engagement_id rq) (au_tenant_id rq)) as [snapshot|e] eqn:Hsnap.
  - destruct (authorize_gate ks token_id rq snapshot s Hwf Hsnap) as (r' & s1 & Heq' & Hg).
    rewrite Heq in Heq'. injection Heq' as <- <-. destruct Hg; try done.
    exists snapshot. split_and!; try done.
    by match goal with Hr : rate_decision _ _ = _ |- _ => rewrite Hr end.
  - unfold authorize, scope_verify, lift, mbind, PyM_bind in Heq. rewrite Hsnap in Heq.
    case_bool_decide; [|done]. by injection Heq as <- <-.
Qed.

(** A permit for a Destruct technique on a target of an engagement. *)
Definition destruct_permit (engagement target : uuid) (r : result ExecException AuthorizationResult) : bool :=
  match r with
  | Ok a => match token a with
            | Some tk => bool_decide (impact_ceiling (tk_technique_ref tk) = ImpactCeiling.DESTRUCT) &&
                         bool_decide (tk_engagement_id tk = engagement) &&
                         bool_decide (tk_target_ref tk = target)
            | None => false
            end
  | Err _ => false
  end.

(** Requests one after the other, each with the kill switches of its moment. *)
Fixpoint authorize_all (rqs : list (KS * uuid * AuthorizationRequest)) (s : RS)
    : list (result ExecException AuthorizationResult) :=
  match rqs with
  | [] => []
  | (ks, token_id, rq) :: rqs' => let '(r, s') := authorize ks token_id rq s in r :: authorize_all rqs' s'
  end.

Definition uses_destruct (s s' : RS) (engagement target : uuid) : Prop :=
  ¬ destruct_used s engagement target ∧ destruct_used s' engagement target.

Lemma wp_rate_evaluate t target technique policy engagement now s :
  wp (rate_evaluate t target technique policy engagement now)
    (λ d s', (∀ e t, destruct_used s e t → destruct_used s' e t) ∧
             (impact_ceiling technique = ImpactCeiling.DESTRUCT → d = RateLimitDecision.PERMITTED →
              uses_destruct s s' engagement target))
    (λ _ s', s' = s) s.
Proof.
  unfold rate_evaluate.
  assert (∀ pol d, (d = true ↔ impact_ceiling technique = ImpactCeiling.DESTRUCT) →
    wp (consume (mkRequest t target (technique_category technique) pol engagement d) now)
    (λ d s', (∀ e t, destruct_used s e t → destruct_used s' e t) ∧
             (impact_ceiling technique = ImpactCeiling.DESTRUCT → d = RateLimitDecision.PERMITTED →
              uses_destruct s s' engagement target))
    (λ _ s', s' = s) s) as Hconsume.
  { intros pol d Hd. unfold wp, consume.
    pose proof (destruct_used_stays (mkRequest t target (technique_category technique) pol engagement d) now s) as Hs.
    pose proof (permitted_destruct_uses (mkRequest t target (technique_category technique) pol engagement d) now s) as Hp.
    destruct (evaluate_and_consume _ _ _) as [r s']. simpl in *. split; [done|].
    intros Hi Hr. apply Hp; [by apply Hd|done]. }
  case_bool_decide as Hi; wp_run; try done; by apply Hconsume.
Qed.

Lemma authorize_destruct ks token_id rq s engagement target :
  let '(r, s') := authorize ks token_id rq s in
  (destruct_used s engagement target → destruct_used s' engagement target) ∧
  (destruct_permit engagement target r = true → uses_destruct s s' engagement target).
Proof.
  cut (wp (authorize ks token_id rq)
    (λ r s', (destruct_used s engagement target → destruct_used s' engagement target) ∧
             (destruct_permit engagement target (Ok r) = true → uses_destruct s s' engagement target))
    (λ _ s', destruct_used s engagement target → destruct_used s' engagement target) s).
  { unfold wp. destruct (authorize ks token_id rq s) as [[r|e] s']; [done|]. intros Hx. by split. }
  unfold authorize. wp_run; try done.
  eapply wp_mono; [apply wp_rate_evaluate| |by intros ? ? ->].
  intros d s' [Hstay Huse]. cbv beta. wp_run; (split; [by apply Hstay|]); try done.
  all: unfold destruct_permit; simpl; intros Hp; guards; subst; apply Huse; [done|].
  all: destruct d; simpl in *; try done.
Qed.

Lemma authorize_all_destruct rqs s engagement target :
  (length (filter (λ r, destruct_permit engagement target r) (authorize_all rqs s)) ≤ 1)%nat ∧
  (destruct_used s engagement target →
   filter (λ r, destruct_permit engagement target r) (authorize_all rqs s) = []).
Proof.
  revert s. induction rqs as [|[[ks id] rq] rqs IH]; intros s; simpl; [split; [lia|done]|].
  pose proof (authorize_destruct ks id rq s engagement target) as Hstep.
  destruct (authorize ks id rq s) as [r s']. destruct Hstep as [Hstay Huse]. destruct (IH s') as [Hle Hnil].
  rewrite filter_cons. destruct (destruct_permit engagement target r) eqn:Hp; simpl.
  - destruct (Huse eq_refl) as [Hno Hyes]. rewrite (Hnil Hyes). split; [simpl; lia|done].
  - split; [done|]. intros Hu. apply Hnil, Hstay, Hu.
Qed.
Lemma gate_deterministic ks token_id rq snapshot s r1 s1 r2 s2 :
  gate ks token_id rq snapshot s r1 s1 → gate ks token_id rq snapshot s r2 s2 → r1 = r2 ∧ s1 = s2.
Proof.
  unfold worker_capable.
  destruct 1; destruct 1; try done; try (split; congruence).
  all: repeat match goal with
       | H1 : rate_decision ?x ?y = _, H2 : rate_decision ?x ?y = _ |- _ => rewrite H1 in H2; simplify_eq
       | H1 : au_worker ?x = Some _, H2 : au_worker ?x = Some _ |- _ => rewrite H1 in H2; simplify_eq
       end; try done; naive_solver.
Qed.
End Gate.

(** ** A concrete request *)

Definition acme : TenantId := mkEntityId 1.
Definition demo_snapshot : ScopeSnapshot :=
  mkSnapshot 60 acme {[ 20; 21 ]} "scope" 1 "Active" (Some 100) (Some 2000) ∅ None false.
#[export] Instance demo_scope : EngagementScopePort := {| get_scope_snapshot := fun _ _ => Ok demo_snapshot |}.
Definition demo_strike : TechniqueRef := mkTechniqueRef "T1485" "impact" ImpactCeiling.DESTRUCT.
Definition demo_request (now : datetime) : AuthorizationRequest :=
  mkAuthRequest acme 60 70 (mkStepRef 80 70 60) 20 demo_strike 40 (mkPolicy 5 60 "impact") now None None
    (Some "scope") None.
Definition no_switches : InMemoryKillSwitchStore := mkKsStore [] false.

(** ** Properties *)

(** C1. The authorization gate implements its contract exactly: on a
    well-formed request whose scope can be read it answers, with the answer and
    the spent budget the contract gives and no other: the kill switch first,
    then scope, rate limit, window and worker, the first failing check deciding,
    and a token only when all five pass. *)
Theorem authorize_implements_gate {KS RS} `{!KillSwitchStore KS} `{!RateLimitStore RS} `{!EngagementScopePort}
    (ks : KS) (s : RS) token_id rq snapshot :
  well_formed rq → get_scope_snapshot (au_engagement_id rq) (au_tenant_id rq) = Ok snapshot →
  ∀ x s', authorize ks token_id rq s = (x, s') ↔ ∃ r, x = Ok r ∧ gate ks token_id rq snapshot s r s'.
Proof.
  intros Hwf Hsnap x s'. destruct (authorize_gate ks token_id rq snapshot s Hwf Hsnap) as (r & s1 & Heq & Hg).
  rewrite Heq. split.
  - intros [= <- <-]. eauto.
  - intros (r' & -> & Hg'). destruct (gate_deterministic _ _ _ _ _ _ _ _ _ Hg Hg') as [-> ->]. done.
Qed.

Lemma authorize_implements_gate_witness :
  well_formed (demo_request 500) ∧
  gate no_switches 900 (demo_request 500) demo_snapshot empty_store
    (mkResult (Some (issue 900 (demo_request 500) demo_snapshot)) None)
    (authorize no_switches 900 (demo_request 500) empty_store).2.
Proof.
  assert (well_formed (demo_request 500)) as Hwf by (split_and!; vm_compute; done).
  split; [exact Hwf|].
  assert (get_scope_snapshot (au_engagement_id (demo_request 500)) (au_tenant_id (demo_request 500)) =
          Ok demo_snapshot) as Hsnap by reflexivity.
  assert (authorize no_switches 900 (demo_request 500) empty_store =
          (Ok (mkResult (Some (issue 900 (demo_request 500) demo_snapshot)) None),
           (authorize no_switches 900 (demo_request 500) empty_store).2)) as Heq by (vm_compute; reflexivity).
  apply (authorize_implements_gate no_switches empty_store 900 (demo_request 500) demo_snapshot Hwf Hsnap) in Heq
    as (r & Hr & Hg). injection Hr as ->. exact Hg.
Defined.

(** C15. A target of an engagement gets at most one Destruct permit, ever: for
    every rate limit store that keeps its Destruct slots, whatever the requests,
    the kill switches and the scopes at the time of each. *)
Theorem at_most_one_destruct_permit {KS RS} `{!KillSwitchStore KS} `{!RateLimitStore RS} `{!EngagementScopePort}
    (rqs : list (KS * uuid * AuthorizationRequest)) (s : RS) engagement target :
  (length (filter (λ r, destruct_permit engagement target r) (authorize_all rqs s)) ≤ 1)%nat.
Proof. apply authorize_all_destruct. Qed.
