(* ===== verification/ExecStore.v ===== *)
(** Persistence of the execution context: the four tables, the optimistic
    locking the repositories share, and their queries. *)
From stdpp Require Import base tactics list gmap strings sorting.
From Stdlib Require Import ZArith Lia.
From S2P Require Import Prelude PyTypes ExecData KillSwitch Worker Action Journal.

Local Open Scope Z_scope.

(** ** Rows

    A row is the record of its decoded columns: the aggregate it loads as,
    with [row_version] as the version and no pending events. *)
Class Row (A : Type) := {
  row_id : A → uuid;
  row_tenant : A → TenantId;
  row_version : A → Z;
  set_version : Z → A → A;
  (** the primary key *)
  same_row : A → A → bool;
  (** the columns an update writes, from the aggregate to the row *)
  write_columns : A → A → A;
  (** what a load of the row builds: no pending events *)
  loaded : A → A;
  (** the tenant column is set once *)
  write_tenant a r : row_tenant (loaded (set_version (row_version a + 1) (write_columns a r))) = row_tenant r;
  loaded_version a : row_version (loaded a) = row_version a;
  same_row_refl a : same_row a a = true
}.

#[export] Program Instance KillSwitch_row : Row KillSwitchState := {
  row_id := kill_switch_id;
  row_tenant := ks_tenant_id;
  row_version := ks_version;
  set_version v k := k <| ks_version := v |>;
  same_row k r := bool_decide (kill_switch_id k = kill_switch_id r);
  write_columns k r :=
    r <| armed_state := armed_state k |> <| trigger_authority := trigger_authority k |>
      <| trigger_reason := trigger_reason k |> <| trigger_timestamp := trigger_timestamp k |>
      <| trigger_hash := trigger_hash k |> <| release_authority := release_authority k |>
      <| release_countersign_authority := release_countersign_authority k |>
      <| release_timestamp := release_timestamp k |> <| ks_updated_at := ks_updated_at k |>;
  loaded k := k <| ks_events := [] |>
}.
Next Obligation. done. Qed.
Next Obligation. done. Qed.
Next Obligation. intros. cbv beta. by rewrite !bool_decide_eq_true_2. Qed.

(** The entries of a journal are deleted and written again; they are read back
    in the order of their sequence numbers. *)
Definition by_sequence (a b : JournalEntry) : Prop := sequence_number a <= sequence_number b.
#[export] Instance by_sequence_dec : RelDecision by_sequence.
Proof. intros a b. unfold by_sequence. apply _. Defined.

#[export] Program Instance Journal_row : Row ExecutionJournal := {
  row_id := journal_id;
  row_tenant := jn_tenant_id;
  row_version := jn_version;
  set_version v j := j <| jn_version := v |>;
  same_row j r := bool_decide (journal_id j = journal_id r);
  write_columns j r := r <| jn_updated_at := jn_updated_at j |> <| entries := entries j |>;
  loaded j := j <| entries ::= merge_sort by_sequence |> <| jn_events := [] |>
}.
Next Obligation. done. Qed.
Next Obligation. done. Qed.
Next Obligation. intros. cbv beta. by rewrite !bool_decide_eq_true_2. Qed.

#[export] Program Instance Action_row : Row AttackAction := {
  row_id := action_id;
  row_tenant := ac_tenant_id;
  row_version := ac_version;
  set_version v a := a <| ac_version := v |>;
  same_row a r := bool_decide (action_id a = action_id r) &&
                  bool_decide (execution_timestamp a = execution_timestamp r);
  write_columns a r :=
    r <| state := state a |> <| worker_ref := worker_ref a |>
      <| completion_timestamp := completion_timestamp a |> <| output_ref := output_ref a |>
      <| failure_reason := failure_reason a |> <| ac_updated_at := ac_updated_at a |>;
  loaded a := a <| ac_events := [] |>
}.
Next Obligation. done. Qed.
Next Obligation. done. Qed.
Next Obligation. intros. cbv beta. by rewrite !bool_decide_eq_true_2. Qed.

#[export] Program Instance Worker_row : Row ExecutionWorker := {
  row_id := worker_id;
  row_tenant := wk_tenant_id;
  row_version := wk_version;
  set_version v w := w <| wk_version := v |>;
  same_row w r := bool_decide (worker_id w = worker_id r);
  write_columns w r :=
    r <| health_status := health_status w |> <| last_heartbeat_at := last_heartbeat_at w |>
      <| decommissioned_at := decommissioned_at w |> <| wk_updated_at := wk_updated_at w |>;
  loaded w := w <| wk_events := [] |>
}.
Next Obligation. done. Qed.
Next Obligation. done. Qed.
Next Obligation. intros. cbv beta. by rewrite !bool_decide_eq_true_2. Qed.

Section Save.
Context {A : Type} `{!Row A}.

(** [save] of the four repositories: insert a new row at version 1, or update
    the row whose [row_version] is the version of the aggregate.  It returns the
    aggregate with the version it now carries. *)
Definition save_row (a : A) (rows : list A) : result ExecException (A * list A) :=
  match find (same_row a) rows with
  | None => let a' := set_version 1 a in Ok (a', rows ++ [loaded a'])
  | Some existing =>
      if bool_decide (row_tenant existing ≠ row_tenant a)
      then Err (OptimisticLockConflict (row_id a) (row_version a) (-1))
      else
        let expected := row_version a in
        let matches r := same_row a r && bool_decide (row_version r = expected) in
        match find matches rows with
        | None => Err (OptimisticLockConflict (row_id a) expected (row_version existing))
        | Some _ =>
            Ok (set_version (expected + 1) a,
                map (fun r => if matches r
                              then loaded (set_version (expected + 1) (write_columns a r))
                              else r) rows)
        end
  end.

(** [scalar_one_or_none] *)
Definition scalar_one_or_none (l : list A) : result ExecException (option A) :=
  match l with
  | [] => Ok None
  | [r] => Ok (Some (loaded r))
  | _ => Err (PortError "MultipleResultsFound")
  end.

(** Every key has one row. *)
Definition unique_rows (rows : list A) : Prop :=
  ∀ a r, find (same_row a) rows = Some r → ∀ r', r' ∈ rows → same_row a r' = true → r' = r.

(** A changed version never matches the row it was loaded from. *)
Lemma save_stale a rows r : unique_rows rows → find (same_row a) rows = Some r →
  row_version a ≠ row_version r → ∃ e, save_row a rows = Err e.
Proof.
  intros Hu Hf Hv. unfold save_row. rewrite Hf. case_bool_decide; [by eexists|].
  destruct (find (λ r, same_row a r && bool_decide (row_version r = row_version a)) rows) as [r'|] eqn:Hm;
    [|by eexists].
  apply find_some in Hm as [Hin Hm]. apply andb_prop in Hm as [Hs Hver].
  apply bool_decide_eq_true in Hver. apply list_elem_of_In in Hin.
  rewrite (Hu a r Hf r' Hin Hs) in Hver. done.
Qed.
End Save.

(** ** Tables *)

Record ExecDb := mkExecDb {
  kill_switches : list KillSwitchState;
  journals : list ExecutionJournal;
  attack_actions : list AttackAction;
  workers : list ExecutionWorker }.

#[export] Instance ExecDb_settable : Settable ExecDb := fun d =>
  mkExecDb (kill_switches d) (journals d) (attack_actions d) (workers d).

Definition empty_exec_db : ExecDb := mkExecDb [] [] [] [].

(** The primary keys of the tables. *)
Record unique_keys (db : ExecDb) : Prop := mkUnique {
  unique_kill_switches : unique_rows (kill_switches db);
  unique_journals : unique_rows (journals db);
  unique_actions : unique_rows (attack_actions db);
  unique_workers : unique_rows (workers db) }.

(** ** Queries *)

Definition find_by_scope (db : ExecDb) (t : TenantId) (sc : KillSwitchScope.t) (ref : uuid)
    : result ExecException (option KillSwitchState) :=
  scalar_one_or_none (filter (fun k => ks_tenant_id k = t ∧ scope k = sc ∧ scope_ref k = ref) (kill_switches db)).

Definition find_by_engagement (db : ExecDb) (engagement : uuid) (t : TenantId)
    : result ExecException (option ExecutionJournal) :=
  scalar_one_or_none (filter (fun j => jn_tenant_id j = t ∧ jn_engagement_id j = engagement) (journals db)).

Definition find_action_by_id (db : ExecDb) (id : uuid) (t : TenantId)
    : result ExecException (option AttackAction) :=
  scalar_one_or_none (filter (fun a => action_id a = id ∧ ac_tenant_id a = t) (attack_actions db)).

Definition find_non_terminal_by_step (db : ExecDb) (step : uuid) (t : TenantId)
    : result ExecException (option AttackAction) :=
  scalar_one_or_none (filter (fun a => ac_tenant_id a = t ∧ step_id (step_ref a) = step ∧ is_terminal a = false)
                       (attack_actions db)).

(** Newest first, one page. *)
Definition newer (a b : AttackAction) : Prop := execution_timestamp b <= execution_timestamp a.
#[export] Instance newer_dec : RelDecision newer.
Proof. intros a b. unfold newer. apply _. Defined.

Definition find_by_operation (db : ExecDb) (operation : uuid) (t : TenantId) (limit offset : Z)
    : list AttackAction :=
  map loaded (take (Z.to_nat limit) (drop (Z.to_nat offset)
    (merge_sort newer (filter (fun a => ac_tenant_id a = t ∧ ac_operation_id a = operation) (attack_actions db))))).

Definition find_in_flight_by_engagement (db : ExecDb) (engagement : uuid) (t : TenantId) : list AttackAction :=
  map loaded (filter (fun a => ac_tenant_id a = t ∧ ac_engagement_id a = engagement ∧ is_terminal a = false)
                (attack_actions db)).

(** [PgExecutionWorkerRepository.find_by_id]: by primary key, then the tenant. *)
Definition find_worker_by_id (db : ExecDb) (id : uuid) (t : TenantId) : option ExecutionWorker :=
  match find (fun w => bool_decide (worker_id w = id)) (workers db) with
  | Some w => if bool_decide (wk_tenant_id w = t) then Some (loaded w) else None
  | None => None
  end.

Definition list_available (db : ExecDb) (t : TenantId) (limit offset : Z) : list ExecutionWorker :=
  map loaded (take (Z.to_nat limit) (drop (Z.to_nat offset)
    (filter (fun w => wk_tenant_id w = t ∧ is_available w = true) (workers db)))).

(** ** Loads and stale saves *)

Section Loads.
Context {A : Type} `{!Row A}.

Lemma scalar_one_or_none_some (P : A → Prop) `{∀ r, Decision (P r)} rows a :
  scalar_one_or_none (filter P rows) = Ok (Some a) → ∃ r, r ∈ rows ∧ P r ∧ a = loaded r.
Proof.
  destruct (filter P rows) as [|r [|? ?]] eqn:Hf; simpl; intros [=]. exists r.
  assert (r ∈ filter P rows) as [? ?]%list_elem_of_filter by (rewrite Hf; left). done.
Qed.

(** A changed version is never saved. *)
Lemma save_bumped a r rows : unique_rows rows → r ∈ rows → same_row a r = true →
  row_version a ≠ row_version r → ∃ e, save_row a rows = Err e.
Proof.
  intros Hu Hin Hs Hv. destruct (find (same_row a) rows) as [r'|] eqn:Hf.
  - assert (r = r') as -> by by apply (Hu a r' Hf). by eapply save_stale.
  - apply list_elem_of_In in Hin. by rewrite (find_none _ _ Hf _ Hin) in Hs.
Qed.
End Loads.

Lemma find_by_scope_row db t sc ref k : find_by_scope db t sc ref = Ok (Some k) →
  ∃ r, r ∈ kill_switches db ∧ k = loaded r.
Proof. intros (r & ? & _ & ?)%scalar_one_or_none_some. eauto. Qed.

Lemma find_action_row db id t a : find_action_by_id db id t = Ok (Some a) →
  ∃ r, r ∈ attack_actions db ∧ a = loaded r.
Proof. intros (r & ? & _ & ?)%scalar_one_or_none_some. eauto. Qed.

Lemma find_worker_row db id t w : find_worker_by_id db id t = Some w →
  worker_id w = id ∧ ∃ r, r ∈ workers db ∧ w = loaded r.
Proof.
  unfold find_worker_by_id. destruct (find _ (workers db)) as [r|] eqn:Hf; [|done].
  apply find_some in Hf as [Hin Hid%bool_decide_eq_true]. apply list_elem_of_In in Hin.
  case_bool_decide; [|done]. intros [= <-]. eauto.
Qed.
