(* ===== verification/ExecApp.v ===== *)
(** [ExecutionApplicationService]: the commands and queries of the execution
    context, as transactions over the tables with the kill switch store, the
    rate limit store and the technique dispatcher beside them. *)
From stdpp Require Import base tactics list gmap strings sorting.
From Stdlib Require Import ZArith Lia.
From S2P Require Import Prelude PyTypes PyJson ExecData KillSwitch RateLimit Worker Action Journal.
From S2P Require Import Authorization ExecStore.

Local Open Scope Z_scope.

(** ** Ports and the world *)

Record PayloadDispatchCheck := mkCheck { approved : bool; hash_ok : bool; check_failure_reason : option string }.

(** [IPayloadQueryPort], when one is wired.  Its answer may change from one call
    to the next: it takes the number of the call. *)
Class PayloadQueryPort := {
  verify_for_dispatch :
    option (nat → TenantId → uuid → option string → result ExecException PayloadDispatchCheck)
}.

Abbreviation ExecEvent := (DomainEvent SafetyEvent + DomainEvent PipelineEvent)%type.

(** [IEventPublisher.publish_batch]: whether it accepts a batch or raises. *)
Class EventPublisher := { publisher_accepts : list ExecEvent → bool }.

(** What one dispatch told the worker. *)
Record Dispatch := mkDispatch {
  d_action_id : uuid; d_worker_id : uuid; d_payload_id : option uuid; d_expected_hash : option string }.

(** The session's view and the durable tables; what was published; and the
    in-memory stores and dispatcher, which no transaction covers. *)
Record ExecWorld := mkExecWorld {
  view : ExecDb;
  durable : ExecDb;
  published : list ExecEvent;
  kill_switch_store : InMemoryKillSwitchStore;
  rate_store : InMemoryRateLimitStore;
  payload_calls : nat;
  dispatched : list Dispatch;
  aborted : list (uuid * string) }.

#[export] Instance ExecWorld_settable : Settable ExecWorld := fun w =>
  mkExecWorld (view w) (durable w) (published w) (kill_switch_store w) (rate_store w) (payload_calls w)
    (dispatched w) (aborted w).

Inductive ExecAppError :=
  | Domain (e : ExecException)
  | KillSwitchStoreUnavailable
  | ApplicationValidationError (field reason : string)
  | ApplicationNotFoundError (resource : string) (resource_id : uuid)
  | ApplicationConflictError (engagement_id : uuid)
  | ApplicationAuthorizationError (check : option string).

Abbreviation App := (PyM ExecWorld ExecAppError).

(** [async with uow_factory() as uow]: a session over the durable tables; what
    was not committed is gone at the end. *)
Definition in_uow {A} (body : App A) : App A := fun w =>
  let '(r, w') := body (w <| view := durable w |>) in (r, w' <| view := durable w' |>).

Definition commit : App unit := modify (fun w => w <| durable := view w |>).

Definition domain {A} (r : result ExecException A) : App A := fun w =>
  match r with Ok a => (Ok a, w) | Err e => (Err (Domain e), w) end.

(** The rate limit store, which no transaction covers. *)
Definition spend {A} (m : PyM InMemoryRateLimitStore ExecException A) : App A := fun w =>
  let '(r, s) := m (rate_store w) in domain r (w <| rate_store := s |>).

(** A call of a method on a local aggregate. *)
Definition call {St A} (m : PyM St ExecException A) (s : St) : App (A * St) := fun w =>
  match m s with (Ok a, s') => (Ok (a, s'), w) | (Err e, _) => (Err (Domain e), w) end.

Definition query {A} (q : ExecDb → result ExecException A) : App A := fun w => domain (q (view w)) w.

Definition save {A} `{!Row A} (get : ExecDb → list A) (put : list A → ExecDb → ExecDb) (a : A) : App A := fun w =>
  match save_row a (get (view w)) with
  | Ok (a', rows) => (Ok a', w <| view ::= put rows |>)
  | Err e => (Err (Domain e), w)
  end.

Definition save_kill_switch := save kill_switches (fun l d => d <| kill_switches := l |>).
Definition save_journal := save journals (fun l d => d <| journals := l |>).
Definition save_action := save attack_actions (fun l d => d <| attack_actions := l |>).
Definition save_worker := save workers (fun l d => d <| workers := l |>).

(** [_publish]: a publisher that raises is logged. *)
Definition _publish `{EventPublisher} (evs : list ExecEvent) : App unit :=
  modify (fun w => if publisher_accepts evs then w <| published ::= fun l => l ++ evs |> else w).

(** ** Validation *)

Definition validate_uuid (u : uuid) (field : string) : App unit :=
  raise_if (u =? 0) (ApplicationValidationError field "must be a valid non-nil UUID").

Definition validate_str (s field : string) (max_len : Z) : App unit :=
  raise_if (Z.of_nat (String.length s) =? 0) (ApplicationValidationError field "must not be empty");;
  raise_if (max_len <? Z.of_nat (String.length s))
    (ApplicationValidationError field ("must be at most " +:+ str_int max_len +:+ " characters")).

Definition validate_limit (n : Z) : App Z :=
  raise_if (n <? 1) (ApplicationValidationError "limit" "must be 1-1000");;
  mret (Z.max 1 (Z.min n 1000)).

Definition validate_offset (n : Z) : App Z :=
  raise_if (n <? 0) (ApplicationValidationError "offset" "must be >= 0");;
  mret n.

(** The constructors of the identifiers. *)
Definition make_id (name : string) (u : uuid) : App uuid :=
  raise_if (u =? 0) (Domain (ValueError (name +:+ " must not be nil UUID")));;
  mret u.

Definition OperatorId (u : uuid) : App uuid := make_id "OperatorId" u.

(** A lookup of an enumeration by value; the message quotes a string without
    quotes in it. *)
Definition enum {A} (of_value : string → option A) (name s : string) : App A :=
  match of_value s with
  | Some x => mret x
  | None => raise (Domain (ValueError ("'" +:+ s +:+ "' is not a valid " +:+ name)))
  end.

Definition _parse_scope (s : string) : App KillSwitchScope.t :=
  match KillSwitchScope.of_value s with
  | Some x => mret x
  | None => raise (ApplicationValidationError "scope" ("invalid scope: " +:+ s))
  end.

(** ** DTOs *)

Record KillSwitchDTO := mkKillSwitchDTO {
  kd_kill_switch_id : string; kd_tenant_id : TenantId; kd_scope : string; kd_scope_ref : string;
  kd_armed_state : string; kd_trigger_authority : option string; kd_trigger_reason : option string;
  kd_trigger_hash : option string; kd_release_authority : option string; kd_version : Z;
  kd_created_at : string; kd_updated_at : string }.

Definition _kill_switch_dto (k : KillSwitchState) : KillSwitchDTO :=
  mkKillSwitchDTO (str_uuid (kill_switch_id k)) (ks_tenant_id k) (KillSwitchScope.value (scope k))
    (str_uuid (scope_ref k)) (KillSwitchArmedState.value (armed_state k))
    ((fun a => str_uuid (ta_operator_id a)) <$> trigger_authority k) (trigger_reason k) (trigger_hash k)
    ((fun a => str_uuid (ra_operator_id a)) <$> release_authority k) (ks_version k)
    (isoformat (ks_created_at k)) (isoformat (ks_updated_at k)).

Record JournalEntryDTO := mkEntryDTO {
  ed_entry_id : string; ed_entry_type : string; ed_sequence_number : Z; ed_entry_hash : string;
  ed_previous_entry_hash : string; ed_content : string; ed_occurred_at : string }.

Definition entry_dto (e : JournalEntry) : JournalEntryDTO :=
  mkEntryDTO (str_uuid (entry_id e)) (JournalEntryType.value (entry_type e)) (sequence_number e)
    (entry_hash e) (previous_entry_hash e) (content e) (isoformat (je_occurred_at e)).

Record JournalDTO := mkJournalDTO {
  jd_journal_id : string; jd_tenant_id : TenantId; jd_engagement_id : string; jd_entry_count : Z;
  jd_entries : list JournalEntryDTO; jd_version : Z; jd_created_at : string; jd_updated_at : string }.

Definition _journal_dto (j : ExecutionJournal) : JournalDTO :=
  mkJournalDTO (str_uuid (journal_id j)) (jn_tenant_id j) (str_uuid (jn_engagement_id j))
    (Z.of_nat (length (entries j))) (map entry_dto (entries j)) (jn_version j)
    (isoformat (jn_created_at j)) (isoformat (jn_updated_at j)).

Record AttackActionDTO := mkActionDTO {
  ad_action_id : string; ad_tenant_id : TenantId; ad_engagement_id : string;
  ad_operation_id : string; ad_step_id : string; ad_target_id : string; ad_technique_id : string;
  ad_impact_ceiling : string; ad_state : string; ad_action_hash : string;
  ad_worker_id : option string; ad_operator_id : string; ad_execution_timestamp : string;
  ad_completion_timestamp : option string; ad_output_hash : option string; ad_version : Z }.

Definition _attack_action_dto (a : AttackAction) : AttackActionDTO :=
  mkActionDTO (str_uuid (action_id a)) (ac_tenant_id a) (str_uuid (ac_engagement_id a))
    (str_uuid (ac_operation_id a)) (str_uuid (step_id (step_ref a))) (str_uuid (target_ref a))
    (technique_id (technique_ref a)) (ImpactCeiling.value (impact_ceiling (technique_ref a)))
    (AttackActionState.value (state a)) (action_hash a) (str_uuid <$> worker_ref a)
    (str_uuid (operator_ref a)) (isoformat (execution_timestamp a)) (isoformat <$> completion_timestamp a)
    (output_hash <$> output_ref a) (ac_version a).

Record ExecutionWorkerDTO := mkWorkerDTO {
  wd_worker_id : string; wd_tenant_id : TenantId; wd_worker_type : string; wd_trust_level : string;
  wd_health_status : string; wd_network_zone : string; wd_capabilities : list string;
  wd_manifest_hash : string; wd_last_heartbeat_at : option string; wd_version : Z }.

Definition _worker_dto (w : ExecutionWorker) : ExecutionWorkerDTO :=
  mkWorkerDTO (str_uuid (worker_id w)) (wk_tenant_id w) (WorkerType.value (worker_type w))
    (WorkerTrustLevel.value (trust_level w)) (WorkerHealthStatus.value (health_status w)) (network_zone w)
    (sorted_strings (elements (capabilities w))) (manifest_hash w) (isoformat <$> last_heartbeat_at w)
    (wk_version w).

(** ** Commands *)

(** The identifiers a command generates. *)
Record FreshIds := mkIds {
  new_kill_switch : uuid; new_journal : uuid; new_entry : uuid; new_action : uuid; new_worker : uuid;
  new_token : uuid }.

Section Commands.
Context `{!EngagementScopePort} `{!PayloadQueryPort} `{!EventPublisher}.
Implicit Types (t : TenantId) (ids : FreshIds) (now : datetime).

Definition ks_events_of (k : KillSwitchState) : list ExecEvent := map inl (ks_events k).
Definition jn_events_of (j : ExecutionJournal) : list ExecEvent := map inl (jn_events j).
Definition ac_events_of (a : AttackAction) : list ExecEvent := map inr (ac_events a).
Definition wk_events_of (w : ExecutionWorker) : list ExecEvent := map inr (wk_events w).

Definition _sync_kill_switch_store (k : KillSwitchState) : App unit := fun w =>
  match set_state (kill_switch_store w) k with
  | Some s => (Ok tt, w <| kill_switch_store := s |>)
  | None => (Err KillSwitchStoreUnavailable, w)
  end.

Definition journal_or_new t ids (engagement : uuid) now : App ExecutionJournal :=
  found ← query (fun db => find_by_engagement db engagement t);
  mret (default (Journal.create (new_journal ids) t engagement now) found).

Definition _journal_kill_switch t ids (sc : KillSwitchScope.t) (ref : uuid) (reason : string) now
    (attr : uuid) : App unit :=
  if bool_decide (sc ≠ KillSwitchScope.ENGAGEMENT) then mret tt
  else
    engagement ← make_id "EngagementId" ref;
    j ← journal_or_new t ids engagement now;
    r ← call (append_entry (new_entry ids) t JournalEntryType.KILL_SWITCH_TRIGGERED
                ("scope=" +:+ KillSwitchScope.value sc +:+ " ref=" +:+ str_uuid ref +:+ " reason=" +:+ reason)
                now (Some attr) None None) j;
    save_journal r.2;;
    mret tt.

Definition trigger_kill_switch t ids (scope_name : string) (ref op : uuid) (role reason : string) now
    : App KillSwitchDTO :=
  validate_uuid ref "scope_ref";;
  validate_uuid op "authority_operator_id";;
  validate_str reason "reason" 2048;;
  sc ← _parse_scope scope_name;
  in_uow (
    found ← query (fun db => find_by_scope db t sc ref);
    let k := default (create_armed (new_kill_switch ids) t sc ref now) found in
    operator ← OperatorId op;
    authority ← domain (TriggerAuthority_new operator role);
    why ← domain (TriggerReason_new reason);
    r ← call (trigger t authority why now) k;
    k ← save_kill_switch r.2;
    _sync_kill_switch_store k;;
    attr ← OperatorId op;
    _journal_kill_switch t ids sc ref reason now attr;;
    commit;;
    _publish (ks_events_of k);;
    mret (_kill_switch_dto k)).

(** The release raises the two authority errors as an authorization error. *)
Definition as_authorization {A} (m : App A) : App A := fun w =>
  match m w with
  | (Err (Domain (SameOperatorReleaseForbidden _)), w')
  | (Err (Domain (PlatformWideReleaseAuthorizationInsufficient _)), w') =>
      (Err (ApplicationAuthorizationError None), w')
  | r => r
  end.

Definition release_kill_switch t (scope_name : string) (ref op : uuid) (role : string)
    (countersigning_op : option uuid) (countersigning_role : option string) now : App KillSwitchDTO :=
  validate_uuid ref "scope_ref";;
  validate_uuid op "releasing_operator_id";;
  sc ← _parse_scope scope_name;
  countersign ←
    match countersigning_op with
    | None => mret None
    | Some cop =>
        raise_if (empty_str (default "" countersigning_role))
          (ApplicationValidationError "countersigning_role" "required when countersigning_operator_id set");;
        cop' ← OperatorId cop;
        a ← domain (ReleaseAuthority_new cop' (default "" countersigning_role));
        mret (Some a)
    end;
  in_uow (
    found ← query (fun db => find_by_scope db t sc ref);
    match found with
    | None => raise (ApplicationNotFoundError "KillSwitch" ref)
    | Some k =>
        r ← as_authorization (
              operator ← OperatorId op;
              releasing ← domain (ReleaseAuthority_new operator role);
              call (release t releasing countersign now) k);
        k ← save_kill_switch r.2;
        _sync_kill_switch_store k;;
        commit;;
        _publish (ks_events_of k);;
        mret (_kill_switch_dto k)
    end).

Definition re_arm_kill_switch t (scope_name : string) (ref op : uuid) (role : string) now : App KillSwitchDTO :=
  validate_uuid ref "scope_ref";;
  sc ← _parse_scope scope_name;
  in_uow (
    found ← query (fun db => find_by_scope db t sc ref);
    match found with
    | None => raise (ApplicationNotFoundError "KillSwitch" ref)
    | Some k =>
        operator ← OperatorId op;
        authority ← domain (TriggerAuthority_new operator role);
        r ← call (re_arm t authority now) k;
        k ← save_kill_switch r.2;
        _sync_kill_switch_store k;;
        commit;;
        _publish (ks_events_of k);;
        mret (_kill_switch_dto k)
    end).

Definition get_kill_switch t (scope_name : string) (ref : uuid) : App KillSwitchDTO :=
  sc ← _parse_scope scope_name;
  in_uow (
    found ← query (fun db => find_by_scope db t sc ref);
    match found with
    | None => raise (ApplicationNotFoundError "KillSwitch" ref)
    | Some k => mret (_kill_switch_dto k)
    end).

(** *** Journal *)

Definition create_journal t ids (engagement_id : uuid) now : App JournalDTO :=
  validate_uuid engagement_id "engagement_id";;
  engagement ← make_id "EngagementId" engagement_id;
  in_uow (
    existing ← query (fun db => find_by_engagement db engagement t);
    raise_if (bool_decide (is_Some existing)) (ApplicationConflictError engagement_id);;
    j ← save_journal (Journal.create (new_journal ids) t engagement now);
    commit;;
    _publish (jn_events_of j);;
    mret (_journal_dto j)).

Definition ensure_journal_for_engagement t ids (engagement : uuid) now : App ExecutionJournal :=
  in_uow (
    existing ← query (fun db => find_by_engagement db engagement t);
    match existing with
    | Some j => mret j
    | None =>
        j ← save_journal (Journal.create (new_journal ids) t engagement now);
        commit;;
        _publish (jn_events_of j);;
        mret (j <| jn_events := [] |>)
    end).

Definition append_journal_entry t ids (engagement_id : uuid) (type text : string)
    (attribution_op : option uuid) (sys : option string) now : App JournalEntryDTO :=
  validate_uuid engagement_id "engagement_id";;
  validate_str text "content" 8192;;
  engagement ← make_id "EngagementId" engagement_id;
  entry_type ← enum JournalEntryType.of_value "JournalEntryType" type;
  attr ← match attribution_op with
         | Some op => o ← OperatorId op; mret (Some o)
         | None => mret None
         end;
  in_uow (
    j ← journal_or_new t ids engagement now;
    r ← call (append_entry (new_entry ids) t entry_type text now attr sys None) j;
    j ← save_journal r.2;
    commit;;
    _publish (jn_events_of j);;
    mret (entry_dto r.1)).

Definition get_journal t (engagement_id : uuid) : App JournalDTO :=
  engagement ← make_id "EngagementId" engagement_id;
  in_uow (
    found ← query (fun db => find_by_engagement db engagement t);
    match found with
    | None => raise (ApplicationNotFoundError "ExecutionJournal" engagement_id)
    | Some j => mret (_journal_dto j)
    end).

Definition query_journal_integrity t (engagement_id : uuid) now : App ChainIntegrityReport :=
  engagement ← make_id "EngagementId" engagement_id;
  in_uow (
    found ← query (fun db => find_by_engagement db engagement t);
    match found with
    | None => raise (ApplicationNotFoundError "ExecutionJournal" engagement_id)
    | Some j =>
        r ← call (verify_chain_integrity now) j;
        j ← save_journal r.2;
        commit;;
        _publish (jn_events_of j);;
        mret r.1
    end).
End Commands.

(** ** Rules

    One rule for each building block of the commands. *)

Section Rules.
Implicit Types (w : ExecWorld) (X : ExecAppError → ExecWorld → Prop).

Lemma wp_exec_uow {A} (body : App A) (Q : A → ExecWorld → Prop) X w :
  wp body (fun a w' => Q a (w' <| view := durable w' |>)) (fun e w' => X e (w' <| view := durable w' |>))
    (w <| view := durable w |>) →
  wp (in_uow body) Q X w.
Proof. unfold wp, in_uow. by destruct (body _) as [[a|e] w']. Qed.

Lemma wp_domain {A} (r : result ExecException A) (Q : A → ExecWorld → Prop) X w :
  (∀ a, r = Ok a → Q a w) → (∀ e, r = Err e → X (Domain e) w) → wp (domain r) Q X w.
Proof. unfold wp, domain. destruct r; auto. Qed.

Lemma wp_call {St A} (m : PyM St ExecException A) s (Q : A * St → ExecWorld → Prop) X w :
  wp m (fun a s' => Q (a, s') w) (fun e _ => X (Domain e) w) s → wp (call m s) Q X w.
Proof. unfold wp, call. by destruct (m s) as [[a|e] s']. Qed.

Lemma wp_query {A} (q : ExecDb → result ExecException A) (Q : A → ExecWorld → Prop) X w :
  (∀ a, q (view w) = Ok a → Q a w) → (∀ e, q (view w) = Err e → X (Domain e) w) → wp (query q) Q X w.
Proof. apply wp_domain. Qed.

Lemma wp_save {A} `{!Row A} (get : ExecDb → list A) put a (Q : A → ExecWorld → Prop) X w :
  (∀ a' rows, save_row a (get (view w)) = Ok (a', rows) → Q a' (w <| view ::= put rows |>)) →
  (∀ e, save_row a (get (view w)) = Err e → X (Domain e) w) → wp (save get put a) Q X w.
Proof. unfold wp, save. destruct (save_row a _) as [[a' rows]|e]; auto. Qed.

Lemma wp_save_bumped {A} `{!Row A} (get : ExecDb → list A) put a r (Q : A → ExecWorld → Prop) X w :
  unique_rows (get (view w)) → r ∈ get (view w) → same_row a r = true → row_version a ≠ row_version r →
  (∀ e, X (Domain e) w) → wp (save get put a) Q X w.
Proof.
  intros Hu Hin Hs Hv HX. apply wp_save; [|by intros e _].
  intros a' rows Heq. destruct (save_bumped a r _ Hu Hin Hs Hv) as [e He]. by rewrite He in Heq.
Qed.

Lemma wp_make_id name u (Q : uuid → ExecWorld → Prop) X w :
  (u ≠ 0 → Q u w) → (∀ e, X e w) → wp (make_id name u) Q X w.
Proof. intros HQ HX. unfold make_id. wp_run; [by apply HX|]. apply HQ. lia. Qed.

Lemma wp_enum {A} (of_value : string → option A) name s (Q : A → ExecWorld → Prop) X w :
  (∀ x, of_value s = Some x → Q x w) → (∀ e, X e w) → wp (enum of_value name s) Q X w.
Proof. intros HQ HX. unfold enum. destruct (of_value s); wp_run; auto. Qed.

Lemma wp_as_authorization {A} (m : App A) Q (P : ExecWorld → Prop) w :
  wp m Q (fun _ => P) w → wp (as_authorization m) Q (fun _ => P) w.
Proof. unfold wp, as_authorization. by destruct (m w) as [[a|[[]| | | | |]] w']. Qed.

(** A step that raises or leaves the world alone. *)
Definition pure_step {A} (m : App A) : Prop := ∀ w, wp m (fun _ w' => w' = w) (fun _ w' => w' = w) w.

Lemma wp_pure {A} (m : App A) (Q : A → ExecWorld → Prop) X w :
  pure_step m → (∀ a, Q a w) → (∀ e, X e w) → wp m Q X w.
Proof. intros Hm HQ HX. eapply wp_mono; [apply Hm|by intros ?? ->|by intros ?? ->]. Qed.

Lemma pure_validate_uuid u field : pure_step (validate_uuid u field).
Proof. intros w. unfold validate_uuid. by wp_run. Qed.

Lemma pure_validate_str s field n : pure_step (validate_str s field n).
Proof. intros w. unfold validate_str. by wp_run. Qed.

Lemma pure_parse_scope s : pure_step (_parse_scope s).
Proof. intros w. unfold _parse_scope. by wp_run. Qed.
End Rules.

#[export] Hint Resolve pure_validate_uuid pure_validate_str pure_parse_scope : py.

(** [wp_step] with the rules of the commands. *)
Ltac app_step :=
  lazymatch goal with
  | |- wp (in_uow _) _ _ _ => apply wp_exec_uow
  | |- wp (domain _) _ _ _ => apply wp_domain; intros ? ?
  | |- wp (call _ _) _ _ _ => apply wp_call
  | |- wp (query _) _ _ _ => apply wp_query; intros ? ?
  | |- wp (make_id _ _) _ _ _ => apply wp_make_id; intros ?
  | |- wp (OperatorId _) _ _ _ => apply wp_make_id; intros ?
  | |- wp (enum _ _ _) _ _ _ => apply wp_enum; [intros ? ?|intros ?]
  | |- wp (as_authorization _) _ _ _ => apply wp_as_authorization
  | |- wp (validate_uuid _ _) _ _ _ => apply wp_pure; [apply pure_validate_uuid|intros ?|intros ?]
  | |- wp (validate_str _ _ _) _ _ _ => apply wp_pure; [apply pure_validate_str|intros ?|intros ?]
  | |- wp (_parse_scope _) _ _ _ => apply wp_pure; [apply pure_parse_scope|intros ?|intros ?]
  | |- _ => wp_step
  end; cbv beta.
Ltac app_run := repeat app_step.
