(* ===== verification/ExecActions.v ===== *)
(** [ExecutionApplicationService]: the attack action and worker commands and
    queries, and what holds of them. *)
From stdpp Require Import base tactics list gmap strings sorting.
From Stdlib Require Import ZArith Lia.
From S2P Require Import Prelude PyTypes PyJson ExecData KillSwitch RateLimit Worker Action Journal.
From S2P Require Import Authorization ExecStore ExecApp.

Local Open Scope Z_scope.

(** ** Commands *)

Record AuthorizeAndStartAttackAction := mkStartCommand {
  sa_tenant_id : TenantId; sa_engagement_id : uuid; sa_operation_id : uuid; sa_step_id : uuid;
  sa_target_id : uuid; sa_technique_id : string; sa_technique_category : string;
  sa_impact_ceiling : string; sa_operator_id : uuid; sa_worker_id : option uuid;
  sa_action_parameters : ActionInput; sa_rate_limit_max : Z; sa_rate_limit_window_seconds : Z;
  sa_presented_scope_hash : option string; sa_presented_engagement_version : option Z;
  sa_payload_id : option uuid; sa_expected_payload_hash : option string }.

Definition _payload_failure_reason (check : PayloadDispatchCheck) : option AuthorizationFailureReason.t :=
  let said reason := bool_decide (check_failure_reason check = Some (AuthorizationFailureReason.value reason)) in
  if approved check && hash_ok check then None
  else if said AuthorizationFailureReason.PAYLOAD_REVOKED
  then Some AuthorizationFailureReason.PAYLOAD_REVOKED
  else if said AuthorizationFailureReason.PAYLOAD_HASH_MISMATCH
  then Some AuthorizationFailureReason.PAYLOAD_HASH_MISMATCH
  else if negb (hash_ok check) then Some AuthorizationFailureReason.PAYLOAD_HASH_MISMATCH
  else Some AuthorizationFailureReason.PAYLOAD_NOT_APPROVED.

(** The request the gate is asked about. *)
Definition auth_request (cmd : AuthorizeAndStartAttackAction) (technique : TechniqueRef) (policy : RateLimitPolicy)
    (worker : option ExecutionWorker) (now : datetime) : AuthorizationRequest :=
  mkAuthRequest (sa_tenant_id cmd) (sa_engagement_id cmd) (sa_operation_id cmd)
    (mkStepRef (sa_step_id cmd) (sa_operation_id cmd) (sa_engagement_id cmd)) (sa_target_id cmd) technique
    (sa_operator_id cmd) policy now worker None (sa_presented_scope_hash cmd)
    (sa_presented_engagement_version cmd).

Section Commands.
Context `{!EngagementScopePort} `{!PayloadQueryPort} `{!EventPublisher}.
Implicit Types (t : TenantId) (ids : FreshIds) (now : datetime) (cmd : AuthorizeAndStartAttackAction).

(** The failure is optional; the gate always names one. *)
Definition _journal_authorization_failure t ids (engagement : uuid)
    (failure : option AuthorizationFailureReason.t) cmd now : App unit :=
  j ← journal_or_new t ids engagement now;
  let entry_type :=
    if bool_decide (failure = Some AuthorizationFailureReason.SCOPE_VIOLATION)
    then JournalEntryType.SCOPE_VIOLATION_ATTEMPTED else JournalEntryType.SAFETY_CHECK_FAILED in
  attr ← OperatorId (sa_operator_id cmd);
  r ← call (append_entry (new_entry ids) t entry_type
              ("failure=" +:+ default "unknown" (AuthorizationFailureReason.value <$> failure) +:+
               " step=" +:+ str_uuid (sa_step_id cmd) +:+ " target=" +:+ str_uuid (sa_target_id cmd) +:+
               " technique=" +:+ sa_technique_id cmd) now (Some attr) None None) j;
  save_journal r.2;;
  mret tt.

(** A denial is journaled and committed; the journal is read again and what it
    has pending published; then the command raises. *)
Definition deny {A} t ids (engagement : uuid) (failure : option AuthorizationFailureReason.t) cmd now : App A :=
  _journal_authorization_failure t ids engagement failure cmd now;;
  j ← query (fun db => find_by_engagement db engagement t);
  commit;;
  match j with
  | Some j => _publish (jn_events_of j)
  | None => mret tt
  end;;
  raise (ApplicationAuthorizationError (AuthorizationFailureReason.value <$> failure)).

(** One call of the payload port, when the command has a payload and a port is
    wired. *)
Definition check_payload cmd : App (option AuthorizationFailureReason.t) := fun w =>
  match sa_payload_id cmd, verify_for_dispatch with
  | Some payload, Some verify =>
      let w' := w <| payload_calls ::= S |> in
      match verify (payload_calls w) (sa_tenant_id cmd) payload (sa_expected_payload_hash cmd) with
      | Ok check => (Ok (_payload_failure_reason check), w')
      | Err e => (Err (Domain e), w')
      end
  | _, _ => (Ok None, w)
  end.

(** Raises unless the payload check passed. *)
Definition require_payload t ids (engagement : uuid) cmd now : App unit :=
  failure ← check_payload cmd;
  match failure with
  | Some f => deny t ids engagement (Some f) cmd now
  | None => mret tt
  end.

(** [self._authorization.authorize(...)] with the stores of the world. *)
Definition run_gate ids (rq : AuthorizationRequest) : App AuthorizationResult := fun w =>
  spend (authorize (kill_switch_store w) (new_token ids) rq) w.

(** [ITechniqueExecutionPort.dispatch] *)
Definition technique_dispatch (d : Dispatch) : App unit := modify (fun w => w <| dispatched ::= fun l => l ++ [d] |>).

(** The worker takes the action; the payload is checked again right before it
    is sent. *)
Definition assign_and_dispatch t ids (engagement : uuid) cmd (technique : TechniqueRef) (a : AttackAction)
    (worker : ExecutionWorker) now : App ExecutionWorker :=
  r ← call (assign_action t (action_id a) technique now) worker;
  worker ← save_worker r.2;
  require_payload t ids engagement cmd now;;
  technique_dispatch (mkDispatch (action_id a) (worker_id worker) (sa_payload_id cmd) (sa_expected_payload_hash cmd));;
  mret worker.

Definition find_worker t (id : option uuid) : App (option ExecutionWorker) :=
  match id with
  | None => mret None
  | Some id =>
      wid ← make_id "ExecutionWorkerId" id;
      found ← query (fun db => Ok (find_worker_by_id db wid t));
      match found with
      | Some w => mret (Some w)
      | None => raise (ApplicationNotFoundError "ExecutionWorker" id)
      end
  end.

(** The started action is journaled and stored. *)
Definition record_start t ids (engagement : uuid) cmd (a : AttackAction) (worker : option ExecutionWorker) now
    : App AttackActionDTO :=
  j ← journal_or_new t ids engagement now;
  attr ← OperatorId (sa_operator_id cmd);
  r ← call (append_entry (new_entry ids) t JournalEntryType.ACTION_STARTED
              ("action=" +:+ str_uuid (action_id a) +:+ " step=" +:+ str_uuid (sa_step_id cmd) +:+
               " technique=" +:+ sa_technique_id cmd) now (Some attr) None None) j;
  j ← save_journal r.2;
  a ← save_action a;
  commit;;
  _publish (ac_events_of a ++ jn_events_of j ++
            match worker with Some w => wk_events_of w | None => [] end);;
  mret (_attack_action_dto a).

(** The transaction once the value objects are built and the worker is read. *)
Definition start_checked ids cmd (engagement : uuid) (technique : TechniqueRef) (policy : RateLimitPolicy)
    (worker : option ExecutionWorker) now : App AttackActionDTO :=
  let t := sa_tenant_id cmd in
  require_payload t ids engagement cmd now;;
  result ← run_gate ids (auth_request cmd technique policy worker now);
  if negb (permitted result) then deny t ids engagement (failure_reason result) cmd now
  else
    a ← domain (create_authorized (new_action ids) (token result) (sa_action_parameters cmd) now);
    r ← call (start t now) a;
    let a := r.2 in
    worker ← match worker with
             | Some w => w ← assign_and_dispatch t ids engagement cmd technique a w now; mret (Some w)
             | None => mret None
             end;
    record_start t ids engagement cmd a worker now.

Definition authorize_and_start_attack_action ids cmd now : App AttackActionDTO :=
  let t := sa_tenant_id cmd in
  validate_uuid (sa_engagement_id cmd) "engagement_id";;
  validate_uuid (sa_operation_id cmd) "operation_id";;
  validate_uuid (sa_step_id cmd) "step_id";;
  validate_uuid (sa_target_id cmd) "target_id";;
  validate_str (sa_technique_id cmd) "technique_id" 256;;
  engagement ← make_id "EngagementId" (sa_engagement_id cmd);
  operation ← make_id "OperationId" (sa_operation_id cmd);
  step ← make_id "ExecutionStepId" (sa_step_id cmd);
  in_uow (
    existing ← query (fun db => find_non_terminal_by_step db step t);
    match existing with
    | Some a => mret (_attack_action_dto a)
    | None =>
        ceiling ← enum ImpactCeiling.of_value "ImpactCeiling" (sa_impact_ceiling cmd);
        technique ← domain (TechniqueRef_new (sa_technique_id cmd) (sa_technique_category cmd) ceiling);
        target ← make_id "TargetId" (sa_target_id cmd);
        operator ← OperatorId (sa_operator_id cmd);
        policy ← domain (RateLimitPolicy_new (sa_rate_limit_max cmd) (sa_rate_limit_window_seconds cmd)
                           (sa_technique_category cmd));
        worker ← find_worker t (sa_worker_id cmd);
        start_checked ids cmd engagement technique policy worker now
    end).

(** *** The end of an action *)

Definition load_action t (id : uuid) : App AttackAction :=
  aid ← make_id "AttackActionId" id;
  found ← query (fun db => find_action_by_id db aid t);
  match found with
  | Some a => mret a
  | None => raise (ApplicationNotFoundError "AttackAction" id)
  end.

(** The journal of the action's engagement, if there is one, gets an entry. *)
Definition journal_if_any t ids (engagement : uuid) (type : JournalEntryType.t) (text : string)
    (attr : App (option uuid)) (sys : option string) now : App (list ExecEvent) :=
  found ← query (fun db => find_by_engagement db engagement t);
  match found with
  | None => mret []
  | Some j =>
      who ← attr;
      r ← call (append_entry (new_entry ids) t type text now who sys None) j;
      j ← save_journal r.2;
      mret (jn_events_of j)
  end.

Definition finish_action (a : AttackAction) (journal_events : list ExecEvent) : App AttackActionDTO :=
  a ← save_action a;
  commit;;
  _publish (ac_events_of a ++ journal_events);;
  mret (_attack_action_dto a).

(** [ITechniqueExecutionPort.signal_abort] *)
Definition signal_abort (id : uuid) (reason : string) : App unit :=
  modify (fun w => w <| aborted ::= fun l => l ++ [(id, reason)] |>).

Definition abort_attack_action t ids (id : uuid) (reason : string) (authority : uuid) now : App AttackActionDTO :=
  validate_uuid id "action_id";;
  validate_str reason "abort_reason" 2048;;
  in_uow (
    a ← load_action t id;
    r ← call (abort t reason authority now) a;
    let a := r.2 in
    signal_abort (action_id a) reason;;
    evs ← journal_if_any t ids (ac_engagement_id a) JournalEntryType.ACTION_ABORTED
            ("action=" +:+ str_uuid (action_id a) +:+ " reason=" +:+ reason)
            (o ← OperatorId authority; mret (Some o)) None now;
    finish_action a evs).

Definition complete_attack_action t ids (id : uuid) (out_hash out_storage : option string) now
    : App AttackActionDTO :=
  output ←
    match out_hash, out_storage with
    | Some h, Some s =>
        if negb (empty_str h) && negb (empty_str s)
        then o ← domain (ActionOutputRef_new h s); mret (Some o) else mret None
    | _, _ => mret None
    end;
  in_uow (
    a ← load_action t id;
    r ← call (complete t now output) a;
    let a := r.2 in
    evs ← journal_if_any t ids (ac_engagement_id a) JournalEntryType.ACTION_COMPLETED
            ("action=" +:+ str_uuid (action_id a)) (mret None) (Some "worker") now;
    finish_action a evs).

Definition fail_attack_action t ids (id : uuid) (reason : string) now : App AttackActionDTO :=
  validate_str reason "failure_reason" 2048;;
  in_uow (
    a ← load_action t id;
    r ← call (fail t reason now) a;
    let a := r.2 in
    evs ← journal_if_any t ids (ac_engagement_id a) JournalEntryType.ACTION_FAILED
            ("action=" +:+ str_uuid (action_id a) +:+ " reason=" +:+ reason) (mret None) (Some "worker") now;
    finish_action a evs).

Definition record_action_output t (id : uuid) (out_hash out_storage : string) now : App AttackActionDTO :=
  validate_str out_hash "output_hash" 64;;
  validate_str out_storage "output_storage_ref" 512;;
  in_uow (
    a ← load_action t id;
    output ← domain (ActionOutputRef_new out_hash out_storage);
    r ← call (record_output_ref t output now) a;
    finish_action r.2 []).

(** An action whose digest does not match is saved with its tamper event. *)
Definition get_attack_action t (id : uuid) now : App AttackActionDTO :=
  in_uow (
    a ← load_action t id;
    r ← call (verify_integrity now) a;
    if negb r.1 then finish_action r.2 [] else mret (_attack_action_dto r.2)).

Definition list_attack_actions_by_operation t (operation limit offset : Z) : App (list AttackActionDTO) :=
  limit ← validate_limit limit;
  offset ← validate_offset offset;
  in_uow (
    op ← make_id "OperationId" operation;
    actions ← query (fun db => Ok (find_by_operation db op t limit offset));
    mret (map _attack_action_dto actions)).

(** *** Workers *)

Definition finish_worker (w : ExecutionWorker) : App ExecutionWorkerDTO :=
  w ← save_worker w;
  commit;;
  _publish (wk_events_of w);;
  mret (_worker_dto w).

Definition register_execution_worker t ids (type zone : string) (techniques : list string) (trust : string)
    (signer : uuid) (signature : string) now : App ExecutionWorkerDTO :=
  validate_uuid signer "signer_operator_id";;
  validate_str signature "signature" 4096;;
  validate_str zone "network_zone" 128;;
  raise_if (bool_decide (techniques = [])) (ApplicationValidationError "techniques" "must not be empty");;
  trust_level ← enum WorkerTrustLevel.of_value "WorkerTrustLevel" trust;
  signer_id ← OperatorId signer;
  manifest ← domain (SignedCapabilityManifest_new (list_to_set techniques) trust_level signer_id signature now);
  worker_type ← enum WorkerType.of_value "WorkerType" type;
  w ← domain (register (new_worker ids) t worker_type zone manifest now);
  in_uow (finish_worker w).

Definition load_worker t (id : uuid) : App ExecutionWorker :=
  wid ← make_id "ExecutionWorkerId" id;
  found ← query (fun db => Ok (find_worker_by_id db wid t));
  match found with
  | Some w => mret w
  | None => raise (ApplicationNotFoundError "ExecutionWorker" id)
  end.

Definition decommission_execution_worker t (id authority : uuid) now : App ExecutionWorkerDTO :=
  in_uow (
    w ← load_worker t id;
    op ← OperatorId authority;
    r ← call (decommission t op now) w;
    finish_worker r.2).

Definition record_worker_heartbeat t (id : uuid) (health : string) now : App ExecutionWorkerDTO :=
  in_uow (
    w ← load_worker t id;
    status ← enum WorkerHealthStatus.of_value "WorkerHealthStatus" health;
    r ← call (record_heartbeat t status now) w;
    finish_worker r.2).

Definition get_execution_worker t (id : uuid) : App ExecutionWorkerDTO :=
  in_uow (w ← load_worker t id; mret (_worker_dto w)).

Definition list_available_workers t (limit offset : Z) : App (list ExecutionWorkerDTO) :=
  limit ← validate_limit limit;
  offset ← validate_offset offset;
  in_uow (
    ws ← query (fun db => Ok (list_available db t limit offset));
    mret (map _worker_dto ws)).
End Commands.

(** ** Commands on stored aggregates *)

Section Updates.
Context `{!EngagementScopePort} `{!PayloadQueryPort} `{!EventPublisher}.
Implicit Types (w : ExecWorld).

Inductive update :=
  | ReleaseKillSwitch (t : TenantId) (scope_name : string) (ref op : uuid) (role : string)
      (countersigning_op : option uuid) (countersigning_role : option string) (now : datetime)
  | ReArmKillSwitch (t : TenantId) (scope_name : string) (ref op : uuid) (role : string) (now : datetime)
  | AbortAttackAction (t : TenantId) (ids : FreshIds) (id : uuid) (reason : string) (authority : uuid) (now : datetime)
  | CompleteAttackAction (t : TenantId) (ids : FreshIds) (id : uuid) (out_hash out_storage : option string)
      (now : datetime)
  | FailAttackAction (t : TenantId) (ids : FreshIds) (id : uuid) (reason : string) (now : datetime)
  | RecordActionOutput (t : TenantId) (id : uuid) (out_hash out_storage : string) (now : datetime)
  | DecommissionExecutionWorker (t : TenantId) (id authority : uuid) (now : datetime)
  | RecordWorkerHeartbeat (t : TenantId) (id : uuid) (health : string) (now : datetime).

Definition run_update (u : update) : App unit :=
  match u with
  | ReleaseKillSwitch t s ref op role cop crole now => release_kill_switch t s ref op role cop crole now;; mret tt
  | ReArmKillSwitch t s ref op role now => re_arm_kill_switch t s ref op role now;; mret tt
  | AbortAttackAction t ids id reason op now => abort_attack_action t ids id reason op now;; mret tt
  | CompleteAttackAction t ids id h s now => complete_attack_action t ids id h s now;; mret tt
  | FailAttackAction t ids id reason now => fail_attack_action t ids id reason now;; mret tt
  | RecordActionOutput t id h s now => record_action_output t id h s now;; mret tt
  | DecommissionExecutionWorker t id op now => decommission_execution_worker t id op now;; mret tt
  | RecordWorkerHeartbeat t id health now => record_worker_heartbeat t id health now;; mret tt
  end.

(** Nothing was stored or published, and the kill switches are as they were. *)
Definition untouched (w w' : ExecWorld) : Prop :=
  durable w' = durable w ∧ published w' = published w ∧ kill_switch_store w' = kill_switch_store w.

(** A method that moves an aggregate to the next version. *)
Definition bumps {A} `{!Row A} {B} (m : PyM A ExecException B) : Prop :=
  ∀ a, wp m (fun _ a' => row_version a' = row_version a + 1 ∧ ∀ r, same_row a' r = same_row a r) (fun _ _ => True) a.

(** The payload of the command, if it has one that can be checked, passes the
    [n]-th check. *)
Definition payload_ok (cmd : AuthorizeAndStartAttackAction) (n : nat) : Prop :=
  match sa_payload_id cmd, verify_for_dispatch with
  | Some p, Some verify => ∃ c, verify n (sa_tenant_id cmd) p (sa_expected_payload_hash cmd) = Ok c ∧
      approved c = true ∧ hash_ok c = true
  | _, _ => True
  end.

(** What must hold of the world a command starts in for it to send [d] to a
    worker. *)
Definition cleared (ids : FreshIds) (cmd : AuthorizeAndStartAttackAction) (now : datetime) (w : ExecWorld)
    (d : Dispatch) : Prop :=
  ∃ technique policy worker,
    let rq := auth_request cmd technique policy (Some worker) now in
    d = mkDispatch (new_action ids) (worker_id worker) (sa_payload_id cmd) (sa_expected_payload_hash cmd) ∧
    technique_id technique = sa_technique_id cmd ∧
    ImpactCeiling.of_value (sa_impact_ceiling cmd) = Some (impact_ceiling technique) ∧
    find_worker_by_id (durable w) (worker_id worker) (sa_tenant_id cmd) = Some worker ∧
    sa_worker_id cmd = Some (worker_id worker) ∧
    find_non_terminal_by_step (durable w) (sa_step_id cmd) (sa_tenant_id cmd) = Ok None ∧
    gate_passed (kill_switch_store w) rq (rate_store w) ∧
    payload_ok cmd (payload_calls w) ∧ payload_ok cmd (S (payload_calls w)).

(** *** Lemmas *)

Ltac solve_bumps := intros ?; wp_run; try done; (split; [exact (Z.add_comm 1 _)|done]).

Lemma release_bumps t ra cs now : bumps (release t ra cs now).
Proof. unfold release, KillSwitch._transition, KillSwitch._assert_tenant, _validate_platform_wide_release. solve_bumps. Qed.

Lemma re_arm_bumps t ta now : bumps (re_arm t ta now).
Proof. unfold re_arm, KillSwitch._transition, KillSwitch._assert_tenant. solve_bumps. Qed.

Lemma abort_bumps t reason op now : bumps (abort t reason op now).
Proof. unfold abort, Action._transition, Action._assert_tenant, _assert_not_sealed. solve_bumps. Qed.

Lemma complete_bumps t now o : bumps (complete t now o).
Proof. unfold complete, Action._transition, Action._assert_tenant, _assert_not_sealed. solve_bumps. Qed.

Lemma fail_bumps t reason now : bumps (fail t reason now).
Proof. unfold fail, Action._transition, Action._assert_tenant, _assert_not_sealed. solve_bumps. Qed.

Lemma record_output_bumps t o now : bumps (record_output_ref t o now).
Proof. unfold record_output_ref, Action._assert_tenant. solve_bumps. Qed.

Lemma decommission_bumps t op now : bumps (decommission t op now).
Proof. unfold decommission, Worker._assert_tenant. solve_bumps. Qed.

Lemma heartbeat_bumps t h now : bumps (record_heartbeat t h now).
Proof. unfold record_heartbeat, Worker._assert_tenant, Worker._mutate, Worker._emit. solve_bumps. Qed.
#[local] Hint Resolve release_bumps re_arm_bumps abort_bumps complete_bumps fail_bumps record_output_bumps
  decommission_bumps heartbeat_bumps : py.

(** A loaded aggregate, changed by one method and saved. *)
Lemma wp_call_bumps {A} `{!Row A} {B} (m : PyM A ExecException B) a (Q : B * A → ExecWorld → Prop) X w :
  bumps m → (∀ b a', row_version a' = row_version a + 1 → (∀ r, same_row a' r = same_row a r) → Q (b, a') w) →
  (∀ e, X (Domain e) w) → wp (call m a) Q X w.
Proof.
  intros Hm HQ HX. apply wp_call. eapply wp_mono; [apply Hm| |by intros]. intros b a' [??]. by apply HQ.
Qed.
(** The command raises and leaves what is stored as it was. *)
Abbreviation fails m w := (wp m (fun _ _ => False) (fun _ w' => untouched w w') w).

(** A row of the table, loaded and moved to the next version. *)
Definition bumped {A} `{!Row A} (rows : list A) (a : A) : Prop :=
  ∃ r, r ∈ rows ∧ row_version a = row_version r + 1 ∧ ∀ r', same_row a r' = same_row r r'.

Lemma wp_call_loaded {A} `{!Row A} {B} (m : PyM A ExecException B) r rows (Q : B * A → ExecWorld → Prop) X w :
  bumps m → r ∈ rows → (∀ r', same_row (loaded r) r' = same_row r r') →
  (∀ b a, bumped rows a → Q (b, a) w) → (∀ e, X (Domain e) w) → wp (call m (loaded r)) Q X w.
Proof.
  intros Hm Hr Hs HQ HX. apply wp_call. eapply wp_mono; [apply Hm| |by intros].
  intros b a [Hv Hk]. apply HQ. exists r. rewrite loaded_version in Hv.
  split_and!; [done..|]. intros r'. by rewrite Hk.
Qed.

Lemma wp_save_fails {A} `{!Row A} (get : ExecDb → list A) put a (Q : A → ExecWorld → Prop) X w :
  unique_rows (get (view w)) → bumped (get (view w)) a →
  (∀ e, X (Domain e) w) → wp (save get put a) Q X w.
Proof.
  intros Hu (r & Hr & Hv & Hs) HX. eapply wp_save_bumped; [done|done|by rewrite Hs, same_row_refl| |done]. lia.
Qed.

Lemma wp_finish_action_fails a evs rows (Q : AttackActionDTO → ExecWorld → Prop) X w :
  unique_rows rows → bumped rows a → attack_actions (view w) = rows → (∀ e, X e w) →
  wp (finish_action a evs) Q X w.
Proof.
  intros Hu Hb Hrows HX. unfold finish_action, save_action. rewrite <- Hrows in *.
  apply wp_bind. eapply wp_save_fails; [done..|]. intros e. apply HX.
Qed.

Lemma wp_finish_worker_fails a (Q : ExecutionWorkerDTO → ExecWorld → Prop) X w :
  unique_rows (workers (view w)) → bumped (workers (view w)) a → (∀ e, X e w) → wp (finish_worker a) Q X w.
Proof.
  intros Hu Hb HX. unfold finish_worker, save_worker.
  apply wp_bind. eapply wp_save_fails; [done..|]. intros e. apply HX.
Qed.

(** Journaling an action touches no other table. *)
Lemma wp_journal_if_any t ids engagement type text attr sys now (Q : list ExecEvent → ExecWorld → Prop) X w :
  pure_step attr →
  (∀ evs w', untouched w w' → attack_actions (view w') = attack_actions (view w) → Q evs w') →
  (∀ e, X e w) → wp (journal_if_any t ids engagement type text attr sys now) Q X w.
Proof.
  intros Hattr HQ HX. unfold journal_if_any. app_run; [|by apply HQ|by apply HX].
  apply wp_pure; [done|intros who; cbv beta|apply HX]. apply wp_bind, wp_call. 
  eapply wp_mono with (Q := fun _ _ => True) (X := fun _ _ => True); [|intros ???|by intros].
  { unfold wp. by destruct (append_entry _ _ _ _ _ _ _ _ _) as [[] ?]. }
  apply wp_bind, wp_save; [|by intros]. intros j' rows _. app_run. by apply HQ.
Qed.

(** What a query that returned a row has found. *)
Ltac loaded_row :=
  match goal with
  | Hf : find_action_by_id _ _ _ = Ok (Some _) |- _ => apply find_action_row in Hf as (r & Hr & ->)
  | Hf : Ok (find_worker_by_id _ _ _) = Ok (Some _) |- _ =>
      injection Hf as [= Hf]; apply find_worker_row in Hf as (_ & r & Hr & ->)
  | Hf : find_by_scope _ _ _ _ = Ok (Some _) |- _ => apply find_by_scope_row in Hf as (r & Hr & ->)
  end.

Lemma wp_load_action t id (Q : AttackAction → ExecWorld → Prop) X w :
  (∀ r, r ∈ attack_actions (view w) → Q (loaded r) w) → (∀ e, X e w) → wp (load_action t id) Q X w.
Proof. intros HQ HX. unfold load_action. app_run; try by apply HX. subst. loaded_row. by apply HQ. Qed.

Lemma wp_load_worker t id (Q : ExecutionWorker → ExecWorld → Prop) X w :
  (∀ r, r ∈ workers (view w) → Q (loaded r) w) → (∀ e, X e w) → wp (load_worker t id) Q X w.
Proof. intros HQ HX. unfold load_worker. app_run; try by apply HX. subst. loaded_row. by apply HQ. Qed.

(** The commands, one by one. *)
Ltac update_step :=
  lazymatch goal with
  | |- wp (load_action _ _) _ _ _ => apply wp_load_action; [intros r Hr|intros ?]
  | |- wp (load_worker _ _) _ _ _ => apply wp_load_worker; [intros r Hr|intros ?]
  | |- wp (call _ _) _ _ _ => subst; try loaded_row;
      eapply wp_call_loaded; [auto with py|eassumption|done|intros ? ? ?|intros ?]
  | |- wp (save_kill_switch _) _ _ _ => eapply wp_save_fails; [|eassumption|intros ?]
  | |- wp (signal_abort _ _) _ _ _ => apply wp_modify
  | |- wp (finish_worker _) _ _ _ => apply wp_finish_worker_fails; [|assumption|intros ?]
  | |- wp (journal_if_any _ _ _ _ _ _ _ _) _ _ _ =>
      apply wp_journal_if_any; [intros ?; app_run|intros ? ? ? ?|intros ?]
  | |- wp (finish_action _ _) _ _ _ =>
      eapply wp_finish_action_fails; [|eassumption|first [assumption|reflexivity]|intros ?]
  | |- _ => app_step
  end; cbv beta.

Lemma update_fails u w : unique_keys (durable w) → fails (run_update u) w.
Proof.
  intros [Hk Hj Ha Hw]. destruct u; unfold run_update.
  all: unfold release_kill_switch, re_arm_kill_switch, abort_attack_action, complete_attack_action,
    fail_attack_action, record_action_output, decommission_execution_worker, record_worker_heartbeat.
  all: repeat update_step; done.
Qed.
End Updates.

(** ** Dispatch *)

Section DispatchSafety.
Context `{!EngagementScopePort} `{!PayloadQueryPort} `{!EventPublisher}.
Implicit Types (w : ExecWorld) (cmd : AuthorizeAndStartAttackAction).

(** The stores a decision reads are as they were. *)
Definition same_stores w w' : Prop :=
  dispatched w' = dispatched w ∧ kill_switch_store w' = kill_switch_store w ∧ rate_store w' = rate_store w.

Definition undispatched {A} (m : App A) : Prop :=
  ∀ w, wp m (fun _ w' => dispatched w' = dispatched w) (fun _ w' => dispatched w' = dispatched w) w.

Lemma wp_call_any {St A} (m : PyM St ExecException A) s (Q : A * St → ExecWorld → Prop) X w :
  (∀ r, Q r w) → (∀ e, X e w) → wp (call m s) Q X w.
Proof. intros HQ HX. apply wp_call. unfold wp. destruct (m s) as [[a|e] s']; auto. Qed.

Lemma wp_undispatched {A} (m : App A) (Q : A → ExecWorld → Prop) X w : undispatched m →
  (∀ a w', dispatched w' = dispatched w → Q a w') → (∀ e w', dispatched w' = dispatched w → X e w') →
  wp m Q X w.
Proof. intros Hm HQ HX. eapply wp_mono; [apply Hm|apply HQ|apply HX]. Qed.

Ltac quiet_step :=
  lazymatch goal with
  | |- wp (call _ _) _ _ _ => apply wp_call_any; intros ?
  | |- wp (save _ _ _) _ _ _ => apply wp_save; [intros ? ? ?|intros ? ?]
  | |- wp (_publish _) _ _ _ => apply wp_modify; destruct (publisher_accepts _)
  | |- wp commit _ _ _ => apply wp_modify
  | |- _ => app_step
  end; cbv beta.

Lemma undispatched_journal_failure t ids engagement failure cmd now :
  undispatched (_journal_authorization_failure t ids engagement failure cmd now).
Proof. intros w. unfold _journal_authorization_failure, journal_or_new, save_journal. by repeat quiet_step. Qed.

(** A denial raises. *)
Lemma wp_deny {A} t ids engagement failure cmd now (Q : A → ExecWorld → Prop) X w :
  (∀ e w', dispatched w' = dispatched w → X e w') → wp (deny t ids engagement failure cmd now) Q X w.
Proof.
  intros HX. unfold deny. apply wp_bind, wp_undispatched; [apply undispatched_journal_failure| |done].
  intros _ w' Hw. repeat quiet_step; by apply HX.
Qed.

Lemma payload_failure_none c : _payload_failure_reason c = None → approved c = true ∧ hash_ok c = true.
Proof. unfold _payload_failure_reason. by destruct (approved c), (hash_ok c); repeat case_bool_decide. Qed.

Lemma wp_check_payload cmd (Q : option AuthorizationFailureReason.t → ExecWorld → Prop) X w :
  (∀ f w', same_stores w w' → (f = None → payload_ok cmd (payload_calls w)) →
     (payload_ok cmd (payload_calls w') → payload_ok cmd (S (payload_calls w))) → Q f w') →
  (∀ e w', dispatched w' = dispatched w → X e w') → wp (check_payload cmd) Q X w.
Proof.
  intros HQ HX. unfold wp, check_payload, payload_ok in *.
  destruct (sa_payload_id cmd) as [p|]; [|by apply HQ].
  destruct verify_for_dispatch as [verify|]; [|by apply HQ].
  destruct (verify (payload_calls w) _ p _) as [c|e] eqn:Hc; [|by apply HX].
  apply HQ; [done| |done]. intros Hf. exists c. split; [done|]. by apply payload_failure_none.
Qed.

Lemma wp_require_payload t ids engagement cmd now (Q : unit → ExecWorld → Prop) X w :
  (∀ w', same_stores w w' → payload_ok cmd (payload_calls w) →
     (payload_ok cmd (payload_calls w') → payload_ok cmd (S (payload_calls w))) → Q tt w') →
  (∀ e w', dispatched w' = dispatched w → X e w') → wp (require_payload t ids engagement cmd now) Q X w.
Proof.
  intros HQ HX. unfold require_payload. apply wp_bind, wp_check_payload; [|done].
  intros f w' Hs Hok Hnext. destruct f as [f|]; [|apply HQ; auto].
  destruct Hs as (Hd & _). apply wp_deny. intros e w1 Hw1. apply HX. congruence.
Qed.

Lemma wp_run_gate ids rq (Q : AuthorizationResult → ExecWorld → Prop) X w : well_formed rq →
  (∀ r w', dispatched w' = dispatched w → payload_calls w' = payload_calls w →
     (permitted r = true → gate_passed (kill_switch_store w) rq (rate_store w)) → Q r w') →
  (∀ e w', dispatched w' = dispatched w → X e w') → wp (run_gate ids rq) Q X w.
Proof.
  intros Hwf HQ HX. unfold wp, run_gate, spend, domain.
  destruct (authorize (kill_switch_store w) (new_token ids) rq (rate_store w)) as [[r|e] s] eqn:Hg;
    [|by apply HX].
  apply HQ; [done..|]. by eapply authorize_permits.
Qed.

Lemma assign_action_id t id technique now wk u wk' :
  assign_action t id technique now wk = (Ok u, wk') → worker_id wk' = worker_id wk.
Proof.
  intros Heq. pose proof (worker_call_later (AssignAction t id technique now) wk) as Hl. simpl in Hl.
  apply (wp_ok _ _ _ _ _ _ Hl) in Heq as [Hm _]. unfold manifest_of in Hm. congruence.
Qed.

Lemma save_worker_id wk rows wk' rows' : save_row wk rows = Ok (wk', rows') → worker_id wk' = worker_id wk.
Proof.
  unfold save_row. destruct (find _ rows); [|by intros [= <- _]].
  case_bool_decide; [done|]. destruct (find _ rows); [|done]. by intros [= <- _].
Qed.

(** The worker is sent the action, once, after the second payload check. *)
Lemma wp_assign_and_dispatch t ids engagement cmd technique a wk now w :
  wp (assign_and_dispatch t ids engagement cmd technique a wk now)
    (fun _ w' => dispatched w' = dispatched w ++
       [mkDispatch (action_id a) (worker_id wk) (sa_payload_id cmd) (sa_expected_payload_hash cmd)] ∧
       payload_ok cmd (payload_calls w))
    (fun _ w' => dispatched w' = dispatched w) w.
Proof.
  unfold assign_and_dispatch. apply wp_bind. unfold call, wp at 1.
  destruct (assign_action t (action_id a) technique now wk) as [[u|e] wk'] eqn:Ha; [|done].
  apply assign_action_id in Ha. apply wp_bind, wp_save; [|done]. intros wk2 rows Hs%save_worker_id. simpl in Hs.
  apply wp_bind, wp_require_payload; [|by intros]. intros w' (Hd & _) Hok _.
  apply wp_bind, wp_modify, wp_ret. simpl. rewrite Hd, Hs, Ha. done.
Qed.

(** What a command may have done to the dispatcher. *)
Definition dispatches_only (P : Dispatch → Prop) w w' : Prop :=
  dispatched w' = dispatched w ∨ ∃ d, dispatched w' = dispatched w ++ [d] ∧ P d.

Lemma undispatched_record_start t ids engagement cmd a wk now :
  undispatched (record_start t ids engagement cmd a wk now).
Proof. intros w. unfold record_start, journal_or_new, save_journal, save_action. by repeat quiet_step. Qed.

(** The action a token starts has the fresh id. *)
Lemma started_action_id id tk input now a t u a' :
  create_authorized id tk input now = Ok a → start t now a = (Ok u, a') → action_id a' = id.
Proof.
  intros Hc Hs. pose proof (action_call_later (Start t now) a) as Hl. simpl in Hl.
  apply (wp_ok _ _ _ _ _ _ Hl) in Hs as [Hr _]. unfold record_of in Hr.
  injection Hr as -> _. clear -Hc.
  unfold create_authorized in Hc. destruct tk; [|done]. repeat case_bool_decide; try done.
  repeat case_match; simplify_eq. done.
Qed.

Lemma wp_start_checked ids cmd engagement technique policy wk now w :
  well_formed (auth_request cmd technique policy wk now) →
  let P d := ∃ worker, wk = Some worker ∧
    d = mkDispatch (new_action ids) (worker_id worker) (sa_payload_id cmd) (sa_expected_payload_hash cmd) ∧
    gate_passed (kill_switch_store w) (auth_request cmd technique policy wk now) (rate_store w) ∧
    payload_ok cmd (payload_calls w) ∧ payload_ok cmd (S (payload_calls w)) in
  wp (start_checked ids cmd engagement technique policy wk now)
    (fun _ => dispatches_only P w) (fun _ => dispatches_only P w) w.
Proof.
  intros Hwf P. unfold start_checked.
  apply wp_bind, wp_require_payload; [|by left]. intros w1 (Hd1 & Hks & Hrs) Hok1 Hok2.
  apply wp_bind, wp_run_gate; [done| |intros e w2 Hd2; left; congruence].
  intros r w2 Hd2 Hc2 Hgate. destruct (permitted r) eqn:Hp; simpl negb; cbv iota;
    [|apply wp_deny; intros e w3 Hd3; left; congruence].
  specialize (Hgate eq_refl). rewrite Hks, Hrs in Hgate.
  apply wp_bind, wp_domain; [intros a Ha|intros e _; left; congruence].
  apply wp_bind. unfold call, wp at 1. destruct (start _ now a) as [[u|e] a'] eqn:Hs; [|left; simpl; congruence].
  pose proof (started_action_id _ _ _ _ _ _ _ _ Ha Hs) as Hid. simpl. apply wp_bind. destruct wk as [wk|].
  - apply wp_bind. eapply wp_mono; [apply wp_assign_and_dispatch| |intros e w3 Hd3; left; congruence].
    intros wk' w3 [Hd3 Hok3]. apply wp_ret. cbv beta.
    assert (dispatches_only P w w3) as Hdone.
    { right. eexists. split; [by rewrite Hd3, Hd2, Hd1|]. exists wk. rewrite Hid. rewrite Hc2 in Hok3. auto 10. }
    eapply wp_undispatched; [apply undispatched_record_start| |]; intros ? w4 Hd4;
      unfold dispatches_only in *; by rewrite Hd4.
  - apply wp_ret. cbv beta. eapply wp_undispatched; [apply undispatched_record_start| |]; intros ? w4 Hd4;
      left; congruence.
Qed.

Lemma technique_new_ok id category c technique : TechniqueRef_new id category c = Ok technique →
  technique = mkTechniqueRef id category c ∧ blank category = false.
Proof. unfold TechniqueRef_new. destruct (blank id), (blank category); naive_solver. Qed.

Lemma policy_new_ok max window category policy : RateLimitPolicy_new max window category = Ok policy →
  1 <= max_executions policy ∧ 1 <= window_duration_seconds policy.
Proof.
  unfold RateLimitPolicy_new. destruct (Z.ltb_spec max 1); [done|]. destruct (Z.ltb_spec window 1); [done|].
  destruct (blank category); [done|]. by intros [= <-].
Qed.

Lemma wp_find_worker t id (Q : option ExecutionWorker → ExecWorld → Prop) X w :
  (∀ wk, (∀ worker, wk = Some worker → id = Some (worker_id worker) ∧
            find_worker_by_id (view w) (worker_id worker) t = Some worker) → Q wk w) →
  (∀ e, X e w) → wp (find_worker t id) Q X w.
Proof.
  intros HQ HX. unfold find_worker. destruct id as [id|]; app_run; try solve [apply HX]; apply HQ; [|done].
  intros worker [= <-]. subst.
  match goal with Hf : Ok _ = Ok _ |- _ =>
    injection Hf as [= Hf]; pose proof Hf as [<- _]%find_worker_row end. done.
Qed.

(** The whole command. *)
Lemma authorize_and_start_cleared ids cmd now w :
  wp (authorize_and_start_attack_action ids cmd now)
    (fun _ => dispatches_only (cleared ids cmd now w) w) (fun _ => dispatches_only (cleared ids cmd now w) w) w.
Proof.
  unfold authorize_and_start_attack_action.
  repeat lazymatch goal with
  | |- wp (find_worker _ _) _ _ _ => fail
  | |- wp (start_checked _ _ _ _ _ _ _) _ _ _ => fail
  | |- _ => quiet_step
  end; try by left.
  match goal with Ht : TechniqueRef_new _ _ _ = Ok ?te |- _ =>
    rename te into technique; apply technique_new_ok in Ht as [Ht Hcat] end.
  match goal with Hr : RateLimitPolicy_new _ _ _ = Ok ?p |- _ =>
    rename p into policy; apply policy_new_ok in Hr as [Hmax Hwin] end.
  apply wp_find_worker; [|by left]. intros wk Hwk. cbv beta.
  assert (well_formed (auth_request cmd technique policy wk now)) as Hwf.
  { split_and!; [exact Hmax|exact Hwin|]. simpl. by subst technique. }
  pose proof (wp_start_checked ids cmd (sa_engagement_id cmd) technique policy wk now
                (w <| view := durable w |>) Hwf) as Hstart.
  cut (∀ w', dispatches_only (fun d => ∃ worker, wk = Some worker ∧
         d = mkDispatch (new_action ids) (worker_id worker) (sa_payload_id cmd) (sa_expected_payload_hash cmd) ∧
         gate_passed (kill_switch_store w) (auth_request cmd technique policy wk now) (rate_store w) ∧
         payload_ok cmd (payload_calls w) ∧ payload_ok cmd (S (payload_calls w))) (w <| view := durable w |>) w' →
       dispatches_only (cleared ids cmd now w) w (w' <| view := durable w' |>)).
  { intros Hcut. eapply wp_mono; [exact Hstart| |]; intros ? w'; apply Hcut. }
  intros w' [Hd|(d & Hd & worker & -> & -> & Hg & Hok1 & Hok2)]; [by left|right].
  eexists. split; [exact Hd|]. destruct (Hwk worker eq_refl) as [Hid Hf].
  exists technique, policy, worker. subst technique. auto 10.
Qed.
End DispatchSafety.

(** ** Engagements that have a journal *)

Section Frozen.
Context `{!EngagementScopePort} `{!PayloadQueryPort} `{!EventPublisher}.
Implicit Types (w : ExecWorld) (cmd : AuthorizeAndStartAttackAction).
Context (w0 : ExecWorld) (engagement : uuid) (t : TenantId) (j : ExecutionJournal).
Context (Hkeys : unique_keys (durable w0)).
Context (Hjournal : find_by_engagement (durable w0) engagement t = Ok (Some j)).

(** The transaction has stored nothing yet and has not written a journal. *)
Definition unwritten w : Prop := untouched w0 w ∧ journals (view w) = journals (durable w0).

Lemma append_bumps id ty text now attr sys co : bumps (append_entry id t ty text now attr sys co).
Proof. unfold append_entry, Journal._assert_tenant, Journal._mutate, Journal._emit. intros ?. wp_run; [done|].
  split; [exact (Z.add_comm 1 _)|done]. Qed.

(** The journal the transaction reads, appends to and saves. *)
Lemma wp_append_stored {B} ids ty text now (attr : App uuid) (k : ExecutionJournal → App B)
    (Q : B → ExecWorld → Prop) w :
  pure_step attr → unwritten w →
  wp (j ← journal_or_new t ids engagement now; who ← attr;
      r ← call (append_entry (new_entry ids) t ty text now (Some who) None None) j;
      j ← save_journal r.2; k j)
    Q (fun _ => untouched w0) w.
Proof.
  intros Hattr [Hu Hj]. unfold journal_or_new.
  assert (find_by_engagement (view w) engagement t = Ok (Some j)) as Hf.
  { unfold find_by_engagement in *. by rewrite Hj. }
  apply wp_bind, wp_bind, wp_query; rewrite Hf; [|done]. intros a [= <-]. apply wp_ret. simpl default.
  apply wp_bind, wp_pure; [done|intros who|done]. cbv beta.
  apply scalar_one_or_none_some in Hf as (r & Hr & _ & ->).
  apply wp_bind. eapply wp_call_loaded; [apply append_bumps|exact Hr|done|intros e a Hb|done].
  apply wp_bind. eapply wp_save_fails; [|exact Hb|done]. rewrite Hj. apply Hkeys.
Qed.
Lemma pure_operator op : pure_step (OperatorId op).
Proof. intros w. unfold OperatorId. by app_run. Qed.

Lemma deny_unwritten {B} ids failure cmd now (Q : B → ExecWorld → Prop) w :
  unwritten w → wp (deny t ids engagement failure cmd now) Q (fun _ => untouched w0) w.
Proof.
  intros Hu. unfold deny, _journal_authorization_failure. apply wp_bind.
  apply (wp_append_stored ids _ _ now _ (fun _ => mret tt)); [apply pure_operator|done].
Qed.

Lemma record_start_unwritten ids cmd a wk now (Q : AttackActionDTO → ExecWorld → Prop) w :
  unwritten w → wp (record_start t ids engagement cmd a wk now) Q (fun _ => untouched w0) w.
Proof.
  intros Hu. unfold record_start. apply wp_append_stored; [apply pure_operator|done].
Qed.

Lemma check_payload_unwritten cmd w : unwritten w →
  wp (check_payload cmd) (fun _ => unwritten) (fun _ => untouched w0) w.
Proof.
  intros [Hu Hj]. unfold wp, check_payload. destruct (sa_payload_id cmd) as [p|]; [|done].
  destruct verify_for_dispatch as [verify|]; [|done]. by destruct (verify _ _ _ _).
Qed.

Lemma require_payload_unwritten ids cmd now w : unwritten w →
  wp (require_payload t ids engagement cmd now) (fun _ => unwritten) (fun _ => untouched w0) w.
Proof.
  intros Hu. unfold require_payload. apply wp_bind.
  eapply wp_mono; [by apply check_payload_unwritten| |done]. intros [f|] w' Hw'; [|done].
  by apply deny_unwritten.
Qed.

(** The checks and the dispatch write no journal; the end of the transaction
    needs one. *)
Lemma start_checked_unwritten ids cmd technique policy wk now (Q : AttackActionDTO → ExecWorld → Prop) w :
  t = sa_tenant_id cmd → unwritten w →
  wp (start_checked ids cmd engagement technique policy wk now) Q (fun _ => untouched w0) w.
Proof.
  intros Ht Hu. unfold start_checked. rewrite <- Ht.
  apply wp_bind. eapply wp_mono; [by apply require_payload_unwritten| |done]. intros [] w1 Hu1.
  apply wp_bind. unfold run_gate, spend, domain, wp at 1.
  destruct (authorize _ _ _ _) as [[r|e] s]; [|apply Hu1].
  destruct (negb (permitted r)); [by apply deny_unwritten|].
  apply wp_bind, wp_domain; [intros a _|intros e _; apply Hu1].
  apply wp_bind, wp_call_any; [intros ra|intros e; apply Hu1]. apply wp_bind. destruct wk as [wk|].
  2:{ apply wp_ret. by apply record_start_unwritten. }
  unfold assign_and_dispatch. apply wp_bind, wp_bind, wp_call_any; [intros rw|intros e; apply Hu1].
  apply wp_bind, wp_save; [intros wk' rows _|intros e _; apply Hu1].
  apply wp_bind. eapply wp_mono; [by apply require_payload_unwritten| |done]. intros [] w2 Hu2.
  apply wp_bind, wp_modify, wp_ret, wp_ret. by apply record_start_unwritten.
Qed.
End Frozen.

Section Theorems.
Context `{!EngagementScopePort} `{!PayloadQueryPort} `{!EventPublisher}.
Implicit Types (w : ExecWorld) (cmd : AuthorizeAndStartAttackAction).

Lemma start_in_journaled_engagement ids cmd now w j : unique_keys (durable w) →
  find_by_engagement (durable w) (sa_engagement_id cmd) (sa_tenant_id cmd) = Ok (Some j) →
  wp (authorize_and_start_attack_action ids cmd now)
    (fun dto w' => untouched w w' ∧ ∃ a, dto = _attack_action_dto a ∧
       find_non_terminal_by_step (durable w) (sa_step_id cmd) (sa_tenant_id cmd) = Ok (Some a))
    (fun _ => untouched w) w.
Proof.
  intros Hkeys Hj. unfold authorize_and_start_attack_action.
  repeat lazymatch goal with
  | |- wp (find_worker _ _) _ _ _ => fail
  | |- _ => app_step
  end; try done.
  - subst. split; [done|]. by eexists.
  - apply wp_find_worker; [intros wk _|done]. cbv beta.
    eapply (wp_mono _ (fun _ _ => False)); [|done|intros e w' Hu; exact Hu].
    eapply (start_checked_unwritten w (sa_engagement_id cmd) (sa_tenant_id cmd) j); done.
Qed.
End Theorems.

(** ** A concrete world *)

#[export] Instance no_payload_port : PayloadQueryPort := {| verify_for_dispatch := None |}.
#[export] Instance open_publisher : EventPublisher := {| publisher_accepts := fun _ => true |}.

Definition striker : ExecutionWorker :=
  mkWorker 90 acme WorkerType.CLOUD_AGENT {[ "T1485" ]} WorkerTrustLevel.HIGH_TRUST WorkerHealthStatus.HEALTHY
    "dmz" "" 41 50 50 50 1 None None [].
Definition kept_journal : ExecutionJournal := mkJournal 95 acme 60 50 50 1 [] [].
Definition demo_ids : FreshIds := mkIds 101 102 103 104 105 106.
Definition strike_command : AuthorizeAndStartAttackAction :=
  mkStartCommand acme 60 70 80 20 "T1485" "impact" "Destruct" 40 (Some 90) [] 5 60 (Some "scope") None None None.

(** Tables with one worker, and the journals [js]. *)
Definition demo_world (js : list ExecutionJournal) : ExecWorld :=
  let db := mkExecDb [] js [] [striker] in
  mkExecWorld db db [] no_switches empty_store 0 [] [].

Lemma unique_rows_short {A} `{!Row A} (rows : list A) : (length rows ≤ 1)%nat → unique_rows rows.
Proof.
  intros Hlen a r Hf r' Hin _. destruct rows as [|x [|? ?]]; simpl in *; [done| |lia].
  apply list_elem_of_singleton in Hin as ->. destruct (same_row a x); by simplify_eq.
Qed.

Lemma demo_unique js : (length js ≤ 1)%nat → unique_keys (durable (demo_world js)).
Proof. intros Hj. split; apply unique_rows_short; simpl; lia. Qed.

(** ** Properties *)

(** C2. Nothing reaches a worker uncleared: [authorize_and_start_attack_action]
    sends at most one dispatch, of the fresh action to the worker the command
    names, and only from a world in which no action of the step is unfinished,
    that worker is stored for the tenant and can run the technique, the kill
    switches are armed, target and technique are in the engagement's scope, the
    window is open, the rate limit store permits, and the payload, if there is
    one, passes the check before the gate and the one right before the
    dispatch. *)
Theorem dispatch_is_cleared `{!EngagementScopePort} `{!PayloadQueryPort} `{!EventPublisher} ids cmd now w :
  let w' := (authorize_and_start_attack_action ids cmd now w).2 in
  dispatched w' = dispatched w ∨
  ∃ d, dispatched w' = dispatched w ++ [d] ∧ cleared ids cmd now w d.
Proof.
  pose proof (authorize_and_start_cleared ids cmd now w) as Hwp. unfold wp in Hwp.
  by destruct (authorize_and_start_attack_action ids cmd now w) as [[] w'].
Qed.



(** In an engagement that has a journal no further action is ever
    recorded: the command returns only the stored unfinished action of its step,
    and otherwise raises with nothing stored and nothing published, whether it
    was denied or was already dispatched to the worker. *)
Theorem journaled_engagement_records_nothing `{!EngagementScopePort} `{!PayloadQueryPort} `{!EventPublisher}
    ids cmd now w j : unique_keys (durable w) →
  find_by_engagement (durable w) (sa_engagement_id cmd) (sa_tenant_id cmd) = Ok (Some j) →
  let '(r, w') := authorize_and_start_attack_action ids cmd now w in
  untouched w w' ∧
  ∀ dto, r = Ok dto → ∃ a, dto = _attack_action_dto a ∧
    find_non_terminal_by_step (durable w) (sa_step_id cmd) (sa_tenant_id cmd) = Ok (Some a).
Proof.
  intros Hu Hj. pose proof (start_in_journaled_engagement ids cmd now w j Hu Hj) as Hwp. unfold wp in Hwp.
  destruct (authorize_and_start_attack_action ids cmd now w) as [[dto|e] w']; [|done].
  destruct Hwp as [? Ha]. split; [done|]. by intros ? [= <-].
Qed.

Lemma journaled_engagement_records_nothing_witness :
  let w := demo_world [kept_journal] in
  let w' := (authorize_and_start_attack_action demo_ids strike_command 500 w).2 in
  dispatched w' = [mkDispatch 104 90 None None] ∧ durable w' = durable w ∧
  dispatched (authorize_and_start_attack_action demo_ids strike_command 500 (demo_world [])).2 = dispatched w' ∧
  length (attack_actions (durable (authorize_and_start_attack_action demo_ids strike_command 500
                                     (demo_world [])).2)) = 1%nat.
Proof.
  assert (unique_keys (durable (demo_world [kept_journal]))) as Hu by (apply demo_unique; simpl; lia).
  assert (find_by_engagement (durable (demo_world [kept_journal])) (sa_engagement_id strike_command)
            (sa_tenant_id strike_command) = Ok (Some (loaded kept_journal))) as Hj by (vm_compute; reflexivity).
  pose proof (journaled_engagement_records_nothing demo_ids strike_command 500 _ _ Hu Hj) as Hthm.
  cbv zeta. split_and!; [vm_compute; reflexivity| |vm_compute; reflexivity|vm_compute; reflexivity].
  destruct (authorize_and_start_attack_action demo_ids strike_command 500 (demo_world [kept_journal])) as [r w'].
  destruct Hthm as [Hun _]. exact (proj1 Hun).
Defined.
