(* ===== verification/EngagementData.v ===== *)
(** The engagement context: enumerations, value objects, entities, events and
    exceptions, and the canonical text a scope is signed over
    ([engagement/domain/value_objects], [entities], [events], [exceptions]). *)
From stdpp Require Import base tactics list strings.
From Stdlib Require Import ZArith Lia.
From S2P Require Import Prelude PyTypes Sha256 PyJson.

Local Open Scope Z_scope.

(** ** Enumerations *)

Module EngagementState.
Inductive t := DRAFT | PENDING_APPROVAL | APPROVED | ACTIVE | SUSPENDED | CLOSED | ARCHIVED.
#[export] Instance eq_dec : EqDecision t.
Proof. solve_decision. Defined.
Definition value (x : t) : string :=
  match x with
  | DRAFT => "Draft" | PENDING_APPROVAL => "PendingApproval" | APPROVED => "Approved" | ACTIVE => "Active"
  | SUSPENDED => "Suspended" | CLOSED => "Closed" | ARCHIVED => "Archived"
  end.
End EngagementState.
Export (hints) EngagementState.

Module EngagementClassification.
Inductive t := INTERNAL | EXTERNAL_PENTEST | PURPLE_TEAM | TABLETOP_ONLY | FULL_SIMULATION.
#[export] Instance eq_dec : EqDecision t.
Proof. solve_decision. Defined.
Definition value (x : t) : string :=
  match x with
  | INTERNAL => "Internal" | EXTERNAL_PENTEST => "ExternalPentest" | PURPLE_TEAM => "PurpleTeam"
  | TABLETOP_ONLY => "TabletopOnly" | FULL_SIMULATION => "FullSimulation"
  end.
End EngagementClassification.
Export (hints) EngagementClassification.

Module KillSwitchState.
Inductive t := ARMED | TRIGGERED | RELEASED.
#[export] Instance eq_dec : EqDecision t.
Proof. solve_decision. Defined.
Definition value (x : t) : string :=
  match x with ARMED => "Armed" | TRIGGERED => "Triggered" | RELEASED => "Released" end.
End KillSwitchState.
Export (hints) KillSwitchState.

Module AuthorizationState.
Inductive t := ACTIVE | SUSPENDED | REVOKED | EXPIRED.
#[export] Instance eq_dec : EqDecision t.
Proof. solve_decision. Defined.
Definition value (x : t) : string :=
  match x with
  | ACTIVE => "Active" | SUSPENDED => "Suspended" | REVOKED => "Revoked" | EXPIRED => "Expired"
  end.
End AuthorizationState.
Export (hints) AuthorizationState.

Module ImpactCeiling.
Inductive t := OBSERVE | PROBE | EXPLOIT | DESTRUCT.
#[export] Instance eq_dec : EqDecision t.
Proof. solve_decision. Defined.
Definition value (x : t) : string :=
  match x with
  | OBSERVE => "Observe" | PROBE => "Probe" | EXPLOIT => "Exploit" | DESTRUCT => "Destruct"
  end.
End ImpactCeiling.
Export (hints) ImpactCeiling.

Module AuthorizationDecision.
Inductive t := AUTHORIZED | FORBIDDEN | DEFERRED.
#[export] Instance eq_dec : EqDecision t.
Proof. solve_decision. Defined.
End AuthorizationDecision.
Export (hints) AuthorizationDecision.

Module QuorumType.
Inductive t := UNANIMOUS | MAJORITY.
#[export] Instance eq_dec : EqDecision t.
Proof. solve_decision. Defined.
Definition value (x : t) : string := match x with UNANIMOUS => "Unanimous" | MAJORITY => "Majority" end.
End QuorumType.
Export (hints) QuorumType.

(** ** Value objects *)

(** A [dict[str, Any]] of JSON values. *)
Abbreviation JsonDict := (list (string * Json)).

Record EngagementWindow := mkWindow {
  authorized_start : datetime; authorized_end : datetime; operational_hours : JsonDict }.

(** [EngagementWindow(...)] with its [__post_init__]. *)
Definition EngagementWindow_new (s e : datetime) (hours : JsonDict) : option EngagementWindow :=
  if e <=? s then None else Some (mkWindow s e hours).

(** [EngagementWindow.contains] *)
Definition window_contains (w : EngagementWindow) (moment : datetime) : bool :=
  (authorized_start w <=? moment) && (moment <=? authorized_end w).

Record EngagementObjectives := mkObjectives {
  summary : string; success_criteria : list string; extras : JsonDict }.

(** [EngagementObjectives(...)] with its [__post_init__]. *)
Definition EngagementObjectives_new (s : string) (criteria : list string) (extras : JsonDict)
    : option EngagementObjectives :=
  if blank s then None else Some (mkObjectives s criteria extras).

Record RoeConstraint := mkRoeConstraint {
  allowed_techniques : list string; forbidden_targets : list string; rate_limits : JsonDict;
  escalation_contacts : list string }.

Record TargetRef := mkTargetRef { asset_id : uuid; display_name : option string }.

#[export] Instance TargetRef_eq_dec : EqDecision TargetRef.
Proof. solve_decision. Defined.

Record ApprovalRecord := mkApprovalRecord {
  approver_id : string; ap_timestamp : datetime; ap_signature : string; approval_scope : string }.

Record ApprovalPolicy := mkApprovalPolicy {
  required_approver_count : Z; required_approver_roles : list string; quorum_type : QuorumType.t }.

(** [ApprovalPolicy(...)] with its [__post_init__]. *)
Definition ApprovalPolicy_new (count : Z) (roles : list string) (q : QuorumType.t) : option ApprovalPolicy :=
  if count <? 1 then None else Some (mkApprovalPolicy count roles q).

Record AttackTechniqueRef := mkTechniqueRef { technique_id : string; technique_display_name : option string }.

(** [AuthorizedTechniqueSet], with [technique_ids] as the list of ids. *)
Definition technique_ids (techniques : list AttackTechniqueRef) : list string := map technique_id techniques.

(** [AuthorizedTechniqueSet.is_subset_of] *)
Definition is_subset_of (techniques : list AttackTechniqueRef) (allowed : list string) : bool :=
  forallb (fun t => bool_decide (t ∈ allowed)) (technique_ids techniques).

Record AuthorizationConstraints := mkConstraints {
  max_execution_count : Z; allowed_hours : JsonDict; impact_ceiling : ImpactCeiling.t }.

(** [AuthorizationConstraints(...)] with its [__post_init__]. *)
Definition AuthorizationConstraints_new (count : Z) (hours : JsonDict) (c : ImpactCeiling.t)
    : option AuthorizationConstraints :=
  if count <? 1 then None else Some (mkConstraints count hours c).

(** *** The signed scope *)

(** [sorted(targets, key=lambda x: str(x.asset_id))], which is stable. *)
Definition sorted_targets (targets : list TargetRef) : list TargetRef :=
  map snd (sort_items (map (fun t => (str_uuid (asset_id t), t)) targets)).

Definition target_json (t : TargetRef) : Json :=
  JObj [("asset_id", JStr (str_uuid (asset_id t)));
        ("display_name", match display_name t with Some s => JStr s | None => JNull end)].

Definition serialize_target_scope (targets : list TargetRef) : string :=
  dumps (JArr (map target_json (sorted_targets targets))).

(** What is hashed: an f-string without separators. *)
Definition scope_material (serialized_scope : string) (engagement_version : Z) (approval_timestamp : datetime)
    : string :=
  serialized_scope +:+ str_int engagement_version +:+ isoformat approval_timestamp.

(** A [ScopeHash] is its text; the domain only ever computes one. *)
Definition compute_scope_hash (serialized_scope : string) (engagement_version : Z)
    (approval_timestamp : datetime) : string :=
  sha256_hex (scope_material serialized_scope engagement_version approval_timestamp).

(** ** Entities *)

Record EngagementPhase := mkPhase {
  phase_id : uuid; phase_name : string; phase_description : option string; sort_order : Z }.

Record RulesOfEngagement := mkRoe {
  roe_version : Z; constraints : RoeConstraint; signed_by : option string; signature : option string;
  signed_at : option datetime }.
#[export] Instance RulesOfEngagement_settable : Settable RulesOfEngagement := fun r =>
  mkRoe (roe_version r) (constraints r) (signed_by r) (signature r) (signed_at r).

(** Truthiness of a [str | None]. *)
Definition has_text (s : option string) : bool := match s with Some s => negb (empty_str s) | None => false end.

(** [RulesOfEngagement.is_signed]; a [datetime] is always true. *)
Definition is_signed (r : RulesOfEngagement) : bool :=
  has_text (signed_by r) && has_text (signature r) && bool_decide (is_Some (signed_at r)).

Record EngagementApproval := mkApproval {
  approval_id : uuid; record : ApprovalRecord; revoked : bool; revoked_at : option datetime;
  revoked_by : option string }.
#[export] Instance EngagementApproval_settable : Settable EngagementApproval := fun a =>
  mkApproval (approval_id a) (record a) (revoked a) (revoked_at a) (revoked_by a).

Record EngagementParticipant := mkParticipant {
  participant_id : uuid; operator_id : string; role : string; added_at : datetime;
  removed_at : option datetime }.
#[export] Instance EngagementParticipant_settable : Settable EngagementParticipant := fun p =>
  mkParticipant (participant_id p) (operator_id p) (role p) (added_at p) (removed_at p).

(** [EngagementParticipant.is_active] *)
Definition participant_active (p : EngagementParticipant) : bool := bool_decide (removed_at p = None).

(** [TargetScope] *)
Record TargetScope := mkScope { targets : list TargetRef }.

Definition asset_ids (s : TargetScope) : list uuid := map asset_id (targets s).

(** [TargetScope.contains] *)
Definition scope_contains (s : TargetScope) (asset : uuid) : bool := bool_decide (asset ∈ asset_ids s).

(** ** Exceptions and events *)

Inductive EngagementException :=
  | InvalidArgument (field reason : string)
  | InvalidStateTransition (current attempted : string) (aggregate : uuid)
  | TenantMismatch (expected actual : TenantId)
  | DuplicateApproval (approver : string) (engagement : uuid)
  | QuorumNotMet (required : Z) (actual : nat) (engagement : uuid)
  | ScopeImmutableViolation (engagement : uuid)
  | ArchivedImmutabilityViolation (engagement : uuid)
  | AuthorizationReinstatementForbidden (authorization : uuid).

Inductive EngagementEvent :=
  | EngagementCreated (classification owner_id : string)
  | EngagementSubmittedForApproval
  | EngagementApprovalGranted (approver_id signature : string) (quorum_met : bool) (scope_hash : option string)
  | EngagementApprovalRevoked (approver_id revoked_by : string)
  | EngagementActivated (scope_hash : string)
  | EngagementSuspended (reason authority : string)
  | EngagementClosed (reason : option string)
  | EngagementArchived
  | KillSwitchTriggered (authority reason : string)
  | KillSwitchReleased (authority : string)
  | ScopeExpansionRequested (added_asset_ids : list uuid) (engagement_version : Z)
  | ScopeExpansionApproved (engagement_version : Z) (scope_hash : string)
  | RulesOfEngagementVersioned (roe_version : Z) (signed : bool)
  | ParticipantAdded (operator_id role : string)
  | ParticipantRemoved (operator_id : string).

Inductive AuthorizationEvent :=
  | TargetAuthorizationGranted (engagement_id asset_id : uuid) (impact_ceiling : string)
  | TargetAuthorizationSuspended (reason : string)
  | TargetAuthorizationRevoked (reason revoked_by : string)
  | TargetAuthorizationExpired.
