(* ===== verification/EngagementAggregate.v ===== *)
(** The [Engagement] aggregate: approvals, rules of engagement, the signed
    scope, its lifecycle, and what its states guarantee. *)
From stdpp Require Import base tactics list strings.
From Stdlib Require Import ZArith Lia.
From S2P Require Import Prelude PyTypes Sha256 PyJson EngagementData.

Local Open Scope Z_scope.
Import EngagementState.

(** ** State *)

Record Engagement := mkEngagement {
  engagement_id : uuid;
  tenant_id : TenantId;
  name : string;
  classification : EngagementClassification.t;
  owner_id : string;
  state : EngagementState.t;
  approval_policy : ApprovalPolicy;
  window : option EngagementWindow;
  objectives : option EngagementObjectives;
  scope : TargetScope;
  roe : option RulesOfEngagement;
  approvals : list EngagementApproval;
  participants : list EngagementParticipant;
  phases : list EngagementPhase;
  kill_switch_state : KillSwitchState.t;
  scope_hash : option string;
  engagement_version : Z;
  pending_scope_expansion : list TargetRef;
  created_at : datetime;
  updated_at : datetime;
  version : Z;
  pending_events : list (DomainEvent EngagementEvent)
}.

#[export] Instance Engagement_settable : Settable Engagement := fun r =>
  mkEngagement (engagement_id r) (tenant_id r) (name r) (classification r) (owner_id r) (state r)
    (approval_policy r) (window r) (objectives r) (scope r) (roe r) (approvals r) (participants r) (phases r)
    (kill_switch_state r) (scope_hash r) (engagement_version r) (pending_scope_expansion r) (created_at r)
    (updated_at r) (version r) (pending_events r).

Abbreviation M := (PyM Engagement EngagementException).

Definition _ALLOWED_TRANSITIONS (s : EngagementState.t) : list EngagementState.t :=
  match s with
  | DRAFT => [PENDING_APPROVAL]
  | PENDING_APPROVAL => [APPROVED; DRAFT]
  | APPROVED => [ACTIVE; SUSPENDED]
  | ACTIVE => [SUSPENDED; CLOSED]
  | SUSPENDED => [ACTIVE; CLOSED]
  | CLOSED => [ARCHIVED]
  | ARCHIVED => []
  end.

(** ** Helpers *)

(** [_emit], with the envelope every event of the aggregate carries. *)
Definition _emit (now : datetime) (e : EngagementEvent) : M unit :=
  modify (fun g => g <| pending_events ::= fun l => l ++ [mkEvent now (tenant_id g) (engagement_id g) e] |>).

Definition pop_events : M (list (DomainEvent EngagementEvent)) :=
  g ← self;
  modify (fun g => g <| pending_events := [] |>);;
  mret (pending_events g).

Definition _assert_tenant (t : TenantId) : M unit :=
  g ← self;
  raise_if (bool_decide (t ≠ tenant_id g)) (TenantMismatch (tenant_id g) t).

Definition _assert_not_archived : M unit :=
  g ← self;
  raise_if (bool_decide (state g = ARCHIVED)) (ArchivedImmutabilityViolation (engagement_id g)).

Definition _mutate (now : datetime) : M unit :=
  modify (fun g => g <| updated_at := now |> <| version ::= Z.add 1 |>).

Definition _transition (to_state : EngagementState.t) : M unit :=
  g ← self;
  raise_if (bool_decide (to_state ∉ _ALLOWED_TRANSITIONS (state g)))
    (InvalidStateTransition (value (state g)) (value to_state) (engagement_id g));;
  modify (fun g => g <| state := to_state |>).

(** [InvalidStateTransition(self.state.value, attempted, id)] unless the state
    is one of [states]. *)
Definition require_state (states : list EngagementState.t) (attempted : string) : M unit :=
  g ← self;
  raise_if (bool_decide (state g ∉ states))
    (InvalidStateTransition (value (state g)) attempted (engagement_id g)).

Definition is_scope_immutable (g : Engagement) : bool :=
  bool_decide (state g ∈ [APPROVED; ACTIVE; SUSPENDED; CLOSED; ARCHIVED]).

Definition allows_new_operations (g : Engagement) : bool :=
  bool_decide (state g = ACTIVE) && bool_decide (kill_switch_state g = KillSwitchState.ARMED).

Definition active_approvals (g : Engagement) : list EngagementApproval :=
  filter (fun a => revoked a = false) (approvals g).

(** [quorum_met]: both quorum types compare with the required count. *)
Definition quorum_met (g : Engagement) : bool :=
  let count := Z.of_nat (length (active_approvals g)) in
  let required := required_approver_count (approval_policy g) in
  if decide (quorum_type (approval_policy g) = QuorumType.UNANIMOUS) then required <=? count
  else required <=? count.

Definition allowed_technique_ids (g : Engagement) : list string :=
  match roe g with Some r => allowed_techniques (constraints r) | None => [] end.

(** ** Operations *)

Definition create (id : uuid) (t : TenantId) (nm : string) (cl : EngagementClassification.t) (owner : string)
    (policy : ApprovalPolicy) (now : datetime) : result EngagementException Engagement :=
  if blank nm then Err (InvalidArgument "name" "must not be empty")
  else if blank owner then Err (InvalidArgument "owner_id" "must not be empty")
  else
    let engagement := mkEngagement id t (strip nm) cl (strip owner) DRAFT policy None None (mkScope []) None [] []
      [] KillSwitchState.RELEASED None 1 [] now now 1 [] in
    Ok (snd (_emit now (EngagementCreated (EngagementClassification.value cl) (strip owner)) engagement)).

Definition define_scope (t : TenantId) (targets : list TargetRef) (now : datetime) : M unit :=
  _assert_tenant t;;
  _assert_not_archived;;
  g ← self;
  raise_if (is_scope_immutable g) (ScopeImmutableViolation (engagement_id g));;
  require_state [DRAFT; PENDING_APPROVAL] "define_scope";;
  modify (fun g => g <| scope := mkScope targets |>);;
  modify (fun g => g <| scope_hash := None |>);;
  _mutate now.

Definition set_roe (t : TenantId) (c : RoeConstraint) (now : datetime) : M unit :=
  _assert_tenant t;;
  _assert_not_archived;;
  g ← self;
  raise_if (bool_decide (state g ∈ [ACTIVE; CLOSED; ARCHIVED]))
    (InvalidStateTransition (value (state g)) "set_roe" (engagement_id g));;
  let next := match roe g with Some r => roe_version r + 1 | None => 1 end in
  modify (fun g => g <| roe := Some (mkRoe next c None None None) |>);;
  _mutate now;;
  _emit now (RulesOfEngagementVersioned next false).

Definition sign_roe (t : TenantId) (owner sig : string) (now : datetime) : M unit :=
  _assert_tenant t;;
  _assert_not_archived;;
  g ← self;
  match roe g with
  | None => raise (InvalidArgument "roe" "RulesOfEngagement must be set before signing")
  | Some r =>
      raise_if (bool_decide (strip owner ≠ owner_id g))
        (InvalidArgument "owner_id" "only engagement owner may sign RoE");;
      raise_if (blank sig) (InvalidArgument "signature" "must not be empty");;
      modify (fun g => g <| roe := Some (r <| signed_by := Some (strip owner) |>
        <| signature := Some (strip sig) |> <| signed_at := Some now |>) |>);;
      _mutate now;;
      _emit now (RulesOfEngagementVersioned (roe_version r) true)
  end.

Definition set_window (t : TenantId) (w : EngagementWindow) (now : datetime) : M unit :=
  _assert_tenant t;;
  _assert_not_archived;;
  g ← self;
  raise_if (bool_decide (state g ∈ [CLOSED; ARCHIVED]))
    (InvalidStateTransition (value (state g)) "set_window" (engagement_id g));;
  modify (fun g => g <| window := Some w |>);;
  _mutate now.

Definition set_objectives (t : TenantId) (o : EngagementObjectives) (now : datetime) : M unit :=
  _assert_tenant t;;
  _assert_not_archived;;
  modify (fun g => g <| objectives := Some o |>);;
  _mutate now.

Definition set_approval_policy (t : TenantId) (policy : ApprovalPolicy) (now : datetime) : M unit :=
  _assert_tenant t;;
  _assert_not_archived;;
  require_state [DRAFT; PENDING_APPROVAL] "set_approval_policy";;
  modify (fun g => g <| approval_policy := policy |>);;
  _mutate now.

Definition add_participant (t : TenantId) (operator rl : string) (new_id : uuid) (now : datetime) : M unit :=
  _assert_tenant t;;
  _assert_not_archived;;
  raise_if (blank operator) (InvalidArgument "operator_id" "must not be empty");;
  g ← self;
  raise_if (bool_decide (Exists (fun p => operator_id p = strip operator ∧ participant_active p = true)
              (participants g)))
    (InvalidArgument "operator_id" "participant already active");;
  modify (fun g => g <| participants ::= fun l =>
    l ++ [mkParticipant new_id (strip operator) (strip rl) now None] |>);;
  _mutate now;;
  _emit now (ParticipantAdded (strip operator) (strip rl)).

(** The first element that satisfies [p] replaced by its update. *)
Fixpoint update_first {A} (p : A → bool) (f : A → A) (l : list A) : list A :=
  match l with
  | [] => []
  | x :: l' => if p x then f x :: l' else x :: update_first p f l'
  end.

Definition remove_participant (t : TenantId) (operator : string) (now : datetime) : M unit :=
  _assert_tenant t;;
  _assert_not_archived;;
  g ← self;
  let found := fun p => bool_decide (operator_id p = strip operator) && participant_active p in
  modify (fun g => g <| participants ::= update_first found (fun p => p <| removed_at := Some now |>) |>);;
  raise_if (negb (existsb found (participants g))) (InvalidArgument "operator_id" "active participant not found");;
  _mutate now;;
  _emit now (ParticipantRemoved (strip operator)).

Definition add_phase (t : TenantId) (nm : string) (now : datetime) (desc : option string) (order : option Z)
    (new_id : uuid) : M unit :=
  _assert_tenant t;;
  _assert_not_archived;;
  raise_if (blank nm) (InvalidArgument "name" "must not be empty");;
  g ← self;
  let order := default (Z.of_nat (length (phases g))) order in
  modify (fun g => g <| phases ::= fun l => l ++ [mkPhase new_id (strip nm) desc order] |>);;
  _mutate now.

Definition submit_for_approval (t : TenantId) (now : datetime) : M unit :=
  _assert_tenant t;;
  _assert_not_archived;;
  g ← self;
  raise_if (bool_decide (targets (scope g) = [])) (InvalidArgument "scope" "target scope must be defined");;
  raise_if (bool_decide (¬ is_Some (roe g))) (InvalidArgument "roe" "RulesOfEngagement must be set");;
  raise_if (bool_decide (¬ is_Some (window g))) (InvalidArgument "window" "engagement window must be set");;
  _transition PENDING_APPROVAL;;
  _mutate now;;
  _emit now EngagementSubmittedForApproval.

Definition same_approval (approver sc : string) (a : EngagementApproval) : bool :=
  bool_decide (approver_id (record a) = approver) && bool_decide (approval_scope (record a) = sc).

Definition grant_approval (t : TenantId) (approver sig : string) (now : datetime) (sc : string) (new_id : uuid)
    : M unit :=
  _assert_tenant t;;
  _assert_not_archived;;
  require_state [PENDING_APPROVAL] "grant_approval";;
  raise_if (blank approver) (InvalidArgument "approver_id" "must not be empty");;
  raise_if (blank sig) (InvalidArgument "signature" "must not be empty");;
  g ← self;
  raise_if (existsb (same_approval (strip approver) sc) (active_approvals g))
    (DuplicateApproval (strip approver) (engagement_id g));;
  modify (fun g => g <| approvals ::= fun l =>
    l ++ [mkApproval new_id (mkApprovalRecord (strip approver) now (strip sig) sc) false None None] |>);;
  g ← self;
  let complete := quorum_met g in
  hash ← (
    if complete then
      let hash := compute_scope_hash (serialize_target_scope (targets (scope g))) (engagement_version g) now in
      modify (fun g => g <| scope_hash := Some hash |>);;
      _transition APPROVED;;
      mret (Some hash)
    else mret None);
  _mutate now;;
  _emit now (EngagementApprovalGranted (strip approver) (strip sig) complete hash).

Definition revoke_approval (t : TenantId) (approver by_ : string) (now : datetime) : M unit :=
  _assert_tenant t;;
  _assert_not_archived;;
  require_state [PENDING_APPROVAL; APPROVED] "revoke_approval";;
  g ← self;
  let found := fun a => negb (revoked a) && bool_decide (approver_id (record a) = strip approver) in
  modify (fun g => g <| approvals ::= update_first found (fun a =>
    a <| revoked := true |> <| revoked_at := Some now |> <| revoked_by := Some (strip by_) |>) |>);;
  raise_if (negb (existsb found (approvals g))) (InvalidArgument "approver_id" "active approval not found");;
  g ← self;
  when (bool_decide (state g = APPROVED) && negb (quorum_met g)) (
    _transition DRAFT;;
    modify (fun g => g <| scope_hash := None |>));;
  _mutate now;;
  _emit now (EngagementApprovalRevoked (strip approver) (strip by_)).

Definition activate (t : TenantId) (now : datetime) : M unit :=
  _assert_tenant t;;
  _assert_not_archived;;
  require_state [APPROVED] "activate";;
  g ← self;
  raise_if (negb (quorum_met g))
    (QuorumNotMet (required_approver_count (approval_policy g)) (length (active_approvals g)) (engagement_id g));;
  raise_if (negb (match roe g with Some r => is_signed r | None => false end))
    (InvalidArgument "roe" "RulesOfEngagement must be signed by owner");;
  match window g with
  | None => raise (InvalidArgument "window" "engagement window required")
  | Some w =>
      raise_if (negb (window_contains w now))
        (InvalidArgument "window" "activation must be within EngagementWindow");;
      match scope_hash g with
      | None => raise (InvalidArgument "scope_hash" "signed ScopeHash required")
      | Some hash =>
          modify (fun g => g <| kill_switch_state := KillSwitchState.ARMED |>);;
          _transition ACTIVE;;
          _mutate now;;
          _emit now (EngagementActivated hash)
      end
  end.

Definition suspend (t : TenantId) (reason authority : string) (now : datetime) (trigger_kill_switch : bool)
    : M unit :=
  _assert_tenant t;;
  _assert_not_archived;;
  raise_if (blank reason) (InvalidArgument "reason" "must not be empty");;
  _transition SUSPENDED;;
  when trigger_kill_switch (
    modify (fun g => g <| kill_switch_state := KillSwitchState.TRIGGERED |>);;
    _emit now (KillSwitchTriggered (strip authority) (strip reason)));;
  _mutate now;;
  _emit now (EngagementSuspended (strip reason) (strip authority)).

Definition release_kill_switch_and_resume (t : TenantId) (authority : string) (now : datetime) : M unit :=
  _assert_tenant t;;
  _assert_not_archived;;
  require_state [SUSPENDED] "resume";;
  g ← self;
  raise_if (negb (match window g with Some w => window_contains w now | None => false end))
    (InvalidArgument "window" "resume must be within EngagementWindow");;
  modify (fun g => g <| kill_switch_state := KillSwitchState.RELEASED |>);;
  _emit now (KillSwitchReleased (strip authority));;
  modify (fun g => g <| kill_switch_state := KillSwitchState.ARMED |>);;
  _transition ACTIVE;;
  _mutate now.

Definition close (t : TenantId) (now : datetime) (reason : option string) : M unit :=
  _assert_tenant t;;
  _assert_not_archived;;
  _transition CLOSED;;
  _mutate now;;
  _emit now (EngagementClosed reason).

Definition archive (t : TenantId) (now : datetime) : M unit :=
  _assert_tenant t;;
  _transition ARCHIVED;;
  _mutate now;;
  _emit now EngagementArchived.

Definition request_scope_expansion (t : TenantId) (additional : list TargetRef) (now : datetime) : M unit :=
  _assert_tenant t;;
  _assert_not_archived;;
  require_state [APPROVED; ACTIVE; SUSPENDED] "request_scope_expansion";;
  raise_if (bool_decide (additional = [])) (InvalidArgument "additional_targets" "must not be empty");;
  g ← self;
  let new_targets := filter (fun t => asset_id t ∉ asset_ids (scope g)) additional in
  raise_if (bool_decide (new_targets = [])) (InvalidArgument "additional_targets" "no new targets to add");;
  modify (fun g => g <| pending_scope_expansion := new_targets |>);;
  when (bool_decide (state g = ACTIVE))
    (modify (fun g => g <| kill_switch_state := KillSwitchState.TRIGGERED |>));;
  modify (fun g => g <| approvals ::= map (fun a =>
    if revoked a then a
    else a <| revoked := true |> <| revoked_at := Some now |> <| revoked_by := Some "scope_expansion" |>) |>);;
  when (bool_decide (state g = ACTIVE)) (
    modify (fun g => g <| state := SUSPENDED |>);;
    _emit now (KillSwitchTriggered "scope_expansion" "scope expansion requested"));;
  modify (fun g => g <| state := PENDING_APPROVAL |>);;
  _mutate now;;
  _emit now (ScopeExpansionRequested (map asset_id new_targets) (engagement_version g)).

Definition approve_scope_expansion (t : TenantId) (now : datetime) : M unit :=
  _assert_tenant t;;
  _assert_not_archived;;
  require_state [APPROVED] "approve_scope_expansion";;
  g ← self;
  raise_if (bool_decide (pending_scope_expansion g = []))
    (InvalidArgument "pending_scope_expansion" "no pending expansion");;
  raise_if (negb (quorum_met g))
    (QuorumNotMet (required_approver_count (approval_policy g)) (length (active_approvals g)) (engagement_id g));;
  modify (fun g => g <| scope := mkScope (targets (scope g) ++ pending_scope_expansion g) |>);;
  modify (fun g => g <| pending_scope_expansion := [] |>);;
  modify (fun g => g <| engagement_version ::= fun v => v + 1 |>);;
  g ← self;
  let hash := compute_scope_hash (serialize_target_scope (targets (scope g))) (engagement_version g) now in
  modify (fun g => g <| scope_hash := Some hash |>);;
  _mutate now;;
  _emit now (ScopeExpansionApproved (engagement_version g) hash).

(** ** Histories

    A client loads the engagement, makes one call and saves; a call that raises
    is not saved. *)

Inductive call :=
  | CDefineScope (t : TenantId) (targets : list TargetRef) (now : datetime)
  | CSetRoe (t : TenantId) (c : RoeConstraint) (now : datetime)
  | CSignRoe (t : TenantId) (owner sig : string) (now : datetime)
  | CSetWindow (t : TenantId) (w : EngagementWindow) (now : datetime)
  | CSetObjectives (t : TenantId) (o : EngagementObjectives) (now : datetime)
  | CSetApprovalPolicy (t : TenantId) (policy : ApprovalPolicy) (now : datetime)
  | CAddParticipant (t : TenantId) (operator rl : string) (new_id : uuid) (now : datetime)
  | CRemoveParticipant (t : TenantId) (operator : string) (now : datetime)
  | CAddPhase (t : TenantId) (nm : string) (now : datetime) (desc : option string) (order : option Z) (new_id : uuid)
  | CSubmit (t : TenantId) (now : datetime)
  | CGrantApproval (t : TenantId) (approver sig : string) (now : datetime) (sc : string) (new_id : uuid)
  | CRevokeApproval (t : TenantId) (approver by_ : string) (now : datetime)
  | CActivate (t : TenantId) (now : datetime)
  | CSuspend (t : TenantId) (reason authority : string) (now : datetime) (trigger : bool)
  | CResume (t : TenantId) (authority : string) (now : datetime)
  | CClose (t : TenantId) (now : datetime) (reason : option string)
  | CArchive (t : TenantId) (now : datetime)
  | CRequestExpansion (t : TenantId) (additional : list TargetRef) (now : datetime)
  | CApproveExpansion (t : TenantId) (now : datetime).

Definition run_call (c : call) : M unit :=
  match c with
  | CDefineScope t ts now => define_scope t ts now
  | CSetRoe t c now => set_roe t c now
  | CSignRoe t o s now => sign_roe t o s now
  | CSetWindow t w now => set_window t w now
  | CSetObjectives t o now => set_objectives t o now
  | CSetApprovalPolicy t p now => set_approval_policy t p now
  | CAddParticipant t o r i now => add_participant t o r i now
  | CRemoveParticipant t o now => remove_participant t o now
  | CAddPhase t n now d o i => add_phase t n now d o i
  | CSubmit t now => submit_for_approval t now
  | CGrantApproval t a s now sc i => grant_approval t a s now sc i
  | CRevokeApproval t a b now => revoke_approval t a b now
  | CActivate t now => activate t now
  | CSuspend t r a now k => suspend t r a now k
  | CResume t a now => release_kill_switch_and_resume t a now
  | CClose t now r => close t now r
  | CArchive t now => archive t now
  | CRequestExpansion t ts now => request_scope_expansion t ts now
  | CApproveExpansion t now => approve_scope_expansion t now
  end.

(** The engagement a call leaves behind. *)
Definition after_call (g : Engagement) (c : call) : Engagement :=
  match run_call c g with
  | (Ok _, g') => g'
  | (Err _, _) => g
  end.

Definition run_calls (cs : list call) (g : Engagement) : Engagement := foldl after_call g cs.

Definition reachable (g : Engagement) : Prop :=
  ∃ id t nm cl owner policy now g0 cs, create id t nm cl owner policy now = Ok g0 ∧ g = run_calls cs g0.

(** ** Specification *)

(** The states an approved engagement goes through. *)
Definition approved_states : list EngagementState.t := [APPROVED; ACTIVE; SUSPENDED; CLOSED; ARCHIVED].

(** Who approved what, of an approval that was not revoked. *)
Definition approver_key (a : EngagementApproval) : string * string :=
  (approver_id (record a), approval_scope (record a)).

(** A digest of the scope and of the version of the engagement. *)
Definition seals (g : Engagement) (hash : string) : Prop :=
  ∃ ts, hash = compute_scope_hash (serialize_target_scope (targets (scope g))) (engagement_version g) ts.

Record governed (g : Engagement) : Prop := {
  gv_hash : ∀ hash, scope_hash g = Some hash → seals g hash;
  gv_approved : state g ∈ approved_states → is_Some (scope_hash g) ∧ quorum_met g = true;
  gv_submitted : state g ≠ DRAFT → is_Some (roe g) ∧ is_Some (window g);
  gv_kill : state g = ACTIVE → kill_switch_state g = KillSwitchState.ARMED;
  gv_approvers : NoDup (map approver_key (active_approvals g));
  gv_versions : 1 ≤ version g ∧ 1 ≤ engagement_version g
}.

(** ** Lemmas *)

Ltac unfold_engagement :=
  unfold define_scope, set_roe, sign_roe, set_window, set_objectives, set_approval_policy, add_participant,
    remove_participant, add_phase, submit_for_approval, grant_approval, revoke_approval, activate, suspend,
    release_kill_switch_and_resume, close, archive, request_scope_expansion, approve_scope_expansion,
    require_state, _assert_tenant, _assert_not_archived, _transition, _mutate, _emit.

(** Decides what the guards on the lifecycle state say, state by state. *)
Ltac solve_state :=
  repeat match goal with
  | H : context [is_Some _] |- _ => clear H
  | H : context [kill_switch_state _] |- _ => clear H
  | H : context [scope_hash _] |- _ => clear H
  end;
  repeat match goal with H : context [state ?g] |- _ => revert H end;
  destruct (state _); by_compute.

Section Approvals.
Implicit Types (l : list EngagementApproval).

Definition unrevoked l : list EngagementApproval := filter (fun a => revoked a = false) l.

Lemma unrevoked_app l l' : unrevoked (l ++ l') = unrevoked l ++ unrevoked l'.
Proof. apply filter_app. Qed.

(** Revoking one approval takes one key away. *)
Lemma unrevoked_update p f l : (∀ a, revoked (f a) = true) →
  sublist (map approver_key (unrevoked (update_first p f l))) (map approver_key (unrevoked l)).
Proof.
  intros Hf. unfold unrevoked. induction l as [|a l IH]; [done|]. simpl. destruct (p a).
  - rewrite filter_cons_False by (by rewrite Hf). rewrite filter_cons. case_decide; simpl; [by constructor|done].
  - rewrite !filter_cons. case_decide; simpl; [by constructor|done].
Qed.

Lemma unrevoked_revoke_all f l : (∀ a, revoked a = false → revoked (f a) = true) →
  unrevoked (map (fun a => if revoked a then a else f a) l) = [].
Proof.
  intros Hf. unfold unrevoked. induction l as [|a l IH]; [done|]. simpl. rewrite filter_cons_False; [done|].
  destruct (revoked a) eqn:Ha; [by rewrite Ha|by rewrite (Hf a Ha)].
Qed.

Lemma existsb_key_fresh k sc l : existsb (same_approval k sc) l = false → (k, sc) ∉ map approver_key l.
Proof.
  intros Hno (a & Heq & Hin)%list_elem_of_fmap. unfold approver_key in Heq. simplify_eq.
  apply not_true_iff_false in Hno. apply Hno, existsb_exists. exists a.
  split; [by apply list_elem_of_In|]. unfold same_approval. by rewrite !bool_decide_eq_true_2.
Qed.
End Approvals.

(** A successful call keeps the invariant. *)
Definition safe (m : M unit) : Prop := ∀ g, governed g → wp m (λ _, governed) (λ _ _, True) g.

(** Runs a method from a governed engagement and discharges the clauses that
    only depend on the guards. *)
Ltac governed_run :=
  intros g Hg; unfold_engagement; wp_run; try done; stable; destruct Hg as [Hh Ha Hs Hk Hn Hv]; split; simpl; try done;
  try first
    [ lia
    | intros Hin; exfalso; clear -Hin; revert Hin; by_compute
    | intros Hin; exfalso; solve_state
    | intros _; apply Ha; solve_state
    | intros _; apply Hs; solve_state
    | let H := fresh in intros H; destruct (Hs H); eauto
    | by eauto
    | by intros _; split
    | let H := fresh in intros ? H; exact (Hh _ H)
    | let H := fresh in intros ? H; injection H as <-; by eexists ].

Lemma define_scope_safe t ts now : safe (define_scope t ts now).
Proof. governed_run. Qed.

Lemma set_roe_safe t c now : safe (set_roe t c now).
Proof. governed_run. Qed.

Lemma sign_roe_safe t o s now : safe (sign_roe t o s now).
Proof. governed_run. Qed.

Lemma set_window_safe t w now : safe (set_window t w now).
Proof. governed_run. Qed.

Lemma set_objectives_safe t o now : safe (set_objectives t o now).
Proof. governed_run. Qed.

Lemma set_approval_policy_safe t p now : safe (set_approval_policy t p now).
Proof. governed_run. Qed.

Lemma add_participant_safe t o r i now : safe (add_participant t o r i now).
Proof. governed_run. Qed.

Lemma remove_participant_safe t o now : safe (remove_participant t o now).
Proof. governed_run. Qed.

Lemma add_phase_safe t n now d o i : safe (add_phase t n now d o i).
Proof. governed_run. Qed.

Lemma submit_safe t now : safe (submit_for_approval t now).
Proof. governed_run. Qed.

Lemma activate_safe t now : safe (activate t now).
Proof. governed_run. Qed.

Lemma suspend_safe t r a now k : safe (suspend t r a now k).
Proof. governed_run. Qed.

Lemma resume_safe t a now : safe (release_kill_switch_and_resume t a now).
Proof. governed_run. Qed.

Lemma close_safe t now r : safe (close t now r).
Proof. governed_run. Qed.

Lemma archive_safe t now : safe (archive t now).
Proof. governed_run. Qed.

Lemma approve_scope_expansion_safe t now : safe (approve_scope_expansion t now).
Proof. governed_run. Qed.

Lemma grant_approval_safe t a s now sc i : safe (grant_approval t a s now sc i).
Proof.
  governed_run.
  all: change (NoDup (map approver_key (unrevoked (approvals g ++
    [mkApproval i (mkApprovalRecord (strip a) now (strip s) sc) false None None])))).
  all: rewrite unrevoked_app, map_app; apply NoDup_app; split_and!; [exact Hn| |apply NoDup_singleton].
  all: intros x Hx ->%list_elem_of_singleton; revert Hx; by apply existsb_key_fresh.
Qed.

Lemma revoke_approval_safe t a b now : safe (revoke_approval t a b now).
Proof.
  governed_run.
  - eapply sublist_NoDup; [exact Hn|]. apply unrevoked_update. done.
  - intros Hin. split; [by apply Ha|].
    match goal with H : _ && _ = false |- _ => apply andb_false_iff in H as [Hst|Hq] end.
    + exfalso. apply bool_decide_eq_false in Hst. simpl in Hst. solve_state.
    + by apply negb_false_iff in Hq.
  - eapply sublist_NoDup; [exact Hn|]. apply unrevoked_update. done.
Qed.

Lemma request_scope_expansion_safe t ts now : safe (request_scope_expansion t ts now).
Proof.
  governed_run.
  all: match goal with |- NoDup (map _ ?l) =>
    assert (l = []) as -> by (apply unrevoked_revoke_all; done) end.
  all: constructor.
Qed.

#[local] Hint Resolve define_scope_safe set_roe_safe sign_roe_safe set_window_safe set_objectives_safe
  set_approval_policy_safe add_participant_safe remove_participant_safe add_phase_safe submit_safe
  grant_approval_safe revoke_approval_safe activate_safe suspend_safe resume_safe close_safe archive_safe
  request_scope_expansion_safe approve_scope_expansion_safe : py.

Lemma run_call_safe c : safe (run_call c).
Proof. destruct c; simpl; auto with py. Qed.

Lemma after_call_governed g c : governed g → governed (after_call g c).
Proof.
  intros Hg. pose proof (run_call_safe c g Hg) as Hwp. unfold wp, after_call in *.
  by destruct (run_call c g) as [[]].
Qed.

Lemma run_calls_governed cs g : governed g → governed (run_calls cs g).
Proof.
  revert g. induction cs as [|c cs IH]; intros g Hg; [done|]. by apply IH, after_call_governed.
Qed.

Lemma create_governed id t nm cl owner policy now g : create id t nm cl owner policy now = Ok g → governed g.
Proof.
  unfold create. repeat case_match; try done. intros [= <-].
  split; simpl; try done; try (intros Hin; exfalso; revert Hin; by_compute). constructor.
Qed.

Lemma reachable_governed g : reachable g → governed g.
Proof. intros (? & ? & ? & ? & ? & ? & ? & g0 & cs & Hc & ->). by eapply run_calls_governed, create_governed. Qed.

Lemma unrevoked_update_length p f l : (∀ a, p a = true → revoked a = false) → (∀ a, revoked (f a) = true) →
  existsb p l = true → S (length (unrevoked (update_first p f l))) = length (unrevoked l).
Proof.
  intros Hp Hf. unfold unrevoked. induction l as [|a l IH]; [done|]. simpl. destruct (p a) eqn:Ha; simpl.
  - intros _. by rewrite (filter_cons_True _ a) by auto; rewrite filter_cons_False by (by rewrite Hf).
  - intros Hex. rewrite !filter_cons. case_decide; simpl; [f_equal|]; by apply IH.
Qed.

(** What a call does to the lifecycle state. *)
Definition lifecycle_step (g g' : Engagement) : Prop :=
  state g' = state g ∨ state g' ∈ _ALLOWED_TRANSITIONS (state g) ∨
  state g ∈ [APPROVED; ACTIVE; SUSPENDED] ∧ state g' = PENDING_APPROVAL ∧ active_approvals g' = [].

Lemma engagement_call_lifecycle c g : wp (run_call c) (λ _, lifecycle_step g) (λ _ _, True) g.
Proof.
  unfold lifecycle_step. destruct c; simpl; unfold_engagement; wp_run; try done; stable; simpl in *;
    try (by left); try (by right; left).
  all: right; right; split_and!; [done|done|]; by apply unrevoked_revoke_all.
Qed.

Lemma run_call_archived c g : state g = ARCHIVED → wp (run_call c) (λ _ _, False) (λ _ _, True) g.
Proof.
  intros Hs. destruct c; simpl; unfold_engagement; wp_run; try done; stable; try done.
  all: match goal with H : _ |- False => rewrite Hs in H; revert H; by_compute end.
Qed.

(** The approval that was missing. *)
Lemma quorum_last g a : revoked a = false →
  required_approver_count (approval_policy g) = Z.of_nat (length (active_approvals g)) + 1 →
  quorum_met (g <| approvals ::= λ l, l ++ [a] |>) = true.
Proof.
  intros Ha Hreq. unfold quorum_met, active_approvals in *. simpl. rewrite filter_app, length_app, Hreq.
  rewrite filter_cons_True by done. simpl. case_decide; apply Z.leb_le; lia.
Qed.

(** A call that can only raise. *)
Lemma raises_wp {S E A} (m : PyM S E A) s e s' :
  wp m (λ _ _, False) (λ x sx, x = e ∧ sx = s') s → m s = (Err e, s').
Proof. unfold wp. destruct (m s) as [[]]; naive_solver. Qed.

(** What is left of a call that cannot raise. *)
Lemma after_call_wp c g (Q : Engagement → Prop) : wp (run_call c) (λ _, Q) (λ _ _, False) g → Q (after_call g c).
Proof. unfold wp, after_call. by destruct (run_call c g) as [[[]|] ?]. Qed.

(** ** Concrete histories *)

Definition acme : TenantId := mkEntityId 1.

Definition two_approvers : ApprovalPolicy :=
  mkApprovalPolicy 2 ["redteam:approver"; "redteam:ciso"] QuorumType.MAJORITY.

Definition web_roe : RoeConstraint := mkRoeConstraint ["T1190"] [] [] [].

Definition start_engagement : Engagement :=
  mkEngagement 5 acme "op" EngagementClassification.INTERNAL "owner" DRAFT two_approvers None None (mkScope []) None
    [] [] [] KillSwitchState.RELEASED None 1 [] 0 0 1
    [mkEvent 0 acme 5 (EngagementCreated "Internal" "owner")].

(** Scope, rules and window, submitted. *)
Definition submitted : list call :=
  [CDefineScope acme [mkTargetRef 21 (Some "web")] 1; CSetRoe acme web_roe 2;
   CSetWindow acme (mkWindow 0 100 []) 3; CSubmit acme 4].

Definition approved : list call :=
  submitted ++ [CGrantApproval acme "ann" "s1" 5 "engagement" 11; CGrantApproval acme "bob" "s2" 6 "engagement" 12].

Definition signed_and_activated : list call := approved ++ [CSignRoe acme "owner" "sig" 7; CActivate acme 8].

(** Suspended and resumed instead of signed and activated. *)
Definition resumed_unsigned : list call := approved ++ [CSuspend acme "pause" "soc" 7 true; CResume acme "soc" 8].

Lemma start_engagement_reachable cs : reachable (run_calls cs start_engagement).
Proof.
  exists 5, acme, " op ", EngagementClassification.INTERNAL, "owner", two_approvers, 0, start_engagement, cs.
  split; [vm_compute; reflexivity|reflexivity].
Qed.

(** Calls that check the signature of the rules, or make one. *)
Definition signs_or_activates (c : call) : bool :=
  match c with CSignRoe _ _ _ _ | CActivate _ _ => true | _ => false end.

(** ** Properties *)

(** Whatever calls are made and saved, an engagement stays governed: its
    scope hash is a digest of the current scope and version; from APPROVED on
    it has one and the required number of approvals stands, each by another
    approver and none revoked; once submitted it keeps rules and a window; and
    while ACTIVE its kill switch is armed. *)
Theorem engagements_stay_governed g : reachable g → governed g.
Proof. apply reachable_governed. Qed.

Lemma engagements_stay_governed_witness :
  let g := run_calls signed_and_activated start_engagement in
  reachable g ∧ state g = ACTIVE ∧ governed g.
Proof.
  split; [apply start_engagement_reachable|]. split; [by_compute|].
  apply (engagements_stay_governed (run_calls signed_and_activated start_engagement) (start_engagement_reachable _)).
Defined.

(** A call that succeeds moves an engagement along the transition table; the
    one exception is a scope expansion, which takes an approved, active or
    suspended engagement back to PENDING_APPROVAL with every approval revoked.
    No call on an archived engagement succeeds. *)
Theorem engagement_follows_lifecycle c g g' : run_call c g = (Ok tt, g') →
  lifecycle_step g g' ∧ state g ≠ ARCHIVED.
Proof.
  intros Hrun. split.
  - exact (wp_ok _ _ _ _ _ _ (engagement_call_lifecycle c g) Hrun).
  - intros Hs. exact (wp_ok _ _ _ _ _ _ (run_call_archived c g Hs) Hrun).
Qed.

Lemma engagement_follows_lifecycle_witness :
  let g := run_calls submitted start_engagement in
  let g' := (run_call (CGrantApproval acme "ann" "s1" 5 "engagement" 11) g).2 in
  run_call (CGrantApproval acme "ann" "s1" 5 "engagement" 11) g = (Ok tt, g') ∧ lifecycle_step g g' ∧ state g ≠ ARCHIVED.
Proof.
  assert (run_call (CGrantApproval acme "ann" "s1" 5 "engagement" 11) (run_calls submitted start_engagement) =
    (Ok tt, (run_call (CGrantApproval acme "ann" "s1" 5 "engagement" 11) (run_calls submitted start_engagement)).2))
    as Hrun by (vm_compute; reflexivity).
  split; [exact Hrun|]. apply (engagement_follows_lifecycle _ _ _ Hrun).
Defined.

(** An engagement can become ACTIVE although nobody signed its rules and
    nobody activated it: suspending an approved engagement and resuming it
    reaches ACTIVE without the checks of [activate]. *)
Theorem active_engagement_may_be_unsigned :
  ∃ cs r, let g := run_calls cs start_engagement in
  reachable g ∧ forallb (λ c, negb (signs_or_activates c)) cs = true ∧
  state g = ACTIVE ∧ allows_new_operations g = true ∧ roe g = Some r ∧ is_signed r = false.
Proof.
  exists resumed_unsigned, (mkRoe 1 web_roe None None None).
  split; [apply start_engagement_reachable|]. split; [done|]. split; [by_compute|]. by split_and!; vm_compute.
Qed.

(** Changing the scope of a pending engagement keeps the approvals that
    were given for the scope before: they count for the new one, and when one
    approval is missing the next one approves the new scope. *)
Theorem approvals_outlive_the_scope t ts now g : t = tenant_id g → state g = PENDING_APPROVAL →
  let g' := after_call g (CDefineScope t ts now) in
  targets (scope g') = ts ∧ approvals g' = approvals g ∧ state g' = PENDING_APPROVAL ∧
  ∀ approver sig at_ sc id, blank approver = false → blank sig = false →
    existsb (same_approval (strip approver) sc) (active_approvals g) = false →
    required_approver_count (approval_policy g) = Z.of_nat (length (active_approvals g)) + 1 →
    let g'' := after_call g' (CGrantApproval t approver sig at_ sc id) in
    state g'' = APPROVED ∧ targets (scope g'') = ts ∧
    scope_hash g'' = Some (compute_scope_hash (serialize_target_scope ts) (engagement_version g) at_).
Proof.
  intros -> Hs g'.
  assert (tenant_id g' = tenant_id g ∧ engagement_version g' = engagement_version g ∧
    approval_policy g' = approval_policy g ∧ targets (scope g') = ts ∧ approvals g' = approvals g ∧
    state g' = PENDING_APPROVAL) as (Ht & Hv & Hp & Hts & Ha & Hst).
  { apply (after_call_wp (CDefineScope _ _ _)). simpl. unfold_engagement. wp_run; stable; try done.
    all: try unfold is_scope_immutable in *; rewrite Hs in *; guards; exfalso.
    all: match goal with H : _ |- False => revert H; by_compute end. }
  split_and!; [done..|]. intros approver sig at_ sc id Hb Hsig Hdup Hreq.
  assert (active_approvals g' = active_approvals g) as Hact by (unfold active_approvals; by rewrite Ha).
  rewrite <- Hact, <- Hp in Hreq. rewrite <- Hact in Hdup. clearbody g'.
  apply (after_call_wp (CGrantApproval _ _ _ _ _ _)). simpl. unfold_engagement.
  wp_run; stable; try congruence; simpl in *; try (by rewrite Hts, Hv); exfalso.
  all: first [ match goal with H : context [state _] |- _ => rewrite Hst in H; revert H; by_compute end
             | match goal with H : quorum_met _ = false |- _ => by rewrite quorum_last in H end ].
Qed.

(** Pending, with the approval of "ann". *)
Definition half_approved : Engagement :=
  run_calls (submitted ++ [CGrantApproval acme "ann" "s1" 5 "engagement" 11]) start_engagement.

Lemma approvals_outlive_the_scope_witness :
  let ts := [mkTargetRef 99 None] in
  state half_approved = PENDING_APPROVAL ∧ targets (scope half_approved) = [mkTargetRef 21 (Some "web")] ∧
  let g' := after_call half_approved (CDefineScope acme ts 6) in
  let g'' := after_call g' (CGrantApproval acme "bob" "s2" 7 "engagement" 12) in
  state g'' = APPROVED ∧ targets (scope g'') = ts ∧
  scope_hash g'' = Some (compute_scope_hash (serialize_target_scope ts) 1 7).
Proof.
  assert (acme = tenant_id half_approved) as Ht by (vm_compute; reflexivity).
  assert (state half_approved = PENDING_APPROVAL) as Hs by (vm_compute; reflexivity).
  assert (targets (scope half_approved) = [mkTargetRef 21 (Some "web")]) as Hts by (vm_compute; reflexivity).
  split; [exact Hs|]. split; [exact Hts|].
  destruct (approvals_outlive_the_scope acme [mkTargetRef 99 None] 6 half_approved Ht Hs) as (_ & _ & _ & Hgrant).
  assert (engagement_version half_approved = 1) as Hv by (vm_compute; reflexivity).
  rewrite Hv in Hgrant. by apply (Hgrant "bob" "s2" 7 "engagement" 12); vm_compute.
Defined.

(** An approval the quorum depends on cannot be withdrawn: when exactly the
    required number of approvals stands, [revoke_approval] on the approved
    engagement raises, because the table has no way from APPROVED to DRAFT, after
    it has marked the approval of the loaded object as revoked. *)
Theorem quorum_approval_cannot_be_revoked t approver by_ now g : t = tenant_id g → state g = APPROVED →
  required_approver_count (approval_policy g) = Z.of_nat (length (active_approvals g)) →
  strip approver ∈ map (λ a, approver_id (record a)) (active_approvals g) →
  ∃ g', revoke_approval t approver by_ now g =
          (Err (InvalidStateTransition "Approved" "Draft" (engagement_id g)), g') ∧
        S (length (active_approvals g')) = length (active_approvals g) ∧
        state g' = APPROVED ∧ version g' = version g ∧ scope_hash g' = scope_hash g.
Proof.
  intros -> Hs Hreq (a & Happ & Hin)%list_elem_of_fmap.
  apply list_elem_of_filter in Hin as [Hrev Hin].
  set (found a := negb (revoked a) && bool_decide (approver_id (record a) = strip approver)).
  set (mark a := a <| revoked := true |> <| revoked_at := Some now |> <| revoked_by := Some (strip by_) |>).
  assert (existsb found (approvals g) = true) as Hfound.
  { apply existsb_exists. exists a. split; [by apply list_elem_of_In|]. unfold found. rewrite Hrev.
    by apply bool_decide_eq_true_2. }
  assert (S (length (unrevoked (update_first found mark (approvals g)))) = length (active_approvals g)) as Hlen.
  { apply unrevoked_update_length; [|done|done]. intros b [Hb _]%andb_prop. by apply negb_true_iff. }
  exists (g <| approvals ::= update_first found mark |>). split; [|done]. apply raises_wp.
  assert (quorum_met (g <| approvals ::= update_first found mark |>) = false) as Hq.
  { unfold quorum_met. change (active_approvals _) with (unrevoked (update_first found mark (approvals g))).
    simpl. rewrite Hreq. case_decide; apply Z.leb_gt; lia. }
  unfold revoke_approval, _assert_tenant, _assert_not_archived, require_state, _transition.
  fold found mark. wp_run; stable; try done; try congruence; simpl in *; try (by rewrite Hs); exfalso.
  - match goal with H : state g ∉ _ |- _ => rewrite Hs in H; revert H; by_compute end.
  - match goal with H : DRAFT ∈ _ |- _ => rewrite Hs in H; revert H; by_compute end.
  - match goal with H : _ && _ = false |- _ => rewrite Hq in H; simpl in H; rewrite Hs in H; discriminate H end.
Qed.

Lemma quorum_approval_cannot_be_revoked_witness :
  let g := run_calls approved start_engagement in
  state g = APPROVED ∧
  ∃ g', revoke_approval acme "ann" "boss" 7 g = (Err (InvalidStateTransition "Approved" "Draft" 5), g') ∧
        S (length (active_approvals g')) = 2%nat ∧ state g' = APPROVED ∧ version g' = version g ∧
        scope_hash g' = scope_hash g.
Proof.
  set (g := run_calls approved start_engagement).
  assert (acme = tenant_id g) as Ht by (vm_compute; reflexivity).
  assert (state g = APPROVED) as Hs by (vm_compute; reflexivity).
  assert (required_approver_count (approval_policy g) = Z.of_nat (length (active_approvals g))) as Hreq
    by (vm_compute; reflexivity).
  assert (strip "ann" ∈ map (λ a, approver_id (record a)) (active_approvals g)) as Hin by by_compute.
  assert (length (active_approvals g) = 2%nat) as Hlen by (vm_compute; reflexivity).
  assert (engagement_id g = 5) as Hid by (vm_compute; reflexivity).
  split; [exact Hs|]. rewrite <- Hlen, <- Hid.
  apply (quorum_approval_cannot_be_revoked acme "ann" "boss" 7 g Ht Hs Hreq Hin).
Defined.
