(* ===== verification/ScopeHash.v ===== *)
(** What a scope hash binds: the canonical text of a scope is a prefix code, so
    the digest determines the targets and the version up to a collision of
    SHA-256, and it does not depend on the order of the targets. *)
From stdpp Require Import base tactics list strings sorting pretty.
From Stdlib Require Import ZArith Lia Ascii.
From S2P Require Import Prelude PyTypes PyParse Sha256 PyJson JsonText EngagementData.

Local Open Scope Z_scope.

(** ** The text of a scope *)

(** Targets with ids that are UUIDs. *)
Definition target_ok (t : TargetRef) : Prop := uuid_ok (asset_id t).

(** The canonical value of a target has its id and its name. *)
Lemma target_json_inj t t' : target_ok t → target_ok t' → canon (target_json t) = canon (target_json t') → t = t'.
Proof.
  destruct t as [u n], t' as [u' n']. intros Hu Hu'. pose proof (str_uuid_inj u u' Hu Hu') as Hinj. revert Hinj.
  unfold target_json. cbn [asset_id display_name]. generalize (str_uuid u), (str_uuid u'). intros a a' Hinj.
  destruct n as [n|], n' as [n'|]; intros [= Heq]; try done; subst; by rewrite Hinj.
Qed.

(** The text of a scope followed by anything determines its sorted targets. *)
Lemma serialize_inj ts ts' r r' : (∀ t, t ∈ sorted_targets ts → target_ok t) →
  (∀ t, t ∈ sorted_targets ts' → target_ok t) →
  serialize_target_scope ts +:+ r = serialize_target_scope ts' +:+ r' → sorted_targets ts = sorted_targets ts' ∧ r = r'.
Proof.
  intros Hts Hts'. unfold serialize_target_scope. intros [Heq ->]%dumps_inj; [|done]. split; [|done].
  cbn [canon] in Heq. injection Heq as Heq. rewrite !map_map in Heq.
  revert Hts Hts' Heq. generalize (sorted_targets ts') as l'. induction (sorted_targets ts) as [|t l IH]; intros [|t' l'] Hl Hl'; try done.
  cbn [map]. intros [Ht Hrest]%(f_equal (λ l, (hd_error l, tl l)))%pair_eq. cbn [hd_error tl] in Ht, Hrest.
  apply Some_inj, target_json_inj in Ht as ->; [|apply Hl; left|apply Hl'; left].
  f_equal. apply IH; [intros x Hx; apply Hl; by right|intros x Hx; apply Hl'; by right|done].
Qed.

(** ** The order of the targets *)

Lemma sorted_targets_perm ts : sorted_targets ts ≡ₚ ts.
Proof. unfold sorted_targets. rewrite sort_items_perm, map_map. simpl. by rewrite map_id. Qed.

(** Targets with ids of their own have one order. *)
Lemma sorted_targets_unique ts ts' : ts ≡ₚ ts' → NoDup (map asset_id ts) → (∀ t, t ∈ ts → target_ok t) →
  sorted_targets ts = sorted_targets ts'.
Proof.
  intros Hp Hnd Hok. unfold sorted_targets. f_equal.
  apply (StronglySorted_unique_strong key_le); [|apply sort_items_sorted..|by rewrite !sort_items_perm, Hp].
  intros x y. rewrite !sort_items_perm. intros (t & -> & Ht)%list_elem_of_fmap (t' & -> & Ht')%list_elem_of_fmap.
  rewrite <- Hp in Ht'. unfold key_le, str_le. simpl. intros H1 H2.
  assert (str_uuid (asset_id t) = str_uuid (asset_id t')) as Heq by by apply String.leb_antisym.
  apply str_uuid_inj in Heq; [|by apply Hok..]. f_equal; [by rewrite Heq|].
  clear -Hnd Ht Ht' Heq. induction ts as [|z ts IH]; [by apply not_elem_of_nil in Ht|].
  apply NoDup_cons in Hnd as [Hz Hnd].
  apply elem_of_cons in Ht as [->|Ht], Ht' as [->|Ht']; [done| | |by apply IH].
  - exfalso. apply Hz. rewrite Heq. by apply list_elem_of_fmap_2.
  - exfalso. apply Hz. rewrite <- Heq. by apply list_elem_of_fmap_2.
Qed.

Lemma scope_material_inj ts ts' v v' at_ : (∀ t, t ∈ ts → target_ok t) → (∀ t, t ∈ ts' → target_ok t) →
  scope_material (serialize_target_scope ts) v at_ = scope_material (serialize_target_scope ts') v' at_ →
  ts ≡ₚ ts' ∧ v = v'.
Proof.
  intros Hts Hts' Heq. apply serialize_inj in Heq as [Hsort Heq].
  - split.
    + by rewrite <- (sorted_targets_perm ts), Hsort, sorted_targets_perm.
    + apply string_app_inj_r in Heq. by apply (inj pretty).
  - intros t. rewrite sorted_targets_perm. apply Hts.
  - intros t. rewrite sorted_targets_perm. apply Hts'.
Qed.

(** ** Properties *)

(** Two scopes whose hashed texts differ although their digests agree. *)
Definition scope_collision (ts ts' : list TargetRef) (v v' : Z) (at_ : datetime) : Prop :=
  scope_material (serialize_target_scope ts) v at_ ≠ scope_material (serialize_target_scope ts') v' at_ ∧
  compute_scope_hash (serialize_target_scope ts) v at_ = compute_scope_hash (serialize_target_scope ts') v' at_.

(** A scope hash stands for the scope: two scopes hashed for one approval
    time have the same hash only if they have the same targets, names included,
    and the same engagement version, or their texts collide under SHA-256; and
    the order in which the targets are listed makes no difference. *)
Theorem scope_hash_identifies_scope ts ts' v v' at_ : (∀ t, t ∈ ts ++ ts' → target_ok t) →
  NoDup (map asset_id ts) →
  (compute_scope_hash (serialize_target_scope ts) v at_ = compute_scope_hash (serialize_target_scope ts') v' at_ →
     ts ≡ₚ ts' ∧ v = v' ∨ scope_collision ts ts' v v' at_) ∧
  (ts ≡ₚ ts' → serialize_target_scope ts = serialize_target_scope ts').
Proof.
  intros Hok Hnd. split.
  - intros Heq. destruct (decide (scope_material (serialize_target_scope ts) v at_ =
      scope_material (serialize_target_scope ts') v' at_)) as [Hm|Hm]; [left|by right].
    apply (scope_material_inj ts ts' v v' at_); [| |done]; intros t Ht; apply Hok, elem_of_app; auto.
  - intros Hp. unfold serialize_target_scope. rewrite (sorted_targets_unique ts ts'); [done..|].
    intros t Ht. apply Hok, elem_of_app. by left.
Qed.

Lemma scope_hash_identifies_scope_witness :
  let web := mkTargetRef 21 (Some "web") in let db := mkTargetRef 3 None in
  (∀ t, t ∈ [web; db] ++ [db; web] → target_ok t) ∧ NoDup (map asset_id [web; db]) ∧
  [web; db] ≡ₚ [db; web] ∧
  serialize_target_scope [web; db] = serialize_target_scope [db; web].
Proof.
  set (web := mkTargetRef 21 (Some "web")). set (db := mkTargetRef 3 None).
  assert (∀ t, t ∈ [web; db] ++ [db; web] → target_ok t) as Hok.
  { intros t Ht. repeat (apply elem_of_cons in Ht as [->|Ht]; [by unfold target_ok, uuid_ok; simpl|]).
    by apply not_elem_of_nil in Ht. }
  assert (NoDup (map asset_id [web; db])) as Hnd by by_compute.
  assert ([web; db] ≡ₚ [db; web]) as Hp by apply Permutation_swap.
  split; [exact Hok|]. split; [exact Hnd|]. split; [exact Hp|].
  apply (scope_hash_identifies_scope [web; db] [db; web] 1 1 0 Hok Hnd). exact Hp.
Defined.
