(* ===== verification/TargetAuth.v ===== *)
(** The [TargetAuthorization] aggregate and the domain services of the
    engagement context: the factory, the authorization of operations and the
    verification of the signed scope. *)
From stdpp Require Import base tactics list strings.
From Stdlib Require Import ZArith Lia.
From S2P Require Import Prelude PyTypes Sha256 PyJson EngagementData EngagementAggregate.

Local Open Scope Z_scope.

(** ** TargetAuthorization *)

Record TargetAuthorization := mkAuthorization {
  authorization_id : uuid;
  ta_tenant_id : TenantId;
  ta_engagement_id : uuid;
  target_ref : TargetRef;
  techniques : list AttackTechniqueRef;
  ta_constraints : AuthorizationConstraints;
  granted_by : string;
  valid_until : datetime;
  ta_state : AuthorizationState.t;
  ta_phase_id : option uuid;
  destruct_approval_granted : bool;
  ta_created_at : datetime;
  ta_updated_at : datetime;
  ta_version : Z;
  ta_pending_events : list (DomainEvent AuthorizationEvent)
}.

#[export] Instance TargetAuthorization_settable : Settable TargetAuthorization := fun r =>
  mkAuthorization (authorization_id r) (ta_tenant_id r) (ta_engagement_id r) (target_ref r) (techniques r)
    (ta_constraints r) (granted_by r) (valid_until r) (ta_state r) (ta_phase_id r) (destruct_approval_granted r)
    (ta_created_at r) (ta_updated_at r) (ta_version r) (ta_pending_events r).

Module Auth.
Import AuthorizationState.

Abbreviation M := (PyM TargetAuthorization EngagementException).

Definition _ALLOWED_TRANSITIONS (s : AuthorizationState.t) : list AuthorizationState.t :=
  match s with
  | ACTIVE => [SUSPENDED; REVOKED; EXPIRED]
  | SUSPENDED => [ACTIVE; REVOKED; EXPIRED]
  | REVOKED => []
  | EXPIRED => []
  end.

Definition _emit (now : datetime) (e : AuthorizationEvent) : M unit :=
  modify (fun a => a <| ta_pending_events ::= fun l => l ++ [mkEvent now (ta_tenant_id a) (authorization_id a) e] |>).

Definition pop_events : M (list (DomainEvent AuthorizationEvent)) :=
  a ← self;
  modify (fun a => a <| ta_pending_events := [] |>);;
  mret (ta_pending_events a).

Definition _assert_tenant (t : TenantId) : M unit :=
  a ← self;
  raise_if (bool_decide (t ≠ ta_tenant_id a)) (TenantMismatch (ta_tenant_id a) t).

Definition _mutate (now : datetime) : M unit :=
  modify (fun a => a <| ta_updated_at := now |> <| ta_version ::= Z.add 1 |>).

Definition _transition (to_state : AuthorizationState.t) : M unit :=
  a ← self;
  raise_if (bool_decide (ta_state a = REVOKED)) (AuthorizationReinstatementForbidden (authorization_id a));;
  raise_if (bool_decide (to_state ∉ _ALLOWED_TRANSITIONS (ta_state a)))
    (InvalidStateTransition (value (ta_state a)) (value to_state) (authorization_id a));;
  modify (fun a => a <| ta_state := to_state |>).

Definition grant (id : uuid) (t : TenantId) (engagement : uuid) (target : TargetRef)
    (techniques : list AttackTechniqueRef) (c : AuthorizationConstraints) (granted_by : string)
    (valid_until now : datetime) (allowed_roe_techniques : list string) (destruct_approval_granted : bool)
    (phase : option uuid) : result EngagementException TargetAuthorization :=
  if blank granted_by then Err (InvalidArgument "granted_by" "must not be empty")
  else if valid_until <=? now then Err (InvalidArgument "valid_until" "must be in the future")
  else if negb (is_subset_of techniques allowed_roe_techniques)
  then Err (InvalidArgument "techniques" "may not authorize techniques absent from parent engagement RoE")
  else if bool_decide (impact_ceiling c = ImpactCeiling.DESTRUCT) && negb destruct_approval_granted
  then Err (InvalidArgument "destruct_approval_granted"
              "impact_ceiling=Destruct requires separate CISO-level approval gate")
  else
    let auth := mkAuthorization id t engagement target techniques c (strip granted_by) valid_until ACTIVE phase
      destruct_approval_granted now now 1 [] in
    Ok (snd (_emit now (TargetAuthorizationGranted engagement (asset_id target)
                          (ImpactCeiling.value (impact_ceiling c))) auth)).

Definition suspend (t : TenantId) (reason : string) (now : datetime) : M unit :=
  _assert_tenant t;;
  raise_if (blank reason) (InvalidArgument "reason" "must not be empty");;
  _transition SUSPENDED;;
  _mutate now;;
  _emit now (TargetAuthorizationSuspended (strip reason)).

Definition resume (t : TenantId) (now : datetime) : M unit :=
  _assert_tenant t;;
  _transition ACTIVE;;
  _mutate now.

Definition revoke (t : TenantId) (reason by_ : string) (now : datetime) : M unit :=
  _assert_tenant t;;
  raise_if (blank reason) (InvalidArgument "reason" "must not be empty");;
  _transition REVOKED;;
  _mutate now;;
  _emit now (TargetAuthorizationRevoked (strip reason) (strip by_)).

Definition expire (t : TenantId) (now : datetime) : M unit :=
  _assert_tenant t;;
  a ← self;
  raise_if ((now <? valid_until a) && bool_decide (ta_state a = ACTIVE))
    (InvalidArgument "valid_until" "authorization has not yet expired");;
  _transition EXPIRED;;
  _mutate now;;
  _emit now TargetAuthorizationExpired.

Inductive call :=
  | CSuspend (t : TenantId) (reason : string) (now : datetime)
  | CResume (t : TenantId) (now : datetime)
  | CRevoke (t : TenantId) (reason by_ : string) (now : datetime)
  | CExpire (t : TenantId) (now : datetime)
  | CPopEvents.

Definition run_call (c : call) : M unit :=
  match c with
  | CSuspend t r now => suspend t r now
  | CResume t now => resume t now
  | CRevoke t r b now => revoke t r b now
  | CExpire t now => expire t now
  | CPopEvents => pop_events;; mret tt
  end.
End Auth.

(** ** EngagementFactory *)

Definition DEFAULT_REQUIRED_APPROVERS : Z := 2.
Definition DEFAULT_APPROVER_ROLES : list string := ["redteam:approver"; "redteam:ciso"].

(** [EngagementFactory.create], with the id it generates when it gets none. *)
Definition factory_create (t : TenantId) (nm : string) (cl : EngagementClassification.t) (owner : string)
    (now : datetime) (policy : option ApprovalPolicy) (id : option uuid) (new_id : uuid)
    : result EngagementException Engagement :=
  let policy := default (mkApprovalPolicy DEFAULT_REQUIRED_APPROVERS DEFAULT_APPROVER_ROLES QuorumType.MAJORITY) policy in
  create (default new_id id) t nm cl owner policy now.

(** ** EngagementAuthorizationService *)

Record AuthorizationEvaluation := mkEvaluation { decision : AuthorizationDecision.t; ev_reason : string }.

Definition evaluate (g : Engagement) (target : TargetRef) (technique : AttackTechniqueRef)
    (proposed_start_time : datetime) : AuthorizationEvaluation :=
  if bool_decide (state g ≠ EngagementState.ACTIVE)
  then mkEvaluation AuthorizationDecision.FORBIDDEN
         ("engagement state is " +:+ EngagementState.value (state g) +:+ ", not Active")
  else if bool_decide (kill_switch_state g ≠ KillSwitchState.ARMED)
  then mkEvaluation AuthorizationDecision.FORBIDDEN
         ("kill switch is " +:+ KillSwitchState.value (kill_switch_state g))
  else if negb (allows_new_operations g)
  then mkEvaluation AuthorizationDecision.FORBIDDEN "engagement does not allow new operations"
  else if negb (scope_contains (scope g) (asset_id target))
  then mkEvaluation AuthorizationDecision.FORBIDDEN "target is outside engagement TargetScope"
  else if bool_decide (technique_id technique ∉ allowed_technique_ids g)
  then mkEvaluation AuthorizationDecision.FORBIDDEN "technique not authorized by RulesOfEngagement"
  else match window g with
       | None => mkEvaluation AuthorizationDecision.DEFERRED "engagement window not configured"
       | Some w =>
           if negb (window_contains w proposed_start_time)
           then mkEvaluation AuthorizationDecision.FORBIDDEN "proposed start time outside EngagementWindow"
           else mkEvaluation AuthorizationDecision.AUTHORIZED "authorized"
       end.

(** ** ScopeVerificationService *)

Definition compute_current_hash (g : Engagement) (approval_timestamp : datetime) : string :=
  compute_scope_hash (serialize_target_scope (targets (scope g))) (engagement_version g) approval_timestamp.

Definition verify_target_in_scope (g : Engagement) (target : TargetRef) : bool :=
  match scope_hash g with
  | None => false
  | Some _ => scope_contains (scope g) (asset_id target)
  end.

Definition verify_scope_hash (g : Engagement) (expected : string) (approval_timestamp : datetime) : bool :=
  bool_decide (compute_current_hash g approval_timestamp = expected) &&
  bool_decide (expected = default "" (scope_hash g)).

(** ** Specification *)

(** What a grant fixes. *)
Definition granted_content (a : TargetAuthorization) :=
  (authorization_id a, ta_tenant_id a, ta_engagement_id a, target_ref a, techniques a, ta_constraints a,
   granted_by a, valid_until a, destruct_approval_granted a).

Definition ended (a : TargetAuthorization) : Prop :=
  ta_state a ∈ [AuthorizationState.REVOKED; AuthorizationState.EXPIRED].

(** A call keeps what was granted, and the state of an authorization that ended. *)
Definition keeps_grant (a a' : TargetAuthorization) : Prop :=
  granted_content a' = granted_content a ∧ (ended a → ta_state a' = ta_state a).

#[export] Instance keeps_grant_preorder : PreOrder keeps_grant.
Proof.
  split; [done|]. intros a b c [H1 H2] [H3 H4]. split; [congruence|].
  intros He. assert (ended b) as Hb by (unfold ended; by rewrite H2). rewrite <- H2 by done. by apply H4.
Qed.

(** ** Lemmas *)

Lemma auth_call_keeps c : follows Auth.run_call keeps_grant c.
Proof.
  intros a. unfold keeps_grant, ended, granted_content.
  destruct c; simpl; unfold Auth.suspend, Auth.resume, Auth.revoke, Auth.expire, Auth.pop_events, Auth._assert_tenant,
    Auth._transition, Auth._mutate, Auth._emit; wp_run; stable; (split; [done|]); simpl; intros Hin; try done.
  all: exfalso.
  all: repeat match goal with H : context [valid_until _] |- _ => clear H end.
  all: repeat match goal with H : context [ta_state ?x] |- _ => revert H end; clear; destruct (ta_state a); by_compute.
Qed.

Lemma is_subset_of_spec ts allowed : is_subset_of ts allowed = true ↔ ∀ t, t ∈ technique_ids ts → t ∈ allowed.
Proof.
  unfold is_subset_of. rewrite forallb_forall. split; intros Hall t Ht.
  - apply list_elem_of_In in Ht. by apply Hall, bool_decide_eq_true in Ht.
  - apply bool_decide_eq_true, Hall. by apply list_elem_of_In.
Qed.

Lemma grant_spec id t en target ts c by_ until now allowed destruct phase a :
  Auth.grant id t en target ts c by_ until now allowed destruct phase = Ok a →
  granted_content a = (id, t, en, target, ts, c, strip by_, until, destruct) ∧ now < until ∧
  (∀ x, x ∈ technique_ids ts → x ∈ allowed) ∧ (impact_ceiling c = ImpactCeiling.DESTRUCT → destruct = true).
Proof.
  unfold Auth.grant. repeat case_match; try done. intros [= <-].
  match goal with H : (_ <=? _) = false |- _ => apply Z.leb_gt in H end.
  match goal with H : negb (is_subset_of _ _) = false |- _ =>
    apply negb_false_iff in H; rewrite is_subset_of_spec in H end.
  split_and!; [done|done|done|]. intros Hc.
  match goal with H : _ && _ = false |- _ => rewrite Hc in H; by destruct destruct end.
Qed.

(** ** Properties *)

(** The authorization service answers AUTHORIZED exactly when the engagement
    is ACTIVE, the target is in its scope, the technique in its rules and the
    start time in its window; the answer is never DEFERRED on a governed
    engagement, as every engagement is that calls or the tables lead to; and what
    it authorizes lies in a scope whose hash verifies and whose approvals meet
    the policy. *)
Theorem authorized_means_governed g target technique at_ : governed g →
  (decision (evaluate g target technique at_) = AuthorizationDecision.AUTHORIZED ↔
     state g = EngagementState.ACTIVE ∧ asset_id target ∈ asset_ids (scope g) ∧
     technique_id technique ∈ allowed_technique_ids g ∧
     ∃ w, window g = Some w ∧ authorized_start w ≤ at_ ≤ authorized_end w) ∧
  decision (evaluate g target technique at_) ≠ AuthorizationDecision.DEFERRED ∧
  (decision (evaluate g target technique at_) = AuthorizationDecision.AUTHORIZED →
     quorum_met g = true ∧ verify_target_in_scope g target = true ∧
     ∃ hash ts, scope_hash g = Some hash ∧ verify_scope_hash g hash ts = true).
Proof.
  intros [Hh Ha Hs Hk _ _]. unfold evaluate.
  case_bool_decide as Hst; [by split_and!; [split; [done|by intros []]|done|done]|].
  rewrite (Hk Hst), bool_decide_eq_false_2 by (by intros []).
  assert (allows_new_operations g = true) as ->.
  { unfold allows_new_operations. by rewrite Hst, (Hk Hst), !bool_decide_eq_true_2. }
  destruct (Ha ltac:(by rewrite Hst; by_compute)) as [[hash Hhash] Hq]. destruct (Hh hash Hhash) as [ts Hseal].
  destruct Hs as [_ [w Hw]]; [by rewrite Hst|]. rewrite Hw. simpl negb. cbv iota.
  unfold scope_contains, verify_target_in_scope, window_contains. rewrite Hhash.
  case_bool_decide as Hin; simpl negb; cbv iota; [|by split_and!; [split; [done|naive_solver]|done|done]].
  case_bool_decide as Htech; [by split_and!; [split; [done|naive_solver]|done|done]|].
  destruct ((authorized_start w <=? at_) && (at_ <=? authorized_end w)) eqn:Hwin; simpl.
  - apply andb_prop in Hwin as [H1%Z.leb_le H2%Z.leb_le]. split_and!; [split; [|done]|done|].
    + intros _. split_and!; [done..|]. by exists w.
    + intros _. split_and!; [done|by apply bool_decide_eq_true_2|]. exists hash, ts. split; [done|].
      unfold verify_scope_hash, compute_current_hash. rewrite Hhash. by rewrite !bool_decide_eq_true_2.
  - split_and!; [split; [done|]|done|done]. intros (_ & _ & _ & w' & [= <-] & H1 & H2).
    apply andb_false_iff in Hwin as [Hwin%Z.leb_gt|Hwin%Z.leb_gt]; lia.
Qed.

Lemma authorized_means_governed_witness :
  let g := run_calls signed_and_activated start_engagement in
  let e := evaluate g (mkTargetRef 21 None) (mkTechniqueRef "T1190" None) 9 in
  governed g ∧ decision e = AuthorizationDecision.AUTHORIZED ∧ quorum_met g = true ∧
  ∃ hash ts, scope_hash g = Some hash ∧ verify_scope_hash g hash ts = true.
Proof.
  set (g := run_calls signed_and_activated start_engagement).
  assert (governed g) as Hg by apply reachable_governed, start_engagement_reachable.
  assert (decision (evaluate g (mkTargetRef 21 None) (mkTechniqueRef "T1190" None) 9) =
    AuthorizationDecision.AUTHORIZED) as Hd by (vm_compute; reflexivity).
  destruct (authorized_means_governed g (mkTargetRef 21 None) (mkTechniqueRef "T1190" None) 9 Hg) as (_ & _ & Hok).
  destruct (Hok Hd) as (Hq & _ & Hh). split; [exact Hg|]. split; [exact Hd|]. split; [exact Hq|exact Hh].
Defined.

(** A target authorization stays within its grant: it is granted only for
    techniques the rules of engagement allow, for a future end, and with the
    Destruct ceiling only after the separate approval; no call changes what was
    granted; and one that was revoked or has expired stays so. *)
Theorem authorization_stays_within_grant id t en target ts c by_ until now allowed destruct phase a cs :
  Auth.grant id t en target ts c by_ until now allowed destruct phase = Ok a →
  let a' := run_all Auth.run_call cs a in
  granted_content a' = (id, t, en, target, ts, c, strip by_, until, destruct) ∧ now < until ∧
  (∀ x, x ∈ technique_ids ts → x ∈ allowed) ∧
  (impact_ceiling c = ImpactCeiling.DESTRUCT → destruct = true) ∧
  ∀ cs', ended a' → ta_state (run_all Auth.run_call cs' a') = ta_state a'.
Proof.
  intros (Hc & Hu & Ht & Hd)%grant_spec a'.
  assert (∀ cs b, keeps_grant b (run_all Auth.run_call cs b)) as Hkeep.
  { intros l b. apply run_all_follows; [apply _|apply auth_call_keeps]. }
  split_and!; [|done..|].
  - rewrite <- Hc. apply (Hkeep cs a).
  - intros cs' He. by apply (Hkeep cs' a').
Qed.

Lemma authorization_stays_within_grant_witness :
  let g := Auth.grant 31 acme 5 (mkTargetRef 21 None) [mkTechniqueRef "T1190" None]
    (mkConstraints 3 [] ImpactCeiling.PROBE) "boss" 50 10 ["T1190"] false None in
  ∃ a, g = Ok a ∧
  let a' := run_all Auth.run_call [Auth.CRevoke acme "done" "boss" 20] a in
  ta_state a' = AuthorizationState.REVOKED ∧
  ta_state (run_all Auth.run_call [Auth.CResume acme 21] a') = AuthorizationState.REVOKED.
Proof.
  destruct (Auth.grant 31 acme 5 (mkTargetRef 21 None) [mkTechniqueRef "T1190" None]
    (mkConstraints 3 [] ImpactCeiling.PROBE) "boss" 50 10 ["T1190"] false None) as [a|e] eqn:Hg;
    [|by vm_compute in Hg].
  exists a. split; [done|].
  destruct (authorization_stays_within_grant 31 acme 5 (mkTargetRef 21 None) [mkTechniqueRef "T1190" None]
    (mkConstraints 3 [] ImpactCeiling.PROBE) "boss" 50 10 ["T1190"] false None a
    [Auth.CRevoke acme "done" "boss" 20] Hg) as (_ & _ & _ & _ & Hend).
  assert (ta_state (run_all Auth.run_call [Auth.CRevoke acme "done" "boss" 20] a) = AuthorizationState.REVOKED) as Hr.
  { vm_compute in Hg. injection Hg as <-. vm_compute. reflexivity. }
  split; [exact Hr|]. rewrite <- Hr. apply Hend. unfold ended. rewrite Hr. by_compute.
Defined.
