(* ===== verification/EngagementStore.v ===== *)
(** Persistence of engagements and target authorizations: the JSON columns, the
    seven tables with their unique constraints, and the two repositories with
    their optimistic locking. *)
From stdpp Require Import base tactics list strings sorting.
From Stdlib Require Import ZArith Lia.
From S2P Require Import Prelude PyTypes PyParse Sha256 PyJson PyStore EngagementData EngagementAggregate ScopeHash TargetAuth.

Local Open Scope Z_scope.

(** ** JSON columns *)

Definition all_engagement_states : list EngagementState.t :=
  [EngagementState.DRAFT; EngagementState.PENDING_APPROVAL; EngagementState.APPROVED; EngagementState.ACTIVE;
   EngagementState.SUSPENDED; EngagementState.CLOSED; EngagementState.ARCHIVED].
Definition all_classifications : list EngagementClassification.t :=
  [EngagementClassification.INTERNAL; EngagementClassification.EXTERNAL_PENTEST;
   EngagementClassification.PURPLE_TEAM; EngagementClassification.TABLETOP_ONLY;
   EngagementClassification.FULL_SIMULATION].
Definition all_kill_states : list KillSwitchState.t :=
  [KillSwitchState.ARMED; KillSwitchState.TRIGGERED; KillSwitchState.RELEASED].
Definition all_quorums : list QuorumType.t := [QuorumType.UNANIMOUS; QuorumType.MAJORITY].
Definition all_authorization_states : list AuthorizationState.t :=
  [AuthorizationState.ACTIVE; AuthorizationState.SUSPENDED; AuthorizationState.REVOKED; AuthorizationState.EXPIRED].
Definition all_ceilings : list ImpactCeiling.t :=
  [ImpactCeiling.OBSERVE; ImpactCeiling.PROBE; ImpactCeiling.EXPLOIT; ImpactCeiling.DESTRUCT].

Definition _policy_to_json (p : ApprovalPolicy) : Json :=
  JObj [("required_approver_count", JInt (required_approver_count p));
        ("required_approver_roles", json_strs (required_approver_roles p));
        ("quorum_type", JStr (QuorumType.value (quorum_type p)))].

Definition _policy_from_json (data : Json) : option ApprovalPolicy :=
  match data with
  | JObj d =>
      count ← dget d "required_approver_count" ≫= py_int;
      roles ← to_str_list (dget_default d "required_approver_roles" JNull);
      quorum ← py_str (dget_default d "quorum_type" (JStr (QuorumType.value QuorumType.MAJORITY)));
      q ← of_text QuorumType.value all_quorums quorum;
      ApprovalPolicy_new count roles q
  | _ => None
  end.

Definition _window_to_json (window : option EngagementWindow) : Json :=
  match window with
  | None => JNull
  | Some w => JObj [("authorized_start", JStr (isoformat (authorized_start w)));
                    ("authorized_end", JStr (isoformat (authorized_end w)));
                    ("operational_hours", JObj (operational_hours w))]
  end.

Definition _window_from_json (data : Json) : option (option EngagementWindow) :=
  match data with
  | JNull => Some None
  | JObj d =>
      s ← dget d "authorized_start" ≫= py_str;
      start ← fromisoformat s;
      e ← dget d "authorized_end" ≫= py_str;
      finish ← fromisoformat e;
      hours ← to_dict (dget_default d "operational_hours" JNull);
      w ← EngagementWindow_new start finish hours;
      Some (Some w)
  | _ => None
  end.

Definition _objectives_to_json (objectives : option EngagementObjectives) : Json :=
  match objectives with
  | None => JNull
  | Some o => JObj [("summary", JStr (summary o)); ("success_criteria", json_strs (success_criteria o));
                    ("extras", JObj (extras o))]
  end.

Definition _objectives_from_json (data : Json) : option (option EngagementObjectives) :=
  match data with
  | JNull => Some None
  | JObj d =>
      s ← dget d "summary" ≫= py_str;
      criteria ← to_str_list (dget_default d "success_criteria" JNull);
      ex ← to_dict (dget_default d "extras" JNull);
      o ← EngagementObjectives_new s criteria ex;
      Some (Some o)
  | _ => None
  end.

Definition pending_item (t : TargetRef) : Json :=
  JObj [("asset_id", JStr (str_uuid (asset_id t))); ("display_name", opt_str (display_name t))].
Definition _pending_to_json (ts : list TargetRef) : Json := JArr (map pending_item ts).

Definition pending_of_item (item : Json) : option TargetRef :=
  match item with
  | JObj d =>
      s ← dget d "asset_id" ≫= py_str;
      u ← uuid_of_text s;
      nm ← to_opt_str (dget_default d "display_name" JNull);
      Some (mkTargetRef u nm)
  | _ => None
  end.
Definition _pending_from_json (data : Json) : option (list TargetRef) :=
  if negb (py_truthy data) then Some []
  else match data with JArr l => mapM pending_of_item l | _ => None end.

(** The [constraints_json] of rules of engagement, written by [_sync_children]
    and read by [_to_domain]. *)
Definition roe_constraints_to_json (c : RoeConstraint) : Json :=
  JObj [("allowed_techniques", json_strs (allowed_techniques c));
        ("forbidden_targets", json_strs (forbidden_targets c));
        ("rate_limits", JObj (rate_limits c)); ("escalation_contacts", json_strs (escalation_contacts c))].

Definition roe_constraints_from_json (data : Json) : option RoeConstraint :=
  match data with
  | JObj d =>
      techs ← to_str_list (dget_default d "allowed_techniques" JNull);
      forbidden ← to_str_list (dget_default d "forbidden_targets" JNull);
      limits ← to_dict (dget_default d "rate_limits" JNull);
      contacts ← to_str_list (dget_default d "escalation_contacts" JNull);
      Some (mkRoeConstraint techs forbidden limits contacts)
  | _ => None
  end.

(** [ScopeHash(value)]: 64 hexadecimal characters. *)
Definition ScopeHash_new (value : string) : option string :=
  if bool_decide (String.length value = 64%nat) then _ ← int16 0 value; Some value else None.

Definition technique_item (t : AttackTechniqueRef) : Json :=
  JObj [("technique_id", JStr (technique_id t)); ("display_name", opt_str (technique_display_name t))].
Definition _techniques_to_json (ts : list AttackTechniqueRef) : Json := JArr (map technique_item ts).

Definition technique_of_item (item : Json) : option AttackTechniqueRef :=
  match item with
  | JObj d =>
      id ← dget d "technique_id" ≫= py_str;
      nm ← to_opt_str (dget_default d "display_name" JNull);
      Some (mkTechniqueRef id nm)
  | _ => None
  end.
Definition _techniques_from_json (data : Json) : option (list AttackTechniqueRef) :=
  match data with JArr l => mapM technique_of_item l | _ => None end.

Definition _constraints_to_json (c : AuthorizationConstraints) : Json :=
  JObj [("max_execution_count", JInt (max_execution_count c)); ("allowed_hours", JObj (allowed_hours c));
        ("impact_ceiling", JStr (ImpactCeiling.value (impact_ceiling c)))].

Definition _constraints_from_json (data : Json) : option AuthorizationConstraints :=
  match data with
  | JObj d =>
      count ← dget d "max_execution_count" ≫= py_int;
      hours ← to_dict (dget_default d "allowed_hours" JNull);
      s ← dget d "impact_ceiling" ≫= py_str;
      c ← of_text ImpactCeiling.value all_ceilings s;
      AuthorizationConstraints_new count hours c
  | _ => None
  end.

(** ** Tables *)

(** [EngagementModel] *)
Record EngagementRow := mkEngagementRow {
  er_id : uuid; er_tenant_id : TenantId; er_name : string; er_classification : string; er_owner_id : string;
  er_state : string; er_kill_switch_state : string; er_engagement_version : Z; er_scope_hash : option string;
  er_approval_policy_json : Json; er_window_json : Json; er_objectives_json : Json;
  er_pending_scope_expansion_json : Json; er_created_at : datetime; er_updated_at : datetime;
  er_row_version : Z }.

(** [EngagementPhaseModel] *)
Record PhaseRow := mkPhaseRow {
  pr_id : uuid; pr_engagement_id : uuid; pr_tenant_id : TenantId; pr_name : string;
  pr_description : option string; pr_sort_order : Z }.

(** [EngagementApprovalModel] *)
Record ApprovalRow := mkApprovalRow {
  apr_id : uuid; apr_engagement_id : uuid; apr_tenant_id : TenantId; apr_approver_id : string;
  apr_timestamp : datetime; apr_signature : string; apr_approval_scope : string; apr_revoked : bool;
  apr_revoked_at : option datetime; apr_revoked_by : option string }.

(** [EngagementParticipantModel] *)
Record ParticipantRow := mkParticipantRow {
  ptr_id : uuid; ptr_engagement_id : uuid; ptr_tenant_id : TenantId; ptr_operator_id : string;
  ptr_role : string; ptr_added_at : datetime; ptr_removed_at : option datetime }.

(** [RulesOfEngagementModel]; nothing reads the row's own id. *)
Record RoeRow := mkRoeRow {
  rr_engagement_id : uuid; rr_tenant_id : TenantId; rr_version : Z; rr_constraints_json : Json;
  rr_signed_by : option string; rr_signature : option string; rr_signed_at : option datetime }.

(** [TargetScopeEntryModel]; nothing reads the row's own id. *)
Record ScopeRow := mkScopeRow {
  sr_engagement_id : uuid; sr_tenant_id : TenantId; sr_asset_id : uuid; sr_display_name : option string }.

(** [TargetAuthorizationModel] *)
Record AuthRow := mkAuthRow {
  ar_id : uuid; ar_tenant_id : TenantId; ar_engagement_id : uuid; ar_asset_id : uuid;
  ar_display_name : option string; ar_techniques_json : Json; ar_constraints_json : Json;
  ar_granted_by : string; ar_valid_until : datetime; ar_state : string; ar_phase_id : option uuid;
  ar_destruct_approval_granted : bool; ar_created_at : datetime; ar_updated_at : datetime;
  ar_row_version : Z }.
#[export] Instance AuthRow_settable : Settable AuthRow := fun r =>
  mkAuthRow (ar_id r) (ar_tenant_id r) (ar_engagement_id r) (ar_asset_id r) (ar_display_name r)
    (ar_techniques_json r) (ar_constraints_json r) (ar_granted_by r) (ar_valid_until r) (ar_state r)
    (ar_phase_id r) (ar_destruct_approval_granted r) (ar_created_at r) (ar_updated_at r) (ar_row_version r).

Record EgDb := mkEgDb {
  eb_engagements : list EngagementRow; eb_phases : list PhaseRow; eb_approvals : list ApprovalRow;
  eb_participants : list ParticipantRow; eb_roe : list RoeRow; eb_scope : list ScopeRow;
  eb_auths : list AuthRow }.
#[export] Instance EgDb_settable : Settable EgDb := fun d =>
  mkEgDb (eb_engagements d) (eb_phases d) (eb_approvals d) (eb_participants d) (eb_roe d) (eb_scope d) (eb_auths d).

Definition empty_eg_db : EgDb := mkEgDb [] [] [] [] [] [] [].

(** ** Row mappings *)

(** The columns of an engagement, with the creation time of its row. *)
Definition engagement_to_row (g : Engagement) (created : datetime) : EngagementRow :=
  mkEngagementRow (engagement_id g) (tenant_id g) (name g) (EngagementClassification.value (classification g))
    (owner_id g) (EngagementState.value (state g)) (KillSwitchState.value (kill_switch_state g))
    (engagement_version g) (scope_hash g) (_policy_to_json (approval_policy g)) (_window_to_json (window g))
    (_objectives_to_json (objectives g)) (_pending_to_json (pending_scope_expansion g)) created (updated_at g)
    (version g).

Definition phase_to_row (g : uuid) (t : TenantId) (p : EngagementPhase) : PhaseRow :=
  mkPhaseRow (phase_id p) g t (phase_name p) (phase_description p) (sort_order p).
Definition approval_to_row (g : uuid) (t : TenantId) (a : EngagementApproval) : ApprovalRow :=
  mkApprovalRow (approval_id a) g t (approver_id (record a)) (ap_timestamp (record a)) (ap_signature (record a))
    (approval_scope (record a)) (revoked a) (revoked_at a) (revoked_by a).
Definition participant_to_row (g : uuid) (t : TenantId) (p : EngagementParticipant) : ParticipantRow :=
  mkParticipantRow (participant_id p) g t (operator_id p) (role p) (added_at p) (removed_at p).
Definition roe_to_row (g : uuid) (t : TenantId) (r : RulesOfEngagement) : RoeRow :=
  mkRoeRow g t (roe_version r) (roe_constraints_to_json (constraints r)) (signed_by r) (signature r) (signed_at r).
Definition scope_to_row (g : uuid) (t : TenantId) (x : TargetRef) : ScopeRow :=
  mkScopeRow g t (asset_id x) (display_name x).

Definition phase_from_row (r : PhaseRow) : option EngagementPhase :=
  id ← non_nil (pr_id r);
  Some (mkPhase id (pr_name r) (pr_description r) (pr_sort_order r)).
Definition approval_from_row (r : ApprovalRow) : option EngagementApproval :=
  id ← non_nil (apr_id r);
  Some (mkApproval id (mkApprovalRecord (apr_approver_id r) (apr_timestamp r) (apr_signature r)
    (apr_approval_scope r)) (apr_revoked r) (apr_revoked_at r) (apr_revoked_by r)).
Definition participant_from_row (r : ParticipantRow) : option EngagementParticipant :=
  id ← non_nil (ptr_id r);
  Some (mkParticipant id (ptr_operator_id r) (ptr_role r) (ptr_added_at r) (ptr_removed_at r)).
Definition roe_from_row (r : RoeRow) : option RulesOfEngagement :=
  c ← roe_constraints_from_json (rr_constraints_json r);
  Some (mkRoe (rr_version r) c (rr_signed_by r) (rr_signature r) (rr_signed_at r)).
Definition scope_from_row (r : ScopeRow) : TargetRef := mkTargetRef (sr_asset_id r) (sr_display_name r).

Definition auth_to_row (a : TargetAuthorization) : AuthRow :=
  mkAuthRow (authorization_id a) (ta_tenant_id a) (ta_engagement_id a) (asset_id (target_ref a))
    (display_name (target_ref a)) (_techniques_to_json (techniques a)) (_constraints_to_json (ta_constraints a))
    (granted_by a) (valid_until a) (AuthorizationState.value (ta_state a)) (ta_phase_id a)
    (destruct_approval_granted a) (ta_created_at a) (ta_updated_at a) (ta_version a).

(** [_to_domain] of an authorization. *)
Definition auth_from_row (r : AuthRow) : option TargetAuthorization :=
  id ← non_nil (ar_id r);
  en ← non_nil (ar_engagement_id r);
  ts ← _techniques_from_json (ar_techniques_json r);
  c ← _constraints_from_json (ar_constraints_json r);
  st ← of_text AuthorizationState.value all_authorization_states (ar_state r);
  ph ← match ar_phase_id r with Some u => Some <$> non_nil u | None => Some None end;
  Some (mkAuthorization id (ar_tenant_id r) en (mkTargetRef (ar_asset_id r) (ar_display_name r)) ts c
          (ar_granted_by r) (ar_valid_until r) st ph (ar_destruct_approval_granted r) (ar_created_at r)
          (ar_updated_at r) (ar_row_version r) []).

(** [sorted(rows, key=version)[-1]], if there is a row. *)
Definition by_version (a b : RoeRow) : Prop := rr_version a <= rr_version b.
#[export] Instance by_version_dec : RelDecision by_version.
Proof. intros a b. unfold by_version. apply _. Defined.
Definition latest_roe (rows : list RoeRow) : option RoeRow := last (merge_sort by_version rows).

(** ** PgEngagementRepository *)

Section Store.
Context `{!RowOrder}.

(** [_to_domain] *)
Definition _to_domain (db : EgDb) (row : EngagementRow) : option Engagement :=
  let id := er_id row in
  roe ← match latest_roe (child_rows rr_engagement_id id (eb_roe db)) with
        | Some r => Some <$> roe_from_row r
        | None => Some None
        end;
  eid ← non_nil id;
  cl ← of_text EngagementClassification.value all_classifications (er_classification row);
  st ← of_text EngagementState.value all_engagement_states (er_state row);
  policy ← _policy_from_json (er_approval_policy_json row);
  win ← _window_from_json (er_window_json row);
  obj ← _objectives_from_json (er_objectives_json row);
  aps ← mapM approval_from_row (child_rows apr_engagement_id id (eb_approvals db));
  pts ← mapM participant_from_row (child_rows ptr_engagement_id id (eb_participants db));
  phs ← mapM phase_from_row (child_rows pr_engagement_id id (eb_phases db));
  kill ← of_text KillSwitchState.value all_kill_states (er_kill_switch_state row);
  hash ← match er_scope_hash row with
         | Some s => if empty_str s then Some None else Some <$> ScopeHash_new s
         | None => Some None
         end;
  pending ← _pending_from_json (er_pending_scope_expansion_json row);
  Some (mkEngagement eid (er_tenant_id row) (er_name row) cl (er_owner_id row) st policy win obj
          (mkScope (map scope_from_row (child_rows sr_engagement_id id (eb_scope db)))) roe aps pts phs kill hash
          (er_engagement_version row) pending (er_created_at row) (er_updated_at row) (er_row_version row) []).

Definition is_row (id : uuid) (t : TenantId) (r : EngagementRow) : bool :=
  bool_decide (er_id r = id) && bool_decide (er_tenant_id r = t).

Definition find_row (db : EgDb) (id : uuid) (t : TenantId) : option EngagementRow :=
  find (is_row id t) (eb_engagements db).

(** The unique constraints the children of an engagement can violate: primary
    keys, and one row per participant and joining time and per target. *)
Definition children_unique (g : Engagement) (phases : list PhaseRow) (approvals : list ApprovalRow)
    (participants : list ParticipantRow) : bool :=
  bool_decide (NoDup (map pr_id phases)) && bool_decide (NoDup (map apr_id approvals)) &&
  bool_decide (NoDup (map ptr_id participants)) &&
  bool_decide (NoDup (map (fun p => (operator_id p, added_at p)) (EngagementAggregate.participants g))) &&
  bool_decide (NoDup (asset_ids (scope g))).

(** [_sync_children]: the rows of the engagement are deleted and written
    again. *)
Definition _sync_children (g : Engagement) (db : EgDb) : result StoreError EgDb :=
  let id := engagement_id g in
  let t := tenant_id g in
  let phs := replace_rows pr_engagement_id id (map (phase_to_row id t) (phases g)) (eb_phases db) in
  let aps := replace_rows apr_engagement_id id (map (approval_to_row id t) (approvals g)) (eb_approvals db) in
  let pts := replace_rows ptr_engagement_id id (map (participant_to_row id t) (participants g))
               (eb_participants db) in
  if children_unique g phs aps pts
  then Ok (mkEgDb (eb_engagements db) phs aps pts
             (replace_rows rr_engagement_id id
                (match roe g with Some r => [roe_to_row id t r] | None => [] end) (eb_roe db))
             (replace_rows sr_engagement_id id (map (scope_to_row id t) (targets (scope g))) (eb_scope db))
             (eb_auths db))
  else Err IntegrityError.

(** [save] *)
Definition save_engagement (g : Engagement) (db : EgDb) : result StoreError EgDb :=
  match find_row db (engagement_id g) (tenant_id g) with
  | None =>
      if bool_decide (engagement_id g ∈ map er_id (eb_engagements db)) then Err IntegrityError
      else _sync_children g (db <| eb_engagements ::= fun l => l ++ [engagement_to_row g (created_at g)] |>)
  | Some row =>
      if er_row_version row =? expected_version (version g)
      then _sync_children g (db <| eb_engagements ::= map (fun r =>
             if is_row (engagement_id g) (tenant_id g) r then engagement_to_row g (er_created_at r) else r) |>)
      else Err (OptimisticLockConflict (engagement_id g) (expected_version (version g)) (er_row_version row))
  end.

(** [find_by_id] *)
Definition find_by_id (id : uuid) (t : TenantId) (db : EgDb) : result StoreError (option Engagement) :=
  match find_row db id t with
  | None => Ok None
  | Some row => decoded (Some <$> _to_domain db row)
  end.

(** [find_by_state] *)
Definition find_by_state (st : EngagementState.t) (t : TenantId) (db : EgDb) : result StoreError (list Engagement) :=
  decoded (mapM (_to_domain db) (select_order (filter (fun r => er_tenant_id r = t ∧
    er_state r = EngagementState.value st) (eb_engagements db)))).

(** [find_active_by_tenant] *)
Definition find_active_by_tenant (t : TenantId) : EgDb → result StoreError (list Engagement) :=
  find_by_state EngagementState.ACTIVE t.

(** ** PgTargetAuthorizationRepository *)

Definition is_auth_row (id : uuid) (t : TenantId) (r : AuthRow) : bool :=
  bool_decide (ar_id r = id) && bool_decide (ar_tenant_id r = t).

Definition find_auth_row (db : EgDb) (id : uuid) (t : TenantId) : option AuthRow :=
  find (is_auth_row id t) (eb_auths db).

(** What an update writes; the other columns keep what the grant wrote. *)
Definition updated_auth_row (a : TargetAuthorization) (r : AuthRow) : AuthRow :=
  r <| ar_techniques_json := _techniques_to_json (techniques a) |>
    <| ar_constraints_json := _constraints_to_json (ta_constraints a) |>
    <| ar_state := AuthorizationState.value (ta_state a) |>
    <| ar_destruct_approval_granted := destruct_approval_granted a |>
    <| ar_updated_at := ta_updated_at a |> <| ar_row_version := ta_version a |>.

(** [save] *)
Definition save_authorization (a : TargetAuthorization) (db : EgDb) : result StoreError EgDb :=
  match find_auth_row db (authorization_id a) (ta_tenant_id a) with
  | None =>
      if bool_decide (authorization_id a ∈ map ar_id (eb_auths db)) then Err IntegrityError
      else Ok (db <| eb_auths ::= fun l => l ++ [auth_to_row a] |>)
  | Some row =>
      if ar_row_version row =? expected_version (ta_version a)
      then Ok (db <| eb_auths ::= map (fun r =>
             if is_auth_row (authorization_id a) (ta_tenant_id a) r then updated_auth_row a r else r) |>)
      else Err (OptimisticLockConflict (authorization_id a) (expected_version (ta_version a)) (ar_row_version row))
  end.

(** [find_by_id] *)
Definition find_authorization (id : uuid) (t : TenantId) (db : EgDb) : result StoreError (option TargetAuthorization) :=
  match find_auth_row db id t with
  | None => Ok None
  | Some row => decoded (Some <$> auth_from_row row)
  end.

(** [find_active_for_target]: [scalar_one_or_none] raises on a second row. *)
Definition find_active_for_target (target : TargetRef) (engagement : uuid) (t : TenantId) (db : EgDb)
    : result StoreError (option TargetAuthorization) :=
  match filter (fun r => ar_tenant_id r = t ∧ ar_engagement_id r = engagement ∧ ar_asset_id r = asset_id target ∧
                         ar_state r = AuthorizationState.value AuthorizationState.ACTIVE) (eb_auths db) with
  | [] => Ok None
  | [row] => decoded (Some <$> auth_from_row row)
  | _ :: _ :: _ => Err MultipleResultsFound
  end.

(** [find_by_engagement] *)
Definition find_by_engagement (engagement : uuid) (t : TenantId) (db : EgDb)
    : result StoreError (list TargetAuthorization) :=
  decoded (mapM auth_from_row (select_order (filter (fun r => ar_tenant_id r = t ∧
    ar_engagement_id r = engagement) (eb_auths db)))).
End Store.

(** ** What the constructors accept *)

Record ok_engagement (g : Engagement) : Prop := {
  oe_id : engagement_id g ≠ 0;
  oe_policy : ApprovalPolicy_new (required_approver_count (approval_policy g))
                (required_approver_roles (approval_policy g)) (quorum_type (approval_policy g)) =
              Some (approval_policy g);
  oe_window : ∀ w, window g = Some w → datetime_ok (authorized_start w) ∧ datetime_ok (authorized_end w) ∧
                EngagementWindow_new (authorized_start w) (authorized_end w) (operational_hours w) = Some w;
  oe_objectives : ∀ o, objectives g = Some o →
                EngagementObjectives_new (summary o) (success_criteria o) (extras o) = Some o;
  oe_approvals : ∀ a, a ∈ approvals g → approval_id a ≠ 0;
  oe_participants : ∀ p, p ∈ participants g → participant_id p ≠ 0;
  oe_phases : ∀ p, p ∈ phases g → phase_id p ≠ 0;
  oe_hash : ∀ s, scope_hash g = Some s → ScopeHash_new s = Some s;
  oe_targets : ∀ t, t ∈ targets (scope g) → target_ok t;
  oe_pending : ∀ t, t ∈ pending_scope_expansion g → target_ok t
}.

Record ok_authorization (a : TargetAuthorization) : Prop := {
  oa_id : authorization_id a ≠ 0;
  oa_engagement : ta_engagement_id a ≠ 0;
  oa_phase : ta_phase_id a ≠ Some 0;
  oa_constraints : AuthorizationConstraints_new (max_execution_count (ta_constraints a))
    (allowed_hours (ta_constraints a)) (impact_ceiling (ta_constraints a)) = Some (ta_constraints a)
}.

(** The same engagement as far as the tables tell: its parts in any order, and
    no pending events. *)
Record same_engagement (a b : Engagement) : Prop := {
  se_fields : (engagement_id a, tenant_id a, name a, classification a, owner_id a, state a, approval_policy a,
               (window a, objectives a, roe a, kill_switch_state a, scope_hash a, engagement_version a,
                (pending_scope_expansion a, created_at a, updated_at a, version a))) =
              (engagement_id b, tenant_id b, name b, classification b, owner_id b, state b, approval_policy b,
               (window b, objectives b, roe b, kill_switch_state b, scope_hash b, engagement_version b,
                (pending_scope_expansion b, created_at b, updated_at b, version b)));
  se_targets : targets (scope a) ≡ₚ targets (scope b);
  se_approvals : approvals a ≡ₚ approvals b;
  se_participants : participants a ≡ₚ participants b;
  se_phases : phases a ≡ₚ phases b
}.

#[export] Instance same_engagement_equivalence : Equivalence same_engagement.
Proof.
  split.
  - intros g. by split.
  - intros a b [Hf H1 H2 H3 H4]. by split.
  - intros a b c [Hf H1 H2 H3 H4] [Hf' H1' H2' H3' H4'].
    split; [by rewrite Hf|by rewrite H1|by rewrite H2|by rewrite H3|by rewrite H4].
Qed.

(** The primary keys. *)
Record eg_keys (db : EgDb) : Prop := {
  ek_engagements : NoDup (map er_id (eb_engagements db));
  ek_auths : NoDup (map ar_id (eb_auths db))
}.

(** The rows of an engagement. *)
Record holds (db : EgDb) (g : Engagement) : Prop := {
  hg_row : engagement_to_row g (created_at g) ∈ eb_engagements db;
  hg_phases : has_rows pr_engagement_id (engagement_id g) (eb_phases db)
                (map (phase_to_row (engagement_id g) (tenant_id g)) (phases g));
  hg_approvals : has_rows apr_engagement_id (engagement_id g) (eb_approvals db)
                (map (approval_to_row (engagement_id g) (tenant_id g)) (approvals g));
  hg_participants : has_rows ptr_engagement_id (engagement_id g) (eb_participants db)
                (map (participant_to_row (engagement_id g) (tenant_id g)) (participants g));
  hg_roe : has_rows rr_engagement_id (engagement_id g) (eb_roe db)
                (match roe g with Some r => [roe_to_row (engagement_id g) (tenant_id g) r] | None => [] end);
  hg_scope : has_rows sr_engagement_id (engagement_id g) (eb_scope db)
                (map (scope_to_row (engagement_id g) (tenant_id g)) (targets (scope g)));
  hg_unique : NoDup (asset_ids (scope g))
}.

(** ** Lemmas *)

(** *** Codecs *)

Lemma of_text_engagement_state x : of_text EngagementState.value all_engagement_states (EngagementState.value x) = Some x.
Proof. by destruct x; vm_compute. Qed.
Lemma of_text_classification x :
  of_text EngagementClassification.value all_classifications (EngagementClassification.value x) = Some x.
Proof. by destruct x; vm_compute. Qed.
Lemma of_text_kill x : of_text KillSwitchState.value all_kill_states (KillSwitchState.value x) = Some x.
Proof. by destruct x; vm_compute. Qed.
Lemma of_text_quorum x : of_text QuorumType.value all_quorums (QuorumType.value x) = Some x.
Proof. by destruct x; vm_compute. Qed.
Lemma of_text_authorization_state x :
  of_text AuthorizationState.value all_authorization_states (AuthorizationState.value x) = Some x.
Proof. by destruct x; vm_compute. Qed.
Lemma of_text_ceiling x : of_text ImpactCeiling.value all_ceilings (ImpactCeiling.value x) = Some x.
Proof. by destruct x; vm_compute. Qed.

Lemma policy_round p : ApprovalPolicy_new (required_approver_count p) (required_approver_roles p) (quorum_type p) = Some p →
  _policy_from_json (_policy_to_json p) = Some p.
Proof.
  intros Hp. unfold _policy_from_json, _policy_to_json. json_fields.
  rewrite strs_round. simpl. rewrite of_text_quorum. simpl. exact Hp.
Qed.

Lemma window_round w : (∀ x, w = Some x → datetime_ok (authorized_start x) ∧ datetime_ok (authorized_end x) ∧
    EngagementWindow_new (authorized_start x) (authorized_end x) (operational_hours x) = Some x) →
  _window_from_json (_window_to_json w) = Some w.
Proof.
  destruct w as [x|]; [|done]. intros Hx. destruct (Hx x eq_refl) as (Hs & He & Hnew).
  unfold _window_from_json, _window_to_json. json_fields. rewrite isoformat_round by done. cbn [mbind option_bind].
  rewrite isoformat_round by done. cbn [mbind option_bind]. rewrite dict_round. cbn [mbind option_bind].
  by rewrite Hnew.
Qed.

Lemma objectives_round o : (∀ x, o = Some x →
    EngagementObjectives_new (summary x) (success_criteria x) (extras x) = Some x) →
  _objectives_from_json (_objectives_to_json o) = Some o.
Proof.
  destruct o as [x|]; [|done]. intros Hx. specialize (Hx x eq_refl).
  unfold _objectives_from_json, _objectives_to_json. json_fields. rewrite strs_round. cbn [mbind option_bind].
  rewrite dict_round. cbn [mbind option_bind]. by rewrite Hx.
Qed.

Lemma pending_item_round t : target_ok t → pending_of_item (pending_item t) = Some t.
Proof.
  intros Ht. unfold pending_of_item, pending_item. json_fields. rewrite uuid_round by done.
  cbn [mbind option_bind]. rewrite opt_str_round. by destruct t.
Qed.

Lemma pending_round ts : (∀ t, t ∈ ts → target_ok t) → _pending_from_json (_pending_to_json ts) = Some ts.
Proof.
  intros Hts. destruct ts as [|t ts]; [done|]. unfold _pending_from_json, _pending_to_json.
  cbn [py_truthy length map negb]. rewrite bool_decide_eq_false_2 by done. cbn [negb].
  apply mapM_Some_2. change (pending_item t :: map pending_item ts) with (map pending_item (t :: ts)).
  induction (t :: ts) as [|x l IH]; constructor.
  - apply pending_item_round, Hts. left.
  - apply IH. intros y Hy. apply Hts. by right.
Qed.

Lemma roe_round g t r : roe_from_row (roe_to_row g t r) = Some r.
Proof.
  unfold roe_from_row, roe_to_row, roe_constraints_from_json, roe_constraints_to_json. cbn [rr_constraints_json].
  json_fields. rewrite !strs_round. cbn [mbind option_bind]. rewrite dict_round. by destruct r as [? []].
Qed.

Lemma technique_round x : technique_of_item (technique_item x) = Some x.
Proof.
  unfold technique_of_item, technique_item. json_fields. rewrite opt_str_round. by destruct x.
Qed.

Lemma techniques_round ts : _techniques_from_json (_techniques_to_json ts) = Some ts.
Proof.
  unfold _techniques_from_json, _techniques_to_json. apply mapM_Some_2.
  induction ts as [|x ts IH]; constructor; [apply technique_round|done].
Qed.

Lemma constraints_round c : AuthorizationConstraints_new (max_execution_count c) (allowed_hours c) (impact_ceiling c) =
    Some c → _constraints_from_json (_constraints_to_json c) = Some c.
Proof.
  intros Hc. unfold _constraints_from_json, _constraints_to_json. json_fields. rewrite dict_round.
  cbn [mbind option_bind]. rewrite of_text_ceiling. exact Hc.
Qed.

(** A digest is a [ScopeHash]. *)
Lemma int16_app acc s s' : int16 acc (s +:+ s') = a ← int16 acc s; int16 a s'.
Proof.
  revert acc. induction s as [|c s IH]; intros acc; [done|]. rewrite append_cons. simpl.
  destruct (hex_value c); [apply IH|done].
Qed.

Lemma digest_is_scope_hash s : ScopeHash_new (sha256_hex s) = Some (sha256_hex s).
Proof.
  unfold ScopeHash_new. rewrite bool_decide_eq_true_2 by apply sha256_hex_length.
  assert (is_Some (int16 0 (sha256_hex s))) as [n ->]; [|done].
  unfold sha256_hex, hexdigest. repeat (rewrite int16_app, int16_hex; cbn [mbind option_bind]).
  rewrite int16_hex. by eexists.
Qed.

Lemma phase_round g t p : phase_id p ≠ 0 → phase_from_row (phase_to_row g t p) = Some p.
Proof. intros Hp. unfold phase_from_row. simpl. rewrite non_nil_ok by done. by destruct p. Qed.
Lemma approval_round g t a : approval_id a ≠ 0 → approval_from_row (approval_to_row g t a) = Some a.
Proof. intros Hp. unfold approval_from_row. simpl. rewrite non_nil_ok by done. by destruct a as [? []]. Qed.
Lemma participant_round g t p : participant_id p ≠ 0 → participant_from_row (participant_to_row g t p) = Some p.
Proof. intros Hp. unfold participant_from_row. simpl. rewrite non_nil_ok by done. by destruct p. Qed.

Lemma auth_round a : ok_authorization a → auth_from_row (auth_to_row a) = Some (a <| ta_pending_events := [] |>).
Proof.
  intros [Hid Hen Hph Hc]. unfold auth_from_row, auth_to_row. cbn [ar_id ar_engagement_id ar_techniques_json
    ar_constraints_json ar_state ar_phase_id]. rewrite !non_nil_ok by done. cbn [mbind option_bind].
  rewrite techniques_round. cbn [mbind option_bind]. rewrite constraints_round by done. cbn [mbind option_bind].
  rewrite of_text_authorization_state. cbn [mbind option_bind].
  assert (match ta_phase_id a with Some u => Some <$> non_nil u | None => Some None end = Some (ta_phase_id a)) as ->.
  { destruct (ta_phase_id a) as [u|]; [|done]. rewrite non_nil_ok; [done|by intros ->]. }
  by destruct a as [? ? ? []].
Qed.

(** *** Tables *)

Section StoreLemmas.
Context `{!RowOrder}.

Lemma eg_find_row_unique db id row : eg_keys db → row ∈ eb_engagements db → er_id row = id →
  find_row db id (er_tenant_id row) = Some row.
Proof.
  intros [Hnd _] Hin <-. unfold find_row.
  induction (eb_engagements db) as [|x l IH]; [by apply not_elem_of_nil in Hin|].
  apply NoDup_cons in Hnd as [Hx Hnd]. simpl. unfold is_row at 1.
  apply elem_of_cons in Hin as [->|Hin]; [by rewrite !bool_decide_eq_true_2|].
  rewrite bool_decide_eq_false_2; [by apply IH|]. intros Heq. apply Hx. rewrite Heq.
  by apply list_elem_of_fmap_2.
Qed.

Lemma eg_find_row_some db id t row : find_row db id t = Some row →
  row ∈ eb_engagements db ∧ er_id row = id ∧ er_tenant_id row = t.
Proof.
  unfold find_row, is_row. intros [Hin Hb]%find_some. apply list_elem_of_In in Hin. guards. done.
Qed.

Lemma find_auth_row_some db id t row : find_auth_row db id t = Some row →
  row ∈ eb_auths db ∧ ar_id row = id ∧ ar_tenant_id row = t.
Proof.
  unfold find_auth_row, is_auth_row. intros [Hin Hb]%find_some. apply list_elem_of_In in Hin. guards. done.
Qed.

Lemma latest_roe_found rows id t g (x : option RulesOfEngagement) :
  has_rows rr_engagement_id id rows (match x with Some r => [roe_to_row g t r] | None => [] end) →
  match latest_roe (child_rows rr_engagement_id id rows) with
  | Some r => Some <$> roe_from_row r
  | None => Some None
  end = Some x.
Proof.
  unfold has_rows, child_rows. intros Hp. rewrite <- (select_order_perm (filter _ rows)) in Hp.
  destruct x as [r|].
  - apply Permutation_singleton_r in Hp as ->. unfold latest_roe. simpl. by rewrite roe_round.
  - by apply Permutation_nil_r in Hp as ->.
Qed.

Lemma scope_rows_found rows id t g ts : has_rows sr_engagement_id id rows (map (scope_to_row g t) ts) →
  map scope_from_row (child_rows sr_engagement_id id rows) ≡ₚ ts.
Proof.
  unfold has_rows, child_rows. intros Hp. rewrite select_order_perm, Hp, map_map.
  replace (map (λ x, scope_from_row (scope_to_row g t x)) ts) with ts; [done|].
  rewrite <- (map_id ts) at 1. apply map_ext. by intros [].
Qed.

(** A stored engagement is found, up to the order of its rows. *)
Lemma eg_holds_find db g : eg_keys db → holds db g → ok_engagement g →
  ∃ g', find_by_id (engagement_id g) (tenant_id g) db = Ok (Some g') ∧ same_engagement g' g ∧ pending_events g' = [].
Proof.
  intros Hk [Hrow Hphs Haps Hpts Hroe Hsc _] [Hid Hpol Hwin Hobj Ha Hp Hph Hhash _ Hpend]. unfold find_by_id.
  pose proof (eg_find_row_unique db (engagement_id g) _ Hk Hrow eq_refl) as Hf. simpl in Hf. rewrite Hf.
  unfold _to_domain. cbn [engagement_to_row er_id er_tenant_id er_name er_classification er_owner_id er_state
    er_kill_switch_state er_engagement_version er_scope_hash er_approval_policy_json er_window_json
    er_objectives_json er_pending_scope_expansion_json er_created_at er_updated_at er_row_version].
  rewrite (latest_roe_found _ _ _ _ _ Hroe). cbn [mbind option_bind]. rewrite non_nil_ok by done.
  cbn [mbind option_bind]. rewrite of_text_classification. cbn [mbind option_bind].
  rewrite of_text_engagement_state. cbn [mbind option_bind]. rewrite policy_round by done.
  cbn [mbind option_bind]. rewrite window_round by done. cbn [mbind option_bind].
  rewrite objectives_round by done. cbn [mbind option_bind].
  destruct (has_rows_decode _ _ _ _ approval_from_row _ Haps) as (aps & -> & Hpa).
  { intros a Hin. by apply approval_round, Ha. }
  cbn [mbind option_bind].
  destruct (has_rows_decode _ _ _ _ participant_from_row _ Hpts) as (pts & -> & Hpp).
  { intros a Hin. by apply participant_round, Hp. }
  cbn [mbind option_bind].
  destruct (has_rows_decode _ _ _ _ phase_from_row _ Hphs) as (phs & -> & Hpph).
  { intros a Hin. by apply phase_round, Hph. }
  cbn [mbind option_bind]. rewrite of_text_kill. cbn [mbind option_bind].
  assert (match scope_hash g with Some s => if empty_str s then Some None else Some <$> ScopeHash_new s
          | None => Some None end = Some (scope_hash g)) as ->.
  { destruct (scope_hash g) as [s|]; [|done]. specialize (Hhash s eq_refl). rewrite Hhash. unfold empty_str.
    case_bool_decide; [by subst|done]. }
  cbn [mbind option_bind]. rewrite pending_round by done. cbn [mbind option_bind].
  eexists. split; [done|]. split; [|done]. split; try done. cbn [scope targets].
  by apply (scope_rows_found _ _ (tenant_id g) (engagement_id g)).
Qed.

Lemma eg_sync_children_spec g db db' : _sync_children g db = Ok db' →
  eb_engagements db' = eb_engagements db ∧ eb_auths db' = eb_auths db ∧
  (engagement_to_row g (created_at g) ∈ eb_engagements db → holds db' g) ∧
  ∀ g', engagement_id g' ≠ engagement_id g → holds db g' → holds db' g'.
Proof.
  unfold _sync_children. destruct (children_unique _ _ _ _) eqn:Hu; [|done]. intros [= <-]. simpl.
  unfold children_unique in Hu. guards.
  set (id := engagement_id g) in *. set (t := tenant_id g) in *.
  destruct (replace_rows_spec pr_engagement_id id (map (phase_to_row id t) (phases g)) (eb_phases db)) as [P1 P2];
    [by apply map_key|].
  destruct (replace_rows_spec apr_engagement_id id (map (approval_to_row id t) (approvals g)) (eb_approvals db))
    as [A1 A2]; [by apply map_key|].
  destruct (replace_rows_spec ptr_engagement_id id (map (participant_to_row id t) (participants g))
    (eb_participants db)) as [T1 T2]; [by apply map_key|].
  destruct (replace_rows_spec rr_engagement_id id (match roe g with Some r => [roe_to_row id t r] | None => [] end)
    (eb_roe db)) as [R1 R2]; [by destruct (roe g); [intros ? ->%list_elem_of_singleton|intros ? []%not_elem_of_nil]|].
  destruct (replace_rows_spec sr_engagement_id id (map (scope_to_row id t) (targets (scope g))) (eb_scope db))
    as [S1 S2]; [by apply map_key|].
  split_and!; [done|done| |].
  - intros Hrow. by split.
  - intros g' Hne [Hrow B1 B2 B3 B4 B5 B6]. split; simpl; auto.
Qed.

(** What a save leaves in the tables. *)
Lemma eg_save_holds g db db' : eg_keys db → save_engagement g db = Ok db' →
  (∀ row, find_row db (engagement_id g) (tenant_id g) = Some row → er_created_at row = created_at g) →
  eg_keys db' ∧ eb_auths db' = eb_auths db ∧ holds db' g ∧
  (∀ g', engagement_id g' ≠ engagement_id g → holds db g' → holds db' g') ∧
  (∀ row, row ∈ eb_engagements db' →
     row = engagement_to_row g (created_at g) ∨ row ∈ eb_engagements db ∧ er_id row ≠ engagement_id g).
Proof.
  intros Hk Hsave Hcreated.
  assert (∃ rows, _sync_children g (db <| eb_engagements := rows |>) = Ok db' ∧
    upserted er_id (engagement_id g) (engagement_to_row g (created_at g)) (eb_engagements db) rows)
    as (rows & Hsync & [Hnd Hin Hkeep Hall]).
  { unfold save_engagement in Hsave.
    destruct (find_row db (engagement_id g) (tenant_id g)) as [row|] eqn:Hf.
    - destruct (er_row_version row =? _); [|done]. specialize (Hcreated row eq_refl).
      apply eg_find_row_some in Hf as (Hin & Hid & Hten). eexists. split; [exact Hsave|].
      rewrite <- Hcreated, <- Hid. apply (updated_row er_id _ (fun r => engagement_to_row g (er_created_at r)));
        [apply Hk|done| | |done]; unfold is_row; [by rewrite Hten, !bool_decide_eq_true_2|].
      intros r Hr. by guards.
    - case_bool_decide as Hnew; [done|]. eexists. split; [exact Hsave|].
      apply (inserted_row er_id (engagement_to_row g (created_at g))); [apply Hk|done]. }
  apply eg_sync_children_spec in Hsync as (Hrows & Hauths & Hg & Hothers). simpl in *.
  split_and!; [|done|by apply Hg| |by rewrite Hrows].
  - split; [by rewrite Hrows|rewrite Hauths; apply Hk].
  - intros g' Hne [Hr H1 H2 H3 H4 H5 H6]. apply Hothers; [done|]. split; simpl; auto.
Qed.

(** A stored authorization is found. *)
Lemma auth_found db a : eg_keys db → auth_to_row a ∈ eb_auths db → ok_authorization a →
  find_authorization (authorization_id a) (ta_tenant_id a) db = Ok (Some (a <| ta_pending_events := [] |>)).
Proof.
  intros [_ Hnd] Hin Hok. unfold find_authorization.
  assert (find_auth_row db (authorization_id a) (ta_tenant_id a) = Some (auth_to_row a)) as ->.
  { unfold find_auth_row. induction (eb_auths db) as [|x l IH]; [by apply not_elem_of_nil in Hin|].
    apply NoDup_cons in Hnd as [Hx Hnd]. simpl. unfold is_auth_row at 1.
    apply elem_of_cons in Hin as [<-|Hin]; [by rewrite !bool_decide_eq_true_2|].
    rewrite bool_decide_eq_false_2; [by apply IH|]. intros Heq. apply Hx. rewrite Heq.
    exact (list_elem_of_fmap_2 ar_id _ _ Hin). }
  unfold decoded. by rewrite auth_round.
Qed.

(** Saving an authorization: a new row, or the row of the stored one updated. *)
Lemma save_authorization_rows a db db' : eg_keys db → save_authorization a db = Ok db' →
  (∀ row, find_auth_row db (authorization_id a) (ta_tenant_id a) = Some row → updated_auth_row a row = auth_to_row a) →
  eg_keys db' ∧ eb_engagements db' = eb_engagements db ∧ (∀ g, holds db g → holds db' g) ∧
  upserted ar_id (authorization_id a) (auth_to_row a) (eb_auths db) (eb_auths db').
Proof.
  intros Hk Hsave Hupd.
  assert (∃ rows, db' = db <| eb_auths := rows |> ∧
    upserted ar_id (authorization_id a) (auth_to_row a) (eb_auths db) rows) as (rows & -> & Hup).
  { unfold save_authorization in Hsave.
    destruct (find_auth_row db (authorization_id a) (ta_tenant_id a)) as [row|] eqn:Hf.
    - destruct (ar_row_version row =? _); [|done]. injection Hsave as <-. specialize (Hupd row eq_refl).
      apply find_auth_row_some in Hf as (Hin & Hid & Hten). eexists. split; [done|].
      rewrite <- Hupd, <- Hid. apply (updated_row ar_id _ (updated_auth_row a)); [apply Hk|done| | |done];
        unfold is_auth_row; [by rewrite Hten, !bool_decide_eq_true_2|].
      intros r Hr. by guards.
    - case_bool_decide as Hnew; [done|]. injection Hsave as <-. eexists. split; [done|].
      apply (inserted_row ar_id (auth_to_row a)); [apply Hk|done]. }
  split_and!; [split; simpl; [apply Hk|apply Hup]|done| |done].
  intros g [Hr H1 H2 H3 H4 H5 H6]. by split.
Qed.
End StoreLemmas.

(** ** Properties *)

#[local] Existing Instance insertion_order.

(** Scope, rules and window set. *)
Definition drafted : Engagement :=
  run_calls [CDefineScope acme [mkTargetRef 21 (Some "web")] 1; CSetRoe acme web_roe 2;
             CSetWindow acme (mkWindow 0 100 []) 3] start_engagement.

Lemma drafted_ok : ok_engagement drafted.
Proof.
  split; try done.
  - intros w Hw. vm_compute in Hw. injection Hw as <-. by split_and!.
  - by intros a []%not_elem_of_nil.
  - by intros a []%not_elem_of_nil.
  - by intros a []%not_elem_of_nil.
  - change (targets (scope drafted)) with [mkTargetRef 21 (Some "web")]. by intros t ->%list_elem_of_singleton.
  - by intros t []%not_elem_of_nil.
Qed.

(** An engagement that is saved is found again: under its id and tenant the
    repository answers the same engagement, policy, window, objectives, rules,
    hash and pending expansion included, with its parts up to order and no
    pending event; every other stored engagement stays stored; and of two copies
    of one version only the first is saved, the second conflicts. *)
Theorem saved_engagement_is_found `{!RowOrder} g db db' : eg_keys db → ok_engagement g →
  (∀ row, find_row db (engagement_id g) (tenant_id g) = Some row → er_created_at row = created_at g) →
  save_engagement g db = Ok db' →
  (∃ g', find_by_id (engagement_id g) (tenant_id g) db' = Ok (Some g') ∧ same_engagement g' g ∧ pending_events g' = []) ∧
  (∀ o, engagement_id o ≠ engagement_id g → holds db o → holds db' o) ∧
  (2 ≤ version g → ∀ o, engagement_id o = engagement_id g → tenant_id o = tenant_id g → version o = version g →
     save_engagement o db' = Err (OptimisticLockConflict (engagement_id g) (version g - 1) (version g))).
Proof.
  intros Hk Hok Hcr Hsave. destruct (eg_save_holds g db db' Hk Hsave Hcr) as (Hk' & _ & Hh & Hothers & _).
  split_and!; [by apply eg_holds_find|done|]. intros Hv o Hid Ht Hver.
  unfold save_engagement. rewrite Hid, Ht.
  pose proof (eg_find_row_unique db' (engagement_id g) _ Hk' (hg_row _ _ Hh) eq_refl) as Hf. simpl in Hf. rewrite Hf.
  simpl. rewrite Hver. unfold expected_version. rewrite (proj2 (Z.ltb_ge (version g - 1) 1)) by lia.
  by rewrite (proj2 (Z.eqb_neq _ _)) by lia.
Qed.

Lemma saved_engagement_is_found_witness :
  ∃ db', save_engagement drafted empty_eg_db = Ok db' ∧
  (∃ g', find_by_id 5 acme db' = Ok (Some g') ∧ same_engagement g' drafted ∧ pending_events g' = []) ∧
  save_engagement drafted db' = Err (OptimisticLockConflict 5 3 4).
Proof.
  destruct (save_engagement drafted empty_eg_db) as [db'|e] eqn:Hsave; [|by vm_compute in Hsave].
  exists db'. split; [done|].
  destruct (saved_engagement_is_found drafted empty_eg_db db') as (Hf & _ & Hstale);
    [by split; constructor|apply drafted_ok|done|exact Hsave|].
  split; [exact Hf|]. by apply (Hstale ltac:(by_compute) drafted).
Defined.
