(* ===== verification/EngagementPorts.v ===== *)
(** The ports of the engagement application service and the adapters of
    [infrastructure/acl/degraded_adapters.py] that implement them: the asset
    inventory and digital signatures by HMAC-SHA256. *)
From stdpp Require Import base tactics list strings.
From Stdlib Require Import ZArith Lia.
From S2P Require Import Prelude PyTypes Sha256 EngagementData.

Local Open Scope Z_scope.

(** ** IAssetQueryPort *)

(** Resolving an asset answers its reference, nothing when it is not known to
    the tenant, or raises. *)
Class AssetQueryPort := {
  resolve_target_ref : uuid → TenantId → result unit (option TargetRef);
  resolve_same_asset asset t r : resolve_target_ref asset t = Ok (Some r) → asset_id r = asset
}.

(** [DegradedAssetQueryAdapter]: a bare reference. *)
Definition degraded_resolve (asset : uuid) (t : TenantId) : result unit (option TargetRef) :=
  Ok (Some (mkTargetRef asset None)).

Definition DegradedAssetQueryAdapter : AssetQueryPort.
Proof. refine {| resolve_target_ref := degraded_resolve |}. by intros asset t r [= <-]. Defined.

(** ** IDigitalSignaturePort *)

(** A signature verifies for the payload it was made for. *)
Class DigitalSignaturePort := {
  sign : string → string;
  verify : string → string → string → bool;
  verify_signed payload identity : verify payload (sign payload) identity = true
}.

(** [hmac.new(key, message, hashlib.sha256)] on bytes: a long key is hashed, a
    short one padded to the block of 64 bytes. *)
Definition word_bytes (w : Z) : list Z :=
  [Z.land (Z.shiftr w 24) 255; Z.land (Z.shiftr w 16) 255; Z.land (Z.shiftr w 8) 255; Z.land w 255].

Definition digest_bytes (h : HashState) : list Z :=
  concat (map word_bytes [ha h; hb h; hc h; hd h; he h; hf h; hg h; hh h]).

Definition hmac_key (key : list Z) : list Z :=
  let k := if bool_decide (64 < length key)%nat then digest_bytes (sha256 key) else key in
  k ++ repeat 0 (64 - length k).

Definition hmac_sha256 (key message : list Z) : HashState :=
  let k := hmac_key key in
  sha256 (map (Z.lxor 0x5c) k ++ digest_bytes (sha256 (map (Z.lxor 0x36) k ++ message))).

(** [HmacDigitalSignatureAdapter.sign] *)
Definition hmac_sign (secret : list Z) (payload : string) : string :=
  hexdigest (hmac_sha256 secret (utf8 payload)).

(** [HmacDigitalSignatureAdapter.verify]; the identity is not looked at. *)
Definition hmac_verify (secret : list Z) (payload signature identity : string) : bool :=
  bool_decide (hmac_sign secret payload = signature).

(** [HmacDigitalSignatureAdapter] with a secret of type [bytes]. *)
Definition HmacDigitalSignatureAdapter (secret : list Z) : DigitalSignaturePort.
Proof.
  refine {| sign := hmac_sign secret; verify := hmac_verify secret |}.
  intros payload identity. unfold hmac_verify. by apply bool_decide_eq_true_2.
Defined.

(** Test cases 2 and 6 of RFC 4231: a short key and one longer than the
    block. *)
Example hmac_vectors :
  hmac_sign (utf8 "Jefe") "what do ya want for nothing?" =
    "5bdcc146bf60754e6a042426089575c75a003f089d2739839dec58b964ec3843" ∧
  hmac_sign (repeat 0xaa 131) "Test Using Larger Than Block-Size Key - Hash Key First" =
    "60e431591ee0b67f0d8a26aacbf5b77f8e0bc6213728c5140546040f0ee37f54".
Proof. vm_compute. done. Qed.
