(* ===== verification/EngagementApp.v ===== *)
(** [engagement.EngagementApplicationService]: every command validates its
    input, loads the aggregate in a unit of work, calls it, saves, commits, and
    publishes afterwards; and what this keeps true of the tables. *)
From stdpp Require Import base tactics list strings relations.
From Stdlib Require Import ZArith Lia.
From S2P Require Import Prelude PyTypes PyParse Sha256 PyJson PyStore EngagementData EngagementAggregate ScopeHash TargetAuth EngagementStore EngagementPorts.

Local Open Scope Z_scope.

(** ** The world of the service *)

(** [ValueErr] is a [ValueError] of a value object, which no command catches. *)
Inductive EgError :=
  | ApplicationValidationError (field reason : string)
  | ApplicationNotFoundError (resource : string) (id : uuid)
  | ValueErr
  | Domain (e : EngagementException)
  | Store (e : StoreError)
  | AssetPortFailure.

Inductive Published :=
  | OfEngagement (e : DomainEvent EngagementEvent)
  | OfAuthorization (e : DomainEvent AuthorizationEvent).

Record World := mkWorld { w_db : EgDb; w_published : list Published }.
#[export] Instance World_settable : Settable World := fun w => mkWorld (w_db w) (w_published w).

Definition empty_world : World := mkWorld empty_eg_db [].

Abbreviation App := (PyM World EgError).
Abbreviation Tx := (PyM (Session EgDb) EgError).

(** [async with self._uow_factory() as uow: body] *)
Definition in_uow {A} (body : Tx A) : App A := fun w =>
  let '(r, s) := body (mkSession (w_db w) (w_db w)) in (r, w <| w_db := s_durable s |>).

(** [_publish_all]: a failing publisher is logged and ignored; the events
    handed to it are recorded. *)
Definition _publish_all (events : list Published) : App unit :=
  modify (fun w => w <| w_published ::= fun l => l ++ events |>).

Definition engagement_events (g : Engagement) : list Published := map OfEngagement (pending_events g).
Definition authorization_events (a : TargetAuthorization) : list Published := map OfAuthorization (ta_pending_events a).

(** ** Validation *)

(** [validate_uuid] *)
Definition validate_uuid {S} (u : uuid) (field : string) : PyM S EgError unit :=
  raise_if (u =? 0) (ApplicationValidationError field "must be a valid non-nil UUID").

(** [_as_uuid] of a [UUID]. *)
Definition _as_uuid {S} (field : string) (u : uuid) : PyM S EgError uuid := validate_uuid u field;; mret u.

(** [validate_str] with [allow_empty=False]: the length is that of the text
    before it is stripped. *)
Definition validate_str {S} (value field : string) (max_len : nat) : PyM S EgError unit :=
  raise_if (bool_decide (String.length value = 0%nat)) (ApplicationValidationError field "must not be empty");;
  raise_if (bool_decide (max_len < String.length value)%nat)
    (ApplicationValidationError field ("must be at most " +:+ str_int (Z.of_nat max_len) +:+ " characters")).

Definition _as_str {S} (field value : string) (max_len : nat) : PyM S EgError string :=
  validate_str value field max_len;; mret (strip value).

(** A constructor that may raise [ValueError]. *)
Definition construct {S A} (x : option A) : PyM S EgError A :=
  match x with Some a => mret a | None => raise ValueErr end.

(** [Enum(text)], with the [ValueError] turned into a validation error. *)
Definition parse_enum {S A} (field : string) (text : A → string) (all : list A) (s : string) : PyM S EgError A :=
  match of_text text all s with
  | Some x => mret x
  | None => raise (ApplicationValidationError field ("invalid: " +:+ s))
  end.

(** [if not signature: signature = other] *)
Definition signature_or (s : option string) (other : string) : string :=
  match s with Some x => if empty_str x then other else x | None => other end.

(** ** Data transfer objects *)

Record ApprovalDTO := mkApprovalDTO {
  apd_approval_id : uuid; apd_approver_id : string; apd_timestamp : datetime; apd_signature : string;
  apd_approval_scope : string; apd_revoked : bool }.

Record EngagementDTO := mkEngagementDTO {
  ed_engagement_id : uuid; ed_tenant_id : TenantId; ed_name : string; ed_classification : string;
  ed_owner_id : string; ed_state : string; ed_kill_switch_state : string; ed_engagement_version : Z;
  ed_scope_hash : option string; ed_row_version : Z; ed_created_at : datetime; ed_updated_at : datetime;
  ed_authorized_start : option datetime; ed_authorized_end : option datetime; ed_operational_hours : JsonDict;
  ed_objectives_summary : option string; ed_allowed_techniques : list string; ed_targets : list TargetRef;
  ed_approvals : list ApprovalDTO; ed_participants : list EngagementParticipant; ed_phases : list EngagementPhase;
  ed_required_approver_count : Z; ed_quorum_type : string; ed_roe_version : option Z; ed_roe_signed : bool }.

Definition approval_to_dto (a : EngagementApproval) : ApprovalDTO :=
  mkApprovalDTO (approval_id a) (approver_id (record a)) (ap_timestamp (record a)) (ap_signature (record a))
    (approval_scope (record a)) (revoked a).

(** The DTOs of targets, participants and phases have the fields of the
    entities. *)
Definition engagement_to_dto (g : Engagement) : EngagementDTO :=
  mkEngagementDTO (engagement_id g) (tenant_id g) (name g) (EngagementClassification.value (classification g))
    (owner_id g) (EngagementState.value (state g)) (KillSwitchState.value (kill_switch_state g))
    (engagement_version g) (scope_hash g) (version g) (created_at g) (updated_at g)
    (authorized_start <$> window g) (authorized_end <$> window g)
    (match window g with Some w => operational_hours w | None => [] end)
    (summary <$> objectives g)
    (match roe g with Some r => allowed_techniques (constraints r) | None => [] end)
    (targets (scope g)) (map approval_to_dto (approvals g)) (participants g) (phases g)
    (required_approver_count (approval_policy g)) (QuorumType.value (quorum_type (approval_policy g)))
    (roe_version <$> roe g) (match roe g with Some r => is_signed r | None => false end).

Record TargetAuthorizationDTO := mkAuthorizationDTO {
  ad_authorization_id : uuid; ad_tenant_id : TenantId; ad_engagement_id : uuid; ad_asset_id : uuid;
  ad_display_name : option string; ad_technique_ids : list string; ad_impact_ceiling : string;
  ad_max_execution_count : Z; ad_state : string; ad_granted_by : string; ad_valid_until : datetime;
  ad_destruct_approval_granted : bool; ad_phase_id : option uuid; ad_row_version : Z;
  ad_created_at : datetime; ad_updated_at : datetime }.

(** ** Transactions *)

Section Transactions.
Context `{!RowOrder}.

(** A [frozenset] iterates in any order as well. *)
Definition authorization_to_dto (a : TargetAuthorization) : TargetAuthorizationDTO :=
  mkAuthorizationDTO (authorization_id a) (ta_tenant_id a) (ta_engagement_id a) (asset_id (target_ref a))
    (display_name (target_ref a)) (select_order (remove_dups (technique_ids (techniques a))))
    (ImpactCeiling.value (impact_ceiling (ta_constraints a))) (max_execution_count (ta_constraints a))
    (AuthorizationState.value (ta_state a)) (granted_by a) (valid_until a) (destruct_approval_granted a)
    (ta_phase_id a) (ta_version a) (ta_created_at a) (ta_updated_at a).

(** A query of a repository. *)
Definition query {A} (q : EgDb → result StoreError A) : Tx A := fun s =>
  match q (s_view s) with Ok a => (Ok a, s) | Err e => (Err (Store e), s) end.

(** A save of a repository. *)
Definition write (f : EgDb → result StoreError EgDb) : Tx unit := fun s =>
  match f (s_view s) with
  | Ok db => (Ok tt, s <| s_view := db |>)
  | Err e => (Err (Store e), s)
  end.

Definition _load_engagement (id : uuid) (t : TenantId) : Tx Engagement :=
  eid ← _as_uuid "engagement_id" id;
  found ← query (find_by_id eid t);
  match found with
  | Some g => mret g
  | None => raise (ApplicationNotFoundError "Engagement" eid)
  end.

Definition load_authorization (aid : uuid) (t : TenantId) : Tx TargetAuthorization :=
  found ← query (find_authorization aid t);
  match found with
  | Some a => mret a
  | None => raise (ApplicationNotFoundError "TargetAuthorization" aid)
  end.

(** A method of a loaded object. *)
Definition on_object {O} (m : PyM O EngagementException unit) (o : O) : Tx O :=
  match m o with
  | (Ok _, o') => mret o'
  | (Err e, _) => raise (Domain e)
  end.

(** The transaction of a command that calls one method of the engagement, with
    arguments that are evaluated after the engagement is loaded. *)
Definition update_engagement (t : TenantId) (id : uuid) (args : Tx call) : Tx Engagement :=
  g ← _load_engagement id t;
  c ← args;
  g ← on_object (run_call c) g;
  write (save_engagement g);;
  commit;;
  mret g.

Definition update_authorization (t : TenantId) (aid : uuid) (args : Tx Auth.call) : Tx TargetAuthorization :=
  a ← load_authorization aid t;
  c ← args;
  a ← on_object (Auth.run_call c) a;
  write (save_authorization a);;
  commit;;
  mret a.

(** What every command does after its unit of work. *)
Definition publish_engagement (g : Engagement) : App EngagementDTO :=
  _publish_all (engagement_events g);;
  mret (engagement_to_dto g).

Definition publish_authorization (a : TargetAuthorization) : App TargetAuthorizationDTO :=
  _publish_all (authorization_events a);;
  mret (authorization_to_dto a).

Definition engagement_command (t : TenantId) (id : uuid) (args : Tx call) : App EngagementDTO :=
  g ← in_uow (update_engagement t id args);
  publish_engagement g.

Definition authorization_command (t : TenantId) (id : uuid) (args : Tx Auth.call) : App TargetAuthorizationDTO :=
  aid ← _as_uuid "authorization_id" id;
  a ← in_uow (update_authorization t aid args);
  publish_authorization a.
End Transactions.

(** ** Commands *)

Record GrantTargetAuthorizationCommand := mkGrantCommand {
  gc_tenant_id : TenantId; gc_engagement_id : uuid; gc_asset_id : uuid; gc_technique_ids : list string;
  gc_impact_ceiling : string; gc_max_execution_count : Z; gc_valid_until : datetime; gc_granted_by : string;
  gc_destruct_approval_granted : bool; gc_phase_id : option uuid }.

(** A list comprehension whose element may raise. *)
Fixpoint for_map {S A B} (l : list A) (body : A → PyM S EgError B) : PyM S EgError (list B) :=
  match l with
  | [] => mret []
  | x :: l => b ← body x; bs ← for_map l body; mret (b :: bs)
  end.

Section Commands.
Context `{!RowOrder} `{!AssetQueryPort} `{!DigitalSignaturePort}.

(** [_resolve_targets] *)
Definition _resolve_targets {S} (assets : list uuid) (t : TenantId) : PyM S EgError (list TargetRef) :=
  for_map assets (fun asset =>
    validate_uuid asset "asset_id";;
    match resolve_target_ref asset t with
    | Ok (Some r) => mret r
    | Ok None => mret (mkTargetRef asset None)
    | Err _ => raise AssetPortFailure
    end).

Definition create_engagement (t : TenantId) (nm cl owner : string) (count : option Z) (new_id : uuid)
    (now : datetime) : App EngagementDTO :=
  nm ← _as_str "name" nm 512;
  owner ← _as_str "owner_id" owner 256;
  cl ← parse_enum "classification" EngagementClassification.value all_classifications cl;
  policy ← match count with
           | Some n =>
               raise_if (n <? 1) (ApplicationValidationError "required_approver_count" "must be >= 1");;
               p ← construct (ApprovalPolicy_new n DEFAULT_APPROVER_ROLES QuorumType.MAJORITY);
               mret (Some p)
           | None => mret None
           end;
  id ← construct (non_nil new_id);
  g ← match factory_create t nm cl owner now policy None id with
      | Ok g => mret g
      | Err e => raise (Domain e)
      end;
  in_uow (write (save_engagement g);; commit);;
  publish_engagement g.

Definition app_submit_for_approval (t : TenantId) (id : uuid) (now : datetime) : App EngagementDTO :=
  engagement_command t id (mret (CSubmit t now)).

Definition app_grant_approval (t : TenantId) (id : uuid) (approver : string) (sig : option string)
    (new_id : uuid) (now : datetime) : App EngagementDTO :=
  approver ← _as_str "approver_id" approver 256;
  let sig := signature_or sig
    (sign ("engagement:" +:+ str_uuid id +:+ ":approver:" +:+ approver +:+ ":" +:+ isoformat now)) in
  engagement_command t id (mret (CGrantApproval t approver sig now "engagement" new_id)).

Definition app_activate (t : TenantId) (id : uuid) (now : datetime) : App EngagementDTO :=
  engagement_command t id (mret (CActivate t now)).

Definition app_suspend (t : TenantId) (id : uuid) (reason authority : string) (now : datetime) : App EngagementDTO :=
  engagement_command t id (
    reason ← _as_str "reason" reason 512;
    authority ← _as_str "authority" authority 256;
    mret (CSuspend t reason authority now true)).

Definition app_resume (t : TenantId) (id : uuid) (authority : string) (now : datetime) : App EngagementDTO :=
  engagement_command t id (authority ← _as_str "authority" authority 256; mret (CResume t authority now)).

Definition app_close (t : TenantId) (id : uuid) (reason : option string) (now : datetime) : App EngagementDTO :=
  engagement_command t id (mret (CClose t now reason)).

Definition app_archive (t : TenantId) (id : uuid) (now : datetime) : App EngagementDTO :=
  engagement_command t id (mret (CArchive t now)).

Definition define_target_scope (t : TenantId) (id : uuid) (assets : list uuid) (now : datetime) : App EngagementDTO :=
  raise_if (bool_decide (assets = [])) (ApplicationValidationError "asset_ids" "must not be empty");;
  targets ← _resolve_targets assets t;
  engagement_command t id (mret (CDefineScope t targets now)).

Definition set_rules_of_engagement (t : TenantId) (id : uuid) (techniques forbidden : list string)
    (limits : option JsonDict) (contacts : list string) (now : datetime) : App EngagementDTO :=
  engagement_command t id (mret (CSetRoe t (mkRoeConstraint techniques forbidden (default [] limits) contacts) now)).

Definition sign_rules_of_engagement (t : TenantId) (id : uuid) (owner : string) (sig : option string)
    (now : datetime) : App EngagementDTO :=
  owner ← _as_str "owner_id" owner 256;
  let sig := signature_or sig
    (sign ("roe:" +:+ str_uuid id +:+ ":owner:" +:+ owner +:+ ":" +:+ isoformat now)) in
  engagement_command t id (mret (CSignRoe t owner sig now)).

Definition app_set_window (t : TenantId) (id : uuid) (start finish : datetime) (hours : option JsonDict)
    (now : datetime) : App EngagementDTO :=
  w ← construct (EngagementWindow_new start finish (default [] hours));
  engagement_command t id (mret (CSetWindow t w now)).

Definition app_add_participant (t : TenantId) (id : uuid) (operator rl : string) (new_id : uuid) (now : datetime)
    : App EngagementDTO :=
  engagement_command t id (
    operator ← _as_str "operator_id" operator 256;
    rl ← _as_str "role" rl 128;
    mret (CAddParticipant t operator rl new_id now)).

Definition app_remove_participant (t : TenantId) (id : uuid) (operator : string) (now : datetime) : App EngagementDTO :=
  engagement_command t id (operator ← _as_str "operator_id" operator 256; mret (CRemoveParticipant t operator now)).

Definition app_request_scope_expansion (t : TenantId) (id : uuid) (assets : list uuid) (now : datetime)
    : App EngagementDTO :=
  raise_if (bool_decide (assets = [])) (ApplicationValidationError "asset_ids" "must not be empty");;
  targets ← _resolve_targets assets t;
  engagement_command t id (mret (CRequestExpansion t targets now)).

Definition app_approve_scope_expansion (t : TenantId) (id : uuid) (now : datetime) : App EngagementDTO :=
  engagement_command t id (mret (CApproveExpansion t now)).

(** The transaction of a grant. *)
Definition grant_tx (cmd : GrantTargetAuthorizationCommand) (target : TargetRef)
    (techniques : list AttackTechniqueRef) (c : AuthorizationConstraints) (phase : option uuid)
    (new_id : uuid) (now : datetime) : Tx TargetAuthorization :=
  g ← _load_engagement (gc_engagement_id cmd) (gc_tenant_id cmd);
  raise_if (negb (scope_contains (scope g) (gc_asset_id cmd)))
    (ApplicationValidationError "asset_id" "target not in engagement scope");;
  id ← construct (non_nil new_id);
  by_ ← _as_str "granted_by" (gc_granted_by cmd) 256;
  a ← match Auth.grant id (gc_tenant_id cmd) (engagement_id g) target techniques c by_ (gc_valid_until cmd) now
              (allowed_technique_ids g) (gc_destruct_approval_granted cmd) phase with
      | Ok a => mret a
      | Err e => raise (Domain e)
      end;
  write (save_authorization a);;
  commit;;
  mret a.

Definition grant_target_authorization (cmd : GrantTargetAuthorizationCommand) (new_id : uuid) (now : datetime)
    : App TargetAuthorizationDTO :=
  ceiling ← parse_enum "impact_ceiling" ImpactCeiling.value all_ceilings (gc_impact_ceiling cmd);
  techniques ← for_map (gc_technique_ids cmd) (fun tid =>
    tid ← _as_str "technique_id" tid 128;
    mret (mkTechniqueRef tid None));
  c ← construct (AuthorizationConstraints_new (gc_max_execution_count cmd) [] ceiling);
  targets ← _resolve_targets [gc_asset_id cmd] (gc_tenant_id cmd);
  let target := List.hd (mkTargetRef 0 None) targets in
  phase ← match gc_phase_id cmd with
          | Some u => u ← _as_uuid "phase_id" u; mret (Some u)
          | None => mret None
          end;
  a ← in_uow (grant_tx cmd target techniques c phase new_id now);
  publish_authorization a.

Definition revoke_target_authorization (t : TenantId) (id : uuid) (reason by_ : string) (now : datetime)
    : App TargetAuthorizationDTO :=
  authorization_command t id (
    reason ← _as_str "reason" reason 512;
    by_ ← _as_str "revoked_by" by_ 256;
    mret (Auth.CRevoke t reason by_ now)).

Definition suspend_target_authorization (t : TenantId) (id : uuid) (reason : string) (now : datetime)
    : App TargetAuthorizationDTO :=
  authorization_command t id (reason ← _as_str "reason" reason 512; mret (Auth.CSuspend t reason now)).

(** ** Queries *)

Definition get_engagement (t : TenantId) (id : uuid) : App EngagementDTO :=
  in_uow (g ← _load_engagement id t; mret (engagement_to_dto g)).

(** [state] as given, [None] or empty for all states. *)
Definition list_engagements (t : TenantId) (st : option string) (active_only : bool) : App (list EngagementDTO) :=
  in_uow (
    items ← (if active_only then query (find_active_by_tenant t)
             else match st with
                  | Some s =>
                      if empty_str s then
                        found ← for_map all_engagement_states (fun x => query (find_by_state x t));
                        mret (concat found)
                      else
                        x ← parse_enum "state" EngagementState.value all_engagement_states s;
                        query (find_by_state x t)
                  | None =>
                      found ← for_map all_engagement_states (fun x => query (find_by_state x t));
                      mret (concat found)
                  end);
    mret (map engagement_to_dto items)).

Definition get_target_authorization (t : TenantId) (id : uuid) : App TargetAuthorizationDTO :=
  aid ← _as_uuid "authorization_id" id;
  in_uow (a ← load_authorization aid t; mret (authorization_to_dto a)).

Definition list_target_authorizations (t : TenantId) (engagement : uuid) : App (list TargetAuthorizationDTO) :=
  eid ← _as_uuid "engagement_id" engagement;
  in_uow (items ← query (find_by_engagement eid t); mret (map authorization_to_dto items)).
End Commands.

(** ** The commands as one type *)

Inductive command :=
  | CreateEngagement (t : TenantId) (nm cl owner : string) (count : option Z) (new_id : uuid)
  | SubmitForApproval (t : TenantId) (id : uuid)
  | GrantApproval (t : TenantId) (id : uuid) (approver : string) (sig : option string) (new_id : uuid)
  | Activate (t : TenantId) (id : uuid)
  | Suspend (t : TenantId) (id : uuid) (reason authority : string)
  | Resume (t : TenantId) (id : uuid) (authority : string)
  | Close (t : TenantId) (id : uuid) (reason : option string)
  | Archive (t : TenantId) (id : uuid)
  | DefineTargetScope (t : TenantId) (id : uuid) (assets : list uuid)
  | SetRules (t : TenantId) (id : uuid) (techniques forbidden : list string) (limits : option JsonDict)
      (contacts : list string)
  | SignRules (t : TenantId) (id : uuid) (owner : string) (sig : option string)
  | SetWindow (t : TenantId) (id : uuid) (start finish : datetime) (hours : option JsonDict)
  | AddParticipant (t : TenantId) (id : uuid) (operator rl : string) (new_id : uuid)
  | RemoveParticipant (t : TenantId) (id : uuid) (operator : string)
  | RequestScopeExpansion (t : TenantId) (id : uuid) (assets : list uuid)
  | ApproveScopeExpansion (t : TenantId) (id : uuid)
  | GrantAuthorization (cmd : GrantTargetAuthorizationCommand) (new_id : uuid)
  | RevokeAuthorization (t : TenantId) (id : uuid) (reason by_ : string)
  | SuspendAuthorization (t : TenantId) (id : uuid) (reason : string)
  | GetEngagement (t : TenantId) (id : uuid)
  | ListEngagements (t : TenantId) (st : option string) (active_only : bool)
  | GetAuthorization (t : TenantId) (id : uuid)
  | ListAuthorizations (t : TenantId) (engagement : uuid).

(** The values a command carries have their Python types, and [uuid7()] is not
    nil and gives a new engagement or authorization an id of its own. *)
Definition command_ok (c : command) (w : World) : Prop :=
  match c with
  | CreateEngagement _ _ _ _ _ new_id => new_id ∉ map er_id (eb_engagements (w_db w))
  | GrantApproval _ _ _ _ new_id | AddParticipant _ _ _ _ new_id => new_id ≠ 0
  | DefineTargetScope _ _ assets | RequestScopeExpansion _ _ assets => ∀ a, a ∈ assets → uuid_ok a
  | SetWindow _ _ start finish _ => datetime_ok start ∧ datetime_ok finish
  | GrantAuthorization _ new_id => new_id ∉ map ar_id (eb_auths (w_db w))
  | _ => True
  end.

Section Worlds.
Context `{!RowOrder} `{!AssetQueryPort} `{!DigitalSignaturePort}.

Definition run_command (c : command) (now : datetime) : App unit :=
  match c with
  | CreateEngagement t nm cl o n id => create_engagement t nm cl o n id now;; mret tt
  | SubmitForApproval t id => app_submit_for_approval t id now;; mret tt
  | GrantApproval t id a s nid => app_grant_approval t id a s nid now;; mret tt
  | Activate t id => app_activate t id now;; mret tt
  | Suspend t id r a => app_suspend t id r a now;; mret tt
  | Resume t id a => app_resume t id a now;; mret tt
  | Close t id r => app_close t id r now;; mret tt
  | Archive t id => app_archive t id now;; mret tt
  | DefineTargetScope t id l => define_target_scope t id l now;; mret tt
  | SetRules t id ts fs ls cs => set_rules_of_engagement t id ts fs ls cs now;; mret tt
  | SignRules t id o s => sign_rules_of_engagement t id o s now;; mret tt
  | SetWindow t id s f h => app_set_window t id s f h now;; mret tt
  | AddParticipant t id o r nid => app_add_participant t id o r nid now;; mret tt
  | RemoveParticipant t id o => app_remove_participant t id o now;; mret tt
  | RequestScopeExpansion t id l => app_request_scope_expansion t id l now;; mret tt
  | ApproveScopeExpansion t id => app_approve_scope_expansion t id now;; mret tt
  | GrantAuthorization cmd nid => grant_target_authorization cmd nid now;; mret tt
  | RevokeAuthorization t id r b => revoke_target_authorization t id r b now;; mret tt
  | SuspendAuthorization t id r => suspend_target_authorization t id r now;; mret tt
  | GetEngagement t id => get_engagement t id;; mret tt
  | ListEngagements t s a => list_engagements t s a;; mret tt
  | GetAuthorization t id => get_target_authorization t id;; mret tt
  | ListAuthorizations t id => list_target_authorizations t id;; mret tt
  end.

(** A world some sequence of commands leads to from the empty one. *)
Inductive reachable_world : World → Prop :=
  | rw_empty : reachable_world empty_world
  | rw_command w c now : reachable_world w → command_ok c w → reachable_world (run_command c now w).2.
End Worlds.

(** ** Specification *)

(** The rows of a governed engagement. *)
Definition stored (db : EgDb) (g : Engagement) : Prop := governed g ∧ ok_engagement g ∧ holds db g.

(** What every stored authorization was checked for when it was granted. *)
Record within_grant (a : TargetAuthorization) : Prop := {
  wg_future : ta_created_at a < valid_until a;
  wg_destruct : impact_ceiling (ta_constraints a) = ImpactCeiling.DESTRUCT → destruct_approval_granted a = true
}.

(** All rows are of such objects. *)
Record good (db : EgDb) : Prop := {
  gd_keys : eg_keys db;
  gd_engagements : ∀ row, row ∈ eb_engagements db → ∃ g, row = engagement_to_row g (created_at g) ∧ stored db g;
  gd_auths : ∀ row, row ∈ eb_auths db → ∃ a, row = auth_to_row a ∧ ok_authorization a ∧ within_grant a
}.

(** What a grant leaves: an authorization for an asset in the scope of the
    engagement, for techniques its rules allow, that the tables answer. *)
Definition granted_in `{!RowOrder} (t : TenantId) (engagement asset : uuid) (db : EgDb) (a : TargetAuthorization)
    (db' : EgDb) : Prop :=
  ∃ g, find_by_id engagement t db = Ok (Some g) ∧
    (∀ x, x ∈ technique_ids (techniques a) → x ∈ allowed_technique_ids g) ∧
    asset ∈ asset_ids (scope g) ∧ asset_id (target_ref a) = asset ∧ ta_engagement_id a = engagement_id g ∧
    within_grant a ∧ eb_engagements db' = eb_engagements db ∧
    find_authorization (authorization_id a) t db' = Ok (Some (a <| ta_pending_events := [] |>)).

(** What the arguments of a call are made of. *)
Definition ok_call (c : call) : Prop :=
  match c with
  | CDefineScope _ ts _ | CRequestExpansion _ ts _ => ∀ t, t ∈ ts → target_ok t
  | CSetWindow _ w _ => datetime_ok (authorized_start w) ∧ datetime_ok (authorized_end w) ∧
      EngagementWindow_new (authorized_start w) (authorized_end w) (operational_hours w) = Some w
  | CSetObjectives _ o _ => EngagementObjectives_new (summary o) (success_criteria o) (extras o) = Some o
  | CSetApprovalPolicy _ p _ =>
      ApprovalPolicy_new (required_approver_count p) (required_approver_roles p) (quorum_type p) = Some p
  | CAddParticipant _ _ _ id _ | CAddPhase _ _ _ _ _ id | CGrantApproval _ _ _ _ _ id => id ≠ 0
  | _ => True
  end.

(** ** Lemmas *)

(** *** Copies of an engagement *)

Lemma same_governed a b : same_engagement a b → NoDup (asset_ids (scope b)) → ok_engagement b → governed b → governed a.
Proof.
  intros [Hf Hts Has Hps Hphs] Hnd Hok [Hh Ha Hs Hk Hn Hv].
  assert (active_approvals a ≡ₚ active_approvals b) as Hact by (unfold active_approvals; by rewrite Has).
  assert (serialize_target_scope (targets (scope a)) = serialize_target_scope (targets (scope b))) as Hser.
  { unfold serialize_target_scope. rewrite <- (sorted_targets_unique (targets (scope b)) (targets (scope a))); [done|done|done|].
    apply Hok. }
  split.
  - intros hash Hhash. destruct (Hh hash) as [ts Heq]; [congruence|]. exists ts. rewrite Hser.
    replace (engagement_version a) with (engagement_version b) by congruence. exact Heq.
  - replace (state a) with (state b) by congruence. replace (scope_hash a) with (scope_hash b) by congruence.
    intros Hin. destruct (Ha Hin) as [Hhash Hq]. split; [done|]. revert Hq. unfold quorum_met.
    rewrite (Permutation_length Hact). by replace (approval_policy a) with (approval_policy b) by congruence.
  - replace (state a) with (state b) by congruence. replace (roe a) with (roe b) by congruence.
    replace (window a) with (window b) by congruence. exact Hs.
  - replace (state a) with (state b) by congruence.
    replace (kill_switch_state a) with (kill_switch_state b) by congruence. exact Hk.
  - by rewrite Hact.
  - replace (version a) with (version b) by congruence.
    replace (engagement_version a) with (engagement_version b) by congruence. exact Hv.
Qed.

Lemma same_ok_engagement a b : same_engagement a b → ok_engagement b → ok_engagement a.
Proof.
  intros [Hf Hts Has Hps Hphs] [H1 H2 H3 H4 H5 H6 H7 H8 H9 H10].
  destruct a, b; simpl in *; simplify_eq.
  split; simpl; auto; intros x; rewrite ?Has, ?Hps, ?Hphs, ?Hts; auto.
Qed.

(** *** Calls of the aggregates *)

Lemma update_first_elem {A} (p : A → bool) (f : A → A) (l : list A) (P : A → Prop) :
  (∀ x, P x → P (f x)) → (∀ x, x ∈ l → P x) → ∀ x, x ∈ update_first p f l → P x.
Proof.
  intros Hf. induction l as [|y l IH]; intros Hl x; simpl; [by intros []%not_elem_of_nil|].
  destruct (p y).
  - intros [->|Hx]%elem_of_cons; [apply Hf, Hl; left|apply Hl; by right].
  - intros [->|Hx]%elem_of_cons; [apply Hl; left|]. apply IH; [|done]. intros z Hz. apply Hl. by right.
Qed.

(** What no call changes. *)
Lemma eg_run_call_keeps_key c g : wp (run_call c) (λ _ g', engagement_id g' = engagement_id g ∧
  tenant_id g' = tenant_id g ∧ created_at g' = created_at g) (λ _ _, True) g.
Proof. destruct c; simpl; unfold_engagement; wp_run; done. Qed.

Lemma run_call_ok c g : ok_call c → ok_engagement g → wp (run_call c) (λ _, ok_engagement) (λ _ _, True) g.
Proof.
  intros Hc Hg. destruct c; simpl in Hc |- *; unfold_engagement; wp_run; try done.
  all: destruct Hg as [K1 K2 K3 K4 K5 K6 K7 K8 K9 K10]; split; simpl; auto.
  all: try by intros ? [= <-].
  all: try by intros ? [= <-]; apply digest_is_scope_hash.
  all: try by apply all_snoc.
  all: try by apply update_first_elem.
  all: try by intros x [_ Hx]%list_elem_of_filter; auto.
  all: try by intros x [Hx|Hx]%elem_of_app; auto.
  all: try by intros x []%not_elem_of_nil.
  all: intros x (y & -> & Hy)%list_elem_of_fmap; destruct (revoked y); simpl; auto.
Qed.

(** A call on a governed engagement of good parts. *)
Lemma run_call_good c g g' : ok_call c → governed g → ok_engagement g → run_call c g = (Ok tt, g') →
  governed g' ∧ ok_engagement g' ∧ engagement_id g' = engagement_id g ∧ tenant_id g' = tenant_id g ∧
  created_at g' = created_at g.
Proof.
  intros Hc Hg Hok Hrun. split; [exact (wp_ok _ _ _ _ _ _ (run_call_safe c g Hg) Hrun)|].
  split; [exact (wp_ok _ _ _ _ _ _ (run_call_ok c g Hc Hok) Hrun)|].
  exact (wp_ok _ _ _ _ _ _ (eg_run_call_keeps_key c g) Hrun).
Qed.

(** What the calls of the service keep of an authorization. *)
Definition same_grant (a a' : TargetAuthorization) : Prop :=
  granted_content a' = granted_content a ∧ ta_phase_id a' = ta_phase_id a ∧ ta_created_at a' = ta_created_at a.

Lemma auth_call_same_grant c a : wp (Auth.run_call c) (λ _ a', same_grant a a') (λ _ _, True) a.
Proof.
  destruct c; simpl; unfold Auth.suspend, Auth.resume, Auth.revoke, Auth.expire, Auth.pop_events, Auth._assert_tenant,
    Auth._transition, Auth._mutate, Auth._emit; wp_run; done.
Qed.

Lemma same_grant_ok a a' : same_grant a a' → ok_authorization a → within_grant a → ok_authorization a' ∧ within_grant a'.
Proof.
  intros (Hc & Hp & Hcr) [H1 H2 H3 H4] [H5 H6]. destruct a, a'. unfold granted_content in Hc. simpl in *. simplify_eq.
  by split.
Qed.

Lemma same_grant_row a a' : same_grant a a' → updated_auth_row a' (auth_to_row a) = auth_to_row a'.
Proof. intros (Hc & Hp & Hcr). destruct a, a'. unfold granted_content in Hc. simpl in *. by simplify_eq. Qed.

(** A grant passes the checks of the constructors. *)
Lemma grant_ok id t en target ts c by_ until now allowed destruct phase a : id ≠ 0 → en ≠ 0 → phase ≠ Some 0 →
  AuthorizationConstraints_new (max_execution_count c) (allowed_hours c) (impact_ceiling c) = Some c →
  Auth.grant id t en target ts c by_ until now allowed destruct phase = Ok a → ok_authorization a ∧ within_grant a.
Proof.
  intros Hid Hen Hph Hc Hg. pose proof Hg as (Hcont & Hfut & _ & Hd)%grant_spec.
  assert (ta_phase_id a = phase ∧ ta_created_at a = now) as [Hp Hn].
  { revert Hg. unfold Auth.grant. repeat case_match; by intros; simplify_eq. }
  destruct a. unfold granted_content in Hcont. simpl in *. simplify_eq. by split.
Qed.

Section Service.
Context `{!RowOrder}.

(** *** Saves *)

(** Two stored engagements with one id are one row. *)
Lemma eg_stored_created db a b : good db → stored db a → stored db b → engagement_id a = engagement_id b →
  created_at a = created_at b.
Proof.
  intros [[Hk _] _ _] (_ & _ & Ha) (_ & _ & Hb) Hid.
  assert (engagement_to_row a (created_at a) = engagement_to_row b (created_at b)) as Hrow.
  { apply (nodup_key_inj er_id (eb_engagements db)); [done|apply Ha|apply Hb|done]. }
  by injection Hrow.
Qed.

Lemma eg_save_good g db db' : good db → governed g → ok_engagement g →
  (∀ g0, stored db g0 → engagement_id g0 = engagement_id g → created_at g0 = created_at g) →
  save_engagement g db = Ok db' → good db' ∧ stored db' g.
Proof.
  intros [Hk Hrows Hauths] Hg Hok Hcreated Hsave.
  destruct (eg_save_holds g db db' Hk Hsave) as (Hk' & Ha & Hh & Hothers & Hall).
  { intros row (Hin & Hri & _)%eg_find_row_some. destruct (Hrows row Hin) as (g0 & -> & Hg0). by apply Hcreated. }
  split; [|done]. split; [done| |by rewrite Ha]. intros row Hin. destruct (Hall row Hin) as [->|[Hold Hne]].
  - by exists g.
  - destruct (Hrows row Hold) as (g0 & -> & Hr0 & Hok0 & Hh0). exists g0.
    split; [done|]. split_and!; [done..|]. by apply Hothers.
Qed.

Lemma save_authorization_good a db db' : good db → ok_authorization a → within_grant a →
  (∀ row, find_auth_row db (authorization_id a) (ta_tenant_id a) = Some row → updated_auth_row a row = auth_to_row a) →
  save_authorization a db = Ok db' → good db' ∧ auth_to_row a ∈ eb_auths db' ∧ eb_engagements db' = eb_engagements db.
Proof.
  intros [Hk Hrows Hauths] Hok Hw Hupd Hsave.
  destruct (save_authorization_rows a db db' Hk Hsave Hupd) as (Hk' & He & Hh & [_ Hnew _ Hall]).
  split; [|done]. split; [done| |].
  - intros row. rewrite He. intros Hin. destruct (Hrows row Hin) as (g & -> & Hg & Hokg & Hhg). exists g.
    split; [done|]. split_and!; [done..|]. by apply Hh.
  - intros row Hin. destruct (Hall row Hin) as [->|[Hold _]]; [by exists a|by apply Hauths].
Qed.

(** *** Transactions *)

Lemma wp_eg_query {A} (q : EgDb → result StoreError A) (Q : A → Session EgDb → Prop) X s :
  (∀ a, q (s_view s) = Ok a → Q a s) → (∀ e, X e s) → wp (query q) Q X s.
Proof. intros HQ HX. unfold wp, query. destruct (q (s_view s)); auto. Qed.

Lemma wp_write f (Q : unit → Session EgDb → Prop) X s :
  (∀ db', f (s_view s) = Ok db' → Q tt (s <| s_view := db' |>)) → (∀ e, X e s) → wp (write f) Q X s.
Proof. intros HQ HX. unfold wp, write. destruct (f (s_view s)); auto. Qed.

Lemma wp_eg_as_uuid {S} field u (Q : uuid → S → Prop) X s : (u ≠ 0 → Q u s) → (∀ e, X e s) →
  wp (_as_uuid field u) Q X s.
Proof. intros HQ HX. unfold _as_uuid, validate_uuid. wp_run; [done|]. apply HQ. by apply Z.eqb_neq. Qed.

(** A stored engagement is found as a copy that is as good. *)
Lemma eg_good_find id t db g : good db → find_by_id id t db = Ok (Some g) →
  governed g ∧ ok_engagement g ∧ engagement_id g = id ∧ tenant_id g = t ∧ pending_events g = [] ∧
  ∃ g0, stored db g0 ∧ same_engagement g g0.
Proof.
  intros [Hk Hrows _]. unfold find_by_id. destruct (find_row db id t) as [row|] eqn:Hr; [|done].
  apply eg_find_row_some in Hr as (Hin & <- & <-). destruct (Hrows row Hin) as (g0 & -> & Hst).
  pose proof Hst as (Hg0 & Hok0 & Hh0). destruct (eg_holds_find db g0 Hk Hh0 Hok0) as (g' & Hf & Hs & Hp).
  unfold find_by_id in Hf. pose proof (eg_find_row_unique _ (engagement_id g0) _ Hk Hin eq_refl) as Hu.
  simpl in Hu |- *. rewrite Hu in Hf. intros Heq. rewrite Heq in Hf. injection Hf as <-.
  split_and!; [by apply (same_governed _ g0); [|apply Hh0| |]|by apply (same_ok_engagement _ g0)|
    by destruct Hs; congruence|by destruct Hs; congruence|done|by exists g0].
Qed.

Lemma wp_eg_load id t (Q : Engagement → Session EgDb → Prop) X s :
  (∀ g, find_by_id id t (s_view s) = Ok (Some g) → Q g s) → (∀ e, X e s) → wp (_load_engagement id t) Q X s.
Proof.
  intros HQ HX. unfold _load_engagement. wp_step. apply wp_eg_as_uuid; [intros _|done]. wp_step.
  apply wp_eg_query; [|done]. intros [g|] Hf; wp_run; auto.
Qed.

(** Arguments that are evaluated from inputs alone. *)
Definition arguments {S A} (args : PyM S EgError A) (P : A → Prop) : Prop :=
  ∀ s, wp args (λ c s', s' = s ∧ P c) (λ _ s', s' = s) s.

(** The update of an engagement: it commits the call, or it leaves the tables as
    they were. *)
Lemma wp_update_engagement t id args (Q : Engagement → Session EgDb → Prop) X db : good db →
  arguments args ok_call →
  (∀ c g g' db', ok_call c → find_by_id id t db = Ok (Some g) → run_call c g = (Ok tt, g') →
     good db' → stored db' g' → Q g' (mkSession db' db')) →
  (∀ e v, X e (mkSession v db)) → wp (update_engagement t id args) Q X (mkSession db db).
Proof.
  intros Hgood Hargs HQ HX. unfold update_engagement. wp_step. apply wp_eg_load; [|intros e; apply HX]. simpl.
  intros g Hf. wp_step. eapply wp_mono; [apply Hargs| |by intros e s ->]. intros c s [-> Hc]. wp_step.
  unfold on_object. destruct (run_call c g) as [[[]|e] g'] eqn:Hrun; wp_run; [|apply HX].
  apply wp_write; [|intros e; apply HX]. simpl. intros db' Hsave. wp_run.
  destruct (eg_good_find id t db g Hgood Hf) as (Hg & Hok & Hid & Ht & _ & g0 & Hst & Hs).
  destruct (run_call_good c g g' Hc Hg Hok Hrun) as (Hg' & Hok' & Hid' & _ & Hcr).
  destruct (eg_save_good g' db db') as [Hgood' Hst']; [done..| |done|by apply (HQ c g)].
  intros g1 Hst1 Hid1. rewrite Hcr. transitivity (created_at g0); [|by destruct Hs; congruence].
  apply (eg_stored_created db); [done..|]. destruct Hs. congruence.
Qed.

(** A stored authorization is found as it was saved. *)
Lemma good_find_authorization id t db a : good db → find_authorization id t db = Ok (Some a) →
  ok_authorization a ∧ within_grant a ∧ authorization_id a = id ∧ ta_tenant_id a = t ∧
  ∃ a0, find_auth_row db id t = Some (auth_to_row a0) ∧ a = a0 <| ta_pending_events := [] |>.
Proof.
  intros [Hk _ Hrows]. unfold find_authorization. destruct (find_auth_row db id t) as [row|] eqn:Hr; [|done].
  pose proof Hr as (Hin & <- & <-)%find_auth_row_some. destruct (Hrows row Hin) as (a0 & -> & Hok & Hw).
  rewrite auth_round by done. simpl. intros [= <-]. split_and!; [by destruct Hok|by destruct Hw|done|done|].
  by exists a0.
Qed.

Lemma wp_update_authorization t aid args (Q : TargetAuthorization → Session EgDb → Prop) X db : good db →
  arguments args (λ _, True) →
  (∀ a' db', good db' → Q a' (mkSession db' db')) →
  (∀ e v, X e (mkSession v db)) → wp (update_authorization t aid args) Q X (mkSession db db).
Proof.
  intros Hgood Hargs HQ HX. unfold update_authorization, load_authorization. repeat wp_step.
  apply wp_eg_query; [|intros e; apply HX]. simpl. intros [a|] Hf; wp_run; [|apply HX].
  eapply wp_mono; [apply Hargs| |by intros e s ->]. intros c s [-> _]. wp_step.
  unfold on_object. destruct (Auth.run_call c a) as [[[]|e] a'] eqn:Hrun; wp_run; [|apply HX].
  apply wp_write; [|intros e; apply HX]. simpl. intros db' Hsave. wp_run.
  destruct (good_find_authorization aid t db a Hgood Hf) as (Hok & Hw & Hid & Ht & a0 & Hr & Ha).
  pose proof (wp_ok _ _ _ _ _ _ (auth_call_same_grant c a) Hrun) as Hsame.
  destruct (same_grant_ok a a' Hsame Hok Hw) as [Hok' Hw'].
  assert (same_grant a0 a') as Hsame0 by (subst a; exact Hsame).
  assert (authorization_id a' = aid ∧ ta_tenant_id a' = t) as [Hid' Ht'].
  { destruct Hsame as (Hc & _). unfold granted_content in Hc. split; congruence. }
  destruct (save_authorization_good a' db db') as (Hgood' & _); [done..| |done|by apply HQ].
  rewrite Hid', Ht', Hr. intros row [= <-]. by apply same_grant_row.
Qed.

(** *** Commands *)

Lemma eg_world_same w : w <| w_db := w_db w |> = w.
Proof. by destruct w. Qed.

Lemma wp_eg_in_uow {A} (body : Tx A) (Q : A → World → Prop) X w :
  wp body (λ a s, Q a (w <| w_db := s_durable s |>)) (λ e s, X e (w <| w_db := s_durable s |>))
    (mkSession (w_db w) (w_db w)) → wp (in_uow body) Q X w.
Proof. unfold wp, in_uow. by destruct (body _) as [[]]. Qed.

Lemma wp_engagement_command t id args (Q : EngagementDTO → World → Prop) X w : good (w_db w) →
  arguments args ok_call → (∀ d w', good (w_db w') → Q d w') → (∀ e, X e w) →
  wp (engagement_command t id args) Q X w.
Proof.
  intros Hgood Hargs HQ HX. unfold engagement_command, publish_engagement, _publish_all. wp_step. apply wp_eg_in_uow.
  apply wp_update_engagement; [done|done| |].
  - intros c g g' db' _ _ _ Hgood' _. wp_run. by apply HQ.
  - intros e v. simpl. rewrite eg_world_same. apply HX.
Qed.

Lemma wp_authorization_command t id args (Q : TargetAuthorizationDTO → World → Prop) X w : good (w_db w) →
  arguments args (λ _, True) → (∀ d w', good (w_db w') → Q d w') → (∀ e, X e w) →
  wp (authorization_command t id args) Q X w.
Proof.
  intros Hgood Hargs HQ HX. unfold authorization_command, publish_authorization, _publish_all. wp_step.
  apply wp_eg_as_uuid; [intros _|done]. wp_step. apply wp_eg_in_uow.
  apply wp_update_authorization; [done|done| |].
  - intros a' db' Hgood'. wp_run. by apply HQ.
  - intros e v. simpl. rewrite eg_world_same. apply HX.
Qed.

(** A query changes nothing. *)
Lemma wp_read {A} (body : Tx A) (Q : A → World → Prop) X w :
  (∀ s, wp body (λ _ s', s' = s) (λ _ s', s' = s) s) → (∀ a, Q a w) → (∀ e, X e w) → wp (in_uow body) Q X w.
Proof.
  intros Hb HQ HX. apply wp_eg_in_uow. eapply wp_mono; [apply Hb|..]; intros ? ? ->; simpl; by rewrite eg_world_same.
Qed.
End Service.

Section Inputs.
Context {S : Type}.

Lemma wp_eg_as_str field v n (Q : string → S → Prop) X s : (∀ a, Q a s) → (∀ e, X e s) →
  wp (_as_str field v n) Q X s.
Proof. intros HQ HX. unfold _as_str, validate_str. wp_run; auto. Qed.

Lemma wp_eg_construct {A} (x : option A) (Q : A → S → Prop) X s : (∀ a, x = Some a → Q a s) → (∀ e, X e s) →
  wp (construct x) Q X s.
Proof. intros HQ HX. unfold construct. destruct x; wp_run; auto. Qed.

Lemma wp_eg_parse_enum {A} field text (all : list A) v (Q : A → S → Prop) X s : (∀ a, Q a s) → (∀ e, X e s) →
  wp (parse_enum field text all v) Q X s.
Proof. intros HQ HX. unfold parse_enum. destruct (of_text _ _ _); wp_run; auto. Qed.

(** A comprehension whose element changes nothing. *)
Lemma wp_for_map {A B} (P : A → B → Prop) (l : list A) (body : A → PyM S EgError B) Q X s :
  (∀ x, x ∈ l → wp (body x) (λ b s', s' = s ∧ P x b) (λ e s', s' = s) s) →
  (∀ bs, Forall2 P l bs → Q bs s) → (∀ e, X e s) → wp (for_map l body) Q X s.
Proof.
  revert Q. induction l as [|x l IH]; intros Q Hbody HQ HX; simpl; [by wp_run; apply HQ|].
  wp_step. eapply wp_mono; [apply Hbody; left| |by intros e s' ->]. intros b s' [-> Hb]. wp_step.
  apply IH; [|intros bs Hbs|done].
  - intros y Hy. apply Hbody. by right.
  - wp_run. apply HQ. by constructor.
Qed.

Context `{!AssetQueryPort}.

(** Resolving answers references to the assets asked for. *)
Lemma wp_resolve_targets assets t (Q : list TargetRef → S → Prop) X s :
  (∀ ts, map asset_id ts = assets → Q ts s) → (∀ e, X e s) → wp (_resolve_targets assets t) Q X s.
Proof.
  intros HQ HX. unfold _resolve_targets. apply (wp_for_map (λ asset r, asset_id r = asset)); [|intros bs Hbs|done].
  - intros asset _. unfold validate_uuid. wp_run; try done. split; [done|]. by eapply resolve_same_asset.
  - apply HQ. clear -Hbs. induction Hbs as [|x b l bs Hb _ IH]; [done|]. simpl. by rewrite Hb, IH.
Qed.
End Inputs.

Ltac input_step :=
  lazymatch goal with
  | |- wp (_as_str _ _ _) _ _ _ => apply wp_eg_as_str; [intros ?|auto]
  | |- wp (_as_uuid _ _) _ _ _ => apply wp_eg_as_uuid; [intros ?|auto]
  | |- wp (construct _) _ _ _ => apply wp_eg_construct; [intros ? ?|auto]
  | |- wp (parse_enum _ _ _ _) _ _ _ => apply wp_eg_parse_enum; [intros ?|auto]
  | |- wp (_resolve_targets _ _) _ _ _ => apply wp_resolve_targets; [intros ? ?|auto]
  | _ => wp_step
  end.

(** Arguments built from inputs by [_as_str]. *)
Ltac solve_arguments := intros ?; repeat input_step; auto.

Section Commands.
Context `{!RowOrder} `{!AssetQueryPort} `{!DigitalSignaturePort}.

(** References to assets that are UUIDs. *)
Lemma resolved_ok assets ts : map asset_id ts = assets → (∀ a, a ∈ assets → uuid_ok a) → ∀ t, t ∈ ts → target_ok t.
Proof. intros <- Hok t Ht. apply Hok. by apply list_elem_of_fmap_2. Qed.

Lemma new_window s f h w : datetime_ok s → datetime_ok f → EngagementWindow_new s f h = Some w →
  datetime_ok (authorized_start w) ∧ datetime_ok (authorized_end w) ∧
  EngagementWindow_new (authorized_start w) (authorized_end w) (operational_hours w) = Some w.
Proof.
  intros Hs Hf Hw. pose proof Hw as Hw'. unfold EngagementWindow_new in Hw'. case_match; [done|]. injection Hw' as <-.
  done.
Qed.

Lemma new_policy n r q x : ApprovalPolicy_new n r q = Some x →
  ApprovalPolicy_new (required_approver_count x) (required_approver_roles x) (quorum_type x) = Some x.
Proof.
  intros Hx. pose proof Hx as Hx'. unfold ApprovalPolicy_new in Hx'. case_match; [done|]. by injection Hx' as <-.
Qed.

Lemma new_constraints n h c x : AuthorizationConstraints_new n h c = Some x →
  AuthorizationConstraints_new (max_execution_count x) (allowed_hours x) (impact_ceiling x) = Some x.
Proof.
  intros Hx. pose proof Hx as Hx'. unfold AuthorizationConstraints_new in Hx'. case_match; [done|]. by injection Hx' as <-.
Qed.

(** A new engagement is stored as its creation made it. *)
Lemma eg_create_good id t nm cl owner policy now g db db' : good db → id ≠ 0 → id ∉ map er_id (eb_engagements db) →
  ApprovalPolicy_new (required_approver_count policy) (required_approver_roles policy) (quorum_type policy) = Some policy →
  create id t nm cl owner policy now = Ok g → save_engagement g db = Ok db' → good db' ∧ stored db' g.
Proof.
  intros Hgood Hid Hfresh Hpol Hc Hsave. apply (eg_save_good g db); [done|by eapply create_governed| | |done].
  - revert Hc. unfold create. repeat case_match; try done. intros [= <-].
    split; simpl; try done; by intros ? []%not_elem_of_nil.
  - assert (engagement_id g = id) as Hg by (revert Hc; unfold create; repeat case_match; by intros; simplify_eq).
    intros g0 (_ & _ & [Hrow _ _ _ _ _ _]) Heq. exfalso. apply Hfresh. rewrite <- Hg, <- Heq.
    exact (list_elem_of_fmap_2 er_id _ _ Hrow).
Qed.

Lemma wp_create_engagement t nm cl owner count new_id now (Q : EngagementDTO → World → Prop) X w :
  good (w_db w) → new_id ∉ map er_id (eb_engagements (w_db w)) → (∀ d w', good (w_db w') → Q d w') → (∀ e, X e w) →
  wp (create_engagement t nm cl owner count new_id now) Q X w.
Proof.
  intros Hgood Hfresh HQ HX. unfold create_engagement. do 7 input_step.
  apply (wp_mono _ (λ p s, s = w ∧ ∀ x, p = Some x → ApprovalPolicy_new (required_approver_count x)
    (required_approver_roles x) (quorum_type x) = Some x) _ (λ _ s, s = w)); [| |by intros e s ->].
  { repeat input_step; try done.
    split; [done|]. intros x [= <-]. by eapply new_policy. }
  intros p s [-> Hp]. repeat input_step; try done.
  match goal with H : non_nil _ = Some _ |- _ => apply non_nil_some in H as [? ->] end.
  apply wp_eg_in_uow. wp_step. apply wp_write; [|intros e; simpl; by rewrite eg_world_same]. simpl. intros db' Hsave.
  unfold publish_engagement, _publish_all. wp_run. apply HQ. simpl.
  match goal with H : factory_create _ _ _ _ _ _ _ _ = Ok _ |- _ => unfold factory_create in H; simpl in H end.
  by eapply eg_create_good; [..|eassumption|eassumption]; try done; destruct p; [apply Hp|].
Qed.

Lemma wp_grant_tx cmd target ts c phase new_id now (Q : TargetAuthorization → Session EgDb → Prop) X db :
  good db → new_id ∉ map ar_id (eb_auths db) → asset_id target = gc_asset_id cmd → phase ≠ Some 0 →
  AuthorizationConstraints_new (max_execution_count c) (allowed_hours c) (impact_ceiling c) = Some c →
  (∀ a db', good db' → granted_in (gc_tenant_id cmd) (gc_engagement_id cmd) (gc_asset_id cmd) db a db' →
     Q a (mkSession db' db')) →
  (∀ e v, X e (mkSession v db)) → wp (grant_tx cmd target ts c phase new_id now) Q X (mkSession db db).
Proof.
  intros Hgood Hfresh Htarget Hph Hc HQ HX. unfold grant_tx. wp_step.
  apply wp_eg_load; [|intros e; apply HX]. simpl. intros g Hf. repeat input_step; try (intros; by apply HX).
  destruct (eg_good_find _ _ _ _ Hgood Hf) as (_ & [Hgid _ _ _ _ _ _ _ _ _] & _).
  match goal with H : non_nil _ = Some _ |- _ => apply non_nil_some in H as [Hid ->] end.
  match goal with H : Auth.grant _ _ _ _ _ _ _ _ _ _ _ _ = Ok ?x |- _ => rename x into a, H into Hgrant end.
  apply wp_write; [|intros e; apply HX]. simpl. intros db' Hsave. wp_run.
  destruct (grant_ok _ _ _ _ _ _ _ _ _ _ _ _ a Hid Hgid Hph Hc Hgrant) as [Hok Hw].
  destruct (grant_spec _ _ _ _ _ _ _ _ _ _ _ _ a Hgrant) as (Hcont & _ & Htech & _).
  unfold granted_content in Hcont. injection Hcont as Haid Hat Haen Hatr Hats _ _ _ _. guards.
  destruct (save_authorization_good a db db') as (Hgood' & Hin & He); [done..| |done|].
  { intros row Hr. exfalso. apply Hfresh. apply find_auth_row_some in Hr as (Hin & Hrid & _).
    rewrite <- Haid, <- Hrid. by apply list_elem_of_fmap_2. }
  apply HQ; [done|]. exists g. split_and!; try done; try congruence.
  - by rewrite Hats.
  - match goal with H : scope_contains _ _ = true |- _ => by apply bool_decide_eq_true in H end.
  - rewrite <- Hat. apply auth_found; [apply Hgood'|done|done].
Qed.

Lemma wp_grant_authorization cmd new_id now (Q : TargetAuthorizationDTO → World → Prop) X w :
  good (w_db w) → new_id ∉ map ar_id (eb_auths (w_db w)) →
  (∀ a w', good (w_db w') → granted_in (gc_tenant_id cmd) (gc_engagement_id cmd) (gc_asset_id cmd) (w_db w) a (w_db w') →
     Q (authorization_to_dto a) w') →
  (∀ e, X e w) → wp (grant_target_authorization cmd new_id now) Q X w.
Proof.
  intros Hgood Hfresh HQ HX. unfold grant_target_authorization. do 3 input_step.
  apply (wp_for_map (λ _ _, True)); [by intros; repeat input_step|intros ts _|done].
  repeat input_step; try done.
  all: match goal with H : map asset_id ?l = [_] |- _ => destruct l as [|target [|]]; simplify_eq/= end.
  all: apply wp_eg_in_uow, wp_grant_tx; try done; try congruence; try (by eapply new_constraints).
  all: try (intros e v; simpl; by rewrite eg_world_same).
  all: intros auth db' Hgood' Hgr; unfold publish_authorization, _publish_all; wp_run; by apply HQ.
Qed.

(** A unit of work that only queries. *)
Ltac read_only := apply wp_read; [intros ?; wp_step|by intros; wp_run|done].

(** One command: good tables stay good, and a command that raises changes
    nothing. *)
Lemma eg_run_command_good c now w : command_ok c w → good (w_db w) →
  wp (run_command c now) (λ _ w', good (w_db w')) (λ _ w', w' = w) w.
Proof.
  intros Hok Hgood.
  destruct c; simpl in Hok |- *; wp_step;
    unfold app_submit_for_approval, app_grant_approval, app_activate, app_suspend, app_resume, app_close, app_archive,
      define_target_scope, set_rules_of_engagement, sign_rules_of_engagement, app_set_window, app_add_participant,
      app_remove_participant, app_request_scope_expansion, app_approve_scope_expansion, revoke_target_authorization,
      suspend_target_authorization, get_engagement, list_engagements, get_target_authorization, list_target_authorizations;
    repeat input_step; try done;
    try (apply wp_engagement_command; [done|solve_arguments; try (split; [done|]; simpl; eauto using resolved_ok, new_window)|
      by intros; wp_run|done]);
    try (apply wp_authorization_command; [done|solve_arguments|by intros; wp_run|done]).
  - by apply wp_create_engagement; [..|intros; wp_run|].
  - destruct Hok. eapply new_window; [..|eassumption]; done.
  - by apply wp_grant_authorization; [..|intros; wp_run|].
  - read_only. apply wp_eg_load; [intros; by wp_run|done].
  - read_only. destruct active_only; [|destruct st as [st|]; [destruct (empty_str st)|]];
      repeat first [input_step | done |
        apply (wp_for_map (λ _ _, True)); [by intros; apply wp_eg_query|intros; by wp_run|done] |
        apply wp_eg_query; intros].
  - read_only. unfold load_authorization. repeat first [wp_step | done | apply wp_eg_query; intros].
  - read_only. repeat first [wp_step | done | apply wp_eg_query; intros].
Qed.

Lemma eg_reachable_good w : reachable_world w → good (w_db w).
Proof.
  induction 1 as [|w c now _ IH Hok].
  - split; [split; constructor|intros ? []%not_elem_of_nil|intros ? []%not_elem_of_nil].
  - pose proof (eg_run_command_good c now w Hok IH) as Hwp. unfold wp in Hwp.
    destruct (run_command c now w) as [[a|e] w']; [done|by subst].
Qed.
End Commands.

(** *** A concrete history: an engagement created, approved, signed and
    activated, and one of its targets authorized *)

Definition run_commands `{!RowOrder} `{!AssetQueryPort} `{!DigitalSignaturePort} (cs : list (command * datetime))
    (w : World) : World :=
  foldl (fun w c => (run_command c.1 c.2 w).2) w cs.

(** The commands carry values of their types and fresh ids. *)
Fixpoint all_ok `{!RowOrder} `{!AssetQueryPort} `{!DigitalSignaturePort} (cs : list (command * datetime))
    (w : World) : Prop :=
  match cs with
  | [] => True
  | c :: cs => command_ok c.1 w ∧ all_ok cs (run_command c.1 c.2 w).2
  end.

Lemma eg_run_commands_reachable `{!RowOrder} `{!AssetQueryPort} `{!DigitalSignaturePort} cs w :
  reachable_world w → all_ok cs w → reachable_world (run_commands cs w).
Proof.
  revert w. induction cs as [|[c now] cs IH]; intros w Hw; [done|]. intros [Hc Hcs].
  apply IH; [by apply rw_command|done].
Qed.

#[local] Existing Instance insertion_order.
#[local] Existing Instance DegradedAssetQueryAdapter.
Definition test_signatures : DigitalSignaturePort := HmacDigitalSignatureAdapter (utf8 "secret").
#[local] Existing Instance test_signatures.

Definition activation : list (command * datetime) :=
  [(CreateEngagement acme " op " "Internal" "owner" None 5, 0); (DefineTargetScope acme 5 [21], 1);
   (SetRules acme 5 ["T1190"] [] None [], 2); (SetWindow acme 5 0 100 None, 3); (SubmitForApproval acme 5, 4);
   (GrantApproval acme 5 "ann" (Some "s1") 11, 5); (GrantApproval acme 5 "bob" None 12, 6);
   (SignRules acme 5 "owner" None, 7); (Activate acme 5, 8)].

Definition active_world : World := run_commands activation empty_world.

Lemma active_reachable : reachable_world active_world.
Proof.
  apply eg_run_commands_reachable; [constructor|]. unfold activation.
  cbn [all_ok fst snd command_ok]. split_and!; try done.
  - apply not_elem_of_nil.
  - by intros a ->%list_elem_of_singleton.
Qed.

Lemma active_states : map er_state (eb_engagements (w_db active_world)) = ["Active"].
Proof. vm_compute. reflexivity. Qed.

Definition web_grant : GrantTargetAuthorizationCommand :=
  mkGrantCommand acme 5 21 ["T1190"] "Probe" 3 50 "boss" false None.

(** A suspension without a reason. *)
Definition silent_suspension : command := Suspend acme 5 "" "soc".

(** ** Properties *)

(** C29. Whatever commands are run, failing ones included, every stored engagement
    is found under its id and tenant and is governed: its scope hash is a digest
    of its scope and version, from APPROVED on the required number of approvals
    stands, once submitted it has rules and a window, and while ACTIVE its kill
    switch is armed; its parts passed their constructors and no target is listed
    twice. *)
Theorem stored_engagements_are_governed `{!RowOrder} `{!AssetQueryPort} `{!DigitalSignaturePort} w row :
  reachable_world w → row ∈ eb_engagements (w_db w) →
  ∃ g, find_by_id (er_id row) (er_tenant_id row) (w_db w) = Ok (Some g) ∧ governed g ∧ ok_engagement g ∧
       NoDup (asset_ids (scope g)).
Proof.
  intros Hw Hin. destruct (eg_reachable_good w Hw) as [Hk Hrows Hauths]. destruct (Hrows row Hin) as (g0 & -> & Hst).
  pose proof Hst as (_ & Hok & Hh). destruct (eg_holds_find _ g0 Hk Hh Hok) as (g & Hf & Hs & _).
  exists g. split; [exact Hf|]. destruct (eg_good_find _ _ _ g (eg_reachable_good w Hw) Hf) as (Hg & Hokg & _).
  split_and!; [done..|]. unfold asset_ids. rewrite (se_targets _ _ Hs). apply Hh.
Qed.

Lemma stored_engagements_are_governed_witness :
  ∃ row, reachable_world active_world ∧ row ∈ eb_engagements (w_db active_world) ∧ er_state row = "Active" ∧
  ∃ g, find_by_id (er_id row) (er_tenant_id row) (w_db active_world) = Ok (Some g) ∧ governed g ∧ ok_engagement g ∧
       NoDup (asset_ids (scope g)).
Proof.
  assert (∃ row, row ∈ eb_engagements (w_db active_world) ∧ er_state row = "Active") as (row & Hin & Hs).
  { pose proof active_states as Ha. destruct (eb_engagements (w_db active_world)) as [|row [|]]; simplify_eq/=.
    exists row. split; [left|done]. }
  exists row. split; [apply active_reachable|]. split; [exact Hin|]. split; [exact Hs|].
  apply (stored_engagements_are_governed active_world row active_reachable Hin).
Defined.

(** A command that raises changes nothing: neither the tables nor what was
    published.  Every check, the aggregate, the ports and the save with its
    version check run before the commit, and nothing raises after it. *)
Theorem failed_engagement_command_changes_nothing `{!RowOrder} `{!AssetQueryPort} `{!DigitalSignaturePort}
    c now w e w' : reachable_world w → command_ok c w → run_command c now w = (Err e, w') → w' = w.
Proof.
  intros Hw Hok Hrun. exact (wp_err _ _ _ _ _ _ (eg_run_command_good c now w Hok (eg_reachable_good w Hw)) Hrun).
Qed.

Lemma failed_engagement_command_changes_nothing_witness :
  reachable_world active_world ∧
  run_command silent_suspension 9 active_world =
    (Err (ApplicationValidationError "reason" "must not be empty"), active_world).
Proof.
  split; [apply active_reachable|].
  assert ((run_command silent_suspension 9 active_world).1 =
    Err (ApplicationValidationError "reason" "must not be empty")) as Hrun by (vm_compute; reflexivity).
  destruct (run_command silent_suspension 9 active_world) as [r w'] eqn:Heq. cbn [fst] in Hrun. subst r.
  f_equal. exact (failed_engagement_command_changes_nothing silent_suspension 9 active_world _ w' active_reachable I Heq).
Defined.

(** A grant stays within the engagement: when [grant_target_authorization]
    answers, the asset is in the scope of the stored engagement, every technique
    is one its rules allow, the end lies in the future, a Destruct ceiling had
    its separate approval, the authorization is for that engagement and that
    asset, the tables answer it under its id, and the engagements are untouched. *)
Theorem grants_stay_within_engagement `{!RowOrder} `{!AssetQueryPort} `{!DigitalSignaturePort} cmd new_id now w d w' :
  reachable_world w → new_id ∉ map ar_id (eb_auths (w_db w)) →
  grant_target_authorization cmd new_id now w = (Ok d, w') →
  ∃ a g, d = authorization_to_dto a ∧
    find_by_id (gc_engagement_id cmd) (gc_tenant_id cmd) (w_db w) = Ok (Some g) ∧
    gc_asset_id cmd ∈ asset_ids (scope g) ∧ ad_asset_id d = gc_asset_id cmd ∧
    (∀ x, x ∈ technique_ids (techniques a) → x ∈ allowed_technique_ids g) ∧
    ad_engagement_id d = engagement_id g ∧ ta_created_at a < valid_until a ∧
    (impact_ceiling (ta_constraints a) = ImpactCeiling.DESTRUCT → destruct_approval_granted a = true) ∧
    find_authorization (ad_authorization_id d) (gc_tenant_id cmd) (w_db w') = Ok (Some (a <| ta_pending_events := [] |>)) ∧
    eb_engagements (w_db w') = eb_engagements (w_db w).
Proof.
  intros Hw Hfresh Hrun.
  assert (wp (grant_target_authorization cmd new_id now) (λ d w', ∃ a, d = authorization_to_dto a ∧
    granted_in (gc_tenant_id cmd) (gc_engagement_id cmd) (gc_asset_id cmd) (w_db w) a (w_db w')) (λ _ _, True) w) as Hwp.
  { apply wp_grant_authorization; [by apply eg_reachable_good|done| |done]. intros a w1 _ Ha. by exists a. }
  destruct (wp_ok _ _ _ _ _ _ Hwp Hrun) as (a & -> & g & Hf & Htech & Hin & Hasset & Hen & [Hfut Hd] & He & Hfound).
  exists a, g. by split_and!.
Qed.

Lemma grants_stay_within_engagement_witness :
  ∃ d w', grant_target_authorization web_grant 31 9 active_world = (Ok d, w') ∧
  ∃ a g, d = authorization_to_dto a ∧ find_by_id 5 acme (w_db active_world) = Ok (Some g) ∧ 21 ∈ asset_ids (scope g) ∧
    ad_asset_id d = 21 ∧ (∀ x, x ∈ technique_ids (techniques a) → x ∈ allowed_technique_ids g).
Proof.
  assert (is_ok (grant_target_authorization web_grant 31 9 active_world).1 = true) as Hok by (vm_compute; reflexivity).
  assert (map ar_id (eb_auths (w_db active_world)) = []) as Hfresh by (vm_compute; reflexivity).
  destruct (grant_target_authorization web_grant 31 9 active_world) as [[d|e] w'] eqn:Hrun; [|discriminate Hok].
  exists d, w'. split; [done|].
  destruct (grants_stay_within_engagement web_grant 31 9 active_world d w' active_reachable) as
    (a & g & Hd & Hf & Hin & Ha & Ht & _); [by rewrite Hfresh; apply not_elem_of_nil|exact Hrun|].
  exists a, g. by split_and!.
Defined.
