(* ===== verification/OperationData.v ===== *)
(** The operation context: enumerations, value objects, entities, events and
    exceptions ([operation/domain/value_objects], [entities], [events],
    [exceptions]). *)
From stdpp Require Import base tactics list strings.
From Stdlib Require Import ZArith Lia.
From S2P Require Import Prelude PyTypes Sha256.

Local Open Scope Z_scope.

(** ** Enumerations *)

Module OperationState.
Inductive t :=
  | PLANNING | PENDING_OPERATION_APPROVAL | APPROVED | QUEUED | RUNNING | PAUSED | COMPLETED | ABORTED | FAILED.
#[export] Instance eq_dec : EqDecision t.
Proof. solve_decision. Defined.
Definition value (x : t) : string :=
  match x with
  | PLANNING => "Planning" | PENDING_OPERATION_APPROVAL => "PendingOperationApproval" | APPROVED => "Approved"
  | QUEUED => "Queued" | RUNNING => "Running" | PAUSED => "Paused" | COMPLETED => "Completed"
  | ABORTED => "Aborted" | FAILED => "Failed"
  end.
End OperationState.
Export (hints) OperationState.

Module OperationClassification.
Inductive t :=
  | RECONNAISSANCE | INITIAL_ACCESS | EXECUTION | PERSISTENCE | PRIVILEGE_ESCALATION | DEFENSE_EVASION
  | CREDENTIAL_ACCESS | DISCOVERY | LATERAL_MOVEMENT | COLLECTION | EXFILTRATION | COMMAND_AND_CONTROL | IMPACT.
#[export] Instance eq_dec : EqDecision t.
Proof. solve_decision. Defined.
Definition value (x : t) : string :=
  match x with
  | RECONNAISSANCE => "Reconnaissance" | INITIAL_ACCESS => "InitialAccess" | EXECUTION => "Execution"
  | PERSISTENCE => "Persistence" | PRIVILEGE_ESCALATION => "PrivilegeEscalation"
  | DEFENSE_EVASION => "DefenseEvasion" | CREDENTIAL_ACCESS => "CredentialAccess" | DISCOVERY => "Discovery"
  | LATERAL_MOVEMENT => "LateralMovement" | COLLECTION => "Collection" | EXFILTRATION => "Exfiltration"
  | COMMAND_AND_CONTROL => "CommandAndControl" | IMPACT => "Impact"
  end.
End OperationClassification.
Export (hints) OperationClassification.

Module StepType.
Inductive t := ATTACK_STEP | VERIFICATION_STEP | SAFETY_CHECKPOINT | HUMAN_APPROVAL_GATE | DELAY_STEP.
#[export] Instance eq_dec : EqDecision t.
Proof. solve_decision. Defined.
Definition value (x : t) : string :=
  match x with
  | ATTACK_STEP => "AttackStep" | VERIFICATION_STEP => "VerificationStep"
  | SAFETY_CHECKPOINT => "SafetyCheckpoint" | HUMAN_APPROVAL_GATE => "HumanApprovalGate"
  | DELAY_STEP => "DelayStep"
  end.
End StepType.
Export (hints) StepType.

Module StepState.
Inductive t := PENDING | AUTHORIZED | RUNNING | COMPLETED | SKIPPED | FAILED | ABORTED.
#[export] Instance eq_dec : EqDecision t.
Proof. solve_decision. Defined.
Definition value (x : t) : string :=
  match x with
  | PENDING => "Pending" | AUTHORIZED => "Authorized" | RUNNING => "Running" | COMPLETED => "Completed"
  | SKIPPED => "Skipped" | FAILED => "Failed" | ABORTED => "Aborted"
  end.
End StepState.
Export (hints) StepState.

Module OperationRisk.
Inductive t := LOW | MEDIUM | HIGH | CRITICAL.
#[export] Instance eq_dec : EqDecision t.
Proof. solve_decision. Defined.
Definition value (x : t) : string :=
  match x with LOW => "Low" | MEDIUM => "Medium" | HIGH => "High" | CRITICAL => "Critical" end.
End OperationRisk.
Export (hints) OperationRisk.

Module ImpactCeiling.
Inductive t := OBSERVE | PROBE | EXPLOIT | DESTRUCT.
#[export] Instance eq_dec : EqDecision t.
Proof. solve_decision. Defined.
Definition value (x : t) : string :=
  match x with OBSERVE => "Observe" | PROBE => "Probe" | EXPLOIT => "Exploit" | DESTRUCT => "Destruct" end.
End ImpactCeiling.
Export (hints) ImpactCeiling.

Module ExecutionPlanVersionState.
Inductive t := DRAFT | SIGNED | SUPERSEDED | EXECUTING | EXECUTED | ARCHIVED.
#[export] Instance eq_dec : EqDecision t.
Proof. solve_decision. Defined.
Definition value (x : t) : string :=
  match x with
  | DRAFT => "Draft" | SIGNED => "Signed" | SUPERSEDED => "Superseded" | EXECUTING => "Executing"
  | EXECUTED => "Executed" | ARCHIVED => "Archived"
  end.
End ExecutionPlanVersionState.
Export (hints) ExecutionPlanVersionState.

(** ** Value objects

    [X_new] is the constructor of the class with its [__post_init__]; [None] is
    the [ValueError] it raises. *)

Record StepTechniqueRef := mkTechniqueRef { payload_id : string; technique_id : string }.

Definition StepTechniqueRef_new (payload technique : string) : option StepTechniqueRef :=
  if blank payload then None
  else if blank technique then None
  else Some (mkTechniqueRef payload technique).

(** [StepTargetRef], by the asset it refers to. *)
Definition StepTargetRef_new (asset : uuid) : option uuid := non_nil asset.

Record StepConstraints := mkStepConstraints {
  max_duration_seconds : Z; rollback_on_failure : bool; continue_on_failure : bool }.

Definition StepConstraints_new (seconds : Z) (rollback continue : bool) : option StepConstraints :=
  if seconds <=? 0 then None else Some (mkStepConstraints seconds rollback continue).

(** [StepOutputRef], by its text. *)
Definition StepOutputRef_new (evidence : string) : option string :=
  if blank evidence then None else Some evidence.

Record ExecutionWindowConstraint := mkStepWindow { allowed_days : list Z; start_hour : Z; end_hour : Z }.

Definition ExecutionWindowConstraint_new (days : list Z) (s e : Z) : option ExecutionWindowConstraint :=
  if bool_decide (days = []) then None
  else if existsb (fun day => (day <? 0) || (6 <? day)) days then None
  else if negb ((0 <=? s) && (s <=? 23)) then None
  else if negb ((1 <=? e) && (e <=? 24)) then None
  else if e <=? s then None
  else Some (mkStepWindow days s e).

(** [ExecutionWindowConstraint.window_hours] *)
Definition window_hours (w : ExecutionWindowConstraint) : Z := end_hour w - start_hour w.

Record RateLimit := mkRateLimit { max_executions : Z; window_seconds : Z }.

Definition RateLimit_new (executions seconds : Z) : option RateLimit :=
  if executions <=? 0 then None
  else if seconds <=? 0 then None
  else Some (mkRateLimit executions seconds).

Record MitreAttackRef := mkMitreRef { mitre_technique_id : string; tactic : option string }.

Definition MitreAttackRef_new (technique : string) (tac : option string) : option MitreAttackRef :=
  if blank technique then None else Some (mkMitreRef technique tac).

(** [PlanSnapshot] and [PlanHash], by their text. *)
Definition PlanSnapshot_new (text : string) : option string := if blank text then None else Some text.

Definition PlanHash_new (text : string) : option string :=
  if bool_decide (String.length text = 64%nat) then Some text else None.

(** [PlanHash.from_snapshot] *)
Definition plan_hash_of (snapshot : string) : option string := PlanHash_new (sha256_hex snapshot).

Record SignedBy := mkSignedBy { sb_operator_id : uuid; sb_signed_at : datetime; sb_signature : string }.

Definition SignedBy_new (operator : uuid) (at_ : datetime) (sig : string) : option SignedBy :=
  if operator =? 0 then None else if blank sig then None else Some (mkSignedBy operator at_ sig).

(** ** Entities *)

Record ExecutionStep := mkStep {
  step_id : uuid; step_name : string; step_type : StepType.t; step_state : StepState.t;
  constraints : StepConstraints; technique_ref : option StepTechniqueRef; target_ref : option uuid;
  impact_ceiling : option ImpactCeiling.t; modifies_persistent_state : bool; mitre_ref : option MitreAttackRef;
  rate_limit : option RateLimit; step_window : option ExecutionWindowConstraint; output_ref : option string;
  step_description : string }.

Record StepDependency := mkStepDependency { dependency_id : uuid; from_step_id : uuid; to_step_id : uuid }.

Record OperationApproval := mkOperationApproval {
  approval_id : uuid; operator_id : uuid; authority : string; signature : string; approved_at : datetime }.

Record OperationObjective := mkObjective {
  objective_id : uuid; objective_description : string; success_criteria : string; is_primary : bool }.

(** ** Exceptions and events *)

(** [ValueErr] is a [ValueError] a value object raises inside a method. *)
Inductive OperationException :=
  | InvalidArgument (field reason : string)
  | InvalidStateTransition (current attempted : string) (aggregate : uuid)
  | TenantMismatch (expected actual : TenantId)
  | CyclicDependencyError (from_step to_step : uuid)
  | PlanValidationError (reason : string)
  | PlanImmutabilityViolation (plan_version : uuid)
  | ApprovalAuthorityInsufficient (required provided : string)
  | EngagementNotActive (engagement : uuid) (state : string)
  | ConcurrentExecutingPlanError (operation : uuid)
  | ValueErr.

Inductive OperationEvent :=
  | OperationCreated (engagement_id : uuid) (classification name : string)
  | ExecutionPlanDrafted (step_count : nat)
  | ExecutionStepAdded (step : uuid) (type : string)
  | ExecutionStepRemoved (step : uuid)
  | OperationSubmittedForApproval (risk : string)
  | OperationApproved (approval : uuid) (authority : string) (operator : uuid) (approval_count : nat)
  | OperationQueued (engagement_id : uuid)
  | OperationStarted (engagement_id : uuid)
  | ExecutionStepStarted (step : uuid)
  | ExecutionStepCompleted (step : uuid)
  | ExecutionStepFailed (step : uuid) (reason : string)
  | ExecutionStepAborted (step : uuid) (reason : string)
  | HumanApprovalGateReached (step : uuid)
  | HumanApprovalGranted (step operator : uuid)
  | HumanApprovalDenied (step operator : uuid) (reason : string)
  | OperationPaused (reason : option string)
  | OperationResumed
  | OperationCompleted
  | OperationAborted (reason aborting_authority : string)
  | OperationFailed (reason : string)
  | RollbackInitiated (reason : string)
  | RollbackCompleted (success : bool).

Inductive PlanVersionEvent :=
  | ExecutionPlanVersionCreated (operation : uuid) (number : Z)
  | ExecutionPlanVersionSigned (operation : uuid) (number : Z) (plan_hash : string) (signed_by : uuid)
  | ExecutionPlanVersionSuperseded (operation : uuid) (number : Z)
  | ExecutionPlanVersionExecuting (operation : uuid) (number : Z)
  | ExecutionPlanVersionExecuted (operation : uuid) (number : Z)
  | ExecutionPlanVersionArchived (operation : uuid) (number : Z).
