(* ===== verification/PlanGraph.v ===== *)
(** Searches of a dependency graph as the operation context writes them: an
    adjacency dictionary, a stack of nodes to visit, and the recursive search
    for a cycle; with their theory. *)
From stdpp Require Import base tactics list relations.
From Stdlib Require Import ZArith Lia.
From S2P Require Import Prelude Kahn.

Section Defs.
Context {K : Type} `{EqDecision K}.
Implicit Types (E : list (K * K)) (adj : list (K * list K)).

(** [for dep in ...: adjacency.setdefault(a, []).append(b)] *)
Definition adjacency E : list (K * list K) :=
  foldl (fun d e => dmod d e.1 [] (fun l => l ++ [e.2])) [] E.

(** [while stack:] of [_would_create_cycle]; the head of the list is the top of
    the stack.  [None] when the fuel runs out. *)
Fixpoint path_loop (fuel : nat) (target : K) (stack : list K) adj (visited : list K) : option bool :=
  match stack with
  | [] => Some false
  | current :: stack =>
      match fuel with
      | O => None
      | S fuel =>
          if decide (current = target) then Some true
          else if decide (current ∈ visited) then path_loop fuel target stack adj visited
          else path_loop fuel target (rev (successors_of adj current) ++ stack) adj (visited ++ [current])
      end
  end.

(** [while stack:] of [_predecessors] and [_successors]. *)
Fixpoint closure_loop (fuel : nat) (stack : list K) adj (found : list K) : option (list K) :=
  match stack with
  | [] => Some found
  | current :: stack =>
      match fuel with
      | O => None
      | S fuel =>
          if decide (current ∈ found) then closure_loop fuel stack adj found
          else closure_loop fuel (rev (successors_of adj current) ++ stack) adj (found ++ [current])
      end
  end.

(** The nested [dfs(node)] with the sets [visited] and [in_stack]. *)
Fixpoint dfs (fuel : nat) adj (node : K) (visited in_stack : list K) : option (bool * (list K * list K)) :=
  match fuel with
  | O => None
  | S fuel =>
      let fix each (succs visited in_stack : list K) : option (bool * (list K * list K)) :=
        match succs with
        | [] => Some (false, (visited, filter (fun x => x ≠ node) in_stack))
        | nxt :: succs =>
            if decide (nxt ∉ visited) then
              match dfs fuel adj nxt visited in_stack with
              | Some (false, (visited, in_stack)) => each succs visited in_stack
              | r => r
              end
            else if decide (nxt ∈ in_stack) then Some (true, (visited, in_stack))
            else each succs visited in_stack
        end in
      each (successors_of adj node) (node :: visited) (node :: in_stack)
  end.

(** [for step_id in steps: if step_id not in visited and dfs(step_id): ...] *)
Fixpoint find_cycle_from (fuel : nat) adj (ids visited in_stack : list K) : option bool :=
  match ids with
  | [] => Some false
  | id :: ids =>
      if decide (id ∉ visited) then
        match dfs fuel adj id visited in_stack with
        | Some (false, (visited, in_stack)) => find_cycle_from fuel adj ids visited in_stack
        | Some (true, _) => Some true
        | None => None
        end
      else find_cycle_from fuel adj ids visited in_stack
  end.

(** *** Specification vocabulary *)

(** What a search from [init] has seen, and what it has still to look at. *)
Record search_inv E (init stack seen : list K) : Prop := {
  sv_sound : ∀ x, x ∈ stack ++ seen → ∃ y, y ∈ init ∧ rtc (edge E) y x;
  sv_init : ∀ x, x ∈ init → x ∈ stack ++ seen;
  sv_closed : ∀ x z, x ∈ seen → edge E x z → z ∈ stack ++ seen
}.

(** Edges whose source was not looked at. *)
Definition open_edges E (seen : list K) : nat := length (filter (fun e => e.1 ∉ seen) E).

(** The nodes that are finished have only finished successors and lie on no
    cycle. *)
Record dfs_inv E (visited in_stack : list K) : Prop := {
  di_sub : ∀ x, x ∈ in_stack → x ∈ visited;
  di_closed : ∀ b c, b ∈ visited → b ∉ in_stack → edge E b c → c ∈ visited ∧ c ∉ in_stack;
  di_acyclic : ∀ b, b ∈ visited → b ∉ in_stack → ¬ tc (edge E) b b
}.
End Defs.

Section Search.
Context {K : Type} `{EqDecision K}.
Context (E : list (K * K)).

Lemma adjacency_spec u : successors_of (adjacency E) u = succ_list E u.
Proof.
  unfold adjacency, successors_of. induction E as [|[a b] l IH] using rev_ind; [done|].
  rewrite foldl_snoc. simpl. unfold succ_list in *. rewrite filter_app, filter_cons, filter_nil, map_app. simpl.
  destruct (decide (a = u)) as [->|Hne].
  - by rewrite dget_dmod_eq, IH.
  - by rewrite dget_dmod_ne, IH, app_nil_r.
Qed.

Lemma open_edges_snoc seen u : u ∉ seen →
  (length (succ_list E u) + open_edges E (seen ++ [u]) = open_edges E seen)%nat.
Proof.
  intros Hu. unfold open_edges, succ_list. rewrite length_map. induction E as [|e l IH]; [done|].
  rewrite !filter_cons. destruct (decide (e.1 = u)) as [->|Hne].
  - rewrite (decide_False (P := u ∉ seen ++ [u])) by set_solver. rewrite (decide_True (P := u ∉ seen)) by done.
    simpl. lia.
  - destruct (decide (e.1 ∈ seen)).
    + rewrite !(decide_False (P := _ ∉ _)) by set_solver. lia.
    + rewrite !(decide_True (P := _ ∉ _)) by set_solver. simpl. lia.
Qed.

Lemma open_edges_le seen : (open_edges E seen ≤ length E)%nat.
Proof. apply length_filter. Qed.

Lemma search_inv_init init : search_inv E init init [].
Proof.
  split; [|set_solver|by intros ? ? []%not_elem_of_nil].
  intros x Hx. exists x. rewrite app_nil_r in Hx. split; [done|apply rtc_refl].
Qed.

Lemma search_inv_skip init u stack seen : u ∈ seen → search_inv E init (u :: stack) seen → search_inv E init stack seen.
Proof.
  intros Hu [Hs Hi Hc]. split.
  - intros x Hx. apply Hs. set_solver.
  - intros x Hx%Hi. set_solver.
  - intros x z Hx Hz. specialize (Hc x z Hx Hz). set_solver.
Qed.

Lemma search_inv_done init seen : search_inv E init [] seen →
  ∀ x, x ∈ seen ↔ ∃ y, y ∈ init ∧ rtc (edge E) y x.
Proof.
  intros [Hs Hi Hc] x. split; [apply Hs|]. intros (y & Hy%Hi & Hyx). simpl in *.
  induction Hyx as [y|y z x Hyz _ IH]; [done|]. apply IH. by apply (Hc y).
Qed.

Context (adj : list (K * list K)) (Hadj : ∀ u, successors_of adj u = succ_list E u).

Lemma search_inv_expand init u stack seen : search_inv E init (u :: stack) seen →
  search_inv E init (rev (successors_of adj u) ++ stack) (seen ++ [u]).
Proof.
  intros [Hs Hi Hc]. rewrite Hadj.
  assert (∀ x, x ∈ rev (succ_list E u) ↔ edge E u x) as Hrev.
  { intros x. by rewrite list_elem_of_In, <- in_rev, <- list_elem_of_In, elem_of_succ_list. }
  split.
  - intros x Hx. rewrite !elem_of_app, Hrev in Hx. destruct Hx as [[He|Hx]|[Hx|Hx]].
    + destruct (Hs u) as (y & Hy & Hyu); [left|]. exists y. split; [done|]. by eapply rtc_r.
    + apply Hs. set_solver.
    + apply Hs. set_solver.
    + apply Hs. set_solver.
  - intros x Hx%Hi. set_solver.
  - intros x z Hx Hz. rewrite !elem_of_app, Hrev. apply elem_of_app in Hx as [Hx|Hx%list_elem_of_singleton].
    + specialize (Hc x z Hx Hz). set_solver.
    + subst. by left; left.
Qed.

Lemma closure_loop_ok init fuel stack seen : search_inv E init stack seen →
  (length stack + open_edges E seen ≤ fuel)%nat →
  ∃ r, closure_loop fuel stack adj seen = Some r ∧ ∀ x, x ∈ r ↔ ∃ y, y ∈ init ∧ rtc (edge E) y x.
Proof.
  revert stack seen. induction fuel as [|fuel IH]; intros [|u stack] seen HI Hf; cbn [closure_loop]; simpl in Hf;
    try (exists seen; split; [done|by apply search_inv_done]); [lia|].
  case_decide as Hu.
  - apply IH; [by eapply search_inv_skip|lia].
  - apply IH; [by apply search_inv_expand|]. rewrite length_app, length_rev, Hadj.
    pose proof (open_edges_snoc seen u Hu). lia.
Qed.

Lemma path_loop_ok target init fuel stack seen : search_inv E init stack seen → target ∉ seen →
  (length stack + open_edges E seen ≤ fuel)%nat →
  ∃ b, path_loop fuel target stack adj seen = Some b ∧
    (b = true ↔ ∃ y, y ∈ init ∧ rtc (edge E) y target).
Proof.
  revert stack seen. induction fuel as [|fuel IH]; intros [|u stack] seen HI Ht Hf; cbn [path_loop]; simpl in Hf;
    try (exists false; split; [done|]; split; [done|]; intros Hr; by apply (search_inv_done init seen HI) in Hr); [lia|].
  case_decide as Hu; [|case_decide as Hv].
  - subst. exists true. split; [done|]. split; [|done]. intros _. apply (sv_sound _ _ _ _ HI). left.
  - apply IH; [by eapply search_inv_skip|done|lia].
  - apply IH; [by apply search_inv_expand|set_solver|]. rewrite length_app, length_rev, Hadj.
    pose proof (open_edges_snoc seen u Hv). lia.
Qed.
End Search.

Section Cycles.
Context {K : Type} `{EqDecision K}.
Context (E : list (K * K)) (adj : list (K * list K)) (Hadj : ∀ u, successors_of adj u = succ_list E u).
Context (N : list K) (HN : ∀ u v, edge E u v → v ∈ N).

(** The nodes not visited bound the depth of the recursion. *)
Definition unvisited (visited : list K) : nat := length (filter (fun x => x ∉ visited) N).

Lemma unvisited_mono V V' : V ⊆ V' → (unvisited V' ≤ unvisited V)%nat.
Proof.
  intros HV. unfold unvisited. clear HN. induction N as [|x l IH]; [done|]. rewrite !filter_cons.
  repeat case_decide; simpl; try lia. set_solver.
Qed.

Lemma unvisited_cons V u : u ∈ N → u ∉ V → (S (unvisited (u :: V)) ≤ unvisited V)%nat.
Proof.
  intros Hu HV. unfold unvisited. clear HN. induction N as [|x l IH]; [by apply not_elem_of_nil in Hu|].
  pose proof (unvisited_mono V (u :: V)) as Hmono.
  assert (length (filter (λ x, x ∉ u :: V) l) ≤ length (filter (λ x, x ∉ V) l))%nat as Hle.
  { clear -HV. induction l as [|y l IH]; [done|]. rewrite !filter_cons. repeat case_decide; simpl; try lia. set_solver. }
  rewrite !filter_cons. apply elem_of_cons in Hu as [->|Hu].
  - rewrite decide_False, decide_True by set_solver. simpl. lia.
  - specialize (IH Hu). repeat case_decide; simpl in *; try lia; set_solver.
Qed.

(** What one call of [dfs] does. *)
Definition dfs_post (V S : list K) (node : K) (r : option (bool * (list K * list K))) : Prop :=
  match r with
  | None => False
  | Some (true, _) => ∃ v, tc (edge E) v v
  | Some (false, (V', S')) => V ⊆ V' ∧ node ∈ V' ∧ (∀ x, x ∈ S' ↔ x ∈ S) ∧ dfs_inv E V' S'
  end.

(** A node whose successors are all finished is finished. *)
Lemma dfs_inv_finish (V S0 S : list K) node : node ∈ V → node ∉ S0 → (∀ x, x ∈ S ↔ x = node ∨ x ∈ S0) → dfs_inv E V S →
  (∀ c, edge E node c → c ∈ V ∧ c ∉ S) → dfs_inv E V (filter (λ x, x ≠ node) S).
Proof.
  intros HnV HnS HS [Hsub Hcl Hac] Hsucc.
  assert (∀ b c, b ∈ V → b ∉ S → rtc (edge E) b c → c ∈ V ∧ c ∉ S) as Hblack.
  { intros b c Hb HbS Hr. induction Hr as [b|b d c Hbd _ IH]; [done|]. destruct (Hcl b d Hb HbS Hbd). by apply IH. }
  split.
  - intros x [_ Hx]%list_elem_of_filter. by apply Hsub.
  - intros b c Hb HbS Hbc. assert (c ∈ V ∧ c ∉ S) as [Hc HcS].
    { destruct (decide (b = node)) as [->|Hne]; [by apply Hsucc|]. apply (Hcl b c Hb); [|done].
      intros Hin. apply HbS. by apply list_elem_of_filter. }
    split; [done|]. by intros [_ ?]%list_elem_of_filter.
  - intros b Hb HbS. destruct (decide (b = node)) as [->|Hne].
    + intros Hc. assert (∃ c, edge E node c ∧ rtc (edge E) c node) as (c & Hnc & Hcn).
      { inversion Hc as [? ? He|? y ? He Ht]; subst; [by exists node|]. exists y. split; [done|by apply tc_rtc]. }
      destruct (Hsucc c Hnc) as [HcV HcS]. destruct (Hblack c node HcV HcS Hcn) as [_ Hni]. apply Hni, HS. by left.
    + apply (Hac b Hb). intros Hin. apply HbS. by apply list_elem_of_filter.
Qed.

Lemma dfs_ok fuel node V S0 : node ∈ N → node ∉ V → dfs_inv E V S0 → (∀ s, s ∈ S0 → tc (edge E) s node) →
  (unvisited V ≤ fuel)%nat → dfs_post V S0 node (dfs fuel adj node V S0).
Proof.
  revert node V S0. induction fuel as [|fuel IH]; intros node V S0 HnN HnV HI Hreach Hf.
  { pose proof (unvisited_cons V node HnN HnV). lia. }
  pose proof (unvisited_cons V node HnN HnV) as Hlt. cbn [dfs]. rewrite Hadj.
  assert (node ∉ S0) as HnS by (intros Hin; by apply HnV, (di_sub _ _ _ HI)).
  assert (∀ c, edge E node c → c ∈ succ_list E node) as Hsucc by (intros c; by rewrite elem_of_succ_list).
  assert (∀ c, c ∈ succ_list E node → edge E node c) as Hedge by (intros c; by rewrite elem_of_succ_list).
  assert (dfs_inv E (node :: V) (node :: S0)) as HI1.
  { destruct HI as [H1 H2 H3]. split.
    - intros x [->|Hx]%elem_of_cons; [left|right; auto].
    - intros b c Hb HbS Hbc. assert (b ∈ V ∧ b ∉ S0) as [HbV HbS0] by set_solver.
      destruct (H2 b c HbV HbS0 Hbc). set_solver.
    - intros b Hb HbS. apply H3; set_solver. }
  assert (∀ x, x ∈ node :: S0 ↔ x = node ∨ x ∈ S0) as HS1 by (intros x; by rewrite elem_of_cons).
  assert (node ∈ node :: V ∧ V ⊆ node :: V) as [HnV1 HV1] by set_solver.
  assert (unvisited (node :: V) ≤ fuel)%nat as Hf1 by lia.
  assert (∀ c, edge E node c → c ∈ succ_list E node ∨ c ∈ node :: V ∧ c ∉ node :: S0) as Hdone by auto.
  revert HI1 HS1 HnV1 HV1 Hf1 Hdone Hedge. clear Hsucc. generalize (succ_list E node) as succs.
  generalize (node :: V) as V1, (node :: S0) as S1. intros V1 S1 succs. revert V1 S1.
  induction succs as [|nxt succs IHs]; intros V1 S1 HI1 HS1 HnV1 HV1 Hf1 Hdone Hedge.
  - simpl. split_and!; [done|done| |].
    + intros x. rewrite list_elem_of_filter, HS1. split; [by intros [? [?|?]]|]. intros Hx. split; [|by right].
      by intros ->.
    + apply (dfs_inv_finish V1 S0); try done. intros c Hc. destruct (Hdone c Hc) as [[]%not_elem_of_nil|?]; done.
  - assert (edge E node nxt) as Hnn by (apply Hedge; left).
    cbn beta iota. case_decide as Hv.
    + assert (∀ s, s ∈ S1 → tc (edge E) s nxt) as Hr1.
      { intros s [->|Hs]%HS1; [by apply tc_once|]. eapply tc_r; [by apply Hreach|done]. }
      pose proof (IH nxt V1 S1 (HN _ _ Hnn) Hv HI1 Hr1 Hf1) as Hpost. unfold dfs_post in Hpost.
      destruct (dfs fuel adj nxt V1 S1) as [[[] [V2 S2]]|]; [done| |done].
      destruct Hpost as (HV2 & Hnx & HS2 & HI2). apply IHs.
      * done.
      * intros x. by rewrite HS2.
      * by apply HV2.
      * set_solver.
      * pose proof (unvisited_mono V1 V2 HV2). lia.
      * intros c Hc. destruct (Hdone c Hc) as [[->|Hin]%elem_of_cons|[Hc1 Hc2]].
        -- right. split; [done|]. rewrite HS2. intros Hin. by apply Hv, (di_sub _ _ _ HI1).
        -- by left.
        -- right. split; [by apply HV2|by rewrite HS2].
      * intros c Hc. apply Hedge. by right.
    + case_decide as Hs.
      * exists node. apply HS1 in Hs as [->|Hs]; [by apply tc_once|]. eapply tc_l; [done|by apply Hreach].
      * apply IHs; try done.
        -- intros c Hc. destruct (Hdone c Hc) as [[->|Hin]%elem_of_cons|?]; [by right|by left|by right].
        -- intros c Hc. apply Hedge. by right.
Qed.

Lemma find_cycle_from_ok fuel ids V S0 : (∀ x, x ∈ ids → x ∈ N) → (∀ x, x ∉ S0) → dfs_inv E V S0 →
  (unvisited V ≤ fuel)%nat →
  ∃ b, find_cycle_from fuel adj ids V S0 = Some b ∧
    if b then ∃ v, tc (edge E) v v else ∀ v, v ∈ ids ++ V → ¬ tc (edge E) v v.
Proof.
  revert V S0. induction ids as [|id ids IH]; intros V S0 Hids HS HI Hf; simpl.
  - exists false. split; [done|]. intros v Hv. by apply (di_acyclic _ _ _ HI).
  - case_decide as Hv.
    + assert (dfs_post V S0 id (dfs fuel adj id V S0)) as Hpost.
      { apply dfs_ok; [apply Hids; left|done|done| |done]. intros s Hs. by destruct (HS s). }
      unfold dfs_post in Hpost. destruct (dfs fuel adj id V S0) as [[[] [V2 S2]]|]; [by exists true| |done].
      destruct Hpost as (HV2 & Hid & HS2 & HI2). destruct (IH V2 S2) as (b & Hb & Hspec).
      * intros x Hx. apply Hids. by right.
      * intros x. rewrite HS2. apply HS.
      * done.
      * pose proof (unvisited_mono V V2 HV2). lia.
      * exists b. split; [done|]. destruct b; [done|]. intros v Hin. apply Hspec. set_solver.
    + destruct (IH V S0) as (b & Hb & Hspec); try done.
      * intros x Hx. apply Hids. by right.
      * exists b. split; [done|]. destruct b; [done|]. intros v Hin. apply Hspec. set_solver.
Qed.
End Cycles.

(** ** The three searches *)

Section Results.
Context {K : Type} `{EqDecision K}.
Implicit Types (E : list (K * K)).

(** Enough fuel: one unit per edge and per start node, respectively per node. *)
Definition would_reach E (target start : K) : option bool :=
  path_loop (S (length E)) target [start] (adjacency E) [].

Definition closure_from E (start : K) : option (list K) :=
  let adj := adjacency E in
  closure_loop (2 * length E) (rev (successors_of adj start)) adj [].

Definition cycle_from E (ids : list K) : option bool :=
  find_cycle_from (length ids + length E) (adjacency E) ids [] [].

Lemma tc_decompose E u v : tc (edge E) u v ↔ ∃ w, edge E u w ∧ rtc (edge E) w v.
Proof.
  split.
  - inversion 1 as [? ? He|? w ? He Ht]; subst; [by exists v|]. exists w. split; [done|by apply tc_rtc].
  - intros (w & He & Hr). by eapply tc_rtc_r; [apply tc_once|].
Qed.

Lemma would_reach_ok E target start : ∃ b, would_reach E target start = Some b ∧
  (b = true ↔ rtc (edge E) start target).
Proof.
  destruct (path_loop_ok E (adjacency E) (adjacency_spec E) target [start] (S (length E)) [start] [])
    as (b & Hb & Hspec); [apply search_inv_init|apply not_elem_of_nil| |].
  - pose proof (open_edges_le E []). simpl. lia.
  - exists b. split; [done|]. rewrite Hspec. split.
    + by intros (y & ->%list_elem_of_singleton & ?).
    + intros Hr. exists start. split; [left|done].
Qed.

Lemma closure_from_ok E start : ∃ r, closure_from E start = Some r ∧ ∀ x, x ∈ r ↔ tc (edge E) start x.
Proof.
  unfold closure_from. rewrite adjacency_spec.
  assert (∀ x, x ∈ rev (succ_list E start) ↔ edge E start x) as Hrev.
  { intros x. by rewrite list_elem_of_In, <- in_rev, <- list_elem_of_In, elem_of_succ_list. }
  destruct (closure_loop_ok E (adjacency E) (adjacency_spec E) (rev (succ_list E start)) (2 * length E)
    (rev (succ_list E start)) []) as (r & Hr & Hspec); [apply search_inv_init| |].
  - rewrite length_rev. pose proof (open_edges_le E []). unfold succ_list. rewrite length_map.
    pose proof (length_filter (λ e, e.1 = start) E). lia.
  - exists r. split; [done|]. intros x. rewrite Hspec, tc_decompose. by setoid_rewrite Hrev.
Qed.

Lemma cycle_from_ok E ids : (∀ u v, edge E u v → u ∈ ids) →
  ∃ b, cycle_from E ids = Some b ∧ (b = false ↔ acyclic E).
Proof.
  intros Hids. unfold cycle_from.
  destruct (find_cycle_from_ok E (adjacency E) (adjacency_spec E) (ids ++ map snd E)) with
    (fuel := (length ids + length E)%nat) (ids := ids) (V := @nil K) (S0 := @nil K) as (b & Hb & Hspec).
  - intros u v Huv. apply elem_of_app. right. by apply (list_elem_of_fmap_2 snd _ (u, v)).
  - set_solver.
  - intros x. apply not_elem_of_nil.
  - split; [done|by intros ? ? []%not_elem_of_nil|by intros ? []%not_elem_of_nil].
  - unfold unvisited. pose proof (length_filter (λ x, x ∉ []) (ids ++ map snd E)) as Hl.
    rewrite length_app, length_map in Hl. lia.
  - exists b. split; [done|]. destruct b.
    + split; [done|]. intros Hac. destruct Hspec as (v & Hv). by apply Hac in Hv.
    + split; [|done]. intros _ v Hv. apply (Hspec v); [|done]. rewrite app_nil_r.
      apply tc_decompose in Hv as (w & He & _). by eapply Hids.
Qed.

(** The edges the other way round. *)
Definition reversed E : list (K * K) := map (fun e => (e.2, e.1)) E.

Lemma reversed_edge E u v : edge (reversed E) u v ↔ edge E v u.
Proof.
  unfold edge, reversed. rewrite list_elem_of_fmap. split.
  - by intros ([a b] & [= -> ->] & Hin).
  - intros Hin. by exists (v, u).
Qed.

Lemma reversed_tc E u v : tc (edge (reversed E)) u v ↔ tc (edge E) v u.
Proof.
  assert (∀ E u v, tc (edge (reversed E)) u v → tc (edge E) v u) as Himp.
  { intros E' a b Hab. induction Hab as [a b He|a c b He _ IH];
      apply (proj1 (reversed_edge _ _ _)) in He; [by apply tc_once|].
    eapply tc_r; [exact IH|done]. }
  split; [apply Himp|]. intros Hvu. apply Himp.
  replace (reversed (reversed E)) with E; [done|]. unfold reversed. rewrite map_map, <- (map_id E) at 1.
  apply map_ext. by intros [].
Qed.

(** A new edge closes no cycle unless its source can be reached from its
    target. *)
Lemma acyclic_snoc E u v : acyclic E → (acyclic (E ++ [(u, v)]) ↔ ¬ rtc (edge E) v u).
Proof.
  intros Hac. assert (∀ a b, edge E a b → edge (E ++ [(u, v)]) a b) as Hmono.
  { intros a b Hab. apply elem_of_app. by left. }
  split.
  - intros Hac' Hr. apply (Hac' u), tc_decompose. exists v. split.
    + apply elem_of_app. right. left.
    + revert Hr. generalize v at 1 3 as a. intros a Hr. induction Hr as [|a b c Hab _ IH]; [apply rtc_refl|].
      eapply rtc_l; [by apply Hmono|by apply IH].
  - intros Hno x Hx.
    assert (∀ a b, tc (edge (E ++ [(u, v)])) a b → tc (edge E) a b ∨ rtc (edge E) a u ∧ rtc (edge E) v b) as Hsplit.
    { intros a b Hab. induction Hab as [a b He|a c b He _ IH];
        apply elem_of_app in He as [He|He%list_elem_of_singleton]; simplify_eq.
      - left. by apply tc_once.
      - by right.
      - destruct IH as [IH|[IH1 IH2]]; [left; by eapply tc_l|right]. split; [by eapply rtc_l|done].
      - destruct IH as [IH|[IH1 IH2]]; [right; split; [done|by apply tc_rtc]|]. by right. }
    destruct (Hsplit x x Hx) as [Hx'|[H1 H2]]; [by apply (Hac x)|]. apply Hno. by etrans.
Qed.

(** A path to the source of an edge does not need the edge. *)
Lemma rtc_snoc_source E u v a : rtc (edge (E ++ [(u, v)])) a u ↔ rtc (edge E) a u.
Proof.
  split; intros Hr.
  - remember u as w eqn:Hw in Hr at 2. induction Hr as [|a b c Hab _ IH]; [by subst; apply rtc_refl|].
    apply elem_of_app in Hab as [Hab|[= -> ->]%list_elem_of_singleton]; [|apply rtc_refl].
    eapply rtc_l; [exact Hab|by apply IH].
  - induction Hr as [|a b c Hab _ IH]; [apply rtc_refl|]. eapply rtc_l; [|exact IH].
    apply elem_of_app. by left.
Qed.

Lemma acyclic_sub E E' : (∀ e, e ∈ E' → e ∈ E) → acyclic E → acyclic E'.
Proof.
  intros Hsub Hac x Hx. apply (Hac x).
  assert (∀ a b, tc (edge E') a b → tc (edge E) a b) as Himp; [|by apply Himp].
  intros a b Hab. induction Hab as [a b He|a c b He _ IH]; [apply tc_once; by apply Hsub|].
  eapply tc_l; [by apply Hsub|exact IH].
Qed.
End Results.
