(* ===== verification/OperationAggregate.v ===== *)
(** The [Operation] aggregate: planning steps and their dependencies, approval
    and lifecycle, and what holds of every operation its calls reach. *)
From stdpp Require Import base tactics list strings relations.
From Stdlib Require Import ZArith Lia.
From S2P Require Import Prelude PyTypes Kahn PlanGraph OperationData.

Local Open Scope Z_scope.
Import OperationState.

(** [str.upper()]; the characters whose upper case is not one character up to
    U+00FF stay as they are. *)
Definition upper_char (c : Ascii.ascii) : Ascii.ascii :=
  let n := Ascii.nat_of_ascii c in
  if ((97 <=? n) && (n <=? 122) || (224 <=? n) && (n <=? 254) && negb (n =? 247))%nat
  then Ascii.ascii_of_nat (n - 32) else c.
Fixpoint upper (s : string) : string :=
  match s with
  | EmptyString => EmptyString
  | String c s => String (upper_char c) (upper s)
  end.

(** [OperationRiskAssessor.assess] *)
Definition assess (steps : list ExecutionStep) : OperationRisk.t :=
  let ceilings := omap impact_ceiling steps in
  if decide (ImpactCeiling.DESTRUCT ∈ ceilings) then OperationRisk.CRITICAL
  else if decide (ImpactCeiling.EXPLOIT ∈ ceilings) then OperationRisk.HIGH
  else if decide (ImpactCeiling.PROBE ∈ ceilings) then OperationRisk.MEDIUM
  else OperationRisk.LOW.

(** ** State *)

(** [steps] is keyed by [str(step_id)], here by the id. *)
Record Operation := mkOperation {
  operation_id : uuid;
  tenant_id : TenantId;
  engagement_id : uuid;
  name : string;
  classification : OperationClassification.t;
  state : OperationState.t;
  risk : OperationRisk.t;
  steps : list (uuid * ExecutionStep);
  dependencies : list StepDependency;
  approvals : list OperationApproval;
  objectives : list OperationObjective;
  abort_reason : option string;
  created_at : datetime;
  updated_at : datetime;
  version : Z;
  pending_events : list (DomainEvent OperationEvent)
}.

#[export] Instance Operation_settable : Settable Operation := fun o =>
  mkOperation (operation_id o) (tenant_id o) (engagement_id o) (name o) (classification o) (state o) (risk o)
    (steps o) (dependencies o) (approvals o) (objectives o) (abort_reason o) (created_at o) (updated_at o)
    (version o) (pending_events o).

Abbreviation M := (PyM Operation OperationException).

Definition _CISO_AUTHORITY : string := "CISO".
Definition _CRITICAL_CISO_APPROVALS_REQUIRED : nat := 2.

Definition _ALLOWED (s : OperationState.t) : list OperationState.t :=
  match s with
  | PLANNING => [PENDING_OPERATION_APPROVAL; ABORTED]
  | PENDING_OPERATION_APPROVAL => [APPROVED; PLANNING; ABORTED]
  | APPROVED => [QUEUED; ABORTED]
  | QUEUED => [RUNNING; ABORTED; FAILED]
  | RUNNING => [PAUSED; COMPLETED; ABORTED; FAILED]
  | PAUSED => [RUNNING; ABORTED; FAILED]
  | COMPLETED | ABORTED | FAILED => []
  end.

(** The values of the dictionary, and the edges of the dependencies. *)
Definition step_values (o : Operation) : list ExecutionStep := map snd (steps o).
Definition dep_edges (o : Operation) : list (uuid * uuid) :=
  map (fun d => (from_step_id d, to_step_id d)) (dependencies o).

(** ** Helpers *)

(** [_emit], with the envelope every event of the aggregate carries. *)
Definition _emit (now : datetime) (e : OperationEvent) : M unit :=
  modify (fun o => o <| pending_events ::= fun l => l ++ [mkEvent now (tenant_id o) (operation_id o) e] |>).

Definition pop_events : M (list (DomainEvent OperationEvent)) :=
  o ← self;
  modify (fun o => o <| pending_events := [] |>);;
  mret (pending_events o).

Definition _assert_tenant (t : TenantId) : M unit :=
  o ← self;
  raise_if (bool_decide (t ≠ tenant_id o)) (TenantMismatch (tenant_id o) t).

Definition _assert_planning : M unit :=
  o ← self;
  raise_if (bool_decide (state o ≠ PLANNING))
    (InvalidStateTransition (value (state o)) "modify_plan" (operation_id o)).

Definition _mutate (now : datetime) : M unit :=
  modify (fun o => o <| updated_at := now |> <| version ::= Z.add 1 |>).

Definition _transition (to_state : OperationState.t) : M unit :=
  o ← self;
  raise_if (bool_decide (to_state ∉ _ALLOWED (state o)))
    (InvalidStateTransition (value (state o)) (value to_state) (operation_id o));;
  modify (fun o => o <| state := to_state |>).

Definition refresh_risk : M unit := modify (fun o => o <| risk := assess (step_values o) |>).

(** [_would_create_cycle]: the new edge is in the adjacency. *)
Definition _would_create_cycle (o : Operation) (from_ to_ : uuid) : option bool :=
  would_reach (dep_edges o ++ [(from_, to_)]) from_ to_.

#[global] Arguments _would_create_cycle : simpl never.

(** ** Operations *)

Definition create (t : TenantId) (engagement : uuid) (nm : string) (cl : OperationClassification.t) (now : datetime)
    (id : uuid) : result OperationException Operation :=
  if blank nm then Err (InvalidArgument "name" "must not be empty")
  else
    let aggregate := mkOperation id t engagement (strip nm) cl PLANNING OperationRisk.LOW [] [] [] [] None now now 0 [] in
    Ok (snd (_emit now (OperationCreated engagement (OperationClassification.value cl) (strip nm)) aggregate)).

Definition record_plan_drafted (t : TenantId) (now : datetime) : M unit :=
  _assert_tenant t;;
  o ← self;
  _emit now (ExecutionPlanDrafted (length (steps o))).

(** What a step is made of, apart from its id and its name. *)
Record StepSpec := mkStepSpec {
  sp_type : StepType.t; sp_constraints : StepConstraints; sp_technique : option StepTechniqueRef;
  sp_target : option uuid; sp_ceiling : option ImpactCeiling.t; sp_modifies : bool; sp_mitre : option MitreAttackRef;
  sp_rate_limit : option RateLimit; sp_window : option ExecutionWindowConstraint; sp_description : string }.

Definition step_of_spec (sid : uuid) (nm : string) (s : StepSpec) : ExecutionStep :=
  mkStep sid nm (sp_type s) StepState.PENDING (sp_constraints s) (sp_technique s) (sp_target s) (sp_ceiling s)
    (sp_modifies s) (sp_mitre s) (sp_rate_limit s) (sp_window s) None (sp_description s).

Definition add_execution_step (t : TenantId) (nm : string) (spec : StepSpec) (now : datetime) (sid : uuid) : M uuid :=
  _assert_tenant t;;
  _assert_planning;;
  raise_if (blank nm) (InvalidArgument "name" "must not be empty");;
  modify (fun o => o <| steps ::= fun d => dset d sid (step_of_spec sid (strip nm) spec) |>);;
  refresh_risk;;
  _mutate now;;
  _emit now (ExecutionStepAdded sid (StepType.value (sp_type spec)));;
  mret sid.

Definition remove_execution_step (t : TenantId) (sid : uuid) (now : datetime) : M unit :=
  _assert_tenant t;;
  _assert_planning;;
  o ← self;
  raise_if (bool_decide (sid ∉ dkeys (steps o)))
    (InvalidArgument "step_id" ("step " +:+ str_uuid sid +:+ " not found"));;
  modify (fun o => o <| steps ::= filter (fun kv => kv.1 ≠ sid) |>);;
  modify (fun o => o <| dependencies ::= filter (fun d => from_step_id d ≠ sid ∧ to_step_id d ≠ sid) |>);;
  refresh_risk;;
  _mutate now;;
  _emit now (ExecutionStepRemoved sid).

Definition add_dependency (t : TenantId) (from_ to_ : uuid) (now : datetime) (did : uuid) : M uuid :=
  _assert_tenant t;;
  _assert_planning;;
  raise_if (bool_decide (from_ = to_)) (InvalidArgument "dependency" "step cannot depend on itself");;
  o ← self;
  raise_if (bool_decide (from_ ∉ dkeys (steps o)) || bool_decide (to_ ∉ dkeys (steps o)))
    (InvalidArgument "dependency" "both steps must exist in the plan");;
  raise_if (default true (_would_create_cycle o from_ to_)) (CyclicDependencyError from_ to_);;
  modify (fun o => o <| dependencies ::= fun l => l ++ [mkStepDependency did from_ to_] |>);;
  _mutate now;;
  mret did.

(** Each description, criteria and flag comes with the fresh id of its
    objective. *)
Definition set_objectives (t : TenantId) (objs : list (uuid * (string * string * bool))) (now : datetime) : M unit :=
  _assert_tenant t;;
  _assert_planning;;
  raise_if (bool_decide (objs = [])) (InvalidArgument "objectives" "must not be empty");;
  raise_if (bool_decide (length (filter (fun x => x.2.2 = true) objs) ≠ 1%nat))
    (InvalidArgument "objectives" "exactly one primary objective required");;
  modify (fun o => o <| objectives :=
    map (fun x => mkObjective x.1 (strip x.2.1.1) (strip x.2.1.2) x.2.2) objs |>);;
  _mutate now.

Definition submit_for_approval (t : TenantId) (now : datetime) : M unit :=
  _assert_tenant t;;
  o ← self;
  raise_if (bool_decide (steps o = [])) (InvalidArgument "steps" "plan must contain at least one step");;
  refresh_risk;;
  _transition PENDING_OPERATION_APPROVAL;;
  modify (fun o => o <| approvals := [] |>);;
  _mutate now;;
  o ← self;
  _emit now (OperationSubmittedForApproval (OperationRisk.value (risk o))).

(** The operators of the approvals with CISO authority, each once. *)
Definition ciso_operators (l : list OperationApproval) : list uuid :=
  remove_dups (map operator_id (filter (fun a => upper (authority a) = _CISO_AUTHORITY) l)).

Definition approve (t : TenantId) (operator : uuid) (auth sig : string) (now : datetime) (aid : uuid) : M uuid :=
  _assert_tenant t;;
  o ← self;
  raise_if (bool_decide (state o ≠ PENDING_OPERATION_APPROVAL))
    (InvalidStateTransition (value (state o)) (value APPROVED) (operation_id o));;
  raise_if (blank auth) (InvalidArgument "authority" "must not be empty");;
  raise_if (blank sig) (InvalidArgument "signature" "must not be empty");;
  raise_if (operator =? 0) (InvalidArgument "operator_id" "must not be nil UUID");;
  raise_if (bool_decide (risk o = OperationRisk.CRITICAL) && bool_decide (upper auth ≠ _CISO_AUTHORITY))
    (ApprovalAuthorityInsufficient _CISO_AUTHORITY auth);;
  raise_if (bool_decide (operator ∈ map operator_id (approvals o)))
    (InvalidArgument "operator_id" "operator has already approved this operation");;
  modify (fun o => o <| approvals ::= fun l => l ++ [mkOperationApproval aid operator (strip auth) (strip sig) now] |>);;
  o ← self;
  let fully_approved :=
    if decide (risk o = OperationRisk.CRITICAL)
    then bool_decide (_CRITICAL_CISO_APPROVALS_REQUIRED ≤ length (ciso_operators (approvals o)))%nat
    else true in
  when fully_approved (_transition APPROVED);;
  _mutate now;;
  _emit now (OperationApproved aid (strip auth) operator (length (approvals o)));;
  mret aid.

Definition queue (t : TenantId) (engagement_is_active : bool) (engagement_state : string) (now : datetime) : M unit :=
  _assert_tenant t;;
  o ← self;
  raise_if (negb engagement_is_active) (EngagementNotActive (engagement_id o) engagement_state);;
  _transition QUEUED;;
  _mutate now;;
  _emit now (OperationQueued (engagement_id o)).

Definition start (t : TenantId) (engagement_is_active : bool) (engagement_state : string) (now : datetime) : M unit :=
  _assert_tenant t;;
  o ← self;
  raise_if (negb engagement_is_active) (EngagementNotActive (engagement_id o) engagement_state);;
  _transition RUNNING;;
  _mutate now;;
  _emit now (OperationStarted (engagement_id o)).

Definition pause (t : TenantId) (now : datetime) (reason : option string) : M unit :=
  _assert_tenant t;;
  _transition PAUSED;;
  _mutate now;;
  _emit now (OperationPaused reason).

Definition resume (t : TenantId) (now : datetime) : M unit :=
  _assert_tenant t;;
  _transition RUNNING;;
  _mutate now;;
  _emit now OperationResumed.

Definition complete (t : TenantId) (now : datetime) : M unit :=
  _assert_tenant t;;
  _transition COMPLETED;;
  _mutate now;;
  _emit now OperationCompleted.

Definition abort (t : TenantId) (reason auth : string) (now : datetime) : M unit :=
  _assert_tenant t;;
  raise_if (blank reason) (InvalidArgument "reason" "must not be empty");;
  _transition ABORTED;;
  modify (fun o => o <| abort_reason := Some (strip reason) |>);;
  _mutate now;;
  _emit now (OperationAborted (strip reason) (strip auth)).

Definition fail (t : TenantId) (reason : string) (now : datetime) : M unit :=
  _assert_tenant t;;
  raise_if (blank reason) (InvalidArgument "reason" "must not be empty");;
  _transition FAILED;;
  modify (fun o => o <| abort_reason := Some (strip reason) |>);;
  _mutate now;;
  _emit now (OperationFailed (strip reason)).

(** ** Histories *)

Inductive call :=
  | CRecordDraft (t : TenantId) (now : datetime)
  | CAddStep (t : TenantId) (nm : string) (spec : StepSpec) (now : datetime) (sid : uuid)
  | CRemoveStep (t : TenantId) (sid : uuid) (now : datetime)
  | CAddDependency (t : TenantId) (from_ to_ : uuid) (now : datetime) (did : uuid)
  | CSetObjectives (t : TenantId) (objs : list (uuid * (string * string * bool))) (now : datetime)
  | CSubmit (t : TenantId) (now : datetime)
  | CApprove (t : TenantId) (operator : uuid) (auth sig : string) (now : datetime) (aid : uuid)
  | CQueue (t : TenantId) (active : bool) (st : string) (now : datetime)
  | CStart (t : TenantId) (active : bool) (st : string) (now : datetime)
  | CPause (t : TenantId) (now : datetime) (reason : option string)
  | CResume (t : TenantId) (now : datetime)
  | CComplete (t : TenantId) (now : datetime)
  | CAbort (t : TenantId) (reason auth : string) (now : datetime)
  | CFail (t : TenantId) (reason : string) (now : datetime)
  | CPopEvents.

Definition run_call (c : call) : M unit :=
  match c with
  | CRecordDraft t now => record_plan_drafted t now
  | CAddStep t nm spec now sid => add_execution_step t nm spec now sid;; mret tt
  | CRemoveStep t sid now => remove_execution_step t sid now
  | CAddDependency t f u now did => add_dependency t f u now did;; mret tt
  | CSetObjectives t objs now => set_objectives t objs now
  | CSubmit t now => submit_for_approval t now
  | CApprove t op a s now aid => approve t op a s now aid;; mret tt
  | CQueue t b st now => queue t b st now
  | CStart t b st now => start t b st now
  | CPause t now r => pause t now r
  | CResume t now => resume t now
  | CComplete t now => complete t now
  | CAbort t r a now => abort t r a now
  | CFail t r now => fail t r now
  | CPopEvents => pop_events;; mret tt
  end.

(** Any calls in any order, with what they raise caught. *)
Definition reachable (o : Operation) : Prop :=
  ∃ t engagement nm cl now id o0 cs, create t engagement nm cl now id = Ok o0 ∧ o = run_all run_call cs o0.

(** ** Specification *)

(** The states an approved operation goes through; an operation is aborted from
    any state. *)
Definition approved_states : list OperationState.t := [APPROVED; QUEUED; RUNNING; PAUSED; COMPLETED; FAILED].

Definition is_ciso (a : OperationApproval) : Prop := upper (authority a) = _CISO_AUTHORITY.

(** What allows an operation to run: an approval, and for a critical one two
    different CISOs. *)
Record authorized (o : Operation) : Prop := {
  au_approved : approvals o ≠ [];
  au_critical : risk o = OperationRisk.CRITICAL →
    ∃ a b, a ∈ approvals o ∧ b ∈ approvals o ∧ is_ciso a ∧ is_ciso b ∧ operator_id a ≠ operator_id b
}.

Record governed (o : Operation) : Prop := {
  gv_keys : NoDup (dkeys (steps o));
  gv_ids : ∀ k s, (k, s) ∈ steps o → step_id s = k;
  gv_ends : ∀ u v, edge (dep_edges o) u v → u ∈ dkeys (steps o) ∧ v ∈ dkeys (steps o);
  gv_acyclic : acyclic (dep_edges o);
  gv_risk : risk o = assess (step_values o);
  gv_approvers : NoDup (map operator_id (approvals o));
  gv_planned : state o ∉ [PLANNING; ABORTED] → steps o ≠ [];
  gv_approved : state o ∈ approved_states → authorized o;
  gv_objectives : objectives o = [] ∨ length (filter (fun x => is_primary x = true) (objectives o)) = 1%nat;
  gv_version : 0 ≤ version o
}.

(** How one call moves the lifecycle. *)
Definition lifecycle (o o' : Operation) : Prop := state o' = state o ∨ state o' ∈ _ALLOWED (state o).

(** ** Lemmas *)

Lemma would_create_cycle_spec o u v : ∃ b, _would_create_cycle o u v = Some b ∧
  (b = true ↔ rtc (edge (dep_edges o)) v u).
Proof.
  destruct (would_reach_ok (dep_edges o ++ [(u, v)]) u v) as (b & Hb & Hspec). exists b.
  split; [done|]. by rewrite Hspec, rtc_snoc_source.
Qed.

Ltac unfold_operation :=
  unfold record_plan_drafted, add_execution_step, remove_execution_step, add_dependency, set_objectives,
    submit_for_approval, approve, queue, start, pause, resume, complete, abort, fail, pop_events, _assert_tenant,
    _assert_planning, _transition, _mutate, refresh_risk, _emit.

(** Decides what the guards on the lifecycle state say, state by state. *)
Ltac solve_state :=
  repeat match goal with
  | H : context [steps _] |- _ => clear H
  | H : context [authorized _] |- _ => clear H
  end;
  repeat match goal with H : context [state ?g] |- _ => revert H end;
  destruct (state _); by_compute.

Section Plans.
Implicit Types (o : Operation).

Lemma in_dset {K V} `{EqDecision K} (d : list (K * V)) k v x y : (x, y) ∈ dset d k v → (x, y) = (k, v) ∨ (x, y) ∈ d.
Proof.
  induction d as [|[k' v'] d IH]; simpl; [by intros ?%list_elem_of_singleton; left|].
  case_decide; rewrite !elem_of_cons; naive_solver.
Qed.

Lemma dkeys_dset_mono {K V} `{EqDecision K} (d : list (K * V)) k v x : x ∈ dkeys d → x ∈ dkeys (dset d k v).
Proof.
  intros Hx. destruct (decide (k ∈ dkeys d)).
  - by rewrite dkeys_dset_in.
  - rewrite dkeys_dset_notin by done. apply elem_of_app. by left.
Qed.

Lemma dset_not_nil {K V} `{EqDecision K} (d : list (K * V)) k v : dset d k v ≠ [].
Proof. destruct d as [|[k' v'] d]; simpl; [done|]. by case_decide. Qed.

Lemma dkeys_filter_ne {V} (d : list (uuid * V)) k :
  dkeys (filter (fun kv => kv.1 ≠ k) d) = filter (fun x => x ≠ k) (dkeys d).
Proof. unfold dkeys. induction d as [|[a v] d IH]; [done|]. simpl. rewrite !filter_cons. simpl. case_decide; simpl; by rewrite IH. Qed.

Lemma dep_edges_filter o sid :
  map (fun d => (from_step_id d, to_step_id d)) (filter (fun d => from_step_id d ≠ sid ∧ to_step_id d ≠ sid) (dependencies o)) =
  filter (fun e => e.1 ≠ sid ∧ e.2 ≠ sid) (dep_edges o).
Proof.
  unfold dep_edges. induction (dependencies o) as [|d l IH]; [done|]. simpl. rewrite !filter_cons. simpl.
  case_decide; simpl; by rewrite IH.
Qed.

(** Two different operators of CISO approvals. *)
Lemma ciso_operators_two l : (2 ≤ length (ciso_operators l))%nat →
  ∃ a b, a ∈ l ∧ b ∈ l ∧ is_ciso a ∧ is_ciso b ∧ operator_id a ≠ operator_id b.
Proof.
  unfold ciso_operators. set (f := filter _ l). intros Hl. pose proof (NoDup_remove_dups (map operator_id f)) as Hnd.
  assert (∀ x, x ∈ remove_dups (map operator_id f) → ∃ a, operator_id a = x ∧ a ∈ l ∧ is_ciso a) as Hin.
  { intros x. rewrite elem_of_remove_dups. intros (a & -> & [Ha Hal]%list_elem_of_filter)%list_elem_of_fmap. by exists a. }
  destruct (remove_dups _) as [|x [|y r]]; simpl in Hl; [lia..|].
  destruct (Hin x) as (a & <- & ? & ?); [left|]. destruct (Hin y) as (b & <- & ? & ?); [right; left|].
  exists a, b. split_and!; try done. apply NoDup_cons in Hnd as [Hx _]. intros Heq. apply Hx. rewrite Heq. left.
Qed.

End Plans.

(** Runs a method from a governed operation and discharges what only depends on
    the guards. *)
Ltac governed_run :=
  intros o Hg; unfold_operation; wp_run; try done; stable;
  destruct Hg as [Hk Hi He Ha Hr Hn Hp Hau Ho Hv]; split; simpl; try done; try lia;
  try first
    [ intros Hin; exfalso; clear -Hin; revert Hin; by_compute
    | intros Hin; exfalso; solve_state
    | intros _; apply Hp; solve_state
    | let H := fresh in intros H; destruct (Hau ltac:(solve_state)); by split ].

Lemma add_execution_step_keeps t nm spec now sid : keeps governed (add_execution_step t nm spec now sid).
Proof.
  governed_run.
  - by apply NoDup_dkeys_dset.
  - intros k s [[= -> ->]|Hin]%in_dset; [done|by apply Hi].
  - intros u v (Hu & Hw)%He. by split; apply dkeys_dset_mono.
Qed.

Lemma remove_execution_step_keeps t sid now : keeps governed (remove_execution_step t sid now).
Proof.
  governed_run.
  - rewrite dkeys_filter_ne. by apply NoDup_filter.
  - intros k s [_ Hin]%list_elem_of_filter. by apply Hi.
  - intros u v. unfold edge, dep_edges. simpl. rewrite (dep_edges_filter o), dkeys_filter_ne.
    intros [[Hu Hw] Hin]%list_elem_of_filter. apply He in Hin as [? ?]. by split; apply list_elem_of_filter.
  - unfold dep_edges. simpl. rewrite (dep_edges_filter o). eapply acyclic_sub, Ha. by intros e [_ ?]%list_elem_of_filter.
Qed.

Lemma add_dependency_keeps t f u now did : keeps governed (add_dependency t f u now did).
Proof.
  governed_run.
  - intros a b. unfold edge, dep_edges. simpl. rewrite map_app.
    intros [Hin|[= -> ->]%list_elem_of_singleton]%elem_of_app; [by apply He|done].
  - unfold dep_edges. simpl. rewrite map_app. apply acyclic_snoc; [done|]. intros Hp'.
    destruct (would_create_cycle_spec o f u) as (b & Hb & Hspec). apply Hspec in Hp'.
    match goal with H : default true _ = false |- _ => rewrite Hb in H; simpl in H end. congruence.
Qed.

Lemma set_objectives_keeps t objs now : keeps governed (set_objectives t objs now).
Proof.
  governed_run. right. match goal with H : length _ = 1%nat |- _ => rewrite <- H end. clear.
  induction objs as [|x l IH]; [done|]. simpl. rewrite !filter_cons. simpl. case_decide; simpl; by rewrite IH.
Qed.

Lemma submit_keeps t now : keeps governed (submit_for_approval t now).
Proof.
  governed_run; [|constructor].
  intros Hs. destruct (Hau Hs) as [? Hc]. split; simpl; [done|]. by rewrite <- Hr.
Qed.

Lemma approve_keeps t op a sg now aid : keeps governed (approve t op a sg now aid).
Proof.
  governed_run.
  all: try (rewrite map_app; apply NoDup_app; split_and!; [done| |apply NoDup_singleton];
    by intros x Hx ->%list_elem_of_singleton).
  - intros _. split; simpl; [by destruct (approvals o)|]. intros Hc.
    match goal with H : (if decide _ then _ else true) = true |- _ => rewrite decide_True in H by done; guards end.
    by apply ciso_operators_two.
Qed.

#[local] Hint Resolve keeps_then_unit add_execution_step_keeps remove_execution_step_keeps add_dependency_keeps
  set_objectives_keeps submit_keeps approve_keeps : py.

Lemma op_run_call_keeps c : keeps governed (run_call c).
Proof. destruct c; simpl; auto with py; governed_run. Qed.

Lemma op_create_governed t en nm cl now id o : create t en nm cl now id = Ok o → governed o.
Proof.
  unfold create. case_match; [done|]. intros [= <-].
  split; simpl; try done; try by_compute; try (intros Hs; exfalso; revert Hs; by_compute).
  - by intros k s []%not_elem_of_nil.
  - by intros u v []%not_elem_of_nil.
  - intros x (y & He & _)%tc_decompose. by apply not_elem_of_nil in He.
Qed.

Lemma op_reachable_governed o : reachable o → governed o.
Proof.
  intros (t & en & nm & cl & now & id & o0 & cs & Hc & ->). apply run_all_keeps; [apply op_run_call_keeps|].
  by eapply op_create_governed.
Qed.

(** Every call moves the lifecycle along the table, or not at all. *)
Lemma call_lifecycle c : follows run_call lifecycle c.
Proof.
  intros o. destruct c; simpl; unfold_operation; wp_run; stable; unfold lifecycle; simpl;
    first [by left|by right|left; by symmetry|idtac].
Qed.

(** A concrete history: a destructive step behind a human gate, approved by two
    CISOs and queued. *)
Definition acme : TenantId := mkEntityId 1.
Definition quick : StepConstraints := mkStepConstraints 60 true false.
Definition gate_spec : StepSpec :=
  mkStepSpec StepType.HUMAN_APPROVAL_GATE quick None None None false None None None "".
Definition attack_spec (c : ImpactCeiling.t) : StepSpec :=
  mkStepSpec StepType.ATTACK_STEP quick (Some (mkTechniqueRef "payload" "T1485")) (Some 21) (Some c) true None None None "".
Definition check_spec : StepSpec :=
  mkStepSpec StepType.VERIFICATION_STEP quick None None None false None None None "".

Definition plan_calls (c : ImpactCeiling.t) : list call :=
  [CAddStep acme "gate" gate_spec 1 11; CAddStep acme "hit" (attack_spec c) 2 12; CAddStep acme "check" check_spec 3 13;
   CAddDependency acme 11 12 4 31; CAddDependency acme 12 13 5 32].

Definition start_operation : Operation :=
  mkOperation 9 acme 5 "op" OperationClassification.IMPACT PLANNING OperationRisk.LOW [] [] [] [] None 0 0 0
    [mkEvent 0 acme 9 (OperationCreated 5 "Impact" "op")].

Definition planned (c : ImpactCeiling.t) : Operation := run_all run_call (plan_calls c) start_operation.
Definition queued : Operation :=
  run_all run_call [CSubmit acme 6; CApprove acme 1 "ciso" "s" 7 41; CApprove acme 2 "CISO" "s" 8 42;
    CQueue acme true "Active" 9] (planned ImpactCeiling.DESTRUCT).

Lemma planned_reachable c : reachable (planned c).
Proof.
  exists acme, 5, " op", OperationClassification.IMPACT, 0, 9, start_operation, (plan_calls c).
  split; [by vm_compute|done].
Qed.

Lemma reachable_calls cs o : reachable o → reachable (run_all run_call cs o).
Proof.
  intros (t & en & nm & cl & now & id & o0 & cs0 & Hc & ->).
  exists t, en, nm, cl, now, id, o0, (cs0 ++ cs). split; [done|]. unfold run_all. by rewrite foldl_app.
Qed.

(** ** Properties *)

(** Whatever calls are made on an operation, with what they raise caught: its
    dependencies join existing steps and are acyclic, its risk is that of its
    steps, no operator approves twice, and from APPROVED on it has an approval and
    steps, a critical one the approvals of two different CISOs. *)
Theorem operations_stay_governed o : reachable o → governed o.
Proof. apply op_reachable_governed. Qed.

Lemma operations_stay_governed_witness :
  state queued = QUEUED ∧ risk queued = OperationRisk.CRITICAL ∧ governed queued.
Proof.
  split_and!; [vm_compute; reflexivity|vm_compute; reflexivity|].
  apply (operations_stay_governed queued). apply reachable_calls, planned_reachable.
Defined.

(** C30. [add_dependency] refuses exactly the edges that would close a cycle: between
    two different steps of a plan it adds the edge when the dependencies stay
    acyclic with it, and raises [CyclicDependencyError], changing nothing, when
    they do not; the search always ends. *)
Theorem add_dependency_refuses_exactly_cycles o u v now did : reachable o → state o = PLANNING → u ≠ v →
  u ∈ dkeys (steps o) → v ∈ dkeys (steps o) →
  (acyclic (dep_edges o ++ [(u, v)]) →
     ∃ o', add_dependency (tenant_id o) u v now did o = (Ok did, o') ∧ dep_edges o' = dep_edges o ++ [(u, v)] ∧
           steps o' = steps o) ∧
  (¬ acyclic (dep_edges o ++ [(u, v)]) →
     add_dependency (tenant_id o) u v now did o = (Err (CyclicDependencyError u v), o)).
Proof.
  intros Hr Hs Hne Hu Hv. apply op_reachable_governed in Hr. rewrite acyclic_snoc by apply Hr.
  destruct (would_create_cycle_spec o u v) as (b & Hb & <-).
  unfold add_dependency, _assert_tenant, _assert_planning, raise_if. unfold mbind, PyM_bind, self.
  repeat (rewrite bool_decide_eq_false_2 by (first [done|intros n; by apply n]); simpl). rewrite Hb. simpl.
  destruct b; simpl.
  - split; [by intros []|done].
  - split; [|intros Hn; by destruct Hn]. intros _. eexists. split; [done|]. split; [|done]. unfold dep_edges. simpl. by rewrite map_app.
Qed.

Lemma add_dependency_refuses_exactly_cycles_witness :
  add_dependency acme 13 11 6 33 (planned ImpactCeiling.EXPLOIT) =
    (Err (CyclicDependencyError 13 11), planned ImpactCeiling.EXPLOIT).
Proof.
  assert (tenant_id (planned ImpactCeiling.EXPLOIT) = acme) as <- by (vm_compute; reflexivity).
  apply (add_dependency_refuses_exactly_cycles (planned ImpactCeiling.EXPLOIT) 13 11 6 33);
    [apply planned_reachable|vm_compute; reflexivity|done|by_compute|by_compute|].
  intros Hac. apply (Hac 11), tc_decompose. exists 12. split; [unfold edge; by_compute|].
  apply (rtc_l _ 12 13 11); [unfold edge; by_compute|]. apply (rtc_l _ 13 11 11); [unfold edge; by_compute|].
  apply rtc_refl.
Defined.

(** [resume] starts a queued operation: it moves it to RUNNING without asking
    whether its engagement is active, which [start] refuses. *)
Theorem resume_starts_unchecked o now : state o = QUEUED →
  (∃ o', resume (tenant_id o) now o = (Ok tt, o') ∧ state o' = RUNNING) ∧
  ∀ st, start (tenant_id o) false st now o = (Err (EngagementNotActive (engagement_id o) st), o).
Proof.
  intros Hs. split.
  - unfold resume, _assert_tenant, _transition, _mutate, _emit, raise_if, mbind, PyM_bind, self.
    rewrite bool_decide_eq_false_2 by (intros n; by apply n). simpl. rewrite Hs.
    rewrite bool_decide_eq_false_2 by by_compute. by eexists.
  - intros st. unfold start, _assert_tenant, raise_if, mbind, PyM_bind, self.
    by rewrite bool_decide_eq_false_2 by (by intros n; apply n).
Qed.

Lemma resume_starts_unchecked_witness :
  state queued = QUEUED ∧ ∃ o', resume acme 10 queued = (Ok tt, o') ∧ state o' = RUNNING.
Proof.
  assert (state queued = QUEUED) as Hs by (vm_compute; reflexivity). split; [exact Hs|].
  assert (tenant_id queued = acme) as <- by (vm_compute; reflexivity).
  apply (resume_starts_unchecked queued 10 Hs).
Defined.

(** The lifecycle of an operation follows its table call by call, and an
    operation that is COMPLETED, ABORTED or FAILED stays so. *)
Theorem operation_follows_lifecycle o cs :
  (∀ c, lifecycle o (run_call c o).2) ∧ (_ALLOWED (state o) = [] → state (run_all run_call cs o) = state o).
Proof.
  assert (∀ c o, lifecycle o (run_call c o).2) as Hone.
  { intros c o1. pose proof (call_lifecycle c o1) as Hc. unfold wp in Hc. by destruct (run_call c o1) as [[]]. }
  split; [done|]. revert o. induction cs as [|c cs IH]; intros o Hs; [done|].
  assert (state (run_call c o).2 = state o) as Heq.
  { destruct (Hone c o) as [Heq|Hin]; [done|]. rewrite Hs in Hin. by apply not_elem_of_nil in Hin. }
  rewrite <- Heq. apply (IH (run_call c o).2). by rewrite Heq.
Qed.

Definition aborted : Operation := (run_call (CAbort acme "stop" "soc" 10) queued).2.

Lemma operation_follows_lifecycle_witness :
  state aborted = ABORTED ∧ state (run_all run_call [CResume acme 11; CSubmit acme 12] aborted) = ABORTED.
Proof.
  assert (state aborted = ABORTED) as Hs by (vm_compute; reflexivity). split; [exact Hs|].
  destruct (operation_follows_lifecycle aborted [CResume acme 11; CSubmit acme 12]) as [_ H].
  rewrite (H ltac:(by rewrite Hs)). exact Hs.
Defined.
