(* ===== verification/PlanValidator.v ===== *)
(** [ExecutionPlanValidator]: what makes an execution plan valid, and that the
    validator decides it. *)
From stdpp Require Import base tactics list strings relations.
From Stdlib Require Import ZArith Lia.
From S2P Require Import Prelude PyTypes PyJson Kahn PlanGraph OperationData OperationAggregate.

Local Open Scope Z_scope.

(** ** The checks

    Each answers its error messages; those that search the graph answer [None]
    when the search runs out of fuel. *)

Section Checks.
Context (o : Operation).

Definition _check_targets (authorized_targets : list uuid) : list string :=
  flat_map (fun step =>
    match target_ref step with
    | None => []
    | Some asset =>
        if decide (asset ∈ authorized_targets) then []
        else ["step " +:+ str_uuid (step_id step) +:+ " target " +:+ str_uuid asset +:+ " out of scope"]
    end) (step_values o).

Definition _check_techniques (allowed_techniques : list string) : list string :=
  flat_map (fun step =>
    match technique_ref step with
    | None => []
    | Some r =>
        if decide (technique_id r ∈ allowed_techniques) then []
        else ["step " +:+ str_uuid (step_id step) +:+ " technique " +:+ technique_id r +:+ " not authorized by RoE"]
    end) (step_values o).

Definition _check_acyclic : option (list string) :=
  match cycle_from (dep_edges o) (dkeys (steps o)) with
  | None => None
  | Some true => Some ["execution plan DAG contains a cycle"]
  | Some false => Some []
  end.

Definition _predecessors (sid : uuid) : option (list uuid) := closure_from (reversed (dep_edges o)) sid.
Definition _successors (sid : uuid) : option (list uuid) := closure_from (dep_edges o) sid.

(** [any(steps[p].step_type == type for p in found if p in steps)] *)
Definition has_step_of_type (type : StepType.t) (found : list uuid) : bool :=
  existsb (fun p => match dget (steps o) p with
                    | Some s => bool_decide (step_type s = type)
                    | None => false
                    end) found.

Definition exploit_gate_errors (step : ExecutionStep) : option (list string) :=
  if decide (step_type step ≠ StepType.ATTACK_STEP) then Some []
  else if decide (impact_ceiling step ≠ Some ImpactCeiling.EXPLOIT) then Some []
  else
    preds ← _predecessors (step_id step);
    Some (if has_step_of_type StepType.HUMAN_APPROVAL_GATE preds then []
          else ["AttackStep " +:+ str_uuid (step_id step) +:+
                " with impact_ceiling=Exploit requires a preceding HumanApprovalGate"]).

Definition _check_exploit_gates : option (list string) := errors ← mapM exploit_gate_errors (step_values o); Some (concat errors).

Definition verification_errors (step : ExecutionStep) : option (list string) :=
  if decide (step_type step ≠ StepType.ATTACK_STEP) then Some []
  else if negb (modifies_persistent_state step) then Some []
  else
    succs ← _successors (step_id step);
    Some (if has_step_of_type StepType.VERIFICATION_STEP succs then []
          else ["AttackStep " +:+ str_uuid (step_id step) +:+
                " modifies persistent state and requires a following VerificationStep"]).

Definition _check_verification_after_mutate : option (list string) :=
  errors ← mapM verification_errors (step_values o); Some (concat errors).

Definition _check_rate_limits : list string :=
  flat_map (fun step =>
    match rate_limit step, step_window step with
    | Some limit, Some w =>
        (if window_hours w * 3600 <? window_seconds limit
         then ["step " +:+ str_uuid (step_id step) +:+ " rate limit window exceeds execution window"] else []) ++
        (if max_executions limit <? 1
         then ["step " +:+ str_uuid (step_id step) +:+ " rate limit max_executions < 1"] else [])
    | _, _ => []
    end) (step_values o).

Definition validation_errors (authorized_targets : list uuid) (allowed_techniques : list string) : option (list string) :=
  acyclic_errors ← _check_acyclic;
  gate_errors ← _check_exploit_gates;
  verification ← _check_verification_after_mutate;
  Some (_check_targets authorized_targets ++ _check_techniques allowed_techniques ++ acyclic_errors ++ gate_errors ++
        verification ++ _check_rate_limits).

(** [validate]; the errors are always there ([validation_errors_spec]). *)
Definition validate (authorized_targets : list uuid) (allowed_techniques : list string)
    : result OperationException unit :=
  match validation_errors authorized_targets allowed_techniques with
  | Some [] => Ok tt
  | Some errors => Err (PlanValidationError (join "; " errors))
  | None => Err (PlanValidationError "")
  end.

(** ** Specification *)

(** What a plan must satisfy before it is signed. *)
Record valid_plan (authorized_targets : list uuid) (allowed_techniques : list string) : Prop := {
  vp_targets : ∀ s a, s ∈ step_values o → target_ref s = Some a → a ∈ authorized_targets;
  vp_techniques : ∀ s r, s ∈ step_values o → technique_ref s = Some r → technique_id r ∈ allowed_techniques;
  vp_acyclic : acyclic (dep_edges o);
  vp_gates : ∀ s, s ∈ step_values o → step_type s = StepType.ATTACK_STEP →
    impact_ceiling s = Some ImpactCeiling.EXPLOIT →
    ∃ g, g ∈ step_values o ∧ step_type g = StepType.HUMAN_APPROVAL_GATE ∧
         tc (edge (dep_edges o)) (step_id g) (step_id s);
  vp_verified : ∀ s, s ∈ step_values o → step_type s = StepType.ATTACK_STEP → modifies_persistent_state s = true →
    ∃ v, v ∈ step_values o ∧ step_type v = StepType.VERIFICATION_STEP ∧
         tc (edge (dep_edges o)) (step_id s) (step_id v);
  vp_rates : ∀ s l w, s ∈ step_values o → rate_limit s = Some l → step_window s = Some w →
    window_seconds l ≤ window_hours w * 3600 ∧ 1 ≤ max_executions l
}.
End Checks.

(** ** Lemmas *)

Lemma mapM_concat_nil {A B} (f : A → option (list B)) (l : list A) : (∀ x, x ∈ l → is_Some (f x)) →
  ∃ r, mapM f l = Some r ∧ (concat r = [] ↔ ∀ x, x ∈ l → f x = Some []).
Proof.
  induction l as [|x l IH]; intros Hf.
  - exists []. split; [done|]. split; [by intros _ x []%not_elem_of_nil|done].
  - destruct (Hf x) as [y Hy]; [left|]. destruct IH as (r & Hr & Hnil); [intros z Hz; apply Hf; by right|].
    exists (y :: r). simpl. rewrite Hy, Hr. split; [done|]. simpl. rewrite app_nil, Hnil. split.
    + intros [-> Hall] z [->|Hz]%elem_of_cons; auto.
    + intros Hall. split; [|intros z Hz; apply Hall; by right]. specialize (Hall x ltac:(left)). congruence.
Qed.

Section Valid.
Context (o : Operation) (Hg : governed o).

Lemma step_of_key k s : dget (steps o) k = Some s ↔ s ∈ step_values o ∧ step_id s = k.
Proof.
  rewrite <- elem_of_dict by apply Hg. unfold step_values. rewrite list_elem_of_fmap. split.
  - intros Hin. split; [by exists (k, s)|by apply (gv_ids o Hg)].
  - intros [([k' s'] & -> & Hin) <-]. simpl. by rewrite (gv_ids o Hg k' s' Hin).
Qed.

Lemma has_step_of_type_spec type found (P : uuid → Prop) : (∀ x, x ∈ found ↔ P x) →
  (has_step_of_type o type found = true ↔ ∃ g, g ∈ step_values o ∧ step_type g = type ∧ P (step_id g)).
Proof.
  intros Hfound. unfold has_step_of_type. rewrite existsb_exists. split.
  - intros (p & Hp%list_elem_of_In & Hs). destruct (dget (steps o) p) as [g|] eqn:Hd; [|done].
    apply step_of_key in Hd as [Hin <-]. apply bool_decide_eq_true in Hs. exists g. by rewrite <- Hfound.
  - intros (g & Hin & Ht & HP). exists (step_id g). rewrite <- list_elem_of_In, Hfound. split; [done|].
    rewrite (proj2 (step_of_key _ g)) by done. by apply bool_decide_eq_true.
Qed.

Lemma exploit_gate_errors_spec s : ∃ r, exploit_gate_errors o s = Some r ∧
  (r = [] ↔ (step_type s = StepType.ATTACK_STEP → impact_ceiling s = Some ImpactCeiling.EXPLOIT →
    ∃ g, g ∈ step_values o ∧ step_type g = StepType.HUMAN_APPROVAL_GATE ∧
         tc (edge (dep_edges o)) (step_id g) (step_id s))).
Proof.
  unfold exploit_gate_errors, _predecessors. case_decide as Ht; [eexists; split; [done|]; by split|].
  case_decide as Hi; [eexists; split; [done|]; by split|].
  destruct (closure_from_ok (reversed (dep_edges o)) (step_id s)) as (preds & -> & Hpreds).
  eexists. split; [done|].
  pose proof (has_step_of_type_spec StepType.HUMAN_APPROVAL_GATE preds _ Hpreds) as Hspec.
  setoid_rewrite reversed_tc in Hspec. rewrite <- Hspec. destruct (has_step_of_type _ _ _); split; naive_solver.
Qed.

Lemma verification_errors_spec s : ∃ r, verification_errors o s = Some r ∧
  (r = [] ↔ (step_type s = StepType.ATTACK_STEP → modifies_persistent_state s = true →
    ∃ v, v ∈ step_values o ∧ step_type v = StepType.VERIFICATION_STEP ∧
         tc (edge (dep_edges o)) (step_id s) (step_id v))).
Proof.
  unfold verification_errors, _successors. case_decide as Ht; [eexists; split; [done|]; by split|].
  destruct (modifies_persistent_state s); simpl; [|eexists; split; [done|]; by split].
  destruct (closure_from_ok (dep_edges o) (step_id s)) as (succs & -> & Hsuccs). eexists. split; [done|].
  pose proof (has_step_of_type_spec StepType.VERIFICATION_STEP succs _ Hsuccs) as Hspec.
  rewrite <- Hspec. destruct (has_step_of_type _ _ _); split; naive_solver.
Qed.

Lemma check_targets_nil ts : _check_targets o ts = [] ↔
  ∀ s a, s ∈ step_values o → target_ref s = Some a → a ∈ ts.
Proof.
  unfold _check_targets. rewrite flat_map_nil. split.
  - intros Hall s a Hs Ha. specialize (Hall s Hs). rewrite Ha in Hall. by case_decide.
  - intros Hall s Hs. destruct (target_ref s) as [a|] eqn:Ha; [|done]. rewrite decide_True; [done|by eapply Hall].
Qed.

Lemma check_techniques_nil ts : _check_techniques o ts = [] ↔
  ∀ s r, s ∈ step_values o → technique_ref s = Some r → technique_id r ∈ ts.
Proof.
  unfold _check_techniques. rewrite flat_map_nil. split.
  - intros Hall s r Hs Hr. specialize (Hall s Hs). rewrite Hr in Hall. by case_decide.
  - intros Hall s Hs. destruct (technique_ref s) as [r|] eqn:Hr; [|done]. rewrite decide_True; [done|by eapply Hall].
Qed.

Lemma check_rate_limits_nil : _check_rate_limits o = [] ↔
  ∀ s l w, s ∈ step_values o → rate_limit s = Some l → step_window s = Some w →
    window_seconds l ≤ window_hours w * 3600 ∧ 1 ≤ max_executions l.
Proof.
  unfold _check_rate_limits. rewrite flat_map_nil. split.
  - intros Hall s l w Hs Hl Hw. specialize (Hall s Hs). rewrite Hl, Hw in Hall. apply app_nil in Hall as [H1 H2].
    destruct (Z.ltb_spec (window_hours w * 3600) (window_seconds l)); [done|].
    destruct (Z.ltb_spec (max_executions l) 1); [done|]. lia.
  - intros Hall s Hs. destruct (rate_limit s) as [l|] eqn:Hl, (step_window s) as [w|] eqn:Hw; try done.
    destruct (Hall s l w Hs Hl Hw). by rewrite !(proj2 (Z.ltb_ge _ _)) by lia.
Qed.

Lemma check_acyclic_spec : ∃ r, _check_acyclic o = Some r ∧ (r = [] ↔ acyclic (dep_edges o)).
Proof.
  unfold _check_acyclic. destruct (cycle_from_ok (dep_edges o) (dkeys (steps o))) as (b & -> & Hb).
  - intros u v Huv. apply (gv_ends o Hg u v Huv).
  - destruct b; eexists; (split; [done|]); by rewrite <- Hb.
Qed.

(** The searches end, and there are no errors exactly for a valid plan. *)
Lemma validation_errors_spec ts rs : ∃ errors, validation_errors o ts rs = Some errors ∧
  (errors = [] ↔ valid_plan o ts rs).
Proof.
  unfold validation_errors. destruct check_acyclic_spec as (ae & -> & Hae). simpl.
  destruct (mapM_concat_nil (exploit_gate_errors o) (step_values o)) as (ge & Hge & Hgn).
  { intros s _. by destruct (exploit_gate_errors_spec s) as (r & -> & _). }
  destruct (mapM_concat_nil (verification_errors o) (step_values o)) as (ve & Hve & Hvn).
  { intros s _. by destruct (verification_errors_spec s) as (r & -> & _). }
  unfold _check_exploit_gates, _check_verification_after_mutate. rewrite Hge, Hve. simpl. eexists. split; [done|].
  rewrite !app_nil, check_targets_nil, check_techniques_nil, check_rate_limits_nil, Hae, Hgn, Hvn. split.
  - intros (H1 & H2 & H3 & H4 & H5 & H6). split; try done; intros s Hs.
    + destruct (exploit_gate_errors_spec s) as (r & Hr & Hspec). rewrite (H4 s Hs) in Hr. apply Hspec. congruence.
    + destruct (verification_errors_spec s) as (r & Hr & Hspec). rewrite (H5 s Hs) in Hr. apply Hspec. congruence.
  - intros [H1 H2 H3 H4 H5 H6]. split_and!; try done; intros s Hs.
    + destruct (exploit_gate_errors_spec s) as (r & Hr & Hspec). rewrite Hr. f_equal. apply Hspec. by apply H4.
    + destruct (verification_errors_spec s) as (r & Hr & Hspec). rewrite Hr. f_equal. apply Hspec. by apply H5.
Qed.

Lemma validate_spec ts rs : (validate o ts rs = Ok tt ↔ valid_plan o ts rs) ∧
  (valid_plan o ts rs ∨ ∃ reason, validate o ts rs = Err (PlanValidationError reason)).
Proof.
  unfold validate. destruct (validation_errors_spec ts rs) as (errors & -> & <-).
  destruct errors; split; try done; [by left|by right; eexists].
Qed.
End Valid.

(** ** Properties *)

(** C7. [ExecutionPlanValidator.validate] decides whether a plan may be signed: on
    every operation its calls reach it returns exactly when every target is
    authorized, every technique allowed, the dependencies are acyclic, every
    exploiting attack step comes after a human approval gate and every mutating
    one before a verification step, directly or not, and the rate limits fit
    their windows; otherwise it raises [PlanValidationError]. *)
Theorem plan_validation_decides o targets techniques : reachable o →
  (validate o targets techniques = Ok tt ↔ valid_plan o targets techniques) ∧
  (valid_plan o targets techniques ∨ ∃ reason, validate o targets techniques = Err (PlanValidationError reason)).
Proof. intros Hr. by apply validate_spec, op_reachable_governed. Qed.

Lemma plan_validation_decides_witness :
  valid_plan (planned ImpactCeiling.EXPLOIT) [21] ["T1485"] ∧
  ∃ reason, validate (planned ImpactCeiling.EXPLOIT) [21] ["T1490"] = Err (PlanValidationError reason).
Proof.
  split.
  - apply (plan_validation_decides (planned ImpactCeiling.EXPLOIT) [21] ["T1485"] (planned_reachable _)).
    vm_compute. reflexivity.
  - destruct (plan_validation_decides (planned ImpactCeiling.EXPLOIT) [21] ["T1490"] (planned_reachable _))
      as [Hiff [Hv|He]]; [|exact He]. exfalso. apply Hiff in Hv.
    assert (is_ok (validate (planned ImpactCeiling.EXPLOIT) [21] ["T1490"]) = false) as Hno by (vm_compute; reflexivity).
    rewrite Hv in Hno. discriminate Hno.
Defined.

(** A destructive step needs no human approval gate: the gate check asks for
    [Exploit] only, so there is an operation with an attack step of ceiling
    [Destruct] and no gate at all whose plan is valid. *)
Theorem destructive_step_needs_no_gate : ∃ o s, reachable o ∧ s ∈ step_values o ∧
  step_type s = StepType.ATTACK_STEP ∧ impact_ceiling s = Some ImpactCeiling.DESTRUCT ∧
  Forall (fun g => step_type g ≠ StepType.HUMAN_APPROVAL_GATE) (step_values o) ∧ valid_plan o [21] ["T1485"].
Proof.
  set (cs := [CAddStep acme "hit" (attack_spec ImpactCeiling.DESTRUCT) 2 12;
    CAddStep acme "check" check_spec 3 13; CAddDependency acme 12 13 5 32]).
  set (o := run_all run_call cs start_operation).
  assert (reachable o) as Hr.
  { exists acme, 5, " op", OperationClassification.IMPACT, 0, 9, start_operation, cs. by split; [vm_compute|]. }
  exists o, (step_of_spec 12 "hit" (attack_spec ImpactCeiling.DESTRUCT)).
  split_and!; [done| |done|done| |].
  - unfold step_values. vm_compute. left.
  - by_compute.
  - apply (validate_spec o (op_reachable_governed o Hr)). by vm_compute.
Qed.
