(* ===== verification/PlanVersion.v ===== *)
(** The [ExecutionPlanVersion] aggregate: a snapshot of a plan that is signed
    once and then never changes. *)
From stdpp Require Import base tactics list strings sets.
From Stdlib Require Import ZArith Lia.
From S2P Require Import Prelude PyTypes Sha256 OperationData.

Local Open Scope Z_scope.

(** ** State *)

Record ExecutionPlanVersion := mkPlanVersion {
  plan_version_id : uuid;
  pv_tenant_id : TenantId;
  pv_operation_id : uuid;
  version_number : Z;
  snapshot : string;
  plan_hash : option string;
  signed_by : option SignedBy;
  pv_state : ExecutionPlanVersionState.t;
  pv_created_at : datetime;
  pv_updated_at : datetime;
  pv_version : Z;
  pv_pending_events : list (DomainEvent PlanVersionEvent)
}.

#[export] Instance ExecutionPlanVersion_settable : Settable ExecutionPlanVersion := fun v =>
  mkPlanVersion (plan_version_id v) (pv_tenant_id v) (pv_operation_id v) (version_number v) (snapshot v) (plan_hash v)
    (signed_by v) (pv_state v) (pv_created_at v) (pv_updated_at v) (pv_version v) (pv_pending_events v).

Module PV.
Import ExecutionPlanVersionState.

Abbreviation M := (PyM ExecutionPlanVersion OperationException).

Definition _ALLOWED (s : ExecutionPlanVersionState.t) : list ExecutionPlanVersionState.t :=
  match s with
  | DRAFT => [SIGNED; SUPERSEDED; ARCHIVED]
  | SIGNED => [EXECUTING; SUPERSEDED; ARCHIVED]
  | EXECUTING => [EXECUTED; SUPERSEDED; ARCHIVED]
  | EXECUTED => [ARCHIVED]
  | SUPERSEDED => [ARCHIVED]
  | ARCHIVED => []
  end.

(** ** Helpers *)

Definition _emit (now : datetime) (e : PlanVersionEvent) : M unit :=
  modify (fun v => v <| pv_pending_events ::= fun l => l ++ [mkEvent now (pv_tenant_id v) (plan_version_id v) e] |>).

Definition pop_events : M (list (DomainEvent PlanVersionEvent)) :=
  v ← self;
  modify (fun v => v <| pv_pending_events := [] |>);;
  mret (pv_pending_events v).

Definition _assert_tenant (t : TenantId) : M unit :=
  v ← self;
  raise_if (bool_decide (t ≠ pv_tenant_id v)) (TenantMismatch (pv_tenant_id v) t).

Definition _assert_mutable : M unit :=
  v ← self;
  raise_if (bool_decide (pv_state v ≠ DRAFT)) (PlanImmutabilityViolation (plan_version_id v)).

Definition _mutate (now : datetime) : M unit :=
  modify (fun v => v <| pv_updated_at := now |> <| pv_version ::= Z.add 1 |>).

Definition _transition (to_state : ExecutionPlanVersionState.t) : M unit :=
  v ← self;
  raise_if (bool_decide (to_state ∉ _ALLOWED (pv_state v)))
    (InvalidStateTransition (value (pv_state v)) (value to_state) (plan_version_id v));;
  modify (fun v => v <| pv_state := to_state |>).

(** ** Operations *)

Definition create_draft (t : TenantId) (operation : uuid) (number : Z) (snap : string) (now : datetime) (id : uuid)
    : result OperationException ExecutionPlanVersion :=
  if number <? 1 then Err (InvalidArgument "version_number" "must be >= 1")
  else
    let aggregate := mkPlanVersion id t operation number snap None None DRAFT now now 0 [] in
    Ok (snd (_emit now (ExecutionPlanVersionCreated operation number) aggregate)).

Definition replace_snapshot (t : TenantId) (snap : string) (now : datetime) : M unit :=
  _assert_tenant t;;
  _assert_mutable;;
  modify (fun v => v <| snapshot := snap |> <| plan_hash := None |>);;
  _mutate now.

Definition sign (t : TenantId) (operator : uuid) (sig : string) (now : datetime) : M unit :=
  _assert_tenant t;;
  v ← self;
  raise_if (bool_decide (pv_state v ≠ DRAFT))
    (InvalidStateTransition (value (pv_state v)) (value SIGNED) (plan_version_id v));;
  match plan_hash_of (snapshot v), SignedBy_new operator now sig with
  | Some hash, Some by_ =>
      modify (fun v => v <| plan_hash := Some hash |> <| signed_by := Some by_ |>);;
      _transition SIGNED;;
      _mutate now;;
      _emit now (ExecutionPlanVersionSigned (pv_operation_id v) (version_number v) hash operator)
  | _, _ => raise ValueErr
  end.

(** The methods that only move the version and announce it. *)
Definition move (to_state : ExecutionPlanVersionState.t) (event : uuid → Z → PlanVersionEvent) (t : TenantId)
    (now : datetime) : M unit :=
  _assert_tenant t;;
  _transition to_state;;
  _mutate now;;
  v ← self;
  _emit now (event (pv_operation_id v) (version_number v)).

Definition supersede : TenantId → datetime → M unit := move SUPERSEDED ExecutionPlanVersionSuperseded.
Definition mark_executing : TenantId → datetime → M unit := move EXECUTING ExecutionPlanVersionExecuting.
Definition mark_executed : TenantId → datetime → M unit := move EXECUTED ExecutionPlanVersionExecuted.
Definition archive : TenantId → datetime → M unit := move ARCHIVED ExecutionPlanVersionArchived.

(** ** Histories *)

Inductive call :=
  | CReplace (t : TenantId) (snap : string) (now : datetime)
  | CSign (t : TenantId) (operator : uuid) (sig : string) (now : datetime)
  | CSupersede (t : TenantId) (now : datetime)
  | CMarkExecuting (t : TenantId) (now : datetime)
  | CMarkExecuted (t : TenantId) (now : datetime)
  | CArchive (t : TenantId) (now : datetime)
  | CPopEvents.

Definition run_call (c : call) : M unit :=
  match c with
  | CReplace t s now => replace_snapshot t s now
  | CSign t o s now => sign t o s now
  | CSupersede t now => supersede t now
  | CMarkExecuting t now => mark_executing t now
  | CMarkExecuted t now => mark_executed t now
  | CArchive t now => archive t now
  | CPopEvents => pop_events;; mret tt
  end.

Definition reachable (v : ExecutionPlanVersion) : Prop :=
  ∃ t op n snap now id v0 cs, create_draft t op n snap now id = Ok v0 ∧ v = run_all run_call cs v0.

(** ** Specification *)

(** The states only a signed version gets to. *)
Definition in_force (s : ExecutionPlanVersionState.t) : Prop := s ∈ [SIGNED; EXECUTING; EXECUTED].

(** Unsigned, or sealed by the digest of the snapshot and a signature. *)
Record sealed (v : ExecutionPlanVersion) : Prop := {
  sl_hash : plan_hash v = None ∧ signed_by v = None ∨
    plan_hash v = Some (sha256_hex (snapshot v)) ∧ ∃ by_, signed_by v = Some by_ ∧
      SignedBy_new (sb_operator_id by_) (sb_signed_at by_) (sb_signature by_) = Some by_;
  sl_draft : pv_state v = DRAFT → signed_by v = None;
  sl_signed : in_force (pv_state v) → is_Some (signed_by v);
  sl_number : 1 ≤ version_number v
}.

(** What a signature covers, and whose it is. *)
Definition content (v : ExecutionPlanVersion) : string * option string * option SignedBy * Z * uuid * uuid * TenantId :=
  (snapshot v, plan_hash v, signed_by v, version_number v, pv_operation_id v, plan_version_id v, pv_tenant_id v).

(** Once a version is no draft, no call changes its content or makes it one. *)
Definition frozen (v v' : ExecutionPlanVersion) : Prop :=
  pv_state v ≠ DRAFT → content v' = content v ∧ pv_state v' ≠ DRAFT.

#[export] Instance frozen_preorder : PreOrder frozen.
Proof.
  split.
  - by intros v Hv.
  - intros u v w Huv Hvw Hu. destruct (Huv Hu) as [Hc Hs]. destruct (Hvw Hs) as [Hc' Hs']. split; [congruence|done].
Qed.

(** ** Lemmas *)

Ltac unfold_version :=
  unfold replace_snapshot, sign, supersede, mark_executing, mark_executed, archive, move, pop_events, _assert_tenant,
    _assert_mutable, _transition, _mutate, _emit.

Lemma plan_hash_of_digest s h : plan_hash_of s = Some h → h = sha256_hex s.
Proof. unfold plan_hash_of, PlanHash_new. case_bool_decide; [|done]. by intros [= <-]. Qed.

Lemma SignedBy_new_same o t s b : SignedBy_new o t s = Some b →
  SignedBy_new (sb_operator_id b) (sb_signed_at b) (sb_signature b) = Some b.
Proof. intros Hb. pose proof Hb as Hb'. unfold SignedBy_new in Hb'. repeat case_match; try done. by injection Hb' as <-. Qed.

(** A draft may be signed. *)
Ltac draft_signs :=
  match goal with
  | Hd : pv_state ?v = DRAFT, Hn : SIGNED ∉ _ALLOWED _ |- _ =>
      exfalso; apply Hn; simpl; rewrite Hd; by_compute
  end.

Lemma pv_call_sealed c : keeps sealed (run_call c).
Proof.
  intros v Hv. destruct c; simpl; unfold_version; wp_run; try done; stable; try draft_signs;
    destruct Hv as [Hh Hd Hs Hn]; split; simpl; try done.
  all: try (left; split; [done|]; by apply Hd).
  all: try (right; split; [f_equal; by apply plan_hash_of_digest|]; eexists; split; [done|]; by eapply SignedBy_new_same).
  all: try (intros Hin; exfalso; clear -Hin; revert Hin; by_compute).
  all: intros _; apply Hs; destruct (pv_state v); simpl in *; set_solver.
Qed.

Lemma pv_call_frozen c : follows run_call frozen c.
Proof.
  intros v. destruct c; simpl; unfold_version; wp_run; stable; intros Hd; simpl in *; try done.
Qed.

Lemma create_draft_sealed t op n snap now id v : create_draft t op n snap now id = Ok v → sealed v.
Proof.
  unfold create_draft. destruct (Z.ltb_spec n 1); [done|]. intros [= <-]. split; simpl; try done; [by left|].
  intros Hin. exfalso. revert Hin. unfold in_force. by_compute.
Qed.
End PV.
Export (hints) PV.

(** A signed version. *)
Definition plan_tenant : TenantId := mkEntityId 1.
Definition draft_version : ExecutionPlanVersion :=
  mkPlanVersion 7 plan_tenant 9 1 "{}" None None ExecutionPlanVersionState.DRAFT 0 0 0
    [mkEvent 0 plan_tenant 7 (ExecutionPlanVersionCreated 9 1)].
Definition signed_version : ExecutionPlanVersion := (PV.sign plan_tenant 3 "sig" 5 draft_version).2.

Lemma pv_reachable_sealed v : PV.reachable v → PV.sealed v.
Proof.
  intros (t & op & n & snap & now & id & v0 & cs & Hc & ->). apply run_all_keeps; [apply PV.pv_call_sealed|].
  by eapply PV.create_draft_sealed.
Qed.

(** ** Properties *)

(** A plan that left the drafts is immutable: whatever calls are made on it,
    its snapshot, hash, signature, number and identity stay; and a version that is
    signed, executing or executed carries the SHA-256 digest of its snapshot and
    the signature of an operator. *)
Theorem signed_plan_is_sealed v cs : PV.reachable v → pv_state v ≠ ExecutionPlanVersionState.DRAFT →
  PV.content (run_all PV.run_call cs v) = PV.content v ∧
  (PV.in_force (pv_state v) → plan_hash v = Some (sha256_hex (snapshot v)) ∧
     ∃ by_, signed_by v = Some by_ ∧ sb_operator_id by_ ≠ 0 ∧ blank (sb_signature by_) = false).
Proof.
  intros Hr Hd. apply pv_reachable_sealed in Hr. split.
  - by destruct (run_all_follows PV.run_call PV.frozen cs v PV.pv_call_frozen Hd).
  - intros Hf. destruct (PV.sl_signed v Hr Hf) as [b Hb].
    destruct (PV.sl_hash v Hr) as [[_ Hno]|(Hh & by_ & Hby & Hnew)]; [congruence|]. split; [done|].
    exists by_. split; [done|]. unfold SignedBy_new in Hnew.
    destruct (Z.eqb_spec (sb_operator_id by_) 0); [done|]. by destruct (blank (sb_signature by_)).
Qed.

Lemma signed_plan_is_sealed_witness :
  PV.content (run_all PV.run_call [PV.CReplace plan_tenant "{evil}" 6; PV.CMarkExecuting plan_tenant 7] signed_version) =
    PV.content signed_version ∧ plan_hash signed_version = Some (sha256_hex (snapshot signed_version)).
Proof.
  assert (PV.reachable signed_version) as Hr.
  { exists plan_tenant, 9, 1, "{}", 0, 7, draft_version, [PV.CSign plan_tenant 3 "sig" 5]. split; reflexivity. }
  assert (pv_state signed_version = ExecutionPlanVersionState.SIGNED) as Hs by (vm_compute; reflexivity).
  destruct (signed_plan_is_sealed signed_version [PV.CReplace plan_tenant "{evil}" 6; PV.CMarkExecuting plan_tenant 7] Hr)
    as [Hc Hh]; [by rewrite Hs|]. split; [exact Hc|]. apply Hh. rewrite Hs. unfold PV.in_force. by_compute.
Defined.
