(* ===== verification/OperationStore.v ===== *)
(** Persistence of operations and their execution plan versions: the JSON columns
    of a step, the six tables with their unique constraints, and the two
    repositories with their optimistic locking. *)
From stdpp Require Import base tactics list strings sorting relations.
From Stdlib Require Import ZArith Lia.
From S2P Require Import Prelude PyTypes PyParse Sha256 PyJson JsonText PyStore Kahn PlanGraph OperationData OperationAggregate PlanVersion.

Local Open Scope Z_scope.

(** ** JSON columns *)

Definition all_operation_states : list OperationState.t :=
  [OperationState.PLANNING; OperationState.PENDING_OPERATION_APPROVAL; OperationState.APPROVED; OperationState.QUEUED;
   OperationState.RUNNING; OperationState.PAUSED; OperationState.COMPLETED; OperationState.ABORTED;
   OperationState.FAILED].
Definition all_operation_classifications : list OperationClassification.t :=
  [OperationClassification.RECONNAISSANCE; OperationClassification.INITIAL_ACCESS; OperationClassification.EXECUTION;
   OperationClassification.PERSISTENCE; OperationClassification.PRIVILEGE_ESCALATION;
   OperationClassification.DEFENSE_EVASION; OperationClassification.CREDENTIAL_ACCESS;
   OperationClassification.DISCOVERY; OperationClassification.LATERAL_MOVEMENT; OperationClassification.COLLECTION;
   OperationClassification.EXFILTRATION; OperationClassification.COMMAND_AND_CONTROL; OperationClassification.IMPACT].
Definition all_risks : list OperationRisk.t :=
  [OperationRisk.LOW; OperationRisk.MEDIUM; OperationRisk.HIGH; OperationRisk.CRITICAL].
Definition all_step_types : list StepType.t :=
  [StepType.ATTACK_STEP; StepType.VERIFICATION_STEP; StepType.SAFETY_CHECKPOINT; StepType.HUMAN_APPROVAL_GATE;
   StepType.DELAY_STEP].
Definition all_step_states : list StepState.t :=
  [StepState.PENDING; StepState.AUTHORIZED; StepState.RUNNING; StepState.COMPLETED; StepState.SKIPPED;
   StepState.FAILED; StepState.ABORTED].
Definition all_step_ceilings : list ImpactCeiling.t :=
  [ImpactCeiling.OBSERVE; ImpactCeiling.PROBE; ImpactCeiling.EXPLOIT; ImpactCeiling.DESTRUCT].
Definition all_plan_states : list ExecutionPlanVersionState.t :=
  [ExecutionPlanVersionState.DRAFT; ExecutionPlanVersionState.SIGNED; ExecutionPlanVersionState.SUPERSEDED;
   ExecutionPlanVersionState.EXECUTING; ExecutionPlanVersionState.EXECUTED; ExecutionPlanVersionState.ARCHIVED].

(** The arguments [_step_to_model] gives the JSON columns, and what
    [_step_from_model] reads back. *)
Definition step_constraints_json (c : StepConstraints) : Json :=
  JObj [("max_duration_seconds", JInt (max_duration_seconds c)); ("rollback_on_failure", JBool (rollback_on_failure c));
        ("continue_on_failure", JBool (continue_on_failure c))].

(** [model.constraints_json or {}] *)
Definition step_constraints_of (j : Json) : option StepConstraints :=
  d ← to_dict j;
  seconds ← py_int (dget_default d "max_duration_seconds" (JInt 60));
  StepConstraints_new seconds (py_truthy (dget_default d "rollback_on_failure" (JBool true)))
    (py_truthy (dget_default d "continue_on_failure" (JBool false))).

Definition technique_json (r : StepTechniqueRef) : Json :=
  JObj [("payload_id", JStr (payload_id r)); ("technique_id", JStr (technique_id r))].
Definition technique_of (d : list (string * Json)) : option StepTechniqueRef :=
  match dget d "payload_id", dget d "technique_id" with
  | Some (JStr p), Some (JStr t) => StepTechniqueRef_new p t
  | _, _ => None
  end.

Definition mitre_json (r : MitreAttackRef) : Json :=
  JObj [("technique_id", JStr (mitre_technique_id r)); ("tactic", opt_str (tactic r))].
Definition mitre_of (d : list (string * Json)) : option MitreAttackRef :=
  match dget d "technique_id" with
  | Some (JStr t) => tac ← to_opt_str (dget_default d "tactic" JNull); MitreAttackRef_new t tac
  | _ => None
  end.

Definition rate_limit_json (r : RateLimit) : Json :=
  JObj [("max_executions", JInt (max_executions r)); ("window_seconds", JInt (window_seconds r))].
Definition rate_limit_of (d : list (string * Json)) : option RateLimit :=
  n ← dget d "max_executions" ≫= py_int;
  w ← dget d "window_seconds" ≫= py_int;
  RateLimit_new n w.

Definition json_int (j : Json) : option Z := match j with JInt n => Some n | _ => None end.
Definition window_json (w : ExecutionWindowConstraint) : Json :=
  JObj [("allowed_days", JArr (map JInt (allowed_days w))); ("start_hour", JInt (start_hour w));
        ("end_hour", JInt (end_hour w))].
Definition window_of (d : list (string * Json)) : option ExecutionWindowConstraint :=
  match dget d "allowed_days" with
  | Some (JArr l) =>
      days ← mapM json_int l;
      s ← dget d "start_hour" ≫= py_int;
      e ← dget d "end_hour" ≫= py_int;
      ExecutionWindowConstraint_new days s e
  | _ => None
  end.

(** [X(...) if column else None], of a nullable JSON column and of a nullable
    text column. *)
Definition of_json_column {A} (dec : list (string * Json) → option A) (j : Json) : option (option A) :=
  if negb (py_truthy j) then Some None
  else match j with JObj d => Some <$> dec d | _ => None end.
Definition of_text_column {A} (dec : string → option A) (s : option string) : option (option A) :=
  match s with
  | Some s => if empty_str s then Some None else Some <$> dec s
  | None => Some None
  end.
Definition json_column {A} (enc : A → Json) (x : option A) : Json := match x with Some a => enc a | None => JNull end.

(** ** Tables *)

(** [OperationModel] *)
Record OperationRow := mkOperationRow {
  or_id : uuid; or_tenant_id : TenantId; or_engagement_id : uuid; or_name : string; or_classification : string;
  or_state : string; or_risk : string; or_abort_reason : option string; or_created_at : datetime;
  or_updated_at : datetime; or_row_version : Z }.
#[export] Instance OperationRow_settable : Settable OperationRow := fun r =>
  mkOperationRow (or_id r) (or_tenant_id r) (or_engagement_id r) (or_name r) (or_classification r) (or_state r)
    (or_risk r) (or_abort_reason r) (or_created_at r) (or_updated_at r) (or_row_version r).

(** [ExecutionStepModel] *)
Record StepRow := mkStepRow {
  sr_id : uuid; sr_tenant_id : TenantId; sr_operation_id : uuid; sr_name : string; sr_step_type : string;
  sr_state : string; sr_impact_ceiling : option string; sr_modifies_persistent_state : bool; sr_description : string;
  sr_constraints_json : Json; sr_technique_json : Json; sr_target_asset_id : option uuid; sr_mitre_json : Json;
  sr_rate_limit_json : Json; sr_window_json : Json; sr_output_ref : option string; sr_created_at : datetime;
  sr_updated_at : datetime }.

(** [StepDependencyModel] *)
Record DependencyRow := mkDependencyRow {
  dr_id : uuid; dr_tenant_id : TenantId; dr_operation_id : uuid; dr_from_step_id : uuid; dr_to_step_id : uuid }.

(** [OperationApprovalModel] *)
Record ApprovalRow := mkApprovalRow {
  pr_id : uuid; pr_tenant_id : TenantId; pr_operation_id : uuid; pr_operator_id : uuid; pr_authority : string;
  pr_signature : string; pr_approved_at : datetime }.

(** [OperationObjectiveModel] *)
Record ObjectiveRow := mkObjectiveRow {
  jr_id : uuid; jr_tenant_id : TenantId; jr_operation_id : uuid; jr_description : string;
  jr_success_criteria : string; jr_is_primary : bool }.

(** [ExecutionPlanVersionModel] *)
Record PlanRow := mkPlanRow {
  vr_id : uuid; vr_tenant_id : TenantId; vr_operation_id : uuid; vr_version_number : Z; vr_state : string;
  vr_snapshot : string; vr_plan_hash : option string; vr_signed_by_operator_id : option uuid;
  vr_signed_at : option datetime; vr_signature : option string; vr_created_at : datetime; vr_updated_at : datetime;
  vr_row_version : Z }.
#[export] Instance PlanRow_settable : Settable PlanRow := fun r =>
  mkPlanRow (vr_id r) (vr_tenant_id r) (vr_operation_id r) (vr_version_number r) (vr_state r) (vr_snapshot r)
    (vr_plan_hash r) (vr_signed_by_operator_id r) (vr_signed_at r) (vr_signature r) (vr_created_at r)
    (vr_updated_at r) (vr_row_version r).

Record OpDb := mkOpDb {
  ob_operations : list OperationRow; ob_steps : list StepRow; ob_dependencies : list DependencyRow;
  ob_approvals : list ApprovalRow; ob_objectives : list ObjectiveRow; ob_plans : list PlanRow }.
#[export] Instance OpDb_settable : Settable OpDb := fun d =>
  mkOpDb (ob_operations d) (ob_steps d) (ob_dependencies d) (ob_approvals d) (ob_objectives d) (ob_plans d).

Definition empty_op_db : OpDb := mkOpDb [] [] [] [] [] [].

(** The columns that say whose child a row is. *)
Definition sr_key (r : StepRow) : uuid * TenantId := (sr_operation_id r, sr_tenant_id r).
Definition dr_key (r : DependencyRow) : uuid * TenantId := (dr_operation_id r, dr_tenant_id r).
Definition pr_key (r : ApprovalRow) : uuid * TenantId := (pr_operation_id r, pr_tenant_id r).
Definition jr_key (r : ObjectiveRow) : uuid * TenantId := (jr_operation_id r, jr_tenant_id r).
Definition op_key (o : Operation) : uuid * TenantId := (operation_id o, tenant_id o).

(** ** Row mappings *)

(** The row of an operation with its version. *)
Definition operation_to_row (o : Operation) : OperationRow :=
  mkOperationRow (operation_id o) (tenant_id o) (engagement_id o) (name o)
    (OperationClassification.value (classification o)) (OperationState.value (state o)) (OperationRisk.value (risk o))
    (abort_reason o) (created_at o) (updated_at o) (version o).

(** [_step_to_model] *)
Definition _step_to_model (o : Operation) (step : ExecutionStep) : StepRow :=
  mkStepRow (step_id step) (tenant_id o) (operation_id o) (step_name step) (StepType.value (step_type step))
    (StepState.value (step_state step)) (ImpactCeiling.value <$> impact_ceiling step) (modifies_persistent_state step)
    (step_description step) (step_constraints_json (constraints step)) (json_column technique_json (technique_ref step))
    (target_ref step) (json_column mitre_json (mitre_ref step)) (json_column rate_limit_json (rate_limit step))
    (json_column window_json (step_window step)) (output_ref step) (created_at o) (updated_at o).

(** [_step_from_model] *)
Definition _step_from_model (r : StepRow) : option ExecutionStep :=
  id ← non_nil (sr_id r);
  type ← of_text StepType.value all_step_types (sr_step_type r);
  st ← of_text StepState.value all_step_states (sr_state r);
  c ← step_constraints_of (sr_constraints_json r);
  technique ← of_json_column technique_of (sr_technique_json r);
  target ← match sr_target_asset_id r with Some u => Some <$> StepTargetRef_new u | None => Some None end;
  ceiling ← of_text_column (of_text ImpactCeiling.value all_step_ceilings) (sr_impact_ceiling r);
  mitre ← of_json_column mitre_of (sr_mitre_json r);
  limit ← of_json_column rate_limit_of (sr_rate_limit_json r);
  w ← of_json_column window_of (sr_window_json r);
  output ← of_text_column StepOutputRef_new (sr_output_ref r);
  Some (mkStep id (sr_name r) type st c technique target ceiling (sr_modifies_persistent_state r) mitre limit w output
          (sr_description r)).

Definition dependency_to_row (o : Operation) (d : StepDependency) : DependencyRow :=
  mkDependencyRow (dependency_id d) (tenant_id o) (operation_id o) (from_step_id d) (to_step_id d).
Definition dependency_from_row (r : DependencyRow) : option StepDependency :=
  id ← non_nil (dr_id r);
  from_ ← non_nil (dr_from_step_id r);
  to_ ← non_nil (dr_to_step_id r);
  Some (mkStepDependency id from_ to_).

Definition approval_to_row (o : Operation) (a : OperationApproval) : ApprovalRow :=
  mkApprovalRow (approval_id a) (tenant_id o) (operation_id o) (operator_id a) (authority a) (signature a) (approved_at a).
Definition approval_from_row (r : ApprovalRow) : option OperationApproval :=
  id ← non_nil (pr_id r);
  Some (mkOperationApproval id (pr_operator_id r) (pr_authority r) (pr_signature r) (pr_approved_at r)).

Definition objective_to_row (o : Operation) (x : OperationObjective) : ObjectiveRow :=
  mkObjectiveRow (objective_id x) (tenant_id o) (operation_id o) (objective_description x) (success_criteria x)
    (is_primary x).
Definition objective_from_row (r : ObjectiveRow) : option OperationObjective :=
  id ← non_nil (jr_id r);
  Some (mkObjective id (jr_description r) (jr_success_criteria r) (jr_is_primary r)).

(** [PgExecutionPlanVersionRepository._to_model] *)
Definition plan_to_row (v : ExecutionPlanVersion) : PlanRow :=
  mkPlanRow (plan_version_id v) (pv_tenant_id v) (pv_operation_id v) (version_number v)
    (ExecutionPlanVersionState.value (pv_state v)) (snapshot v) (plan_hash v) (sb_operator_id <$> signed_by v)
    (sb_signed_at <$> signed_by v) (sb_signature <$> signed_by v) (pv_created_at v) (pv_updated_at v) (pv_version v).

(** [PgExecutionPlanVersionRepository._to_domain] *)
Definition plan_from_row (r : PlanRow) : option ExecutionPlanVersion :=
  by_ ← match vr_signed_by_operator_id r, vr_signed_at r, vr_signature r with
        | Some operator, Some at_, Some sig => Some <$> SignedBy_new operator at_ sig
        | _, _, _ => Some None
        end;
  id ← non_nil (vr_id r);
  op ← non_nil (vr_operation_id r);
  snap ← PlanSnapshot_new (vr_snapshot r);
  hash ← of_text_column PlanHash_new (vr_plan_hash r);
  st ← of_text ExecutionPlanVersionState.value all_plan_states (vr_state r);
  Some (mkPlanVersion id (vr_tenant_id r) op (vr_version_number r) snap hash by_ st (vr_created_at r)
          (vr_updated_at r) (vr_row_version r) []).

(** ** PgOperationRepository *)

(** [row.tenant_id == aggregate.tenant_id.value] *)
Definition same_tenant `{!TenantColumns} (column t : TenantId) : bool := uuid_equals_ulid && bool_decide (column = t).

Definition find_operation_row (db : OpDb) (id : uuid) : option OperationRow :=
  find (fun r => bool_decide (or_id r = id)) (ob_operations db).

Definition is_operation_row (id : uuid) (t : TenantId) (r : OperationRow) : bool :=
  bool_decide (or_id r = id) && bool_decide (or_tenant_id r = t).

(** The unique constraints of the child tables: primary keys, and one row per
    edge of an operation. *)
Definition op_children_unique (db : OpDb) : bool :=
  bool_decide (NoDup (map sr_id (ob_steps db))) && bool_decide (NoDup (map dr_id (ob_dependencies db))) &&
  bool_decide (NoDup (map pr_id (ob_approvals db))) && bool_decide (NoDup (map jr_id (ob_objectives db))) &&
  bool_decide (NoDup (map (fun r => (dr_operation_id r, dr_from_step_id r, dr_to_step_id r)) (ob_dependencies db))).

(** [_replace_children] *)
Definition _replace_children (o : Operation) (db : OpDb) : result StoreError OpDb :=
  let db' := db
    <| ob_steps ::= replace_rows sr_key (op_key o) (map (_step_to_model o) (step_values o)) |>
    <| ob_dependencies ::= replace_rows dr_key (op_key o) (map (dependency_to_row o) (dependencies o)) |>
    <| ob_approvals ::= replace_rows pr_key (op_key o) (map (approval_to_row o) (approvals o)) |>
    <| ob_objectives ::= replace_rows jr_key (op_key o) (map (objective_to_row o) (objectives o)) |> in
  if op_children_unique db' then Ok db' else Err IntegrityError.

(** What an update writes; the other columns keep what the insert wrote. *)
Definition updated_operation_row (o : Operation) (r : OperationRow) : OperationRow :=
  r <| or_name := name o |> <| or_classification := OperationClassification.value (classification o) |>
    <| or_state := OperationState.value (state o) |> <| or_risk := OperationRisk.value (risk o) |>
    <| or_abort_reason := abort_reason o |> <| or_updated_at := updated_at o |> <| or_row_version := version o |>.

(** [operation.version == actual + 1 or operation.version == actual] *)
Definition accepts_version (v actual : Z) : bool := (v =? actual + 1) || (v =? actual).

(** [save]; it sets the version of the operation to that of its row. *)
Definition save_operation `{!TenantColumns} (o : Operation) (db : OpDb) : result StoreError (OpDb * Operation) :=
  match find_operation_row db (operation_id o) with
  | None =>
      let o := o <| version := 1 |> in
      match _replace_children o (db <| ob_operations ::= fun l => l ++ [operation_to_row o] |>) with
      | Ok db' => Ok (db', o)
      | Err e => Err e
      end
  | Some row =>
      let actual := or_row_version row in
      if negb (same_tenant (or_tenant_id row) (tenant_id o))
      then Err (OptimisticLockConflict (operation_id o) 0 actual)
      else if accepts_version (version o) actual then
        let o := o <| version := actual + 1 |> in
        match _replace_children o (db <| ob_operations ::= map (fun r =>
                if is_operation_row (operation_id o) (tenant_id o) r then updated_operation_row o r else r) |>) with
        | Ok db' => Ok (db', o)
        | Err e => Err e
        end
      else Err (OptimisticLockConflict (operation_id o) (version o) actual)
  end.

Section Reads.
Context `{!RowOrder} `{!TenantColumns}.

(** [_load_children] and [_to_domain]; the children are asked for with the
    [EntityId] of the tenant, not its value. *)
Definition load_operation (db : OpDb) (t : TenantId) (row : OperationRow) : result StoreError Operation :=
  if negb binds_entity_id then Err StatementError
  else
    let key := (or_id row, t) in
    decoded (
      sts ← mapM _step_from_model (child_rows sr_key key (ob_steps db));
      deps ← mapM dependency_from_row (child_rows dr_key key (ob_dependencies db));
      aps ← mapM approval_from_row (child_rows pr_key key (ob_approvals db));
      objs ← mapM objective_from_row (child_rows jr_key key (ob_objectives db));
      id ← non_nil (or_id row);
      en ← non_nil (or_engagement_id row);
      cl ← of_text OperationClassification.value all_operation_classifications (or_classification row);
      st ← of_text OperationState.value all_operation_states (or_state row);
      rk ← of_text OperationRisk.value all_risks (or_risk row);
      Some (mkOperation id (or_tenant_id row) en (or_name row) cl st rk
              (dict_of (map (fun s => (step_id s, s)) sts)) deps aps objs (or_abort_reason row) (or_created_at row)
              (or_updated_at row) (or_row_version row) [])).

(** [find_by_id] *)
Definition find_operation (id : uuid) (t : TenantId) (db : OpDb) : result StoreError (option Operation) :=
  match find (is_operation_row id t) (ob_operations db) with
  | None => Ok None
  | Some row => match load_operation db t row with Ok o => Ok (Some o) | Err e => Err e end
  end.

(** A loop that appends what each row loads as. *)
Fixpoint load_operations (db : OpDb) (t : TenantId) (rows : list OperationRow) : result StoreError (list Operation) :=
  match rows with
  | [] => Ok []
  | row :: rows =>
      match load_operation db t row with
      | Err e => Err e
      | Ok o => match load_operations db t rows with Ok l => Ok (o :: l) | Err e => Err e end
      end
  end.

(** [order_by(created_at.desc())] *)
Definition newest_first (a b : OperationRow) : Prop := or_created_at b <= or_created_at a.
#[export] Instance newest_first_dec : RelDecision newest_first.
Proof. intros a b. unfold newest_first. apply _. Defined.

(** [find_by_engagement]; a negative limit or offset is refused. *)
Definition find_by_engagement (engagement : uuid) (t : TenantId) (limit offset : Z) (db : OpDb)
    : result StoreError (list Operation) :=
  if (limit <? 0) || (offset <? 0) then Err StatementError
  else load_operations db t (take (Z.to_nat limit) (drop (Z.to_nat offset) (merge_sort newest_first
         (select_order (filter (fun r => or_tenant_id r = t ∧ or_engagement_id r = engagement) (ob_operations db)))))).
End Reads.

(** ** PgExecutionPlanVersionRepository *)

Definition find_plan_row (db : OpDb) (id : uuid) : option PlanRow :=
  find (fun r => bool_decide (vr_id r = id)) (ob_plans db).

Definition is_plan_row (id : uuid) (t : TenantId) (r : PlanRow) : bool :=
  bool_decide (vr_id r = id) && bool_decide (vr_tenant_id r = t).

(** What identifies a plan version besides its id. *)
Definition vr_number (r : PlanRow) : TenantId * uuid * Z := (vr_tenant_id r, vr_operation_id r, vr_version_number r).

(** What an update writes. *)
Definition updated_plan_row (v : ExecutionPlanVersion) (r : PlanRow) : PlanRow :=
  r <| vr_state := ExecutionPlanVersionState.value (pv_state v) |> <| vr_snapshot := snapshot v |>
    <| vr_plan_hash := plan_hash v |> <| vr_signed_by_operator_id := sb_operator_id <$> signed_by v |>
    <| vr_signed_at := sb_signed_at <$> signed_by v |> <| vr_signature := sb_signature <$> signed_by v |>
    <| vr_updated_at := pv_updated_at v |> <| vr_row_version := pv_version v |>.

(** [save] *)
Definition save_plan `{!TenantColumns} (v : ExecutionPlanVersion) (db : OpDb)
    : result StoreError (OpDb * ExecutionPlanVersion) :=
  match find_plan_row db (plan_version_id v) with
  | None =>
      let v := v <| pv_version := 1 |> in
      let row := plan_to_row v in
      if bool_decide (vr_number row ∈ map vr_number (ob_plans db)) then Err IntegrityError
      else Ok (db <| ob_plans ::= fun l => l ++ [row] |>, v)
  | Some row =>
      let actual := vr_row_version row in
      if negb (same_tenant (vr_tenant_id row) (pv_tenant_id v))
      then Err (OptimisticLockConflict (plan_version_id v) 0 actual)
      else if accepts_version (pv_version v) actual then
        let v := v <| pv_version := actual + 1 |> in
        Ok (db <| ob_plans ::= map (fun r =>
              if is_plan_row (plan_version_id v) (pv_tenant_id v) r then updated_plan_row v r else r) |>, v)
      else Err (OptimisticLockConflict (plan_version_id v) (pv_version v) actual)
  end.

(** [find_by_id] *)
Definition find_plan (id : uuid) (t : TenantId) (db : OpDb) : result StoreError (option ExecutionPlanVersion) :=
  match find (is_plan_row id t) (ob_plans db) with
  | None => Ok None
  | Some row => decoded (Some <$> plan_from_row row)
  end.

Definition is_plan_of (operation : uuid) (t : TenantId) (r : PlanRow) : Prop :=
  vr_operation_id r = operation ∧ vr_tenant_id r = t.
#[export] Instance is_plan_of_dec operation t r : Decision (is_plan_of operation t r).
Proof. unfold is_plan_of. apply _. Defined.

Definition by_number (a b : PlanRow) : Prop := vr_version_number a <= vr_version_number b.
#[export] Instance by_number_dec : RelDecision by_number.
Proof. intros a b. unfold by_number. apply _. Defined.

(** [find_by_operation] *)
Definition find_by_operation `{!RowOrder} (operation : uuid) (t : TenantId) (db : OpDb)
    : result StoreError (list ExecutionPlanVersion) :=
  decoded (mapM plan_from_row
    (merge_sort by_number (select_order (filter (is_plan_of operation t) (ob_plans db))))).

(** [find_executing_for_operation]: [scalar_one_or_none] raises on a second
    row. *)
Definition find_executing_for_operation (operation : uuid) (t : TenantId) (db : OpDb)
    : result StoreError (option ExecutionPlanVersion) :=
  match filter (fun r => is_plan_of operation t r ∧
                  vr_state r = ExecutionPlanVersionState.value ExecutionPlanVersionState.EXECUTING) (ob_plans db) with
  | [] => Ok None
  | [row] => decoded (Some <$> plan_from_row row)
  | _ :: _ :: _ => Err MultipleResultsFound
  end.

(** [next_version_number]: [coalesce(max(version_number), 0) + 1] *)
Definition next_version_number (operation : uuid) (t : TenantId) (db : OpDb) : Z :=
  match map vr_version_number (filter (is_plan_of operation t) (ob_plans db)) with
  | [] => 0
  | n :: l => foldr Z.max n l
  end + 1.

(** [column LIKE pattern] with the escape character of PostgreSQL, a backslash. *)
Fixpoint like (p s : string) {struct p} : bool :=
  match p with
  | EmptyString => empty_str s
  | String c p' =>
      if Ascii.eqb c (Ascii.ascii_of_nat 37) then
        (fix skip (s : string) : bool := like p' s || match s with String _ s' => skip s' | EmptyString => false end) s
      else
        match s with
        | EmptyString => false
        | String x s' =>
            if Ascii.eqb c (Ascii.ascii_of_nat 95) then like p' s'
            else if Ascii.eqb c (Ascii.ascii_of_nat 92) then
              match p' with String d p'' => if Ascii.eqb x d then like p'' s' else false | EmptyString => false end
            else if Ascii.eqb x c then like p' s' else false
        end
  end.

(** [p in s] of strings. *)
Fixpoint str_in (p s : string) : bool :=
  String.prefix p s || match s with String _ s' => str_in p s' | EmptyString => false end.

(** [find_referencing_payload]: [snapshot.contains(payload_id)] is
    [LIKE '%' || payload_id || '%']. *)
Definition find_referencing_payload `{!RowOrder} (t : TenantId) (payload : string) (db : OpDb)
    : result StoreError (list ExecutionPlanVersion) :=
  decoded (mapM plan_from_row (select_order (filter (fun r => vr_tenant_id r = t ∧
    like ("%" +:+ payload +:+ "%") (vr_snapshot r) = true) (ob_plans db)))).

(** ** What the constructors accept *)

Record ok_step (s : ExecutionStep) : Prop := {
  os_id : step_id s ≠ 0;
  os_constraints : StepConstraints_new (max_duration_seconds (constraints s)) (rollback_on_failure (constraints s))
                     (continue_on_failure (constraints s)) = Some (constraints s);
  os_technique : ∀ r, technique_ref s = Some r → StepTechniqueRef_new (payload_id r) (technique_id r) = Some r;
  os_target : target_ref s ≠ Some 0;
  os_mitre : ∀ r, mitre_ref s = Some r → MitreAttackRef_new (mitre_technique_id r) (tactic r) = Some r;
  os_limit : ∀ r, rate_limit s = Some r → RateLimit_new (max_executions r) (window_seconds r) = Some r;
  os_window : ∀ w, step_window s = Some w →
                ExecutionWindowConstraint_new (allowed_days w) (start_hour w) (end_hour w) = Some w;
  os_output : ∀ x, output_ref s = Some x → StepOutputRef_new x = Some x
}.

Record ok_dependency (d : StepDependency) : Prop := {
  od_id : dependency_id d ≠ 0;
  od_from : from_step_id d ≠ 0;
  od_to : to_step_id d ≠ 0
}.

Record ok_operation (o : Operation) : Prop := {
  oo_id : operation_id o ≠ 0;
  oo_engagement : engagement_id o ≠ 0;
  oo_steps : ∀ s, s ∈ step_values o → ok_step s;
  oo_dependencies : ∀ d, d ∈ dependencies o → ok_dependency d;
  oo_approvals : ∀ a, a ∈ approvals o → approval_id a ≠ 0;
  oo_objectives : ∀ x, x ∈ objectives o → objective_id x ≠ 0
}.

Record ok_plan (v : ExecutionPlanVersion) : Prop := {
  ov_id : plan_version_id v ≠ 0;
  ov_operation : pv_operation_id v ≠ 0;
  ov_snapshot : PlanSnapshot_new (snapshot v) = Some (snapshot v);
  ov_sealed : PV.sealed v
}.

(** The same operation as far as the tables tell: its parts in any order, and
    no pending events. *)
Record same_operation (a b : Operation) : Prop := {
  so_fields : (operation_id a, tenant_id a, engagement_id a, name a, classification a, state a, risk a,
               (abort_reason a, created_at a, updated_at a, version a)) =
              (operation_id b, tenant_id b, engagement_id b, name b, classification b, state b, risk b,
               (abort_reason b, created_at b, updated_at b, version b));
  so_steps : steps a ≡ₚ steps b;
  so_dependencies : dependencies a ≡ₚ dependencies b;
  so_approvals : approvals a ≡ₚ approvals b;
  so_objectives : objectives a ≡ₚ objectives b
}.

#[export] Instance same_operation_equivalence : Equivalence same_operation.
Proof.
  split.
  - intros o. by split.
  - intros a b [Hf H1 H2 H3 H4]. by split.
  - intros a b c [Hf H1 H2 H3 H4] [Hf' H1' H2' H3' H4'].
    split; [by rewrite Hf|by rewrite H1|by rewrite H2|by rewrite H3|by rewrite H4].
Qed.

(** Primary keys, and the number of a plan version. *)
Record op_keys (db : OpDb) : Prop := {
  ok_operations : NoDup (map or_id (ob_operations db));
  ok_plans : NoDup (map vr_id (ob_plans db));
  ok_numbers : NoDup (map vr_number (ob_plans db))
}.

(** The rows of an operation. *)
Record op_holds (db : OpDb) (o : Operation) : Prop := {
  oh_row : operation_to_row o ∈ ob_operations db;
  oh_steps : has_rows sr_key (op_key o) (ob_steps db) (map (_step_to_model o) (step_values o));
  oh_dependencies : has_rows dr_key (op_key o) (ob_dependencies db) (map (dependency_to_row o) (dependencies o));
  oh_approvals : has_rows pr_key (op_key o) (ob_approvals db) (map (approval_to_row o) (approvals o));
  oh_objectives : has_rows jr_key (op_key o) (ob_objectives db) (map (objective_to_row o) (objectives o))
}.

(** ** Lemmas *)

(** *** Codecs *)

Ltac of_text_value := intros []; by vm_compute.
Lemma of_text_operation_state x : of_text OperationState.value all_operation_states (OperationState.value x) = Some x.
Proof. revert x. of_text_value. Qed.
Lemma of_text_operation_classification x :
  of_text OperationClassification.value all_operation_classifications (OperationClassification.value x) = Some x.
Proof. revert x. of_text_value. Qed.
Lemma of_text_risk x : of_text OperationRisk.value all_risks (OperationRisk.value x) = Some x.
Proof. revert x. of_text_value. Qed.
Lemma of_text_step_type x : of_text StepType.value all_step_types (StepType.value x) = Some x.
Proof. revert x. of_text_value. Qed.
Lemma of_text_step_state x : of_text StepState.value all_step_states (StepState.value x) = Some x.
Proof. revert x. of_text_value. Qed.
Lemma of_text_step_ceiling x : of_text ImpactCeiling.value all_step_ceilings (ImpactCeiling.value x) = Some x.
Proof. revert x. of_text_value. Qed.
Lemma of_text_plan_state x :
  of_text ExecutionPlanVersionState.value all_plan_states (ExecutionPlanVersionState.value x) = Some x.
Proof. revert x. of_text_value. Qed.

Lemma json_column_round {A} (enc : A → Json) dec x :
  (∀ a, x = Some a → ∃ kv d, enc a = JObj (kv :: d) ∧ dec (kv :: d) = Some a) →
  of_json_column dec (json_column enc x) = Some x.
Proof. intros Hx. destruct x as [a|]; [|done]. destruct (Hx a eq_refl) as (kv & d & Henc & Hdec). simpl. rewrite Henc. unfold of_json_column. simpl. by rewrite Hdec. Qed.

Lemma text_column_round {A} (dec : string → option A) (enc : A → string) x :
  (∀ a, x = Some a → dec (enc a) = Some a ∧ enc a ≠ "") → of_text_column dec (enc <$> x) = Some x.
Proof.
  intros Hx. destruct x as [a|]; [|done]. destruct (Hx a eq_refl) as [Hdec Hne]. unfold of_text_column. simpl.
  unfold empty_str. rewrite bool_decide_eq_false_2 by done. by rewrite Hdec.
Qed.

Lemma blank_empty : blank "" = true.
Proof. done. Qed.

Lemma step_constraints_round c : StepConstraints_new (max_duration_seconds c) (rollback_on_failure c)
    (continue_on_failure c) = Some c → step_constraints_of (step_constraints_json c) = Some c.
Proof. intros Hc. unfold step_constraints_of, step_constraints_json. rewrite dict_round. simpl. json_fields. exact Hc. Qed.

Lemma json_ints l : mapM json_int (map JInt l) = Some l.
Proof. apply mapM_Some_2. induction l as [|x l IH]; constructor; done. Qed.

Lemma step_round o s : ok_step s → _step_from_model (_step_to_model o s) = Some s.
Proof.
  intros [Hid Hc Ht Htg Hm Hl Hw Ho]. unfold _step_from_model, _step_to_model.
  cbn [sr_id sr_step_type sr_state sr_constraints_json sr_technique_json sr_target_asset_id sr_impact_ceiling
    sr_mitre_json sr_rate_limit_json sr_window_json sr_output_ref].
  rewrite non_nil_ok by done. cbn [mbind option_bind]. rewrite of_text_step_type. cbn [mbind option_bind].
  rewrite of_text_step_state. cbn [mbind option_bind]. rewrite step_constraints_round by done. cbn [mbind option_bind].
  rewrite (json_column_round technique_json); [cbn [mbind option_bind]|
    intros r Hr; do 2 eexists; split; [done|]; unfold technique_of; json_fields; by apply Ht].
  assert (match target_ref s with Some u => Some <$> StepTargetRef_new u | None => Some None end = Some (target_ref s)) as ->.
  { destruct (target_ref s) as [u|]; [|done]. unfold StepTargetRef_new. rewrite non_nil_ok; [done|by intros ->]. }
  cbn [mbind option_bind].
  rewrite text_column_round; [cbn [mbind option_bind]|intros c _; split; [apply of_text_step_ceiling|by destruct c]].
  rewrite (json_column_round mitre_json); [cbn [mbind option_bind]|
    intros r Hr; do 2 eexists; split; [done|]; unfold mitre_of; json_fields; rewrite opt_str_round; by apply Hm].
  rewrite (json_column_round rate_limit_json); [cbn [mbind option_bind]|
    intros r Hr; do 2 eexists; split; [done|]; unfold rate_limit_of; json_fields; by apply Hl].
  rewrite (json_column_round window_json); [cbn [mbind option_bind]|
    intros r Hr; do 2 eexists; split; [done|]; unfold window_of; json_fields; rewrite json_ints; cbn [mbind option_bind];
    by apply Hw].
  assert (of_text_column StepOutputRef_new (output_ref s) = Some (output_ref s)) as ->; [|by destruct s].
  rewrite <- (option_fmap_id (output_ref s)) at 1. apply text_column_round. intros x Hx. unfold id.
  split; [by apply Ho|]. intros ->. by specialize (Ho _ Hx).
Qed.

Lemma dependency_round o d : ok_dependency d → dependency_from_row (dependency_to_row o d) = Some d.
Proof. intros [? ? ?]. unfold dependency_from_row. simpl. rewrite !non_nil_ok by done. by destruct d. Qed.
Lemma op_approval_round o a : approval_id a ≠ 0 → approval_from_row (approval_to_row o a) = Some a.
Proof. intros ?. unfold approval_from_row. simpl. rewrite non_nil_ok by done. by destruct a. Qed.
Lemma objective_round o x : objective_id x ≠ 0 → objective_from_row (objective_to_row o x) = Some x.
Proof. intros ?. unfold objective_from_row. simpl. rewrite non_nil_ok by done. by destruct x. Qed.

(** A plan version is read as it was written. *)
Lemma plan_round v : ok_plan v → plan_from_row (plan_to_row v) = Some (v <| pv_pending_events := [] |>).
Proof.
  intros [Hid Hop Hsnap [Hh _ _ _]]. unfold plan_from_row, plan_to_row.
  cbn [vr_id vr_operation_id vr_snapshot vr_plan_hash vr_state vr_signed_by_operator_id vr_signed_at vr_signature].
  assert (match sb_operator_id <$> signed_by v, sb_signed_at <$> signed_by v, sb_signature <$> signed_by v with
    | Some operator, Some at_, Some sig => Some <$> SignedBy_new operator at_ sig | _, _, _ => Some None end =
    Some (signed_by v)) as ->.
  { destruct Hh as [[_ ->]|(_ & b & -> & Hb)]; [done|]. simpl. by rewrite Hb. }
  cbn [mbind option_bind]. rewrite !non_nil_ok by done. cbn [mbind option_bind]. rewrite Hsnap. cbn [mbind option_bind].
  assert (of_text_column PlanHash_new (plan_hash v) = Some (plan_hash v)) as ->.
  { destruct Hh as [[-> _]|(-> & _)]; [done|]. unfold of_text_column, empty_str, PlanHash_new.
    pose proof (sha256_hex_length (snapshot v)) as Hl. rewrite bool_decide_eq_false_2 by (intros Heq; by rewrite Heq in Hl).
    by rewrite bool_decide_eq_true_2. }
  cbn [mbind option_bind]. rewrite of_text_plan_state. by destruct v.
Qed.

(** *** Copies of an operation *)

Lemma assess_perm l l' : l ≡ₚ l' → assess l = assess l'.
Proof.
  intros Hp. unfold assess.
  assert (∀ c, c ∈ omap impact_ceiling l ↔ c ∈ omap impact_ceiling l') as Hin by (intros c; by rewrite Hp).
  pose proof (Hin ImpactCeiling.DESTRUCT). pose proof (Hin ImpactCeiling.EXPLOIT). pose proof (Hin ImpactCeiling.PROBE).
  clear Hin. repeat case_decide; tauto.
Qed.

Lemma same_op_governed a b : same_operation a b → governed b → governed a.
Proof.
  intros [Hf Hs Hd Ha Ho] [Hk Hi He Hac Hr Hn Hp Hau Hob Hv].
  assert (step_values a ≡ₚ step_values b) as Hsv by (unfold step_values; by rewrite Hs).
  assert (dep_edges a ≡ₚ dep_edges b) as Hde by (unfold dep_edges; by rewrite Hd).
  assert (∀ x, x ∈ dkeys (steps a) ↔ x ∈ dkeys (steps b)) as Hke by (intros x; unfold dkeys; by rewrite Hs).
  injection Hf as Hid Ht Hen Hnm Hcl Hst Hrk Hab Hcr Hup Hve. split.
  - unfold dkeys. by rewrite Hs.
  - intros k s. rewrite Hs. apply Hi.
  - intros u v. unfold edge. rewrite Hde, !Hke. apply He.
  - apply (acyclic_sub (dep_edges b)); [|done]. intros e. by rewrite Hde.
  - by rewrite Hrk, (assess_perm _ _ Hsv).
  - by rewrite Ha.
  - rewrite Hst. intros Hin Hnil. apply (Hp Hin). rewrite Hnil in Hs. by apply Permutation_nil_l in Hs.
  - rewrite Hst. intros Hin. destruct (Hau Hin) as [Hne Hc]. split.
    + intros Hnil. apply Hne. rewrite Hnil in Ha. by apply Permutation_nil_l in Ha.
    + rewrite Hrk. intros Hcrit. destruct (Hc Hcrit) as (x & y & Hx & Hy & ?). exists x, y. by rewrite !Ha.
  - destruct Hob as [Hob|Hob]; [left; rewrite Hob in Ho; by apply Permutation_nil_r in Ho|right; by rewrite Ho].
  - by rewrite Hve.
Qed.

Lemma same_op_ok a b : same_operation a b → ok_operation b → ok_operation a.
Proof.
  intros [Hf Hs Hd Ha Ho] [H1 H2 H3 H4 H5 H6]. injection Hf as Hid Ht Hen Hnm Hcl Hst Hrk Hab Hcr Hup Hve.
  split; try congruence; intros x; [unfold step_values; rewrite Hs|rewrite Hd|rewrite Ha|rewrite Ho]; auto.
Qed.

(** *** Tables *)

Section StoreLemmas.
Context `{!RowOrder} `{!TenantColumns}.

Lemma find_operation_row_some db id row : find_operation_row db id = Some row → row ∈ ob_operations db ∧ or_id row = id.
Proof. unfold find_operation_row. intros [Hin Hb]%find_some. apply list_elem_of_In in Hin. by guards. Qed.

Lemma find_plan_row_some db id row : find_plan_row db id = Some row → row ∈ ob_plans db ∧ vr_id row = id.
Proof. unfold find_plan_row. intros [Hin Hb]%find_some. apply list_elem_of_In in Hin. by guards. Qed.

(** The one row a search by a unique key and more can find. *)
Lemma find_unique {R K} (key : R → K) (p : R → bool) (rows : list R) row : NoDup (map key rows) → row ∈ rows →
  p row = true → (∀ r, p r = true → key r = key row) → find p rows = Some row.
Proof.
  intros Hnd Hin Hp Hkey. destruct (find p rows) as [r|] eqn:Hf.
  - apply find_some in Hf as [Hr Hpr]. apply list_elem_of_In in Hr. f_equal.
    by apply (nodup_key_inj key rows); [| | |apply Hkey].
  - apply list_elem_of_In in Hin. by rewrite (find_none _ _ Hf _ Hin) in Hp.
Qed.

(** Without such a binding no operation is ever loaded. *)
Lemma load_needs_binding db t row : binds_entity_id = false → load_operation db t row = Err StatementError.
Proof. intros Hb. unfold load_operation. by rewrite Hb. Qed.

(** A stored operation is loaded, up to the order of its rows. *)
Lemma op_holds_load db o : op_holds db o → governed o → ok_operation o → binds_entity_id = true →
  ∃ o', load_operation db (tenant_id o) (operation_to_row o) = Ok o' ∧ same_operation o' o ∧ pending_events o' = [].
Proof.
  intros [_ Hst Hdp Hap Hob] Hg [Hid Hen Hoks Hokd Hoka Hoko] Hb. unfold load_operation. rewrite Hb. cbn [negb].
  change (or_id (operation_to_row o), tenant_id o) with (op_key o).
  destruct (has_rows_decode _ _ _ _ _step_from_model _ Hst) as (sts & -> & Hps).
  { intros s Hs. by apply step_round, Hoks. }
  destruct (has_rows_decode _ _ _ _ dependency_from_row _ Hdp) as (deps & -> & Hpd).
  { intros d Hd. by apply dependency_round, Hokd. }
  destruct (has_rows_decode _ _ _ _ approval_from_row _ Hap) as (aps & -> & Hpa).
  { intros a Ha. by apply op_approval_round, Hoka. }
  destruct (has_rows_decode _ _ _ _ objective_from_row _ Hob) as (objs & -> & Hpo).
  { intros x Hx. by apply objective_round, Hoko. }
  cbn [mbind option_bind operation_to_row or_id or_engagement_id or_classification or_state or_risk]. rewrite !non_nil_ok by done. cbn [mbind option_bind].
  rewrite of_text_operation_classification. cbn [mbind option_bind]. rewrite of_text_operation_state.
  cbn [mbind option_bind]. rewrite of_text_risk. cbn [mbind option_bind decoded].
  eexists. split; [done|]. split; [|done].
  assert (map (λ s, (step_id s, s)) sts ≡ₚ steps o) as Hsteps.
  { rewrite Hps. unfold step_values. rewrite map_map. replace (map _ (steps o)) with (steps o); [done|].
    rewrite <- (map_id (steps o)) at 1. apply map_ext_in. intros [k s] Hin%list_elem_of_In. simpl.
    by rewrite (gv_ids o Hg k s). }
  split; try done. cbn [steps]. rewrite dict_of_NoDup; [done|]. rewrite Hsteps. apply Hg.
Qed.

Lemma op_holds_find db o : op_keys db → op_holds db o → governed o → ok_operation o → binds_entity_id = true →
  ∃ o', find_operation (operation_id o) (tenant_id o) db = Ok (Some o') ∧ same_operation o' o ∧ pending_events o' = [].
Proof.
  intros [Hk _ _] Hh Hg Hok Hb. destruct (op_holds_load db o Hh Hg Hok Hb) as (o' & Hl & Hs & Hp).
  exists o'. split; [|done]. unfold find_operation.
  rewrite (find_unique or_id _ _ (operation_to_row o)); [by rewrite Hl|done|apply Hh| |].
  - unfold is_operation_row. by rewrite !bool_decide_eq_true_2.
  - unfold is_operation_row. intros r Hr. by guards.
Qed.

Lemma replace_children_spec o db db' : _replace_children o db = Ok db' →
  ob_operations db' = ob_operations db ∧ ob_plans db' = ob_plans db ∧
  (operation_to_row o ∈ ob_operations db → op_holds db' o) ∧
  ∀ o', operation_id o' ≠ operation_id o → op_holds db o' → op_holds db' o'.
Proof.
  unfold _replace_children. case_match; [|done]. intros [= <-]. simpl.
  destruct (replace_rows_spec sr_key (op_key o) (map (_step_to_model o) (step_values o)) (ob_steps db)) as [S1 S2];
    [by apply map_key|].
  destruct (replace_rows_spec dr_key (op_key o) (map (dependency_to_row o) (dependencies o)) (ob_dependencies db))
    as [D1 D2]; [by apply map_key|].
  destruct (replace_rows_spec pr_key (op_key o) (map (approval_to_row o) (approvals o)) (ob_approvals db))
    as [A1 A2]; [by apply map_key|].
  destruct (replace_rows_spec jr_key (op_key o) (map (objective_to_row o) (objectives o)) (ob_objectives db))
    as [J1 J2]; [by apply map_key|].
  split_and!; [done|done| |].
  - intros Hrow. by split.
  - intros o' Hne [Hrow B1 B2 B3 B4]. assert (op_key o' ≠ op_key o) by (unfold op_key; congruence). split; simpl; auto.
Qed.

(** The version a save sets. *)
Definition with_version (o o' : Operation) : Prop := o' = o <| version := version o' |> ∧ (0 ≤ version o → 0 ≤ version o').

(** What a save leaves in the tables. *)
Lemma op_save_holds o db db' o' : op_keys db → save_operation o db = Ok (db', o') →
  (∀ row, row ∈ ob_operations db → or_id row = operation_id o →
     or_engagement_id row = engagement_id o ∧ or_created_at row = created_at o) →
  with_version o o' ∧ op_keys db' ∧ ob_plans db' = ob_plans db ∧ op_holds db' o' ∧
  (∀ x, operation_id x ≠ operation_id o → op_holds db x → op_holds db' x) ∧
  upserted or_id (operation_id o) (operation_to_row o') (ob_operations db) (ob_operations db').
Proof.
  intros [Hk1 Hk2 Hk3] Hsave Hsame.
  assert (∃ rows, with_version o o' ∧ _replace_children o' (db <| ob_operations := rows |>) = Ok db' ∧
    upserted or_id (operation_id o) (operation_to_row o') (ob_operations db) rows) as (rows & Hw & Hrep & Hup).
  { unfold save_operation in Hsave. destruct (find_operation_row db (operation_id o)) as [row|] eqn:Hf.
    - destruct (same_tenant _ _) eqn:Ht; [|done]. destruct (accepts_version _ _) eqn:Hv; [|done]. cbn [negb] in Hsave.
      destruct (_replace_children _ _) as [db1|e] eqn:Hr; [|done]. injection Hsave as <- <-.
      apply find_operation_row_some in Hf as (Hin & Hid). destruct (Hsame row Hin Hid) as [Hen Hcr].
      unfold same_tenant in Ht. unfold accepts_version in Hv. guards.
      eexists. split; [|split; [exact Hr|]].
      + split; [by destruct o|]. intros Hpos. simpl. apply orb_true_iff in Hv as [Hv|Hv]; apply Z.eqb_eq in Hv; lia.
      + rewrite <- Hid. set (o1 := o <| version := _ |>).
        assert (operation_to_row o1 = updated_operation_row o1 row) as -> by (destruct row; simpl in *; by subst).
        apply (updated_row or_id); [done|done| | |done]; unfold is_operation_row;
          [by rewrite !bool_decide_eq_true_2|]. intros r Hr'. guards. by rewrite Hid.
    - destruct (_replace_children _ _) as [db1|e] eqn:Hr; [|done]. injection Hsave as <- <-.
      eexists. split; [split; [by destruct o|done]|]. split; [exact Hr|].
      set (o1 := o <| version := 1 |>). replace (operation_id o) with (or_id (operation_to_row o1)) by (by destruct o).
      apply (inserted_row or_id (operation_to_row o1)); [done|]. simpl. intros (row & Hid & Hin)%list_elem_of_fmap.
      unfold find_operation_row in Hf. apply list_elem_of_In in Hin. pose proof (find_none _ _ Hf _ Hin) as Hno.
      simpl in Hno. guards. done. }
  destruct (replace_children_spec _ _ _ Hrep) as (Hrows & Hplans & Hh & Hothers). simpl in *.
  assert (operation_id o' = operation_id o) as Hid by (destruct Hw as [-> _]; done). destruct Hup as [U1 U2 U3 U4].
  split_and!; [done|split; rewrite ?Hrows, ?Hplans; done|done|by apply Hh| |split; rewrite Hrows; done].
  intros x Hne [Hr H1 H2 H3 H4]. apply Hothers; [by rewrite Hid|]. split; simpl; auto.
Qed.

(** What a save of a plan version leaves. *)
Lemma save_plan_rows v db db' v' : op_keys db → save_plan v db = Ok (db', v') →
  (∀ row, row ∈ ob_plans db → vr_id row = plan_version_id v →
     vr_number row = vr_number (plan_to_row v) ∧ vr_created_at row = pv_created_at v) →
  v' = v <| pv_version := pv_version v' |> ∧ op_keys db' ∧ db' = db <| ob_plans := ob_plans db' |> ∧
  upserted vr_id (plan_version_id v) (plan_to_row v') (ob_plans db) (ob_plans db').
Proof.
  intros [Hk1 Hk2 Hk3] Hsave Hsame. unfold save_plan in Hsave.
  destruct (find_plan_row db (plan_version_id v)) as [row|] eqn:Hf.
  - destruct (same_tenant _ _) eqn:Ht; [|done]. destruct (accepts_version _ _) eqn:Hv; [|done]. cbn [negb] in Hsave.
    injection Hsave as <- <-. apply find_plan_row_some in Hf as (Hin & Hid). destruct (Hsame row Hin Hid) as [Hnum Hcr].
    set (v1 := v <| pv_version := _ |>).
    assert (upserted vr_id (plan_version_id v) (plan_to_row v1) (ob_plans db) (map (fun r =>
      if is_plan_row (plan_version_id v1) (pv_tenant_id v1) r then updated_plan_row v1 r else r) (ob_plans db))) as Hup.
    { rewrite <- Hid.
      assert (plan_to_row v1 = updated_plan_row v1 row) as ->.
      { unfold vr_number in Hnum. destruct row; simpl in *. by simplify_eq. }
      apply (updated_row vr_id); [done|done| | |done]; unfold is_plan_row.
      - unfold vr_number in Hnum. simpl in Hnum. rewrite !bool_decide_eq_true_2; [done|by simplify_eq..].
      - intros r Hr'. guards. by rewrite Hid. }
    split_and!; [by destruct v| |done|done]. split; simpl; [done|apply Hup|].
    rewrite map_map. replace (map _ (ob_plans db)) with (map vr_number (ob_plans db)); [done|].
    apply map_ext. intros r. by case_match.
  - case_bool_decide as Hnum; [done|]. injection Hsave as <- <-.
    assert (upserted vr_id (plan_version_id v) (plan_to_row (v <| pv_version := 1 |>)) (ob_plans db)
      (ob_plans db ++ [plan_to_row (v <| pv_version := 1 |>)])) as Hup.
    { set (v1 := v <| pv_version := 1 |>). replace (plan_version_id v) with (vr_id (plan_to_row v1)) by (by destruct v).
      apply (inserted_row vr_id (plan_to_row v1)); [done|]. simpl. intros (row & Hid & Hin)%list_elem_of_fmap.
      unfold find_plan_row in Hf. apply list_elem_of_In in Hin. pose proof (find_none _ _ Hf _ Hin) as Hno.
      simpl in Hno. guards. done. }
    split_and!; [by destruct v| |done|done]. split; simpl; [done|apply Hup|].
    rewrite map_app. apply NoDup_app. split_and!; [done| |apply NoDup_singleton].
    by intros x Hx ->%list_elem_of_singleton.
Qed.

(** A stored plan version is found. *)
Lemma plan_found db v : op_keys db → plan_to_row v ∈ ob_plans db → ok_plan v →
  find_plan (plan_version_id v) (pv_tenant_id v) db = Ok (Some (v <| pv_pending_events := [] |>)).
Proof.
  intros [_ Hk _] Hin Hok. unfold find_plan.
  rewrite (find_unique vr_id _ _ (plan_to_row v)); [by rewrite plan_round|done|done| |].
  - unfold is_plan_row. by rewrite !bool_decide_eq_true_2.
  - unfold is_plan_row. intros r Hr. by guards.
Qed.
End StoreLemmas.

(** *** Substrings *)

(** A text without wildcards. *)
Definition plain_char (c : Ascii.ascii) : Prop :=
  c ≠ Ascii.ascii_of_nat 37 ∧ c ≠ Ascii.ascii_of_nat 95 ∧ c ≠ Ascii.ascii_of_nat 92.
Definition plain : string → Prop := string_all plain_char.

Lemma like_any s : like "%" s = true.
Proof. by induction s as [|c s IH]. Qed.

Lemma like_prefix p s : plain p → like (p +:+ "%") s = String.prefix p s.
Proof.
  revert s. induction p as [|c p IH]; intros s Hp; [rewrite append_nil, like_any; by destruct s|].
  destruct Hp as [(H1 & H2 & H3) Hp]. rewrite append_cons. cbn [like].
  apply Ascii.eqb_neq in H1 as ->, H2 as ->, H3 as ->. destruct s as [|d s]; [done|]. simpl.
  destruct (Ascii.ascii_dec c d) as [->|Hne]; [by rewrite Ascii.eqb_refl, IH|].
  by rewrite (proj2 (Ascii.eqb_neq d c)) by congruence.
Qed.

(** On such a text the database's [LIKE] is Python's [in]. *)
Lemma like_contains p s : plain p → like ("%" +:+ p +:+ "%") s = str_in p s.
Proof.
  intros Hp. change ("%" +:+ p +:+ "%") with (String (Ascii.ascii_of_nat 37) (p +:+ "%")). cbn [like].
  rewrite Ascii.eqb_refl. induction s as [|c s IH]; cbn [str_in]; rewrite like_prefix by done; [done|]. by rewrite IH.
Qed.

(** The text of a UUID has no wildcard. *)
Lemma plain_uuid u : plain (str_uuid u).
Proof. apply uuid_all; [apply (hex_digit_cases plain_char); by repeat constructor|done]. Qed.

Lemma with_version_good o o' : with_version o o' → governed o → ok_operation o → governed o' ∧ ok_operation o'.
Proof.
  intros [-> Hv] [H1 H2 H3 H4 H5 H6 H7 H8 H9 H10] [K1 K2 K3 K4 K5 K6]. simpl in Hv.
  split; [|by split]. split; try done; [|by apply Hv]. intros Hs. by destruct (H8 Hs).
Qed.

(** ** Properties *)

#[local] Existing Instance insertion_order.

(** A driver that binds the value of an [EntityId], and UUIDs that compare with
    ULIDs by their bits; and one that does neither. *)
Definition converting_columns : TenantColumns := {| binds_entity_id := true; uuid_equals_ulid := true |}.
Definition strict_columns : TenantColumns := {| binds_entity_id := false; uuid_equals_ulid := false |}.

Lemma planned_ok : ok_operation (planned ImpactCeiling.EXPLOIT).
Proof.
  split; try (intros H; by vm_compute in H).
  - assert (Forall ok_step (step_values (planned ImpactCeiling.EXPLOIT))) as Hf; [|by apply Forall_forall].
    vm_compute. repeat constructor; try done; try (by intros ? [= <-]).
  - assert (Forall ok_dependency (dependencies (planned ImpactCeiling.EXPLOIT))) as Hf; [|by apply Forall_forall].
    vm_compute. repeat constructor; done.
  - intros a Ha. vm_compute in Ha. by apply not_elem_of_nil in Ha.
  - intros a Ha. vm_compute in Ha. by apply not_elem_of_nil in Ha.
Qed.

(** An operation that is saved is found again: under its id and tenant the
    repository answers the same operation, its steps with their techniques,
    limits and windows, its dependencies, approvals and objectives included, with
    the version the save gave it and no pending event; and every other stored
    operation stays stored. *)
Theorem saved_operation_is_found `{!RowOrder} `{!TenantColumns} o db db' o' : binds_entity_id = true →
  op_keys db → governed o → ok_operation o →
  (∀ row, row ∈ ob_operations db → or_id row = operation_id o →
     or_engagement_id row = engagement_id o ∧ or_created_at row = created_at o) →
  save_operation o db = Ok (db', o') →
  o' = o <| version := version o' |> ∧
  (∃ g, find_operation (operation_id o) (tenant_id o) db' = Ok (Some g) ∧ same_operation g o' ∧ pending_events g = []) ∧
  (∀ x, operation_id x ≠ operation_id o → op_holds db x → op_holds db' x).
Proof.
  intros Hb Hk Hg Hok Hsame Hsave.
  destruct (op_save_holds o db db' o' Hk Hsave Hsame) as (Hw & Hk' & _ & Hh & Hothers & _).
  destruct (with_version_good o o' Hw Hg Hok) as [Hg' Hok']. pose proof Hw as [Ho' _].
  split_and!; [exact Ho'| |exact Hothers].
  assert (operation_id o' = operation_id o ∧ tenant_id o' = tenant_id o) as [<- <-] by (rewrite Ho'; by destruct o).
  by apply op_holds_find.
Qed.

#[local] Existing Instance converting_columns.

Lemma saved_operation_is_found_witness :
  ∃ db' o', save_operation (planned ImpactCeiling.EXPLOIT) empty_op_db = Ok (db', o') ∧ version o' = 1 ∧
  ∃ g, find_operation 9 acme db' = Ok (Some g) ∧ same_operation g o' ∧ pending_events g = [].
Proof.
  set (saved := save_operation (planned ImpactCeiling.EXPLOIT) empty_op_db).
  assert (match saved with Ok (_, o') => version o' | Err _ => 0 end = 1) as Hv by (vm_compute; reflexivity).
  assert (operation_id (planned ImpactCeiling.EXPLOIT) = 9) as Hid by (vm_compute; reflexivity).
  assert (tenant_id (planned ImpactCeiling.EXPLOIT) = acme) as Ht by (vm_compute; reflexivity).
  destruct saved as [[db' o']|e] eqn:Hsave; [|discriminate Hv]. exists db', o'. split; [done|]. split; [exact Hv|].
  rewrite <- Hid, <- Ht.
  apply (saved_operation_is_found (planned ImpactCeiling.EXPLOIT) empty_op_db db' o');
    [done|by split; constructor|apply op_reachable_governed, planned_reachable|apply planned_ok|
     by intros row []%not_elem_of_nil|exact Hsave].
Defined.

(** The version check misses the lost update it is there for.  Two copies of an
    operation loaded at one version, each changed once, are both accepted: after
    the first is saved the second is not refused for its version, and once it is
    saved the rows of the operation are its own, whatever the first had written. *)
Theorem lost_update_is_accepted `{!TenantColumns} o1 o2 row db db1 o1' : op_keys db → uuid_equals_ulid = true →
  row ∈ ob_operations db → or_id row = operation_id o1 →
  (∀ o, o = o1 ∨ o = o2 → operation_id o = or_id row ∧ tenant_id o = or_tenant_id row ∧
     engagement_id o = or_engagement_id row ∧ created_at o = or_created_at row ∧ version o = or_row_version row + 1) →
  save_operation o1 db = Ok (db1, o1') →
  save_operation o2 db1 = Err IntegrityError ∨
  ∃ db2 o2', save_operation o2 db1 = Ok (db2, o2') ∧ o2' = o2 <| version := version o2' |> ∧ op_holds db2 o2'.
Proof.
  intros Hk Hu Hin Hid Hcopies Hsave.
  assert (∀ r, r ∈ ob_operations db → or_id r = or_id row → r = row) as Huniq.
  { intros r Hr. apply (nodup_key_inj or_id (ob_operations db)); [apply Hk|done|done]. }
  destruct (Hcopies o1) as (I1 & T1 & E1 & C1 & V1); [by left|].
  destruct (Hcopies o2) as (I2 & T2 & E2 & C2 & V2); [by right|].
  destruct (op_save_holds o1 db db1 o1' Hk Hsave) as ([Hw _] & Hk1 & _ & Hh & _ & Hup).
  { intros r Hr Hrid. rewrite I1 in Hrid. rewrite (Huniq r Hr Hrid). by split. }
  assert (find_operation_row db1 (operation_id o2) = Some (operation_to_row o1')) as Hf.
  { apply (find_unique or_id); [apply Hk1|apply Hh| |].
    - apply bool_decide_eq_true. rewrite I2, <- I1, Hw. by destruct o1.
    - intros r Hr. guards. rewrite Hr, I2, <- I1, Hw. by destruct o1. }
  assert (version o1' = or_row_version row + 1) as Hv.
  { unfold save_operation in Hsave.
    assert (find_operation_row db (operation_id o1) = Some row) as Hf1.
    { apply (find_unique or_id); [apply Hk|done|by apply bool_decide_eq_true|]. intros r Hr. guards. congruence. }
    rewrite Hf1 in Hsave. repeat case_match; simplify_eq/=. done. }
  assert (save_operation o2 db1 = Err IntegrityError ∨ ∃ db2 o2', save_operation o2 db1 = Ok (db2, o2')) as [Herr|Hok].
  { unfold save_operation. rewrite Hf. unfold same_tenant. rewrite Hu, bool_decide_eq_true_2.
    2: { rewrite T2, <- T1, Hw. by destruct o1. }
    cbn [andb negb]. unfold accepts_version. cbn [operation_to_row or_row_version]. rewrite Hv, V2, Z.eqb_refl, orb_true_r.
    unfold _replace_children. destruct (op_children_unique _); [right; by do 2 eexists|by left]. }
  - by left.
  - right. destruct Hok as (db2 & o2' & Hs2). exists db2, o2'. split; [done|].
    destruct (op_save_holds o2 db1 db2 o2' Hk1 Hs2) as ([Hw2 _] & _ & _ & Hh2 & _); [|done].
    intros r Hr Hrid. destruct Hup as [_ _ _ Hall]. destruct (Hall r Hr) as [->|[_ Hne]]; [|congruence].
    rewrite Hw. destruct o1; simpl in *. by split; congruence.
Qed.

Definition saved_plan : OpDb :=
  match save_operation (planned ImpactCeiling.EXPLOIT) empty_op_db with Ok (db, _) => db | Err _ => empty_op_db end.
Definition loaded_plan : Operation :=
  match find_operation 9 acme saved_plan with Ok (Some o) => o | _ => start_operation end.

(** Two editors of one plan: one removes the gate, the other sets objectives. *)
Definition edit_one : Operation := (remove_execution_step acme 11 10 loaded_plan).2.
Definition edit_two : Operation := (set_objectives acme [(51, ("own it", "flag", true))] 10 loaded_plan).2.

Lemma lost_update_is_accepted_witness :
  ∃ db1 o1', save_operation edit_one saved_plan = Ok (db1, o1') ∧
  (save_operation edit_two db1 = Err IntegrityError ∨
   ∃ db2 o2', save_operation edit_two db1 = Ok (db2, o2') ∧ o2' = edit_two <| version := version o2' |> ∧ op_holds db2 o2').
Proof.
  assert (is_ok (save_operation edit_one saved_plan) = true) as Hok by (vm_compute; reflexivity).
  assert (∃ row, ob_operations saved_plan = [row] ∧ or_id row = operation_id edit_one ∧
    (∀ o, o = edit_one ∨ o = edit_two → operation_id o = or_id row ∧ tenant_id o = or_tenant_id row ∧
     engagement_id o = or_engagement_id row ∧ created_at o = or_created_at row ∧ version o = or_row_version row + 1))
    as (row & Hrows & Hid & Hcopies).
  { eexists. split; [vm_compute; reflexivity|]. split; [vm_compute; reflexivity|].
    intros o [->| ->]; split_and!; vm_compute; reflexivity. }
  destruct (save_operation edit_one saved_plan) as [[db1 o1']|e] eqn:Hsave; [|discriminate Hok]. exists db1, o1'.
  split; [done|]. assert (ob_plans saved_plan = []) as Hp by (vm_compute; reflexivity).
  assert (op_keys saved_plan) as Hk by (split; rewrite ?Hp, ?Hrows; [apply NoDup_singleton|constructor..]).
  assert (row ∈ ob_operations saved_plan) as Hin by (rewrite Hrows; left).
  exact (lost_update_is_accepted edit_one edit_two row saved_plan db1 o1' Hk eq_refl Hin Hid Hcopies Hsave).
Defined.

(** Whether the repositories work at all is up to the driver: with one that
    refuses an [EntityId] as a parameter no stored operation can be loaded, since
    [_load_children] passes the tenant itself and not its value; and where the
    UUID of a column never equals a ULID, no stored operation or plan version can
    be saved a second time. *)
Theorem tenant_columns_decide `{!RowOrder} `{!TenantColumns} db :
  (binds_entity_id = false → ∀ id t o, find_operation id t db ≠ Ok (Some o)) ∧
  (uuid_equals_ulid = false →
     (∀ o row, find_operation_row db (operation_id o) = Some row →
        save_operation o db = Err (OptimisticLockConflict (operation_id o) 0 (or_row_version row))) ∧
     (∀ v row, find_plan_row db (plan_version_id v) = Some row →
        save_plan v db = Err (OptimisticLockConflict (plan_version_id v) 0 (vr_row_version row)))).
Proof.
  split.
  - intros Hb id t o. unfold find_operation. case_match; [|done]. by rewrite load_needs_binding.
  - intros Hu. split; intros x row Hf; [unfold save_operation|unfold save_plan]; rewrite Hf; unfold same_tenant; by rewrite Hu.
Qed.

Lemma tenant_columns_decide_witness :
  (∀ id t o, find_operation (H0 := strict_columns) id t saved_plan ≠ Ok (Some o)) ∧
  map or_id (ob_operations saved_plan) = [9].
Proof.
  split; [|vm_compute; reflexivity].
  destruct (tenant_columns_decide (H0 := strict_columns) saved_plan) as [Hb _]. exact (Hb eq_refl).
Defined.
