(* ===== verification/OperationApp.v ===== *)
(** [operation.OperationApplicationService]: every command validates its input,
    loads the operation in a unit of work, asks the ports, calls it, saves,
    commits and publishes; and what this keeps true of the tables. *)
From stdpp Require Import base tactics list strings relations sorting.
From Stdlib Require Import ZArith Lia.
From S2P Require Import Prelude PyTypes PyParse Sha256 PyJson JsonText PyStore Kahn PlanGraph OperationData OperationAggregate PlanValidator PlanVersion OperationStore.

Local Open Scope Z_scope.

(** ** Ports *)

(** [IEngagementQueryPort]; a query may raise. *)
Class EngagementQueryPort := {
  get_engagement_state : uuid → TenantId → result unit string;
  is_active : uuid → TenantId → result unit bool;
  get_authorized_targets : uuid → TenantId → result unit (list uuid);
  get_allowed_techniques : uuid → TenantId → result unit (list string)
}.

Record AttackSurfaceContext := mkAttackSurface {
  vulnerability_instance_refs : list string; technique_hints : list string; degraded : bool }.

(** [IVulnerabilityQueryPort] *)
Class VulnerabilityQueryPort := {
  get_attack_surface_context : uuid → TenantId → result unit AttackSurfaceContext
}.

(** The adapters of [infrastructure/acl/degraded_adapters.py]. *)
Definition DegradedEngagementQueryAdapter : EngagementQueryPort := {|
  get_engagement_state _ _ := Ok "Active";
  is_active _ _ := Ok true;
  get_authorized_targets _ _ := Ok [];
  get_allowed_techniques _ _ := Ok []
|}.
Definition DegradedVulnerabilityQueryAdapter : VulnerabilityQueryPort := {|
  get_attack_surface_context _ _ := Ok (mkAttackSurface [] [] true)
|}.

(** ** The world of the service *)

(** [ValueErr] is a [ValueError] of a value object or of an enumeration, which no
    command catches. *)
Inductive OpError :=
  | ApplicationValidationError (field reason : string)
  | ApplicationNotFoundError (resource : string) (id : uuid)
  | ValueErr
  | Domain (e : OperationException)
  | Store (e : StoreError)
  | PortFailure.

Inductive Published :=
  | OfOperation (e : DomainEvent OperationEvent)
  | OfPlanVersion (e : DomainEvent PlanVersionEvent).

Record World := mkWorld { w_db : OpDb; w_published : list Published }.
#[export] Instance World_settable : Settable World := fun w => mkWorld (w_db w) (w_published w).

Definition empty_world : World := mkWorld empty_op_db [].

Abbreviation App := (PyM World OpError).
Abbreviation Tx := (PyM (Session OpDb) OpError).

(** [async with self._uow_factory() as uow: body] *)
Definition in_uow {A} (body : Tx A) : App A := fun w =>
  let '(r, s) := body (mkSession (w_db w) (w_db w)) in (r, w <| w_db := s_durable s |>).

(** [_publish]: called after the commit as the last statement of a unit of work,
    here after it; a failing publisher is logged and ignored, and the events handed
    to it are recorded. *)
Definition _publish (events : list Published) : App unit :=
  modify (fun w => w <| w_published ::= fun l => l ++ events |>).

Definition operation_events (o : Operation) : list Published := map OfOperation (pending_events o).
Definition plan_events (v : ExecutionPlanVersion) : list Published := map OfPlanVersion (pv_pending_events v).

(** ** Validation *)

(** [validate_uuid] of a [UUID]; an [EntityId] always passes. *)
Definition validate_uuid {S} (u : uuid) (field : string) : PyM S OpError unit :=
  raise_if (u =? 0) (ApplicationValidationError field "must be a valid non-nil UUID").

(** [validate_str] with [allow_empty=False] *)
Definition validate_str {S} (value field : string) (max_len : nat) : PyM S OpError unit :=
  raise_if (bool_decide (String.length value = 0%nat)) (ApplicationValidationError field "must not be empty");;
  raise_if (bool_decide (max_len < String.length value)%nat)
    (ApplicationValidationError field ("must be at most " +:+ str_int (Z.of_nat max_len) +:+ " characters")).

(** A constructor that may raise [ValueError]. *)
Definition construct {S A} (x : option A) : PyM S OpError A :=
  match x with Some a => mret a | None => raise ValueErr end.

(** A constructor that is called when its argument is there. *)
Definition construct_if {S A B} (x : option A) (f : A → option B) : PyM S OpError (option B) :=
  match x with Some a => b ← construct (f a); mret (Some b) | None => mret None end.

(** [x if x else None] of a text. *)
Definition non_empty (s : option string) : option string :=
  match s with Some s => if empty_str s then None else Some s | None => None end.

Definition port {S A} (r : result unit A) : PyM S OpError A :=
  match r with Ok a => mret a | Err _ => raise PortFailure end.

(** ** Data transfer objects *)

Record ExecutionStepDTO := mkStepDTO {
  sd_id : uuid; sd_name : string; sd_step_type : string; sd_state : string; sd_impact_ceiling : option string;
  sd_modifies_persistent_state : bool; sd_technique_id : option string; sd_target_asset_id : option uuid }.

Record OperationApprovalDTO := mkApprovalDTO {
  ad_id : uuid; ad_operator_id : uuid; ad_authority : string; ad_approved_at : datetime }.

(** The DTOs of dependencies and objectives have the fields of the entities. *)
Record OperationDTO := mkOperationDTO {
  od_id : uuid; od_tenant_id : TenantId; od_engagement_id : uuid; od_name : string; od_classification : string;
  od_state : string; od_risk : string; od_steps : list ExecutionStepDTO; od_dependencies : list StepDependency;
  od_approvals : list OperationApprovalDTO; od_objectives : list OperationObjective;
  od_abort_reason : option string; od_created_at : datetime; od_updated_at : datetime; od_version : Z }.

Definition step_dto (s : ExecutionStep) : ExecutionStepDTO :=
  mkStepDTO (step_id s) (step_name s) (StepType.value (step_type s)) (StepState.value (step_state s))
    (ImpactCeiling.value <$> impact_ceiling s) (modifies_persistent_state s) (technique_id <$> technique_ref s)
    (target_ref s).

Definition approval_dto (a : OperationApproval) : OperationApprovalDTO :=
  mkApprovalDTO (approval_id a) (operator_id a) (authority a) (approved_at a).

Definition _operation_dto (o : Operation) : OperationDTO :=
  mkOperationDTO (operation_id o) (tenant_id o) (engagement_id o) (name o)
    (OperationClassification.value (classification o)) (OperationState.value (state o)) (OperationRisk.value (risk o))
    (map step_dto (step_values o)) (dependencies o) (map approval_dto (approvals o)) (objectives o) (abort_reason o)
    (created_at o) (updated_at o) (version o).

Record PlanValidationResultDTO := mkValidationDTO { vd_operation_id : uuid; vd_valid : bool; vd_message : string }.

Record ExecutionPlanVersionDTO := mkPlanDTO {
  pd_id : uuid; pd_tenant_id : TenantId; pd_operation_id : uuid; pd_version_number : Z; pd_state : string;
  pd_plan_hash : option string; pd_signed_by_operator_id : option uuid; pd_signed_at : option datetime;
  pd_created_at : datetime; pd_updated_at : datetime; pd_version : Z }.

Definition _plan_version_dto (v : ExecutionPlanVersion) : ExecutionPlanVersionDTO :=
  mkPlanDTO (plan_version_id v) (pv_tenant_id v) (pv_operation_id v) (version_number v)
    (ExecutionPlanVersionState.value (pv_state v)) (plan_hash v) (sb_operator_id <$> signed_by v)
    (sb_signed_at <$> signed_by v) (pv_created_at v) (pv_updated_at v) (pv_version v).

(** ** The snapshot of a plan *)

(** [sorted(values, key=lambda x: str(id))] *)
Definition by_id {A} (id : A → uuid) (a b : A) : Prop := str_le (str_uuid (id a)) (str_uuid (id b)).
#[export] Instance by_id_dec {A} (id : A → uuid) : RelDecision (by_id id).
Proof. intros a b. unfold by_id. apply _. Defined.

Definition opt_json {A} (f : A → Json) (x : option A) : Json := match x with Some a => f a | None => JNull end.

Definition step_payload (s : ExecutionStep) : Json :=
  JObj [("id", JStr (str_uuid (step_id s)));
        ("name", JStr (step_name s));
        ("step_type", JStr (StepType.value (step_type s)));
        ("impact_ceiling", opt_json (fun c => JStr (ImpactCeiling.value c)) (impact_ceiling s));
        ("modifies_persistent_state", JBool (modifies_persistent_state s));
        ("technique_id", opt_json (fun r => JStr (technique_id r)) (technique_ref s));
        ("payload_id", opt_json (fun r => JStr (payload_id r)) (technique_ref s));
        ("target_asset_id", opt_json (fun a => JStr (str_uuid a)) (target_ref s));
        ("max_duration_seconds", JInt (max_duration_seconds (constraints s)));
        ("rollback_on_failure", JBool (rollback_on_failure (constraints s)));
        ("continue_on_failure", JBool (continue_on_failure (constraints s)))].

Definition dependency_payload (d : StepDependency) : Json :=
  JObj [("id", JStr (str_uuid (dependency_id d))); ("from", JStr (str_uuid (from_step_id d)));
        ("to", JStr (str_uuid (to_step_id d)))].

Definition plan_payload (o : Operation) : Json :=
  JObj [("operation_id", JStr (str_uuid (operation_id o)));
        ("steps", JArr (map step_payload (merge_sort (by_id step_id) (step_values o))));
        ("dependencies", JArr (map dependency_payload (merge_sort (by_id dependency_id) (dependencies o))))].

(** [_serialize_plan] *)
Definition _serialize_plan (o : Operation) : option string := PlanSnapshot_new (dumps (plan_payload o)).

(** ** Transactions *)

(** A [for] loop that collects what each pass leaves. *)
Fixpoint for_map {S A B} (l : list A) (body : A → PyM S OpError B) : PyM S OpError (list B) :=
  match l with
  | [] => mret []
  | x :: l => b ← body x; bs ← for_map l body; mret (b :: bs)
  end.

(** A method of a loaded object. *)
Definition on_object {O} (m : PyM O OperationException unit) (o : O) : Tx O :=
  match m o with
  | (Ok _, o') => mret o'
  | (Err e, _) => raise (Domain e)
  end.

(** A query of a repository. *)
Definition query {A} (q : OpDb → result StoreError A) : Tx A := fun s =>
  match q (s_view s) with Ok a => (Ok a, s) | Err e => (Err (Store e), s) end.

(** A save of a repository, with the object as it leaves it. *)
Definition write {O} (f : O → OpDb → result StoreError (OpDb * O)) (o : O) : Tx O := fun s =>
  match f o (s_view s) with
  | Ok (db, o') => (Ok o', s <| s_view := db |>)
  | Err e => (Err (Store e), s)
  end.

Section Transactions.
Context `{!RowOrder} `{!TenantColumns}.

Definition load (id : uuid) (t : TenantId) : Tx Operation :=
  found ← query (find_operation id t);
  match found with
  | Some o => mret o
  | None => raise (ApplicationNotFoundError "Operation" id)
  end.

(** The transaction of a command that calls one method of the operation, with
    arguments that are evaluated after the operation is loaded. *)
Definition update_operation (t : TenantId) (id : uuid) (args : Operation → Tx call) : Tx Operation :=
  o ← load id t;
  c ← args o;
  o ← on_object (run_call c) o;
  o ← write save_operation o;
  commit;;
  mret o.

Definition operation_command (t : TenantId) (id : uuid) (args : Operation → Tx call) : App OperationDTO :=
  o ← in_uow (update_operation t id args);
  _publish (operation_events o);;
  mret (_operation_dto o).

(** The loop of [sign_execution_plan] over the earlier versions. *)
Definition supersede_signed (t : TenantId) (now : datetime) (existing : list ExecutionPlanVersion)
    : Tx (list ExecutionPlanVersion) :=
  for_map existing (fun prior =>
    if decide (pv_state prior = ExecutionPlanVersionState.SIGNED)
    then prior ← on_object (PV.supersede t now) prior; write save_plan prior
    else mret prior).

(** The loop of [invalidate_plans_referencing_payload]: the versions it
    changed. *)
Fixpoint supersede_referencing (t : TenantId) (token : string) (now : datetime) (candidates : list ExecutionPlanVersion)
    : Tx (list ExecutionPlanVersion) :=
  match candidates with
  | [] => mret []
  | v :: rest =>
      if decide (pv_state v ∉ [ExecutionPlanVersionState.SIGNED; ExecutionPlanVersionState.EXECUTING])
      then supersede_referencing t token now rest
      else if negb (str_in token (snapshot v)) then supersede_referencing t token now rest
      else
        v ← on_object (PV.supersede t now) v;
        v ← write save_plan v;
        changed ← supersede_referencing t token now rest;
        mret (v :: changed)
  end.
End Transactions.

(** ** Commands *)

Record AddExecutionStep := mkAddStep {
  as_tenant_id : TenantId; as_operation_id : uuid; as_name : string; as_step_type : string;
  as_max_duration_seconds : Z; as_rollback_on_failure : bool; as_continue_on_failure : bool;
  as_technique_payload_id : option string; as_technique_id : option string; as_target_asset_id : option uuid;
  as_impact_ceiling : option string; as_modifies_persistent_state : bool; as_mitre_technique_id : option string;
  as_mitre_tactic : option string; as_rate_limit_max : option Z; as_rate_limit_window_seconds : option Z;
  as_window_allowed_days : option (list Z); as_window_start_hour : option Z; as_window_end_hour : option Z;
  as_description : string }.

Section Commands.
Context `{!RowOrder} `{!TenantColumns} `{!EngagementQueryPort} `{!VulnerabilityQueryPort}.

Definition create_operation (t : TenantId) (engagement : uuid) (nm cl : string) (new_id : uuid) (now : datetime)
    : App OperationDTO :=
  validate_uuid engagement "engagement_id";;
  validate_str nm "name" 256;;
  cl ← construct (of_text OperationClassification.value all_operation_classifications cl);
  en ← construct (non_nil engagement);
  id ← construct (non_nil new_id);
  o ← match create t en nm cl now id with
      | Ok o => mret o
      | Err e => raise (Domain e)
      end;
  o ← in_uow (o ← write save_operation o; commit;; mret o);
  _publish (operation_events o);;
  mret (_operation_dto o).

Definition add_execution_step (cmd : AddExecutionStep) (sid : uuid) (now : datetime) : App OperationDTO :=
  validate_uuid (as_operation_id cmd) "operation_id";;
  validate_str (as_name cmd) "name" 256;;
  technique ← construct_if (match non_empty (as_technique_payload_id cmd), non_empty (as_technique_id cmd) with
                            | Some p, Some t => Some (p, t) | _, _ => None end)
                (fun pt => StepTechniqueRef_new pt.1 pt.2);
  target ← construct_if (as_target_asset_id cmd) StepTargetRef_new;
  ceiling ← construct_if (non_empty (as_impact_ceiling cmd)) (of_text ImpactCeiling.value all_step_ceilings);
  mitre ← construct_if (non_empty (as_mitre_technique_id cmd)) (fun m => MitreAttackRef_new m (as_mitre_tactic cmd));
  limit ← construct_if (match as_rate_limit_max cmd, as_rate_limit_window_seconds cmd with
                        | Some n, Some w => Some (n, w) | _, _ => None end) (fun nw => RateLimit_new nw.1 nw.2);
  w ← construct_if (match as_window_allowed_days cmd, as_window_start_hour cmd, as_window_end_hour cmd with
                    | Some d, Some s, Some e => Some (d, s, e) | _, _, _ => None end)
        (fun dse => ExecutionWindowConstraint_new dse.1.1 dse.1.2 dse.2);
  operation_command (as_tenant_id cmd) (as_operation_id cmd) (fun _ =>
    type ← construct (of_text StepType.value all_step_types (as_step_type cmd));
    c ← construct (StepConstraints_new (as_max_duration_seconds cmd) (as_rollback_on_failure cmd)
                     (as_continue_on_failure cmd));
    mret (CAddStep (as_tenant_id cmd) (as_name cmd)
            (mkStepSpec type c technique target ceiling (as_modifies_persistent_state cmd) mitre limit w
               (as_description cmd)) now sid)).

Definition remove_execution_step (t : TenantId) (id sid : uuid) (now : datetime) : App OperationDTO :=
  validate_uuid id "operation_id";;
  validate_uuid sid "step_id";;
  operation_command t id (fun _ => mret (CRemoveStep t sid now)).

Definition add_step_dependency (t : TenantId) (id from_ to_ did : uuid) (now : datetime) : App OperationDTO :=
  validate_uuid id "operation_id";;
  validate_uuid from_ "from_step_id";;
  validate_uuid to_ "to_step_id";;
  operation_command t id (fun _ => mret (CAddDependency t from_ to_ now did)).

Definition set_objectives (t : TenantId) (id : uuid) (objs : list (uuid * (string * string * bool))) (now : datetime)
    : App OperationDTO :=
  validate_uuid id "operation_id";;
  operation_command t id (fun _ => mret (CSetObjectives t objs now)).

(** What validating and signing ask the engagement, and the verdict. *)
Definition check_plan (o : Operation) (t : TenantId) : Tx unit :=
  authorized ← port (get_authorized_targets (engagement_id o) t);
  techniques ← port (get_allowed_techniques (engagement_id o) t);
  match validate o authorized techniques with
  | Ok _ => mret tt
  | Err e => raise (Domain e)
  end.

Definition validate_execution_plan (t : TenantId) (id : uuid) : App PlanValidationResultDTO :=
  validate_uuid id "operation_id";;
  in_uow (
    o ← load id t;
    port (get_attack_surface_context (engagement_id o) t);;
    check_plan o t;;
    mret (mkValidationDTO (operation_id o) true "Execution plan is valid")).

(** The transaction of a signature. *)
Definition sign_tx (t : TenantId) (id operator : uuid) (sig : string) (new_id : uuid) (now : datetime)
    : Tx (list ExecutionPlanVersion * ExecutionPlanVersion * Operation) :=
  o ← load id t;
  check_plan o t;;
  number ← query (fun db => Ok (next_version_number (operation_id o) t db));
  existing ← query (find_by_operation (operation_id o) t);
  existing ← supersede_signed t now existing;
  snap ← construct (_serialize_plan o);
  pid ← construct (non_nil new_id);
  v ← match PV.create_draft t (operation_id o) number snap now pid with
      | Ok v => mret v
      | Err e => raise (Domain e)
      end;
  v ← on_object (PV.sign t operator sig now) v;
  o ← on_object (record_plan_drafted t now) o;
  v ← write save_plan v;
  o ← write save_operation o;
  commit;;
  mret (existing, v, o).

Definition sign_execution_plan (t : TenantId) (id operator : uuid) (sig : string) (new_id : uuid) (now : datetime)
    : App ExecutionPlanVersionDTO :=
  validate_uuid id "operation_id";;
  validate_uuid operator "operator_id";;
  validate_str sig "signature" 4096;;
  r ← in_uow (sign_tx t id operator sig new_id now);
  _publish (concat (map plan_events r.1.1) ++ plan_events r.1.2 ++ operation_events r.2);;
  mret (_plan_version_dto r.1.2).

Definition submit_for_approval (t : TenantId) (id : uuid) (now : datetime) : App OperationDTO :=
  validate_uuid id "operation_id";;
  operation_command t id (fun _ => mret (CSubmit t now)).

Definition approve_operation (t : TenantId) (id operator : uuid) (authority sig : string) (aid : uuid)
    (now : datetime) : App OperationDTO :=
  validate_uuid id "operation_id";;
  validate_uuid operator "operator_id";;
  validate_str authority "authority" 64;;
  validate_str sig "signature" 4096;;
  operation_command t id (fun _ => mret (CApprove t operator authority sig now aid)).

Definition queue_operation (t : TenantId) (id : uuid) (now : datetime) : App OperationDTO :=
  validate_uuid id "operation_id";;
  operation_command t id (fun o =>
    st ← port (get_engagement_state (engagement_id o) t);
    active ← port (is_active (engagement_id o) t);
    mret (CQueue t active st now)).

(** The transaction of [mark_plan_executing]. *)
Definition mark_executing_tx (t : TenantId) (pid : uuid) (now : datetime) : Tx ExecutionPlanVersion :=
  found ← query (find_plan pid t);
  match found with
  | None => raise (ApplicationNotFoundError "ExecutionPlanVersion" pid)
  | Some v =>
      existing ← query (find_executing_for_operation (pv_operation_id v) t);
      raise_if (match existing with
                | Some x => bool_decide (plan_version_id x ≠ plan_version_id v)
                | None => false
                end) (Domain (ConcurrentExecutingPlanError (pv_operation_id v)));;
      v ← on_object (PV.mark_executing t now) v;
      v ← write save_plan v;
      commit;;
      mret v
  end.

Definition mark_plan_executing (t : TenantId) (pid : uuid) (now : datetime) : App ExecutionPlanVersionDTO :=
  validate_uuid pid "plan_version_id";;
  v ← in_uow (mark_executing_tx t pid now);
  _publish (plan_events v);;
  mret (_plan_version_dto v).

(** The transaction of [invalidate_plans_referencing_payload]; both branches
    commit. *)
Definition invalidate_tx (t : TenantId) (payload : uuid) (now : datetime) : Tx (list ExecutionPlanVersion) :=
  candidates ← query (find_referencing_payload t (str_uuid payload));
  changed ← supersede_referencing t (str_uuid payload) now candidates;
  commit;;
  mret changed.

Definition invalidate_plans_referencing_payload (t : TenantId) (payload : uuid) (now : datetime) : App nat :=
  validate_uuid payload "payload_id";;
  changed ← in_uow (invalidate_tx t payload now);
  _publish (concat (map plan_events changed));;
  mret (length changed).

(** ** Queries *)

Definition get_operation (t : TenantId) (id : uuid) : App OperationDTO :=
  validate_uuid id "operation_id";;
  in_uow (o ← load id t; mret (_operation_dto o)).

Definition list_by_engagement (t : TenantId) (engagement : uuid) (limit offset : Z) : App (list OperationDTO) :=
  validate_uuid engagement "engagement_id";;
  in_uow (l ← query (find_by_engagement engagement t limit offset); mret (map _operation_dto l)).

Definition get_plan_version (t : TenantId) (pid : uuid) : App ExecutionPlanVersionDTO :=
  validate_uuid pid "plan_version_id";;
  in_uow (
    found ← query (find_plan pid t);
    match found with
    | Some v => mret (_plan_version_dto v)
    | None => raise (ApplicationNotFoundError "ExecutionPlanVersion" pid)
    end).

Definition list_plan_versions (t : TenantId) (id : uuid) : App (list ExecutionPlanVersionDTO) :=
  validate_uuid id "operation_id";;
  in_uow (l ← query (find_by_operation id t); mret (map _plan_version_dto l)).
End Commands.

(** ** The commands as one type *)

Inductive command :=
  | CreateOperation (t : TenantId) (engagement : uuid) (nm cl : string) (new_id : uuid)
  | AddStep (cmd : AddExecutionStep) (sid : uuid)
  | RemoveStep (t : TenantId) (id sid : uuid)
  | AddDependency (t : TenantId) (id from_ to_ did : uuid)
  | SetObjectives (t : TenantId) (id : uuid) (objs : list (uuid * (string * string * bool)))
  | ValidatePlan (t : TenantId) (id : uuid)
  | SignPlan (t : TenantId) (id operator : uuid) (sig : string) (new_id : uuid)
  | Submit (t : TenantId) (id : uuid)
  | Approve (t : TenantId) (id operator : uuid) (authority sig : string) (aid : uuid)
  | Queue (t : TenantId) (id : uuid)
  | MarkExecuting (t : TenantId) (pid : uuid)
  | InvalidatePayload (t : TenantId) (payload : uuid)
  | GetOperation (t : TenantId) (id : uuid)
  | ListByEngagement (t : TenantId) (engagement : uuid) (limit offset : Z)
  | GetPlanVersion (t : TenantId) (pid : uuid)
  | ListPlanVersions (t : TenantId) (id : uuid).

(** [uuid7()] is not nil, and gives a new operation or plan version an id of its
    own. *)
Definition command_ok (c : command) (w : World) : Prop :=
  match c with
  | CreateOperation _ _ _ _ new_id => new_id ∉ map or_id (ob_operations (w_db w))
  | SignPlan _ _ _ _ new_id => new_id ∉ map vr_id (ob_plans (w_db w))
  | AddStep _ new_id | AddDependency _ _ _ _ new_id | Approve _ _ _ _ _ new_id => new_id ≠ 0
  | SetObjectives _ _ objs => ∀ x, x ∈ objs → x.1 ≠ 0
  | _ => True
  end.

Section Worlds.
Context `{!RowOrder} `{!TenantColumns} `{!EngagementQueryPort} `{!VulnerabilityQueryPort}.

Definition run_command (c : command) (now : datetime) : App unit :=
  match c with
  | CreateOperation t e nm cl id => create_operation t e nm cl id now;; mret tt
  | AddStep cmd sid => add_execution_step cmd sid now;; mret tt
  | RemoveStep t id sid => remove_execution_step t id sid now;; mret tt
  | AddDependency t id f u did => add_step_dependency t id f u did now;; mret tt
  | SetObjectives t id objs => set_objectives t id objs now;; mret tt
  | ValidatePlan t id => validate_execution_plan t id;; mret tt
  | SignPlan t id o s nid => sign_execution_plan t id o s nid now;; mret tt
  | Submit t id => submit_for_approval t id now;; mret tt
  | Approve t id o a s aid => approve_operation t id o a s aid now;; mret tt
  | Queue t id => queue_operation t id now;; mret tt
  | MarkExecuting t pid => mark_plan_executing t pid now;; mret tt
  | InvalidatePayload t p => invalidate_plans_referencing_payload t p now;; mret tt
  | GetOperation t id => get_operation t id;; mret tt
  | ListByEngagement t e l o => list_by_engagement t e l o;; mret tt
  | GetPlanVersion t pid => get_plan_version t pid;; mret tt
  | ListPlanVersions t id => list_plan_versions t id;; mret tt
  end.

(** A world some sequence of commands leads to from the empty one. *)
Inductive reachable_world : World → Prop :=
  | rw_empty : reachable_world empty_world
  | rw_command w c now : reachable_world w → command_ok c w → reachable_world (run_command c now w).2.
End Worlds.

(** ** Specification *)

(** The rows of a governed operation. *)
Definition op_stored (db : OpDb) (o : Operation) : Prop := governed o ∧ ok_operation o ∧ op_holds db o.

(** The row of a sealed plan version. *)
Definition plan_stored (db : OpDb) (v : ExecutionPlanVersion) : Prop := plan_to_row v ∈ ob_plans db ∧ ok_plan v.

(** At most one version of an operation is in state [st]. *)
Definition exclusive (st : ExecutionPlanVersionState.t) (db : OpDb) : Prop :=
  ∀ r1 r2, r1 ∈ ob_plans db → r2 ∈ ob_plans db → is_plan_of (vr_operation_id r2) (vr_tenant_id r2) r1 →
    vr_state r1 = ExecutionPlanVersionState.value st → vr_state r2 = ExecutionPlanVersionState.value st → r1 = r2.

(** All rows are of such objects, and no operation has two signed or two
    executing plans. *)
Record op_good (db : OpDb) : Prop := {
  og_keys : op_keys db;
  og_operations : ∀ row, row ∈ ob_operations db → ∃ o, row = operation_to_row o ∧ op_stored db o;
  og_plans : ∀ row, row ∈ ob_plans db → ∃ v, row = plan_to_row v ∧ ok_plan v;
  og_signed : exclusive ExecutionPlanVersionState.SIGNED db;
  og_executing : exclusive ExecutionPlanVersionState.EXECUTING db
}.

(** What the arguments of a call are made of. *)
Definition ok_call (c : call) : Prop :=
  match c with
  | CAddStep _ nm spec _ sid => ok_step (step_of_spec sid nm spec)
  | CAddDependency _ f u _ did => did ≠ 0 ∧ f ≠ 0 ∧ u ≠ 0
  | CSetObjectives _ objs _ => ∀ x, x ∈ objs → x.1 ≠ 0
  | CApprove _ _ _ _ _ aid => aid ≠ 0
  | _ => True
  end.

(** ** Lemmas *)

(** *** Calls of the aggregates *)

(** What no call changes. *)
Definition same_key (o o' : Operation) : Prop :=
  operation_id o' = operation_id o ∧ tenant_id o' = tenant_id o ∧ engagement_id o' = engagement_id o ∧
  created_at o' = created_at o.

Lemma op_call_keeps_key c o : wp (run_call c) (λ _, same_key o) (λ _ _, True) o.
Proof. destruct c; simpl; unfold_operation; wp_run; done. Qed.

Lemma ok_step_name sid nm nm' spec : ok_step (step_of_spec sid nm spec) → ok_step (step_of_spec sid nm' spec).
Proof. intros [H1 H2 H3 H4 H5 H6 H7 H8]. by split. Qed.

Lemma op_run_call_ok c o : ok_call c → ok_operation o → wp (run_call c) (λ _, ok_operation) (λ _ _, True) o.
Proof.
  intros Hc Ho. destruct c; simpl in Hc |- *; unfold_operation; wp_run; try done.
  all: destruct Ho as [K1 K2 K3 K4 K5 K6]; split; simpl; auto.
  all: try by apply all_snoc.
  all: try by intros x []%not_elem_of_nil.
  - intros s ([k s'] & -> & [[= -> ->]|Hin]%in_dset)%list_elem_of_fmap; [by eapply ok_step_name|].
    apply K3. exact (list_elem_of_fmap_2 snd _ _ Hin).
  - intros s ([k s'] & -> & [_ Hin]%list_elem_of_filter)%list_elem_of_fmap. apply K3.
    exact (list_elem_of_fmap_2 snd _ _ Hin).
  - intros d [_ Hd]%list_elem_of_filter. auto.
  - apply all_snoc; [done|]. destruct Hc as (? & ? & ?). by split.
  - intros x (y & -> & Hy)%list_elem_of_fmap. simpl. auto.
Qed.

(** A call on a governed operation of good parts. *)
Lemma op_run_call_good c o o' : ok_call c → governed o → ok_operation o → run_call c o = (Ok tt, o') →
  governed o' ∧ ok_operation o' ∧ same_key o o'.
Proof.
  intros Hc Hg Hok Hrun. split; [exact (wp_ok _ _ _ _ _ _ (op_run_call_keeps c o Hg) Hrun)|].
  split; [exact (wp_ok _ _ _ _ _ _ (op_run_call_ok c o Hc Hok) Hrun)|exact (wp_ok _ _ _ _ _ _ (op_call_keeps_key c o) Hrun)].
Qed.

(** Moving a version changes only its state, version and time. *)
Lemma move_spec to ev t now v : wp (PV.move to ev t now) (λ _ v',
  PV.content v' = PV.content v ∧ pv_created_at v' = pv_created_at v ∧ pv_state v' = to ∧ to ∈ PV._ALLOWED (pv_state v))
  (λ _ _, True) v.
Proof.
  unfold PV.move, PV._assert_tenant, PV._transition, PV._mutate, PV._emit. wp_run; try done. by stable.
Qed.

Section Service.
Context `{!RowOrder} `{!TenantColumns}.

(** *** Saves *)

Lemma op_save_good o db db' o' : op_good db → governed o → ok_operation o →
  (∀ o0, op_stored db o0 → operation_id o0 = operation_id o → same_key o o0) →
  save_operation o db = Ok (db', o') →
  op_good db' ∧ op_stored db' o' ∧ with_version o o' ∧ ob_plans db' = ob_plans db.
Proof.
  intros [Hk Hrows Hplans Hsg Hex] Hg Hok Hsame Hsave.
  destruct (op_save_holds o db db' o' Hk Hsave) as (Hw & Hk' & Hp & Hh & Hothers & Hup).
  { intros row Hin Hid. destruct (Hrows row Hin) as (o0 & -> & Hst). by destruct (Hsame o0 Hst Hid) as (_ & _ & ? & ?). }
  destruct (with_version_good o o' Hw Hg Hok) as [Hg' Hok']. split; [|done].
  split; [done| |by rewrite Hp|unfold exclusive; by rewrite Hp|unfold exclusive; by rewrite Hp].
  intros row Hin. destruct Hup as [_ _ _ Hall]. destruct (Hall row Hin) as [->|[Hold Hne]]; [by exists o'|].
  destruct (Hrows row Hold) as (o0 & -> & Hg0 & Hok0 & Hh0). exists o0. split; [done|]. split_and!; [done..|].
  by apply Hothers.
Qed.

(** Two stored operations with one id are one row. *)
Lemma op_stored_same_key db a b : op_good db → op_stored db a → op_stored db b → operation_id a = operation_id b →
  same_key b a.
Proof.
  intros [[Hk _ _] _ _ _ _] (_ & _ & Ha) (_ & _ & Hb) Hid.
  assert (operation_to_row a = operation_to_row b) as Hrow.
  { apply (nodup_key_inj or_id (ob_operations db)); [done|apply Ha|apply Hb|done]. }
  by injection Hrow.
Qed.

(** A version may be saved in a state no other version of its operation is in. *)
Definition sole (st : ExecutionPlanVersionState.t) (v : ExecutionPlanVersion) (db : OpDb) : Prop :=
  pv_state v = st → ∀ r, r ∈ ob_plans db → is_plan_of (pv_operation_id v) (pv_tenant_id v) r →
  vr_state r = ExecutionPlanVersionState.value st → vr_id r = plan_version_id v.

Lemma plan_state_inj a b : ExecutionPlanVersionState.value a = ExecutionPlanVersionState.value b → a = b.
Proof. by destruct a, b. Qed.

Lemma exclusive_save st v v' db db' : exclusive st db → sole st v db →
  v' = v <| pv_version := pv_version v' |> →
  upserted vr_id (plan_version_id v) (plan_to_row v') (ob_plans db) (ob_plans db') → exclusive st db'.
Proof.
  intros Hex Hsole Hv [_ _ _ Hall] r1 r2 H1 H2 Hof Hs1 Hs2. rewrite Hv in Hall.
  destruct (Hall r1 H1) as [->|[O1 N1]], (Hall r2 H2) as [->|[O2 N2]]; [done| | |by apply Hex].
  - exfalso. apply N2. apply Hsole; [by apply plan_state_inj|done| |done]. destruct Hof. by split.
  - exfalso. apply N1. by apply Hsole; [apply plan_state_inj|..].
Qed.

(** Saving a plan version: a new row, or the row of the stored one updated. *)
Lemma save_plan_good v v' db db' : op_good db → ok_plan v →
  (∀ row, row ∈ ob_plans db → vr_id row = plan_version_id v →
     vr_number row = vr_number (plan_to_row v) ∧ vr_created_at row = pv_created_at v) →
  sole ExecutionPlanVersionState.SIGNED v db → sole ExecutionPlanVersionState.EXECUTING v db →
  save_plan v db = Ok (db', v') →
  op_good db' ∧ v' = v <| pv_version := pv_version v' |> ∧ db' = db <| ob_plans := ob_plans db' |> ∧
  upserted vr_id (plan_version_id v) (plan_to_row v') (ob_plans db) (ob_plans db').
Proof.
  intros [Hk Hrows Hplans Hsg Hex] Hok Hsame Hss Hse Hsave.
  destruct (save_plan_rows v db db' v' Hk Hsave Hsame) as (Hv & Hk' & Hdb & Hup). split; [|done].
  split; [done| | |by eapply exclusive_save|by eapply exclusive_save].
  - intros row. rewrite Hdb. simpl. intros Hin. destruct (Hrows row Hin) as (o & -> & Hg & Ho & [H1 H2 H3 H4 H5]).
    exists o. split; [done|]. split_and!; [done..|]. by split.
  - destruct Hup as [_ _ _ Hall]. intros row Hin. destruct (Hall row Hin) as [->|[Hold _]]; [|by apply Hplans].
    exists v'. split; [done|]. rewrite Hv. destruct Hok as [K1 K2 K3 [K4 K5 K6 K7]]. by split; [| | |split].
Qed.

(** A stored version that moved is still the version of its row. *)
Lemma moved_row v v' db row : op_good db → plan_stored db v → PV.content v' = PV.content v →
  pv_created_at v' = pv_created_at v → row ∈ ob_plans db → vr_id row = plan_version_id v' →
  vr_number row = vr_number (plan_to_row v') ∧ vr_created_at row = pv_created_at v'.
Proof.
  intros [[_ Hk _] _ _ _ _] [Hin _] Hc Hcr Hrow Hid. unfold PV.content in Hc. injection Hc as _ _ _ Hn Ho Hv Ht.
  rewrite (nodup_key_inj vr_id (ob_plans db) row (plan_to_row v)); [|done|done|done|by rewrite Hid].
  unfold vr_number. simpl. by rewrite Hn, Ho, Ht, Hcr.
Qed.

(** A save after [supersede] or [mark_executing] of a stored version. *)
Lemma moved_plan_good to ev t now v v1 v2 db db' : op_good db → plan_stored db v → PV.move to ev t now v = (Ok tt, v1) →
  keeps PV.sealed (PV.move to ev t now) → to ≠ ExecutionPlanVersionState.SIGNED →
  sole ExecutionPlanVersionState.EXECUTING v1 db → save_plan v1 db = Ok (db', v2) →
  op_good db' ∧ db' = db <| ob_plans := ob_plans db' |> ∧ PV.content v2 = PV.content v ∧ pv_state v2 = to ∧
  upserted vr_id (plan_version_id v) (plan_to_row v2) (ob_plans db) (ob_plans db').
Proof.
  intros Hgood Hst Hmove Hkeeps Hto Hsole Hsave.
  destruct (wp_ok _ _ _ _ _ _ (move_spec to ev t now v) Hmove) as (Hc & Hcr & Hs & _).
  pose proof Hst as [Hin [K1 K2 K3 K4]].
  assert (plan_version_id v1 = plan_version_id v ∧ pv_operation_id v1 = pv_operation_id v ∧ snapshot v1 = snapshot v)
    as (Hid & Hop & Hsn) by (unfold PV.content in Hc; by injection Hc).
  destruct (save_plan_good v1 v2 db db') as (Hgood' & Hv2 & Hdb & Hup); [done| | | |done|done|].
  - split; [by rewrite Hid|by rewrite Hop|by rewrite Hsn|exact (wp_ok _ _ _ _ _ _ (Hkeeps v K4) Hmove)].
  - intros row Hrow Hrid. by apply (moved_row v v1 db).
  - intros Hsg. congruence.
  - rewrite <- Hid. split_and!; [done|done| | |done]; rewrite Hv2; [|by destruct v1]. rewrite <- Hc. by destruct v1.
Qed.
End Service.

(** *** Transactions *)

Section Transactions.
Context `{!RowOrder} `{!TenantColumns}.

Lemma wp_op_query {A} (q : OpDb → result StoreError A) (Q : A → Session OpDb → Prop) X s :
  (∀ a, q (s_view s) = Ok a → Q a s) → (∀ e, X e s) → wp (query q) Q X s.
Proof. intros HQ HX. unfold wp, query. destruct (q (s_view s)); auto. Qed.

Lemma wp_op_write {O} f (o : O) (Q : O → Session OpDb → Prop) X s :
  (∀ db' o', f o (s_view s) = Ok (db', o') → Q o' (s <| s_view := db' |>)) → (∀ e, X e s) → wp (write f o) Q X s.
Proof. intros HQ HX. unfold wp, write. destruct (f o (s_view s)) as [[]|]; auto. Qed.

Lemma wp_on_object {O} m (o : O) (Q : O → Session OpDb → Prop) X s :
  (∀ o', m o = (Ok tt, o') → Q o' s) → (∀ e, X e s) → wp (on_object m o) Q X s.
Proof. intros HQ HX. unfold on_object. destruct (m o) as [[[]|e] o'] eqn:Hm; wp_run; auto. Qed.

(** A stored operation is found as a copy that is as good. *)
Lemma op_good_load db t o row : op_good db → row ∈ ob_operations db → or_tenant_id row = t → load_operation db t row = Ok o →
  governed o ∧ ok_operation o ∧ operation_id o = or_id row ∧ tenant_id o = t ∧ pending_events o = [] ∧
  ∃ o0, op_stored db o0 ∧ same_operation o o0.
Proof.
  intros [Hk Hrows _ _ _] Hin Ht Hl. destruct (Hrows row Hin) as (o0 & -> & Hst). pose proof Hst as (Hg0 & Hok0 & Hh0).
  assert (binds_entity_id = true) as Hb.
  { destruct binds_entity_id eqn:Hb; [done|]. by rewrite load_needs_binding in Hl. }
  destruct (op_holds_load db o0 Hh0 Hg0 Hok0 Hb) as (o' & Hl' & Hs & Hp). simpl in Ht. subst t.
  rewrite Hl in Hl'. injection Hl' as <-.
  split_and!; [by apply (same_op_governed _ o0)|by apply (same_op_ok _ o0)|by destruct Hs; simpl; congruence|
    by destruct Hs; congruence|done|by exists o0].
Qed.

Lemma op_good_find id t db o : op_good db → find_operation id t db = Ok (Some o) →
  governed o ∧ ok_operation o ∧ operation_id o = id ∧ tenant_id o = t ∧ pending_events o = [] ∧
  ∃ o0, op_stored db o0 ∧ same_operation o o0.
Proof.
  intros Hgood. unfold find_operation. destruct (find _ _) as [row|] eqn:Hf; [|done].
  apply find_some in Hf as [Hin Hb]. apply list_elem_of_In in Hin. unfold is_operation_row in Hb. guards.
  destruct (load_operation db t row) as [x|e] eqn:Hl; [|done]. intros [= ->].
  destruct (op_good_load db t o row) as (? & ? & Hid & ?); [done..|]. rewrite Hid. split_and!; tauto.
Qed.

Lemma wp_load_operation id t (Q : Operation → Session OpDb → Prop) X s :
  (∀ o, find_operation id t (s_view s) = Ok (Some o) → Q o s) → (∀ e, X e s) → wp (load id t) Q X s.
Proof. intros HQ HX. unfold load. wp_step. apply wp_op_query; [|done]. intros [o|] Hf; wp_run; auto. Qed.

(** The key of an operation found is that of every stored one with its id. *)
Lemma found_key db o o0 : op_good db → op_stored db o0 → same_operation o o0 →
  ∀ x, op_stored db x → operation_id x = operation_id o → same_key o x.
Proof.
  intros Hgood Hst0 Hs x Hx Hid. destruct Hs as [Hf _ _ _ _].
  destruct (op_stored_same_key db x o0) as (H1 & H2 & H3 & H4); [done..|congruence|]. unfold same_key. split_and!; congruence.
Qed.

(** Arguments that are evaluated from inputs and queries. *)
Definition op_arguments {A} (args : Tx A) (P : A → Prop) : Prop :=
  ∀ s, wp args (λ c s', s' = s ∧ P c) (λ _ s', s' = s) s.

(** The update of an operation: it commits the call, or it leaves the tables as
    they were. *)
Lemma wp_update_operation t id args (Q : Operation → Session OpDb → Prop) X db : op_good db →
  (∀ o, op_arguments (args o) ok_call) →
  (∀ c o o1 o2 db', find_operation id t db = Ok (Some o) → wp (args o) (λ c' _, c' = c) (λ _ _, True) (mkSession db db) →
     run_call c o = (Ok tt, o1) → with_version o1 o2 → op_good db' → op_stored db' o2 → ob_plans db' = ob_plans db →
     Q o2 (mkSession db' db')) →
  (∀ e v, X e (mkSession v db)) → wp (update_operation t id args) Q X (mkSession db db).
Proof.
  intros Hgood Hargs HQ HX. unfold update_operation. wp_step. apply wp_load_operation; [|intros e; apply HX]. simpl.
  intros o Hf. wp_step.
  assert (∀ c s, args o (mkSession db db) = (Ok c, s) → wp (args o) (λ c' _, c' = c) (λ _ _, True) (mkSession db db)) as Hargs'.
  { intros c s Ha. unfold wp. by rewrite Ha. }
  pose proof (Hargs o (mkSession db db)) as Ho. unfold wp in Ho. unfold wp at 1.
  destruct (args o (mkSession db db)) as [[c|e] s] eqn:Ha; [|subst; apply HX]. destruct Ho as [-> Hc].
  wp_step. apply wp_on_object; [|intros e; apply HX]. intros o1 Hrun. wp_step. apply wp_op_write; [|intros e; apply HX].
  simpl. intros db' o2 Hsave. wp_run.
  destruct (op_good_find id t db o Hgood Hf) as (Hg & Hok & _ & _ & _ & o0 & Hst & Hs).
  destruct (op_run_call_good c o o1 Hc Hg Hok Hrun) as (Hg1 & Hok1 & K1 & K2 & K3 & K4).
  destruct (op_save_good o1 db db' o2) as (Hgood' & Hst2 & Hw & Hp); [done..| |done|].
  - intros x Hx Hid. rewrite K1 in Hid. destruct (found_key db o o0 Hgood Hst Hs x Hx Hid) as (J1 & J2 & J3 & J4).
    unfold same_key. split_and!; congruence.
  - apply (HQ c o o1); try done. by eapply Hargs'.
Qed.

Lemma op_world_same w : w <| w_db := w_db w |> = w.
Proof. by destruct w. Qed.

Lemma wp_op_in_uow {A} (body : Tx A) (Q : A → World → Prop) X w :
  wp body (λ a s, Q a (w <| w_db := s_durable s |>)) (λ e s, X e (w <| w_db := s_durable s |>))
    (mkSession (w_db w) (w_db w)) → wp (in_uow body) Q X w.
Proof. unfold wp, in_uow. by destruct (body _) as [[]]. Qed.

Lemma wp_operation_command t id args (Q : OperationDTO → World → Prop) X w : op_good (w_db w) →
  (∀ o, op_arguments (args o) ok_call) → (∀ d w', op_good (w_db w') → Q d w') → (∀ e, X e w) →
  wp (operation_command t id args) Q X w.
Proof.
  intros Hgood Hargs HQ HX. unfold operation_command, _publish. wp_step. apply wp_op_in_uow.
  apply wp_update_operation; [done|done| |].
  - intros c o o1 o2 db' _ _ _ _ Hgood' _ _. wp_run. by apply HQ.
  - intros e v. simpl. rewrite op_world_same. apply HX.
Qed.

(** A query changes nothing. *)
Lemma wp_op_read {A} (body : Tx A) (Q : A → World → Prop) X w :
  (∀ s, wp body (λ _ s', s' = s) (λ _ s', s' = s) s) → (∀ a, Q a w) → (∀ e, X e w) → wp (in_uow body) Q X w.
Proof.
  intros Hb HQ HX. apply wp_op_in_uow. eapply wp_mono; [apply Hb|..]; intros ? ? ->; simpl; by rewrite op_world_same.
Qed.

(** *** Plan versions *)

(** The versions some rows are decoded as are stored. *)
Lemma decoded_plans db rows l : op_good db → (∀ r, r ∈ rows → r ∈ ob_plans db) → decoded (mapM plan_from_row rows) = Ok l →
  map plan_to_row l = rows ∧ ∀ v, v ∈ l → plan_stored db v.
Proof.
  intros [_ _ Hplans _ _] Hin. destruct (mapM _ rows) as [l'|] eqn:Hm; [|done]. intros [= ->].
  apply mapM_Some_1 in Hm. induction Hm as [|r v rows l Hrv _ IH]; [split; [done|by intros v []%not_elem_of_nil]|].
  destruct IH as [IH1 IH2]; [by intros r' Hr'; apply Hin; right|].
  destruct (Hplans r) as (v0 & -> & Hok); [apply Hin; left|]. rewrite plan_round in Hrv by done. injection Hrv as <-.
  split; [simpl; by rewrite IH1|]. intros v [->|Hv]%elem_of_cons; [|by apply IH2].
  split; [apply (Hin (plan_to_row v0)); left|]. by destruct Hok as [? ? ? [? ? ? ?]].
Qed.

Lemma find_plan_stored id t db v : op_good db → find_plan id t db = Ok (Some v) →
  plan_stored db v ∧ plan_version_id v = id ∧ pv_tenant_id v = t.
Proof.
  intros Hgood. unfold find_plan. destruct (find _ _) as [row|] eqn:Hf; [|done].
  apply find_some in Hf as [Hin Hb]. apply list_elem_of_In in Hin. unfold is_plan_row in Hb. guards.
  destruct (og_plans db Hgood row Hin) as (v0 & -> & Hok). rewrite plan_round by done. intros [= <-].
  split; [|done]. split; [done|]. by destruct Hok as [? ? ? [? ? ? ?]].
Qed.
(** The versions with the ids [ids] are superseded, and the others as they
    were. *)
Record superseded (ids : list uuid) (db db' : OpDb) : Prop := {
  sp_only : db' = db <| ob_plans := ob_plans db' |>;
  sp_rows : ∀ row, row ∈ ob_plans db' → row ∈ ob_plans db ∧ vr_id row ∉ ids ∨
    vr_state row = ExecutionPlanVersionState.value ExecutionPlanVersionState.SUPERSEDED ∧ vr_id row ∈ ids ∧
    ∃ r0, r0 ∈ ob_plans db ∧ vr_id row = vr_id r0;
  sp_kept : ∀ row, row ∈ ob_plans db → vr_id row ∉ ids → row ∈ ob_plans db'
}.

Lemma superseded_nil db : superseded [] db db.
Proof.
  split; [by destruct db| |done]. intros row Hrow. left. split; [done|]. apply not_elem_of_nil.
Qed.

Lemma superseded_app ids1 ids2 db db1 db2 : superseded ids1 db db1 → superseded ids2 db1 db2 →
  superseded (ids1 ++ ids2) db db2.
Proof.
  intros [O1 R1 K1] [O2 R2 K2]. split.
  - rewrite O2, O1. by destruct db.
  - intros row Hrow. rewrite elem_of_app. destruct (R2 row Hrow) as [[Hr1 Hn2]|(Hs & Hi & r1 & Hr1 & Hid)].
    + destruct (R1 row Hr1) as [[Hr0 Hn1]|(Hs & Hi & r0 & Hr0 & Hid)]; [left; split; [done|by intros []]|right].
      split_and!; [done|by left|by exists r0].
    + right. split_and!; [done|by right|].
      destruct (R1 r1 Hr1) as [[Hr0 _]|(_ & _ & r0 & Hr0 & Hid0)]; [by exists r1|exists r0; split; [done|congruence]].
  - intros row Hrow. rewrite elem_of_app. intros Hn. apply K2; [apply K1|]; tauto.
Qed.

Lemma superseded_stored ids db db' v : superseded ids db db' → plan_stored db v → plan_version_id v ∉ ids →
  plan_stored db' v.
Proof. intros [_ _ K] [Hin Hok] Hn. split; [by apply K|done]. Qed.

(** One stored version superseded and saved. *)
Lemma supersede_stored t now v v1 v2 db db' : op_good db → plan_stored db v → PV.supersede t now v = (Ok tt, v1) →
  save_plan v1 db = Ok (db', v2) →
  op_good db' ∧ superseded [plan_version_id v] db db' ∧ plan_version_id v2 = plan_version_id v.
Proof.
  intros Hgood Hst Hmove Hsave.
  pose proof (wp_ok _ _ _ _ _ _ (move_spec _ _ t now v) Hmove) as (_ & _ & Hs1 & _).
  destruct (moved_plan_good ExecutionPlanVersionState.SUPERSEDED ExecutionPlanVersionSuperseded t now v v1 v2 db db')
    as (Hgood' & Hdb & Hc & Hs & [_ Hnew Hkept Hall]); try done.
  { apply (PV.pv_call_sealed (PV.CSupersede t now)). }
  { intros Hex. congruence. }
  assert (plan_version_id v2 = plan_version_id v) as Hid by (unfold PV.content in Hc; by injection Hc).
  split; [done|]. split; [|done]. split; [done| |].
  - intros row Hrow. destruct (Hall row Hrow) as [->|[Hold Hne]].
    + right. split; [simpl; by rewrite Hs|]. split; [simpl; rewrite Hid; left|]. exists (plan_to_row v).
      split; [apply Hst|done].
    + left. split; [done|]. by intros ?%list_elem_of_singleton.
  - intros row Hrow Hne. apply Hkept; [done|]. intros Heq. apply Hne. rewrite Heq. left.
Qed.

Lemma stored_rest ids db db' (l : list ExecutionPlanVersion) v : superseded ids db db' → (∀ i, i ∈ ids → i = plan_version_id v) →
  plan_version_id v ∉ map plan_version_id l → (∀ x, x ∈ v :: l → plan_stored db x) → ∀ x, x ∈ l → plan_stored db' x.
Proof.
  intros Hs Hids Hv Hst x Hx. apply (superseded_stored ids db); [done|apply Hst; by right|].
  intros Hin%Hids. apply Hv. rewrite <- Hin. by apply list_elem_of_fmap_2.
Qed.

(** The loop of a signature supersedes the signed versions. *)
Lemma wp_supersede_signed t now l (Q : list ExecutionPlanVersion → Session OpDb → Prop) X db du : op_good db →
  NoDup (map plan_version_id l) → (∀ v, v ∈ l → plan_stored db v) →
  (∀ l' db', op_good db' →
     superseded (map plan_version_id (filter (λ v, pv_state v = ExecutionPlanVersionState.SIGNED) l)) db db' →
     Q l' (mkSession db' du)) →
  (∀ e v, X e (mkSession v du)) → wp (supersede_signed t now l) Q X (mkSession db du).
Proof.
  unfold supersede_signed. revert db Q. induction l as [|v l IH]; intros db Q Hgood Hnd Hst HQ HX; simpl.
  - wp_run. apply HQ; [done|]. apply superseded_nil.
  - apply NoDup_cons in Hnd as [Hv Hnd]. rewrite filter_cons in HQ. wp_step. case_decide as Hs.
    + wp_step. apply wp_on_object; [|intros e; apply HX]. intros v1 Hmove. apply wp_op_write; [|intros e; apply HX].
      simpl. intros db1 v2 Hsave. destruct (supersede_stored t now v v1 v2 db db1) as (Hgood1 & Hsup & _); [done| |done..|].
      { apply Hst. left. }
      wp_step. apply IH; [done|done| | |done].
      * apply (stored_rest [plan_version_id v] db db1 l v); [done|by intros i ->%list_elem_of_singleton|done..].
      * intros l' db' Hgood' Hsup'. wp_run. apply HQ; [done|]. by apply (superseded_app [_] _ db db1).
    + wp_step. wp_step. apply IH; [done|done|by intros x Hx; apply Hst; right| |done].
      intros l' db' Hgood' Hsup'. wp_run. by apply HQ.
Qed.

(** What invalidating a payload looks for in a version. *)
Definition references (token : string) (v : ExecutionPlanVersion) : Prop :=
  pv_state v ∈ [ExecutionPlanVersionState.SIGNED; ExecutionPlanVersionState.EXECUTING] ∧ str_in token (snapshot v) = true.
#[export] Instance references_dec token v : Decision (references token v).
Proof. unfold references. apply _. Defined.

Lemma wp_supersede_referencing t token now l (Q : list ExecutionPlanVersion → Session OpDb → Prop) X db du :
  op_good db → NoDup (map plan_version_id l) → (∀ v, v ∈ l → plan_stored db v) →
  (∀ l' db', op_good db' → map plan_version_id l' = map plan_version_id (filter (references token) l) →
     superseded (map plan_version_id l') db db' → Q l' (mkSession db' du)) →
  (∀ e v, X e (mkSession v du)) → wp (supersede_referencing t token now l) Q X (mkSession db du).
Proof.
  revert db Q. induction l as [|v l IH]; intros db Q Hgood Hnd Hst HQ HX; simpl.
  - wp_run. apply HQ; [done|done|]. apply superseded_nil.
  - apply NoDup_cons in Hnd as [Hv Hnd]. rewrite filter_cons in HQ.
    assert (¬ references token v → wp (supersede_referencing t token now l) Q X (mkSession db du)) as Hskip.
    { intros Hno. rewrite decide_False in HQ by done. apply IH; [done|done|by intros x Hx; apply Hst; right|done|done]. }
    destruct (decide (pv_state v ∉ _)) as [Hs|Hs]; [apply Hskip; by intros []|]. destruct (str_in token (snapshot v)) eqn:Hin; cbn [negb].
    2: { apply Hskip. intros [_ ?]. congruence. }
    rewrite decide_True in HQ by (split; [by apply dec_stable|done]). wp_step.
    apply wp_on_object; [|intros e; apply HX]. intros v1 Hmove. wp_step. apply wp_op_write; [|intros e; apply HX].
    simpl. intros db1 v2 Hsave. destruct (supersede_stored t now v v1 v2 db db1) as (Hgood1 & Hsup & Hid); [done| |done..|].
    { apply Hst. left. }
    wp_step. apply IH; [done|done| | |done].
    + apply (stored_rest [plan_version_id v] db db1 l v); [done|by intros i ->%list_elem_of_singleton|done..].
    + intros l' db' Hgood' Hids Hsup'. wp_run. apply HQ; [done|simpl; by rewrite Hid, Hids|].
      simpl. rewrite Hid. by apply (superseded_app [_] _ db db1).
Qed.

Lemma NoDup_map_filter {A B} (f : A → B) (P : A → Prop) `{∀ x, Decision (P x)} (l : list A) :
  NoDup (map f l) → NoDup (map f (filter P l)).
Proof.
  induction l as [|x l IH]; [done|]. simpl. intros [Hx Hnd]%NoDup_cons. rewrite filter_cons. case_decide; [|by apply IH].
  constructor; [|by apply IH]. intros (y & Heq & [_ Hy]%list_elem_of_filter)%list_elem_of_fmap.
  apply Hx. rewrite Heq. by apply list_elem_of_fmap_2.
Qed.

(** The versions of the rows a query selects. *)
Lemma selected_plans (P : PlanRow → Prop) `{∀ r, Decision (P r)} db rows l : op_good db →
  rows ≡ₚ filter P (ob_plans db) → decoded (mapM plan_from_row rows) = Ok l →
  NoDup (map plan_version_id l) ∧ (∀ v, v ∈ l → plan_stored db v ∧ P (plan_to_row v)) ∧
  (∀ row, row ∈ ob_plans db → P row → ∃ v, v ∈ l ∧ row = plan_to_row v) ∧ map plan_to_row l ≡ₚ filter P (ob_plans db).
Proof.
  intros Hgood Hp Hl. assert (∀ r, r ∈ rows ↔ P r ∧ r ∈ ob_plans db) as Hin by (intros r; by rewrite Hp, list_elem_of_filter).
  destruct (decoded_plans db rows l) as [Hrows Hst]; [done|by intros r [_ ?]%Hin|done|]. split_and!.
  - assert (map plan_version_id l = map vr_id rows) as -> by (rewrite <- Hrows, map_map; by apply map_ext).
    rewrite Hp. apply NoDup_map_filter, Hgood.
  - intros v Hv. split; [by apply Hst|]. apply Hin. rewrite <- Hrows. by apply list_elem_of_fmap_2.
  - intros row Hrow HP. assert (row ∈ rows) as Hr by (by apply Hin). rewrite <- Hrows in Hr.
    apply list_elem_of_fmap in Hr as (v & -> & Hv). by exists v.
  - by rewrite Hrows.
Qed.

(** What a signature leaves: a signed version whose snapshot is the serialization
    of the stored operation, which the validator accepted. *)
Definition signed_for `{!EngagementQueryPort} (t : TenantId) (id operator : uuid) (sig : string) (db : OpDb)
    (v : ExecutionPlanVersion) (db' : OpDb) : Prop :=
  ∃ o targets techniques, find_operation id t db = Ok (Some o) ∧
    get_authorized_targets (engagement_id o) t = Ok targets ∧ get_allowed_techniques (engagement_id o) t = Ok techniques ∧
    valid_plan o targets techniques ∧ snapshot v = dumps (plan_payload o) ∧
    pv_operation_id v = id ∧ pv_tenant_id v = t ∧ pv_state v = ExecutionPlanVersionState.SIGNED ∧
    (∃ at_, signed_by v = Some (mkSignedBy operator at_ sig)) ∧
    version_number v = next_version_number id t db ∧ plan_stored db' v.

End Transactions.

(** *** The commands on plan versions *)

Section PlanCommands.
Context `{!RowOrder} `{!TenantColumns} `{!EngagementQueryPort} `{!VulnerabilityQueryPort}.

Lemma wp_port {S A} (r : result unit A) (Q : A → S → Prop) X s : (∀ a, r = Ok a → Q a s) → (∀ e, X e s) → wp (port r) Q X s.
Proof. intros HQ HX. unfold port. destruct r; wp_run; auto. Qed.

Lemma wp_construct_value {S A} (x : option A) (Q : A → S → Prop) X s : (∀ a, x = Some a → Q a s) → (∀ e, X e s) →
  wp (construct x) Q X s.
Proof. intros HQ HX. unfold construct. destruct x; wp_run; auto. Qed.

Lemma wp_construct_if {S A B} (x : option A) (f : A → option B) (Q : option B → S → Prop) X s :
  (∀ y, (∀ b, y = Some b → ∃ a, x = Some a ∧ f a = Some b) → Q y s) → (∀ e, X e s) → wp (construct_if x f) Q X s.
Proof.
  intros HQ HX. unfold construct_if. destruct x as [a|]; [|wp_run; by apply HQ].
  wp_step. apply wp_construct_value; [|done]. intros b Hb. wp_run. apply HQ. intros b' [= <-]. by exists a.
Qed.

Lemma wp_check_plan o t (Q : unit → Session OpDb → Prop) X s : governed o →
  (∀ targets techniques, get_authorized_targets (engagement_id o) t = Ok targets →
     get_allowed_techniques (engagement_id o) t = Ok techniques → valid_plan o targets techniques → Q tt s) →
  (∀ e, X e s) → wp (check_plan o t) Q X s.
Proof.
  intros Hg HQ HX. unfold check_plan. wp_step. apply wp_port; [|done]. intros targets Ht.
  wp_step. apply wp_port; [|done]. intros techniques Hr. destruct (validate o targets techniques) as [[]|e] eqn:Hv; wp_run; [|done].
  apply (HQ targets techniques); [done|done|]. by apply (validate_spec o Hg).
Qed.

Lemma sign_spec t operator sig now v : wp (PV.sign t operator sig now) (λ _ v',
  pv_state v' = ExecutionPlanVersionState.SIGNED ∧ signed_by v' = Some (mkSignedBy operator now sig) ∧
  (snapshot v', version_number v', pv_operation_id v', plan_version_id v', pv_tenant_id v') =
  (snapshot v, version_number v, pv_operation_id v, plan_version_id v, pv_tenant_id v)) (λ _ _, True) v.
Proof.
  assert (∀ b, SignedBy_new operator now sig = Some b → b = mkSignedBy operator now sig) as Hb.
  { intros b. unfold SignedBy_new. repeat case_match; try done. by intros [= <-]. }
  unfold PV.sign, PV._assert_tenant, PV._transition, PV._mutate, PV._emit. wp_run; try done.
  split; [done|]. split; [|done]. simpl. f_equal. by apply Hb.
Qed.

(** A signed draft is sealed, for the snapshot it was created with. *)
Lemma signed_draft t op number snap now pid v operator sig now' v' : PV.create_draft t op number snap now pid = Ok v →
  PV.sign t operator sig now' v = (Ok tt, v') →
  PV.sealed v' ∧ pv_state v' = ExecutionPlanVersionState.SIGNED ∧ signed_by v' = Some (mkSignedBy operator now' sig) ∧
  (snapshot v', version_number v', pv_operation_id v', plan_version_id v', pv_tenant_id v') = (snap, number, op, pid, t).
Proof.
  intros Hc Hs. pose proof (PV.create_draft_sealed _ _ _ _ _ _ _ Hc) as Hv.
  destruct (wp_ok _ _ _ _ _ _ (sign_spec t operator sig now' v) Hs) as (H1' & H2' & H3').
  split_and!; [exact (wp_ok _ _ _ _ _ _ (PV.pv_call_sealed (PV.CSign t operator sig now') v Hv) Hs)|done|done|].
  rewrite H3'. unfold PV.create_draft in Hc. case_match; [done|]. by injection Hc as <-.
Qed.

Lemma draft_keeps_operation t now o : wp (record_plan_drafted t now) (λ _ o', operation_to_row o' = operation_to_row o ∧
  same_key o o') (λ _ _, True) o.
Proof. unfold record_plan_drafted, _assert_tenant, _emit. wp_run; done. Qed.

(** Stored operations do not depend on the plan versions. *)
Lemma op_stored_plans db plans o : op_stored db o → op_stored (db <| ob_plans := plans |>) o.
Proof. intros (Hg & Hok & [K1 K2 K3 K4 K5]). split_and!; [done..|]. by split. Qed.

Lemma wp_sign_tx t id operator sig new_id now (Q : list ExecutionPlanVersion * ExecutionPlanVersion * Operation →
    Session OpDb → Prop) X db : op_good db → new_id ∉ map vr_id (ob_plans db) →
  (∀ existing v o db', op_good db' → signed_for t id operator sig db v db' → Q (existing, v, o) (mkSession db' db')) →
  (∀ e v, X e (mkSession v db)) → wp (sign_tx t id operator sig new_id now) Q X (mkSession db db).
Proof.
  intros Hgood Hfresh HQ HX. unfold sign_tx. wp_step. apply wp_load_operation; [|intros e; apply HX]. cbn [s_view]. intros o Hf.
  destruct (op_good_find id t db o Hgood Hf) as (Hg & Hok & Hid & Ht & _ & o0 & Hst0 & Hs0).
  wp_step. apply wp_check_plan; [done| |intros e; apply HX]. intros targets techniques Htg Htq Hvalid.
  wp_step. apply wp_op_query; [|intros e; apply HX]. cbn [s_view]. intros number [= <-].
  wp_step. apply wp_op_query; [|intros e; apply HX]. cbn [s_view]. intros l Hl.
  unfold find_by_operation in Hl. apply (selected_plans (is_plan_of (operation_id o) t) db) in Hl as (Hnd & Hstl & Hall & _); [|done|].
  2: by rewrite merge_sort_Permutation, select_order_perm.
  wp_step. apply wp_supersede_signed; [done|done|by intros v Hv; apply Hstl| |done]. intros l' db1 Hgood1 [Honly Hrows _].
  wp_step. apply wp_construct_value; [|intros e; apply HX]. intros snap Hsnap.
  wp_step. apply wp_construct_value; [|intros e; apply HX]. intros pid [Hpid ->]%non_nil_some.
  wp_step. destruct (PV.create_draft t _ _ snap now new_id) as [v|e] eqn:Hc; wp_run; [|apply HX].
  apply wp_on_object; [|intros e; apply HX]. intros v1 Hsign.
  wp_step. apply wp_on_object; [|intros e; apply HX]. intros o1 Hdraft. wp_step. apply wp_op_write; [|intros e; apply HX].
  simpl. intros db2 v2 Hsave. wp_step. apply wp_op_write; [|intros e; apply HX]. cbn [s_view]. intros db3 o3 Hsaveo. wp_run.
  destruct (signed_draft _ _ _ _ _ _ _ _ _ _ _ Hc Hsign) as (Hseal & Hstate & Hby & Hfields).
  injection Hfields as Hsn Hnum Hop Hvid Hten.
  unfold _serialize_plan in Hsnap. assert (snap = dumps (plan_payload o)) as ->.
  { unfold PlanSnapshot_new in Hsnap. case_match; [done|]. by injection Hsnap as <-. }
  assert (∀ row, row ∈ ob_plans db1 → vr_id row ≠ new_id) as Hnew.
  { intros row Hrow Heq. apply Hfresh. rewrite <- Heq.
    destruct (Hrows row Hrow) as [[Hr _]|(_ & _ & r0 & Hr & ->)]; by apply list_elem_of_fmap_2. }
  destruct (save_plan_good v1 v2 db1 db2) as (Hgood2 & Hv2 & Hdb2 & Hup); [done| | | | |done|].
  - split; [by rewrite Hvid|rewrite Hop; apply Hok|by rewrite Hsn|done].
  - intros row Hrow Hrid. rewrite Hvid in Hrid. by destruct (Hnew row Hrow).
  - (* no signed version is left *)
    intros _ r Hr Hof Hrs. exfalso. rewrite Hop, Hten in Hof.
    destruct (Hrows r Hr) as [[Hr0 Hn]|(Hsup & _)]; [|by rewrite Hsup in Hrs].
    destruct (Hall r Hr0 Hof) as (x & Hx & ->). apply Hn. simpl. apply list_elem_of_fmap_2, list_elem_of_filter.
    split; [by apply plan_state_inj|done].
  - intros Hex. congruence.
  - destruct (wp_ok _ _ _ _ _ _ (draft_keeps_operation t now o) Hdraft) as (Hrow1 & Hkey).
    destruct (op_run_call_good (CRecordDraft t now) o o1 I Hg Hok Hdraft) as (Hg1 & Hok1 & _).
    destruct (op_save_good o1 db2 db3 o3) as (Hgood3 & _ & _ & Hplans); [done..| |done|].
    + intros x Hx Hxid. apply (op_stored_plans _ (ob_plans db)) in Hx. rewrite Hdb2, Honly in Hx.
      replace (_ <| ob_plans := ob_plans db |>) with db in Hx by (by destruct db).
      destruct Hkey as (K1 & K2 & K3 & K4). rewrite K1 in Hxid.
      destruct (found_key db o o0 Hgood Hst0 Hs0 x Hx Hxid) as (J1 & J2 & J3 & J4). unfold same_key. split_and!; congruence.
    + apply HQ; [done|]. exists o, targets, techniques. rewrite <- Hid.
      assert (∀ A (f : ExecutionPlanVersion → A), (∀ n, f (v1 <| pv_version := n |>) = f v1) → f v2 = f v1) as Hsame.
      { intros A f Hfn. by rewrite Hv2, Hfn. }
      rewrite !(Hsame _ snapshot), !(Hsame _ pv_operation_id), !(Hsame _ pv_tenant_id), !(Hsame _ pv_state),
        !(Hsame _ signed_by), !(Hsame _ version_number) by done.
      split_and!; try done; [by rewrite Hid|by eexists|].
      split; [simpl; rewrite Hplans; apply Hup|]. destruct Hseal as [K1 K2 K3 K4].
      assert (ok_plan v1) as Hokv by (split; [by rewrite Hvid|rewrite Hop; apply Hok|by rewrite Hsn|done]).
      rewrite Hv2. destruct Hokv as [? ? ? [? ? ? ?]]. by split; [| | |split].
Qed.

(** A query for the executing version of an operation finds it. *)
Lemma executing_found op t db x : op_good db → find_executing_for_operation op t db = Ok x →
  ∀ r, r ∈ ob_plans db → is_plan_of op t r →
    vr_state r = ExecutionPlanVersionState.value ExecutionPlanVersionState.EXECUTING →
    ∃ v, x = Some v ∧ plan_version_id v = vr_id r.
Proof.
  intros Hgood Hx r Hr Hof Hs. unfold find_executing_for_operation in Hx.
  destruct (filter _ (ob_plans db)) as [|r0 [|]] eqn:Hf; [| |done].
  - exfalso. assert (r ∈ ([] : list PlanRow)) as Hin; [|by apply not_elem_of_nil in Hin].
    rewrite <- Hf. by apply list_elem_of_filter.
  - assert (r ∈ [r0]) as ->%list_elem_of_singleton by (rewrite <- Hf; by apply list_elem_of_filter).
    destruct (og_plans db Hgood r0 Hr) as (v0 & -> & Hok). rewrite plan_round in Hx by done. injection Hx as <-. by eexists.
Qed.

Lemma wp_mark_executing_tx t pid now (Q : ExecutionPlanVersion → Session OpDb → Prop) X db : op_good db →
  (∀ v v' db', find_plan pid t db = Ok (Some v) → op_good db' → plan_to_row v' ∈ ob_plans db' →
     PV.content v' = PV.content v → pv_state v' = ExecutionPlanVersionState.EXECUTING →
     pv_state v = ExecutionPlanVersionState.SIGNED → Q v' (mkSession db' db')) →
  (∀ e v, X e (mkSession v db)) → wp (mark_executing_tx t pid now) Q X (mkSession db db).
Proof.
  intros Hgood HQ HX. unfold mark_executing_tx. wp_step. apply wp_op_query; [|intros e; apply HX]. simpl.
  intros [v|] Hf; wp_run; [|apply HX]. destruct (find_plan_stored pid t db v Hgood Hf) as (Hst & Hid & Ht).
  apply wp_op_query; [|intros e; apply HX]. simpl. intros x Hx. wp_step. apply wp_raise_if; [intros _; apply HX|].
  intros Hsame. wp_step. apply wp_on_object; [|intros e; apply HX]. intros v1 Hmove.
  wp_step. apply wp_op_write; [|intros e; apply HX]. simpl. intros db' v2 Hsave. wp_run.
  pose proof (wp_ok _ _ _ _ _ _ (move_spec _ _ t now v) Hmove) as (Hc1 & _ & Hs1 & Hall1).
  destruct (moved_plan_good ExecutionPlanVersionState.EXECUTING ExecutionPlanVersionExecuting t now v v1 v2 db db')
    as (Hgood' & _ & Hc & Hs & [_ Hnew _ _]); try done.
  { apply (PV.pv_call_sealed (PV.CMarkExecuting t now)). }
  - intros _ r Hr Hof Hrs. unfold PV.content in Hc1. injection Hc1 as _ _ _ _ Hop Hvid Hten.
    rewrite Hop, Hten, Ht in Hof. destruct (executing_found (pv_operation_id v) t db x Hgood Hx r Hr Hof Hrs) as (y & -> & <-).
    rewrite Hvid. by guards; apply dec_stable.
  - apply (HQ v); try done. revert Hall1. clear. destruct (pv_state v); simpl; set_solver.
Qed.

(** The rows an invalidation is for. *)
Definition in_force_row (r : PlanRow) : Prop :=
  vr_state r = ExecutionPlanVersionState.value ExecutionPlanVersionState.SIGNED ∨
  vr_state r = ExecutionPlanVersionState.value ExecutionPlanVersionState.EXECUTING.
Definition targeted_row (t : TenantId) (token : string) (r : PlanRow) : Prop :=
  vr_tenant_id r = t ∧ str_in token (vr_snapshot r) = true ∧ in_force_row r.
#[export] Instance targeted_row_dec t token r : Decision (targeted_row t token r).
Proof. unfold targeted_row, in_force_row. apply _. Defined.

Lemma references_row token v : references token v ↔ str_in token (vr_snapshot (plan_to_row v)) = true ∧ in_force_row (plan_to_row v).
Proof.
  unfold references, in_force_row. cbn [plan_to_row vr_state vr_snapshot]. rewrite !elem_of_cons. split.
  - intros [[->|[->|[]%not_elem_of_nil]] ?]; auto.
  - intros [? [Hs|Hs]]; apply plan_state_inj in Hs; auto.
Qed.

Lemma length_filter_map {A B} (f : A → B) (P : A → Prop) (P' : B → Prop) `{∀ x, Decision (P x)} `{∀ y, Decision (P' y)}
    (l : list A) : (∀ x, x ∈ l → P x ↔ P' (f x)) → length (filter P l) = length (filter P' (map f l)).
Proof.
  induction l as [|x l IH]; intros Hx; [done|]. simpl. rewrite !filter_cons.
  assert (P x ↔ P' (f x)) as Hiff by (apply Hx; left). rewrite (decide_ext (P x) (P' (f x))) by done.
  case_decide; simpl; rewrite IH; [done| |done|]; intros y Hy; apply Hx; by right.
Qed.

(** After an invalidation no version of the tenant that is signed or executing
    has the text of the payload in its snapshot, as many as had it are superseded,
    and the others are as they were. *)
Record invalidated (t : TenantId) (token : string) (n : nat) (db db' : OpDb) : Prop := {
  iv_none : ∀ row, row ∈ ob_plans db' → ¬ targeted_row t token row;
  iv_count : n = length (filter (targeted_row t token) (ob_plans db));
  iv_kept : ∀ row, row ∈ ob_plans db → ¬ targeted_row t token row → row ∈ ob_plans db'
}.

Lemma wp_invalidate_tx t payload now (Q : list ExecutionPlanVersion → Session OpDb → Prop) X db : op_good db →
  (∀ l db', op_good db' → invalidated t (str_uuid payload) (length l) db db' → Q l (mkSession db' db')) →
  (∀ e v, X e (mkSession v db)) → wp (invalidate_tx t payload now) Q X (mkSession db db).
Proof.
  intros Hgood HQ HX. unfold invalidate_tx. wp_step. apply wp_op_query; [|intros e; apply HX]. simpl. intros l Hl.
  unfold find_referencing_payload in Hl. apply (selected_plans (λ r, vr_tenant_id r = t ∧
    like ("%" +:+ str_uuid payload +:+ "%") (vr_snapshot r) = true) db) in Hl as (Hnd & Hst & Hall & Hperm); [|done|].
  2: by rewrite select_order_perm.
  wp_step. apply wp_supersede_referencing; [done|done|by intros v Hv; apply Hst| |done].
  intros changed db' Hgood' Hids [Honly Hrows Hkept]. wp_run. simpl. apply HQ; [done|].
  assert (∀ v, v ∈ l → references (str_uuid payload) v ↔ targeted_row t (str_uuid payload) (plan_to_row v)) as Hiff.
  { intros v Hv. destruct (Hst v Hv) as [_ [Htv _]]. rewrite references_row. unfold targeted_row. tauto. }
  split.
  - intros row Hrow (Ht & Hin & Hs). destruct (Hrows row Hrow) as [[Hold Hn]|(Hsup & _)].
    + destruct (Hall row Hold) as (v & Hv & ->); [split; [done|by rewrite like_contains by apply plain_uuid]|].
      apply Hn. rewrite Hids. apply list_elem_of_fmap. exists v. split; [done|]. apply list_elem_of_filter.
      split; [|done]. by apply Hiff.
    + unfold in_force_row in Hs. rewrite Hsup in Hs. by destruct Hs.
  - rewrite <- (length_map plan_version_id changed), Hids, length_map.
    rewrite (length_filter_map plan_to_row _ (targeted_row t (str_uuid payload))) by done.
    rewrite Hperm, list_filter_filter. f_equal. apply list_filter_iff. intros r.
    rewrite like_contains by apply plain_uuid. unfold targeted_row. tauto.
  - intros row Hrow Hno. apply Hkept; [done|]. rewrite Hids. intros (v & Hid & [Href Hv]%list_elem_of_filter)%list_elem_of_fmap.
    destruct (Hst v Hv) as [[Hrv _] _]. apply Hno.
    rewrite (nodup_key_inj vr_id (ob_plans db) row (plan_to_row v)); [by apply Hiff|apply Hgood|done..].
Qed.
End PlanCommands.

(** *** All commands *)

Section Inputs.
Context {S : Type}.

Lemma wp_op_uuid u field (Q : unit → S → Prop) X s : (u ≠ 0 → Q tt s) → (∀ e, X e s) → wp (validate_uuid u field) Q X s.
Proof. intros HQ HX. unfold validate_uuid. apply wp_raise_if; [done|]. intros Hu. apply HQ. by apply Z.eqb_neq. Qed.

Lemma wp_op_str v field n (Q : unit → S → Prop) X s : Q tt s → (∀ e, X e s) → wp (validate_str v field n) Q X s.
Proof. intros HQ HX. unfold validate_str. wp_run; auto. Qed.
End Inputs.

Ltac input_step :=
  lazymatch goal with
  | |- wp (validate_uuid _ _) _ _ _ => apply wp_op_uuid; [intros ?|auto]
  | |- wp (validate_str _ _ _) _ _ _ => apply wp_op_str; [|auto]
  | |- wp (construct _) _ _ _ => apply wp_construct_value; [intros ? ?|auto]
  | |- wp (construct_if _ _) _ _ _ => apply wp_construct_if; [intros ? ?|auto]
  | |- wp (port _) _ _ _ => apply wp_port; [intros ? ?|auto]
  | _ => wp_step
  end.

(** What a constructor answers is accepted by the constructor. *)
Ltac constructed f :=
  let H := fresh in let H' := fresh in
  intros H; pose proof H as H'; unfold f in H'; repeat case_match; try done; injection H' as <-; exact H.

Section Commands.
Context `{!RowOrder} `{!TenantColumns} `{!EngagementQueryPort} `{!VulnerabilityQueryPort}.

Lemma new_technique p t r : StepTechniqueRef_new p t = Some r → StepTechniqueRef_new (payload_id r) (technique_id r) = Some r.
Proof. constructed StepTechniqueRef_new. Qed.
Lemma new_mitre p t r : MitreAttackRef_new p t = Some r → MitreAttackRef_new (mitre_technique_id r) (tactic r) = Some r.
Proof. constructed MitreAttackRef_new. Qed.
Lemma new_limit n w r : RateLimit_new n w = Some r → RateLimit_new (max_executions r) (window_seconds r) = Some r.
Proof. constructed RateLimit_new. Qed.
Lemma new_step_window d s e r : ExecutionWindowConstraint_new d s e = Some r →
  ExecutionWindowConstraint_new (allowed_days r) (start_hour r) (end_hour r) = Some r.
Proof. constructed ExecutionWindowConstraint_new. Qed.
Lemma new_step_constraints n r c x : StepConstraints_new n r c = Some x →
  StepConstraints_new (max_duration_seconds x) (rollback_on_failure x) (continue_on_failure x) = Some x.
Proof. constructed StepConstraints_new. Qed.

Lemma wp_add_execution_step cmd sid now (Q : OperationDTO → World → Prop) X w : op_good (w_db w) → sid ≠ 0 →
  (∀ d w', op_good (w_db w') → Q d w') → (∀ e, X e w) → wp (add_execution_step cmd sid now) Q X w.
Proof.
  intros Hgood Hsid HQ HX. unfold add_execution_step. repeat input_step.
  apply wp_operation_command; [done| |done|done]. intros o s. repeat input_step; try done. split; [done|].
  split; simpl; [done|by eapply new_step_constraints| | | | | |done]; clear HQ HX.
  - intros r Hr. edestruct H4 as (? & _ & Ha); [exact Hr|]. by eapply new_technique.
  - intros Hr. edestruct H5 as (? & _ & Ha); [exact Hr|]. by apply non_nil_some in Ha as [? _].
  - intros r Hr. edestruct H7 as (? & _ & Ha); [exact Hr|]. by eapply new_mitre.
  - intros r Hr. edestruct H8 as (? & _ & Ha); [exact Hr|]. by eapply new_limit.
  - intros r Hr. edestruct H9 as (? & _ & Ha); [exact Hr|]. by eapply new_step_window.
Qed.

Lemma wp_create_operation t en nm cl new_id now (Q : OperationDTO → World → Prop) X w :
  op_good (w_db w) → new_id ∉ map or_id (ob_operations (w_db w)) → (∀ d w', op_good (w_db w') → Q d w') → (∀ e, X e w) →
  wp (create_operation t en nm cl new_id now) Q X w.
Proof.
  intros Hgood Hfresh HQ HX. unfold create_operation. repeat input_step; try done.
  repeat match goal with H : non_nil _ = Some _ |- _ => apply non_nil_some in H as [? ->] end.
  match goal with H : create _ _ _ _ _ _ = Ok ?x |- _ => rename x into o, H into Hc end.
  apply wp_op_in_uow. wp_step. apply wp_op_write; [|intros e; simpl; by rewrite op_world_same]. simpl. intros db' o' Hsave.
  unfold _publish. wp_run. apply HQ. simpl.
  assert (operation_id o = new_id ∧ engagement_id o = en ∧ (steps o = [] ∧ dependencies o = [] ∧ approvals o = [] ∧
    objectives o = [])) as (Hid & Hen & Hst & Hdp & Hap & Hob).
  { revert Hc. unfold create. case_match; [done|]. by intros [= <-]. }
  apply (op_save_good o (w_db w) db' o'); [done|by eapply op_create_governed| | |done].
  - split; rewrite ?Hid, ?Hen; try done; [unfold step_values; rewrite Hst|rewrite Hdp|rewrite Hap|rewrite Hob];
      by intros x []%not_elem_of_nil.
  - intros x (_ & _ & [Hrow _ _ _ _]) Hxid. exfalso. apply Hfresh. rewrite <- Hid, <- Hxid.
    exact (list_elem_of_fmap_2 or_id _ _ Hrow).
Qed.

(** A unit of work that only queries. *)
Ltac op_read_only := apply wp_op_read; [intros ?; wp_step|by intros; wp_run|done].

(** One command: good tables stay good, and a command that raises changes
    nothing. *)
Lemma op_run_command_good c now w : command_ok c w → op_good (w_db w) →
  wp (run_command c now) (λ _ w', op_good (w_db w')) (λ _ w', w' = w) w.
Proof.
  intros Hok Hgood. destruct c; simpl in Hok |- *; wp_step;
    unfold remove_execution_step, add_step_dependency, set_objectives, validate_execution_plan, sign_execution_plan,
      submit_for_approval, approve_operation, queue_operation, mark_plan_executing, invalidate_plans_referencing_payload,
      get_operation, list_by_engagement, get_plan_version, list_plan_versions;
    repeat input_step; try done;
    try (apply wp_operation_command; [done| |by intros; wp_run|done]; intros o s; repeat input_step; done).
  - by apply wp_create_operation; [..|intros; wp_run|].
  - by apply wp_add_execution_step; [..|intros; wp_run|].
  - op_read_only. apply wp_load_operation; [|done]. intros o _. unfold check_plan. by repeat input_step.
  - apply wp_op_in_uow, wp_sign_tx; [done|done| |intros e v; simpl; by rewrite op_world_same].
    intros existing v o db' Hgood' _. unfold _publish. by wp_run.
  - apply wp_op_in_uow, wp_mark_executing_tx; [done| |intros e v; simpl; by rewrite op_world_same].
    intros v v' db' _ Hgood' _ _ _ _. unfold _publish. by wp_run.
  - apply wp_op_in_uow, wp_invalidate_tx; [done| |intros e v; simpl; by rewrite op_world_same].
    intros l db' Hgood' _. unfold _publish. by wp_run.
  - op_read_only. apply wp_load_operation; [|done]. intros. by wp_run.
  - op_read_only. apply wp_op_query; [|done]. intros. by wp_run.
  - op_read_only. apply wp_op_query; [|done]. intros. by wp_run.
  - op_read_only. apply wp_op_query; [|done]. intros. by wp_run.
Qed.

Lemma op_reachable_good w : reachable_world w → op_good (w_db w).
Proof.
  induction 1 as [|w c now _ IH Hok].
  - split; [by split; apply NoDup_nil_2|by intros ? []%not_elem_of_nil..| |]; by intros ? ? []%not_elem_of_nil.
  - pose proof (op_run_command_good c now w Hok IH) as Hwp. unfold wp in Hwp.
    destruct (run_command c now w) as [[a|e] w']; [done|by subst].
Qed.
End Commands.

(** *** Snapshots *)

Lemma str_in_refl p : str_in p p = true.
Proof.
  assert (String.prefix p p = true) as Hp; [|by destruct p; cbn [str_in]; rewrite Hp].
  induction p as [|c p IH]; [done|]. simpl. by destruct (Ascii.ascii_dec c c).
Qed.

Lemma str_in_app_l p a s : str_in p s = true → str_in p (a +:+ s) = true.
Proof.
  intros Hs. induction a as [|c a IH]; [by rewrite append_nil|]. rewrite append_cons. cbn [str_in]. by rewrite IH, orb_true_r.
Qed.

Lemma str_in_app_r p s b : str_in p s = true → str_in p (s +:+ b) = true.
Proof.
  assert (∀ q s, String.prefix q s = true → String.prefix q (s +:+ b) = true) as Hpre.
  { induction q as [|c q IH]; intros [|d s']; try done; [by rewrite append_nil; destruct b|].
    rewrite append_cons. simpl. destruct (Ascii.ascii_dec c d); [apply IH|done]. }
  induction s as [|c s IH]; cbn [str_in].
  - rewrite orb_false_r. intros Hp. destruct p; [|done]. rewrite append_nil. by destruct b.
  - rewrite append_cons. cbn [str_in]. intros [Hp|Hp]%orb_true_iff; [|by rewrite IH, orb_true_r].
    by rewrite <- append_cons, Hpre.
Qed.

Lemma str_in_join p sep x l : x ∈ l → str_in p x = true → str_in p (join sep l) = true.
Proof.
  intros Hx Hp. induction l as [|y l IH]; [by apply not_elem_of_nil in Hx|].
  apply elem_of_cons in Hx as [<-|Hx]; destruct l as [|z l]; simpl; [done|by apply str_in_app_r| |].
  - by apply not_elem_of_nil in Hx.
  - by apply str_in_app_l, str_in_app_l, IH.
Qed.

Lemma str_in_dumps_arr p v l : v ∈ l → str_in p (dumps v) = true → str_in p (dumps (JArr l)) = true.
Proof.
  intros Hv Hp. cbn [dumps]. apply str_in_app_l, str_in_app_r. apply (str_in_join _ _ (dumps v)); [|done].
  by apply list_elem_of_fmap_2.
Qed.

Lemma str_in_dumps_obj p k v items : (k, v) ∈ items → str_in p (dumps v) = true → str_in p (dumps (JObj items)) = true.
Proof.
  intros Hv Hp. cbn [dumps]. apply str_in_app_l, str_in_app_r.
  apply (str_in_join _ _ (dumps_str k +:+ ":" +:+ dumps v)); [|by apply str_in_app_l, str_in_app_l].
  apply list_elem_of_fmap. exists (k, dumps v). split; [done|]. rewrite sort_items_perm.
  apply list_elem_of_fmap. by exists (k, v).
Qed.

Lemma escape_uuid u : escape (str_uuid u) = str_uuid u.
Proof.
  set (P := λ c, escape_char c = String c "").
  assert (string_all P (str_uuid u)) as Hall by (apply uuid_all; [apply (hex_digit_cases P); by repeat constructor|done]).
  induction (str_uuid u) as [|c s IH]; [done|]. destruct Hall as [Hc Hs]. simpl. rewrite Hc, IH by done. done.
Qed.

(** The snapshot of a plan has the text of every payload its steps use. *)
Lemma snapshot_mentions_payload o s r p : s ∈ step_values o → technique_ref s = Some r → payload_id r = str_uuid p →
  str_in (str_uuid p) (dumps (plan_payload o)) = true.
Proof.
  intros Hs Hr Hp. unfold plan_payload.
  eapply (str_in_dumps_obj _ "steps"); [right; left|].
  apply (str_in_dumps_arr _ (step_payload s)).
  { apply list_elem_of_fmap_2. by rewrite merge_sort_Permutation. }
  unfold step_payload. eapply (str_in_dumps_obj _ "payload_id"); [do 6 right; left|].
  rewrite Hr. cbn [opt_json dumps]. rewrite Hp. unfold dumps_str. rewrite escape_uuid. apply str_in_app_l, str_in_app_r, str_in_refl.
Qed.

(** *** A concrete history *)

Definition run_commands `{!RowOrder} `{!TenantColumns} `{!EngagementQueryPort} `{!VulnerabilityQueryPort}
    (cs : list (command * datetime)) (w : World) : World := foldl (fun w c => (run_command c.1 c.2 w).2) w cs.

(** The commands carry fresh ids. *)
Fixpoint all_ok `{!RowOrder} `{!TenantColumns} `{!EngagementQueryPort} `{!VulnerabilityQueryPort}
    (cs : list (command * datetime)) (w : World) : Prop :=
  match cs with
  | [] => True
  | c :: cs => command_ok c.1 w ∧ all_ok cs (run_command c.1 c.2 w).2
  end.

Lemma op_run_commands_reachable `{!RowOrder} `{!TenantColumns} `{!EngagementQueryPort} `{!VulnerabilityQueryPort} cs w :
  reachable_world w → all_ok cs w → reachable_world (run_commands cs w).
Proof.
  revert w. induction cs as [|[c now] cs IH]; intros w Hw; [done|]. intros [Hc Hcs].
  apply IH; [by apply rw_command|done].
Qed.

#[local] Existing Instance insertion_order.
#[local] Existing Instance converting_columns.
#[local] Existing Instance DegradedVulnerabilityQueryAdapter.

(** An engagement that authorizes one target and one technique. *)
Definition staging_engagement : EngagementQueryPort := {|
  get_engagement_state _ _ := Ok "Active";
  is_active _ _ := Ok true;
  get_authorized_targets _ _ := Ok [21];
  get_allowed_techniques _ _ := Ok ["T1485"]
|}.
#[local] Existing Instance staging_engagement.

Definition gate_step : AddExecutionStep :=
  mkAddStep acme 9 "gate" "HumanApprovalGate" 60 true false None None None None false None None None None None None None "".
Definition attack_step (target : uuid) : AddExecutionStep :=
  mkAddStep acme 9 "hit" "AttackStep" 60 true false (Some (str_uuid 77)) (Some "T1485") (Some target) (Some "Exploit") true
    None None (Some 3) (Some 60) (Some [0; 1]) (Some 8) (Some 18) "".
Definition check_step : AddExecutionStep :=
  mkAddStep acme 9 "check" "VerificationStep" 60 true false None None None None false None None None None None None None "".

Definition planning : list (command * datetime) :=
  [(CreateOperation acme 5 " op " "Impact" 9, 0); (AddStep gate_step 11, 1); (AddStep (attack_step 21) 12, 2);
   (AddStep check_step 13, 3); (AddDependency acme 9 11 12 31, 4); (AddDependency acme 9 12 13 32, 5)].
Definition planned_world : World := run_commands planning empty_world.
Definition signed_world : World := run_commands [(SignPlan acme 9 3 "sig" 7, 6)] planned_world.

Lemma planned_world_reachable : reachable_world planned_world.
Proof.
  apply op_run_commands_reachable; [constructor|]. unfold planning. cbn [all_ok fst snd command_ok].
  split_and!; try done. apply not_elem_of_nil.
Qed.

Lemma planned_without_versions : map vr_id (ob_plans (w_db planned_world)) = [].
Proof. vm_compute. reflexivity. Qed.

Lemma signed_world_reachable : reachable_world signed_world.
Proof.
  apply op_run_commands_reachable; [apply planned_world_reachable|]. split; [|done].
  cbn [command_ok fst]. rewrite planned_without_versions. apply not_elem_of_nil.
Qed.

(** ** Properties *)



(** A command that raises changes nothing: neither the tables nor what was
    published, the versions superseded before a failing signature included. *)
Theorem failed_operation_command_changes_nothing `{!RowOrder} `{!TenantColumns} `{!EngagementQueryPort}
    `{!VulnerabilityQueryPort} c now w e w' :
  reachable_world w → command_ok c w → run_command c now w = (Err e, w') → w' = w.
Proof.
  intros Hw Hok Hrun. exact (wp_err _ _ _ _ _ _ (op_run_command_good c now w Hok (op_reachable_good w Hw)) Hrun).
Qed.

(** A second edge between the same steps. *)
Definition repeated_edge : command := AddDependency acme 9 11 12 33.

Lemma failed_operation_command_changes_nothing_witness :
  run_command repeated_edge 9 planned_world = (Err (Store IntegrityError), planned_world).
Proof.
  assert ((run_command repeated_edge 9 planned_world).1 = Err (Store IntegrityError)) as Hrun by (vm_compute; reflexivity).
  assert (command_ok repeated_edge planned_world) as Hok by done.
  destruct (run_command repeated_edge 9 planned_world) as [r w'] eqn:Heq. cbn [fst] in Hrun. subst r. f_equal.
  exact (failed_operation_command_changes_nothing repeated_edge 9 planned_world _ w' planned_world_reachable Hok Heq).
Defined.

(** C4. A signature seals a valid plan: when [sign_execution_plan] answers, the
    stored operation is a valid plan for the targets and techniques its engagement
    allows, the new version is the next number, its snapshot is the serialization
    of that operation, it is signed by the operator over the SHA-256 of that
    snapshot, the tables answer it, and it is the only signed version of the
    operation. *)
Theorem signature_seals_valid_plan `{!RowOrder} `{!TenantColumns} `{!EngagementQueryPort} `{!VulnerabilityQueryPort}
    t id operator sig new_id now w d w' :
  reachable_world w → new_id ∉ map vr_id (ob_plans (w_db w)) →
  sign_execution_plan t id operator sig new_id now w = (Ok d, w') →
  ∃ o targets techniques v, find_operation id t (w_db w) = Ok (Some o) ∧
    get_authorized_targets (engagement_id o) t = Ok targets ∧ get_allowed_techniques (engagement_id o) t = Ok techniques ∧
    valid_plan o targets techniques ∧ d = _plan_version_dto v ∧
    find_plan (plan_version_id v) t (w_db w') = Ok (Some (v <| pv_pending_events := [] |>)) ∧
    pv_operation_id v = id ∧ version_number v = next_version_number id t (w_db w) ∧
    snapshot v = dumps (plan_payload o) ∧ plan_hash v = Some (sha256_hex (dumps (plan_payload o))) ∧
    (∃ at_, signed_by v = Some (mkSignedBy operator at_ sig)) ∧
    (∀ r, r ∈ ob_plans (w_db w') → is_plan_of id t r →
       vr_state r = ExecutionPlanVersionState.value ExecutionPlanVersionState.SIGNED → r = plan_to_row v).
Proof.
  intros Hw Hfresh Hrun.
  assert (wp (sign_execution_plan t id operator sig new_id now) (λ d w', ∃ v, d = _plan_version_dto v ∧ op_good (w_db w') ∧
    signed_for t id operator sig (w_db w) v (w_db w')) (λ _ _, True) w) as Hwp.
  { unfold sign_execution_plan. repeat input_step; try done. apply wp_op_in_uow, wp_sign_tx;
      [by apply op_reachable_good|done| |done]. intros ex v o db' Hgood' Hs. unfold _publish. wp_run. by exists v. }
  destruct (wp_ok _ _ _ _ _ _ Hwp Hrun) as (v & -> & Hgood' & o & targets & techniques & Hf & Ht & Hq & Hvalid & Hsn & Hop &
    Hten & Hs & Hby & Hnum & Hin & Hok).
  exists o, targets, techniques, v. split_and!; try done.
  - rewrite <- Hten. by apply plan_found; [apply Hgood'|..].
  - destruct Hok as [_ _ _ [[[_ Hno]|[Hh _]] _ _ _]]; [|by rewrite Hh, Hsn]. destruct Hby as [at_ Hby]. congruence.
  - intros r Hr Hof Hrs. apply (og_signed _ Hgood'); [done|done| |done|by simpl; rewrite Hs].
    simpl. by rewrite Hop, Hten.
Qed.

Lemma signature_seals_valid_plan_witness :
  ∃ d, (sign_execution_plan acme 9 3 "sig" 7 6 planned_world).1 = Ok d ∧
  ∃ o v, find_operation 9 acme (w_db planned_world) = Ok (Some o) ∧ valid_plan o [21] ["T1485"] ∧
    snapshot v = dumps (plan_payload o) ∧ d = _plan_version_dto v ∧ version_number v = 1.
Proof.
  assert (is_ok (sign_execution_plan acme 9 3 "sig" 7 6 planned_world).1 = true) as Hok by (vm_compute; reflexivity).
  assert (next_version_number 9 acme (w_db planned_world) = 1) as Hn by (vm_compute; reflexivity).
  destruct (sign_execution_plan acme 9 3 "sig" 7 6 planned_world) as [[d|e] w'] eqn:Hrun; [|discriminate Hok].
  exists d. split; [done|].
  destruct (signature_seals_valid_plan acme 9 3 "sig" 7 6 planned_world d w' planned_world_reachable) as
    (o & ts & rs & v & Hf & Ht & Hr & Hv & Hd & _ & _ & Hnum & Hsn & _);
    [rewrite planned_without_versions; apply not_elem_of_nil|exact Hrun|].
  injection Ht as <-. injection Hr as <-. exists o, v. rewrite Hn in Hnum. by split_and!.
Defined.

(** Withdrawing a payload reaches every plan in force: when
    [invalidate_plans_referencing_payload] answers [n], exactly the [n] signed or
    executing versions of the tenant whose snapshot has the payload's text are
    superseded and the others are as they were; so no plan that is signed or
    executing afterwards has a step that uses the payload. *)
Theorem invalidation_withdraws_payload `{!RowOrder} `{!TenantColumns} `{!EngagementQueryPort} `{!VulnerabilityQueryPort}
    t payload now w n w' :
  reachable_world w → invalidate_plans_referencing_payload t payload now w = (Ok n, w') →
  invalidated t (str_uuid payload) n (w_db w) (w_db w') ∧
  ∀ row o s r, row ∈ ob_plans (w_db w') → vr_tenant_id row = t → vr_snapshot row = dumps (plan_payload o) →
    s ∈ step_values o → technique_ref s = Some r → payload_id r = str_uuid payload → ¬ in_force_row row.
Proof.
  intros Hw Hrun.
  assert (wp (invalidate_plans_referencing_payload t payload now) (λ n w', invalidated t (str_uuid payload) n (w_db w) (w_db w'))
    (λ _ _, True) w) as Hwp.
  { unfold invalidate_plans_referencing_payload. repeat input_step; try done. apply wp_op_in_uow, wp_invalidate_tx;
      [by apply op_reachable_good| |done]. intros l db' _ Hi. unfold _publish. by wp_run. }
  pose proof (wp_ok _ _ _ _ _ _ Hwp Hrun) as Hi. split; [exact Hi|].
  intros row o s r Hrow Ht Hsn Hs Hr Hp Hforce. apply (iv_none _ _ _ _ _ Hi row Hrow). split_and!; [done| |done].
  rewrite Hsn. by apply (snapshot_mentions_payload o s r).
Qed.

Lemma invalidation_withdraws_payload_witness :
  ∃ w', invalidate_plans_referencing_payload acme 77 8 signed_world = (Ok 1%nat, w') ∧
  map vr_state (ob_plans (w_db w')) = ["Superseded"] ∧
  invalidated acme (str_uuid 77) 1 (w_db signed_world) (w_db w').
Proof.
  assert ((λ x : result OpError nat * World, (x.1, map vr_state (ob_plans (w_db x.2))))
    (invalidate_plans_referencing_payload acme 77 8 signed_world) = (Ok 1%nat, ["Superseded"])) as Hn by (vm_compute; reflexivity).
  destruct (invalidate_plans_referencing_payload acme 77 8 signed_world) as [r w'] eqn:Hrun. injection Hn as -> Hs. exists w'. split; [done|]. split; [exact Hs|].
  apply (invalidation_withdraws_payload acme 77 8 signed_world 1 w' signed_world_reachable Hrun).
Defined.

(** An operation whose only step attacks an asset outside the scope. *)
Definition stray : list (command * datetime) :=
  [(CreateOperation acme 5 "stray" "Impact" 9, 0); (AddStep (attack_step 22) 12, 1); (Submit acme 9, 2);
   (Approve acme 9 3 "lead" "sig" 41, 3); (Queue acme 9, 4)].
Definition stray_world : World := run_commands stray empty_world.

(** Nothing asks for a signed plan, or a valid one, on the way to QUEUED: an
    operation whose step targets an asset its engagement does not authorize is
    submitted, approved and queued without any plan version. *)
Theorem unsigned_plan_is_queued :
  reachable_world stray_world ∧ map or_state (ob_operations (w_db stray_world)) = ["Queued"] ∧
  map vr_id (ob_plans (w_db stray_world)) = [] ∧
  ∃ o, find_operation 9 acme (w_db stray_world) = Ok (Some o) ∧ ¬ valid_plan o [21] ["T1485"].
Proof.
  split_and!; [|vm_compute; reflexivity|vm_compute; reflexivity|].
  - apply op_run_commands_reachable; [constructor|]. unfold stray. cbn [all_ok fst snd command_ok].
    split_and!; try done. apply not_elem_of_nil.
  - assert (match find_operation 9 acme (w_db stray_world) with Ok (Some o) => omap target_ref (step_values o) | _ => [] end = [22])
      as Ht by (vm_compute; reflexivity).
    destruct (find_operation 9 acme (w_db stray_world)) as [[o|]|e]; [|done..]. exists o. split; [done|].
    intros [Htg _ _ _ _ _]. assert (22 ∈ omap target_ref (step_values o)) as (s & Hs & Ha)%list_elem_of_omap by (rewrite Ht; left).
    by apply (Htg s 22 Hs), list_elem_of_singleton in Ha.
Qed.
