(* ===== verification/PlanHash.v ===== *)
(** What the hash of a plan version binds: the snapshot determines the steps, their
    techniques, targets and constraints, and the dependencies of the plan, and says
    nothing else of it. *)
From stdpp Require Import base tactics list strings sorting.
From Stdlib Require Import ZArith Lia.
From S2P Require Import Prelude PyTypes PyParse Sha256 PyJson JsonText OperationData OperationAggregate PlanValidator OperationApp.

Local Open Scope Z_scope.

(** ** Specification *)

(** What a snapshot says of a step; its state, MITRE reference, rate limit, window,
    output and description are left out. *)
Definition step_view (s : ExecutionStep) : uuid * string * StepType.t * option ImpactCeiling.t * bool *
    option StepTechniqueRef * option uuid * StepConstraints :=
  (step_id s, step_name s, step_type s, impact_ceiling s, modifies_persistent_state s, technique_ref s, target_ref s,
   constraints s).

Definition plan_view (o : Operation) : uuid * list (uuid * string * StepType.t * option ImpactCeiling.t * bool *
    option StepTechniqueRef * option uuid * StepConstraints) * list StepDependency :=
  (operation_id o, map step_view (merge_sort (by_id step_id) (step_values o)),
   merge_sort (by_id dependency_id) (dependencies o)).

(** Ids that are UUIDs. *)
Record plan_ids_ok (o : Operation) : Prop := {
  pi_operation : uuid_ok (operation_id o);
  pi_steps : ∀ s, s ∈ step_values o → uuid_ok (step_id s) ∧ ∀ a, target_ref s = Some a → uuid_ok a;
  pi_dependencies : ∀ d, d ∈ dependencies o →
    uuid_ok (dependency_id d) ∧ uuid_ok (from_step_id d) ∧ uuid_ok (to_step_id d)
}.

(** ** Lemmas *)

Lemma step_type_inj a b : StepType.value a = StepType.value b → a = b.
Proof. by destruct a, b. Qed.
Lemma ceiling_inj a b : ImpactCeiling.value a = ImpactCeiling.value b → a = b.
Proof. by destruct a, b. Qed.

(** The canonical object of a step has its members. *)
Lemma step_object_inj i1 n1 t1 c1 m1 q1 p1 g1 d1 r1 f1 i2 n2 t2 c2 m2 q2 p2 g2 d2 r2 f2 :
  canon (JObj [("id", i1); ("name", n1); ("step_type", t1); ("impact_ceiling", c1); ("modifies_persistent_state", m1);
    ("technique_id", q1); ("payload_id", p1); ("target_asset_id", g1); ("max_duration_seconds", d1);
    ("rollback_on_failure", r1); ("continue_on_failure", f1)]) =
  canon (JObj [("id", i2); ("name", n2); ("step_type", t2); ("impact_ceiling", c2); ("modifies_persistent_state", m2);
    ("technique_id", q2); ("payload_id", p2); ("target_asset_id", g2); ("max_duration_seconds", d2);
    ("rollback_on_failure", r2); ("continue_on_failure", f2)]) →
  (canon i1 = canon i2 ∧ canon n1 = canon n2 ∧ canon t1 = canon t2 ∧ canon c1 = canon c2 ∧ canon m1 = canon m2) ∧
  (canon q1 = canon q2 ∧ canon p1 = canon p2 ∧ canon g1 = canon g2) ∧
  canon d1 = canon d2 ∧ canon r1 = canon r2 ∧ canon f1 = canon f2.
Proof. intros [=]. by split_and!. Qed.

Lemma dependency_object_inj i1 f1 t1 i2 f2 t2 :
  canon (JObj [("id", i1); ("from", f1); ("to", t1)]) = canon (JObj [("id", i2); ("from", f2); ("to", t2)]) →
  canon i1 = canon i2 ∧ canon f1 = canon f2 ∧ canon t1 = canon t2.
Proof. intros [=]. by split_and!. Qed.

Lemma plan_object_inj i1 s1 d1 i2 s2 d2 :
  canon (JObj [("operation_id", i1); ("steps", s1); ("dependencies", d1)]) =
  canon (JObj [("operation_id", i2); ("steps", s2); ("dependencies", d2)]) →
  canon i1 = canon i2 ∧ canon s1 = canon s2 ∧ canon d1 = canon d2.
Proof. intros [=]. by split_and!. Qed.

(** Members of a plan. *)
Lemma canon_uuid_inj u v : uuid_ok u → uuid_ok v → canon (JStr (str_uuid u)) = canon (JStr (str_uuid v)) → u = v.
Proof.
  intros Hu Hv Heq. apply str_uuid_inj; [done..|].
  by apply (f_equal (λ j, match j with JStr s => s | _ => "" end)) in Heq.
Qed.

Lemma opt_json_inj {A} (f : A → string) (x y : option A) :
  (∀ a b, x = Some a → y = Some b → f a = f b → a = b) →
  canon (opt_json (λ a, JStr (f a)) x) = canon (opt_json (λ a, JStr (f a)) y) → x = y.
Proof.
  intros Hf Heq. apply (f_equal (λ j, match j with JStr s => Some s | _ => None end)) in Heq.
  destruct x as [a|], y as [b|]; try done. simpl in Heq. f_equal. apply Hf; [done..|congruence].
Qed.

Lemma opt_json_field {A} (f : A → string) (x y : option A) :
  canon (opt_json (λ a, JStr (f a)) x) = canon (opt_json (λ a, JStr (f a)) y) → f <$> x = f <$> y.
Proof.
  intros Heq. apply (f_equal (λ j, match j with JStr s => Some s | _ => None end)) in Heq.
  destruct x as [a|], y as [b|]; done.
Qed.

Lemma step_payload_inj s s' : uuid_ok (step_id s) → uuid_ok (step_id s') → (∀ a, target_ref s = Some a → uuid_ok a) →
  (∀ a, target_ref s' = Some a → uuid_ok a) → canon (step_payload s) = canon (step_payload s') → step_view s = step_view s'.
Proof.
  intros Hi Hi' Ht Ht' ((Hid & Hn & Hty & Hc & Hm) & (Hq & Hp & Hg) & Hd & Hr & Hf)%step_object_inj.
  apply canon_uuid_inj in Hid; [|done..]. injection Hn as Hn. injection Hm as Hm. injection Hd as Hd.
  injection Hr as Hr. injection Hf as Hf.
  apply (f_equal (λ j, match j with JStr s => s | _ => "" end)), step_type_inj in Hty.
  apply opt_json_inj in Hc; [|by intros a b _ _ Hab; apply ceiling_inj]. apply opt_json_field in Hq, Hp.
  apply opt_json_inj in Hg; [|by intros a b Ha Hb; apply str_uuid_inj; [apply Ht|apply Ht']].
  assert (technique_ref s = technique_ref s') as Htech.
  { destruct (technique_ref s) as [[]|], (technique_ref s') as [[]|]; simpl in *; congruence. }
  assert (constraints s = constraints s') as Hcons by (destruct (constraints s), (constraints s'); simpl in *; congruence).
  unfold step_view. by rewrite Hid, Hn, Hty, Hc, Hm, Htech, Hg, Hcons.
Qed.

Lemma dependency_payload_inj d d' : (uuid_ok (dependency_id d) ∧ uuid_ok (from_step_id d) ∧ uuid_ok (to_step_id d)) →
  (uuid_ok (dependency_id d') ∧ uuid_ok (from_step_id d') ∧ uuid_ok (to_step_id d')) →
  canon (dependency_payload d) = canon (dependency_payload d') → d = d'.
Proof.
  intros (H1 & H2 & H3) (H1' & H2' & H3') (Hi & Hf & Ht)%dependency_object_inj.
  apply canon_uuid_inj in Hi, Hf, Ht; try done. destruct d, d'. simpl in *. congruence.
Qed.

Lemma map_inj_view {A B} (f : A → Json) (g : A → B) l l' :
  (∀ x y, x ∈ l → y ∈ l' → canon (f x) = canon (f y) → g x = g y) →
  map canon (map f l) = map canon (map f l') → map g l = map g l'.
Proof.
  revert l'. induction l as [|x l IH]; intros [|y l'] Hf; try done. cbn [map].
  intros [Hx Hl]%(f_equal (λ l, (hd_error l, tl l)))%pair_eq. cbn [hd_error tl] in Hx, Hl. apply Some_inj in Hx.
  f_equal; [apply Hf; [left..|done]|]. apply IH; [|done]. intros a b Ha Hb. apply Hf; by right.
Qed.

Lemma plan_payload_inj o o' : plan_ids_ok o → plan_ids_ok o' → canon (plan_payload o) = canon (plan_payload o') →
  plan_view o = plan_view o'.
Proof.
  intros [Ho Hs Hd] [Ho' Hs' Hd'] (Hi & Hst & Hde)%plan_object_inj. apply canon_uuid_inj in Hi; [|done..].
  assert (∀ l l', canon (JArr l) = canon (JArr l') → map canon l = map canon l') as Harr.
  { intros l l' Heq. by apply (f_equal (λ j, match j with JArr l => l | _ => [] end)) in Heq. }
  apply Harr in Hst, Hde. unfold plan_view. rewrite Hi. f_equal; [f_equal|].
  - apply (map_inj_view step_payload step_view) in Hst; [done|]. intros x y. rewrite !merge_sort_Permutation.
    intros Hx Hy. apply step_payload_inj; [by apply Hs|by apply Hs'|by apply Hs|by apply Hs'].
  - apply (map_inj_view dependency_payload id) in Hde; [by rewrite !map_id in Hde|]. intros x y.
    rewrite !merge_sort_Permutation. intros Hx Hy. apply dependency_payload_inj; [by apply Hd|by apply Hd'].
Qed.

(** The payload is made of the view. *)
Lemma plan_view_payload o o' : plan_view o = plan_view o' → plan_payload o = plan_payload o'.
Proof.
  unfold plan_view, plan_payload. intros [= Hi Hs Hd]. rewrite Hi, Hd.
  assert (∀ l l', map step_view l = map step_view l' → map step_payload l = map step_payload l') as Hmap.
  { induction l as [|x l IH]; intros [|y l']; try done. simpl. intros [= H1 H2 H3 H4 H5 H6 H7 H8 H9]. f_equal; [|by apply IH].
    unfold step_payload. by rewrite H1, H2, H3, H4, H5, H6, H7, H8. }
  by rewrite (Hmap _ _ Hs).
Qed.

(** ** Properties *)

(** Two plans whose snapshots differ although their digests agree. *)
Definition plan_collision (o o' : Operation) : Prop :=
  dumps (plan_payload o) ≠ dumps (plan_payload o') ∧
  sha256_hex (dumps (plan_payload o)) = sha256_hex (dumps (plan_payload o')).

(** C36. The hash of a plan binds exactly the view of it: two operations have one plan
    hash only if they have the same id, the same steps (ids, names, kinds, ceilings,
    techniques with their payloads, targets and constraints) and the same
    dependencies, or their snapshots collide under SHA-256; and operations that agree
    on that have the same snapshot, whatever rate limits and windows their steps
    have. *)
Theorem plan_hash_binds_plan o o' : plan_ids_ok o → plan_ids_ok o' →
  (sha256_hex (dumps (plan_payload o)) = sha256_hex (dumps (plan_payload o')) → plan_view o = plan_view o' ∨ plan_collision o o') ∧
  (plan_view o = plan_view o' → _serialize_plan o = _serialize_plan o').
Proof.
  intros Ho Ho'. split.
  - intros Hh. destruct (decide (dumps (plan_payload o) = dumps (plan_payload o'))) as [Heq|Hne]; [left|right; exact (conj Hne Hh)].
    apply plan_payload_inj; [done..|].
    destruct (dumps_inj (plan_payload o) (plan_payload o') "" "") as [Hc _]; [done|by rewrite Heq|done].
  - intros Hv. unfold _serialize_plan. by rewrite (plan_view_payload o o').
Qed.

(** The plan of a concrete operation, and the same plan with its rate limits
    lifted. *)
Definition lift_limit (s : ExecutionStep) : ExecutionStep :=
  mkStep (step_id s) (step_name s) (step_type s) (step_state s) (constraints s) (technique_ref s) (target_ref s)
    (impact_ceiling s) (modifies_persistent_state s) (mitre_ref s) (Some (mkRateLimit 1000 1)) (step_window s)
    (output_ref s) (step_description s).
Definition limited : Operation := planned ImpactCeiling.EXPLOIT.
Definition unlimited : Operation := limited <| steps ::= map (fun kv => (kv.1, lift_limit kv.2)) |>.

(** The ids of a plan. *)
Definition plan_ids (o : Operation) : list uuid :=
  operation_id o :: map step_id (step_values o) ++ omap target_ref (step_values o) ++
  concat (map (fun d => [dependency_id d; from_step_id d; to_step_id d]) (dependencies o)).

Lemma plan_ids_are_ok o : (∀ u, u ∈ plan_ids o → uuid_ok u) → plan_ids_ok o.
Proof.
  unfold plan_ids. intros Hok. split.
  - apply Hok. left.
  - intros s Hs. split; [|intros a Ha]; apply Hok; right; apply elem_of_app; [left; by apply list_elem_of_fmap_2|right].
    apply elem_of_app. left. apply list_elem_of_omap. by exists s.
  - intros d Hd. split_and!; apply Hok; right; apply elem_of_app; right; apply elem_of_app; right; apply elem_of_concat;
      exists [dependency_id d; from_step_id d; to_step_id d]; (split; [apply list_elem_of_fmap; by exists d|]);
      rewrite !elem_of_cons; auto.
Qed.

Lemma plan_hash_binds_plan_witness :
  map rate_limit (step_values limited) ≠ map rate_limit (step_values unlimited) ∧
  _serialize_plan limited = _serialize_plan unlimited.
Proof.
  assert (plan_ids limited = [9; 11; 12; 13; 21; 31; 11; 12; 32; 12; 13]) as Hl by (vm_compute; reflexivity).
  assert (plan_ids unlimited = [9; 11; 12; 13; 21; 31; 11; 12; 32; 12; 13]) as Hu by (vm_compute; reflexivity).
  assert (∀ u, u ∈ [9; 11; 12; 13; 21; 31; 11; 12; 32; 12; 13] → uuid_ok u) as Hok.
  { intros u Hin. unfold uuid_ok. rewrite !elem_of_cons, elem_of_nil in Hin. change (2 ^ 128) with 340282366920938463463374607431768211456. lia. }
  assert (plan_ids_ok limited) as H1 by (apply plan_ids_are_ok; by rewrite Hl).
  assert (plan_ids_ok unlimited) as H2 by (apply plan_ids_are_ok; by rewrite Hu).
  assert (plan_view limited = plan_view unlimited) as Hv by (vm_compute; reflexivity).
  assert (map rate_limit (step_values limited) = [None; None; None]) as Hr by (vm_compute; reflexivity).
  assert (map rate_limit (step_values unlimited) = repeat (Some (mkRateLimit 1000 1)) 3) as Hr' by (vm_compute; reflexivity).
  split; [rewrite Hr, Hr'; discriminate|].
  destruct (plan_hash_binds_plan limited unlimited H1 H2) as [_ Hsame]. exact (Hsame Hv).
Defined.
