(* ===== verification/IsoText.v ===== *)
(** Reading numbers and moments as the standard library does: [int(text)] and the
    wall clock of [datetime.fromisoformat(text)], which is what remains when the
    caller replaces its time zone. *)
From stdpp Require Import base tactics list strings.
From Stdlib Require Import ZArith Lia Ascii.
From S2P Require Import Prelude PyTypes PyParse PyJson JsonText.

Local Open Scope Z_scope.

(** ** Texts *)

(** [sep in s] and [s.split(sep, 1)] for one character: the parts around its first
    occurrence. *)
Fixpoint split_once (sep : ascii) (s : string) : option (string * string) :=
  match s with
  | EmptyString => None
  | String c s =>
      if Ascii.eqb c sep then Some (EmptyString, s)
      else '(a, b) ← split_once sep s; Some (String c a, b)
  end.

(** [s.split(sep)] *)
Fixpoint split_all (sep : ascii) (s : string) : list string :=
  match s with
  | EmptyString => [EmptyString]
  | String c s =>
      if Ascii.eqb c sep then EmptyString :: split_all sep s
      else match split_all sep s with
           | w :: ws => String c w :: ws
           | [] => [String c EmptyString]
           end
  end.

(** [s[:n]] and [s[n:]], for [n] not negative. *)
Fixpoint take_str (n : nat) (s : string) : string :=
  match n, s with
  | S n, String c s => String c (take_str n s)
  | _, _ => EmptyString
  end.
Fixpoint drop_str (n : nat) (s : string) : string :=
  match n, s with
  | S n, String _ s => drop_str n s
  | _, s => s
  end.

(** [s.startswith(p)], with what follows. *)
Fixpoint after_prefix (p s : string) : option string :=
  match p, s with
  | EmptyString, s => Some s
  | String a p, String b s => if Ascii.eqb a b then after_prefix p s else None
  | String _ _, EmptyString => None
  end.

(** ** Numbers *)

(** Digits with single underscores between them. *)
Fixpoint int_digits (acc : Z) (s : string) : option Z :=
  match s with
  | EmptyString => Some acc
  | String c s =>
      if Ascii.eqb c "_" then
        match s with
        | String c s => d ← dec_value c; int_digits (10 * acc + d) s
        | EmptyString => None
        end
      else d ← dec_value c; int_digits (10 * acc + d) s
  end.

Definition int_unsigned (s : string) : option Z :=
  match s with
  | String c s => d ← dec_value c; int_digits d s
  | EmptyString => None
  end.

(** [int(s)]: a decimal numeral between white space.  Digits beyond ASCII are not
    modelled, and the separators U+001C to U+001F count as white space. *)
Definition int_text (s : string) : option Z :=
  match strip s with
  | String c r =>
      if Ascii.eqb c "-" then Z.opp <$> int_unsigned r
      else if Ascii.eqb c "+" then int_unsigned r
      else int_unsigned (String c r)
  | EmptyString => None
  end.

(** ** Moments *)

(** The fraction after a [.] or a [,]: six digits count, further ones are
    skipped. *)
Fixpoint fraction (w : nat) (s : string) : option Z :=
  match s with
  | EmptyString => Some 0
  | String c s =>
      d ← dec_value c;
      match w with
      | S w => us ← fraction w s; Some (d * 10 ^ Z.of_nat w + us)
      | O => fraction O s
      end
  end.

(** The end of [HH:MM:SS]: nothing, or a fraction that is not empty. *)
Definition opt_fraction (s : string) : option Z :=
  match s with
  | EmptyString => Some 0
  | String c r =>
      if (Ascii.eqb c "." || Ascii.eqb c ",") && negb (empty_str r) then fraction 6 r else None
  end.

(** [_parse_hh_mm_ss_ff] as hours, minutes, seconds and microseconds. *)
Definition hh_mm_ss_ff (s : string) : option (Z * Z * Z * Z) :=
  '(hh, s) ← digits 2 0 s;
  if empty_str s then Some (hh, 0, 0, 0)
  else
    let sep := match expect ":" s with Some _ => true | None => false end in
    let next (s : string) := if sep then expect ":" s else Some s in
    s ← next s;
    '(mm, s) ← digits 2 0 s;
    if empty_str s then Some (hh, mm, 0, 0)
    else
      s ← next s;
      '(ss, s) ← digits 2 0 s;
      us ← opt_fraction s;
      Some (hh, mm, ss, us).

(** A time and the offset after it, from the first [+], [-] or [Z]. *)
Fixpoint split_offset (s : string) : string * string :=
  match s with
  | EmptyString => (EmptyString, EmptyString)
  | String c r =>
      if Ascii.eqb c "+" || Ascii.eqb c "-" || Ascii.eqb c "Z" then (EmptyString, s)
      else let '(a, b) := split_offset r in (String c a, b)
  end.

(** An offset is [Z], or a sign and less than a day. *)
Definition offset_ok (s : string) : bool :=
  match s with
  | EmptyString => true
  | String c r =>
      if Ascii.eqb c "Z" then empty_str r
      else match hh_mm_ss_ff r with
           | Some (hh, mm, ss, us) => (hh * 3600 + mm * 60 + ss <? 86400)
           | None => false
           end
  end.

(** [YYYY-MM-DD] or [YYYYMMDD]. *)
Definition iso_date (s : string) : option (Z * Z * Z * string) :=
  '(y, s) ← digits 4 0 s;
  let sep := match expect "-" s with Some _ => true | None => false end in
  let next (s : string) := if sep then expect "-" s else Some s in
  s ← next s;
  '(m, s) ← digits 2 0 s;
  s ← next s;
  '(d, s) ← digits 2 0 s;
  Some (y, m, d, s).

(** [datetime.fromisoformat(s).replace(tzinfo=UTC)]: the calendar and the clock of
    the text, whatever its offset.  Not modelled: dates by week, [24:00], and the
    stray character before an offset that CPython skips. *)
Definition wall_clock (s : string) : option datetime :=
  '(y, m, d, s) ← iso_date s;
  '(hh, mm, ss, us) ← match s with
                      | EmptyString => Some (0, 0, 0, 0)
                      | String _ s =>
                          let '(time, offset) := split_offset s in
                          if offset_ok offset then hh_mm_ss_ff time else None
                      end;
  if date_ok y m d && (hh <? 24) && (mm <? 60) && (ss <? 60)
  then Some ((days_of_civil y m d * 86400 + hh * 3600 + mm * 60 + ss) * 1000000 + us)
  else None.

Example wall_clock_examples :
  wall_clock "2020-01-01" = Some 1577836800000000 ∧
  wall_clock "20200101T1230" = Some 1577881800000000 ∧
  wall_clock "2020-01-01T12:30:45.5+05:30" = Some 1577881845500000 ∧
  wall_clock "2020-01-01T12:30:45,123456789Z" = Some 1577881845123456 ∧
  wall_clock "2020-01-01T12:30+24:00" = None ∧ wall_clock "2020-0101" = None ∧
  wall_clock "2020-01-01T12:30:" = None ∧ wall_clock "2020-02-30" = None ∧ wall_clock "2020-01-01T12+05" = Some 1577880000000000.
Proof. vm_compute. done. Qed.

Example int_text_examples : int_text " 5_0 " = Some 50 ∧ int_text "-05" = Some (-5) ∧ int_text "5__0" = None ∧
  int_text "_5" = None ∧ int_text "" = None ∧ int_text "+7" = Some 7.
Proof. vm_compute. done. Qed.

(** ** Lemmas *)

Definition digit (d : Z) : ascii := Ascii.ascii_of_nat (Z.to_nat (48 + d)).

Definition all_digits : list ascii := map digit [0; 1; 2; 3; 4; 5; 6; 7; 8; 9].

Lemma digit_in d : 0 <= d < 10 → digit d ∈ all_digits.
Proof.
  intros Hd. unfold all_digits. apply list_elem_of_fmap. exists d. split; [done|].
  assert (d = 0 ∨ d = 1 ∨ d = 2 ∨ d = 3 ∨ d = 4 ∨ d = 5 ∨ d = 6 ∨ d = 7 ∨ d = 8 ∨ d = 9) as Hc by lia.
  repeat destruct Hc as [->|Hc]; subst; by_compute.
Qed.

Lemma dec_all (P : ascii → Prop) w n : Forall P all_digits → string_all P (dec w n).
Proof.
  rewrite Forall_forall. intros HP. revert n. induction w as [|w IH]; intros n; [done|]. cbn [dec].
  apply string_all_app; [apply IH|]. split; [|done]. apply HP, digit_in. by apply Z.mod_pos_bound.
Qed.

Lemma dec_two n : dec 2 n = String (digit (n / 10 mod 10)) (String (digit (n mod 10)) EmptyString).
Proof. done. Qed.

Lemma split_once_app sep a b : string_all (λ c, Ascii.eqb c sep = false) a →
  split_once sep (a +:+ String sep b) = Some (a, b).
Proof.
  induction a as [|c a IH].
  - intros _. rewrite append_nil. cbn [split_once]. by rewrite Ascii.eqb_refl.
  - intros [Hc Ha]. rewrite append_cons. cbn [split_once]. by rewrite Hc, IH.
Qed.

Lemma split_once_none sep s : string_all (λ c, Ascii.eqb c sep = false) s → split_once sep s = None.
Proof. induction s as [|c s IH]; [done|]. intros [Hc Hs]. cbn [split_once]. by rewrite Hc, IH. Qed.

Lemma split_all_join sep l : l ≠ [] → (∀ s, s ∈ l → string_all (λ c, Ascii.eqb c sep = false) s) →
  split_all sep (join (String sep EmptyString) l) = l.
Proof.
  assert (∀ s r, string_all (λ c, Ascii.eqb c sep = false) s → split_all sep (s +:+ String sep r) = s :: split_all sep r) as Hsep.
  { induction s as [|c s IH]; intros r; [intros _; rewrite append_nil; cbn [split_all]; by rewrite Ascii.eqb_refl|].
    intros [Hc Hs]. rewrite append_cons. cbn [split_all]. by rewrite Hc, IH. }
  assert (∀ s, string_all (λ c, Ascii.eqb c sep = false) s → split_all sep s = [s]) as Hone.
  { induction s as [|c s IH]; [done|]. intros [Hc Hs]. cbn [split_all]. by rewrite Hc, IH. }
  induction l as [|s l IH]; intros Hne Hl; [done|]. destruct l as [|s' l].
  - apply Hone, Hl. left.
  - change (join (String sep EmptyString) (s :: s' :: l)) with (s +:+ String sep EmptyString +:+ join (String sep EmptyString) (s' :: l)). rewrite append_cons, append_nil, Hsep by (apply Hl; left).
    rewrite IH; [done|done|]. intros x Hx. apply Hl. by right.
Qed.

Lemma split_offset_none s : string_all (λ c, Ascii.eqb c "+" || Ascii.eqb c "-" || Ascii.eqb c "Z" = false) s →
  split_offset s = (s, EmptyString).
Proof. induction s as [|c s IH]; [done|]. intros [Hc Hs]. cbn [split_offset]. by rewrite Hc, IH. Qed.

(** A text without white space is what [strip] makes of it. *)
Lemma strip_plain s : string_all (λ c, is_space c = false) s → strip s = s.
Proof.
  intros Hs. unfold strip. replace (lstrip s) with s by (destruct s as [|c s]; [done|]; simpl; by rewrite (proj1 Hs)).
  induction s as [|c s IH]; [done|]. destruct Hs as [Hc Hs]. simpl. rewrite (IH Hs). destruct s; [by rewrite Hc|done].
Qed.

(** Reading a number of one or two digits. *)
Lemma int_text_digit d : 0 <= d < 10 → int_text (String (digit d) EmptyString) = Some d.
Proof.
  intros Hd. assert (d ∈ seqZ 0 10) as Hin by (apply elem_of_seqZ; lia).
  assert (forallb (λ d, bool_decide (int_text (String (digit d) EmptyString) = Some d)) (seqZ 0 10) = true) as Hall by by vm_compute.
  rewrite forallb_forall in Hall. eapply bool_decide_eq_true, Hall. by apply list_elem_of_In.
Qed.

Lemma int_text_dec2 n : 0 <= n < 100 → int_text (dec 2 n) = Some n.
Proof.
  intros Hn. assert (n ∈ seqZ 0 100) as Hin by (apply elem_of_seqZ; lia).
  assert (forallb (λ n, bool_decide (int_text (dec 2 n) = Some n)) (seqZ 0 100) = true) as Hall by by vm_compute.
  rewrite forallb_forall in Hall. eapply bool_decide_eq_true, Hall. by apply list_elem_of_In.
Qed.

Lemma take_str_app a b : take_str (String.length a) (a +:+ b) = a.
Proof. induction a as [|c a IH]; [by destruct b|]. rewrite append_cons. simpl. by rewrite IH. Qed.
Lemma drop_str_app a b : drop_str (String.length a) (a +:+ b) = b.
Proof. induction a as [|c a IH]; [by destruct b|]. rewrite append_cons. simpl. by rewrite IH. Qed.

(** The text of a minute. *)
Definition iso_minute (n : Z) : string :=
  let '(y, m, d) := civil_of_days (n / 1440) in
  dec 4 y +:+ "-" +:+ dec 2 m +:+ "-" +:+ dec 2 d +:+ "T" +:+ dec 2 (n mod 1440 / 60) +:+ ":" +:+ dec 2 (n mod 60).

Lemma hh_mm_read hh mm : 0 <= hh < 100 → 0 <= mm < 100 → hh_mm_ss_ff (dec 2 hh +:+ ":" +:+ dec 2 mm) = Some (hh, mm, 0, 0).
Proof.
  intros Hh Hm. unfold hh_mm_ss_ff. rewrite digits_read by (simpl; lia). cbn [mbind option_bind].
  rewrite append_cons, append_nil. unfold empty_str at 1. rewrite bool_decide_eq_false_2 by done. rewrite expect_read.
  cbv beta iota zeta. cbn [mbind option_bind].
  rewrite <- (string_append_empty (dec 2 mm)), digits_read by (simpl; lia). done.
Qed.

(** The wall clock reads what [isoformat] writes up to the minute. *)
Lemma wall_clock_minute n : datetime_ok (n * 60000000) → wall_clock (iso_minute n) = Some (n * 60000000).
Proof.
  unfold datetime_ok, iso_minute, wall_clock. replace (n * 60000000 / 1000000 / 86400) with (n / 1440)
    by (rewrite Z.div_div by lia; rewrite <- (Z.div_mul_cancel_r n 1440 60000000) by lia; done).
  pose proof (civil_round (n / 1440)) as Hc. destruct (civil_of_days (n / 1440)) as [[y m] d] eqn:Hciv. cbn [fst].
  destruct Hc as (Hdays & Hm & Hd). intros Hy.
  assert (0 <= n mod 1440 / 60 < 24 ∧ 0 <= n mod 60 < 60 ∧ n mod 1440 / 60 * 60 + n mod 60 = n mod 1440) as (Hh & Hmi & Ht)
    by (Z.to_euclidean_division_equations; lia).
  unfold iso_date. rewrite digits_read by (simpl; lia). cbn [mbind option_bind].
  rewrite append_cons, append_nil, expect_read. cbv beta iota zeta. cbn [mbind option_bind].
  rewrite digits_read by (simpl; lia). cbn [mbind option_bind]. rewrite append_cons, append_nil, expect_read. cbn [mbind option_bind].
  rewrite digits_read by (simpl; lia). cbn [mbind option_bind]. rewrite append_cons, append_nil.
  rewrite split_offset_none. 2:{ apply string_all_app; [apply dec_all; by_compute|]. apply string_all_app; [by split|apply dec_all; by_compute]. }
  cbn [offset_ok]. rewrite hh_mm_read by lia. cbn [mbind option_bind].
  unfold date_ok. rewrite Hdays, Hciv, bool_decide_eq_true_2 by done.
  rewrite !(proj2 (Z.leb_le _ _)), !(proj2 (Z.ltb_lt _ _)) by lia. simpl. f_equal.
  pose proof (Z.div_mod n 1440 ltac:(lia)). lia.
Qed.
