(* ===== verification/CampaignRootData.v ===== *)
(** Data of [campaign.domain]: enumerations, identifiers, value objects, entities,
    exceptions and events of a campaign and its instances. *)
From stdpp Require Import base tactics list strings.
From Stdlib Require Import ZArith Lia.
From S2P Require Import Prelude PyTypes.

Local Open Scope Z_scope.

(** ** Enumerations *)

Module CampaignKind.
Inductive t := ONE_SHOT | RECURRING | CONTINUOUS.
#[export] Instance eq_dec : EqDecision t.
Proof. solve_decision. Defined.
Definition value (x : t) : string :=
  match x with ONE_SHOT => "OneShot" | RECURRING => "Recurring" | CONTINUOUS => "Continuous" end.
End CampaignKind.
Export (hints) CampaignKind.

Module CampaignClassification.
Inductive t :=
  FULL_KILL_CHAIN | THREAT_ACTOR_EMULATION | COMPLIANCE_VALIDATION | DETECTION_TUNING | RED_VS_BLUE.
#[export] Instance eq_dec : EqDecision t.
Proof. solve_decision. Defined.
Definition value (x : t) : string :=
  match x with
  | FULL_KILL_CHAIN => "FullKillChain" | THREAT_ACTOR_EMULATION => "ThreatActorEmulation"
  | COMPLIANCE_VALIDATION => "ComplianceValidation" | DETECTION_TUNING => "DetectionTuning"
  | RED_VS_BLUE => "RedVsBlue"
  end.
End CampaignClassification.
Export (hints) CampaignClassification.

Module CampaignState.
Inductive t :=
  DRAFT | PENDING_APPROVAL | APPROVED | SCHEDULED | RUNNING | PAUSED | COMPLETED | FAILED | ARCHIVED.
#[export] Instance eq_dec : EqDecision t.
Proof. solve_decision. Defined.
Definition value (x : t) : string :=
  match x with
  | DRAFT => "Draft" | PENDING_APPROVAL => "PendingApproval" | APPROVED => "Approved" | SCHEDULED => "Scheduled"
  | RUNNING => "Running" | PAUSED => "Paused" | COMPLETED => "Completed" | FAILED => "Failed"
  | ARCHIVED => "Archived"
  end.
End CampaignState.
Export (hints) CampaignState.

Module ObjectiveType.
Inductive t :=
  ACCESS_ACHIEVED | DATA_ACCESSED | PRIVILEGE_ESCALATED | LATERAL_MOVEMENT_ACHIEVED | DETECTION_EVADED
  | COMPLIANCE_CONTROL_BYPASSED | CUSTOM_DEFINED.
#[export] Instance eq_dec : EqDecision t.
Proof. solve_decision. Defined.
Definition value (x : t) : string :=
  match x with
  | ACCESS_ACHIEVED => "AccessAchieved" | DATA_ACCESSED => "DataAccessed"
  | PRIVILEGE_ESCALATED => "PrivilegeEscalated" | LATERAL_MOVEMENT_ACHIEVED => "LateralMovementAchieved"
  | DETECTION_EVADED => "DetectionEvaded" | COMPLIANCE_CONTROL_BYPASSED => "ComplianceControlBypassed"
  | CUSTOM_DEFINED => "CustomDefined"
  end.
End ObjectiveType.
Export (hints) ObjectiveType.

Module ObjectiveState.
Inductive t := PENDING | ACHIEVED | FAILED | INCONCLUSIVE | SKIPPED.
#[export] Instance eq_dec : EqDecision t.
Proof. solve_decision. Defined.
Definition value (x : t) : string :=
  match x with
  | PENDING => "Pending" | ACHIEVED => "Achieved" | FAILED => "Failed" | INCONCLUSIVE => "Inconclusive"
  | SKIPPED => "Skipped"
  end.
End ObjectiveState.
Export (hints) ObjectiveState.

Module InstanceState.
Inductive t := STARTING | RUNNING | PAUSED | COMPLETED | FAILED | ABORTED.
#[export] Instance eq_dec : EqDecision t.
Proof. solve_decision. Defined.
Definition value (x : t) : string :=
  match x with
  | STARTING => "Starting" | RUNNING => "Running" | PAUSED => "Paused" | COMPLETED => "Completed"
  | FAILED => "Failed" | ABORTED => "Aborted"
  end.
End InstanceState.
Export (hints) InstanceState.

Module QuorumType.
Inductive t := UNANIMOUS | MAJORITY.
Definition value (x : t) : string := match x with UNANIMOUS => "Unanimous" | MAJORITY => "Majority" end.
End QuorumType.
Export (hints) QuorumType.

(** ** Value objects

    [X_new] is the constructor with its [__post_init__]; [None] is [ValueError]. *)

Record EngagementRef := mkEngagementRef { er_engagement_id : uuid; er_tenant_id : TenantId }.

Record TargetSelectionRule := mkRule { attribute : string; operator : string; rule_value : string }.

Record TargetRef := mkTargetRef { asset_id : uuid; asset_type : string }.

(** [SelectedTargetSet] is its [targets], and [count] their number. *)
Abbreviation SelectedTargetSet := (list TargetRef).

Record RecurrencePolicy := mkPolicy {
  rp_cron_expression : string; rp_execution_window_hours : Z; rp_max_consecutive_failures : Z;
  rp_blackout_periods : list string }.

Record CampaignSafetyPolicyVO := mkSafetyPolicy {
  max_concurrent_actions : Z; auto_abort_on_detection : bool; auto_abort_on_objective_failure : bool;
  blast_radius_ceiling : string }.
Definition _MAX_CONCURRENT_ACTIONS_CEILING : Z := 100.
Definition CampaignSafetyPolicyVO_new (n : Z) (detection objective : bool) (ceiling : string)
    : option CampaignSafetyPolicyVO :=
  if n <? 1 then None
  else if _MAX_CONCURRENT_ACTIONS_CEILING <? n then None
  else Some (mkSafetyPolicy n detection objective ceiling).

Record ObjectiveEvaluationCriteria := mkCriteria {
  condition_type : string; parameters : list (string * string) }.

Record ApprovalRecord := mkApprovalRecord {
  approver_id : string; timestamp : datetime; signature : string; approval_scope : string }.

Record ApprovalPolicy := mkApprovalPolicy {
  required_approver_count : Z; required_approver_roles : list string; quorum_type : string }.
Definition ApprovalPolicy_new (n : Z) (roles : list string) (quorum : string) : option ApprovalPolicy :=
  if n <? 1 then None else Some (mkApprovalPolicy n roles quorum).

#[export] Instance EngagementRef_eq_dec : EqDecision EngagementRef.
Proof. solve_decision. Defined.
#[export] Instance TargetRef_eq_dec : EqDecision TargetRef.
Proof. solve_decision. Defined.

(** ** Entities *)

Record CampaignObjective := mkObjective {
  objective_id : uuid; objective_type : ObjectiveType.t; objective_description : string;
  evaluation_criteria : ObjectiveEvaluationCriteria; objective_state : ObjectiveState.t; sealed : bool }.
#[export] Instance CampaignObjective_settable : Settable CampaignObjective := fun o =>
  mkObjective (objective_id o) (objective_type o) (objective_description o) (evaluation_criteria o)
    (objective_state o) (sealed o).

Definition seal (o : CampaignObjective) : CampaignObjective := o <| sealed := true |>.
Definition mark_achieved (o : CampaignObjective) : CampaignObjective := o <| objective_state := ObjectiveState.ACHIEVED |>.
Definition mark_failed (o : CampaignObjective) : CampaignObjective := o <| objective_state := ObjectiveState.FAILED |>.
Definition mark_skipped (o : CampaignObjective) : CampaignObjective := o <| objective_state := ObjectiveState.SKIPPED |>.
Definition mark_inconclusive (o : CampaignObjective) : CampaignObjective :=
  o <| objective_state := ObjectiveState.INCONCLUSIVE |>.

Record CampaignApproval := mkApproval {
  approval_id : uuid; record : ApprovalRecord; revoked : bool; revoked_at : option datetime;
  revoked_by : option string }.

Record CampaignSchedule := mkSchedule {
  cron_expression : string; execution_window_hours : Z; max_consecutive_failures : Z;
  blackout_periods : list string; consecutive_failure_count : Z; scheduler_job_id : option string }.
#[export] Instance CampaignSchedule_settable : Settable CampaignSchedule := fun s =>
  mkSchedule (cron_expression s) (execution_window_hours s) (max_consecutive_failures s) (blackout_periods s)
    (consecutive_failure_count s) (scheduler_job_id s).

Definition record_failure (s : CampaignSchedule) : CampaignSchedule := s <| consecutive_failure_count ::= Z.add 1 |>.
Definition reset_failure_count (s : CampaignSchedule) : CampaignSchedule := s <| consecutive_failure_count := 0 |>.
Definition is_failure_threshold_exceeded (s : CampaignSchedule) : bool :=
  max_consecutive_failures s <=? consecutive_failure_count s.
Definition to_recurrence_policy (s : CampaignSchedule) : RecurrencePolicy :=
  mkPolicy (cron_expression s) (execution_window_hours s) (max_consecutive_failures s) (blackout_periods s).

(** ** Exceptions *)

Inductive CampaignDomainException :=
  | InvalidStateTransition (from_state to_state : string) (aggregate : uuid)
  | InvariantViolation (invariant detail : string)
  | ObjectiveSealedViolation (objective : uuid)
  | ArchivedImmutabilityViolation (aggregate : uuid)
  | TenantMismatch (expected actual : TenantId)
  | InvalidArgument (field reason : string)
  | EngagementNotActive (engagement : option uuid) (engagement_state : string)
  | TargetResolutionFailed (reason : string)
  | DuplicateApproval (approver : string) (campaign : uuid).

(** ** Events

    The events the two aggregates emit. *)

Inductive CampaignEvent :=
  | CampaignCreated (classification kind owner_id : string)
  | CampaignObjectiveAdded (objective : uuid) (objective_type : string)
  | CampaignSubmittedForApproval
  | CampaignScheduled (cron_expression : string)
  | CampaignStarted (instance : uuid) (resolved_target_count : Z)
  | CampaignPaused (reason : string)
  | CampaignResumed
  | CampaignCompleted (instance : uuid) (composite_outcome : string)
  | CampaignFailed (instance : uuid) (reason : string)
  | CampaignArchived
  | CampaignApprovalGranted (approver signature : string) (quorum_met : bool)
  | CampaignApprovalRevoked (approver revoked_by : string)
  | CampaignScheduleFired (cron_expression : string) (scheduled_fire_time : datetime) (run_number : Z)
  | ScheduledFireSkipped (reason : string) (scheduled_fire_time : datetime) (consecutive_skips : Z)
  | RecurringCampaignPaused (consecutive_failure_count max_consecutive_failures : Z).

Inductive InstanceEvent :=
  | CampaignInstanceStarted (instance : uuid) (run_number : Z)
  | CampaignInstanceCompleted (instance : uuid) (run_number : Z)
  | CampaignInstanceFailed (instance : uuid) (run_number : Z) (reason : string)
  | CampaignInstanceAborted (instance : uuid) (run_number : Z) (reason : string).
