(* ===== verification/CampaignRoot.v ===== *)
(** The aggregate [campaign.domain.aggregates.campaign.Campaign]: its state, every
    method with its guards, version and events, and what its histories keep. *)
From stdpp Require Import base tactics list strings relations.
From Stdlib Require Import ZArith Lia.
From S2P Require Import Prelude PyTypes CampaignRootData.

Local Open Scope Z_scope.

Import CampaignState.

(** ** State *)

Record Campaign := mkCampaign {
  campaign_id : uuid;
  tenant_id : TenantId;
  name : string;
  classification : CampaignClassification.t;
  kind : CampaignKind.t;
  owner_id : string;
  state : CampaignState.t;
  safety_policy : CampaignSafetyPolicyVO;
  approval_policy : ApprovalPolicy;
  engagement_ref : option EngagementRef;
  objectives : list CampaignObjective;
  approvals : list CampaignApproval;
  target_selection_rules : list TargetSelectionRule;
  campaign_schedule : option CampaignSchedule;
  created_at : datetime;
  updated_at : datetime;
  version : Z;
  pending_events : list (DomainEvent CampaignEvent)
}.
#[export] Instance Campaign_settable : Settable Campaign := fun c =>
  mkCampaign (campaign_id c) (tenant_id c) (name c) (classification c) (kind c) (owner_id c) (state c)
    (safety_policy c) (approval_policy c) (engagement_ref c) (objectives c) (approvals c)
    (target_selection_rules c) (campaign_schedule c) (created_at c) (updated_at c) (version c) (pending_events c).

Definition _ALLOWED_TRANSITIONS (s : CampaignState.t) : list CampaignState.t :=
  match s with
  | DRAFT => [PENDING_APPROVAL]
  | PENDING_APPROVAL => [APPROVED; DRAFT]
  | APPROVED => [SCHEDULED; RUNNING]
  | SCHEDULED => [RUNNING; APPROVED; PAUSED]
  | RUNNING => [PAUSED; COMPLETED; FAILED]
  | PAUSED => [RUNNING; SCHEDULED; FAILED]
  | COMPLETED | FAILED => [ARCHIVED]
  | ARCHIVED => []
  end.

Abbreviation M := (PyM Campaign CampaignDomainException).

(** ** Helpers *)

(** [_emit], with the envelope every event of the aggregate carries. *)
Definition _emit (now : datetime) (e : CampaignEvent) : M unit :=
  modify (fun c => c <| pending_events ::= fun l => l ++ [mkEvent now (tenant_id c) (campaign_id c) e] |>).

Definition pop_events : M (list (DomainEvent CampaignEvent)) :=
  c ← self;
  modify (fun c => c <| pending_events := [] |>);;
  mret (pending_events c).

Definition _assert_tenant (t : TenantId) : M unit :=
  c ← self;
  raise_if (bool_decide (t ≠ tenant_id c)) (TenantMismatch (tenant_id c) t).

Definition _assert_not_archived : M unit :=
  c ← self;
  raise_if (bool_decide (state c = ARCHIVED)) (ArchivedImmutabilityViolation (campaign_id c)).

Definition _mutate (now : datetime) : M unit :=
  modify (fun c => c <| updated_at := now |> <| version ::= Z.add 1 |>).

Definition _transition (to_state : CampaignState.t) : M unit :=
  c ← self;
  raise_if (bool_decide (to_state ∉ _ALLOWED_TRANSITIONS (state c)))
    (InvalidStateTransition (value (state c)) (value to_state) (campaign_id c));;
  modify (fun c => c <| state := to_state |>).

(** [if self.state not in states: raise InvalidStateTransition(...)] *)
Definition _assert_state (states : list CampaignState.t) (what : string) : M unit :=
  c ← self;
  raise_if (bool_decide (state c ∉ states)) (InvalidStateTransition (value (state c)) what (campaign_id c)).

Definition active (a : CampaignApproval) : Prop := revoked a = false.
#[export] Instance active_dec a : Decision (active a).
Proof. unfold active. apply _. Defined.

Definition active_approvals (c : Campaign) : list CampaignApproval := filter active (approvals c).

(** What an approval is compared by. *)
Definition approver_key (a : CampaignApproval) : string * string := (approver_id (record a), approval_scope (record a)).

(** Both branches of the source compare the count with the required one. *)
Definition quorum_met (c : Campaign) : bool :=
  required_approver_count (approval_policy c) <=? Z.of_nat (length (active_approvals c)).

(** [x is not None] *)
Definition present {A} (x : option A) : bool := match x with Some _ => true | None => false end.

(** ** Operations *)

Definition create (id : uuid) (t : TenantId) (nm : string) (cl : CampaignClassification.t) (k : CampaignKind.t)
    (owner : string) (safety : CampaignSafetyPolicyVO) (policy : ApprovalPolicy) (ref : option EngagementRef)
    (now : datetime) : result CampaignDomainException Campaign :=
  if blank nm then Err (InvalidArgument "name" "must not be empty")
  else if blank owner then Err (InvalidArgument "owner_id" "must not be empty")
  else
    let campaign := mkCampaign id t (strip nm) cl k (strip owner) DRAFT safety policy ref [] [] [] None now now 1 [] in
    Ok (snd (_emit now (CampaignCreated (CampaignClassification.value cl) (CampaignKind.value k) (strip owner)) campaign)).

Definition add_objective (t : TenantId) (objective : CampaignObjective) (now : datetime) : M unit :=
  _assert_tenant t;;
  _assert_not_archived;;
  _assert_state [DRAFT; PENDING_APPROVAL] "add_objective";;
  c ← self;
  match find sealed (objectives c) with
  | Some existing => raise (ObjectiveSealedViolation (objective_id existing))
  | None => mret tt
  end;;
  modify (fun c => c <| objectives ::= fun l => l ++ [objective] |>);;
  _mutate now;;
  _emit now (CampaignObjectiveAdded (objective_id objective) (ObjectiveType.value (objective_type objective))).

Definition set_engagement_ref (t : TenantId) (ref : EngagementRef) (now : datetime) : M unit :=
  _assert_tenant t;;
  _assert_not_archived;;
  _assert_state [DRAFT; PENDING_APPROVAL] "set_engagement_ref";;
  modify (fun c => c <| engagement_ref := Some ref |>);;
  _mutate now.

Definition add_target_selection_rule (t : TenantId) (rule : TargetSelectionRule) (now : datetime) : M unit :=
  _assert_tenant t;;
  _assert_not_archived;;
  _assert_state [DRAFT; PENDING_APPROVAL] "add_target_selection_rule";;
  modify (fun c => c <| target_selection_rules ::= fun l => l ++ [rule] |>);;
  _mutate now.

Definition submit_for_approval (t : TenantId) (now : datetime) : M unit :=
  _assert_tenant t;;
  _assert_not_archived;;
  c ← self;
  raise_if (bool_decide (engagement_ref c = None))
    (InvariantViolation "engagement_ref" "Campaign must have an EngagementRef before approval");;
  raise_if (bool_decide (length (target_selection_rules c) = 0%nat))
    (InvariantViolation "target_selection_rules" "Campaign must have at least one target selection rule");;
  raise_if (bool_decide (kind c = CampaignKind.RECURRING) && negb (present (campaign_schedule c)))
    (InvariantViolation "schedule" "Recurring campaign must have a CampaignSchedule");;
  raise_if (bool_decide (kind c = CampaignKind.ONE_SHOT) && present (campaign_schedule c))
    (InvariantViolation "schedule" "OneShot campaign must not have a CampaignSchedule");;
  modify (fun c => c <| objectives ::= map seal |>);;
  _transition PENDING_APPROVAL;;
  _mutate now;;
  _emit now CampaignSubmittedForApproval.

(** [aid] is the generated id of the approval. *)
Definition grant_approval (t : TenantId) (approver sig : string) (now : datetime) (scope : string) (aid : uuid)
    : M CampaignApproval :=
  _assert_tenant t;;
  _assert_not_archived;;
  _assert_state [PENDING_APPROVAL] "grant_approval";;
  raise_if (blank approver) (InvalidArgument "approver_id" "must not be empty");;
  raise_if (blank sig) (InvalidArgument "signature" "must not be empty");;
  c ← self;
  raise_if (bool_decide ((strip approver, scope) ∈
      map approver_key (active_approvals c)))
    (DuplicateApproval (strip approver) (campaign_id c));;
  let approval := mkApproval aid (mkApprovalRecord (strip approver) now (strip sig) scope) false None None in
  modify (fun c => c <| approvals ::= fun l => l ++ [approval] |>);;
  c ← self;
  let quorum_complete := quorum_met c in
  when quorum_complete (_transition APPROVED);;
  _mutate now;;
  _emit now (CampaignApprovalGranted (strip approver) (strip sig) quorum_complete);;
  mret approval.

(** The loop over the approvals: the first active one of the approver is revoked;
    [None] when there is none. *)
Fixpoint revoke_first (approver : string) (now : datetime) (by_ : string) (l : list CampaignApproval)
    : option (list CampaignApproval) :=
  match l with
  | [] => None
  | a :: l =>
      if negb (revoked a) && bool_decide (approver_id (record a) = approver)
      then Some (mkApproval (approval_id a) (record a) true (Some now) (Some by_) :: l)
      else l' ← revoke_first approver now by_ l; Some (a :: l')
  end.

Definition revoke_approval (t : TenantId) (approver by_ : string) (now : datetime) : M unit :=
  _assert_tenant t;;
  _assert_not_archived;;
  _assert_state [PENDING_APPROVAL; APPROVED] "revoke_approval";;
  c ← self;
  match revoke_first (strip approver) now (strip by_) (approvals c) with
  | Some l => modify (fun c => c <| approvals := l |>)
  | None => raise (InvalidArgument "approver_id" "active approval not found")
  end;;
  c ← self;
  when (bool_decide (state c = APPROVED) && negb (quorum_met c))
    (modify (fun c => c <| state := PENDING_APPROVAL |>));;
  _mutate now;;
  _emit now (CampaignApprovalRevoked (strip approver) (strip by_)).

Definition schedule (t : TenantId) (cron : string) (hours : Z) (now : datetime) (max_fail : Z)
    (blackouts : list string) : M unit :=
  _assert_tenant t;;
  _assert_not_archived;;
  _assert_state [APPROVED] "schedule";;
  c ← self;
  raise_if (bool_decide (kind c ∉ [CampaignKind.RECURRING; CampaignKind.CONTINUOUS]))
    (InvariantViolation "kind" "Only Recurring or Continuous campaigns can be scheduled");;
  raise_if (blank cron) (InvalidArgument "cron_expression" "must not be empty");;
  raise_if (hours <? 1) (InvalidArgument "execution_window_hours" "must be at least 1");;
  modify (fun c => c <| campaign_schedule := Some (mkSchedule (strip cron) hours max_fail blackouts 0 None) |>);;
  _transition SCHEDULED;;
  _mutate now;;
  _emit now (CampaignScheduled (strip cron)).

Definition schedule_one_shot (t : TenantId) (fire_at now : datetime) : M unit :=
  _assert_tenant t;;
  _assert_not_archived;;
  _assert_state [APPROVED] "schedule_one_shot";;
  c ← self;
  raise_if (bool_decide (kind c ≠ CampaignKind.ONE_SHOT))
    (InvariantViolation "kind" "Only OneShot campaigns can use schedule_one_shot");;
  let cron := "ONESHOT:" +:+ isoformat fire_at in
  modify (fun c => c <| campaign_schedule := Some (mkSchedule cron 1 1 [] 0 None) |>);;
  _transition SCHEDULED;;
  _mutate now;;
  _emit now (CampaignScheduled cron).

Definition cancel_schedule (t : TenantId) (now : datetime) : M unit :=
  _assert_tenant t;;
  _assert_not_archived;;
  _assert_state [SCHEDULED] "cancel_schedule";;
  modify (fun c => c <| campaign_schedule := None |>);;
  _transition APPROVED;;
  _mutate now.

Definition start_instance (t : TenantId) (instance : uuid) (target_count : Z) (now : datetime) : M unit :=
  _assert_tenant t;;
  _assert_not_archived;;
  _assert_state [APPROVED; SCHEDULED] "start_instance";;
  _transition RUNNING;;
  _mutate now;;
  _emit now (CampaignStarted instance target_count).

Definition pause (t : TenantId) (reason : string) (now : datetime) : M unit :=
  _assert_tenant t;;
  _assert_not_archived;;
  raise_if (blank reason) (InvalidArgument "reason" "must not be empty");;
  _transition PAUSED;;
  _mutate now;;
  _emit now (CampaignPaused (strip reason)).

Definition resume (t : TenantId) (now : datetime) : M unit :=
  _assert_tenant t;;
  _assert_not_archived;;
  _transition RUNNING;;
  _mutate now;;
  _emit now CampaignResumed.

Definition complete (t : TenantId) (instance : uuid) (outcome : string) (now : datetime) : M unit :=
  _assert_tenant t;;
  _assert_not_archived;;
  _transition COMPLETED;;
  _mutate now;;
  _emit now (CampaignCompleted instance outcome).

Definition fail (t : TenantId) (instance : uuid) (reason : string) (now : datetime) : M unit :=
  _assert_tenant t;;
  _assert_not_archived;;
  _transition FAILED;;
  _mutate now;;
  _emit now (CampaignFailed instance reason).

Definition archive (t : TenantId) (now : datetime) : M unit :=
  _assert_tenant t;;
  c ← self;
  raise_if (bool_decide (state c = ARCHIVED)) (ArchivedImmutabilityViolation (campaign_id c));;
  _transition ARCHIVED;;
  _mutate now;;
  _emit now CampaignArchived.

Definition reset_objective_states : M unit :=
  modify (fun c => c <| objectives ::= map (fun o => o <| objective_state := ObjectiveState.PENDING |>) |>).

Definition fire_schedule (t : TenantId) (run_number : Z) (fire_time now : datetime) : M unit :=
  _assert_tenant t;;
  _assert_not_archived;;
  _assert_state [SCHEDULED; APPROVED] "fire_schedule";;
  c ← self;
  match campaign_schedule c with
  | None => raise (InvariantViolation (str_uuid (campaign_id c)) "Campaign has no RecurrencePolicy; cannot fire schedule")
  | Some policy =>
      _mutate now;;
      _emit now (CampaignScheduleFired (cron_expression policy) fire_time run_number)
  end.

Definition skip_scheduled_fire (t : TenantId) (reason : string) (fire_time : datetime) (skips : Z) (now : datetime)
    : M unit :=
  _assert_tenant t;;
  _mutate now;;
  _emit now (ScheduledFireSkipped reason fire_time skips).

Definition pause_recurring_due_to_failures (failures : Z) (now : datetime) : M unit :=
  c ← self;
  if decide (state c ∈ [COMPLETED; ARCHIVED]) then mret tt
  else
    let max_fail := match campaign_schedule c with Some p => max_consecutive_failures p | None => failures end in
    (if decide (state c ∉ [SCHEDULED; RUNNING; APPROVED]) then modify (fun c => c <| state := PAUSED |>)
     else _transition PAUSED);;
    _mutate now;;
    _emit now (RecurringCampaignPaused failures max_fail).

Definition resume_recurring (t : TenantId) (now : datetime) : M unit :=
  _assert_tenant t;;
  _assert_not_archived;;
  _assert_state [PAUSED] "resume_recurring";;
  _transition SCHEDULED;;
  _mutate now;;
  _emit now CampaignResumed.

(** ** Histories *)

(** The calls of a campaign, the service's assignment of a scheduler job among
    them. *)
Inductive call :=
  | CAddObjective (t : TenantId) (objective : CampaignObjective) (now : datetime)
  | CSetEngagementRef (t : TenantId) (ref : EngagementRef) (now : datetime)
  | CAddRule (t : TenantId) (rule : TargetSelectionRule) (now : datetime)
  | CSubmit (t : TenantId) (now : datetime)
  | CGrant (t : TenantId) (approver sig : string) (now : datetime) (scope : string) (aid : uuid)
  | CRevoke (t : TenantId) (approver by_ : string) (now : datetime)
  | CSchedule (t : TenantId) (cron : string) (hours : Z) (now : datetime) (max_fail : Z) (blackouts : list string)
  | CScheduleOneShot (t : TenantId) (fire_at now : datetime)
  | CCancelSchedule (t : TenantId) (now : datetime)
  | CStart (t : TenantId) (instance : uuid) (target_count : Z) (now : datetime)
  | CPause (t : TenantId) (reason : string) (now : datetime)
  | CResume (t : TenantId) (now : datetime)
  | CComplete (t : TenantId) (instance : uuid) (outcome : string) (now : datetime)
  | CFail (t : TenantId) (instance : uuid) (reason : string) (now : datetime)
  | CArchive (t : TenantId) (now : datetime)
  | CResetObjectives
  | CFire (t : TenantId) (run_number : Z) (fire_time now : datetime)
  | CSkip (t : TenantId) (reason : string) (fire_time : datetime) (skips : Z) (now : datetime)
  | CPauseFailures (failures : Z) (now : datetime)
  | CResumeRecurring (t : TenantId) (now : datetime)
  | CAssignJob (job : string)
  | CPopEvents.

(** [campaign.campaign_schedule.scheduler_job_id = job_id] *)
Definition assign_job (job : string) : M unit :=
  modify (fun c => c <| campaign_schedule ::= fmap (fun s => s <| scheduler_job_id := Some job |>) |>).

Definition run_call (c : call) : M unit :=
  match c with
  | CAddObjective t o now => add_objective t o now
  | CSetEngagementRef t r now => set_engagement_ref t r now
  | CAddRule t r now => add_target_selection_rule t r now
  | CSubmit t now => submit_for_approval t now
  | CGrant t a s now scope aid => grant_approval t a s now scope aid;; mret tt
  | CRevoke t a b now => revoke_approval t a b now
  | CSchedule t cr h now mf bl => schedule t cr h now mf bl
  | CScheduleOneShot t f now => schedule_one_shot t f now
  | CCancelSchedule t now => cancel_schedule t now
  | CStart t i n now => start_instance t i n now
  | CPause t r now => pause t r now
  | CResume t now => resume t now
  | CComplete t i o now => complete t i o now
  | CFail t i r now => fail t i r now
  | CArchive t now => archive t now
  | CResetObjectives => reset_objective_states
  | CFire t n f now => fire_schedule t n f now
  | CSkip t r f n now => skip_scheduled_fire t r f n now
  | CPauseFailures n now => pause_recurring_due_to_failures n now
  | CResumeRecurring t now => resume_recurring t now
  | CAssignJob j => assign_job j
  | CPopEvents => pop_events;; mret tt
  end.

(** [pause_recurring_due_to_failures] checks neither tenant nor approval; its
    callers call it on campaigns that have a schedule. *)
Definition call_ok (c : Campaign) (x : call) : Prop :=
  match x with CPauseFailures _ _ => campaign_schedule c ≠ None | _ => True end.

Inductive reachable : Campaign → Prop :=
  | created id t nm cl k owner safety policy ref now c :
      1 ≤ required_approver_count policy → create id t nm cl k owner safety policy ref now = Ok c → reachable c
  | called c x : reachable c → call_ok c x → reachable (run_call x c).2.

(** ** Invariant *)

Record governed (c : Campaign) : Prop := {
  gv_policy : 1 ≤ required_approver_count (approval_policy c);
  gv_version : 1 ≤ version c;
  gv_unscheduled : state c ∈ [DRAFT; PENDING_APPROVAL; APPROVED] → campaign_schedule c = None;
  gv_quorum : state c ∉ [DRAFT; PENDING_APPROVAL] → quorum_met c = true;
  gv_submitted : state c ≠ DRAFT → is_Some (engagement_ref c) ∧ target_selection_rules c ≠ [];
  gv_draft : state c = DRAFT → approvals c = [];
  gv_recurring : kind c = CampaignKind.RECURRING → state c = DRAFT;
  gv_approvers : NoDup (map approver_key (active_approvals c));
  gv_schedule : ∀ s, campaign_schedule c = Some s → cron_expression s ≠ "" ∧ 1 ≤ execution_window_hours s
}.

(** ** Lemmas *)

Ltac unfold_campaign :=
  unfold add_objective, set_engagement_ref, add_target_selection_rule, submit_for_approval, grant_approval,
    revoke_approval, schedule, schedule_one_shot, cancel_schedule, start_instance, pause, resume, complete, fail,
    archive, reset_objective_states, fire_schedule, skip_scheduled_fire, pause_recurring_due_to_failures,
    resume_recurring, assign_job, pop_events, _assert_tenant, _assert_not_archived, _assert_state, _transition,
    _mutate, _emit.

(** Decides what the guards say of the lifecycle state, state by state. *)
Ltac state_cases :=
  simpl in *;
  repeat match goal with
  | H : state ?c ∈ _ |- _ => revert H
  | H : state ?c ∉ _ |- _ => revert H
  | H : state ?c = _ |- _ => revert H
  | H : state ?c ≠ _ |- _ => revert H
  | H : _ ∈ _ALLOWED_TRANSITIONS (state ?c) |- _ => revert H
  | H : _ ∉ _ALLOWED_TRANSITIONS (state ?c) |- _ => revert H
  | H : decide _ = _ |- _ => clear H
  end;
  match goal with |- context [state ?c] => generalize (state c) end;
  intros []; by_compute.

(** Revoking keeps the other active approvals. *)
Lemma revoke_first_active approver now by_ l l' : revoke_first approver now by_ l = Some l' →
  sublist (map approver_key (filter active l')) (map approver_key (filter active l)).
Proof.
  revert l'. induction l as [|a l IH]; intros l'; [done|]. cbn [revoke_first].
  destruct (negb (revoked a) && bool_decide (approver_id (record a) = approver)) eqn:Hb.
  - intros [= <-]. rewrite filter_cons_False by done. apply andb_prop in Hb as [Ha _]. apply negb_true_iff in Ha.
    rewrite filter_cons_True by done. by apply sublist_cons.
  - destruct (revoke_first approver now by_ l) as [l2|] eqn:Hr; [|done]. intros [= <-]. specialize (IH _ eq_refl).
    rewrite !filter_cons. destruct (decide (active a)); simpl; [by apply sublist_skip|done].
Qed.

Section Invariant.
Implicit Types (c : Campaign).

(** Runs a method from a governed campaign and discharges what only depends on
    the guards. *)
Ltac governed_at Hg :=
  unfold_campaign; wp_run; try done; stable;
  destruct Hg as [Hpo Hve Hun Hqu Hsu Hdr Hre Hap Hsc]; split; simpl; try done; try lia;
  try first
    [ intros Hin; exfalso; clear -Hin; revert Hin; by_compute
    | intros _; first [apply Hun|apply Hqu|apply Hsu|apply Hdr]; state_cases
    | intros _; exfalso; state_cases
    | intros Hne; destruct (Hsu Hne); by split
    | intros Hk; exfalso; specialize (Hre Hk); state_cases ].
Ltac governed_run := let c := fresh "c" in let Hg := fresh "Hg" in intros c Hg; governed_at Hg.

Lemma add_objective_keeps t o now : keeps governed (add_objective t o now).
Proof. governed_run. Qed.

Lemma set_engagement_keeps t r now : keeps governed (set_engagement_ref t r now).
Proof. governed_run. Qed.

Lemma add_rule_keeps t r now : keeps governed (add_target_selection_rule t r now).
Proof. governed_run. intros Hne. destruct (Hsu Hne). split; [done|]. by destruct (target_selection_rules c). Qed.

Lemma ca_submit_keeps t now : keeps governed (submit_for_approval t now).
Proof.
  governed_run.
  all: match goal with H : _ ∈ _ALLOWED_TRANSITIONS _ |- _ => assert (state c = DRAFT) as Hd by (clear -H; simpl in H; state_cases) end.
  all: assert (campaign_schedule c = None) as Hno by (apply Hun; rewrite Hd; by_compute).
  - intros _. split; [by destruct (engagement_ref c)|]. by destruct (target_selection_rules c).
  - intros Hk. rewrite Hno in *. rewrite bool_decide_eq_true_2 in * by done. done.
Qed.

Lemma active_snoc (l : list CampaignApproval) a : active a → filter active (l ++ [a]) = filter active l ++ [a].
Proof. intros Ha. rewrite filter_app. by rewrite (filter_cons_True _ a). Qed.

Lemma grant_keeps t a s now scope aid : keeps governed (grant_approval t a s now scope aid).
Proof.
  intros c Hg. unfold_campaign. wp_run; try done; stable. all: unfold quorum_met, active_approvals in *; simpl in *.
  all: assert (state c = PENDING_APPROVAL) as Hst by state_cases.
  { exfalso. match goal with H : APPROVED ∉ _ |- _ => apply H end. rewrite Hst. by_compute. }
  all: destruct Hg as [Hpo Hve Hun Hqu Hsu Hdr Hre Hap Hsc]; rewrite Hst in *; unfold active_approvals in Hap.
  all: split; unfold quorum_met, active_approvals; simpl; try done; try lia.
  all: try (rewrite active_snoc by done; rewrite map_app; apply NoDup_app; split_and!;
    [done| |apply NoDup_singleton]; by intros x Hx ->%list_elem_of_singleton).
  all: rewrite ?Hst; try (intros _; apply Hun; by_compute); try (intros _; by apply Hsu);
    try (intros Hk; by specialize (Hre Hk)); try (intros Hn; exfalso; revert Hn; by_compute).
Qed.

Lemma revoke_keeps t a b now : keeps governed (revoke_approval t a b now).
Proof.
  intros c Hg. unfold_campaign. wp_run; try done; stable. all: unfold quorum_met, active_approvals in *; simpl in *.
  all: match goal with H : revoke_first _ _ _ _ = Some _ |- _ => apply revoke_first_active in H end.
  all: destruct Hg as [Hpo Hve Hun Hqu Hsu Hdr Hre Hap Hsc]; unfold active_approvals in Hap.
  all: split; unfold quorum_met, active_approvals; simpl; try done; try lia.
  all: try (by eapply sublist_NoDup).
  all: try (intros _; first [apply Hun|apply Hsu]; state_cases).
  all: try (intros Hk; specialize (Hre Hk); exfalso; state_cases).
  all: try (intros Hd; exfalso; state_cases).
  - intros Hin; exfalso; revert Hin; by_compute.
  - intros Hin. assert (state c = APPROVED) as Hst by state_cases.
    rewrite (bool_decide_eq_true_2 (state c = APPROVED)) in * by done. simpl in *. by guards.
Qed.

Lemma schedule_keeps t cr h now mf bl : keeps governed (schedule t cr h now mf bl).
Proof.
  governed_run. all: intros s' [= <-]; simpl; split; [|lia]. all: match goal with H : blank _ = false |- _ => revert H end.
  all: unfold blank; by intros ?%bool_decide_eq_false.
Qed.

Lemma one_shot_keeps t f now : keeps governed (schedule_one_shot t f now).
Proof. governed_run. all: intros s' [= <-]; split; [done|simpl; lia]. Qed.

Lemma pause_failures_keeps n now c : governed c → campaign_schedule c ≠ None →
  wp (pause_recurring_due_to_failures n now) (λ _, governed) (λ _, governed) c.
Proof.
  intros Hg Hs. governed_at Hg.
  all: assert (state c ∉ [DRAFT; PENDING_APPROVAL; APPROVED]) as Hn by (intros Hi; by apply Hs, Hun).
  - intros _. apply Hqu. state_cases.
  - intros _. apply Hsu. state_cases.
  - intros Hk. specialize (Hre Hk). exfalso. state_cases.
Qed.

#[local] Hint Resolve keeps_then_unit add_objective_keeps set_engagement_keeps add_rule_keeps ca_submit_keeps grant_keeps
  revoke_keeps schedule_keeps one_shot_keeps : py.

Lemma campaign_call_keeps x c : governed c → call_ok c x → wp (run_call x) (λ _, governed) (λ _, governed) c.
Proof.
  intros Hg Hok. destruct x; simpl in *; try (revert c Hg Hok; by apply pause_failures_keeps).
  all: match goal with |- wp ?m _ _ _ => enough (keeps governed m) by auto end; auto with py.
  all: governed_run.
  - intros Hs. by rewrite (Hun Hs).
  - intros s. destruct (campaign_schedule c0) as [s0|]; [|done]. intros [= <-]. by apply (Hsc s0).
Qed.

Lemma ca_create_governed id t nm cl k owner safety policy ref now c : 1 ≤ required_approver_count policy →
  create id t nm cl k owner safety policy ref now = Ok c → governed c.
Proof.
  intros Hp. unfold create. do 2 (case_match; [done|]). intros [= <-]. split; simpl; try done; try by_compute.
Qed.

Lemma ca_reachable_governed c : reachable c → governed c.
Proof.
  induction 1 as [|c x Hc IH Hok]; [by eapply ca_create_governed|].
  pose proof (campaign_call_keeps x c IH Hok) as Hwp. unfold wp in Hwp. by destruct (run_call x c) as [[] ?].
Qed.
End Invariant.

(** *** The lifecycle *)

(** How one call moves a campaign: along the table, back to the approvers when a
    revocation breaks the quorum, or to a pause after failures. *)
Definition lifecycle (c c' : Campaign) : Prop :=
  state c' = state c ∨ state c' ∈ _ALLOWED_TRANSITIONS (state c) ∨
  (state c = APPROVED ∧ state c' = PENDING_APPROVAL) ∨
  (state c' = PAUSED ∧ state c ∉ [SCHEDULED; RUNNING; APPROVED; COMPLETED; ARCHIVED]).

Lemma campaign_call_lifecycle x : follows run_call lifecycle x.
Proof.
  intros c. destruct x; simpl; unfold_campaign; wp_run; stable; unfold lifecycle; simpl; try by left.
  all: try (right; left; by_compute || assumption).
  - right; right; left. done.
  - right; right; right. split; [done|]. match goal with H : decide _ = _ |- _ => clear H end. state_cases.
Qed.

(** *** Sealed objectives *)

(** What is fixed of an objective. *)
Definition objective_content (o : CampaignObjective) :=
  (objective_id o, objective_type o, objective_description o, evaluation_criteria o, sealed o).

(** The objectives of a campaign are sealed. *)
Definition sealed_up (l : list CampaignObjective) : Prop := l ≠ [] ∧ ∀ o, o ∈ l → sealed o = true.

Definition keeps_objectives (c c' : Campaign) : Prop :=
  sealed_up (objectives c) → map objective_content (objectives c') = map objective_content (objectives c).

Lemma sealed_up_content l l' : map objective_content l' = map objective_content l → sealed_up l → sealed_up l'.
Proof.
  intros Heq [Hne Hall]. split; [by intros ->; destruct l|]. intros o Ho.
  assert (objective_content o ∈ map objective_content l) as (o' & Hc & Ho')%list_elem_of_fmap.
  { rewrite <- Heq. by apply list_elem_of_fmap_2. }
  apply Hall in Ho'. unfold objective_content in Hc. injection Hc. congruence.
Qed.

#[export] Instance keeps_objectives_preorder : PreOrder keeps_objectives.
Proof.
  split; [by intros c _|]. intros c1 c2 c3 H12 H23 Hs. rewrite <- (H12 Hs). apply H23.
  by eapply sealed_up_content, Hs; apply H12.
Qed.

Lemma seal_sealed l : sealed_up l → map objective_content (map seal l) = map objective_content l.
Proof.
  intros [_ Hall]. rewrite map_map. apply map_ext_in. intros o Ho%list_elem_of_In. specialize (Hall o Ho).
  destruct o. simpl in *. by subst.
Qed.

Lemma find_sealed l : sealed_up l → is_Some (find sealed l).
Proof. intros [Hne Hall]. destruct l as [|o l]; [done|]. simpl. rewrite (Hall o); [done|left]. Qed.

Lemma call_keeps_objectives x : follows run_call keeps_objectives x.
Proof.
  intros c. destruct x; simpl; unfold_campaign; wp_run; stable; intros Hs; simpl; try done; try by rewrite seal_sealed.
  - destruct (find_sealed _ Hs). congruence.
  - rewrite map_map. apply map_ext. by intros [].
Qed.

(** *** Examples *)

Lemma reachable_run cs c : reachable c → Forall (λ x, ∀ c, call_ok c x) cs → reachable (run_all run_call cs c).
Proof.
  intros Hc Hcs. revert c Hc. induction Hcs as [|x cs Hx Hcs IH]; intros c Hc; simpl; [done|].
  apply IH. apply called; [done|apply Hx].
Qed.

Definition acme : TenantId := mkEntityId 1.
Definition draft_campaign (k : CampaignKind.t) (approvers : Z) : Campaign :=
  snd (_emit 0 (CampaignCreated "RedVsBlue" (CampaignKind.value k) "lead")
    (mkCampaign 9 acme "drill" CampaignClassification.RED_VS_BLUE k "lead" DRAFT (mkSafetyPolicy 10 false false "Probe")
       (mkApprovalPolicy approvers [] "Unanimous") (Some (mkEngagementRef 5 acme)) [] [] [] None 0 0 1 [])).

Lemma draft_reachable k n : 1 ≤ n → reachable (draft_campaign k n).
Proof.
  intros Hn. by apply (created 9 acme " drill" CampaignClassification.RED_VS_BLUE k "lead" (mkSafetyPolicy 10 false false "Probe")
    (mkApprovalPolicy n [] "Unanimous") (Some (mkEngagementRef 5 acme)) 0).
Qed.

Definition objective (id : uuid) : CampaignObjective :=
  mkObjective id ObjectiveType.DATA_ACCESSED "read the ledger" (mkCriteria "file" []) ObjectiveState.PENDING false.
Definition web_rule : TargetSelectionRule := mkRule "tag" "eq" "web".

(** What a lead calls to have a campaign approved. *)
Definition approval_calls : list call :=
  [CAddObjective acme (objective 31) 1; CAddRule acme web_rule 2; CSubmit acme 3; CGrant acme "ann" "sig" 4 "campaign" 41].

Definition approved_campaign : Campaign := run_all run_call approval_calls (draft_campaign CampaignKind.ONE_SHOT 1).

Lemma approved_reachable : reachable approved_campaign.
Proof. apply reachable_run; [by apply draft_reachable|]. by repeat constructor. Qed.

(** ** Properties *)

(** A campaign never leaves its rules, whatever is called on it in whatever
    order: past approval it has its quorum of active approvals, each by another
    approver or for another scope, an engagement and target rules; a draft has no
    approval; before it is scheduled it has no schedule, and a schedule has a
    positive window. *)
Theorem campaigns_stay_governed c : reachable c → governed c.
Proof. apply ca_reachable_governed. Qed.

Lemma campaigns_stay_governed_witness : state approved_campaign = APPROVED ∧ quorum_met approved_campaign = true ∧
  is_Some (engagement_ref approved_campaign).
Proof.
  destruct (campaigns_stay_governed approved_campaign approved_reachable) as [_ _ _ Hq Hs _ _ _ _].
  split; [reflexivity|]. split; [apply Hq; by_compute|]. apply Hs. by_compute.
Defined.

(** Objectives are fixed once they are sealed: from a campaign all of whose
    objectives are sealed, no sequence of calls adds, removes, rewrites or unseals
    an objective, also when calls raise. *)
Theorem sealed_objectives_are_fixed c cs : sealed_up (objectives c) →
  map objective_content (objectives (run_all run_call cs c)) = map objective_content (objectives c).
Proof. apply (run_all_follows run_call keeps_objectives cs c call_keeps_objectives). Qed.

Lemma sealed_objectives_are_fixed_witness :
  map objective_content (objectives (run_all run_call [CRevoke acme "ann" "bob" 5; CAddObjective acme (objective 32) 6;
    CResetObjectives] approved_campaign)) = map objective_content (objectives approved_campaign).
Proof.
  apply (sealed_objectives_are_fixed approved_campaign). split; [by_compute|].
  intros o. vm_compute. intros ->%list_elem_of_singleton. reflexivity.
Defined.

(** A campaign that was submitted without objectives has them open: one can be
    added while the approvers decide, and the campaign is then approved with an
    objective that is not sealed. *)
Theorem objectives_escape_the_seal : ∃ c, reachable c ∧ state c = APPROVED ∧ ∃ o, o ∈ objectives c ∧ sealed o = false.
Proof.
  exists (run_all run_call [CAddRule acme web_rule 2; CSubmit acme 3; CAddObjective acme (objective 31) 3;
    CGrant acme "ann" "sig" 4 "campaign" 41] (draft_campaign CampaignKind.ONE_SHOT 1)).
  split; [apply reachable_run; [by apply draft_reachable|by repeat constructor]|]. split; [reflexivity|].
  exists (objective 31). split; [vm_compute; left|done].
Qed.

(** No recurring campaign is ever approved: submission asks for a schedule and
    a schedule can only be set after approval, so whatever is called on it, it is
    a draft whose submission and whose scheduling raise. *)
Theorem recurring_campaign_stays_draft c t now cron hours max_fail blackouts :
  reachable c → kind c = CampaignKind.RECURRING →
  state c = DRAFT ∧ is_ok (submit_for_approval t now c).1 = false ∧
  is_ok (schedule t cron hours now max_fail blackouts c).1 = false.
Proof.
  intros Hr Hk. destruct (ca_reachable_governed c Hr) as [_ _ Hun _ _ _ Hre _ _]. specialize (Hre Hk).
  assert (campaign_schedule c = None) as Hno by (apply Hun; rewrite Hre; by_compute).
  assert (∀ A (m : M A), wp m (λ _ _, False) (λ _ _, True) c → is_ok (m c).1 = false) as Hfail.
  { intros A m. unfold wp. by destruct (m c) as [[] ?]. }
  split_and!; [done| |]; apply Hfail; unfold_campaign; wp_run; stable; try done.
  - rewrite Hno in *. rewrite (bool_decide_eq_true_2 (kind c = CampaignKind.RECURRING)) in * by done. done.
  - state_cases.
Qed.

Lemma recurring_campaign_stays_draft_witness :
  let c := run_all run_call approval_calls (draft_campaign CampaignKind.RECURRING 1) in
  state c = DRAFT ∧ is_ok (submit_for_approval acme 5 c).1 = false ∧
  is_ok (schedule acme "0 2 * * *" 4 5 3 [] c).1 = false.
Proof.
  apply recurring_campaign_stays_draft; [|reflexivity].
  apply reachable_run; [by apply draft_reachable|by repeat constructor].
Defined.

(** Every call moves a campaign along the table of transitions, except for a
    revocation that breaks the quorum, which asks the approvers again, and a pause
    after failures, which also pauses drafts, submitted and failed campaigns. *)
Theorem campaign_follows_lifecycle c x : lifecycle c (run_call x c).2.
Proof. pose proof (campaign_call_lifecycle x c) as H. unfold wp in H. by destruct (run_call x c) as [[] ?]. Qed.

(** Failing is not final: a failed one-shot campaign that still has its
    schedule is paused by the failure check and can then be resumed or scheduled
    again, although the table lets a failed campaign only be archived. *)
Theorem failed_campaign_runs_again : ∃ c, reachable c ∧ state c = FAILED ∧ campaign_schedule c ≠ None ∧
  state (run_all run_call [CPauseFailures 1 8; CResumeRecurring acme 9; CStart acme 72 1 10] c) = RUNNING.
Proof.
  exists (run_all run_call [CScheduleOneShot acme 100 5; CStart acme 71 1 6; CFail acme 71 "lost" 7] approved_campaign).
  split; [apply reachable_run; [apply approved_reachable|by repeat constructor]|].
  split_and!; [reflexivity|by_compute|reflexivity].
Qed.

(** The quorum counts approvals and not approvers, and approvals outlive what
    was approved: with a quorum of two, one approver approves under two scopes, and
    between the two approvals the engagement and the target rules are replaced. *)
Theorem one_approver_fills_the_quorum : ∃ c, reachable c ∧ state c = APPROVED ∧
  required_approver_count (approval_policy c) = 2 ∧ (∀ a, a ∈ active_approvals c → approver_id (record a) = "ann") ∧
  ∃ a, a ∈ active_approvals c ∧ timestamp (record a) = 4 ∧
    engagement_ref c ≠ engagement_ref (run_all run_call approval_calls (draft_campaign CampaignKind.ONE_SHOT 2)) ∧
    target_selection_rules c ≠ target_selection_rules (run_all run_call approval_calls (draft_campaign CampaignKind.ONE_SHOT 2)).
Proof.
  exists (run_all run_call (approval_calls ++ [CSetEngagementRef acme (mkEngagementRef 6 acme) 5;
    CAddRule acme (mkRule "tag" "eq" "payroll") 6; CGrant acme "ann" "sig" 7 "rules" 42]) (draft_campaign CampaignKind.ONE_SHOT 2)).
  split; [apply reachable_run; [by apply draft_reachable|by repeat constructor]|].
  split_and!; [reflexivity|reflexivity| |].
  - intros a. vm_compute. by intros [->|[->|[]%not_elem_of_nil]%elem_of_cons]%elem_of_cons.
  - exists (mkApproval 41 (mkApprovalRecord "ann" 4 "sig" "campaign") false None None).
    split_and!; [vm_compute; left|reflexivity|by vm_compute|by vm_compute].
Qed.
