(* ===== verification/CampaignInstance.v ===== *)
(** The aggregate [campaign.domain.aggregates.campaign_instance.CampaignInstance]:
    one run of a campaign against the targets resolved when it starts. *)
From stdpp Require Import base tactics list strings relations.
From Stdlib Require Import ZArith Lia.
From S2P Require Import Prelude PyTypes CampaignRootData.

Local Open Scope Z_scope.

Record CampaignInstance := mkInstance {
  instance_id : uuid;
  ci_campaign_id : uuid;
  ci_tenant_id : TenantId;
  run_number : Z;
  ci_state : InstanceState.t;
  resolved_targets : list TargetRef;
  started_at : datetime;
  completed_at : option datetime;
  failure_reason : option string;
  ci_version : Z;
  ci_pending_events : list (DomainEvent InstanceEvent)
}.
#[export] Instance CampaignInstance_settable : Settable CampaignInstance := fun i =>
  mkInstance (instance_id i) (ci_campaign_id i) (ci_tenant_id i) (run_number i) (ci_state i) (resolved_targets i)
    (started_at i) (completed_at i) (failure_reason i) (ci_version i) (ci_pending_events i).

(** The methods, in a name space of their own. *)
Module CI.

Import InstanceState.

Definition _ALLOWED_TRANSITIONS (s : InstanceState.t) : list InstanceState.t :=
  match s with
  | STARTING => [RUNNING; FAILED]
  | RUNNING => [PAUSED; COMPLETED; FAILED; ABORTED]
  | PAUSED => [RUNNING; ABORTED]
  | COMPLETED | FAILED | ABORTED => []
  end.

Abbreviation M := (PyM CampaignInstance CampaignDomainException).

Definition _emit (now : datetime) (e : InstanceEvent) : M unit :=
  modify (fun i => i <| ci_pending_events ::= fun l => l ++ [mkEvent now (ci_tenant_id i) (instance_id i) e] |>).

Definition pop_events : M (list (DomainEvent InstanceEvent)) :=
  i ← self;
  modify (fun i => i <| ci_pending_events := [] |>);;
  mret (ci_pending_events i).

Definition _assert_tenant (t : TenantId) : M unit :=
  i ← self;
  raise_if (bool_decide (t ≠ ci_tenant_id i)) (TenantMismatch (ci_tenant_id i) t).

Definition _mutate : M unit := modify (fun i => i <| ci_version ::= Z.add 1 |>).

Definition _transition (to_state : InstanceState.t) : M unit :=
  i ← self;
  raise_if (bool_decide (to_state ∉ _ALLOWED_TRANSITIONS (ci_state i)))
    (InvalidStateTransition (value (ci_state i)) (value to_state) (instance_id i));;
  modify (fun i => i <| ci_state := to_state |>).

(** [start]: the instance is running at once. *)
Definition start (id campaign : uuid) (t : TenantId) (number : Z) (targets : SelectedTargetSet) (now : datetime)
    : CampaignInstance :=
  snd (_emit now (CampaignInstanceStarted id number)
         (mkInstance id campaign t number RUNNING targets now None None 1 [])).

Definition complete (t : TenantId) (now : datetime) : M unit :=
  _assert_tenant t;;
  _transition COMPLETED;;
  modify (fun i => i <| completed_at := Some now |>);;
  _mutate;;
  i ← self;
  _emit now (CampaignInstanceCompleted (instance_id i) (run_number i)).

Definition fail (t : TenantId) (reason : string) (now : datetime) : M unit :=
  _assert_tenant t;;
  _transition FAILED;;
  modify (fun i => i <| completed_at := Some now |> <| failure_reason := Some reason |>);;
  _mutate;;
  i ← self;
  _emit now (CampaignInstanceFailed (instance_id i) (run_number i) reason).

Definition abort (t : TenantId) (reason : string) (now : datetime) : M unit :=
  _assert_tenant t;;
  _transition ABORTED;;
  modify (fun i => i <| completed_at := Some now |> <| failure_reason := Some reason |>);;
  _mutate;;
  i ← self;
  _emit now (CampaignInstanceAborted (instance_id i) (run_number i) reason).

Inductive call :=
  | CComplete (t : TenantId) (now : datetime)
  | CFail (t : TenantId) (reason : string) (now : datetime)
  | CAbort (t : TenantId) (reason : string) (now : datetime)
  | CPopEvents.

Definition run_call (c : call) : M unit :=
  match c with
  | CComplete t now => complete t now
  | CFail t r now => fail t r now
  | CAbort t r now => abort t r now
  | CPopEvents => pop_events;; mret tt
  end.

(** ** What a run keeps *)

(** What is fixed when it starts. *)
Definition fixed (i : CampaignInstance) :=
  (instance_id i, ci_campaign_id i, ci_tenant_id i, run_number i, resolved_targets i, started_at i).

(** What it ended with. *)
Definition outcome (i : CampaignInstance) := (ci_state i, completed_at i, failure_reason i, ci_version i).

Definition ended (s : InstanceState.t) : Prop := s ∈ [COMPLETED; FAILED; ABORTED].

(** A run that is not over is running, and it is over exactly when it has an end. *)
Record sound (i : CampaignInstance) : Prop := {
  so_state : ci_state i = RUNNING ∨ ended (ci_state i);
  so_end : ended (ci_state i) ↔ is_Some (completed_at i);
  so_reason : is_Some (failure_reason i) ↔ ci_state i ∈ [FAILED; ABORTED];
  so_version : 1 ≤ ci_version i
}.

(** One call: what was fixed stays, and so does an outcome. *)
Definition follows_run (i i' : CampaignInstance) : Prop :=
  fixed i' = fixed i ∧ (sound i → sound i') ∧ (ended (ci_state i) → outcome i' = outcome i).

#[export] Instance follows_run_preorder : PreOrder follows_run.
Proof.
  split; [done|]. intros i1 i2 i3 (Hf & Hs & Ho) (Hf' & Hs' & Ho'). unfold follows_run. split_and!; [congruence|auto|].
  intros He. rewrite <- (Ho He). apply Ho'. specialize (Ho He). unfold outcome in Ho. injection Ho. congruence.
Qed.

(** What the guard of a transition says of the state. *)
Ltac instance_cases :=
  repeat match goal with H : context [ci_state ?i] |- _ => revert H end;
  match goal with |- context [ci_state ?i] => generalize (ci_state i) end; intros []; by_compute.

Lemma call_follows_run c : follows run_call follows_run c.
Proof.
  intros i. destruct c; simpl; unfold complete, fail, abort, pop_events, _assert_tenant, _transition, _mutate, _emit;
    wp_run; stable; try reflexivity; split_and!; try done.
  all: try (intros He; exfalso; unfold ended in He; instance_cases).
  all: try (intros [Hst Hend Hrs Hv]; split; simpl; [right; unfold ended; by_compute| | |lia];
    split; intros Hx; try done; try (unfold ended; by_compute)).
  - exfalso. apply Hrs in Hx. clear Hst Hend Hrs. instance_cases.
  - exfalso. revert Hx. by_compute.
  - by intros [].
Qed.

Lemma start_sound id campaign t number targets now : sound (start id campaign t number targets now).
Proof.
  split; simpl; [by left| |..|lia]; split; try (by intros []); intros Hs; exfalso; revert Hs; unfold ended; by_compute.
Qed.

(** A run is a snapshot: through any calls it keeps its campaign, its number and
    the targets it was started with; it is running until it ends, it has an end
    time exactly when it has ended and a reason exactly when it failed or was
    aborted, and after that no call changes state, end, reason or version. *)
Theorem instance_is_a_snapshot id campaign t number targets now cs cs' :
  let i := run_all run_call cs (start id campaign t number targets now) in
  fixed i = (id, campaign, t, number, targets, now) ∧ sound i ∧
  (ended (ci_state i) → outcome (run_all run_call cs' i) = outcome i).
Proof.
  intros i. destruct (run_all_follows run_call follows_run cs (start id campaign t number targets now) call_follows_run)
    as (Hf & Hs & _). fold i in Hf, Hs. split_and!; [done|apply Hs, start_sound|].
  apply (run_all_follows run_call follows_run cs' i call_follows_run).
Qed.
End CI.
