(* ===== verification/Recurrence.v ===== *)
(** [campaign.domain.services.recurrence_scheduler]: blackout periods, overlap and
    the check of consecutive failures. *)
From stdpp Require Import base tactics list strings.
From Stdlib Require Import ZArith Lia Ascii.
From S2P Require Import Prelude PyTypes PyParse PyJson JsonText IsoText CampaignRootData CampaignRoot CampaignInstance.

Local Open Scope Z_scope.

Definition _MAX_SKIP_COUNT : Z := 3.

(** ** Clocks *)

(** The minute of the day and the day of the week (0 is Monday) of a moment. *)
Definition minute_of_day (t : datetime) : Z := t / 60000000 mod 1440.
Definition weekday (t : datetime) : Z := (t / 86400000000 + 3) mod 7.

(** ** Blackout periods *)

(** The branch of [HH:MM-HH:MM]; a [ValueError] is [None]. *)
Definition daily_window (period : string) (t : datetime) : option bool :=
  '(start_str, end_str) ← split_once "-" period;
  start_h ← int_text (take_str 2 start_str);
  start_m ← int_text (drop_str 3 start_str);
  end_h ← int_text (take_str 2 end_str);
  end_m ← int_text (drop_str 3 end_str);
  let fire_minutes := minute_of_day t in
  let start_minutes := start_h * 60 + start_m in
  let end_minutes := end_h * 60 + end_m in
  Some (if start_minutes <=? end_minutes
        then (start_minutes <=? fire_minutes) && (fire_minutes <? end_minutes)
        else (start_minutes <=? fire_minutes) || (fire_minutes <? end_minutes)).

(** The branch of two moments with a slash between them. *)
Definition iso_interval (period : string) (t : datetime) : option bool :=
  '(start_str, end_str) ← split_once "/" period;
  start_dt ← wall_clock start_str;
  end_dt ← wall_clock end_str;
  Some ((start_dt <=? t) && (t <=? end_dt)).

(** The branch of [weekday:d,d,...]. *)
Definition weekdays (days_str : string) (t : datetime) : option bool :=
  days ← mapM (fun d => int_text (strip d)) (split_all "," days_str);
  Some (bool_decide (weekday t ∈ days)).

(** [c in s] and [s[i] == c] *)
Definition has_char (c : ascii) (s : string) : bool := match split_once c s with Some _ => true | None => false end.
Definition char_at (i : nat) (c : ascii) (s : string) : bool :=
  match String.get i s with Some c' => Ascii.eqb c' c | None => false end.

Definition _matches_blackout_period (period : string) (t : datetime) : bool :=
  let period := strip period in
  if bool_decide (String.length period = 11%nat) && char_at 2 ":" period && char_at 5 "-" period
  then default false (daily_window period t)
  else if has_char "/" period && has_char "T" period then default false (iso_interval period t)
  else match after_prefix "weekday:" period with
       | Some days_str => default false (weekdays days_str t)
       | None => false
       end.

Definition is_in_blackout (policy : RecurrencePolicy) (fire_time : datetime) : bool :=
  existsb (fun period => _matches_blackout_period period fire_time) (rp_blackout_periods policy).

(** ** Runs *)

Definition running_states : list InstanceState.t := [InstanceState.STARTING; InstanceState.RUNNING; InstanceState.PAUSED].

Definition should_skip_due_to_running_instance (running_instances : list CampaignInstance) : bool :=
  existsb (fun i => bool_decide (ci_state i ∈ running_states)) running_instances.

(** [l[-n:]] *)
Definition last_slice {A} (n : Z) (l : list A) : list A :=
  if 0 <? n then drop (length l - Z.to_nat n)%nat l else drop (Z.to_nat (- n)) l.

(** [check_consecutive_failures]: it may pause the campaign it is given. *)
Definition check_consecutive_failures (recent : list CampaignInstance) (now : datetime)
    : PyM Campaign CampaignDomainException bool :=
  c ← self;
  match campaign_schedule c with
  | None => mret false
  | Some policy =>
      let max_fail := max_consecutive_failures policy in
      if bool_decide (length recent = 0%nat) then mret false
      else
        let last_n := last_slice max_fail recent in
        if Z.of_nat (length last_n) <? max_fail then mret false
        else if forallb (fun i => bool_decide (ci_state i ∈ [InstanceState.FAILED; InstanceState.ABORTED])) last_n
        then pause_recurring_due_to_failures max_fail now;; mret true
        else mret false
  end.

(** ** What a period covers *)

(** A period as it is meant: a daily window from one minute to another, which may
    pass midnight, an interval of whole minutes, or days of the week. *)
Inductive Period :=
  | Daily (start_h start_m end_h end_m : Z)
  | Interval (start_minute end_minute : Z)
  | Weekdays (days : list Z).

Definition period_text (p : Period) : string :=
  match p with
  | Daily h m h' m' => dec 2 h +:+ ":" +:+ dec 2 m +:+ "-" +:+ dec 2 h' +:+ ":" +:+ dec 2 m'
  | Interval a b => iso_minute a +:+ "/" +:+ iso_minute b
  | Weekdays days => "weekday:" +:+ join "," (map (dec 1) days)
  end.

Definition period_ok (p : Period) : Prop :=
  match p with
  | Daily h m h' m' => 0 <= h < 24 ∧ 0 <= m < 60 ∧ 0 <= h' < 24 ∧ 0 <= m' < 60
  | Interval a b => datetime_ok (a * 60000000) ∧ datetime_ok (b * 60000000)
  | Weekdays days => days ≠ [] ∧ ∀ d, d ∈ days → 0 <= d < 7
  end.

(** Minutes after midnight on which a daily window is open: those that come after
    its start and before its end, going round the clock. *)
Definition covers (p : Period) (t : datetime) : Prop :=
  match p with
  | Daily h m h' m' =>
      let start := h * 60 + m in
      (minute_of_day t - start) mod 1440 < (h' * 60 + m' - start) mod 1440
  | Interval a b => a * 60000000 <= t <= b * 60000000
  | Weekdays days => weekday t ∈ days
  end.

(** ** Lemmas *)

Lemma minute_bounds t : 0 <= minute_of_day t < 1440.
Proof. unfold minute_of_day. by apply Z.mod_pos_bound. Qed.

(** A window as the code compares it and as a clock goes round. *)
Lemma window_arith f s e : 0 <= f < 1440 → 0 <= s < 1440 → 0 <= e < 1440 →
  (if s <=? e then (s <=? f) && (f <? e) else (s <=? f) || (f <? e)) = true ↔ (f - s) mod 1440 < (e - s) mod 1440.
Proof.
  intros Hf Hs He.
  assert (∀ x, -1440 < x < 1440 → x mod 1440 = if decide (0 <= x) then x else x + 1440) as Hmod.
  { intros x Hx. case_decide; [by rewrite Z.mod_small by lia|].
    rewrite <- (Z.mod_add x 1 1440) by lia. by rewrite Z.mod_small by lia. }
  rewrite !Hmod by lia. destruct (Z.leb_spec s e), (Z.leb_spec s f), (Z.ltb_spec f e); simpl; repeat case_decide; lia.
Qed.

Lemma daily_spec h m h' m' t : period_ok (Daily h m h' m') →
  _matches_blackout_period (period_text (Daily h m h' m')) t = true ↔ covers (Daily h m h' m') t.
Proof.
  intros (Hh & Hm & Hh' & Hm'). unfold _matches_blackout_period.
  assert (strip (period_text (Daily h m h' m')) = period_text (Daily h m h' m')) as ->.
  { apply strip_plain. cbn [period_text]. repeat (apply string_all_app; [first [by split|apply dec_all; by_compute]|]).
    apply dec_all; by_compute. }
  match goal with |- context [if ?b then _ else _] => replace b with true by done end. cbv iota.
  assert (daily_window (period_text (Daily h m h' m')) t = Some (if h * 60 + m <=? h' * 60 + m'
    then (h * 60 + m <=? minute_of_day t) && (minute_of_day t <? h' * 60 + m')
    else (h * 60 + m <=? minute_of_day t) || (minute_of_day t <? h' * 60 + m'))) as ->.
  { unfold daily_window. cbn [period_text].
    replace (dec 2 h +:+ ":" +:+ dec 2 m +:+ "-" +:+ dec 2 h' +:+ ":" +:+ dec 2 m')
      with ((dec 2 h +:+ ":" +:+ dec 2 m) +:+ String "-" (dec 2 h' +:+ ":" +:+ dec 2 m')) by done.
    rewrite split_once_app. 2:{ apply string_all_app; [apply dec_all; by_compute|]. apply string_all_app; [by split|apply dec_all; by_compute]. }
    cbn [mbind option_bind].
    replace (take_str 2 (dec 2 h +:+ ":" +:+ dec 2 m)) with (dec 2 h) by done.
    replace (drop_str 3 (dec 2 h +:+ ":" +:+ dec 2 m)) with (dec 2 m) by done.
    replace (take_str 2 (dec 2 h' +:+ ":" +:+ dec 2 m')) with (dec 2 h') by done.
    replace (drop_str 3 (dec 2 h' +:+ ":" +:+ dec 2 m')) with (dec 2 m') by done.
    rewrite !int_text_dec2 by lia. done. }
  cbn [default from_option]. apply window_arith; [apply minute_bounds|lia|lia].
Qed.

Lemma interval_spec a b t : period_ok (Interval a b) →
  _matches_blackout_period (period_text (Interval a b)) t = true ↔ covers (Interval a b) t.
Proof.
  intros (Ha & Hb). unfold _matches_blackout_period.
  assert (∀ P, Forall P all_digits → P "-"%char → P ":"%char → P "T"%char → ∀ n, string_all P (iso_minute n)) as Hall.
  { intros P HP Hd Hc HT n. unfold iso_minute. destruct (civil_of_days _) as [[y m] d].
    repeat (apply string_all_app; [first [by split|by apply dec_all]|]). by apply dec_all. }
  assert (strip (period_text (Interval a b)) = period_text (Interval a b)) as ->.
  { apply strip_plain. cbn [period_text]. apply string_all_app; [apply Hall; by_compute|].
    apply string_all_app; [by split|apply Hall; by_compute]. }
  assert (∀ n, String.length (iso_minute n) = 16%nat) as Hlen.
  { intros n. unfold iso_minute. by destruct (civil_of_days _) as [[y m] d]. }
  rewrite (bool_decide_eq_false_2 (String.length _ = 11%nat)).
  2:{ cbn [period_text]. rewrite !string_length_app, !Hlen. done. }
  cbn [andb]. cbn [period_text]. replace ("/" +:+ iso_minute b) with (String "/" (iso_minute b)) by done.
  assert (split_once "/" (iso_minute a +:+ String "/" (iso_minute b)) = Some (iso_minute a, iso_minute b)) as Hsplit.
  { apply split_once_app, Hall; by_compute. }
  unfold has_char at 1. rewrite Hsplit.
  assert (has_char "T" (iso_minute a +:+ String "/" (iso_minute b)) = true) as ->.
  { unfold has_char, iso_minute. destruct (civil_of_days (a / 1440)) as [[y m] d].
    replace ((dec 4 y +:+ "-" +:+ dec 2 m +:+ "-" +:+ dec 2 d +:+ "T" +:+ dec 2 (a mod 1440 / 60) +:+ ":" +:+ dec 2 (a mod 60)) +:+
      String "/" (let '(y, m, d) := civil_of_days (b / 1440) in
        dec 4 y +:+ "-" +:+ dec 2 m +:+ "-" +:+ dec 2 d +:+ "T" +:+ dec 2 (b mod 1440 / 60) +:+ ":" +:+ dec 2 (b mod 60)))
      with ((dec 4 y +:+ "-" +:+ dec 2 m +:+ "-" +:+ dec 2 d) +:+ String "T" ((dec 2 (a mod 1440 / 60) +:+ ":" +:+ dec 2 (a mod 60)) +:+
      String "/" (let '(y, m, d) := civil_of_days (b / 1440) in
        dec 4 y +:+ "-" +:+ dec 2 m +:+ "-" +:+ dec 2 d +:+ "T" +:+ dec 2 (b mod 1440 / 60) +:+ ":" +:+ dec 2 (b mod 60)))) by done.
    rewrite split_once_app; [done|]. repeat (apply string_all_app; [first [by split|apply dec_all; by_compute]|]). apply dec_all; by_compute. }
  cbn [andb]. unfold iso_interval. rewrite Hsplit. cbn [mbind option_bind]. rewrite !wall_clock_minute by done.
  cbn [mbind option_bind default from_option covers]. unfold id. rewrite andb_true_iff, !Z.leb_le. done.
Qed.

Lemma weekdays_spec days t : period_ok (Weekdays days) →
  _matches_blackout_period (period_text (Weekdays days)) t = true ↔ covers (Weekdays days) t.
Proof.
  intros (Hne & Hdays). unfold _matches_blackout_period.
  assert (∀ P, Forall P all_digits → P ","%char → string_all P (join "," (map (dec 1) days))) as Hall.
  { intros P HP Hc. clear Hne Hdays. induction days as [|d l IH]; [done|]. destruct l as [|d' l]; [by apply dec_all|].
    cbn [map join] in *. apply string_all_app; [by apply dec_all|]. apply string_all_app; [by split|done]. }
  assert (strip (period_text (Weekdays days)) = period_text (Weekdays days)) as ->.
  { apply strip_plain. cbn [period_text]. apply string_all_app; [by_compute|apply Hall; by_compute]. }
  replace (char_at 2 ":" (period_text (Weekdays days))) with false by done. rewrite andb_false_r. cbn [andb].
  assert (has_char "/" (period_text (Weekdays days)) = false) as ->.
  { unfold has_char. rewrite split_once_none; [done|]. cbn [period_text]. apply string_all_app; [by_compute|apply Hall; by_compute]. }
  cbn [andb]. replace (after_prefix "weekday:" (period_text (Weekdays days))) with (Some (join "," (map (dec 1) days))) by done.
  unfold weekdays. rewrite split_all_join; [|by destruct days|].
  2:{ intros s (d & -> & _)%list_elem_of_fmap. apply dec_all. by_compute. }
  assert (mapM (λ d, int_text (strip d)) (map (dec 1) days) = Some days) as ->.
  { clear Hne Hall. induction days as [|d l IH]; [done|]. cbn [map mapM].
    rewrite IH by (intros x Hx; apply Hdays; by right). assert (0 <= d < 7) as Hd by (apply Hdays; left).
    replace (dec 1 d) with (String (digit (d mod 10)) EmptyString) by done. rewrite Z.mod_small by lia.
    rewrite strip_plain. 2:{ split; [|done]. enough (Forall (λ c, is_space c = false) all_digits) as HF by
      (rewrite Forall_forall in HF; apply HF, digit_in; lia). by_compute. }
    rewrite int_text_digit by lia. done. }
  cbn [mbind option_bind default from_option covers]. unfold id. apply bool_decide_eq_true.
Qed.

(** ** Properties *)

(** Blackout periods mean what they say: a daily window [HH:MM-HH:MM] matches
    exactly the minutes from its start to before its end, going past midnight when
    the end comes first; an interval [YYYY-MM-DDTHH:MM/YYYY-MM-DDTHH:MM] the moments
    from its first to the beginning of its last minute; [weekday:d,d] those days. *)
Theorem blackout_periods_are_decided p t : period_ok p →
  _matches_blackout_period (period_text p) t = true ↔ covers p t.
Proof. destruct p; [apply daily_spec|apply interval_spec|apply weekdays_spec]. Qed.

Lemma blackout_periods_are_decided_witness :
  covers (Daily 22 30 6 0) 1577836800000000 ∧ _matches_blackout_period "22:30-06:00" 1577836800000000 = true ∧
  ¬ covers (Weekdays [5; 6]) 1577836800000000.
Proof.
  split; [|split].
  - apply (blackout_periods_are_decided (Daily 22 30 6 0)); [repeat split; lia|vm_compute; reflexivity].
  - apply (blackout_periods_are_decided (Daily 22 30 6 0)); [repeat split; lia|vm_compute; reflexivity].
  - intros Hc. apply (blackout_periods_are_decided (Weekdays [5; 6])) in Hc; [vm_compute in Hc; discriminate Hc|].
    split; [discriminate|]. intros d [->|[->|[]%not_elem_of_nil]%elem_of_cons]%elem_of_cons; lia.
Defined.

(** An offset in the text of a period is dropped, not converted: the interval from
    10:00 to 11:00 at five hours east matches 10:30 UTC and not 05:30 UTC. *)
Theorem blackout_offset_is_dropped :
  let period := "2020-01-01T10:00+05:00/2020-01-01T11:00+05:00" in
  _matches_blackout_period period 1577874600000000 = true ∧ _matches_blackout_period period 1577856600000000 = false.
Proof. vm_compute. done. Qed.

(** The runs that count as failures. *)
Definition failed_run (i : CampaignInstance) : Prop := ci_state i ∈ [InstanceState.FAILED; InstanceState.ABORTED].

Lemma last_slice_pos {A} n (l : list A) : 0 < n → last_slice n l = drop (length l - Z.to_nat n) l.
Proof. intros Hn. unfold last_slice. by rewrite (proj2 (Z.ltb_lt 0 n)). Qed.

(** The failure check pauses a campaign exactly when the last
    [max_consecutive_failures] runs are there and all failed or were aborted, and
    otherwise leaves it as it was. *)
Theorem failure_check_pauses_exactly c policy recent now :
  campaign_schedule c = Some policy → 1 ≤ max_consecutive_failures policy →
  state c ∉ [CampaignState.APPROVED; CampaignState.COMPLETED; CampaignState.ARCHIVED] →
  let n := Z.to_nat (max_consecutive_failures policy) in
  let bad := (n ≤ length recent)%nat ∧ ∀ i, i ∈ drop (length recent - n) recent → failed_run i in
  wp (check_consecutive_failures recent now)
    (λ b c', (b = true ↔ bad) ∧ (bad → state c' = CampaignState.PAUSED) ∧ (¬ bad → c' = c)) (λ _ _, False) c.
Proof.
  intros Hs Hn Hst n bad. unfold check_consecutive_failures. do 2 wp_step. rewrite Hs.
  assert ((Z.of_nat (length (last_slice (max_consecutive_failures policy) recent)) <? max_consecutive_failures policy) = false ↔
    (n ≤ length recent)%nat) as Hlen.
  { rewrite last_slice_pos, length_drop by lia. rewrite Z.ltb_ge. lia. }
  assert (forallb (λ i, bool_decide (ci_state i ∈ [InstanceState.FAILED; InstanceState.ABORTED]))
    (last_slice (max_consecutive_failures policy) recent) = true ↔ ∀ i, i ∈ drop (length recent - n) recent → failed_run i) as Hall.
  { rewrite last_slice_pos by lia. rewrite forallb_forall. setoid_rewrite bool_decide_eq_true. setoid_rewrite <- list_elem_of_In. done. }
  case_bool_decide as Hnil.
  { wp_run. assert (¬ bad) by (intros [Hl _]; lia). naive_solver. }
  cbv zeta. destruct (_ <? _) eqn:Hl.
  { wp_run. assert (¬ bad) by (intros [Hl' _]; apply Hlen in Hl'; congruence). naive_solver. }
  destruct (forallb _ _) eqn:Hf.
  2:{ wp_run. assert (¬ bad) by (intros [_ Ha]; apply Hall in Ha; congruence). naive_solver. }
  assert bad as Hbad by (split; [by apply Hlen|by apply Hall]).
  assert (state c ∉ [CampaignState.COMPLETED; CampaignState.ARCHIVED]) as Hne by state_cases.
  unfold pause_recurring_due_to_failures. do 3 wp_step. rewrite decide_False by done.
  unfold _transition, _mutate, _emit. destruct (decide (state c ∉ _)) as [Hd|Hd].
  - wp_run. split_and!; [done..|]. by intros [].
  - wp_run; stable; [exfalso; state_cases|]. split_and!; [done..|]. by intros [].
Qed.

(** A failing run is a failure of its schedule. *)
Definition sample_run (s : InstanceState.t) : CampaignInstance := mkInstance 71 9 acme 1 s [] 0 None None 1 [].
Definition scheduled_campaign : Campaign := run_all run_call [CScheduleOneShot acme 100 5] approved_campaign.

Lemma failure_check_pauses_exactly_witness :
  state (check_consecutive_failures [sample_run InstanceState.ABORTED] 6 scheduled_campaign).2 = CampaignState.PAUSED.
Proof.
  destruct (campaign_schedule scheduled_campaign) as [policy|] eqn:Hs; [|vm_compute in Hs; discriminate Hs].
  assert (max_consecutive_failures policy = 1) as Hone by (vm_compute in Hs; injection Hs as <-; reflexivity).
  pose proof (failure_check_pauses_exactly scheduled_campaign policy [sample_run InstanceState.ABORTED] 6 Hs) as Hwp.
  rewrite Hone in Hwp. specialize (Hwp ltac:(lia) ltac:(by_compute)). unfold wp in Hwp. revert Hwp.
  destruct (check_consecutive_failures _ _ _) as [[b|e] c']; [|intros []]. intros (_ & Hp & _). apply Hp.
  split; [vm_compute; lia|]. intros i. vm_compute. intros ->%list_elem_of_singleton. right. left.
Defined.
