(* ===== verification/CampaignGate.v ===== *)
(** What a campaign asks other contexts before it runs: the ports of
    [campaign.domain.ports], [services/campaign_authorization_service.py],
    [services/target_resolution_service.py] and the stub adapters. *)
From stdpp Require Import base tactics list strings.
From Stdlib Require Import ZArith Lia.
From S2P Require Import Prelude PyTypes PyParse CampaignRootData CampaignRoot.

Local Open Scope Z_scope.

(** ** Ports *)

(** [None] for [allowed_target_ids] is no restriction, an empty list allows no
    target. *)
Record EngagementStatus := mkStatus {
  es_engagement_id : uuid; es_state : string; es_kill_switch_state : string;
  allowed_target_ids : option (list uuid) }.

(** The queries; they may raise, and an asset id is a [UUID]. *)
Class EngagementStatusPort := {
  get_engagement_status : uuid → TenantId → result unit (option EngagementStatus)
}.
Class InventoryQueryPort := {
  resolve_targets : list TargetSelectionRule → TenantId → result unit (list TargetRef);
  resolved_uuids rules t found : resolve_targets rules t = Ok found → ∀ x, x ∈ found → uuid_ok (asset_id x)
}.

(** [AlwaysActiveEngagementAdapter] and [StubInventoryQueryAdapter] *)
Definition AlwaysActiveEngagementAdapter : EngagementStatusPort := {|
  get_engagement_status engagement _ := Ok (Some (mkStatus engagement "Active" "Armed" None))
|}.
#[program] Definition StubInventoryQueryAdapter : InventoryQueryPort := {|
  resolve_targets _ _ := Ok [mkTargetRef 1 "host"]
|}.
Next Obligation. intros _ _ found [= <-] x ->%list_elem_of_singleton. done. Qed.

(** A refusal of a domain service, or an exception of a port. *)
Inductive GateError :=
  | Refused (e : CampaignDomainException)
  | PortRaised.

Definition asked {A} (r : result unit A) : result GateError A :=
  match r with Ok a => Ok a | Err _ => Err PortRaised end.

(** ** Services *)

Definition _ACTIVE_STATE : string := "Active".
Definition _ARMED_KILL_SWITCH : string := "Armed".

(** [CampaignAuthorizationService.authorize] *)
Definition authorize `{!EngagementStatusPort} (c : Campaign) (t : TenantId) : result GateError unit :=
  match engagement_ref c with
  | None => Err (Refused (EngagementNotActive None "EngagementRef not set on campaign"))
  | Some ref =>
      match asked (get_engagement_status (er_engagement_id ref) t) with
      | Err e => Err e
      | Ok None => Err (Refused (EngagementNotActive (Some (er_engagement_id ref)) "not found"))
      | Ok (Some status) =>
          if bool_decide (es_state status ≠ _ACTIVE_STATE)
          then Err (Refused (EngagementNotActive (Some (er_engagement_id ref)) (es_state status)))
          else if bool_decide (es_kill_switch_state status ≠ _ARMED_KILL_SWITCH)
          then Err (Refused (EngagementNotActive (Some (er_engagement_id ref))
                 ("kill switch is '" +:+ es_kill_switch_state status +:+ "' — must be Armed")))
          else Ok tt
      end
  end.

(** [TargetResolutionService.resolve] *)
Definition resolve `{!EngagementStatusPort} `{!InventoryQueryPort} (criteria : list TargetSelectionRule)
    (ref : EngagementRef) (t : TenantId) : result GateError SelectedTargetSet :=
  if bool_decide (length criteria = 0%nat)
  then Err (Refused (TargetResolutionFailed "No target selection rules provided"))
  else
    match asked (resolve_targets criteria t) with
    | Err e => Err e
    | Ok [] => Err (Refused (TargetResolutionFailed "No targets matched the provided selection rules"))
    | Ok resolved =>
        match asked (get_engagement_status (er_engagement_id ref) t) with
        | Err e => Err e
        | Ok None => Err (Refused (TargetResolutionFailed
                       ("Engagement '" +:+ str_uuid (er_engagement_id ref) +:+ "' not found")))
        | Ok (Some status) =>
            match allowed_target_ids status with
            | None => Ok resolved
            | Some allowed =>
                match filter (fun x => asset_id x ∈ allowed) resolved with
                | [] => Err (Refused (TargetResolutionFailed "All resolved targets are outside the engagement scope"))
                | in_scope => Ok in_scope
                end
            end
        end
    end.

(** ** Specification *)

(** An engagement lets a campaign run. *)
Definition cleared `{!EngagementStatusPort} (ref : EngagementRef) (t : TenantId) : Prop :=
  ∃ status, get_engagement_status (er_engagement_id ref) t = Ok (Some status) ∧
    es_state status = "Active" ∧ es_kill_switch_state status = "Armed".

(** A target may be attacked under an engagement. *)
Definition in_scope `{!EngagementStatusPort} (ref : EngagementRef) (t : TenantId) (x : TargetRef) : Prop :=
  ∃ status, get_engagement_status (er_engagement_id ref) t = Ok (Some status) ∧
    match allowed_target_ids status with Some allowed => asset_id x ∈ allowed | None => True end.

Section Gate.
Context `{!EngagementStatusPort}.

Lemma authorize_spec c t : authorize c t = Ok tt ↔ ∃ ref, engagement_ref c = Some ref ∧ cleared ref t.
Proof.
  unfold authorize, cleared, asked, _ACTIVE_STATE, _ARMED_KILL_SWITCH.
  destruct (engagement_ref c) as [ref|]; [|split; [done|by intros (? & ? & _)]].
  destruct (get_engagement_status (er_engagement_id ref) t) as [[status|]|e] eqn:Hs.
  2,3: split; [done|]; intros (ref' & [= <-] & status & Hs' & _); congruence.
  case_bool_decide as Ha; [split; [done|]; intros (ref' & [= <-] & status' & Hs' & ? & ?); congruence|].
  case_bool_decide as Hk; [split; [done|]; intros (ref' & [= <-] & status' & Hs' & ? & ?); congruence|].
  split; [intros _|done]. exists ref. split; [done|]. exists status. done.
Qed.

Context `{!InventoryQueryPort}.

Lemma resolve_spec rules ref t targets :
  resolve rules ref t = Ok targets ↔
  rules ≠ [] ∧ targets ≠ [] ∧ ∃ found status, resolve_targets rules t = Ok found ∧
    get_engagement_status (er_engagement_id ref) t = Ok (Some status) ∧
    targets = match allowed_target_ids status with
              | Some allowed => filter (λ x, asset_id x ∈ allowed) found
              | None => found
              end.
Proof.
  unfold resolve, asked. case_bool_decide as Hr.
  { split; [done|]. intros (Hne & _). by destruct rules. }
  assert (rules ≠ []) by (by destruct rules). destruct (resolve_targets rules t) as [found|e].
  2:{ split; [done|]. by intros (_ & _ & f & s & ? & _). }
  destruct found as [|x found].
  { split; [done|]. intros (_ & Hne & found & status & [= <-] & _ & ->). by destruct (allowed_target_ids status). }
  destruct (get_engagement_status (er_engagement_id ref) t) as [[status|]|e] eqn:Hs.
  2,3: split; [done|]; intros (_ & _ & f & s & _ & Hs' & _); congruence.
  destruct (allowed_target_ids status) as [allowed|] eqn:Ha.
  - destruct (filter _ (x :: found)) as [|y l] eqn:Hf; split; try done.
    + intros (_ & Hne & f & s & [= <-] & [= <-] & ->). rewrite Ha, Hf in Hne. done.
    + intros [= <-]. split_and!; [done..|]. exists (x :: found), status. by rewrite Ha, Hf.
    + intros (_ & _ & f & s & [= <-] & [= <-] & ->). by rewrite Ha, Hf.
  - split.
    + intros [= <-]. split_and!; [done..|]. exists (x :: found), status. by rewrite Ha.
    + intros (_ & _ & f & s & [= <-] & [= <-] & ->). by rewrite Ha.
Qed.

(** Every resolved target is in scope. *)
Lemma resolved_in_scope rules ref t targets : resolve rules ref t = Ok targets →
  targets ≠ [] ∧ ∀ x, x ∈ targets → in_scope ref t x ∧ uuid_ok (asset_id x).
Proof.
  intros (_ & Hne & found & status & Hf & Hs & ->)%resolve_spec. split; [done|]. intros x Hx.
  split; [exists status; split; [done|]|apply (resolved_uuids _ _ _ Hf)];
    destruct (allowed_target_ids status); try done; by apply list_elem_of_filter in Hx as [? ?].
Qed.
End Gate.

(** ** Properties *)

(** Before a run starts, the gate decides: authorization passes exactly when
    the campaign refers to an engagement that is active with its kill switch armed,
    and resolution answers exactly the targets of the inventory for the rules that
    are in the scope of the engagement, in the inventory's order, provided there is
    one. *)
Theorem gate_decides `{!EngagementStatusPort} `{!InventoryQueryPort} c t rules ref targets :
  (authorize c t = Ok tt ↔ ∃ ref, engagement_ref c = Some ref ∧ cleared ref t) ∧
  (resolve rules ref t = Ok targets ↔
   rules ≠ [] ∧ targets ≠ [] ∧ ∃ found status, resolve_targets rules t = Ok found ∧
     get_engagement_status (er_engagement_id ref) t = Ok (Some status) ∧
     targets = match allowed_target_ids status with
               | Some allowed => filter (λ x, asset_id x ∈ allowed) found
               | None => found
               end).
Proof. split; [apply authorize_spec|apply resolve_spec]. Qed.
