(* ===== verification/CampaignPorts.v ===== *)
(** The scheduler and the security graph a campaign writes to: the ports
    [i_scheduler_port.py] and [i_security_graph_write_port.py], the registrations
    of [services/recurrence_scheduler.py], and the stub adapters of
    [infrastructure/acl/degraded_adapters.py]. *)
From stdpp Require Import base tactics list strings.
From Stdlib Require Import ZArith Lia.
From S2P Require Import Prelude PyTypes CampaignRootData CampaignRoot.

Local Open Scope Z_scope.

(** ** Ports

    No transaction covers these ports, and their answers may depend on the calls
    made before, the latest last. *)

Inductive SchedulerCall :=
  | RegisterSchedule (campaign : uuid) (t : TenantId) (policy : RecurrencePolicy)
  | RegisterOneShot (campaign : uuid) (t : TenantId) (fire_at : datetime)
  | CancelJob (campaign : uuid) (t : TenantId) (job : string)
  | ListActive (t : TenantId).

Abbreviation ScheduleEntry := (list (string * string)).

(** An exception of a cancellation is logged and ignored by its callers. *)
Record SchedulerPort := mkScheduler {
  answer_register : list SchedulerCall → SchedulerCall → result unit string;
  answer_list : list SchedulerCall → TenantId → result unit (list ScheduleEntry)
}.

Inductive GraphCall :=
  | UpsertCampaignNode (t : TenantId) (campaign : uuid) (classification kind state : string)
  | UpsertInstanceNode (t : TenantId) (instance campaign : uuid) (number : Z) (outcome : option string)
  | UpsertInstanceOfEdge (t : TenantId) (instance campaign : uuid) (number : Z)
  | UpsertTaskGraphNode (t : TenantId) (graph : uuid) (version : string)
  | UpsertUsesGraphEdge (t : TenantId) (campaign graph : uuid) (version : string)
  | UpsertTaskNode (t : TenantId) (task : uuid) (task_type criticality : string)
  | UpsertContainsEdge (t : TenantId) (graph task : uuid) (sequence : Z)
  | UpsertDependsOnEdge (t : TenantId) (from_ to_ : uuid) (predicate : string)
  | UpsertBasedOnEdge (t : TenantId) (campaign template : uuid).

(** The two ports a service may be built without; a write may raise. *)
Class OptionalPorts := {
  scheduler_port : option SchedulerPort;
  graph_port : option (list GraphCall → GraphCall → result unit unit)
}.

(** ** Registrations *)

(** [register] and [register_one_shot]: what the scheduler is asked; a campaign
    without a schedule is a [ValueError]. *)
Definition register (c : Campaign) : option SchedulerCall :=
  s ← campaign_schedule c;
  Some (RegisterSchedule (campaign_id c) (tenant_id c) (to_recurrence_policy s)).
Definition register_one_shot (c : Campaign) (fire_at : datetime) : SchedulerCall :=
  RegisterOneShot (campaign_id c) (tenant_id c) fire_at.

(** The entries kept after a restart. *)
Definition recover_after_restart (active : list ScheduleEntry) (starting : list string) : list ScheduleEntry :=
  filter (fun entry => dget entry "campaign_id" ∉ map Some starting) active.

(** ** StubSchedulerPort *)

Definition registration (x : SchedulerCall) : option ScheduleEntry :=
  match x with
  | RegisterSchedule c _ _ => Some [("campaign_id", str_uuid c); ("job_id", "stub-job-" +:+ str_uuid c)]
  | RegisterOneShot c _ at_ =>
      Some [("campaign_id", str_uuid c); ("job_id", "stub-oneshot-" +:+ str_uuid c); ("fire_at", isoformat at_)]
  | CancelJob _ _ _ | ListActive _ => None
  end.
Definition cancelled (history : list SchedulerCall) : list string :=
  omap (fun x => match x with CancelJob _ _ job => Some job | _ => None end) history.

Definition job_of (entry : ScheduleEntry) : string := default "" (dget entry "job_id").

Definition StubSchedulerPort : SchedulerPort := {|
  answer_register _ x := match registration x with Some entry => Ok (job_of entry) | None => Err tt end;
  answer_list history _ := Ok (filter (fun entry => job_of entry ∉ cancelled history) (omap registration history))
|}.

(** ** StubCampaignGraphWriteAdapter *)

(** A list of nodes or edges with their natural keys. *)
Definition upsert_by {K V} `{EqDecision K} (k : K) (v : V) (l : list (K * V)) : list (K * V) :=
  filter (fun n => n.1 ≠ k) l ++ [(k, v)].

Record StubGraph := mkStubGraph {
  campaign_nodes : list (TenantId * uuid * (string * string * string));
  instance_nodes : list (TenantId * uuid * (uuid * Z * option string));
  instance_edges : list (TenantId * uuid * uuid * Z);
  task_graph_nodes : list (TenantId * uuid * string);
  uses_graph_edges : list (TenantId * uuid * uuid * string);
  task_nodes : list (TenantId * uuid * (string * string));
  graph_contains_edges : list (TenantId * uuid * uuid * Z);
  task_depends_edges : list (TenantId * uuid * uuid * string);
  based_on_scenario_edges : list (TenantId * uuid * uuid * unit)
}.
#[export] Instance StubGraph_settable : Settable StubGraph := fun g =>
  mkStubGraph (campaign_nodes g) (instance_nodes g) (instance_edges g) (task_graph_nodes g) (uses_graph_edges g)
    (task_nodes g) (graph_contains_edges g) (task_depends_edges g) (based_on_scenario_edges g).

Definition empty_graph : StubGraph := mkStubGraph [] [] [] [] [] [] [] [] [].

(** The nine [upsert_*] methods. *)
Definition stub_upsert (x : GraphCall) (g : StubGraph) : StubGraph :=
  match x with
  | UpsertCampaignNode t c cl k st => g <| campaign_nodes ::= upsert_by (t, c) (cl, k, st) |>
  | UpsertInstanceNode t i c n o => g <| instance_nodes ::= upsert_by (t, i) (c, n, o) |>
  | UpsertInstanceOfEdge t i c n => g <| instance_edges ::= upsert_by (t, i, c) n |>
  | UpsertTaskGraphNode t gr v => g <| task_graph_nodes ::= upsert_by (t, gr) v |>
  | UpsertUsesGraphEdge t c gr v => g <| uses_graph_edges ::= upsert_by (t, c, gr) v |>
  | UpsertTaskNode t task ty cr => g <| task_nodes ::= upsert_by (t, task) (ty, cr) |>
  | UpsertContainsEdge t gr task n => g <| graph_contains_edges ::= upsert_by (t, gr, task) n |>
  | UpsertDependsOnEdge t a b p => g <| task_depends_edges ::= upsert_by (t, a, b) p |>
  | UpsertBasedOnEdge t c tpl => g <| based_on_scenario_edges ::= upsert_by (t, c, tpl) tt |>
  end.

(** The adapter's state after a history of calls, and the adapter as a port. *)
Definition stub_graph (history : list GraphCall) : StubGraph := foldl (fun g x => stub_upsert x g) empty_graph history.
Definition StubCampaignGraphWriteAdapter : list GraphCall → GraphCall → result unit unit := fun _ _ => Ok tt.

(** The container's default ports. *)
Definition stub_ports : OptionalPorts :=
  {| scheduler_port := Some StubSchedulerPort; graph_port := Some StubCampaignGraphWriteAdapter |}.

(** ** Lemmas *)

Section Upserts.
Context {K V : Type} `{EqDecision K}.

Lemma upsert_keys (k : K) (v : V) l : NoDup (map fst l) → NoDup (map fst (upsert_by k v l)).
Proof.
  intros Hl. unfold upsert_by. rewrite map_app. apply NoDup_app. split_and!; [| |apply NoDup_singleton].
  - apply (sublist_NoDup _ (map fst l)); [done|]. apply fmap_sublist, sublist_filter.
  - intros x (n & -> & [Hn _]%list_elem_of_filter)%list_elem_of_fmap. by intros Hk%list_elem_of_singleton.
Qed.

Lemma upsert_twice (k : K) (v : V) l : upsert_by k v (upsert_by k v l) = upsert_by k v l.
Proof.
  unfold upsert_by. rewrite filter_app, (filter_cons_False _ (k, v)) by (by intros []). rewrite filter_nil, app_nil_r.
  f_equal. rewrite list_filter_filter. apply list_filter_iff. tauto.
Qed.
End Upserts.

(** Every kind of node and edge has one entry for a key. *)
Record one_each (g : StubGraph) : Prop := {
  oe_campaigns : NoDup (map fst (campaign_nodes g));
  oe_instances : NoDup (map fst (instance_nodes g));
  oe_instance_edges : NoDup (map fst (instance_edges g));
  oe_graphs : NoDup (map fst (task_graph_nodes g));
  oe_uses : NoDup (map fst (uses_graph_edges g));
  oe_tasks : NoDup (map fst (task_nodes g));
  oe_contains : NoDup (map fst (graph_contains_edges g));
  oe_depends : NoDup (map fst (task_depends_edges g));
  oe_based_on : NoDup (map fst (based_on_scenario_edges g))
}.

Lemma stub_upsert_one_each x g : one_each g → one_each (stub_upsert x g).
Proof. intros []. destruct x; split; simpl; auto using upsert_keys. Qed.

#[local] Arguments upsert_by : simpl never.

(** ** Properties *)

(** The stub graph is idempotent by natural key: whatever is written in
    whatever order, every key has one entry, and repeating the last write changes
    nothing. *)
Theorem graph_writes_are_idempotent history x :
  one_each (stub_graph history) ∧
  stub_graph (history ++ [x; x]) = stub_graph (history ++ [x]).
Proof.
  unfold stub_graph. split.
  - induction history as [|y history IH] using rev_ind; [by split; constructor|].
    rewrite foldl_app. by apply stub_upsert_one_each.
  - rewrite !foldl_app. simpl. generalize (foldl (λ g y, stub_upsert y g) empty_graph history). intros g.
    destruct x; unfold stub_upsert, upd; simpl; by rewrite upsert_twice.
Qed.
