(* ===== verification/CampaignRootStore.v ===== *)
(** Persistence of campaigns and their instances: the JSON columns, the four
    tables, and the two [pg_*] repositories with their optimistic locking. *)
From stdpp Require Import base tactics list strings sorting.
From Stdlib Require Import ZArith Lia.
From S2P Require Import Prelude PyTypes PyParse PyJson PyStore CampaignRootData CampaignRoot CampaignInstance.

Local Open Scope Z_scope.

(** ** JSON columns *)

Definition all_kinds : list CampaignKind.t := [CampaignKind.ONE_SHOT; CampaignKind.RECURRING; CampaignKind.CONTINUOUS].
Definition all_classifications : list CampaignClassification.t :=
  [CampaignClassification.FULL_KILL_CHAIN; CampaignClassification.THREAT_ACTOR_EMULATION;
   CampaignClassification.COMPLIANCE_VALIDATION; CampaignClassification.DETECTION_TUNING;
   CampaignClassification.RED_VS_BLUE].
Definition all_campaign_states : list CampaignState.t :=
  [CampaignState.DRAFT; CampaignState.PENDING_APPROVAL; CampaignState.APPROVED; CampaignState.SCHEDULED;
   CampaignState.RUNNING; CampaignState.PAUSED; CampaignState.COMPLETED; CampaignState.FAILED;
   CampaignState.ARCHIVED].
Definition all_objective_types : list ObjectiveType.t :=
  [ObjectiveType.ACCESS_ACHIEVED; ObjectiveType.DATA_ACCESSED; ObjectiveType.PRIVILEGE_ESCALATED;
   ObjectiveType.LATERAL_MOVEMENT_ACHIEVED; ObjectiveType.DETECTION_EVADED;
   ObjectiveType.COMPLIANCE_CONTROL_BYPASSED; ObjectiveType.CUSTOM_DEFINED].
Definition all_objective_states : list ObjectiveState.t :=
  [ObjectiveState.PENDING; ObjectiveState.ACHIEVED; ObjectiveState.FAILED; ObjectiveState.INCONCLUSIVE;
   ObjectiveState.SKIPPED].
Definition all_instance_states : list InstanceState.t :=
  [InstanceState.STARTING; InstanceState.RUNNING; InstanceState.PAUSED; InstanceState.COMPLETED;
   InstanceState.FAILED; InstanceState.ABORTED].

Definition _safety_policy_to_json (p : CampaignSafetyPolicyVO) : Json :=
  JObj [("max_concurrent_actions", JInt (max_concurrent_actions p));
        ("auto_abort_on_detection", JBool (auto_abort_on_detection p));
        ("auto_abort_on_objective_failure", JBool (auto_abort_on_objective_failure p));
        ("blast_radius_ceiling", JStr (blast_radius_ceiling p))].

Definition _safety_policy_from_json (data : Json) : option CampaignSafetyPolicyVO :=
  match data with
  | JObj d =>
      n ← py_int (dget_default d "max_concurrent_actions" (JInt 10));
      ceiling ← py_str (dget_default d "blast_radius_ceiling" (JStr "Probe"));
      CampaignSafetyPolicyVO_new n (py_truthy (dget_default d "auto_abort_on_detection" (JBool false)))
        (py_truthy (dget_default d "auto_abort_on_objective_failure" (JBool false))) ceiling
  | _ => None
  end.

Definition _approval_policy_to_json (p : ApprovalPolicy) : Json :=
  JObj [("required_approver_count", JInt (required_approver_count p));
        ("required_approver_roles", json_strs (required_approver_roles p));
        ("quorum_type", JStr (quorum_type p))].

Definition _approval_policy_from_json (data : Json) : option ApprovalPolicy :=
  match data with
  | JObj d =>
      n ← py_int (dget_default d "required_approver_count" (JInt 1));
      roles ← to_str_list (dget_default d "required_approver_roles" JNull);
      quorum ← py_str (dget_default d "quorum_type" (JStr (QuorumType.value QuorumType.UNANIMOUS)));
      ApprovalPolicy_new n roles quorum
  | _ => None
  end.

Definition _schedule_to_json (schedule : option CampaignSchedule) : Json :=
  match schedule with
  | None => JNull
  | Some s => JObj [("cron_expression", JStr (cron_expression s));
                    ("execution_window_hours", JInt (execution_window_hours s));
                    ("max_consecutive_failures", JInt (max_consecutive_failures s));
                    ("blackout_periods", json_strs (blackout_periods s));
                    ("consecutive_failure_count", JInt (consecutive_failure_count s));
                    ("scheduler_job_id", opt_str (scheduler_job_id s))]
  end.

Definition _schedule_from_json (data : Json) : option (option CampaignSchedule) :=
  match data with
  | JNull => Some None
  | JObj d =>
      cron ← dget d "cron_expression" ≫= py_str;
      hours ← dget d "execution_window_hours" ≫= py_int;
      max_fail ← py_int (dget_default d "max_consecutive_failures" (JInt 3));
      blackouts ← to_str_list (dget_default d "blackout_periods" JNull);
      count ← py_int (dget_default d "consecutive_failure_count" (JInt 0));
      job ← to_opt_str (dget_default d "scheduler_job_id" JNull);
      Some (Some (mkSchedule cron hours max_fail blackouts count job))
  | _ => None
  end.

Definition rule_item (r : TargetSelectionRule) : Json :=
  JObj [("attribute", JStr (attribute r)); ("operator", JStr (operator r)); ("value", JStr (rule_value r))].
Definition _rules_to_json (rules : list TargetSelectionRule) : Json := JArr (map rule_item rules).

Definition rule_of_item (item : Json) : option TargetSelectionRule :=
  match item with
  | JObj d =>
      a ← dget d "attribute" ≫= py_str;
      o ← dget d "operator" ≫= py_str;
      v ← dget d "value" ≫= py_str;
      Some (mkRule a o v)
  | _ => None
  end.
Definition _rules_from_json (data : Json) : option (list TargetSelectionRule) :=
  if negb (py_truthy data) then Some []
  else match data with JArr l => mapM rule_of_item l | _ => None end.

(** [evaluation_criteria_json], written by [_sync_children] and read by
    [_to_domain]. *)
Definition criteria_to_json (c : ObjectiveEvaluationCriteria) : Json :=
  JObj [("condition_type", JStr (condition_type c)); ("parameters", json_dict (parameters c))].
Definition criteria_from_json (data : Json) : option ObjectiveEvaluationCriteria :=
  match data with
  | JObj d =>
      ty ← py_str (dget_default d "condition_type" (JStr ""));
      params ← to_str_dict (dget_default d "parameters" JNull);
      Some (mkCriteria ty params)
  | _ => None
  end.

(** [resolved_targets_json] *)
Definition target_item (t : TargetRef) : Json :=
  JObj [("asset_id", JStr (str_uuid (asset_id t))); ("asset_type", JStr (asset_type t))].
Definition target_of_item (item : Json) : option TargetRef :=
  match item with
  | JObj d =>
      s ← dget d "asset_id" ≫= py_str;
      u ← uuid_of_text s;
      ty ← py_str (dget_default d "asset_type" (JStr "unknown"));
      Some (mkTargetRef u ty)
  | _ => None
  end.
Definition targets_to_json (ts : list TargetRef) : Json := JArr (map target_item ts).
Definition targets_from_json (data : Json) : option (list TargetRef) :=
  if negb (py_truthy data) then Some []
  else match data with JArr l => mapM target_of_item l | _ => None end.

(** ** Tables *)

(** [CampaignModel] *)
Record CampaignRow := mkCampaignRow {
  cm_id : uuid; cm_tenant_id : TenantId; cm_name : string; cm_classification : string; cm_kind : string;
  cm_owner_id : string; cm_state : string; cm_engagement_id : option uuid; cm_engagement_tenant_id : option TenantId;
  cm_safety_policy_json : Json; cm_approval_policy_json : Json; cm_schedule_json : Json;
  cm_target_selection_rules_json : Json; cm_created_at : datetime; cm_updated_at : datetime; cm_row_version : Z }.

(** [CampaignApprovalModel] *)
Record CampaignApprovalRow := mkCampaignApprovalRow {
  am_id : uuid; am_campaign_id : uuid; am_approver_id : string; am_signature : string; am_approval_scope : string;
  am_approved_at : datetime; am_revoked : bool; am_revoked_at : option datetime; am_revoked_by : option string }.

(** [CampaignObjectiveModel] *)
Record ObjectiveRow := mkObjectiveRow {
  om_id : uuid; om_campaign_id : uuid; om_objective_type : string; om_description : string;
  om_evaluation_criteria_json : Json; om_state : string; om_sealed : bool }.

(** [CampaignInstanceModel] *)
Record InstanceRow := mkInstanceRow {
  im_id : uuid; im_campaign_id : uuid; im_tenant_id : TenantId; im_run_number : Z; im_state : string;
  im_resolved_targets_json : Json; im_started_at : datetime; im_completed_at : option datetime;
  im_failure_reason : option string; im_row_version : Z }.
#[export] Instance InstanceRow_settable : Settable InstanceRow := fun r =>
  mkInstanceRow (im_id r) (im_campaign_id r) (im_tenant_id r) (im_run_number r) (im_state r)
    (im_resolved_targets_json r) (im_started_at r) (im_completed_at r) (im_failure_reason r) (im_row_version r).

Record CaDb := mkCaDb {
  cb_campaigns : list CampaignRow; cb_approvals : list CampaignApprovalRow; cb_objectives : list ObjectiveRow;
  cb_instances : list InstanceRow }.
#[export] Instance CaDb_settable : Settable CaDb := fun d =>
  mkCaDb (cb_campaigns d) (cb_approvals d) (cb_objectives d) (cb_instances d).

Definition empty_ca_db : CaDb := mkCaDb [] [] [] [].

(** ** Row mappings *)

(** The columns of a campaign, with the creation time of its row. *)
Definition campaign_to_row (c : Campaign) (created : datetime) : CampaignRow :=
  mkCampaignRow (campaign_id c) (tenant_id c) (name c) (CampaignClassification.value (classification c))
    (CampaignKind.value (kind c)) (owner_id c) (CampaignState.value (state c))
    (er_engagement_id <$> engagement_ref c) (er_tenant_id <$> engagement_ref c)
    (_safety_policy_to_json (safety_policy c)) (_approval_policy_to_json (approval_policy c))
    (_schedule_to_json (campaign_schedule c)) (_rules_to_json (target_selection_rules c)) created (updated_at c)
    (version c).

Definition approval_to_row (campaign : uuid) (a : CampaignApproval) : CampaignApprovalRow :=
  mkCampaignApprovalRow (approval_id a) campaign (approver_id (record a)) (signature (record a))
    (approval_scope (record a)) (timestamp (record a)) (revoked a) (revoked_at a) (revoked_by a).
Definition objective_to_row (campaign : uuid) (o : CampaignObjective) : ObjectiveRow :=
  mkObjectiveRow (objective_id o) campaign (ObjectiveType.value (objective_type o)) (objective_description o)
    (criteria_to_json (evaluation_criteria o)) (ObjectiveState.value (objective_state o)) (sealed o).

Definition approval_from_row (r : CampaignApprovalRow) : option CampaignApproval :=
  id ← non_nil (am_id r);
  Some (mkApproval id (mkApprovalRecord (am_approver_id r) (am_approved_at r) (am_signature r) (am_approval_scope r))
          (am_revoked r) (am_revoked_at r) (am_revoked_by r)).
Definition objective_from_row (r : ObjectiveRow) : option CampaignObjective :=
  id ← non_nil (om_id r);
  ty ← of_text ObjectiveType.value all_objective_types (om_objective_type r);
  criteria ← criteria_from_json (om_evaluation_criteria_json r);
  st ← of_text ObjectiveState.value all_objective_states (om_state r);
  Some (mkObjective id ty (om_description r) criteria st (om_sealed r)).

Definition instance_to_row (i : CampaignInstance) : InstanceRow :=
  mkInstanceRow (instance_id i) (ci_campaign_id i) (ci_tenant_id i) (run_number i) (InstanceState.value (ci_state i))
    (targets_to_json (resolved_targets i)) (started_at i) (completed_at i) (failure_reason i) (ci_version i).

(** [_to_domain] of an instance. *)
Definition instance_from_row (r : InstanceRow) : option CampaignInstance :=
  targets ← targets_from_json (im_resolved_targets_json r);
  id ← non_nil (im_id r);
  campaign ← non_nil (im_campaign_id r);
  st ← of_text InstanceState.value all_instance_states (im_state r);
  Some (mkInstance id campaign (im_tenant_id r) (im_run_number r) st targets (im_started_at r) (im_completed_at r)
          (im_failure_reason r) (im_row_version r) []).

(** ** PgCampaignRepository *)

Section Repositories.
Context `{!RowOrder} `{!TenantColumns}.

(** [_to_domain] *)
Definition _to_domain (db : CaDb) (row : CampaignRow) : option Campaign :=
  let id := cm_id row in
  let ref := match cm_engagement_id row, cm_engagement_tenant_id row with
             | Some e, Some t => Some (mkEngagementRef e t)
             | _, _ => None
             end in
  aps ← mapM approval_from_row (child_rows am_campaign_id id (cb_approvals db));
  objs ← mapM objective_from_row (child_rows om_campaign_id id (cb_objectives db));
  cid ← non_nil id;
  cl ← of_text CampaignClassification.value all_classifications (cm_classification row);
  k ← of_text CampaignKind.value all_kinds (cm_kind row);
  st ← of_text CampaignState.value all_campaign_states (cm_state row);
  safety ← _safety_policy_from_json (cm_safety_policy_json row);
  policy ← _approval_policy_from_json (cm_approval_policy_json row);
  rules ← _rules_from_json (cm_target_selection_rules_json row);
  sched ← _schedule_from_json (cm_schedule_json row);
  Some (mkCampaign cid (cm_tenant_id row) (cm_name row) cl k (cm_owner_id row) st safety policy ref objs aps rules sched
          (cm_created_at row) (cm_updated_at row) (cm_row_version row) []).

Definition is_row (id : uuid) (t : TenantId) (r : CampaignRow) : bool :=
  bool_decide (cm_id r = id) && bool_decide (cm_tenant_id r = t).
Definition find_row (db : CaDb) (id : uuid) (t : TenantId) : option CampaignRow :=
  find (is_row id t) (cb_campaigns db).

(** [_sync_children]: the rows of the campaign are deleted and written again; the
    primary keys are the constraints they can violate. *)
Definition _sync_children (c : Campaign) (db : CaDb) : result StoreError CaDb :=
  let id := campaign_id c in
  let aps := replace_rows am_campaign_id id (map (approval_to_row id) (approvals c)) (cb_approvals db) in
  let objs := replace_rows om_campaign_id id (map (objective_to_row id) (objectives c)) (cb_objectives db) in
  if bool_decide (NoDup (map am_id aps)) && bool_decide (NoDup (map om_id objs))
  then Ok (mkCaDb (cb_campaigns db) aps objs (cb_instances db))
  else Err IntegrityError.

(** The statement that writes a row binds the [EntityId] of the engagement's tenant
    where the column holds a UUID. *)
Definition bindable (c : Campaign) : bool := binds_entity_id || negb (present (engagement_ref c)).

(** [save] *)
Definition save_campaign (c : Campaign) (db : CaDb) : result StoreError CaDb :=
  if negb (bindable c) then Err StatementError
  else
    match find_row db (campaign_id c) (tenant_id c) with
    | None =>
        if bool_decide (campaign_id c ∈ map cm_id (cb_campaigns db)) then Err IntegrityError
        else _sync_children c (db <| cb_campaigns ::= fun l => l ++ [campaign_to_row c (created_at c)] |>)
    | Some row =>
        if cm_row_version row =? expected_version (version c)
        then _sync_children c (db <| cb_campaigns ::= map (fun r =>
               if is_row (campaign_id c) (tenant_id c) r then campaign_to_row c (cm_created_at r) else r) |>)
        else Err (OptimisticLockConflict (campaign_id c) (expected_version (version c)) (cm_row_version row))
    end.

(** [find_by_id] *)
Definition find_campaign (id : uuid) (t : TenantId) (db : CaDb) : result StoreError (option Campaign) :=
  match find_row db id t with
  | None => Ok None
  | Some row => decoded (Some <$> _to_domain db row)
  end.

(** [find_active_by_tenant] *)
Definition find_active_by_tenant (t : TenantId) (db : CaDb) : result StoreError (list Campaign) :=
  decoded (mapM (_to_domain db) (select_order (filter (fun r => cm_tenant_id r = t ∧
    cm_state r ∈ [CampaignState.value CampaignState.RUNNING; CampaignState.value CampaignState.PAUSED])
    (cb_campaigns db)))).

(** [find_by_engagement] *)
Definition find_by_engagement (engagement : uuid) (t : TenantId) (db : CaDb) : result StoreError (list Campaign) :=
  decoded (mapM (_to_domain db) (select_order (filter (fun r => cm_tenant_id r = t ∧
    cm_engagement_id r = Some engagement) (cb_campaigns db)))).

(** [find_by_state] *)
Definition find_by_state (st : CampaignState.t) (t : TenantId) (db : CaDb) : result StoreError (list Campaign) :=
  decoded (mapM (_to_domain db) (select_order (filter (fun r => cm_tenant_id r = t ∧
    cm_state r = CampaignState.value st) (cb_campaigns db)))).

(** ** PgCampaignInstanceRepository *)

Definition is_instance_row (id : uuid) (t : TenantId) (r : InstanceRow) : bool :=
  bool_decide (im_id r = id) && bool_decide (im_tenant_id r = t).
Definition find_instance_row (db : CaDb) (id : uuid) (t : TenantId) : option InstanceRow :=
  find (is_instance_row id t) (cb_instances db).

(** What an update writes. *)
Definition updated_instance_row (i : CampaignInstance) (r : InstanceRow) : InstanceRow :=
  r <| im_state := InstanceState.value (ci_state i) |>
    <| im_resolved_targets_json := targets_to_json (resolved_targets i) |>
    <| im_completed_at := completed_at i |> <| im_failure_reason := failure_reason i |>
    <| im_row_version := ci_version i |>.

(** [save] *)
Definition save_instance (i : CampaignInstance) (db : CaDb) : result StoreError CaDb :=
  match find_instance_row db (instance_id i) (ci_tenant_id i) with
  | None =>
      if bool_decide (instance_id i ∈ map im_id (cb_instances db)) then Err IntegrityError
      else Ok (db <| cb_instances ::= fun l => l ++ [instance_to_row i] |>)
  | Some row =>
      if im_row_version row =? expected_version (ci_version i)
      then Ok (db <| cb_instances ::= map (fun r =>
             if is_instance_row (instance_id i) (ci_tenant_id i) r then updated_instance_row i r else r) |>)
      else Err (OptimisticLockConflict (instance_id i) (expected_version (ci_version i)) (im_row_version row))
  end.

(** [find_by_id] *)
Definition find_instance (id : uuid) (t : TenantId) (db : CaDb) : result StoreError (option CampaignInstance) :=
  match find_instance_row db id t with
  | None => Ok None
  | Some row => decoded (Some <$> instance_from_row row)
  end.

(** [ORDER BY run_number]: rows of one number come in any order. *)
Definition by_run (a b : InstanceRow) : Prop := im_run_number a <= im_run_number b.
#[export] Instance by_run_dec : RelDecision by_run.
Proof. intros a b. unfold by_run. apply _. Defined.

(** [find_by_campaign] *)
Definition find_by_campaign (campaign : uuid) (t : TenantId) (db : CaDb) : result StoreError (list CampaignInstance) :=
  decoded (mapM instance_from_row (merge_sort by_run (select_order (filter (fun r => im_campaign_id r = campaign ∧
    im_tenant_id r = t) (cb_instances db))))).

(** [find_running_by_tenant] *)
Definition find_running_by_tenant (t : TenantId) (db : CaDb) : result StoreError (list CampaignInstance) :=
  decoded (mapM instance_from_row (select_order (filter (fun r => im_tenant_id r = t ∧
    im_state r = InstanceState.value InstanceState.RUNNING) (cb_instances db)))).
End Repositories.

(** ** What the constructors accept *)

Record ok_campaign (c : Campaign) : Prop := {
  oc_id : campaign_id c ≠ 0;
  oc_safety : CampaignSafetyPolicyVO_new (max_concurrent_actions (safety_policy c))
    (auto_abort_on_detection (safety_policy c)) (auto_abort_on_objective_failure (safety_policy c))
    (blast_radius_ceiling (safety_policy c)) = Some (safety_policy c);
  oc_policy : 1 ≤ required_approver_count (approval_policy c);
  oc_approvals : ∀ a, a ∈ approvals c → approval_id a ≠ 0;
  oc_objectives : ∀ o, o ∈ objectives c → objective_id o ≠ 0
}.

Record ok_instance (i : CampaignInstance) : Prop := {
  oi_id : instance_id i ≠ 0;
  oi_campaign : ci_campaign_id i ≠ 0;
  oi_targets : ∀ x, x ∈ resolved_targets i → uuid_ok (asset_id x)
}.

(** The same campaign as far as the tables tell: its parts in any order, and no
    pending events. *)
Record same_campaign (a b : Campaign) : Prop := {
  sc_fields : (campaign_id a, tenant_id a, name a, classification a, kind a, owner_id a, state a, safety_policy a,
               (approval_policy a, engagement_ref a, target_selection_rules a, campaign_schedule a, created_at a,
                updated_at a, version a)) =
              (campaign_id b, tenant_id b, name b, classification b, kind b, owner_id b, state b, safety_policy b,
               (approval_policy b, engagement_ref b, target_selection_rules b, campaign_schedule b, created_at b,
                updated_at b, version b));
  sc_objectives : objectives a ≡ₚ objectives b;
  sc_approvals : approvals a ≡ₚ approvals b
}.
#[export] Instance same_campaign_equivalence : Equivalence same_campaign.
Proof.
  split.
  - intros c. by split.
  - intros a b [Hf H1 H2]. by split.
  - intros a b c [Hf H1 H2] [Hf' H1' H2']. split; [by rewrite Hf|by rewrite H1|by rewrite H2].
Qed.

(** The primary keys. *)
Record ca_keys (db : CaDb) : Prop := {
  ck_campaigns : NoDup (map cm_id (cb_campaigns db));
  ck_instances : NoDup (map im_id (cb_instances db))
}.

(** The rows of a campaign. *)
Record ca_holds (db : CaDb) (c : Campaign) : Prop := {
  hc_row : campaign_to_row c (created_at c) ∈ cb_campaigns db;
  hc_approvals : has_rows am_campaign_id (campaign_id c) (cb_approvals db)
                   (map (approval_to_row (campaign_id c)) (approvals c));
  hc_objectives : has_rows om_campaign_id (campaign_id c) (cb_objectives db)
                   (map (objective_to_row (campaign_id c)) (objectives c))
}.

(** ** Lemmas *)

(** *** Codecs *)

Lemma of_text_kind x : of_text CampaignKind.value all_kinds (CampaignKind.value x) = Some x.
Proof. by destruct x; vm_compute. Qed.
Lemma of_text_campaign_classification x :
  of_text CampaignClassification.value all_classifications (CampaignClassification.value x) = Some x.
Proof. by destruct x; vm_compute. Qed.
Lemma of_text_campaign_state x : of_text CampaignState.value all_campaign_states (CampaignState.value x) = Some x.
Proof. by destruct x; vm_compute. Qed.
Lemma of_text_objective_type x : of_text ObjectiveType.value all_objective_types (ObjectiveType.value x) = Some x.
Proof. by destruct x; vm_compute. Qed.
Lemma of_text_objective_state x : of_text ObjectiveState.value all_objective_states (ObjectiveState.value x) = Some x.
Proof. by destruct x; vm_compute. Qed.
Lemma of_text_instance_state x : of_text InstanceState.value all_instance_states (InstanceState.value x) = Some x.
Proof. by destruct x; vm_compute. Qed.

(** A list of encoded items, read with [or []]. *)
Lemma items_round {A} (enc : A → Json) (dec : Json → option A) (l : list A) :
  (∀ x, x ∈ l → dec (enc x) = Some x) →
  (if negb (py_truthy (JArr (map enc l))) then Some []
   else match JArr (map enc l) with JArr js => mapM dec js | _ => None end) = Some l.
Proof.
  intros Hdec. destruct l as [|x l]; [done|]. cbn [py_truthy map length negb].
  rewrite bool_decide_eq_false_2 by done. cbn [negb]. change (enc x :: map enc l) with (map enc (x :: l)).
  apply mapM_Some_2. induction (x :: l) as [|y l' IH]; constructor; [apply Hdec; left|].
  apply IH. intros z Hz. apply Hdec. by right.
Qed.

Lemma safety_round p : CampaignSafetyPolicyVO_new (max_concurrent_actions p) (auto_abort_on_detection p)
    (auto_abort_on_objective_failure p) (blast_radius_ceiling p) = Some p →
  _safety_policy_from_json (_safety_policy_to_json p) = Some p.
Proof. intros Hp. unfold _safety_policy_from_json, _safety_policy_to_json. json_fields. exact Hp. Qed.

Lemma ca_policy_round p : 1 ≤ required_approver_count p →
  _approval_policy_from_json (_approval_policy_to_json p) = Some p.
Proof.
  intros Hp. unfold _approval_policy_from_json, _approval_policy_to_json. json_fields. rewrite strs_round.
  cbn [mbind option_bind py_int py_str]. unfold ApprovalPolicy_new. rewrite (proj2 (Z.ltb_ge _ _)) by lia. by destruct p.
Qed.

Lemma schedule_round s : _schedule_from_json (_schedule_to_json s) = Some s.
Proof.
  destruct s as [x|]; [|done]. unfold _schedule_from_json, _schedule_to_json. json_fields. rewrite strs_round.
  cbn [mbind option_bind]. rewrite opt_str_round. by destruct x.
Qed.

Lemma rules_round l : _rules_from_json (_rules_to_json l) = Some l.
Proof. apply (items_round rule_item rule_of_item). intros [] _. unfold rule_of_item, rule_item. by json_fields. Qed.

Lemma criteria_round c : criteria_from_json (criteria_to_json c) = Some c.
Proof. unfold criteria_from_json, criteria_to_json. json_fields. rewrite str_dict_round. by destruct c. Qed.

Lemma resolved_round l : (∀ x, x ∈ l → uuid_ok (asset_id x)) → targets_from_json (targets_to_json l) = Some l.
Proof.
  intros Hl. apply (items_round target_item target_of_item). intros x Hx. unfold target_of_item, target_item.
  json_fields. rewrite uuid_round by auto. by destruct x.
Qed.

Lemma campaign_approval_round id a : approval_id a ≠ 0 → approval_from_row (approval_to_row id a) = Some a.
Proof. intros Ha. unfold approval_from_row. simpl. rewrite non_nil_ok by done. by destruct a as [? []]. Qed.

Lemma ca_objective_round id o : objective_id o ≠ 0 → objective_from_row (objective_to_row id o) = Some o.
Proof.
  intros Ho. unfold objective_from_row, objective_to_row. cbn [om_id om_objective_type om_evaluation_criteria_json om_state].
  rewrite non_nil_ok by done. cbn [mbind option_bind]. rewrite of_text_objective_type. cbn [mbind option_bind].
  rewrite criteria_round. cbn [mbind option_bind]. rewrite of_text_objective_state. by destruct o.
Qed.

Lemma instance_round i : ok_instance i → instance_from_row (instance_to_row i) = Some (i <| ci_pending_events := [] |>).
Proof.
  intros [Hid Hc Ht]. unfold instance_from_row, instance_to_row.
  cbn [im_id im_campaign_id im_resolved_targets_json im_state]. rewrite resolved_round by done.
  cbn [mbind option_bind]. rewrite !non_nil_ok by done. cbn [mbind option_bind]. by rewrite of_text_instance_state.
Qed.

(** *** Tables *)

Section StoreLemmas.
Context `{!RowOrder} `{!TenantColumns}.

Lemma ca_find_row_unique db id row : ca_keys db → row ∈ cb_campaigns db → cm_id row = id →
  find_row db id (cm_tenant_id row) = Some row.
Proof.
  intros [Hnd _] Hin <-. unfold find_row.
  induction (cb_campaigns db) as [|x l IH]; [by apply not_elem_of_nil in Hin|].
  apply NoDup_cons in Hnd as [Hx Hnd]. simpl. unfold is_row at 1.
  apply elem_of_cons in Hin as [->|Hin]; [by rewrite !bool_decide_eq_true_2|].
  rewrite bool_decide_eq_false_2; [by apply IH|]. intros Heq. apply Hx. rewrite Heq.
  by apply list_elem_of_fmap_2.
Qed.

Lemma ca_find_row_some db id t row : find_row db id t = Some row →
  row ∈ cb_campaigns db ∧ cm_id row = id ∧ cm_tenant_id row = t.
Proof. unfold find_row, is_row. intros [Hin Hb]%find_some. apply list_elem_of_In in Hin. by guards. Qed.

Lemma find_instance_row_some db id t row : find_instance_row db id t = Some row →
  row ∈ cb_instances db ∧ im_id row = id ∧ im_tenant_id row = t.
Proof. unfold find_instance_row, is_instance_row. intros [Hin Hb]%find_some. apply list_elem_of_In in Hin. by guards. Qed.

(** The row of a campaign, decoded. *)
Lemma ca_decode db c : ca_holds db c → ok_campaign c →
  ∃ c', _to_domain db (campaign_to_row c (created_at c)) = Some c' ∧ same_campaign c' c ∧ pending_events c' = [].
Proof.
  intros [Hrow Haps Hobjs] [Hid Hsafe Hpol Ha Ho]. unfold _to_domain.
  cbn [campaign_to_row cm_id cm_tenant_id cm_name cm_classification cm_kind cm_owner_id cm_state cm_engagement_id
    cm_engagement_tenant_id cm_safety_policy_json cm_approval_policy_json cm_schedule_json
    cm_target_selection_rules_json cm_created_at cm_updated_at cm_row_version].
  destruct (has_rows_decode _ _ _ _ approval_from_row _ Haps) as (aps & -> & Hpa).
  { intros a Hin. by apply campaign_approval_round, Ha. }
  cbn [mbind option_bind].
  destruct (has_rows_decode _ _ _ _ objective_from_row _ Hobjs) as (objs & -> & Hpo).
  { intros o Hin. by apply ca_objective_round, Ho. }
  cbn [mbind option_bind]. rewrite non_nil_ok by done. cbn [mbind option_bind].
  rewrite of_text_campaign_classification. cbn [mbind option_bind]. rewrite of_text_kind. cbn [mbind option_bind].
  rewrite of_text_campaign_state. cbn [mbind option_bind]. rewrite safety_round by done. cbn [mbind option_bind].
  rewrite ca_policy_round by done. cbn [mbind option_bind]. rewrite rules_round. cbn [mbind option_bind].
  rewrite schedule_round. cbn [mbind option_bind]. eexists. split; [done|]. split; [|done]. split; [|done..].
  simpl. by destruct (engagement_ref c) as [[]|].
Qed.

Lemma ca_holds_find db c : ca_keys db → ca_holds db c → ok_campaign c →
  ∃ c', find_campaign (campaign_id c) (tenant_id c) db = Ok (Some c') ∧ same_campaign c' c ∧ pending_events c' = [].
Proof.
  intros Hk Hh Hok. destruct (ca_decode db c Hh Hok) as (c' & Hdec & Hs & Hp). exists c'. split; [|done].
  unfold find_campaign. pose proof (ca_find_row_unique db (campaign_id c) _ Hk (hc_row _ _ Hh) eq_refl) as Hf.
  simpl in Hf. by rewrite Hf, Hdec.
Qed.

Lemma ca_sync_children_spec c db db' : _sync_children c db = Ok db' →
  cb_campaigns db' = cb_campaigns db ∧ cb_instances db' = cb_instances db ∧
  (campaign_to_row c (created_at c) ∈ cb_campaigns db → ca_holds db' c) ∧
  ∀ o, campaign_id o ≠ campaign_id c → ca_holds db o → ca_holds db' o.
Proof.
  unfold _sync_children. set (id := campaign_id c).
  destruct (replace_rows_spec am_campaign_id id (map (approval_to_row id) (approvals c)) (cb_approvals db)) as [A1 A2];
    [by apply map_key|].
  destruct (replace_rows_spec om_campaign_id id (map (objective_to_row id) (objectives c)) (cb_objectives db))
    as [O1 O2]; [by apply map_key|].
  case_match; [|done]. intros [= <-]. simpl. split_and!; [done..|by split|].
  intros o Hne [Hrow B1 B2]. split; simpl; auto.
Qed.

(** What a save leaves in the tables. *)
Lemma ca_save_holds c db db' : ca_keys db → save_campaign c db = Ok db' →
  (∀ row, find_row db (campaign_id c) (tenant_id c) = Some row → cm_created_at row = created_at c) →
  ca_keys db' ∧ cb_instances db' = cb_instances db ∧ ca_holds db' c ∧
  (∀ o, campaign_id o ≠ campaign_id c → ca_holds db o → ca_holds db' o) ∧
  (∀ row, row ∈ cb_campaigns db' →
     row = campaign_to_row c (created_at c) ∨ row ∈ cb_campaigns db ∧ cm_id row ≠ campaign_id c).
Proof.
  intros Hk Hsave Hcreated.
  assert (∃ rows, _sync_children c (db <| cb_campaigns := rows |>) = Ok db' ∧
    upserted cm_id (campaign_id c) (campaign_to_row c (created_at c)) (cb_campaigns db) rows)
    as (rows & Hsync & [Hnd Hin Hkeep Hall]).
  { unfold save_campaign in Hsave. destruct (negb (bindable c)); [done|].
    destruct (find_row db (campaign_id c) (tenant_id c)) as [row|] eqn:Hf.
    - destruct (cm_row_version row =? _); [|done]. specialize (Hcreated row eq_refl).
      apply ca_find_row_some in Hf as (Hin & Hid & Hten). eexists. split; [exact Hsave|].
      rewrite <- Hcreated, <- Hid. apply (updated_row cm_id _ (fun r => campaign_to_row c (cm_created_at r)));
        [apply Hk|done| | |done]; unfold is_row; [by rewrite Hten, !bool_decide_eq_true_2|].
      intros r Hr. by guards.
    - case_bool_decide as Hnew; [done|]. eexists. split; [exact Hsave|].
      apply (inserted_row cm_id (campaign_to_row c (created_at c))); [apply Hk|done]. }
  apply ca_sync_children_spec in Hsync as (Hrows & Hinst & Hc & Hothers). simpl in *.
  split_and!; [|done|by apply Hc| |by rewrite Hrows].
  - split; [by rewrite Hrows|rewrite Hinst; apply Hk].
  - intros o Hne [Hr H1 H2]. apply Hothers; [done|]. split; simpl; auto.
Qed.

(** A stored instance is found. *)
Lemma instance_found db i : ca_keys db → instance_to_row i ∈ cb_instances db → ok_instance i →
  find_instance (instance_id i) (ci_tenant_id i) db = Ok (Some (i <| ci_pending_events := [] |>)).
Proof.
  intros [_ Hnd] Hin Hok. unfold find_instance.
  assert (find_instance_row db (instance_id i) (ci_tenant_id i) = Some (instance_to_row i)) as ->.
  { unfold find_instance_row. induction (cb_instances db) as [|x l IH]; [by apply not_elem_of_nil in Hin|].
    apply NoDup_cons in Hnd as [Hx Hnd]. simpl. unfold is_instance_row at 1.
    apply elem_of_cons in Hin as [<-|Hin]; [by rewrite !bool_decide_eq_true_2|].
    rewrite bool_decide_eq_false_2; [by apply IH|]. intros Heq. apply Hx. rewrite Heq.
    exact (list_elem_of_fmap_2 im_id _ _ Hin). }
  unfold decoded. by rewrite instance_round.
Qed.

(** Saving an instance: a new row, or the row of the stored one updated. *)
Lemma save_instance_rows i db db' : ca_keys db → save_instance i db = Ok db' →
  (∀ row, find_instance_row db (instance_id i) (ci_tenant_id i) = Some row →
     updated_instance_row i row = instance_to_row i) →
  ca_keys db' ∧ cb_campaigns db' = cb_campaigns db ∧ (∀ c, ca_holds db c → ca_holds db' c) ∧
  upserted im_id (instance_id i) (instance_to_row i) (cb_instances db) (cb_instances db').
Proof.
  intros Hk Hsave Hupd.
  assert (∃ rows, db' = db <| cb_instances := rows |> ∧
    upserted im_id (instance_id i) (instance_to_row i) (cb_instances db) rows) as (rows & -> & Hup).
  { unfold save_instance in Hsave.
    destruct (find_instance_row db (instance_id i) (ci_tenant_id i)) as [row|] eqn:Hf.
    - destruct (im_row_version row =? _); [|done]. injection Hsave as <-. specialize (Hupd row eq_refl).
      apply find_instance_row_some in Hf as (Hin & Hid & Hten). eexists. split; [done|].
      rewrite <- Hupd, <- Hid. apply (updated_row im_id _ (updated_instance_row i)); [apply Hk|done| | |done];
        unfold is_instance_row; [by rewrite Hten, !bool_decide_eq_true_2|].
      intros r Hr. by guards.
    - case_bool_decide as Hnew; [done|]. injection Hsave as <-. eexists. split; [done|].
      apply (inserted_row im_id (instance_to_row i)); [apply Hk|done]. }
  split_and!; [split; simpl; [apply Hk|apply Hup]|done| |done].
  intros c [Hr H1 H2]. by split.
Qed.

(** The instances of a campaign, when the instances are stored as [enc] writes
    them. *)
Lemma find_by_campaign_spec campaign t db :
  (∀ row, row ∈ cb_instances db → ∃ i, row = instance_to_row i ∧ ok_instance i) →
  ∃ is', find_by_campaign campaign t db = Ok is' ∧
    map instance_to_row is' ≡ₚ filter (fun r => im_campaign_id r = campaign ∧ im_tenant_id r = t) (cb_instances db) ∧
    ∀ i, i ∈ is' → ok_instance i ∧ ci_campaign_id i = campaign ∧ ci_tenant_id i = t ∧ ci_pending_events i = [].
Proof.
  intros Hrows. unfold find_by_campaign. set (P := fun r => im_campaign_id r = campaign ∧ im_tenant_id r = t).
  set (rows := merge_sort by_run (select_order (filter P (cb_instances db)))).
  assert (rows ≡ₚ filter P (cb_instances db)) as Hp by (unfold rows; by rewrite merge_sort_Permutation, select_order_perm).
  assert (∀ r, r ∈ rows → P r ∧ ∃ i, r = instance_to_row i ∧ ok_instance i) as Hall.
  { intros r. rewrite Hp. intros [HP Hin]%list_elem_of_filter. auto. }
  assert (∃ is', mapM instance_from_row rows = Some is' ∧ map instance_to_row is' = rows ∧
    ∀ i, i ∈ is' → ok_instance i ∧ P (instance_to_row i) ∧ ci_pending_events i = []) as (is' & Hm & Hmap & His).
  { clear Hp. clearbody rows. induction rows as [|r rows IH].
    { exists []. split_and!; [done..|]. by intros i []%not_elem_of_nil. }
    destruct IH as (is' & Hm & Hmap & His); [intros r' Hr'; apply Hall; by right|].
    destruct (Hall r ltac:(left)) as (HP & i & -> & Hok). exists (i <| ci_pending_events := [] |> :: is').
    cbn [mapM]. rewrite instance_round by done. cbn [mbind option_bind]. rewrite Hm. split_and!; [done|simpl; by rewrite Hmap|].
    intros j [->|Hj]%elem_of_cons; [|by apply His]. split_and!; [|done..]. by destruct Hok. }
  exists is'. split; [by rewrite Hm|]. split; [by rewrite Hmap|]. intros i Hi.
  destruct (His i Hi) as (Hok & [HP1 HP2] & Hpe). done.
Qed.
End StoreLemmas.

(** ** Properties *)

#[local] Existing Instance insertion_order.
(** A driver that binds id objects as UUIDs, and one that does not. *)
Definition converting_driver : TenantColumns := {| binds_entity_id := true; uuid_equals_ulid := true |}.
Definition strict_driver : TenantColumns := {| binds_entity_id := false; uuid_equals_ulid := true |}.
#[local] Existing Instance converting_driver.

Lemma ok_approved : ok_campaign approved_campaign.
Proof.
  split; try done.
  - intros a. replace (approvals approved_campaign) with [mkApproval 41 (mkApprovalRecord "ann" 4 "sig" "campaign") false None None]
      by (by vm_compute). by intros ->%list_elem_of_singleton.
  - intros o. vm_compute objectives. by intros ->%list_elem_of_singleton.
Qed.

(** A campaign that is saved is found again: under its id and tenant the
    repository answers the same campaign, policies, engagement, rules and schedule
    included, with its objectives and approvals up to order and no pending event;
    every other stored campaign stays stored; and the next save of it is accepted
    only one version later: a copy of the same version, or one that two calls have
    changed, conflicts. *)
Theorem saved_campaign_is_found `{!RowOrder} `{!TenantColumns} c db db' : ca_keys db → ok_campaign c →
  (∀ row, find_row db (campaign_id c) (tenant_id c) = Some row → cm_created_at row = created_at c) →
  save_campaign c db = Ok db' →
  (∃ c', find_campaign (campaign_id c) (tenant_id c) db' = Ok (Some c') ∧ same_campaign c' c ∧ pending_events c' = []) ∧
  (∀ o, campaign_id o ≠ campaign_id c → ca_holds db o → ca_holds db' o) ∧
  (1 ≤ version c → ∀ o, campaign_id o = campaign_id c → tenant_id o = tenant_id c → bindable o = true →
     version o ≠ version c + 1 → 2 ≤ version o →
     save_campaign o db' = Err (OptimisticLockConflict (campaign_id c) (version o - 1) (version c))).
Proof.
  intros Hk Hok Hcr Hsave. destruct (ca_save_holds c db db' Hk Hsave Hcr) as (Hk' & _ & Hh & Hothers & _).
  split_and!; [by apply ca_holds_find|done|]. intros Hv o Hid Ht Hb Hne Hov.
  unfold save_campaign. rewrite Hid, Ht, Hb. cbn [negb].
  pose proof (ca_find_row_unique db' (campaign_id c) _ Hk' (hc_row _ _ Hh) eq_refl) as Hf. simpl in Hf. rewrite Hf.
  simpl. unfold expected_version. rewrite (proj2 (Z.ltb_ge (version o - 1) 1)) by lia.
  by rewrite (proj2 (Z.eqb_neq _ _)) by lia.
Qed.

(** The first save, and a copy that two calls have changed since. *)
Definition late_campaign : Campaign :=
  run_all run_call [CScheduleOneShot acme 100 5; CStart acme 71 1 6] approved_campaign.

Lemma saved_campaign_is_found_witness : ∃ db', save_campaign approved_campaign empty_ca_db = Ok db' ∧
  (∃ c', find_campaign 9 acme db' = Ok (Some c') ∧ same_campaign c' approved_campaign ∧ pending_events c' = []) ∧
  save_campaign late_campaign db' =
    Err (OptimisticLockConflict 9 (version late_campaign - 1) (version approved_campaign)).
Proof.
  destruct (save_campaign approved_campaign empty_ca_db) as [db'|e] eqn:Hsave; [|by vm_compute in Hsave].
  exists db'. split; [done|].
  destruct (saved_campaign_is_found approved_campaign empty_ca_db db') as (Hf & _ & Hlate);
    [by split; constructor|apply ok_approved|done|exact Hsave|].
  assert (version late_campaign = 7 ∧ version approved_campaign = 5) as [Hl Ha] by (split; vm_compute; reflexivity).
  split; [exact Hf|]. apply (Hlate ltac:(rewrite Ha; lia) late_campaign).
  - vm_compute; reflexivity.
  - vm_compute; reflexivity.
  - vm_compute; reflexivity.
  - rewrite Hl, Ha. lia.
  - rewrite Hl. lia.
Defined.

(** Where the driver does not bind an id object for a UUID column, no campaign
    that refers to an engagement can be saved, new or not; as every campaign the
    service creates refers to one, nothing is ever stored then. *)
Theorem engagement_tenant_must_bind `{!TenantColumns} c db :
  binds_entity_id = false → engagement_ref c ≠ None → save_campaign c db = Err StatementError.
Proof. intros Hb Hr. unfold save_campaign, bindable. rewrite Hb. by destruct (engagement_ref c). Qed.

Lemma engagement_tenant_must_bind_witness :
  @save_campaign strict_driver approved_campaign empty_ca_db
  = Err StatementError.
Proof. apply engagement_tenant_must_bind; [reflexivity|by_compute]. Defined.
