(* ===== verification/CampaignRootApp.v ===== *)
(** [campaign.CampaignApplicationService]: every command validates its input, loads
    campaigns and instances in a unit of work, calls them, saves, commits, and
    publishes; the scheduler is asked inside the transaction, the graph after it. *)
From stdpp Require Import base tactics list strings relations.
From Stdlib Require Import ZArith Lia.
From S2P Require Import Prelude PyTypes PyParse PyJson IsoText PyStore CampaignRootData CampaignRoot CampaignInstance Recurrence CampaignGate CampaignPorts CampaignRootStore.

Local Open Scope Z_scope.

(** ** The world of the service *)

(** [ValueErr] is a [ValueError] that no command catches; [GraphFailure] is raised
    after the commit. *)
Inductive CaError :=
  | ApplicationValidationError (field reason : string)
  | ApplicationNotFoundError (resource : string) (id : uuid)
  | ValueErr
  | Domain (e : CampaignDomainException)
  | Store (e : StoreError)
  | PortFailure
  | GraphFailure.

Inductive CaPublished :=
  | OfCampaign (e : DomainEvent CampaignEvent)
  | OfInstance (e : DomainEvent InstanceEvent).

(** The view of the open session, the durable tables, what was handed to the
    publisher, and the calls of the two ports. *)
Record World := mkWorld {
  w_view : CaDb; w_db : CaDb; w_published : list CaPublished; w_scheduler : list SchedulerCall;
  w_graph : list GraphCall }.
#[export] Instance World_settable : Settable World := fun w =>
  mkWorld (w_view w) (w_db w) (w_published w) (w_scheduler w) (w_graph w).

Definition empty_world : World := mkWorld empty_ca_db empty_ca_db [] [] [].

Abbreviation App := (PyM World CaError).

(** [async with self._uow_factory() as uow: body]; what is not committed is rolled
    back. *)
Definition in_uow {A} (body : App A) : App A :=
  fun w => let '(r, w') := body (w <| w_view := w_db w |>) in (r, w' <| w_view := w_db w' |>).

Definition uow_commit : App unit := modify (fun w => w <| w_db := w_view w |>).

(** [_publish]: a failing publisher is logged and ignored; the events handed to it
    are recorded. *)
Definition _publish (events : list CaPublished) : App unit :=
  modify (fun w => w <| w_published ::= fun l => l ++ events |>).

Definition campaign_events (c : Campaign) : list CaPublished := map OfCampaign (pending_events c).
Definition instance_events (i : CampaignInstance) : list CaPublished := map OfInstance (ci_pending_events i).

(** ** Validation *)

(** [validate_uuid] of a [UUID]; an [EntityId] always passes. *)
Definition validate_uuid (u : uuid) (field : string) : App unit :=
  raise_if (u =? 0) (ApplicationValidationError field "must be a valid non-nil UUID").

(** [validate_str] with [allow_empty=False] *)
Definition validate_str (value field : string) (max_len : nat) : App unit :=
  raise_if (blank value) (ApplicationValidationError field "must not be empty");;
  raise_if (bool_decide (max_len < String.length value)%nat)
    (ApplicationValidationError field ("must be at most " +:+ str_int (Z.of_nat max_len) +:+ " characters")).

(** [Enum(text)], with the [ValueError] turned into a validation error. *)
Definition parse_enum {A} (field : string) (text : A → string) (all : list A) (s : string) : App A :=
  match of_text text all s with
  | Some x => mret x
  | None => raise (ApplicationValidationError field ("Unknown " +:+ s))
  end.

(** A constructor that may raise [ValueError]. *)
Definition construct {A} (x : option A) : App A := match x with Some a => mret a | None => raise ValueErr end.

(** [datetime.fromisoformat(text).replace(tzinfo=UTC)], caught. *)
Definition parse_time (field text : string) : App datetime :=
  match wall_clock text with
  | Some t => mret t
  | None => raise (ApplicationValidationError field "Invalid format; expected ISO-8601")
  end.

(** ** Data transfer objects *)

Record CampaignDTO := mkCampaignDTO {
  cd_campaign_id : uuid; cd_tenant_id : TenantId; cd_name : string; cd_classification : string; cd_kind : string;
  cd_state : string; cd_owner_id : string; cd_engagement_id : option uuid; cd_safety_policy : CampaignSafetyPolicyVO;
  cd_objectives : list (uuid * string * string * string * bool * ObjectiveEvaluationCriteria);
  cd_target_selection_rules : list TargetSelectionRule; cd_created_at : datetime; cd_updated_at : datetime }.

Definition _to_campaign_dto (c : Campaign) : CampaignDTO :=
  mkCampaignDTO (campaign_id c) (tenant_id c) (name c) (CampaignClassification.value (classification c))
    (CampaignKind.value (kind c)) (CampaignState.value (state c)) (owner_id c) (er_engagement_id <$> engagement_ref c)
    (safety_policy c)
    (map (fun o => (objective_id o, ObjectiveType.value (objective_type o), objective_description o,
                    ObjectiveState.value (objective_state o), sealed o, evaluation_criteria o)) (objectives c))
    (target_selection_rules c) (created_at c) (updated_at c).

Record CampaignInstanceDTO := mkInstanceDTO {
  id_instance_id : uuid; id_campaign_id : uuid; id_tenant_id : TenantId; id_run_number : Z; id_state : string;
  id_resolved_target_count : Z; id_started_at : datetime; id_completed_at : option datetime }.

Definition _to_instance_dto (i : CampaignInstance) : CampaignInstanceDTO :=
  mkInstanceDTO (instance_id i) (ci_campaign_id i) (ci_tenant_id i) (run_number i) (InstanceState.value (ci_state i))
    (Z.of_nat (length (resolved_targets i))) (started_at i) (completed_at i).

(** ** Steps of a unit of work *)

(** A query of a repository. *)
Definition query {A} (q : CaDb → result StoreError A) : App A := fun w =>
  match q (w_view w) with Ok a => (Ok a, w) | Err e => (Err (Store e), w) end.

(** A save of a repository. *)
Definition write (f : CaDb → result StoreError CaDb) : App unit := fun w =>
  match f (w_view w) with
  | Ok db => (Ok tt, w <| w_view := db |>)
  | Err e => (Err (Store e), w)
  end.

(** A method of a loaded object: its result and the object it leaves. *)
Definition on_object {O A} (m : PyM O CampaignDomainException A) (o : O) : App (A * O) :=
  match m o with
  | (Ok a, o') => mret (a, o')
  | (Err e, _) => raise (Domain e)
  end.

(** A refusal of a gate service, or an exception of its port. *)
Definition gated {A} (r : result GateError A) : App A :=
  match r with
  | Ok a => mret a
  | Err (Refused e) => raise (Domain e)
  | Err PortRaised => raise PortFailure
  end.

Section Service.
Context `{!RowOrder} `{!TenantColumns} `{!EngagementStatusPort} `{!InventoryQueryPort} `{!OptionalPorts}.

Definition load (id : uuid) (t : TenantId) : App Campaign :=
  found ← query (find_campaign id t);
  match found with
  | Some c => mret c
  | None => raise (ApplicationNotFoundError "Campaign" id)
  end.

Definition load_instance (id : uuid) (t : TenantId) : App CampaignInstance :=
  found ← query (find_instance id t);
  match found with
  | Some i => mret i
  | None => raise (ApplicationNotFoundError "CampaignInstance" id)
  end.

(** One call of the campaign. *)
Definition call_campaign (x : call) (c : Campaign) : App Campaign :=
  '(_, c) ← on_object (run_call x) c;
  mret c.

Definition save_and_commit (c : Campaign) : App unit :=
  write (save_campaign c);;
  uow_commit.

(** [campaign.campaign_schedule.scheduler_job_id = await ...register(...)], when
    there is a scheduler. *)
Definition ask_scheduler (x : SchedulerCall) (s : SchedulerPort) : App string := fun w =>
  let w' := w <| w_scheduler ::= fun l => l ++ [x] |> in
  match answer_register s (w_scheduler w) x with
  | Ok job => (Ok job, w')
  | Err _ => (Err PortFailure, w')
  end.

Definition register_job (request : option SchedulerCall) (c : Campaign) : App Campaign :=
  match scheduler_port with
  | None => mret c
  | Some s =>
      x ← construct request;
      job ← ask_scheduler x s;
      call_campaign (CAssignJob job) c
  end.

(** [cancel_schedule] of the port; an exception is logged. *)
Definition cancel_job (campaign : uuid) (t : TenantId) (job : string) : App unit :=
  match scheduler_port with
  | None => mret tt
  | Some _ => modify (fun w => w <| w_scheduler ::= fun l => l ++ [CancelJob campaign t job] |>)
  end.

(** [list_active_schedules] *)
Definition list_schedules (t : TenantId) (s : SchedulerPort) : App (list ScheduleEntry) := fun w =>
  let w' := w <| w_scheduler ::= fun l => l ++ [ListActive t] |> in
  match answer_list s (w_scheduler w) t with
  | Ok entries => (Ok entries, w')
  | Err _ => (Err PortFailure, w')
  end.

(** A write to the graph, when there is one. *)
Definition graph_write (x : GraphCall) : App unit := fun w =>
  match graph_port with
  | None => (Ok tt, w)
  | Some g =>
      let w' := w <| w_graph ::= fun l => l ++ [x] |> in
      match g (w_graph w) x with
      | Ok _ => (Ok tt, w')
      | Err _ => (Err GraphFailure, w')
      end
  end.

Definition campaign_node (c : Campaign) : GraphCall :=
  UpsertCampaignNode (tenant_id c) (campaign_id c) (CampaignClassification.value (classification c))
    (CampaignKind.value (kind c)) (CampaignState.value (state c)).

(** The transaction of a command that calls one method of the campaign. *)
Definition update_campaign (t : TenantId) (id : uuid) (x : call) : App Campaign :=
  in_uow (
    c ← load id t;
    c ← call_campaign x c;
    save_and_commit c;;
    mret c).

(** ** Commands *)

Record CreateCampaignCommand := mkCreateCampaign {
  cc_tenant_id : TenantId; cc_name : string; cc_classification : string; cc_kind : string; cc_owner_id : string;
  cc_engagement_id : uuid; cc_max_concurrent_actions : Z; cc_auto_abort_on_detection : bool;
  cc_auto_abort_on_objective_failure : bool; cc_blast_radius_ceiling : string;
  cc_scenario_template_id : option uuid; cc_task_graph_id : option uuid; cc_task_graph_version : option string }.

(** [_write_campaign_graph] *)
Definition _write_campaign_graph (c : Campaign) (template graph : option uuid) (version_ : option string) : App unit :=
  graph_write (campaign_node c);;
  match template with
  | Some tpl => graph_write (UpsertBasedOnEdge (tenant_id c) (campaign_id c) tpl)
  | None => mret tt
  end;;
  match graph, version_ with
  | Some g, Some v =>
      if empty_str v then mret tt
      else
        graph_write (UpsertTaskGraphNode (tenant_id c) g v);;
        graph_write (UpsertUsesGraphEdge (tenant_id c) (campaign_id c) g v)
  | _, _ => mret tt
  end.

Definition create_campaign (cmd : CreateCampaignCommand) (new_id : uuid) (now : datetime) : App CampaignDTO :=
  validate_uuid (cc_engagement_id cmd) "engagement_id";;
  validate_str (cc_name cmd) "name" 512;;
  validate_str (cc_owner_id cmd) "owner_id" 256;;
  cl ← parse_enum "classification" CampaignClassification.value all_classifications (cc_classification cmd);
  k ← parse_enum "kind" CampaignKind.value all_kinds (cc_kind cmd);
  safety ← construct (CampaignSafetyPolicyVO_new (cc_max_concurrent_actions cmd) (cc_auto_abort_on_detection cmd)
                        (cc_auto_abort_on_objective_failure cmd) (cc_blast_radius_ceiling cmd));
  policy ← construct (ApprovalPolicy_new 1 [] (QuorumType.value QuorumType.UNANIMOUS));
  id ← construct (non_nil new_id);
  c ← match create id (cc_tenant_id cmd) (cc_name cmd) cl k (cc_owner_id cmd) safety policy
              (Some (mkEngagementRef (cc_engagement_id cmd) (cc_tenant_id cmd))) now with
      | Ok c => mret c
      | Err e => raise (Domain e)
      end;
  in_uow (save_and_commit c);;
  _publish (campaign_events c);;
  _write_campaign_graph c (cc_scenario_template_id cmd) (cc_task_graph_id cmd) (cc_task_graph_version cmd);;
  mret (_to_campaign_dto c).

Definition app_add_objective (t : TenantId) (id : uuid) (ty description condition : string)
    (params : list (string * string)) (new_id : uuid) (now : datetime) : App unit :=
  validate_uuid id "campaign_id";;
  validate_str description "description" 1024;;
  validate_str condition "condition_type" 64;;
  ty ← parse_enum "objective_type" ObjectiveType.value all_objective_types ty;
  c ← update_campaign t id (CAddObjective t
        (mkObjective new_id ty description (mkCriteria condition params) ObjectiveState.PENDING false) now);
  _publish (campaign_events c).

Definition app_add_target_selection_rule (t : TenantId) (id : uuid) (attr op val : string) (now : datetime) : App unit :=
  validate_uuid id "campaign_id";;
  validate_str attr "attribute" 256;;
  validate_str op "operator" 64;;
  validate_str val "value" 512;;
  c ← update_campaign t id (CAddRule t (mkRule attr op val) now);
  _publish (campaign_events c).

Definition app_submit_for_approval (t : TenantId) (id : uuid) (now : datetime) : App unit :=
  validate_uuid id "campaign_id";;
  c ← update_campaign t id (CSubmit t now);
  _publish (campaign_events c).

(** [approval_scope] keeps its default. *)
Definition approve_campaign (t : TenantId) (id : uuid) (approver sig : string) (new_id : uuid) (now : datetime)
    : App unit :=
  validate_uuid id "campaign_id";;
  validate_str approver "approver_id" 256;;
  validate_str sig "signature" 1024;;
  c ← update_campaign t id (CGrant t approver sig now "campaign" new_id);
  _publish (campaign_events c).

(** The failure threshold and the blackout periods keep their defaults. *)
Definition schedule_campaign (t : TenantId) (id : uuid) (cron : string) (hours : Z) (now : datetime) : App unit :=
  validate_uuid id "campaign_id";;
  validate_str cron "cron_expression" 256;;
  raise_if (hours <? 1) (ApplicationValidationError "execution_window_hours" "must be at least 1");;
  c ← in_uow (
    c ← load id t;
    c ← call_campaign (CSchedule t cron hours now 3 []) c;
    c ← register_job (register c) c;
    save_and_commit c;;
    mret c);
  _publish (campaign_events c).

(** What [start_campaign_instance] and [process_scheduled_fire] check of a campaign,
    and the targets they resolve. *)
Definition resolve_for (c : Campaign) (t : TenantId) : App SelectedTargetSet :=
  raise_if (bool_decide (length (target_selection_rules c) = 0%nat))
    (ApplicationValidationError "campaign" "Campaign has no target selection rules");;
  match engagement_ref c with
  | None => raise (ApplicationValidationError "campaign" "Campaign has no EngagementRef")
  | Some ref => gated (resolve (target_selection_rules c) ref t)
  end.

(** The transaction of [start_campaign_instance]. *)
Definition start_tx (t : TenantId) (id new_id : uuid) (now : datetime) : App (Campaign * CampaignInstance) :=
  c ← load id t;
  gated (authorize c t);;
  targets ← resolve_for c t;
  existing ← query (find_by_campaign id t);
  new ← construct (non_nil new_id);
  let i := CI.start new id t (Z.of_nat (length existing) + 1) targets now in
  c ← call_campaign (CStart t new (Z.of_nat (length targets)) now) c;
  write (save_instance i);;
  save_and_commit c;;
  mret (c, i).

Definition start_campaign_instance (t : TenantId) (id new_id : uuid) (now : datetime) : App CampaignInstanceDTO :=
  validate_uuid id "campaign_id";;
  '(c, i) ← in_uow (start_tx t id new_id now);
  _publish (campaign_events c ++ instance_events i);;
  graph_write (UpsertInstanceNode t (instance_id i) id (run_number i) None);;
  graph_write (UpsertInstanceOfEdge t (instance_id i) id (run_number i));;
  graph_write (UpsertCampaignNode t id (CampaignClassification.value (classification c)) (CampaignKind.value (kind c))
                 (CampaignState.value (state c)));;
  mret (_to_instance_dto i).

Definition abort_campaign_instance (t : TenantId) (id instance : uuid) (reason : string) (now : datetime) : App unit :=
  validate_uuid id "campaign_id";;
  validate_uuid instance "instance_id";;
  validate_str reason "reason" 1024;;
  '(c, i) ← in_uow (
    i ← load_instance instance t;
    c ← load id t;
    '(_, i) ← on_object (CI.run_call (CI.CAbort t reason now)) i;
    c ← call_campaign (CFail t instance reason now) c;
    write (save_instance i);;
    save_and_commit c;;
    mret (c, i));
  _publish (campaign_events c ++ instance_events i).

Definition archive_campaign (t : TenantId) (id : uuid) (now : datetime) : App unit :=
  validate_uuid id "campaign_id";;
  c ← update_campaign t id (CArchive t now);
  _publish (campaign_events c).

Definition get_campaign (t : TenantId) (id : uuid) : App (option CampaignDTO) :=
  validate_uuid id "campaign_id";;
  found ← in_uow (query (find_campaign id t));
  mret (_to_campaign_dto <$> found).

(** The job of a schedule, when there is one that is not empty. *)
Definition job_of_schedule (c : Campaign) : option string :=
  job ← campaign_schedule c ≫= scheduler_job_id;
  if empty_str job then None else Some job.

Definition cancel_campaign_schedule (t : TenantId) (id : uuid) (job : string) (now : datetime) : App unit :=
  validate_uuid id "campaign_id";;
  '(c, job) ← in_uow (
    c ← load id t;
    let job := default job (job_of_schedule c) in
    c ← call_campaign (CCancelSchedule t now) c;
    save_and_commit c;;
    mret (c, job));
  cancel_job id t job;;
  _publish (campaign_events c).

Definition pause_recurring_campaign (t : TenantId) (id : uuid) (reason : string) (now : datetime) : App CampaignDTO :=
  validate_uuid id "campaign_id";;
  validate_str reason "reason" 512;;
  '(c, job) ← in_uow (
    c ← load id t;
    let job := job_of_schedule c in
    c ← call_campaign (CPause t reason now) c;
    save_and_commit c;;
    mret (c, job));
  match job with Some job => cancel_job id t job | None => mret tt end;;
  _publish (campaign_events c);;
  mret (_to_campaign_dto c).

Definition resume_recurring_campaign (t : TenantId) (id : uuid) (now : datetime) : App CampaignDTO :=
  validate_uuid id "campaign_id";;
  c ← in_uow (
    c ← load id t;
    c ← call_campaign (CResumeRecurring t now) c;
    c ← (if present (campaign_schedule c) then register_job (register c) c else mret c);
    save_and_commit c;;
    mret c);
  _publish (campaign_events c);;
  mret (_to_campaign_dto c).

(** A fire that is skipped: what was called is saved, committed and published. *)
Definition skipped_fire (c : Campaign) : App (option CampaignInstanceDTO) :=
  save_and_commit c;;
  _publish (campaign_events c);;
  mret None.

(** A fire that starts an instance. *)
Definition start_fire (t : TenantId) (id new_id : uuid) (number : Z) (fire_time now : datetime) (c : Campaign)
    : App (option CampaignInstanceDTO) :=
  targets ← resolve_for c t;
  new ← construct (non_nil new_id);
  let i := CI.start new id t number targets now in
  c ← call_campaign (CFire t number fire_time now) c;
  c ← call_campaign (CStart t new (Z.of_nat (length targets)) now) c;
  write (save_instance i);;
  save_and_commit c;;
  _publish (campaign_events c ++ instance_events i);;
  mret (Some (_to_instance_dto i)).

(** The last publication of the source comes after its unit of work, here as its
    last step; [consecutive_skips] comes with the command. *)
Definition fire_tx (t : TenantId) (id : uuid) (skips : Z) (fire_time : datetime) (new_id : uuid) (now : datetime)
    : App (option CampaignInstanceDTO) :=
  c ← load id t;
  match campaign_schedule c with
  | None => raise (ApplicationValidationError "campaign" "Campaign has no RecurrencePolicy; cannot process scheduled fire")
  | Some policy =>
      if is_in_blackout (to_recurrence_policy policy) fire_time
      then
        c ← call_campaign (CSkip t "BlackoutPeriod" fire_time (skips + 1) now) c;
        skipped_fire c
      else
        existing ← query (find_by_campaign id t);
        if bool_decide (length (filter (fun i => ci_state i ∈ running_states) existing) ≠ 0%nat)
        then
          let consecutive_skips := skips + 1 in
          let exceeded := _MAX_SKIP_COUNT <=? consecutive_skips in
          let reason := if exceeded then "MaxSkipsExceeded" else "InstanceAlreadyRunning" in
          c ← call_campaign (CSkip t reason fire_time consecutive_skips now) c;
          c ← (if exceeded then call_campaign (CPauseFailures consecutive_skips now) c else mret c);
          skipped_fire c
        else
          '(stop, c) ← on_object (check_consecutive_failures existing now) c;
          if (stop : bool) then skipped_fire c
          else start_fire t id new_id (Z.of_nat (length existing) + 1) fire_time now c
  end.

Definition process_scheduled_fire (t : TenantId) (id : uuid) (fire_text : string) (skips : Z) (new_id : uuid)
    (now : datetime) : App (option CampaignInstanceDTO) :=
  validate_uuid id "campaign_id";;
  fire_time ← parse_time "scheduled_fire_time" fire_text;
  in_uow (fire_tx t id skips fire_time new_id now).

Definition schedule_one_shot_campaign (t : TenantId) (id : uuid) (fire_text : string) (now : datetime) : App unit :=
  validate_uuid id "campaign_id";;
  fire_at ← parse_time "fire_at" fire_text;
  c ← in_uow (
    c ← load id t;
    c ← call_campaign (CScheduleOneShot t fire_at now) c;
    c ← register_job (Some (register_one_shot c fire_at)) c;
    save_and_commit c;;
    mret c);
  _publish (campaign_events c).

(** The loop of [recover_schedules] over the active schedules: the campaigns with an
    instance that is starting. *)
Fixpoint starting_campaigns (t : TenantId) (active : list ScheduleEntry) : App (list string) :=
  match active with
  | [] => mret []
  | entry :: active =>
      let cid := s ← dget entry "campaign_id"; if empty_str s then None else Some s in
      match cid with
      | None => starting_campaigns t active
      | Some s =>
          match u ← uuid_of_text s; non_nil u with
          | None => starting_campaigns t active
          | Some campaign =>
              instances ← query (find_by_campaign campaign t);
              rest ← starting_campaigns t active;
              mret (if existsb (fun i => bool_decide (ci_state i = InstanceState.STARTING)) instances
                    then s :: rest else rest)
          end
      end
  end.

Definition recover_schedules (t : TenantId) : App (list ScheduleEntry) :=
  match scheduler_port with
  | None => mret []
  | Some s =>
      starting ← in_uow (active ← list_schedules t s; starting_campaigns t active);
      active ← list_schedules t s;
      mret (recover_after_restart active starting)
  end.
End Service.

(** ** The commands as one type *)

Inductive command :=
  | CreateCampaign (cmd : CreateCampaignCommand) (new_id : uuid)
  | AddObjective (t : TenantId) (id : uuid) (ty description condition : string) (params : list (string * string))
      (new_id : uuid)
  | AddRule (t : TenantId) (id : uuid) (attr op val : string)
  | Submit (t : TenantId) (id : uuid)
  | Approve (t : TenantId) (id : uuid) (approver sig : string) (new_id : uuid)
  | Schedule (t : TenantId) (id : uuid) (cron : string) (hours : Z)
  | StartInstance (t : TenantId) (id new_id : uuid)
  | AbortInstance (t : TenantId) (id instance : uuid) (reason : string)
  | Archive (t : TenantId) (id : uuid)
  | GetCampaign (t : TenantId) (id : uuid)
  | CancelSchedule (t : TenantId) (id : uuid) (job : string)
  | PauseRecurring (t : TenantId) (id : uuid) (reason : string)
  | ResumeRecurring (t : TenantId) (id : uuid)
  | ProcessFire (t : TenantId) (id : uuid) (fire_text : string) (skips : Z) (new_id : uuid)
  | ScheduleOneShot (t : TenantId) (id : uuid) (fire_text : string)
  | RecoverSchedules (t : TenantId).

(** [uuid7()] is not nil, and gives a new campaign or instance an id of its own. *)
Definition command_ok (c : command) (w : World) : Prop :=
  match c with
  | CreateCampaign _ new_id => new_id ∉ map cm_id (cb_campaigns (w_db w))
  | AddObjective _ _ _ _ _ _ new_id | Approve _ _ _ _ new_id => new_id ≠ 0
  | StartInstance _ _ new_id | ProcessFire _ _ _ _ new_id => new_id ∉ map im_id (cb_instances (w_db w))
  | _ => True
  end.

Section Worlds.
Context `{!RowOrder} `{!TenantColumns} `{!EngagementStatusPort} `{!InventoryQueryPort} `{!OptionalPorts}.

Definition run_command (c : command) (now : datetime) : App unit :=
  match c with
  | CreateCampaign cmd id => create_campaign cmd id now;; mret tt
  | AddObjective t id ty d cond ps nid => app_add_objective t id ty d cond ps nid now
  | AddRule t id a o v => app_add_target_selection_rule t id a o v now
  | Submit t id => app_submit_for_approval t id now
  | Approve t id a s nid => approve_campaign t id a s nid now
  | Schedule t id cr h => schedule_campaign t id cr h now
  | StartInstance t id nid => start_campaign_instance t id nid now;; mret tt
  | AbortInstance t id i r => abort_campaign_instance t id i r now
  | Archive t id => archive_campaign t id now
  | GetCampaign t id => get_campaign t id;; mret tt
  | CancelSchedule t id j => cancel_campaign_schedule t id j now
  | PauseRecurring t id r => pause_recurring_campaign t id r now;; mret tt
  | ResumeRecurring t id => resume_recurring_campaign t id now;; mret tt
  | ProcessFire t id f k nid => process_scheduled_fire t id f k nid now;; mret tt
  | ScheduleOneShot t id f => schedule_one_shot_campaign t id f now
  | RecoverSchedules t => recover_schedules t;; mret tt
  end.

(** A world some sequence of commands leads to from the empty one. *)
Inductive reachable_world : World → Prop :=
  | rw_empty : reachable_world empty_world
  | rw_command w c now : reachable_world w → command_ok c w → reachable_world (run_command c now w).2.
End Worlds.

(** ** Specification *)

(** The service schedules without blackout periods. *)
Definition no_blackout (c : Campaign) : Prop := ∀ s, campaign_schedule c = Some s → blackout_periods s = [].

(** The rows of a governed campaign. *)
Record stored (db : CaDb) (c : Campaign) : Prop := {
  sd_governed : governed c;
  sd_ok : ok_campaign c;
  sd_open : no_blackout c;
  sd_holds : ca_holds db c
}.

(** All rows are of such campaigns, and of sound runs. *)
Record good (db : CaDb) : Prop := {
  gd_keys : ca_keys db;
  gd_campaigns : ∀ row, row ∈ cb_campaigns db → ∃ c, row = campaign_to_row c (created_at c) ∧ stored db c;
  gd_instances : ∀ row, row ∈ cb_instances db → ∃ i, row = instance_to_row i ∧ ok_instance i ∧ CI.sound i
}.

(** Nothing that is durable or published changed. *)
Definition rolled_back (w w' : World) : Prop :=
  w_db w' = w_db w ∧ w_published w' = w_published w ∧ w_graph w' = w_graph w.

(** ** Lemmas *)

(** *** Calls *)

(** What a call may be given. *)
Definition ok_args (x : call) : Prop :=
  match x with
  | CAddObjective _ o _ => objective_id o ≠ 0
  | CGrant _ _ _ _ _ aid => aid ≠ 0
  | CSchedule _ _ _ _ _ blackouts => blackouts = []
  | _ => True
  end.

(** What a call keeps of a campaign beside its rules. *)
Record fit (c c' : Campaign) : Prop := {
  ft_fixed : (campaign_id c', tenant_id c', created_at c') = (campaign_id c, tenant_id c, created_at c);
  ft_ok : ok_campaign c → ok_campaign c';
  ft_open : no_blackout c → no_blackout c'
}.
#[export] Instance fit_preorder : PreOrder fit.
Proof.
  split; [by intros c; split|]. intros a b c [Hf Ho Hp] [Hf' Ho' Hp']. split; [congruence|auto..].
Qed.

Lemma revoked_ids approver now by_ l l' : revoke_first approver now by_ l = Some l' →
  map approval_id l' = map approval_id l.
Proof.
  revert l'. induction l as [|a l IH]; intros l'; [done|]. cbn [revoke_first].
  destruct (negb (revoked a) && _); [by intros [= <-]|].
  destruct (revoke_first approver now by_ l) as [l2|]; [|done]. intros [= <-]. simpl. by rewrite (IH l2).
Qed.

Lemma mapped_ids {A} (id : A → uuid) l l' : map id l' = map id l → (∀ a, a ∈ l → id a ≠ 0) → ∀ a, a ∈ l' → id a ≠ 0.
Proof.
  intros Heq Hl a Ha. assert (id a ∈ map id l) as (b & -> & Hb)%list_elem_of_fmap; [|by apply Hl].
  rewrite <- Heq. by apply list_elem_of_fmap_2.
Qed.

Lemma call_fit x c : ok_args x → wp (run_call x) (λ _, fit c) (λ _, fit c) c.
Proof.
  intros Hx. destruct x; simpl in *; unfold_campaign; wp_run; stable; try reflexivity; split; try done;
    intros Hc; try (by destruct Hc); try (destruct Hc as [H1' H2' H3' H4' H5']; split; simpl; try done).
  all: try first
    [ apply (all_snoc (λ o, objective_id o ≠ 0)); [exact H5'|exact Hx]
    | apply (all_snoc (λ a, approval_id a ≠ 0)); [exact H4'|exact Hx]
    | by eapply mapped_ids; [eapply revoked_ids; eassumption|exact H4']
    | eapply mapped_ids; [|exact H5']; rewrite map_map; apply map_ext; by intros [] ].
  all: unfold no_blackout in *; simpl; try (intros s0 [= <-]; done).
  intros s. destruct (campaign_schedule c) as [s0|]; [|done]. intros [= <-]. by apply (Hc s0).
Qed.

(** *** Copies of a stored campaign *)

Lemma ca_same_governed a b : same_campaign a b → governed b → governed a.
Proof.
  intros [Hf Ho Ha] [Hpo Hve Hun Hqu Hsu Hdr Hre Hap Hsc].
  assert (active_approvals a ≡ₚ active_approvals b) as Hact by (unfold active_approvals; by rewrite Ha).
  unfold quorum_met in Hqu. rewrite <- (Permutation_length Hact) in Hqu. unfold active_approvals in *.
  destruct a, b; simpl in *; simplify_eq. split; simpl; auto.
  - intros Hs. apply Permutation_nil_r. by rewrite <- (Hdr Hs).
  - unfold active_approvals. simpl. by rewrite Hact.
Qed.

Lemma ca_same_ok a b : same_campaign a b → ok_campaign b → ok_campaign a.
Proof.
  intros [Hf Ho Ha] [H1 H2 H3 H4 H5]. destruct a, b; simpl in *; simplify_eq.
  split; simpl; auto; intros x; rewrite ?Ho, ?Ha; auto.
Qed.

(** A campaign that may be saved: a new one, or one that calls have made from the
    stored one of its id. *)
Record derived (db : CaDb) (c : Campaign) : Prop := {
  dv_governed : governed c;
  dv_ok : ok_campaign c;
  dv_open : no_blackout c;
  dv_origin : ∀ row, row ∈ cb_campaigns db → cm_id row = campaign_id c → cm_created_at row = created_at c
}.

Lemma derived_call db c x r c' : derived db c → ok_args x → call_ok c x → run_call x c = (r, c') → derived db c'.
Proof.
  intros [Hg Hok Ho Hrows] Hx Hcall Hrun.
  pose proof (campaign_call_keeps x c Hg Hcall) as Hk. pose proof (call_fit x c Hx) as Hf.
  unfold wp in Hk, Hf. rewrite Hrun in Hk, Hf.
  assert (governed c' ∧ fit c c') as [Hg' [Hfix Hok' Ho']] by (by destruct r).
  injection Hfix as Hid _ Hcr. split; [done|auto|auto|]. intros row. rewrite Hid, Hcr. apply Hrows.
Qed.

Section Service.
Context `{!RowOrder} `{!TenantColumns} `{!EngagementStatusPort} `{!InventoryQueryPort} `{!OptionalPorts}.

(** A stored campaign is found as a copy that calls may start from. *)
Lemma ca_good_find id t db c : good db → find_campaign id t db = Ok (Some c) →
  derived db c ∧ campaign_id c = id ∧ tenant_id c = t ∧ pending_events c = [] ∧
  (∃ row, find_row db id t = Some row ∧ cm_row_version row = version c).
Proof.
  intros [[Hk Hki] Hrows _]. unfold find_campaign. destruct (find_row db id t) as [row|] eqn:Hr; [|done].
  pose proof Hr as (Hin & <- & <-)%ca_find_row_some. destruct (Hrows row Hin) as (c0 & -> & Hst).
  pose proof Hst as [Hg0 Hok0 Hop0 Hh0]. destruct (ca_decode db c0 Hh0 Hok0) as (c' & Hd & Hs & Hp).
  unfold decoded. rewrite Hd. intros [= <-].
  assert (campaign_id c' = campaign_id c0 ∧ tenant_id c' = tenant_id c0 ∧ created_at c' = created_at c0 ∧
    version c' = version c0 ∧ campaign_schedule c' = campaign_schedule c0) as (E1 & E2 & E3 & E4 & E5)
    by (destruct Hs as [Hf _ _]; destruct c', c0; simpl in *; by simplify_eq).
  split_and!; [split; [by eapply ca_same_governed|by eapply ca_same_ok|unfold no_blackout; by rewrite E5|]
              |done|done|done|].
  - intros row Hrow Hid. rewrite (nodup_key_inj cm_id _ row _ Hk Hrow Hin); [by rewrite E3|]. simpl. congruence.
  - eexists. split; [done|]. by rewrite E4.
Qed.

(** Saving a copy that calls have changed. *)
Lemma ca_save_good c db db' : good db → derived db c → save_campaign c db = Ok db' →
  good db' ∧ stored db' c ∧ cb_instances db' = cb_instances db.
Proof.
  intros [Hk Hrows Hins] [Hg Hok Ho Hcr] Hsave.
  destruct (ca_save_holds c db db' Hk Hsave) as (Hk' & Hi & Hh & Hothers & Hall).
  { intros row (Hin & Hid & Ht)%ca_find_row_some. by apply Hcr. }
  assert (stored db' c) as Hst by (by split).
  split_and!; [split; [done| |by rewrite Hi]|done|done]. intros row [->|[Hold Hne]]%Hall.
  - by exists c.
  - destruct (Hrows row Hold) as (c1 & -> & [Hg1 Hok1 Ho1 Hh1]). exists c1. split; [done|]. split; [done..|].
    by apply Hothers.
Qed.

(** The version that two calls have moved on is refused. *)
Lemma ca_late_save_conflicts c db row : find_row db (campaign_id c) (tenant_id c) = Some row → bindable c = true →
  2 ≤ version c → cm_row_version row ≠ version c - 1 →
  save_campaign c db = Err (OptimisticLockConflict (campaign_id c) (version c - 1) (cm_row_version row)).
Proof.
  intros Hr Hb Hv Hne. unfold save_campaign. rewrite Hb, Hr. cbn [negb]. unfold expected_version.
  rewrite (proj2 (Z.ltb_ge (version c - 1) 1)) by lia. by rewrite (proj2 (Z.eqb_neq _ _) Hne).
Qed.

(** A run that is saved. *)
Lemma save_instance_good i db db' : good db → ok_instance i → CI.sound i →
  (∀ row, find_instance_row db (instance_id i) (ci_tenant_id i) = Some row →
     updated_instance_row i row = instance_to_row i) →
  save_instance i db = Ok db' →
  good db' ∧ (∀ c, derived db c → derived db' c) ∧ instance_to_row i ∈ cb_instances db' ∧
  cb_campaigns db' = cb_campaigns db.
Proof.
  intros [Hk Hrows Hins] Hok Hs Hupd Hsave.
  destruct (save_instance_rows i db db' Hk Hsave Hupd) as (Hk' & Hc & Hh & [_ Hnew _ Hall]).
  assert (∀ c, stored db c → stored db' c) as Hstored by (intros c [Hg Ho Hp Hhc]; split; auto).
  split_and!; [split; [done| |]| |done|done].
  - intros row. rewrite Hc. intros Hin. destruct (Hrows row Hin) as (c & -> & Hst). exists c. auto.
  - intros row [->|[Hold _]]%Hall; [by exists i|auto].
  - intros c [Hg Ho Hp Hcr]. split; [done..|]. by rewrite Hc.
Qed.
End Service.

(** *** Transactions *)

(** A unit of work that committed. *)
Definition committed (w w' : World) : Prop :=
  good (w_db w') ∧ w_published w' = w_published w ∧ w_graph w' = w_graph w.

Section Transactions.
Context `{!RowOrder} `{!TenantColumns} `{!EngagementStatusPort} `{!InventoryQueryPort} `{!OptionalPorts}.

Lemma wp_ca_in_uow {A} (body : App A) (Q : A → World → Prop) X w :
  wp body (λ a w', Q a (w' <| w_view := w_db w' |>)) (λ e w', X e (w' <| w_view := w_db w' |>))
    (w <| w_view := w_db w |>) → wp (in_uow body) Q X w.
Proof. unfold wp, in_uow. by destruct (body _) as [[]]. Qed.

Lemma wp_ca_query {A} (q : CaDb → result StoreError A) (Q : A → World → Prop) X w :
  (∀ a, q (w_view w) = Ok a → Q a w) → (∀ e, X e w) → wp (query q) Q X w.
Proof. intros HQ HX. unfold wp, query. destruct (q (w_view w)); auto. Qed.

Lemma wp_ca_write f (Q : unit → World → Prop) X w :
  (∀ db', f (w_view w) = Ok db' → Q tt (w <| w_view := db' |>)) → (∀ e, X e w) → wp (write f) Q X w.
Proof. intros HQ HX. unfold wp, write. destruct (f (w_view w)); auto. Qed.

Lemma wp_ca_load id t (Q : Campaign → World → Prop) X w :
  (∀ c, find_campaign id t (w_view w) = Ok (Some c) → Q c w) → (∀ e, X e w) → wp (load id t) Q X w.
Proof. intros HQ HX. unfold load. wp_step. apply wp_ca_query; [|done]. intros [c|] Hf; wp_run; auto. Qed.

Lemma ca_wp_on_object {O A} (m : PyM O CampaignDomainException A) o (Q : A * O → World → Prop) X w :
  (∀ a o', m o = (Ok a, o') → Q (a, o') w) → (∀ e, X e w) → wp (on_object m o) Q X w.
Proof. intros HQ HX. unfold on_object. destruct (m o) as [[a|e] o'] eqn:Hm; wp_run; auto. Qed.

Lemma wp_call_campaign x c (Q : Campaign → World → Prop) X w :
  (∀ c', run_call x c = (Ok tt, c') → Q c' w) → (∀ e, X e w) → wp (call_campaign x c) Q X w.
Proof.
  intros HQ HX. unfold call_campaign. wp_step. apply ca_wp_on_object; [|done]. intros [] c' Hrun. wp_run. auto.
Qed.

Lemma wp_gated {A} (r : result GateError A) (Q : A → World → Prop) X w :
  (∀ a, r = Ok a → Q a w) → (∀ e, X e w) → wp (gated r) Q X w.
Proof. intros HQ HX. unfold gated. destruct r as [a|[e|]]; wp_run; auto. Qed.

Lemma wp_ca_construct {A} (x : option A) (Q : A → World → Prop) X w :
  (∀ a, x = Some a → Q a w) → (∀ e, X e w) → wp (construct x) Q X w.
Proof. intros HQ HX. unfold construct. destruct x; wp_run; auto. Qed.

(** Validation changes nothing. *)
Lemma wp_ca_uuid u field (Q : unit → World → Prop) X w : (u ≠ 0 → Q tt w) → (∀ e, X e w) →
  wp (validate_uuid u field) Q X w.
Proof. intros HQ HX. unfold validate_uuid. wp_run; [done|]. apply HQ. by apply Z.eqb_neq. Qed.

Lemma wp_ca_str v field n (Q : unit → World → Prop) X w : Q tt w → (∀ e, X e w) → wp (validate_str v field n) Q X w.
Proof. intros HQ HX. unfold validate_str. by wp_run. Qed.

Lemma wp_ca_enum {A} field text (all : list A) v (Q : A → World → Prop) X w : (∀ a, Q a w) → (∀ e, X e w) →
  wp (parse_enum field text all v) Q X w.
Proof. intros HQ HX. unfold parse_enum. destruct (of_text _ _ _); wp_run; auto. Qed.

Lemma wp_ca_time field v (Q : datetime → World → Prop) X w : (∀ a, wall_clock v = Some a → Q a w) → (∀ e, X e w) →
  wp (parse_time field v) Q X w.
Proof. intros HQ HX. unfold parse_time. destruct (wall_clock v); wp_run; auto. Qed.

(** Saving what calls made of a stored campaign. *)
Lemma wp_save_and_commit c (Q : unit → World → Prop) X w : good (w_view w) → derived (w_view w) c →
  (∀ db', good db' → stored db' c → cb_instances db' = cb_instances (w_view w) →
     Q tt (w <| w_view := db' |> <| w_db := db' |>)) →
  (∀ e, X e w) → wp (save_and_commit c) Q X w.
Proof.
  intros Hgood Hd HQ HX. unfold save_and_commit, uow_commit. wp_step. apply wp_ca_write; [|done]. intros db' Hsave.
  wp_run. destruct (ca_save_good c _ db' Hgood Hd Hsave) as (? & ? & ?). auto.
Qed.

Lemma wp_register_job request c (Q : Campaign → World → Prop) X w : derived (w_view w) c →
  (∀ c' sch, derived (w_view w) c' → Q c' (w <| w_scheduler := sch |>)) →
  (∀ e sch, X e (w <| w_scheduler := sch |>)) → wp (register_job request c) Q X w.
Proof.
  intros Hd HQ HX. assert (w = w <| w_scheduler := w_scheduler w |>) as Hw by (by destruct w).
  unfold register_job, ask_scheduler. destruct scheduler_port as [s|].
  - wp_step. apply wp_ca_construct; [|intros e; rewrite Hw; apply HX]. intros x _. wp_step. unfold wp at 1.
    destruct (answer_register s (w_scheduler w) x) as [job|e]; [|apply HX].
    apply wp_call_campaign; [|intros e; apply HX]. intros c' Hrun. apply HQ. by apply (derived_call _ c (CAssignJob job) (Ok tt)).
  - wp_run. rewrite Hw. by apply HQ.
Qed.

Lemma wp_cancel_job id t job (Q : unit → World → Prop) X w : (∀ sch, Q tt (w <| w_scheduler := sch |>)) →
  wp (cancel_job id t job) Q X w.
Proof.
  intros HQ. unfold cancel_job. wp_run; [apply HQ|].
  replace w with (w <| w_scheduler := w_scheduler w |>) by (by destruct w). apply HQ.
Qed.

Lemma wp_graph_write x (Q : unit → World → Prop) X w : (∀ g, Q tt (w <| w_graph := g |>)) →
  (∀ g, X GraphFailure (w <| w_graph := g |>)) → wp (graph_write x) Q X w.
Proof.
  intros HQ HX. unfold wp, graph_write. destruct graph_port as [g|].
  - destruct (g (w_graph w) x); [apply HQ|apply HX].
  - replace w with (w <| w_graph := w_graph w |>) by (by destruct w). apply HQ.
Qed.

Lemma wp_list_schedules t s (Q : list ScheduleEntry → World → Prop) X w : (∀ l sch, Q l (w <| w_scheduler := sch |>)) →
  (∀ e sch, X e (w <| w_scheduler := sch |>)) → wp (list_schedules t s) Q X w.
Proof. intros HQ HX. unfold wp, list_schedules. destruct (answer_list s _ _); [apply HQ|apply HX]. Qed.
End Transactions.

(** Runs a transaction from a good view; what raises has rolled back. *)
Ltac tx_step :=
  lazymatch goal with
  | |- wp (in_uow _) _ _ _ => apply wp_ca_in_uow
  | |- wp (validate_uuid _ _) _ _ _ => apply wp_ca_uuid; [intros ?|]
  | |- wp (validate_str _ _ _) _ _ _ => apply wp_ca_str
  | |- wp (parse_enum _ _ _ _) _ _ _ => apply wp_ca_enum; [intros ?|]
  | |- wp (parse_time _ _) _ _ _ => apply wp_ca_time; [intros ? ?|]
  | |- wp (construct _) _ _ _ => apply wp_ca_construct; [intros ? ?|]
  | |- wp (gated _) _ _ _ => apply wp_gated; [intros ? ?|]
  | |- wp (query _) _ _ _ => apply wp_ca_query; [intros ? ?|]
  | |- wp (load _ _) _ _ _ => apply wp_ca_load; [intros ? ?|]
  | |- wp (call_campaign _ _) _ _ _ => apply wp_call_campaign; [intros ? ?|]
  | |- wp (cancel_job _ _ _) _ _ _ => apply wp_cancel_job; intros ?
  | |- wp (graph_write _) _ _ _ => apply wp_graph_write; intros ?
  | |- wp (register_job _ _) _ _ _ => apply wp_register_job; [|intros ? ? ?|intros ? ?]
  | |- wp (list_schedules _ _) _ _ _ => apply wp_list_schedules; [intros ? ?|intros ? ?]
  | |- wp (save_and_commit _) _ _ _ => apply wp_save_and_commit; [| |intros ? ? ? ?|]
  | |- wp (_publish _) _ _ _ => apply wp_modify
  | |- wp (get_campaign _ _) _ _ _ => unfold get_campaign
  | |- wp (update_campaign _ _ _) _ _ _ => unfold update_campaign
  | |- wp (skipped_fire _) _ _ _ => unfold skipped_fire
  | |- wp (resolve_for _ _) _ _ _ => unfold resolve_for
  | _ => wp_step
  end; cbv beta.

(** The facts of a loaded campaign. *)
Ltac loaded :=
  repeat match goal with
  | Hg : good ?db, H : find_campaign ?id ?t ?db = Ok (Some ?c) |- _ =>
      let Hd := fresh "Hd" in let Hid := fresh "Hid" in let Ht := fresh "Ht" in let Hp := fresh "Hp" in
      let Hr := fresh "Hr" in
      destruct (ca_good_find id t db c Hg H) as (Hd & Hid & Ht & Hp & Hr); clear H
  end.

#[local] Arguments run_call : simpl never.

Ltac raised := intros; left; by split_and!.
Ltac derive_from :=
  lazymatch goal with
  | Hd : derived ?db ?c, Hrun : run_call ?x ?c = (?r, ?c') |- derived ?db ?c' =>
      apply (derived_call db c x r c' Hd); [try done|try done|exact Hrun]
  end.
Ltac tx_run := repeat tx_step; try raised; simpl in *; loaded; try done; try (by derive_from).

Section Commands.
Context `{!RowOrder} `{!TenantColumns} `{!EngagementStatusPort} `{!InventoryQueryPort} `{!OptionalPorts}.

(** A command: when it returns the tables are good, when it raises nothing was
    committed, a failure of the graph excepted. *)
Definition safe {A} (m : App A) (w : World) : Prop :=
  wp m (λ _ w', good (w_db w')) (λ e w', rolled_back w w' ∨ (e = GraphFailure ∧ good (w_db w'))) w.

Lemma add_objective_safe t id ty d cond ps nid now w : good (w_db w) → nid ≠ 0 →
  safe (app_add_objective t id ty d cond ps nid now) w.
Proof. intros Hg Hn. unfold safe, app_add_objective. tx_run. Qed.
Lemma add_rule_safe t id a o v now w : good (w_db w) → safe (app_add_target_selection_rule t id a o v now) w.
Proof. intros Hg. unfold safe, app_add_target_selection_rule. tx_run. Qed.
Lemma ca_submit_safe t id now w : good (w_db w) → safe (app_submit_for_approval t id now) w.
Proof. intros Hg. unfold safe, app_submit_for_approval. tx_run. Qed.
Lemma approve_safe t id a s nid now w : good (w_db w) → nid ≠ 0 → safe (approve_campaign t id a s nid now) w.
Proof. intros Hg Hn. unfold safe, approve_campaign. tx_run. Qed.
Lemma ca_archive_safe t id now w : good (w_db w) → safe (archive_campaign t id now) w.
Proof. intros Hg. unfold safe, archive_campaign. tx_run. Qed.
Lemma get_safe t id w : good (w_db w) → safe (get_campaign t id) w.
Proof. intros Hg. unfold safe. tx_run. Qed.
Lemma cancel_safe t id job now w : good (w_db w) → safe (cancel_campaign_schedule t id job now) w.
Proof. intros Hg. unfold safe, cancel_campaign_schedule. tx_run. Qed.
Lemma pause_safe t id r now w : good (w_db w) → safe (pause_recurring_campaign t id r now) w.
Proof. intros Hg. unfold safe, pause_recurring_campaign. tx_run. Qed.
Lemma schedule_safe t id cron hours now w : good (w_db w) → safe (schedule_campaign t id cron hours now) w.
Proof. intros Hg. unfold safe, schedule_campaign. tx_run. Qed.
Lemma one_shot_safe t id text now w : good (w_db w) → safe (schedule_one_shot_campaign t id text now) w.
Proof. intros Hg. unfold safe, schedule_one_shot_campaign. tx_run. Qed.
Lemma ca_resume_safe t id now w : good (w_db w) → safe (resume_recurring_campaign t id now) w.
Proof. intros Hg. unfold safe, resume_recurring_campaign. tx_run. Qed.

(** A new campaign is stored as its creation made it. *)
Lemma created_derived db id t nm cl k owner safety policy ref now c : id ≠ 0 → id ∉ map cm_id (cb_campaigns db) →
  CampaignSafetyPolicyVO_new (max_concurrent_actions safety) (auto_abort_on_detection safety)
    (auto_abort_on_objective_failure safety) (blast_radius_ceiling safety) = Some safety →
  1 ≤ required_approver_count policy → create id t nm cl k owner safety policy ref now = Ok c → derived db c.
Proof.
  intros Hid Hfresh Hs Hp Hc. pose proof (ca_create_governed _ _ _ _ _ _ _ _ _ _ _ Hp Hc) as Hg. revert Hc.
  unfold create. do 2 (case_match; [done|]). intros [= <-]. split; [done|..].
  - split; try done; by intros ? []%not_elem_of_nil.
  - done.
  - intros row Hrow Heq. exfalso. apply Hfresh. simpl in Heq. rewrite <- Heq. by apply list_elem_of_fmap_2.
Qed.

Lemma new_safety n a b ceiling p : CampaignSafetyPolicyVO_new n a b ceiling = Some p →
  CampaignSafetyPolicyVO_new (max_concurrent_actions p) (auto_abort_on_detection p)
    (auto_abort_on_objective_failure p) (blast_radius_ceiling p) = Some p.
Proof. intros Hp. pose proof Hp as Hp'. unfold CampaignSafetyPolicyVO_new in Hp'. do 2 (case_match; [done|]). by injection Hp' as <-. Qed.

Lemma create_safe cmd nid now w : good (w_db w) → nid ∉ map cm_id (cb_campaigns (w_db w)) →
  safe (create_campaign cmd nid now) w.
Proof.
  intros Hg Hfresh. unfold safe, create_campaign, _write_campaign_graph. repeat tx_step; try raised; simpl in *; try done.
  all: try (intros; right; by split).
  all: match goal with H : non_nil _ = Some _ |- _ => apply non_nil_some in H as [? ->] end.
  all: eapply created_derived; [done|done|by eapply new_safety| |eassumption].
  all: match goal with H : ApprovalPolicy_new 1 _ _ = Some _ |- _ => by injection H as <- end.
Qed.
(** What a run is started with. *)
Record started (w w' : World) (t : TenantId) (id nid : uuid) (now : datetime) (c : Campaign) (i : CampaignInstance)
    : Prop := {
  st_target : i = CI.start nid id t (run_number i) (resolved_targets i) now;
  st_campaign : ∃ c0, find_campaign id t (w_db w) = Ok (Some c0) ∧ state c0 ∈ [CampaignState.APPROVED; CampaignState.SCHEDULED] ∧
    ∃ ref, engagement_ref c0 = Some ref ∧ cleared ref t ∧ resolve (target_selection_rules c0) ref t = Ok (resolved_targets i);
  st_running : campaign_id c = id ∧ tenant_id c = t ∧ state c = CampaignState.RUNNING;
  st_saved : good (w_db w') ∧ stored (w_db w') c ∧ instance_to_row i ∈ cb_instances (w_db w');
  st_quiet : w_published w' = w_published w ∧ w_graph w' = w_graph w
}.

Lemma run_ok {A} (m : PyM Campaign CampaignDomainException A) Q X c a c' : wp m Q X c → m c = (Ok a, c') → Q a c'.
Proof. intros Hm. unfold wp in Hm. by destruct (m c) as [[] ?]; intros [= <- <-]. Qed.

Lemma call_ids x c r c' : run_call x c = (r, c') → ok_args x → campaign_id c' = campaign_id c ∧ tenant_id c' = tenant_id c.
Proof.
  intros Hrun Hx. pose proof (call_fit x c Hx) as Hf. unfold wp in Hf. rewrite Hrun in Hf.
  assert (fit c c') as [Hfix _ _] by (by destruct r). by injection Hfix.
Qed.

(** Starting moves an approved or scheduled campaign to running, one version on. *)
Lemma start_call t nid n now c c' : run_call (CStart t nid n now) c = (Ok tt, c') →
  state c ∈ [CampaignState.APPROVED; CampaignState.SCHEDULED] ∧ state c' = CampaignState.RUNNING ∧ version c' = version c + 1.
Proof.
  apply (run_ok _ (λ _ c', state c ∈ [CampaignState.APPROVED; CampaignState.SCHEDULED] ∧ state c' = CampaignState.RUNNING ∧
    version c' = version c + 1) (λ _ _, True)). unfold run_call. unfold_campaign. wp_run; stable; try done. simpl. split_and!; [done|done|lia].
Qed.

Lemma fire_call t n at_ now c c' : run_call (CFire t n at_ now) c = (Ok tt, c') → version c' = version c + 1.
Proof.
  apply (run_ok _ (λ _ c', version c' = version c + 1) (λ _ _, True)). unfold run_call. unfold_campaign. wp_run; stable; try done.
  simpl. lia.
Qed.

(** A new run may be saved. *)
Lemma new_run_good db nid id t n targets now rules ref db' : good db → nid ∉ map im_id (cb_instances db) → nid ≠ 0 → id ≠ 0 →
  resolve rules ref t = Ok targets → save_instance (CI.start nid id t n targets now) db = Ok db' →
  good db' ∧ (∀ c, derived db c → derived db' c) ∧ instance_to_row (CI.start nid id t n targets now) ∈ cb_instances db' ∧
  cb_campaigns db' = cb_campaigns db.
Proof.
  intros Hg Hfresh Hn Hid [_ Ht]%resolved_in_scope Hsave. apply (save_instance_good _ db); [done| |apply CI.start_sound| |done].
  - split; [done|done|]. intros x Hx. by apply Ht.
  - intros row (Hin & Hi & _)%find_instance_row_some. exfalso. apply Hfresh. simpl in Hi. rewrite <- Hi. by apply list_elem_of_fmap_2.
Qed.

Lemma wp_start_tx t id nid now (Q : Campaign * CampaignInstance → World → Prop) X w :
  good (w_db w) → nid ∉ map im_id (cb_instances (w_db w)) → id ≠ 0 →
  (∀ c i w', started w w' t id nid now c i → Q (c, i) w') → (∀ e w', rolled_back w w' → X e w') →
  wp (start_tx t id nid now) Q X (w <| w_view := w_db w |>).
Proof.
  intros Hg Hfresh Hid HQ HX. unfold start_tx. repeat tx_step; try (intros; apply HX; by split_and!).
  apply wp_ca_write; [|intros; apply HX; by split_and!]. simpl in *. intros db' Hsave.
  match goal with H : non_nil _ = Some _ |- _ => apply non_nil_some in H as [Hn ->] end.
  match goal with H : find_campaign _ _ _ = _ |- _ => pose proof (conj H I) as Hfound end. loaded.
  destruct Hfound as [Hfound _].
  match goal with H : resolve _ _ _ = Ok _ |- _ => pose proof H as Hres end.
  destruct (new_run_good _ _ _ _ _ _ _ _ _ _ Hg Hfresh Hn Hid Hres Hsave) as (Hg' & Hder & Hin & _).
  repeat tx_step; try (intros; apply HX; by split_and!); simpl; [done|apply Hder; by derive_from|].
  match goal with H : run_call (CStart _ _ _ _) _ = _ |- _ =>
    destruct (call_ids _ _ _ _ H I) as [Hi Hj]; apply start_call in H as (Hst & Hst' & _) end.
  apply HQ. split; try done.
  - eexists. split; [exact Hfound|]. split; [done|]. eexists. split; [eassumption|]. split; [|done].
    match goal with H : authorize _ _ = Ok ?u |- _ => destruct u; apply authorize_spec in H as (ref & Href & Hcl) end.
    congruence.
  - split_and!; [congruence|congruence|done].
  - simpl. split_and!; [done|done|]. by match goal with H : cb_instances _ = cb_instances _ |- _ => rewrite H end.
Qed.
Lemma start_safe t id nid now w : good (w_db w) → nid ∉ map im_id (cb_instances (w_db w)) →
  safe (start_campaign_instance t id nid now) w.
Proof.
  intros Hg Hfresh. unfold safe, start_campaign_instance. tx_step. tx_step; [|raised].
  do 2 tx_step. apply wp_start_tx; [done|done|done| |intros e w' Hw; by left].
  intros c i w' [_ _ _ (Hg' & _ & _) _]. repeat tx_step; try (intros; right; by split). done.
Qed.

(** A stored run is found as it was saved. *)
Lemma good_find_instance id t db i : good db → find_instance id t db = Ok (Some i) →
  ok_instance i ∧ CI.sound i ∧ instance_id i = id ∧ ci_tenant_id i = t ∧
  ∃ i0, find_instance_row db id t = Some (instance_to_row i0) ∧ CI.fixed i = CI.fixed i0.
Proof.
  intros [_ _ Hins]. unfold find_instance. destruct (find_instance_row db id t) as [row|] eqn:Hr; [|done].
  pose proof Hr as (Hin & <- & <-)%find_instance_row_some. destruct (Hins row Hin) as (i0 & -> & Hok & Hs).
  rewrite instance_round by done. simpl. intros [= <-].
  split_and!; [by destruct Hok|by destruct Hs|done|done|]. by exists i0.
Qed.

(** Aborting a run. *)
Lemma aborted_run_good t reason now i u i' db db' : good db → find_instance (instance_id i) (ci_tenant_id i) db = Ok (Some i) →
  CI.run_call (CI.CAbort t reason now) i = (Ok u, i') → save_instance i' db = Ok db' →
  good db' ∧ (∀ c, derived db c → derived db' c) ∧ instance_to_row i' ∈ cb_instances db' ∧
  cb_campaigns db' = cb_campaigns db.
Proof.
  intros Hg Hf Hrun Hsave. destruct (good_find_instance _ _ _ _ Hg Hf) as (Hok & Hs & _ & _ & i0 & Hr & Hfix).
  pose proof (CI.call_follows_run (CI.CAbort t reason now) i) as Hfol. unfold wp in Hfol. rewrite Hrun in Hfol.
  destruct Hfol as (Hfix' & Hs' & _). pose proof Hfix' as Hids. unfold CI.fixed in Hids. injection Hids as E1 E2 E3 E4 E5 E6.
  apply (save_instance_good _ db); [done| |by apply Hs'| |done].
  - destruct Hok as [K1 K2 K3]. split; [by rewrite E1|by rewrite E2|by rewrite E5].
  - rewrite E1, E3, Hr. intros row [= <-]. rewrite <- Hfix' in Hfix. unfold CI.fixed in Hfix.
    destruct i', i0. simpl in *. by simplify_eq.
Qed.

Lemma abort_safe t id instance reason now w : good (w_db w) → safe (abort_campaign_instance t id instance reason now) w.
Proof.
  intros Hg. unfold safe, abort_campaign_instance, load_instance. repeat tx_step; try raised.
  apply ca_wp_on_object; [|raised]. intros u i' Hrun. repeat tx_step; try raised. apply wp_ca_write; [|raised]. simpl in *.
  intros db' Hsave. match goal with H : find_instance _ _ _ = _ |- _ => rename H into Hfi end.
  destruct (good_find_instance _ _ _ _ Hg Hfi) as (_ & _ & E1 & E2 & _). rewrite <- E1, <- E2 in Hfi.
  destruct (aborted_run_good _ _ _ _ _ _ _ _ Hg Hfi Hrun Hsave) as (Hg' & Hder & _). loaded.
  repeat tx_step; try raised; simpl; [done|apply Hder; by derive_from|done].
Qed.

(** The check of consecutive failures: the campaign is as it was unless it is
    paused. *)
Lemma check_failures_call existing now db c b c' : derived db c → campaign_schedule c ≠ None →
  check_consecutive_failures existing now c = (Ok b, c') → derived db c' ∧ (b = false → c' = c).
Proof.
  intros Hd Hs. apply (run_ok _ (λ b c', derived db c' ∧ (b = false → c' = c)) (λ _ _, True)).
  unfold check_consecutive_failures. wp_run; try done. unfold wp at 1.
  destruct (pause_recurring_due_to_failures _ now c) as [[[]|e] c1] eqn:Hrun; [|done].
  split; [|done]. apply (derived_call db c (CPauseFailures (max_consecutive_failures c0) now) (Ok tt) c1);
    [done|done|simpl; congruence|exact Hrun].
Qed.

(** A copy whose version the tables have not reached is never saved. *)
Lemma late_campaign_unsaved c db row db' : derived db c → find_row db (campaign_id c) (tenant_id c) = Some row →
  version c = cm_row_version row + 2 → 1 ≤ cm_row_version row → save_campaign c db ≠ Ok db'.
Proof.
  intros Hd Hr Hv Hpos. destruct (bindable c) eqn:Hb.
  - rewrite (ca_late_save_conflicts c db row); [done|done|done|lia|lia].
  - unfold save_campaign. by rewrite Hb.
Qed.

Lemma skip_call t reason at_ n now c c' : run_call (CSkip t reason at_ n now) c = (Ok tt, c') →
  campaign_schedule c' = campaign_schedule c.
Proof.
  apply (run_ok _ (λ _ c', campaign_schedule c' = campaign_schedule c) (λ _ _, True)). unfold run_call. unfold_campaign.
  by wp_run.
Qed.

(** A fire that is due calls the campaign twice, and its save is refused. *)
Lemma wp_start_fire t id nid n fire_time now c (Q : option CampaignInstanceDTO → World → Prop) X w :
  good (w_db w) → nid ∉ map im_id (cb_instances (w_db w)) → id ≠ 0 → find_campaign id t (w_db w) = Ok (Some c) →
  (∀ e w', rolled_back w w' → X e w') → wp (start_fire t id nid n fire_time now c) Q X (w <| w_view := w_db w |>).
Proof.
  intros Hg Hfresh Hid Hf HX. unfold start_fire. repeat tx_step; try (intros; apply HX; by split_and!).
  apply wp_ca_write; [|intros; apply HX; by split_and!]. simpl in *. intros db' Hsave. loaded.
  match goal with H : non_nil _ = Some _ |- _ => apply non_nil_some in H as [Hn ->] end.
  match goal with H : resolve _ _ _ = Ok _ |- _ => rename H into Hres end.
  match goal with H : run_call (CFire _ _ _ _) _ = _ |- _ => rename H into Hfire end.
  match goal with H : run_call (CStart _ _ _ _) _ = _ |- _ => rename H into Hstart end.
  destruct (new_run_good _ _ _ _ _ _ _ _ _ _ Hg Hfresh Hn Hid Hres Hsave) as (Hg' & Hder & _ & Hrows).
  assert (derived (w_db w) c'0) as Hd'.
  { apply (derived_call _ c' _ _ _) with (4 := Hstart); [|done|done]. by apply (derived_call _ c _ _ _) with (4 := Hfire). }
  destruct Hr as (row & Hrow & Hv). pose proof (dv_governed _ _ Hd) as Hgov. apply gv_version in Hgov.
  assert (campaign_id c'0 = id ∧ tenant_id c'0 = t) as [Hid' Ht'].
  { destruct (call_ids _ _ _ _ Hfire I), (call_ids _ _ _ _ Hstart I). split; congruence. }
  unfold save_and_commit. do 2 wp_step. apply wp_ca_write; [|intros; apply HX; by split_and!]. simpl. intros db2 Hsave2. exfalso.
  revert Hsave2. apply (late_campaign_unsaved _ _ row); [by apply Hder| | |lia].
  - unfold find_row. by rewrite Hrows, Hid', Ht'.
  - apply start_call in Hstart as (_ & _ & ->). apply fire_call in Hfire. lia.
Qed.

(** A scheduled fire skips, pauses or fails, and never starts a run. *)
Lemma wp_fire_tx t id skips fire_time nid now (Q : option CampaignInstanceDTO → World → Prop) X w :
  good (w_db w) → nid ∉ map im_id (cb_instances (w_db w)) → id ≠ 0 →
  (∀ w', good (w_db w') → cb_instances (w_db w') = cb_instances (w_db w) → Q None w') →
  (∀ e w', rolled_back w w' → X e w') → wp (fire_tx t id skips fire_time nid now) Q X (w <| w_view := w_db w |>).
Proof.
  intros Hg Hfresh Hid HQ HX. unfold fire_tx. repeat tx_step; try (intros; apply HX; by split_and!); simpl in *.
  all: match goal with H : find_campaign _ _ _ = _ |- _ => pose proof (conj H I) as Hfound end; loaded.
  all: try (done || by derive_from || by apply HQ).
  - match goal with H : run_call (CSkip _ _ _ _ _) c = _ |- _ => rename H into Hskip end.
    match goal with H : run_call (CPauseFailures _ _) _ = _ |- _ => rename H into Hpause end.
    pose proof (skip_call _ _ _ _ _ _ _ Hskip) as Hsch.
    apply (derived_call _ c' _ _ _) with (4 := Hpause); [by derive_from|done|simpl; congruence].
  - apply ca_wp_on_object; [|intros; apply HX; by split_and!]. intros stop c1 Hcheck.
    assert (campaign_schedule c ≠ None) as Hs by congruence.
    destruct (check_failures_call _ _ _ _ _ _ Hd Hs Hcheck) as [Hd1 Hsame]. destruct stop.
    + repeat tx_step; try (intros; apply HX; by split_and!); simpl; [done|done|by apply HQ].
    + rewrite Hsame by done. apply wp_start_fire; try done. apply Hfound.
Qed.

Lemma fire_safe t id text skips nid now w : good (w_db w) → nid ∉ map im_id (cb_instances (w_db w)) →
  safe (process_scheduled_fire t id text skips nid now) w.
Proof.
  intros Hg Hfresh. unfold safe, process_scheduled_fire. repeat tx_step; try raised.
  apply wp_fire_tx; [done..|done|]. intros e w' Hw. by left.
Qed.
End Commands.

Section Service.
Context `{!RowOrder} `{!TenantColumns} `{!EngagementStatusPort} `{!InventoryQueryPort} `{!OptionalPorts}.

(** No stored run is starting. *)
Lemma wp_starting_campaigns t active (Q : list string → World → Prop) X w : good (w_view w) →
  Q [] w → wp (starting_campaigns t active) Q X w.
Proof.
  intros Hg. revert Q. induction active as [|entry active IH]; intros Q HQ; simpl; [by wp_run|].
  wp_step; [|by apply IH]. wp_step; [|by apply IH]. wp_step.
  destruct (find_by_campaign_spec u t (w_view w)) as (is' & Hfind & Hmap & His).
  { intros row Hrow. destruct Hg as [_ _ Hins]. destruct (Hins row Hrow) as (i & -> & Hok & _). by exists i. }
  unfold wp at 1, query. rewrite Hfind. wp_step. apply IH. wp_step.
  assert (existsb (λ i, bool_decide (ci_state i = InstanceState.STARTING)) is' = false) as ->; [|done].
  apply not_true_iff_false. intros (i & Hi%list_elem_of_In & Hst)%existsb_exists. guards.
  assert (instance_to_row i ∈ cb_instances (w_view w)) as Hrow.
  { apply (list_elem_of_fmap_2 instance_to_row) in Hi. change (instance_to_row <$> is') with (map instance_to_row is') in Hi.
    rewrite Hmap in Hi. by apply list_elem_of_filter in Hi as [_ ?]. }
  destruct Hg as [_ _ Hins]. destruct (Hins _ Hrow) as (i0 & Heq & _ & [Hs _ _ _]).
  assert (InstanceState.value (ci_state i0) = "Starting") as Hv by (apply (f_equal im_state) in Heq; simpl in Heq; by rewrite <- Heq, Hst).
  destruct Hs as [Hs|Hs]; [by rewrite Hs in Hv|]. unfold CI.ended in Hs. destruct (ci_state i0); try done.
  revert Hs. by_compute.
Qed.

Lemma recover_safe t w : good (w_db w) → safe (recover_schedules t) w.
Proof.
  intros Hg. unfold safe, recover_schedules. destruct scheduler_port as [s|]; [|by wp_run].
  repeat tx_step; try raised. apply wp_starting_campaigns; [done|]. simpl. repeat tx_step; try raised. done.
Qed.

Lemma run_command_safe c now w : good (w_db w) → command_ok c w → safe (run_command c now) w.
Proof.
  intros Hg Hok.
  assert (∀ A (m : App A), safe m w → safe (m;; mret tt) w) as Hunit.
  { intros A m Hm. unfold safe. wp_step. eapply wp_mono; [exact Hm|by intros|by intros]. }
  destruct c; simpl in *; try apply Hunit;
    auto using create_safe, add_objective_safe, add_rule_safe, ca_submit_safe, approve_safe, schedule_safe, start_safe,
      abort_safe, ca_archive_safe, get_safe, cancel_safe, pause_safe, ca_resume_safe, fire_safe, one_shot_safe, recover_safe.
Qed.

Lemma ca_reachable_good w : reachable_world w → good (w_db w).
Proof.
  induction 1 as [|w c now Hw IH Hok]; [by split; [split; constructor|intros ? []%not_elem_of_nil..]|].
  pose proof (run_command_safe c now w IH Hok) as Hs. unfold safe, wp in Hs. destruct (run_command c now w) as [[[]|e] w'];
    [done|]. destruct Hs as [(Heq & _)|[_ Hg]]; [|done]. simpl. by rewrite Heq.
Qed.
End Service.

(** *** Example worlds *)

Section Runs.
Context `{!RowOrder} `{!TenantColumns} `{!EngagementStatusPort} `{!InventoryQueryPort} `{!OptionalPorts}.

(** The commands of a list, with their times. *)
Definition run_commands (cs : list (command * datetime)) (w : World) : World :=
  foldl (fun w cn => (run_command cn.1 cn.2 w).2) w cs.

Fixpoint all_ok (cs : list (command * datetime)) (w : World) : Prop :=
  match cs with
  | [] => True
  | (c, now) :: cs => command_ok c w ∧ all_ok cs (run_command c now w).2
  end.

Lemma ca_run_commands_reachable cs w : reachable_world w → all_ok cs w → reachable_world (run_commands cs w).
Proof.
  revert w. induction cs as [|[c now] cs IH]; intros w Hw; simpl; [done|]. intros [Hc Hcs].
  apply IH; [|done]. by apply rw_command.
Qed.

#[export] Instance command_ok_dec c w : Decision (command_ok c w).
Proof. destruct c; simpl; apply _. Defined.
#[export] Instance all_ok_dec cs w : Decision (all_ok cs w).
Proof. revert w. induction cs as [|[c now] cs IH]; intros w; simpl; apply _. Defined.
End Runs.

#[local] Existing Instance insertion_order.
#[local] Existing Instance converting_driver.
#[local] Existing Instance AlwaysActiveEngagementAdapter.
#[local] Existing Instance StubInventoryQueryAdapter.
#[local] Existing Instance stub_ports.

(** A lead plans a one-shot campaign and has it approved. *)
Definition plan_campaign (id : uuid) : list (command * datetime) :=
  [(CreateCampaign (mkCreateCampaign acme "drill" "RedVsBlue" "OneShot" "lead" 5 10 false false "Probe" None None None) id, 0);
   (AddObjective acme id "DataAccessed" "read the ledger" "file" [] (id + 100), 1);
   (AddRule acme id "tag" "eq" "web", 2); (Submit acme id, 3); (Approve acme id "ann" "sig" (id + 200), 4)].
Definition approved_world : World := run_commands (plan_campaign 9) empty_world.

Lemma approved_world_reachable : reachable_world approved_world.
Proof. apply ca_run_commands_reachable; [constructor|]. by_compute. Qed.

(** ** Properties *)

(** C22. Whatever commands are run, failing ones included: every stored campaign is
    found under its id and tenant and is governed (quorum, engagement and rules past
    approval, no recurring campaign past draft), every stored run is found and is
    sound, none is still starting, and no schedule has a blackout period. *)
Theorem stored_campaigns_are_governed `{!RowOrder} `{!TenantColumns} `{!EngagementStatusPort} `{!InventoryQueryPort}
    `{!OptionalPorts} w : reachable_world w →
  (∀ row, row ∈ cb_campaigns (w_db w) → ∃ c, find_campaign (cm_id row) (cm_tenant_id row) (w_db w) = Ok (Some c) ∧
     governed c ∧ ∀ s t, campaign_schedule c = Some s → is_in_blackout (to_recurrence_policy s) t = false) ∧
  (∀ row, row ∈ cb_instances (w_db w) → ∃ i, find_instance (im_id row) (im_tenant_id row) (w_db w) = Ok (Some i) ∧
     CI.sound i ∧ ci_state i ≠ InstanceState.STARTING).
Proof.
  intros Hw. pose proof (ca_reachable_good w Hw) as Hgood. pose proof Hgood as [Hk Hrows Hins]. split.
  - intros row Hin. destruct (Hrows row Hin) as (c0 & -> & [Hg Hok Ho Hh]).
    destruct (ca_holds_find _ c0 Hk Hh Hok) as (c & Hf & _). exists c. split; [exact Hf|].
    destruct (ca_good_find _ _ _ c Hgood Hf) as ([Hg' _ Ho' _] & _). split; [done|]. intros s t Hs.
    unfold is_in_blackout. simpl. by rewrite (Ho' s Hs).
  - intros row Hin. destruct (Hins row Hin) as (i & -> & Hok & Hs). eexists.
    split; [by apply (instance_found (w_db w) i)|]. split; [by destruct Hs|]. simpl.
    destruct Hs as [[-> |He] _ _ _]; [done|]. intros Hst. rewrite Hst in He. revert He. unfold CI.ended. by_compute.
Qed.

Lemma stored_campaigns_are_governed_witness : map cm_state (cb_campaigns (w_db approved_world)) = ["Approved"] ∧
  ∀ row, row ∈ cb_campaigns (w_db approved_world) →
    ∃ c, find_campaign (cm_id row) (cm_tenant_id row) (w_db approved_world) = Ok (Some c) ∧ governed c.
Proof.
  split; [vm_compute; reflexivity|]. intros row Hrow.
  destruct (stored_campaigns_are_governed approved_world approved_world_reachable) as [Hc _].
  destruct (Hc row Hrow) as (c & Hf & Hg & _). exact (ex_intro _ c (conj Hf Hg)).
Defined.

(** A command that raises changes nothing: neither the tables nor what was
    published; only a write to the graph can raise after the commit. (What the
    scheduler was asked inside the transaction stays asked.) *)
Theorem failed_campaign_command_changes_nothing `{!RowOrder} `{!TenantColumns} `{!EngagementStatusPort} `{!InventoryQueryPort}
    `{!OptionalPorts} c now w e w' :
  reachable_world w → command_ok c w → run_command c now w = (Err e, w') → e ≠ GraphFailure →
  w_db w' = w_db w ∧ w_published w' = w_published w ∧ w_graph w' = w_graph w.
Proof.
  intros Hw Hok Hrun Hne. destruct (wp_err _ _ _ _ _ _ (run_command_safe c now w (ca_reachable_good w Hw) Hok) Hrun)
    as [Hr|[-> _]]; [exact Hr|done].
Qed.

(** A campaign can be approved once. *)
Lemma failed_campaign_command_changes_nothing_witness :
  ∃ e w', run_command (Approve acme 9 "bob" "sig" 300) 5 approved_world = (Err e, w') ∧
  w_db w' = w_db approved_world ∧ w_published w' = w_published approved_world ∧ w_graph w' = w_graph approved_world.
Proof.
  assert (is_ok (run_command (Approve acme 9 "bob" "sig" 300) 5 approved_world).1 = false ∧
    (run_command (Approve acme 9 "bob" "sig" 300) 5 approved_world).1 ≠ Err GraphFailure) as [Hfail Hne]
    by (split; vm_compute; [reflexivity|discriminate]).
  destruct (run_command (Approve acme 9 "bob" "sig" 300) 5 approved_world) as [[[]|e] w'] eqn:Hrun; [discriminate Hfail|].
  exists e, w'. split; [reflexivity|]. cbn [fst] in Hne.
  assert (command_ok (Approve acme 9 "bob" "sig" 300) approved_world) as Hok by (intros Hz; discriminate Hz).
  refine (failed_campaign_command_changes_nothing _ 5 approved_world e w' approved_world_reachable Hok Hrun _).
  intros Heq. apply Hne. by rewrite Heq.
Defined.

(** C12. A run starts only where it may: when [start_campaign_instance] answers, the
    campaign was approved or scheduled, its engagement was active with the kill
    switch armed, and the new run is stored and running against exactly the targets
    the inventory answers for the rules in the engagement's scope, at least one;
    the campaign is stored as running. *)
Theorem started_run_is_cleared `{!RowOrder} `{!TenantColumns} `{!EngagementStatusPort} `{!InventoryQueryPort} `{!OptionalPorts}
    t id new_id now w d w' :
  reachable_world w → new_id ∉ map im_id (cb_instances (w_db w)) →
  start_campaign_instance t id new_id now w = (Ok d, w') →
  ∃ c ref i, find_campaign id t (w_db w) = Ok (Some c) ∧
    state c ∈ [CampaignState.APPROVED; CampaignState.SCHEDULED] ∧ quorum_met c = true ∧
    engagement_ref c = Some ref ∧ cleared ref t ∧
    resolve (target_selection_rules c) ref t = Ok (resolved_targets i) ∧
    (resolved_targets i ≠ [] ∧ ∀ x, x ∈ resolved_targets i → in_scope ref t x) ∧
    ci_state i = InstanceState.RUNNING ∧ find_instance new_id t (w_db w') = Ok (Some i) ∧
    ∃ c', find_campaign id t (w_db w') = Ok (Some c') ∧ state c' = CampaignState.RUNNING.
Proof.
  intros Hw Hfresh Hrun. pose proof (ca_reachable_good w Hw) as Hgood.
  assert (wp (start_campaign_instance t id new_id now) (λ d w', id ≠ 0 ∧ ∃ c i w1, started w w1 t id new_id now c i ∧ w_db w' = w_db w1)
    (λ _ _, True) w) as Hwp.
  { unfold start_campaign_instance. repeat tx_step; try done. apply wp_start_tx; [done|done|done| |done].
    intros c i w1 Hs. repeat tx_step; try done. split; [done|]. by exists c, i, w1. }
  destruct (wp_ok _ _ _ _ _ _ Hwp Hrun) as (Hid & c1 & i & w1 & [Hi (c & Hf & Hst & ref & Href & Hcl & Hres) (Hid1 & Ht1 & Hr) (Hg1 & Hc1 & Hin) _] & Hdb).
  destruct (ca_good_find _ _ _ c Hgood Hf) as ([Hgov Hok _ _] & Hcid & Hct & _).
  pose proof (resolved_in_scope _ _ _ _ Hres) as [Hne Hscope].
  assert (ok_instance i) as Hoki.
  { destruct (gd_instances _ Hg1 _ Hin) as (i0 & Heq & Hok0 & _).
    split; [rewrite Hi; intros Hz; simpl in Hz|by rewrite Hi|by intros x Hx; apply Hscope].
    apply (oi_id _ Hok0). apply (f_equal im_id) in Heq. simpl in Heq. rewrite <- Heq, Hi. exact Hz. }
  exists c, ref, (i <| ci_pending_events := [] |>). rewrite Hdb. split_and!; try done.
  - apply (gv_quorum c Hgov). revert Hst. generalize (state c). intros []; by_compute.
  - by intros x Hx; apply Hscope.
  - simpl. by rewrite Hi.
  - pose proof (instance_found _ i (gd_keys _ Hg1) Hin Hoki) as Hfi. revert Hfi. rewrite Hi. simpl. done.
  - destruct (ca_holds_find _ c1 (gd_keys _ Hg1) (sd_holds _ _ Hc1) (sd_ok _ _ Hc1)) as (c' & Hf' & Hs & _).
    exists c'. rewrite Hid1, Ht1 in Hf'. split; [exact Hf'|]. rewrite <- Hr. by destruct Hs; congruence.
Qed.

Lemma started_run_is_cleared_witness :
  ∃ d w', start_campaign_instance acme 9 71 5 approved_world = (Ok d, w') ∧
  ∃ i, find_instance 71 acme (w_db w') = Ok (Some i) ∧ ci_state i = InstanceState.RUNNING ∧ resolved_targets i ≠ [].
Proof.
  assert (is_ok (start_campaign_instance acme 9 71 5 approved_world).1 = true) as Hok by (vm_compute; reflexivity).
  assert (71 ∉ map im_id (cb_instances (w_db approved_world))) as Hfresh by (by_compute).
  destruct (start_campaign_instance acme 9 71 5 approved_world) as [[d|e] w'] eqn:Hrun; [|discriminate Hok].
  exists d, w'. split; [reflexivity|].
  destruct (started_run_is_cleared acme 9 71 5 approved_world d w' approved_world_reachable Hfresh Hrun)
    as (c & ref & i & _ & _ & _ & _ & _ & _ & [Hne _] & Hr & Hf & _).
  exact (ex_intro _ i (conj Hf (conj Hr Hne))).
Defined.

(** A scheduled fire never starts a run: [process_scheduled_fire] answers that
    it skipped, or raises, and in both cases no run is added or changed.  (A fire
    that is due changes the campaign twice, and the save accepts one step.) *)
Theorem scheduled_fire_starts_nothing `{!RowOrder} `{!TenantColumns} `{!EngagementStatusPort} `{!InventoryQueryPort}
    `{!OptionalPorts} t id text skips new_id now w r w' :
  reachable_world w → new_id ∉ map im_id (cb_instances (w_db w)) →
  process_scheduled_fire t id text skips new_id now w = (r, w') →
  (∀ d, r ≠ Ok (Some d)) ∧ cb_instances (w_db w') = cb_instances (w_db w) ∧ ((∃ e, r = Err e) → w_db w' = w_db w).
Proof.
  intros Hw Hfresh Hrun.
  assert (wp (process_scheduled_fire t id text skips new_id now)
    (λ r w', r = None ∧ cb_instances (w_db w') = cb_instances (w_db w)) (λ _ w', w_db w' = w_db w) w) as Hwp.
  { unfold process_scheduled_fire. repeat tx_step; try done.
    apply wp_fire_tx; [by apply ca_reachable_good|done..|]. by intros e w1 (? & _). }
  unfold wp in Hwp. rewrite Hrun in Hwp. destruct r as [o|e].
  - destruct Hwp as [-> Hi]. split_and!; [done|done|by intros [e ?]].
  - split_and!; [done|by rewrite Hwp|done].
Qed.

(** A one-shot campaign whose time has come: nothing stands in the way of its
    run. *)
Definition due_world : World := run_commands [(ScheduleOneShot acme 9 "2030-01-01T00:00:00", 5)] approved_world.
Lemma due_world_reachable : reachable_world due_world.
Proof. apply ca_run_commands_reachable; [apply approved_world_reachable|]. by_compute. Qed.

Lemma scheduled_fire_starts_nothing_witness :
  map cm_state (cb_campaigns (w_db due_world)) = ["Scheduled"] ∧
  (process_scheduled_fire acme 9 "2030-01-01T00:00:00" 0 71 6 due_world).1 = Err (Store (OptimisticLockConflict 9 7 6)) ∧
  cb_instances (w_db (process_scheduled_fire acme 9 "2030-01-01T00:00:00" 0 71 6 due_world).2) = cb_instances (w_db due_world).
Proof.
  assert (71 ∉ map im_id (cb_instances (w_db due_world))) as Hfresh by (by_compute).
  split; [vm_compute; reflexivity|]. split; [vm_compute; reflexivity|].
  destruct (process_scheduled_fire acme 9 "2030-01-01T00:00:00" 0 71 6 due_world) as [r w'] eqn:Hrun.
  exact (proj1 (proj2 (scheduled_fire_starts_nothing acme 9 "2030-01-01T00:00:00" 0 71 6 due_world r w' due_world_reachable Hfresh Hrun))).
Defined.

(** Recovery after a restart excludes nothing: no stored run is ever starting,
    so [recover_schedules] answers every schedule the scheduler lists, the ones of
    running campaigns included. *)
Theorem recovery_excludes_nothing `{!RowOrder} `{!TenantColumns} `{!EngagementStatusPort} `{!InventoryQueryPort}
    `{!OptionalPorts} t w l w' s :
  reachable_world w → scheduler_port = Some s → recover_schedules t w = (Ok l, w') →
  answer_list s (w_scheduler w ++ [ListActive t]) t = Ok l.
Proof.
  intros Hw Hs Hrun. pose proof (ca_reachable_good w Hw) as Hgood. revert Hrun. unfold recover_schedules. rewrite Hs.
  unfold mbind, PyM_bind, in_uow. unfold list_schedules at 1. destruct (answer_list s _ t) as [active|e]; [|done].
  match goal with |- context [starting_campaigns t active ?w1] => set (w2 := w1) end.
  pose proof (wp_starting_campaigns t active (λ r w', r = [] ∧ w' = w2) (λ _ _, False) w2 Hgood (conj eq_refl eq_refl)) as Hst.
  unfold wp in Hst. destruct (starting_campaigns t active w2) as [[r|e] w3]; [|done]. destruct Hst as [-> ->].
  unfold list_schedules. simpl. destruct (answer_list s _ t) as [active2|e] eqn:Hl; [|done].
  intros [= <- _]. f_equal. unfold recover_after_restart. symmetry. apply list_filter_all.
  intros entry _. apply not_elem_of_nil.
Qed.

(** The run of a scheduled campaign is under way. *)
Definition running_world : World := run_commands [(StartInstance acme 9 71, 6)] due_world.
Lemma running_world_reachable : reachable_world running_world.
Proof. apply ca_run_commands_reachable; [apply due_world_reachable|]. by_compute. Qed.

Lemma recovery_excludes_nothing_witness :
  ∃ l w', recover_schedules acme running_world = (Ok l, w') ∧ length l = 1%nat ∧
  answer_list StubSchedulerPort (w_scheduler running_world ++ [ListActive acme]) acme = Ok l.
Proof.
  assert ((λ r : result CaError (list ScheduleEntry), match r with Ok l => length l | Err _ => 0%nat end)
    (recover_schedules acme running_world).1 = 1%nat) as Hlen by (vm_compute; reflexivity).
  destruct (recover_schedules acme running_world) as [[l|e] w'] eqn:Hrun; [|discriminate Hlen].
  exists l, w'. split; [reflexivity|]. split; [exact Hlen|].
  exact (recovery_excludes_nothing acme running_world l w' StubSchedulerPort running_world_reachable eq_refl Hrun).
Defined.

(** Overlap is checked for scheduled fires only: a running campaign that is
    paused and resumed can be started again while its first run is under way. *)
Theorem runs_overlap_after_resume : ∃ w, reachable_world w ∧
  map (λ r, (im_campaign_id r, im_state r)) (cb_instances (w_db w)) = [(9, "Running"); (9, "Running")].
Proof.
  exists (run_commands [(PauseRecurring acme 9 "lunch", 7); (ResumeRecurring acme 9, 8); (StartInstance acme 9 72, 9)] running_world).
  split; [apply ca_run_commands_reachable; [apply running_world_reachable|by_compute]|]. vm_compute. reflexivity.
Qed.

(** Aborting does not check that the run belongs to the campaign: with two
    campaigns running, aborting the run of the first under the id of the second
    leaves the first running without a run and the second failed with its run
    under way. *)
Theorem abort_fails_another_campaign : ∃ w, reachable_world w ∧
  map (λ r, (cm_id r, cm_state r)) (cb_campaigns (w_db w)) = [(9, "Running"); (8, "Failed")] ∧
  map (λ r, (im_campaign_id r, im_state r)) (cb_instances (w_db w)) = [(9, "Aborted"); (8, "Running")].
Proof.
  exists (run_commands (plan_campaign 8 ++ [(StartInstance acme 8 72, 9); (AbortInstance acme 8 71 "stop", 10)]) running_world).
  split; [apply ca_run_commands_reachable; [apply running_world_reachable|by_compute]|].
  split; vm_compute; reflexivity.
Qed.

(** The third fire in a row that finds a run under way cannot pause the
    campaign: the skip and the pause are two changes, and the save refuses them. *)
Theorem repeated_skips_do_not_pause : ∃ w, reachable_world w ∧
  map (λ r, im_state r) (cb_instances (w_db w)) = ["Running"] ∧
  is_ok (process_scheduled_fire acme 9 "2030-01-01T00:00:00" 0 73 7 w).1 = true ∧
  (process_scheduled_fire acme 9 "2030-01-01T00:00:00" 2 73 7 w).1 = Err (Store (OptimisticLockConflict 9 8 7)).
Proof.
  exists running_world. split; [apply running_world_reachable|]. split_and!; vm_compute; reflexivity.
Qed.
