(* ===== verification/EvidenceData.v ===== *)
(** Data of [evidence.domain]: enumerations, value objects with their constructors,
    exceptions and events of evidence and of evidence chains. *)
From stdpp Require Import base tactics list strings sets.
From Stdlib Require Import ZArith Lia.
From S2P Require Import Prelude PyTypes PyParse JsonText Sha256.

Local Open Scope Z_scope.

(** ** Enumerations *)

Module EvidenceType.
Inductive t :=
  COMMAND_OUTPUT | NETWORK_CAPTURE | SCREEN_CAPTURE | LOG_EXTRACT | FILE_ARTIFACT | MEMORY_DUMP
  | ANALYST_ANNOTATION | ROLLBACK_PROOF | SAFETY_CHECK_LOG | KILL_SWITCH_LOG.
Definition value (x : t) : string :=
  match x with
  | COMMAND_OUTPUT => "CommandOutput" | NETWORK_CAPTURE => "NetworkCapture" | SCREEN_CAPTURE => "ScreenCapture"
  | LOG_EXTRACT => "LogExtract" | FILE_ARTIFACT => "FileArtifact" | MEMORY_DUMP => "MemoryDump"
  | ANALYST_ANNOTATION => "AnalystAnnotation" | ROLLBACK_PROOF => "RollbackProof"
  | SAFETY_CHECK_LOG => "SafetyCheckLog" | KILL_SWITCH_LOG => "KillSwitchLog"
  end.
Definition all : list t :=
  [COMMAND_OUTPUT; NETWORK_CAPTURE; SCREEN_CAPTURE; LOG_EXTRACT; FILE_ARTIFACT; MEMORY_DUMP; ANALYST_ANNOTATION;
   ROLLBACK_PROOF; SAFETY_CHECK_LOG; KILL_SWITCH_LOG].
End EvidenceType.

Module EvidenceIntegrityStatus.
Inductive t := VERIFIED | TAMPERED | UNKNOWN.
#[export] Instance eq_dec : EqDecision t.
Proof. solve_decision. Defined.
Definition value (x : t) : string :=
  match x with VERIFIED => "Verified" | TAMPERED => "Tampered" | UNKNOWN => "Unknown" end.
Definition all : list t := [VERIFIED; TAMPERED; UNKNOWN].
End EvidenceIntegrityStatus.
Export (hints) EvidenceIntegrityStatus.

Module RetentionClass.
Inductive t := STANDARD | LEGAL | REGULATORY.
Definition value (x : t) : string :=
  match x with STANDARD => "Standard" | LEGAL => "Legal" | REGULATORY => "Regulatory" end.
Definition all : list t := [STANDARD; LEGAL; REGULATORY].
End RetentionClass.

Module ChainState.
Inductive t := OPEN | SEALED | SUBMITTED | ARCHIVED.
#[export] Instance eq_dec : EqDecision t.
Proof. solve_decision. Defined.
Definition value (x : t) : string :=
  match x with OPEN => "Open" | SEALED => "Sealed" | SUBMITTED => "Submitted" | ARCHIVED => "Archived" end.
Definition all : list t := [OPEN; SEALED; SUBMITTED; ARCHIVED].
End ChainState.
Export (hints) ChainState.

Module ChainIntegrityStatus.
Inductive t := VERIFIED | BROKEN | UNKNOWN.
#[export] Instance eq_dec : EqDecision t.
Proof. solve_decision. Defined.
Definition value (x : t) : string :=
  match x with VERIFIED => "Verified" | BROKEN => "Broken" | UNKNOWN => "Unknown" end.
Definition all : list t := [VERIFIED; BROKEN; UNKNOWN].
End ChainIntegrityStatus.
Export (hints) ChainIntegrityStatus.

Module CustodyAction.
Inductive t := COLLECTED | TRANSFERRED | VERIFIED | QUARANTINED | DELETION_REQUESTED | RETENTION_EXPIRED.
#[export] Instance eq_dec : EqDecision t.
Proof. solve_decision. Defined.
Definition value (x : t) : string :=
  match x with
  | COLLECTED => "Collected" | TRANSFERRED => "Transferred" | VERIFIED => "Verified" | QUARANTINED => "Quarantined"
  | DELETION_REQUESTED => "DeletionRequested" | RETENTION_EXPIRED => "RetentionExpired"
  end.
Definition all : list t := [COLLECTED; TRANSFERRED; VERIFIED; QUARANTINED; DELETION_REQUESTED; RETENTION_EXPIRED].
End CustodyAction.
Export (hints) CustodyAction.

Definition EVIDENCE_SEALER_ROLE : string := "evidence:sealer".

Definition RETENTION_YEARS (c : RetentionClass.t) : Z :=
  match c with RetentionClass.STANDARD => 3 | RetentionClass.LEGAL => 7 | RetentionClass.REGULATORY => 10 end.

(** ** Value objects

    [X_new] is the constructor with its [__post_init__]; [None] is [ValueError].
    The identifiers are UUIDs that are not nil ([non_nil]). *)

Definition is_hex (c : Ascii.ascii) : bool :=
  let n := Ascii.nat_of_ascii c in ((48 <=? n) && (n <=? 57) || (97 <=? n) && (n <=? 102))%nat.

(** [re.match] of [w] hexadecimal digits up to [$], which matches at the end and
    before a last line feed. *)
Fixpoint hex_match (w : nat) (s : string) : bool :=
  match w, s with
  | O, EmptyString => true
  | O, String c s' => bool_decide (c = Ascii.ascii_of_nat 10 ∧ s' = EmptyString)
  | S w', String c s' => is_hex c && hex_match w' s'
  | S _, EmptyString => false
  end.
Definition _SHA256_RE (s : string) : bool := hex_match 64 s.

(** [EvidencePayloadHash], [ChainHash]: their text. *)
Definition EvidencePayloadHash_new (value : string) : option string := if _SHA256_RE value then Some value else None.
Definition ChainHash_new (value : string) : option string := if _SHA256_RE value then Some value else None.

(** [EvidencePayloadHash.from_payload] *)
Definition from_payload (payload : list Z) : string := hexdigest (sha256 payload).

(** [ChainHash.from_entry_hashes] *)
Definition from_entry_hashes (entry_hashes : list string) : string := sha256_hex (foldr String.append EmptyString entry_hashes).

Definition sized (s : string) (max_len : nat) : bool :=
  negb (empty_str s) && bool_decide (String.length s ≤ max_len)%nat.

Definition EvidenceStorageRef_new (value : string) : option string := if sized value 512 then Some value else None.

Record EvidenceEncryptionKeyRef := mkKeyRef { key_id : string; key_version : Z }.
Definition EvidenceEncryptionKeyRef_new (id : string) (v : Z) : option EvidenceEncryptionKeyRef :=
  if negb (sized id 256) then None else if v <? 1 then None else Some (mkKeyRef id v).

(** [CollectedBy]: its identity. *)
Definition CollectedBy_new (identity : string) : option string := if sized identity 256 then Some identity else None.

Record CustodyRecord := mkCustody { custodian_identity : string; timestamp : datetime; action : CustodyAction.t }.
Definition CustodyRecord_new (custodian : string) (at_ : datetime) (a : CustodyAction.t) : option CustodyRecord :=
  if sized custodian 256 then Some (mkCustody custodian at_ a) else None.

Record ChainEntry := mkEntry { evidence_id : uuid; sequence : Z; entry_hash : string }.
Definition ChainEntry_new (id : uuid) (n : Z) (h : string) : option ChainEntry :=
  if id =? 0 then None else if n <? 1 then None else if _SHA256_RE h then Some (mkEntry id n h) else None.

Record SealedBy := mkSealedBy { operator_id : uuid; sealed_at : datetime; role : string; signature : string }.
Definition SealedBy_new (operator : uuid) (at_ : datetime) (r s : string) : option SealedBy :=
  if operator =? 0 then None else if empty_str r then None else if empty_str s then None
  else Some (mkSealedBy operator at_ r s).

Record ChainIntegrityReport := mkReport {
  rp_chain_id : uuid; rp_status : string; rp_expected_hash : string; rp_computed_hash : string; rp_entry_count : Z }.

(** ** Exceptions

    [ValueError] is that of a constructor; a repository raises its own. *)

Inductive EvidenceException :=
  | InvalidArgument (message : string)
  | InvalidStateTransition (from_state to_state : string) (aggregate : uuid)
  | TenantMismatch (expected actual : TenantId)
  | AggregateSealed (aggregate : uuid)
  | EvidenceIntegrityViolation (evidence : uuid) (expected computed : string)
  | RetentionWindowActive (evidence : uuid) (retention_class : string) (expires_at : datetime)
  | SealerRoleRequired (provided_role : string)
  | EvidenceQuarantinedError (evidence : uuid)
  | ValueError.

(** ** Events *)

Inductive EvidenceEvent :=
  | ExecutionEvidenceCollected (ty : string) (action operation : uuid) (payload_hash storage_ref collected_by : string)
  | EvidenceIntegrityVerified (payload_hash : string)
  | EvidenceIntegrityFailed (expected_hash computed_hash : string)
  | EvidenceCustodyTransferred (from_custodian to_custodian custody_action : string)
  | EvidenceRetentionExpired (retention_class : string)
  | EvidenceQuarantined (reason : string).

Inductive ChainEvent :=
  | EvidenceChainOpened (operation engagement : uuid)
  | EvidenceChainEntryAdded (evidence : uuid) (sequence : Z) (chain_hash : string)
  | EvidenceChainSealed (sealed_by : uuid) (chain_hash : string)
  | EvidenceChainSubmitted (destination_ref : string)
  | EvidenceChainArchived
  | EvidenceChainIntegrityVerified (chain_hash : string)
  | EvidenceChainIntegrityFailed (expected_hash computed_hash : string).

(** ** Lemmas *)

Lemma is_hex_digit n k : is_hex (hex_digit (Z.land (Z.shiftr n k) 15)) = true.
Proof. apply (hex_digit_cases (λ c, is_hex c = true)); [by repeat constructor|apply nibble_bounds]. Qed.

Lemma hex_match_hex w v n s : hex_match (w + v) (hex w n +:+ s) = hex_match v s.
Proof.
  revert s. induction w as [|w IH]; intros s; [done|]. cbn [hex]. rewrite append_cons. cbn [Nat.add hex_match].
  by rewrite is_hex_digit, IH.
Qed.

(** What [hexdigest] gives is accepted. *)
Lemma digest_match h : _SHA256_RE (hexdigest h) = true.
Proof.
  unfold _SHA256_RE, hexdigest. change 64%nat with (8 + (8 + (8 + (8 + (8 + (8 + (8 + (8 + 0))))))))%nat.
  rewrite !hex_match_hex. rewrite <- (string_append_empty (hex 8 (hh h))), hex_match_hex. done.
Qed.

(** A text that is empty or begins with a hexadecimal digit. *)
Definition begins_hex (s : string) : Prop := match s with String c _ => is_hex c = true | EmptyString => True end.

Lemma hex_match_inj w a b r r' : hex_match w a = true → hex_match w b = true → begins_hex r → begins_hex r' →
  a +:+ r = b +:+ r' → a = b ∧ r = r'.
Proof.
  revert a b. induction w as [|w IH]; intros [|c a] [|c' b]; cbn [hex_match]; try done.
  - intros _ [-> ->]%bool_decide_eq_true Hr _ Heq. change (r = String (Ascii.ascii_of_nat 10) r') in Heq.
    by rewrite Heq in Hr.
  - intros [-> ->]%bool_decide_eq_true _ _ Hr Heq. change (String (Ascii.ascii_of_nat 10) r = r') in Heq.
    by rewrite <- Heq in Hr.
  - intros [-> ->]%bool_decide_eq_true [-> ->]%bool_decide_eq_true _ _ Heq.
    change (String (Ascii.ascii_of_nat 10) r = String (Ascii.ascii_of_nat 10) r') in Heq. by injection Heq as ->.
  - intros [_ Ha]%andb_prop [_ Hb]%andb_prop Hr Hr' Heq. rewrite !append_cons in Heq. injection Heq as -> Heq.
    by destruct (IH a b Ha Hb Hr Hr' Heq) as [-> ->].
Qed.

Lemma hex_match_begins w s r : hex_match (S w) s = true → begins_hex (s +:+ r).
Proof. destruct s as [|c s]; [done|]. cbn [hex_match]. by intros [? _]%andb_prop. Qed.

(** The hashes can be read back from their concatenation. *)
Lemma joined_hashes_inj l l' : (∀ h, h ∈ l → _SHA256_RE h = true) → (∀ h, h ∈ l' → _SHA256_RE h = true) →
  foldr String.append EmptyString l = foldr String.append EmptyString l' → l = l'.
Proof.
  assert (∀ l, (∀ h, h ∈ l → _SHA256_RE h = true) → begins_hex (foldr String.append EmptyString l)) as Hbeg.
  { intros [|h k] Hk; [done|]. apply (hex_match_begins 63 h), Hk. left. }
  revert l'. induction l as [|h l IH]; intros [|h' l'] Hl Hl' Heq; [done| | |].
  - exfalso. pose proof (Hl' h' ltac:(left)) as Hh. destruct h'; [done|]. discriminate Heq.
  - exfalso. pose proof (Hl h ltac:(left)) as Hh. destruct h; [done|]. discriminate Heq.
  - cbn [foldr] in Heq.
    destruct (hex_match_inj 64 h h' _ _ (Hl h ltac:(left)) (Hl' h' ltac:(left)) (Hbeg l ltac:(set_solver))
                (Hbeg l' ltac:(set_solver)) Heq) as [-> Hrest].
    by rewrite (IH l') by set_solver.
Qed.
