(* ===== verification/EvidenceChain.v ===== *)
(** The aggregate [evidence.domain.aggregates.evidence_chain.EvidenceChain]: the
    evidence of one operation in order, under one hash, sealed by a sealer. *)
From stdpp Require Import base tactics list strings sets relations.
From Stdlib Require Import ZArith Lia.
From S2P Require Import Prelude PyTypes PyStore Sha256 EvidenceData.

Local Open Scope Z_scope.

Record EvidenceChain := mkChain {
  chain_id : uuid;
  ch_tenant_id : TenantId;
  ch_operation_ref : uuid;
  ch_engagement_ref : uuid;
  entries : list ChainEntry;
  chain_hash : string;
  ch_state : ChainState.t;
  ch_integrity_status : ChainIntegrityStatus.t;
  sealed_by : option SealedBy;
  submission_destination_ref : option string;
  ch_created_at : datetime;
  ch_updated_at : datetime;
  ch_version : Z;
  ch_pending_events : list (DomainEvent ChainEvent)
}.
#[export] Instance EvidenceChain_settable : Settable EvidenceChain := fun c =>
  mkChain (chain_id c) (ch_tenant_id c) (ch_operation_ref c) (ch_engagement_ref c) (entries c) (chain_hash c)
    (ch_state c) (ch_integrity_status c) (sealed_by c) (submission_destination_ref c) (ch_created_at c)
    (ch_updated_at c) (ch_version c) (ch_pending_events c).

(** The methods, in a name space of their own. *)
Module Chain.

Import ChainState.

Definition _ALLOWED (s : ChainState.t) : list ChainState.t :=
  match s with
  | OPEN => [SEALED]
  | SEALED => [SUBMITTED; ARCHIVED]
  | SUBMITTED => [ARCHIVED]
  | ARCHIVED => []
  end.

Abbreviation M := (PyM EvidenceChain EvidenceException).

Definition _emit (now : datetime) (e : ChainEvent) : M unit :=
  modify (fun c => c <| ch_pending_events ::= fun l => l ++ [mkEvent now (ch_tenant_id c) (chain_id c) e] |>).

Definition pop_events : M (list (DomainEvent ChainEvent)) :=
  c ← self;
  modify (fun c => c <| ch_pending_events := [] |>);;
  mret (ch_pending_events c).

Definition _mutate (now : datetime) : M unit :=
  modify (fun c => c <| ch_updated_at := now |> <| ch_version ::= Z.add 1 |>).

Definition _assert_tenant (t : TenantId) : M unit :=
  c ← self;
  raise_if (bool_decide (t ≠ ch_tenant_id c)) (TenantMismatch (ch_tenant_id c) t).

Definition _assert_open : M unit :=
  c ← self;
  raise_if (bool_decide (ch_state c ≠ OPEN)) (AggregateSealed (chain_id c)).

Definition _transition (to_state : ChainState.t) : M unit :=
  c ← self;
  raise_if (bool_decide (to_state ∉ _ALLOWED (ch_state c)))
    (InvalidStateTransition (value (ch_state c)) (value to_state) (chain_id c));;
  modify (fun c => c <| ch_state := to_state |>).

Definition _recompute_hash (c : EvidenceChain) : string := from_entry_hashes (map entry_hash (entries c)).

(** A constructor that may raise [ValueError]. *)
Definition construct {A} (x : option A) : M A := match x with Some a => mret a | None => raise ValueError end.

(** [open] *)
Definition open (id : uuid) (t : TenantId) (operation engagement : uuid) (now : datetime) : EvidenceChain :=
  snd (_emit now (EvidenceChainOpened operation engagement)
         (mkChain id t operation engagement [] (from_entry_hashes []) OPEN ChainIntegrityStatus.UNKNOWN None None
            now now 0 [])).

Definition add_entry (t : TenantId) (evidence : uuid) (hash : string) (now : datetime) : M unit :=
  _assert_tenant t;;
  _assert_open;;
  c ← self;
  let sequence := Z.of_nat (length (entries c)) + 1 in
  entry ← construct (ChainEntry_new evidence sequence hash);
  modify (fun c => c <| entries ::= fun l => l ++ [entry] |>);;
  modify (fun c => c <| chain_hash := _recompute_hash c |>);;
  modify (fun c => c <| ch_integrity_status := ChainIntegrityStatus.UNKNOWN |>);;
  _mutate now;;
  c ← self;
  _emit now (EvidenceChainEntryAdded evidence sequence (chain_hash c)).

Definition seal (t : TenantId) (operator : uuid) (sealer_role sig : string) (now : datetime) : M unit :=
  _assert_tenant t;;
  _assert_open;;
  raise_if (bool_decide (sealer_role ≠ EVIDENCE_SEALER_ROLE)) (SealerRoleRequired sealer_role);;
  raise_if (empty_str sig) (InvalidArgument "seal signature must not be empty");;
  c ← self;
  raise_if (bool_decide (length (entries c) = 0%nat)) (InvalidArgument "cannot seal an empty evidence chain");;
  modify (fun c => c <| chain_hash := _recompute_hash c |>);;
  by_ ← construct (SealedBy_new operator now sealer_role sig);
  modify (fun c => c <| sealed_by := Some by_ |>);;
  _transition SEALED;;
  modify (fun c => c <| ch_integrity_status := ChainIntegrityStatus.VERIFIED |>);;
  _mutate now;;
  c ← self;
  _emit now (EvidenceChainSealed operator (chain_hash c)).

Definition submit (t : TenantId) (destination : string) (now : datetime) : M unit :=
  _assert_tenant t;;
  c ← self;
  raise_if (bool_decide (ch_state c ≠ SEALED))
    (InvalidStateTransition (value (ch_state c)) (value SUBMITTED) (chain_id c));;
  raise_if (empty_str destination) (InvalidArgument "destination_ref must not be empty");;
  modify (fun c => c <| submission_destination_ref := Some destination |>);;
  _transition SUBMITTED;;
  _mutate now;;
  _emit now (EvidenceChainSubmitted destination).

Definition archive (t : TenantId) (now : datetime) : M unit :=
  _assert_tenant t;;
  _transition ARCHIVED;;
  _mutate now;;
  _emit now EvidenceChainArchived.

(** The report of a status and the computed hash. *)
Definition report (s : ChainIntegrityStatus.t) (computed : string) : M ChainIntegrityReport :=
  c ← self;
  mret (mkReport (chain_id c) (ChainIntegrityStatus.value s) (chain_hash c) computed (Z.of_nat (length (entries c)))).

Definition verify_chain_integrity (t : TenantId) (now : datetime) : M ChainIntegrityReport :=
  _assert_tenant t;;
  c ← self;
  let computed := _recompute_hash c in
  if bool_decide (computed = chain_hash c) then
    modify (fun c => c <| ch_integrity_status := ChainIntegrityStatus.VERIFIED |>);;
    _mutate now;;
    _emit now (EvidenceChainIntegrityVerified computed);;
    report ChainIntegrityStatus.VERIFIED computed
  else
    modify (fun c => c <| ch_integrity_status := ChainIntegrityStatus.BROKEN |>);;
    _mutate now;;
    _emit now (EvidenceChainIntegrityFailed (chain_hash c) computed);;
    report ChainIntegrityStatus.BROKEN computed.

Inductive call :=
  | CAddEntry (t : TenantId) (evidence : uuid) (hash : string) (now : datetime)
  | CSeal (t : TenantId) (operator : uuid) (sealer_role sig : string) (now : datetime)
  | CSubmit (t : TenantId) (destination : string) (now : datetime)
  | CArchive (t : TenantId) (now : datetime)
  | CVerify (t : TenantId) (now : datetime)
  | CPopEvents.

Definition run_call (c : call) : M unit :=
  match c with
  | CAddEntry t e h now => add_entry t e h now
  | CSeal t o r s now => seal t o r s now
  | CSubmit t d now => submit t d now
  | CArchive t now => archive t now
  | CVerify t now => verify_chain_integrity t now;; mret tt
  | CPopEvents => pop_events;; mret tt
  end.

(** ** What a chain keeps *)

(** Numbered from one, in order. *)
Definition numbered (l : list ChainEntry) : Prop := map sequence l = map (fun i => Z.of_nat i + 1) (seq 0 (length l)).

Definition entry_ok (e : ChainEntry) : Prop := evidence_id e ≠ 0 ∧ _SHA256_RE (entry_hash e) = true.

(** The hash is that of the entries; a chain is closed exactly when a sealer has
    sealed it, and then it is not empty; only a closed chain has a destination. *)
Record sound (c : EvidenceChain) : Prop := {
  so_hash : chain_hash c = _recompute_hash c;
  so_numbered : numbered (entries c);
  so_entries : ∀ e, e ∈ entries c → entry_ok e;
  so_open : ch_state c = OPEN ↔ sealed_by c = None;
  so_seal : ∀ s, sealed_by c = Some s →
    role s = EVIDENCE_SEALER_ROLE ∧ signature s ≠ "" ∧ operator_id s ≠ 0 ∧ entries c ≠ [];
  so_destination : ∀ d, submission_destination_ref c = Some d → d ≠ "" ∧ ch_state c ∈ [SUBMITTED; ARCHIVED];
  so_broken : ch_integrity_status c ≠ ChainIntegrityStatus.BROKEN;
  so_version : 0 ≤ ch_version c
}.

(** What is fixed when it is opened, and what is fixed when it is sealed. *)
Definition fixed (c : EvidenceChain) :=
  (chain_id c, ch_tenant_id c, ch_operation_ref c, ch_engagement_ref c, ch_created_at c).
Definition sealed_part (c : EvidenceChain) := (entries c, chain_hash c, sealed_by c).

Definition rank (s : ChainState.t) : nat :=
  match s with OPEN => 0 | SEALED => 1 | SUBMITTED => 2 | ARCHIVED => 3 end.

(** One call of a sound chain: it stays sound; entries are only appended; a closed
    chain keeps its entries, its hash and its seal; the state never goes back, and
    the version moves with every call that changes a stored field. *)
Record step (c c' : EvidenceChain) : Prop := {
  st_fixed : fixed c' = fixed c;
  st_sound : sound c → sound c';
  st_entries : entries c `prefix_of` entries c';
  st_sealed : ch_state c ≠ OPEN → sound c → sealed_part c' = sealed_part c;
  st_rank : (rank (ch_state c) ≤ rank (ch_state c'))%nat;
  st_version : ch_version c ≤ ch_version c'
}.

#[export] Instance step_preorder : PreOrder step.
Proof.
  split; [by intros c; split|]. intros a b c [F1 S1 E1 P1 R1 V1] [F2 S2 E2 P2 R2 V2].
  split; [congruence|auto|by etrans| |lia|lia]. intros Ho Hs. rewrite <- P1 by done. apply P2; [|auto].
  intros Hb. rewrite Hb in R1. destruct (ch_state a); simpl in R1; try lia. done.
Qed.

Lemma numbered_snoc l e h : numbered l → numbered (l ++ [mkEntry e (Z.of_nat (length l) + 1) h]).
Proof.
  unfold numbered. intros Hl. rewrite length_app, seq_app, !map_app, Hl. done.
Qed.

Lemma entry_new_ok e n h x : ChainEntry_new e n h = Some x → x = mkEntry e n h ∧ entry_ok x.
Proof.
  unfold ChainEntry_new. destruct (Z.eqb_spec e 0); [done|]. destruct (n <? 1); [done|].
  destruct (_SHA256_RE h) eqn:Hh; [|done]. by intros [= <-].
Qed.

Lemma sealed_by_new_ok o at_ r s x : SealedBy_new o at_ r s = Some x →
  x = mkSealedBy o at_ r s ∧ o ≠ 0 ∧ r ≠ "" ∧ s ≠ "".
Proof.
  unfold SealedBy_new, empty_str. destruct (Z.eqb_spec o 0); [done|]. repeat case_bool_decide; try done.
  by intros [= <-].
Qed.

Ltac unfold_chain :=
  unfold add_entry, seal, submit, archive, verify_chain_integrity, report, pop_events, _assert_tenant, _assert_open,
    _transition, _mutate, _emit, construct in *.

(** What a guard says of the state of a record that was assigned to. *)
Ltac bad_state :=
  exfalso; repeat match goal with H : _ ∉ _ |- _ => revert H end; simpl;
  repeat match goal with H : ch_state _ = _ |- _ => rewrite H end; by_compute.

Lemma chain_call_step c : follows run_call step c.
Proof.
  intros x. destruct c; simpl; unfold_chain; wp_run; stable; try reflexivity.
  all: try bad_state.
  all: try match goal with H : ChainEntry_new _ _ _ = _ |- _ => apply entry_new_ok in H as [-> ?] end.
  all: try match goal with H : SealedBy_new _ _ _ _ = _ |- _ => apply sealed_by_new_ok in H as (-> & ? & ? & ?) end.
  all: try match goal with H : _ ∈ _ALLOWED _ |- _ => simpl in H end.
  all: destruct x; simpl in *; simplify_eq.
  all: split; [done| |by (done || apply prefix_app_r)| |simpl; try lia|simpl; lia].
  all: try (intros [Hh Hn He Ho Hse Hd Hb Hv]; simpl in *; split; simpl; try done; try lia).
  all: try done.
  - by apply numbered_snoc.
  - by apply (all_snoc entry_ok).
  - intros s Hs. destruct (Hse s Hs) as (? & ? & ? & ?). by destruct entries0.
  - intros s Hs. simplify_eq. simpl. split_and!; try done. by intros ->.
  - intros d Hds. destruct (Hd d Hds) as [_ Hc]. revert Hc. by_compute.
  - split; [done|]. intros Hn'. by apply Ho in Hn'.
  - intros d [= <-]. split; [by intros ->|]. by_compute.
  - split; [done|]. intros Hn'. exfalso. apply Ho in Hn' as ->. revert H0. by_compute.
  - intros d Hds. destruct (Hd d Hds) as [? _]. split; [done|]. by_compute.
  - destruct ch_state0; simpl; lia.
Qed.

Lemma open_sound id t operation engagement now : sound (open id t operation engagement now).
Proof.
  split; simpl; try done. by intros e []%not_elem_of_nil.
Qed.

(** The text under the hash. *)
Definition hashed_text (c : EvidenceChain) : string := foldr String.append EmptyString (map entry_hash (entries c)).

(** Two texts with one SHA-256 digest. *)
Definition collision (a b : string) : Prop := a ≠ b ∧ sha256_hex a = sha256_hex b.

(** Opened by one operation, extended and sealed. *)
Definition acme : TenantId := mkEntityId 1.
Definition hash_a : string := sha256_hex "a".
Definition hash_b : string := sha256_hex "b".
Definition open_chain : EvidenceChain :=
  run_all run_call [CAddEntry acme 21 hash_a 11; CAddEntry acme 22 hash_b 12] (open 9 acme 3 4 10).
Definition sealed_chain : EvidenceChain :=
  run_all run_call [CSeal acme 7 "evidence:sealer" "sig" 13] open_chain.

(** C16. A chain is append-only until it is sealed and final from then on: through
    any calls, answered or refused, its hash is that of its entries, which are
    numbered from one; it is closed exactly when it has a seal, of a sealer, over
    at least one entry; and from the call that closes it no call changes its
    entries, its hash or its seal, reopens it, or lowers its version. *)
Theorem sealed_chain_is_final id t operation engagement now cs cs' :
  let c := run_all run_call cs (open id t operation engagement now) in
  let c' := run_all run_call cs' c in
  fixed c = (id, t, operation, engagement, now) ∧ sound c ∧
  entries c `prefix_of` entries c' ∧ (rank (ch_state c) ≤ rank (ch_state c'))%nat ∧ ch_version c ≤ ch_version c' ∧
  (ch_state c ≠ OPEN → sealed_part c' = sealed_part c ∧ sealed_by c ≠ None ∧ ch_state c' ≠ OPEN).
Proof.
  intros c c'. destruct (run_all_follows run_call step cs (open id t operation engagement now) chain_call_step)
    as [Hf Hs _ _ _ _]. fold c in Hf, Hs. specialize (Hs (open_sound _ _ _ _ _)).
  destruct (run_all_follows run_call step cs' c chain_call_step) as [_ _ He Hp Hr Hv]. fold c' in He, Hp, Hr, Hv.
  split_and!; [done..|]. intros Ho. split_and!; [by apply Hp|by rewrite <- (so_open _ Hs)|].
  intros Hc. rewrite Hc in Hr. destruct (ch_state c); simpl in Hr; [done|lia..].
Qed.

(** The hash of a chain binds what its entries hash, in order: two sound chains
    with the same hash have entries with the same hashes, or the two texts hashed
    are different with one SHA-256 digest. *)
Theorem chain_hash_binds_entries c c' : sound c → sound c' → chain_hash c = chain_hash c' →
  map entry_hash (entries c) = map entry_hash (entries c') ∨ collision (hashed_text c) (hashed_text c').
Proof.
  intros [Hh _ He _ _ _ _ _] [Hh' _ He' _ _ _ _ _] Heq. rewrite Hh, Hh' in Heq.
  destruct (decide (hashed_text c = hashed_text c')) as [Ht|Ht]; [left|by right].
  assert (∀ l, (∀ e, e ∈ l → entry_ok e) → ∀ h, h ∈ map entry_hash l → _SHA256_RE h = true) as Hre
    by (intros l Hl h (e & -> & Hin)%list_elem_of_fmap; by apply Hl).
  apply joined_hashes_inj; [by apply Hre..|exact Ht].
Qed.

Lemma open_chain_sound : sound open_chain.
Proof.
  destruct (run_all_follows run_call step [CAddEntry acme 21 hash_a 11; CAddEntry acme 22 hash_b 12]
    (open 9 acme 3 4 10) chain_call_step) as [_ Hs _ _ _ _]. apply Hs, open_sound.
Qed.

Lemma chain_hash_binds_entries_witness :
  map entry_hash (entries open_chain) = map entry_hash (entries open_chain) ∨
  collision (hashed_text open_chain) (hashed_text open_chain).
Proof. apply chain_hash_binds_entries; [apply open_chain_sound..|reflexivity]. Defined.

(** The check of a chain whose entries have the hashes of a sound chain. *)
Lemma verified_report c es now : sound c → map entry_hash es = map entry_hash (entries c) →
  ∃ c', verify_chain_integrity (ch_tenant_id c) now (c <| entries := es |>) =
    (Ok (mkReport (chain_id c) "Verified" (chain_hash c) (chain_hash c) (Z.of_nat (length es))), c') ∧
    ch_integrity_status c' = ChainIntegrityStatus.VERIFIED ∧ entries c' = es.
Proof.
  intros [Hh _ _ _ _ _ _ _] Hes. set (c' := c <| entries := es |>).
  assert (_recompute_hash c' = chain_hash c) as Hr by (rewrite Hh; unfold _recompute_hash, c'; simpl; by rewrite Hes).
  unfold verify_chain_integrity, _assert_tenant, _mutate, _emit, report. cbv [mbind PyM_bind self raise_if modify mret PyM_ret].
  rewrite (bool_decide_eq_false_2 (ch_tenant_id c ≠ _)) by (intros Hn; by apply Hn).
  rewrite Hr, bool_decide_eq_true_2 by done. eexists. split; [reflexivity|done].
Qed.

(** The integrity check looks at the hashes of the entries only: replace the
    evidence ids, or the numbers, of the entries of a sound chain in any way, and
    its check still answers [Verified]. *)
Theorem integrity_check_ignores_evidence_ids c es now : sound c → map entry_hash es = map entry_hash (entries c) →
  let c' := c <| entries := es |> in
  ∃ c'', verify_chain_integrity (ch_tenant_id c) now c' =
    (Ok (mkReport (chain_id c) "Verified" (chain_hash c) (chain_hash c) (Z.of_nat (length es))), c'') ∧
    ch_integrity_status c'' = ChainIntegrityStatus.VERIFIED ∧ entries c'' = es.
Proof. intros Hs Hes c'. by apply verified_report. Qed.

(** The two entries of the chain, each with the evidence of the other. *)
Lemma integrity_check_ignores_evidence_ids_witness :
  ∃ c'', verify_chain_integrity acme 20 (open_chain <| entries := [mkEntry 22 1 hash_a; mkEntry 21 2 hash_b] |>) =
    (Ok (mkReport 9 "Verified" (chain_hash open_chain) (chain_hash open_chain) 2), c'') ∧
    ch_integrity_status c'' = ChainIntegrityStatus.VERIFIED ∧ entries c'' = [mkEntry 22 1 hash_a; mkEntry 21 2 hash_b].
Proof.
  apply (integrity_check_ignores_evidence_ids open_chain); [apply open_chain_sound|vm_compute; reflexivity].
Defined.
End Chain.
Export (hints) Chain.
