(* ===== verification/ExecEvidence.v ===== *)
(** The aggregate [evidence.domain.aggregates.execution_evidence.ExecutionEvidence]:
    the metadata of one piece of evidence, its custody and its retention. *)
From stdpp Require Import base tactics list strings sets relations.
From Stdlib Require Import ZArith Lia.
From S2P Require Import Prelude PyTypes PyStore Sha256 EvidenceData.

Local Open Scope Z_scope.

Record ExecutionEvidence := mkEvidence {
  ee_id : uuid;
  ee_tenant_id : TenantId;
  evidence_type : EvidenceType.t;
  payload_hash : string;
  storage_ref : string;
  encryption_key_ref : EvidenceEncryptionKeyRef;
  action_ref : uuid;
  engagement_ref : uuid;
  operation_ref : uuid;
  collected_at : datetime;
  collected_by : string;
  integrity_status : EvidenceIntegrityStatus.t;
  retention_class : RetentionClass.t;
  custody_chain : list CustodyRecord;
  corrections_ref : option uuid;
  quarantined : bool;
  retention_expired : bool;
  ee_created_at : datetime;
  ee_updated_at : datetime;
  ee_version : Z;
  ee_pending_events : list (DomainEvent EvidenceEvent)
}.
#[export] Instance ExecutionEvidence_settable : Settable ExecutionEvidence := fun e =>
  mkEvidence (ee_id e) (ee_tenant_id e) (evidence_type e) (payload_hash e) (storage_ref e) (encryption_key_ref e)
    (action_ref e) (engagement_ref e) (operation_ref e) (collected_at e) (collected_by e) (integrity_status e)
    (retention_class e) (custody_chain e) (corrections_ref e) (quarantined e) (retention_expired e) (ee_created_at e)
    (ee_updated_at e) (ee_version e) (ee_pending_events e).

(** The methods, in a name space of their own. *)
Module Evidence.

Abbreviation M := (PyM ExecutionEvidence EvidenceException).

Definition _emit (now : datetime) (x : EvidenceEvent) : M unit :=
  modify (fun e => e <| ee_pending_events ::= fun l => l ++ [mkEvent now (ee_tenant_id e) (ee_id e) x] |>).

Definition pop_events : M (list (DomainEvent EvidenceEvent)) :=
  e ← self;
  modify (fun e => e <| ee_pending_events := [] |>);;
  mret (ee_pending_events e).

Definition _mutate (now : datetime) : M unit :=
  modify (fun e => e <| ee_updated_at := now |> <| ee_version ::= Z.add 1 |>).

Definition _assert_tenant (t : TenantId) : M unit :=
  e ← self;
  raise_if (bool_decide (t ≠ ee_tenant_id e)) (TenantMismatch (ee_tenant_id e) t).

(** Years of 365 days, in microseconds. *)
Definition retention_expires_at (e : ExecutionEvidence) : datetime :=
  collected_at e + 365 * RETENTION_YEARS (retention_class e) * 86400000000.

(** A constructor that may raise [ValueError]. *)
Definition construct {A} (x : option A) : M A := match x with Some a => mret a | None => raise ValueError end.

(** [self.custody_chain.append(CustodyRecord(...))] *)
Definition append_custody (custodian : string) (now : datetime) (a : CustodyAction.t) : M unit :=
  r ← construct (CustodyRecord_new custodian now a);
  modify (fun e => e <| custody_chain ::= fun l => l ++ [r] |>).

(** [collect]; [corrects] that is nil is refused by [CorrectionsRef]. *)
Definition collect (id : uuid) (t : TenantId) (ty : EvidenceType.t) (hash storage : string)
    (key : EvidenceEncryptionKeyRef) (act engagement operation : uuid) (by_ : string) (retention : RetentionClass.t)
    (now : datetime) (corrects : option uuid) : option ExecutionEvidence :=
  custody ← CustodyRecord_new by_ now CustodyAction.COLLECTED;
  corrections ← match corrects with Some c => Some <$> non_nil c | None => Some None end;
  Some (snd (_emit now (ExecutionEvidenceCollected (EvidenceType.value ty) act operation hash storage by_)
    (mkEvidence id t ty hash storage key act engagement operation now by_ EvidenceIntegrityStatus.UNKNOWN retention
       [custody] corrections false false now now 0 []))).

Definition verify_integrity (t : TenantId) (computed_hash : string) (now : datetime) : M unit :=
  _assert_tenant t;;
  e ← self;
  raise_if (quarantined e) (EvidenceQuarantinedError (ee_id e));;
  if bool_decide (computed_hash = payload_hash e) then
    modify (fun e => e <| integrity_status := EvidenceIntegrityStatus.VERIFIED |>);;
    append_custody "system:integrity-verifier" now CustodyAction.VERIFIED;;
    _mutate now;;
    _emit now (EvidenceIntegrityVerified (payload_hash e))
  else
    modify (fun e => e <| integrity_status := EvidenceIntegrityStatus.TAMPERED |>);;
    modify (fun e => e <| quarantined := true |>);;
    append_custody "system:integrity-verifier" now CustodyAction.QUARANTINED;;
    _mutate now;;
    _emit now (EvidenceIntegrityFailed (payload_hash e) computed_hash);;
    _emit now (EvidenceQuarantined "hash_mismatch");;
    raise (EvidenceIntegrityViolation (ee_id e) (payload_hash e) computed_hash).

Definition transfer_custody (t : TenantId) (new_custodian : string) (custody_action : CustodyAction.t)
    (now : datetime) : M unit :=
  _assert_tenant t;;
  raise_if (empty_str new_custodian) (InvalidArgument "new_custodian must not be empty");;
  raise_if (bool_decide (custody_action ∉ [CustodyAction.TRANSFERRED; CustodyAction.VERIFIED; CustodyAction.QUARANTINED]))
    (InvalidArgument ("Invalid custody transfer action: " +:+ CustodyAction.value custody_action));;
  e ← self;
  let previous := from_option custodian_identity "" (last (custody_chain e)) in
  append_custody new_custodian now custody_action;;
  _mutate now;;
  _emit now (EvidenceCustodyTransferred previous new_custodian (CustodyAction.value custody_action)).

(** The retention window is over. *)
Definition _assert_expired (now : datetime) : M unit :=
  e ← self;
  raise_if (now <? retention_expires_at e)
    (RetentionWindowActive (ee_id e) (RetentionClass.value (retention_class e)) (retention_expires_at e)).

Definition request_deletion (t : TenantId) (now : datetime) : M unit :=
  _assert_tenant t;;
  _assert_expired now;;
  append_custody "system:retention" now CustodyAction.DELETION_REQUESTED;;
  _mutate now.

Definition mark_retention_expired (t : TenantId) (now : datetime) : M unit :=
  _assert_tenant t;;
  _assert_expired now;;
  e ← self;
  if retention_expired e then mret tt
  else
    modify (fun e => e <| retention_expired := true |>);;
    append_custody "system:retention" now CustodyAction.RETENTION_EXPIRED;;
    _mutate now;;
    _emit now (EvidenceRetentionExpired (RetentionClass.value (retention_class e))).

Inductive call :=
  | EVerify (t : TenantId) (computed_hash : string) (now : datetime)
  | ETransfer (t : TenantId) (new_custodian : string) (custody_action : CustodyAction.t) (now : datetime)
  | ERequestDeletion (t : TenantId) (now : datetime)
  | EMarkExpired (t : TenantId) (now : datetime)
  | EPopEvents.

Definition run_call (c : call) : M unit :=
  match c with
  | EVerify t h now => verify_integrity t h now
  | ETransfer t k a now => transfer_custody t k a now
  | ERequestDeletion t now => request_deletion t now
  | EMarkExpired t now => mark_retention_expired t now
  | EPopEvents => pop_events;; mret tt
  end.

(** ** What evidence keeps *)

(** The metadata written when it is collected. *)
Definition content (e : ExecutionEvidence) :=
  (ee_id e, ee_tenant_id e, evidence_type e, payload_hash e, storage_ref e, encryption_key_ref e,
   (action_ref e, engagement_ref e, operation_ref e), (collected_at e, collected_by e, retention_class e),
   corrections_ref e, ee_created_at e).

Definition custody_ok (r : CustodyRecord) : Prop := sized (custodian_identity r) 256 = true.

(** When a record of the retention rules may have been written. *)
Definition within_rules (e : ExecutionEvidence) (r : CustodyRecord) : Prop :=
  action r ∈ [CustodyAction.DELETION_REQUESTED; CustodyAction.RETENTION_EXPIRED] → retention_expires_at e ≤ timestamp r.

(** Evidence is quarantined exactly when it was found tampered; custody begins with
    its collector, and deletion is only asked for after the retention window. *)
Record sound (e : ExecutionEvidence) : Prop := {
  so_quarantine : quarantined e = true ↔ integrity_status e = EvidenceIntegrityStatus.TAMPERED;
  so_first : head (custody_chain e) = Some (mkCustody (collected_by e) (collected_at e) CustodyAction.COLLECTED);
  so_custody : ∀ r, r ∈ custody_chain e → custody_ok r;
  so_retention : ∀ r, r ∈ custody_chain e → within_rules e r;
  so_expired : retention_expired e = true ↔ CustodyAction.RETENTION_EXPIRED ∈ map action (custody_chain e);
  so_version : 0 ≤ ee_version e
}.

(** One call of sound evidence: the metadata stays, custody is only appended to,
    one record a version, and quarantine is for good. *)
Record step (e e' : ExecutionEvidence) : Prop := {
  st_content : content e' = content e;
  st_sound : sound e → sound e';
  st_custody : custody_chain e `prefix_of` custody_chain e';
  st_version : ee_version e' - ee_version e = Z.of_nat (length (custody_chain e')) - Z.of_nat (length (custody_chain e));
  st_quarantine : quarantined e = true →
    quarantined e' = true ∧ integrity_status e' = integrity_status e
}.

#[export] Instance step_preorder : PreOrder step.
Proof.
  split; [by intros e; split; try lia|]. intros a b c [F1 S1 C1 V1 Q1] [F2 S2 C2 V2 Q2].
  split; [congruence|auto|by etrans|lia|]. intros Hq. destruct (Q1 Hq) as [Hq' E1]. destruct (Q2 Hq') as [? E2].
  split; [done|congruence].
Qed.

(** A custody record that the constructor gives, and the constants it accepts. *)
Lemma custody_new_ok k now a r : CustodyRecord_new k now a = Some r → r = mkCustody k now a ∧ custody_ok r.
Proof. unfold CustodyRecord_new. destruct (sized k 256) eqn:Hk; [|done]. by intros [= <-]. Qed.

(** An allowed transfer is none of the actions of the retention rules. *)
Lemma transfer_action a : a ∈ [CustodyAction.TRANSFERRED; CustodyAction.VERIFIED; CustodyAction.QUARANTINED] →
  a ∉ [CustodyAction.DELETION_REQUESTED; CustodyAction.RETENTION_EXPIRED].
Proof. destruct a; by_compute. Qed.

(** Sound evidence with one more custody record. *)
Lemma sound_snoc e e' r : sound e → content e' = content e → custody_chain e' = custody_chain e ++ [r] →
  custody_ok r → within_rules e r → ee_version e' = 1 + ee_version e →
  (quarantined e' = true ↔ integrity_status e' = EvidenceIntegrityStatus.TAMPERED) →
  (retention_expired e' = true ↔ retention_expired e = true ∨ action r = CustodyAction.RETENTION_EXPIRED) → sound e'.
Proof.
  intros [Hq Hf Hc Hr He Hv] Hcon Happ Hok Hin Hver Hq' Hx. unfold content in Hcon.
  assert (collected_by e' = collected_by e ∧ collected_at e' = collected_at e ∧ retention_class e' = retention_class e)
    as (E1 & E2 & E3) by (injection Hcon; done).
  assert (∀ r', within_rules e' r' ↔ within_rules e r') as Hw
    by (intros r'; unfold within_rules, retention_expires_at; by rewrite E2, E3).
  split; [done| | | | |lia]; rewrite ?Happ.
  - rewrite E1, E2. destruct (custody_chain e); [done|exact Hf].
  - by apply (all_snoc custody_ok).
  - apply (all_snoc (within_rules e')); [intros r' Hr'; by apply Hw, Hr|by apply Hw].
  - rewrite Hx, He, map_app, elem_of_app. cbn [map]. rewrite list_elem_of_singleton. split; (intros [?|?]; [by left|by right]).
Qed.

Ltac unfold_evidence :=
  unfold verify_integrity, transfer_custody, request_deletion, mark_retention_expired, pop_events, append_custody,
    _assert_tenant, _assert_expired, _mutate, _emit, construct in *.

Lemma evidence_call_step c : follows run_call step c.
Proof.
  intros x. destruct c; simpl; unfold_evidence; wp_run; stable; try reflexivity.
  all: try match goal with H : CustodyRecord_new _ _ _ = Some _ |- _ => apply custody_new_ok in H as [-> ?] end.
  all: try (match goal with H : CustodyRecord_new _ _ _ = None |- _ => by vm_compute in H end).
  all: destruct x; simpl in *; simplify_eq.
  all: split; [done| |by (done || apply prefix_app_r)| |].
  all: try (simpl; rewrite ?length_app; simpl; lia).
  all: try (simpl; intros Hq; try (by destruct Hq); done).
  all: intros Hsound; eapply sound_snoc; [exact Hsound|done|done|done| |simpl; lia| |]; simpl;
    try (by apply (so_quarantine _ Hsound)); try naive_solver.
  all: try (intros Ha; simpl in Ha; first [exfalso; revert Ha; by_compute | exfalso; by eapply transfer_action]).
  all: try (intros _; simpl; unfold retention_expires_at in *; simpl in *; by apply Z.ltb_ge).
  all: split; [by left|]; intros [?| ->]; [done|]; exfalso; eapply transfer_action; [eassumption|by_compute].
Qed.

(** What [collect] gives. *)
Lemma collect_spec id t ty hash storage key act engagement operation by_ retention now corrects e :
  collect id t ty hash storage key act engagement operation by_ retention now corrects = Some e →
  sound e ∧ content e = (id, t, ty, hash, storage, key, (act, engagement, operation), (now, by_, retention), corrects, now) ∧
  ee_version e = 0 ∧ quarantined e = false ∧ integrity_status e = EvidenceIntegrityStatus.UNKNOWN ∧
  custody_chain e = [mkCustody by_ now CustodyAction.COLLECTED] ∧ corrects ≠ Some 0.
Proof.
  unfold collect. destruct (CustodyRecord_new _ _ _) as [r|] eqn:Hr; [|done]. apply custody_new_ok in Hr as [-> Hok].
  cbn [mbind option_bind]. destruct (match corrects with Some c => _ | None => _ end) as [cr|] eqn:Hc; [|done].
  assert (cr = corrects ∧ corrects ≠ Some 0) as [-> Hc0].
  { destruct corrects as [c|]; [|by simplify_eq]. destruct (non_nil c) as [c'|] eqn:Hn; [|done].
    apply non_nil_some in Hn as [Hne ->]. injection Hc as <-. split; [done|]. by intros [= ->]. }
  cbn [mbind option_bind]. intros [= <-]. split_and!; try done. split; simpl; try done.
  - intros r ->%list_elem_of_singleton. done.
  - intros r ->%list_elem_of_singleton Ha. exfalso. revert Ha. by_compute.
  - split; [done|]. intros Hx. exfalso. revert Hx. by_compute.
Qed.

(** A piece of evidence of 1970. *)
Definition acme : TenantId := mkEntityId 1.
Definition key1 : EvidenceEncryptionKeyRef := mkKeyRef "evk-1" 1.
Definition collected (retention : RetentionClass.t) : option ExecutionEvidence :=
  collect 5 acme EvidenceType.COMMAND_OUTPUT (sha256_hex "out") "evidence://a/b" key1 2 4 3 "ann" retention 100 None.

(** C17. Custody is append-only: through any calls, answered or refused, on evidence
    that was collected, its metadata, its payload hash included, stays what was
    collected; custody begins with the collector and later calls only append to
    it, one record for each version; it is quarantined exactly when its status is
    [Tampered], for good, whatever is verified or transferred later; and no record
    asks for its deletion, or says its retention is over, before the 3, 7 or 10
    years of 365 days of its retention class have passed. *)
Theorem custody_is_append_only id t ty hash storage key act engagement operation by_ retention now corrects e cs cs' :
  collect id t ty hash storage key act engagement operation by_ retention now corrects = Some e →
  let e1 := run_all run_call cs e in
  let e2 := run_all run_call cs' e1 in
  content e1 = content e ∧ head (custody_chain e1) = Some (mkCustody by_ now CustodyAction.COLLECTED) ∧
  ee_version e1 + 1 = Z.of_nat (length (custody_chain e1)) ∧ custody_chain e1 `prefix_of` custody_chain e2 ∧
  (quarantined e1 = true ↔ integrity_status e1 = EvidenceIntegrityStatus.TAMPERED) ∧
  (quarantined e1 = true → quarantined e2 = true ∧ integrity_status e2 = EvidenceIntegrityStatus.TAMPERED) ∧
  ∀ r, r ∈ custody_chain e1 → action r ∈ [CustodyAction.DELETION_REQUESTED; CustodyAction.RETENTION_EXPIRED] →
    now + 365 * RETENTION_YEARS retention * 86400000000 ≤ timestamp r.
Proof.
  intros Hcol e1 e2. apply collect_spec in Hcol as (Hs & Hcon & Hv & _ & _ & Hcu & _).
  destruct (run_all_follows run_call step cs e evidence_call_step) as [F1 S1 _ V1 _]. fold e1 in F1, S1, V1.
  specialize (S1 Hs). destruct (run_all_follows run_call step cs' e1 evidence_call_step) as [_ _ C2 _ Q2].
  fold e2 in C2, Q2. rewrite <- F1 in Hcon.
  assert (collected_at e1 = now ∧ collected_by e1 = by_ ∧ retention_class e1 = retention) as (E1 & E2 & E3)
    by (unfold content in Hcon; injection Hcon; done).
  split_and!; [done| | |done|apply (so_quarantine _ S1)| |].
  - by rewrite (so_first _ S1), E1, E2.
  - rewrite Hcu in V1. simpl in V1. lia.
  - intros Hq. destruct (Q2 Hq) as [? ->]. split; [done|]. by apply (so_quarantine _ S1).
  - intros r Hr Ha. pose proof (so_retention _ S1 r Hr Ha) as Hle. unfold retention_expires_at in Hle.
    by rewrite E1, E3 in Hle.
Qed.

(** Tampered evidence, which a matching hash does not clear; its deletion is asked
    for one microsecond early and in time. *)
Definition handled : list call :=
  [EVerify acme (sha256_hex "other") 200; EVerify acme (sha256_hex "out") 300;
   ERequestDeletion acme 94608000000099; ERequestDeletion acme 94608000000100].

Lemma custody_is_append_only_witness :
  ∃ e, collected RetentionClass.STANDARD = Some e ∧
    let e1 := run_all run_call handled e in
    map action (custody_chain e1) =
      [CustodyAction.COLLECTED; CustodyAction.QUARANTINED; CustodyAction.DELETION_REQUESTED] ∧
    content e1 = content e ∧ (quarantined e1 = true ↔ integrity_status e1 = EvidenceIntegrityStatus.TAMPERED).
Proof.
  destruct (collected RetentionClass.STANDARD) as [e|] eqn:He; [|by vm_compute in He]. exists e. split; [done|].
  intros e1. pose proof He as Hcol. unfold collected in Hcol.
  destruct (custody_is_append_only _ _ _ _ _ _ _ _ _ _ _ _ _ e handled [] Hcol) as (Hc & _ & _ & _ & Hq & _).
  split_and!; [|exact Hc|exact Hq]. unfold e1. clear -He. vm_compute in He. injection He as <-. vm_compute. reflexivity.
Defined.
End Evidence.
Export (hints) Evidence.
