(* ===== verification/EvidenceVault.v ===== *)
(** What the evidence service keeps outside the database: the store of encrypted
    payloads ([in_memory_evidence_blob_store.py]) and the keys
    ([in_memory_key_management.py]), which [EvidenceContainer] wires by default. *)
From stdpp Require Import base tactics list strings sets.
From Stdlib Require Import ZArith Lia.
From S2P Require Import Prelude PyTypes PyStore Sha256 EvidenceData.

Local Open Scope Z_scope.

(** ** Libraries *)

Abbreviation bytes := (list Z).

(** [cryptography.fernet.Fernet]: keys and tokens are drawn at random, here from a
    seed; [decrypt] of a token of the same key gives the message, [None] is
    [InvalidToken]. *)
Class Fernet := {
  fernet_key : Type;
  generate_key : Z → fernet_key;
  fernet_encrypt : fernet_key → Z → bytes → bytes;
  fernet_decrypt : fernet_key → bytes → option bytes;
  fernet_round k seed m : fernet_decrypt k (fernet_encrypt k seed m) = Some m
}.

(** The 26 characters of [str(ULID)]. *)
Class UlidText := {
  str_ulid : TenantId → string;
  str_ulid_length t : String.length (str_ulid t) = 26%nat
}.

(** Exceptions of the two stores. *)
Inductive VaultError :=
  | VaultKeyError
  | VaultValueError.

(** ** InMemoryEvidenceBlobStore

    The dictionary keys [(str(tenant_id), ref.value)], with the tenant for its
    text; [_key_meta], which nothing reads, is kept as the code keeps it. *)

Record Blobs := mkBlobs {
  _blobs : list ((TenantId * string) * bytes);
  _key_meta : list ((TenantId * string) * EvidenceEncryptionKeyRef)
}.
#[export] Instance Blobs_settable : Settable Blobs := fun b => mkBlobs (_blobs b) (_key_meta b).

Module BlobStore.
Section BlobStore.
Context `{!UlidText}.

Abbreviation M := (PyM Blobs VaultError).

(** [put]; the reference is drawn with [uuid7()]. *)
Definition put (t : TenantId) (ciphertext : bytes) (key : EvidenceEncryptionKeyRef) (new_id : uuid) : M string :=
  match EvidenceStorageRef_new ("evidence://" +:+ str_ulid t +:+ "/" +:+ str_uuid new_id) with
  | None => raise VaultValueError
  | Some ref =>
      modify (fun b => b <| _blobs ::= fun d => dset d (t, ref) ciphertext |>);;
      modify (fun b => b <| _key_meta ::= fun d => dset d (t, ref) key |>);;
      mret ref
  end.

Definition get (t : TenantId) (ref : string) : M bytes :=
  b ← self;
  match dget (_blobs b) (t, ref) with
  | Some ciphertext => mret ciphertext
  | None => raise VaultKeyError
  end.

Definition exists_ (t : TenantId) (ref : string) (b : Blobs) : bool := bool_decide ((t, ref) ∈ dkeys (_blobs b)).

(** [hash_payload] *)
Definition hash_payload (payload : bytes) : string := from_payload payload.

(** [tamper]: the last byte is inverted. *)
Definition tampered (original : bytes) : bytes :=
  match last original with
  | Some b => take (length original - 1) original ++ [Z.lxor b 0xff]
  | None => [0xff]
  end.
Definition tamper (t : TenantId) (ref : string) : M unit :=
  original ← get t ref;
  modify (fun b => b <| _blobs ::= fun d => dset d (t, ref) (tampered original) |>).
End BlobStore.
End BlobStore.

(** ** InMemoryKeyManagementPort *)

Section Kms.
Context `{!Fernet}.

Record Kms := mkKms {
  _current : list (TenantId * (string * Z));
  _keys : list ((TenantId * string * Z) * fernet_key)
}.
#[export] Instance Kms_settable : Settable Kms := fun k => mkKms (_current k) (_keys k).
End Kms.
Arguments Kms {_}.
Arguments mkKms {_}.

Module Keys.
Section Keys.
Context `{!Fernet}.

Abbreviation M := (PyM Kms VaultError).

Definition key_ref (id : string) (v : Z) : M EvidenceEncryptionKeyRef :=
  match EvidenceEncryptionKeyRef_new id v with Some r => mret r | None => raise VaultValueError end.

(** [_ensure_current]; [new_id] and [seed] are what [uuid7()] and
    [Fernet.generate_key()] draw when the tenant has no key. *)
Definition _ensure_current (t : TenantId) (new_id : uuid) (seed : Z) : M EvidenceEncryptionKeyRef :=
  k ← self;
  match dget (_current k) t with
  | Some (id, v) => key_ref id v
  | None =>
      let id := "evk-" +:+ str_uuid new_id in
      modify (fun k => k <| _current ::= fun d => dset d t (id, 1) |>);;
      modify (fun k => k <| _keys ::= fun d => dset d (t, id, 1) (generate_key seed) |>);;
      key_ref id 1
  end.

Definition rotate (t : TenantId) (new_id : uuid) (seed seed' : Z) : M EvidenceEncryptionKeyRef :=
  current ← _ensure_current t new_id seed;
  let new_version := key_version current + 1 in
  modify (fun k => k <| _current ::= fun d => dset d t (key_id current, new_version) |>);;
  modify (fun k => k <| _keys ::= fun d => dset d (t, key_id current, new_version) (generate_key seed') |>);;
  key_ref (key_id current) new_version.

Definition _fernet (t : TenantId) (r : EvidenceEncryptionKeyRef) : M fernet_key :=
  k ← self;
  match dget (_keys k) (t, key_id r, key_version r) with Some key => mret key | None => raise VaultValueError end.

Definition generate_key_ref (t : TenantId) (new_id : uuid) (seed : Z) : M EvidenceEncryptionKeyRef :=
  _ensure_current t new_id seed.

Definition encrypt (t : TenantId) (r : EvidenceEncryptionKeyRef) (seed : Z) (plaintext : bytes) : M bytes :=
  key ← _fernet t r;
  mret (fernet_encrypt key seed plaintext).

Definition decrypt (t : TenantId) (r : EvidenceEncryptionKeyRef) (ciphertext : bytes) : M bytes :=
  key ← _fernet t r;
  match fernet_decrypt key ciphertext with Some m => mret m | None => raise VaultValueError end.

Definition rewrap (t : TenantId) (old : EvidenceEncryptionKeyRef) (ciphertext : bytes) (new_id : uuid)
    (seed seed' : Z) : M (bytes * EvidenceEncryptionKeyRef) :=
  plaintext ← decrypt t old ciphertext;
  new_ref ← generate_key_ref t new_id seed;
  new_ciphertext ← encrypt t new_ref seed' plaintext;
  mret (new_ciphertext, new_ref).

Inductive call :=
  | KGenerate (t : TenantId) (new_id : uuid) (seed : Z)
  | KRotate (t : TenantId) (new_id : uuid) (seed seed' : Z)
  | KEncrypt (t : TenantId) (r : EvidenceEncryptionKeyRef) (seed : Z) (plaintext : bytes)
  | KDecrypt (t : TenantId) (r : EvidenceEncryptionKeyRef) (ciphertext : bytes)
  | KRewrap (t : TenantId) (old : EvidenceEncryptionKeyRef) (ciphertext : bytes) (new_id : uuid) (seed seed' : Z).

Definition run_call (c : call) : M unit :=
  match c with
  | KGenerate t i s => generate_key_ref t i s;; mret tt
  | KRotate t i s s' => rotate t i s s';; mret tt
  | KEncrypt t r s m => encrypt t r s m;; mret tt
  | KDecrypt t r c => decrypt t r c;; mret tt
  | KRewrap t r c i s s' => rewrap t r c i s s';; mret tt
  end.

(** Every key of a tenant has a version up to its current one, and the current one
    has a key; [uuid7()] never gives an id twice, so a new key id is not one a
    tenant already has: a tenant has keys of its current id only. *)
Record sound (k : Kms) : Prop := {
  kd_current : ∀ t id v, dget (_current k) t = Some (id, v) → 1 ≤ v ∧ sized id 256 = true ∧ is_Some (dget (_keys k) (t, id, v));
  kd_keys : ∀ t id v, is_Some (dget (_keys k) (t, id, v)) → ∃ v', dget (_current k) t = Some (id, v') ∧ v ≤ v'
}.

(** One call keeps every key that was ever generated. *)
Record step (k k' : Kms) : Prop := {
  ks_sound : sound k → sound k';
  ks_keys : sound k → ∀ r key, dget (_keys k) r = Some key → dget (_keys k') r = Some key
}.
#[export] Instance step_preorder : PreOrder step.
Proof. split; [by intros k; split|]. intros a b c [S1 K1] [S2 K2]. split; [auto|]. intros Hs r key Hk. by apply K2, K1; auto. Qed.

Definition empty_kms : Kms := mkKms [] [].

Lemma empty_sound : sound empty_kms.
Proof. split; [done|]. by intros t id v []. Qed.

Lemma key_id_sized i : sized ("evk-" +:+ str_uuid i) 256 = true.
Proof.
  unfold sized, empty_str. rewrite bool_decide_eq_false_2 by done. apply bool_decide_eq_true_2.
  unfold str_uuid. rewrite !string_length_app, !hex_length. simpl. lia.
Qed.

(** A tenant's key set to a new version. *)
Definition new_key (t : TenantId) (id : string) (v : Z) (key : fernet_key) (k : Kms) : Kms :=
  k <| _current ::= fun d => dset d t (id, v) |> <| _keys ::= fun d => dset d (t, id, v) key |>.

Lemma new_key_step t id v key k : 1 ≤ v → sized id 256 = true →
  (∀ id' v', dget (_current k) t = Some (id', v') → id' = id ∧ v' < v) → step k (new_key t id v key k).
Proof.
  intros Hv Hid Hcur.
  assert (sound k → ∀ r x, dget (_keys k) r = Some x → r ≠ (t, id, v)) as Hnew.
  { intros [_ Hk] [[t' id'] v'] x Hx [= -> -> ->]. destruct (Hk t id v) as (v' & Hc & Hle); [by exists x|].
    apply Hcur in Hc as [_ Hlt]. lia. }
  split.
  - intros Hs. pose proof (Hnew Hs) as Hn. destruct Hs as [Hc Hk]. split; unfold new_key; simpl.
    + intros t' id' v'. destruct (decide (t = t')) as [<-|Hne].
      * rewrite dget_dset_eq. intros [= <- <-]. by rewrite dget_dset_eq.
      * rewrite dget_dset_ne by done. intros Hd. destruct (Hc t' id' v' Hd) as (? & ? & ?).
        rewrite dget_dset_ne by congruence. done.
    + intros t' id' v'. destruct (decide ((t, id, v) = (t', id', v'))) as [[= <- <- <-]|Hne].
      * intros _. exists v. by rewrite dget_dset_eq.
      * rewrite dget_dset_ne by done. intros Hd. destruct (Hk t' id' v' Hd) as (w & Hw & Hle).
        destruct (decide (t = t')) as [<-|Hnt]; [|rewrite dget_dset_ne by done; by exists w].
        rewrite dget_dset_eq. destruct (Hcur _ _ Hw) as [-> ?]. exists v. split; [done|lia].
  - intros Hs r x Hx. unfold new_key. simpl. rewrite dget_dset_ne; [done|]. intros <-. by eapply Hnew.
Qed.

Lemma key_ref_ok id v k : sized id 256 = true → 1 ≤ v → key_ref id v k = (Ok (mkKeyRef id v), k).
Proof.
  intros Hs Hv. unfold key_ref, EvidenceEncryptionKeyRef_new. rewrite Hs. cbn [negb].
  by rewrite (proj2 (Z.ltb_ge _ _)) by lia.
Qed.

(** [_ensure_current] answers the current key of the tenant, a new one when it has
    none. *)
Lemma ensure_spec t i s k : sound k → ∃ r k', _ensure_current t i s k = (Ok r, k') ∧ step k k' ∧
  dget (_current k') t = Some (key_id r, key_version r) ∧ is_Some (dget (_keys k') (t, key_id r, key_version r)) ∧
  1 ≤ key_version r ∧ sized (key_id r) 256 = true ∧
  ∀ id v, dget (_current k) t = Some (id, v) → k' = k.
Proof.
  intros Hs. unfold _ensure_current, self, mbind, PyM_bind, modify.
  destruct (dget (_current k) t) as [[id v]|] eqn:Hc.
  - destruct (kd_current k Hs t id v Hc) as (Hv & Hid & Hk). rewrite key_ref_ok by done.
    exists (mkKeyRef id v), k. by split_and!.
  - rewrite key_ref_ok by (lia || apply key_id_sized). eexists (mkKeyRef _ 1), _. split; [reflexivity|].
    split_and!; [|by (simpl; rewrite dget_dset_eq)|by (simpl; rewrite dget_dset_eq)|done|apply key_id_sized|done].
    apply (new_key_step t _ 1); [lia|apply key_id_sized|]. intros id' v'. by rewrite Hc.
Qed.

Lemma rotate_spec t i s s' k : sound k → ∃ r k', rotate t i s s' k = (Ok r, k') ∧ step k k' ∧
  dget (_current k') t = Some (key_id r, key_version r) ∧
  ∀ id v, dget (_current k) t = Some (id, v) → r = mkKeyRef id (v + 1).
Proof.
  intros Hs. destruct (ensure_spec t i s k Hs) as (r & k1 & Heq & Hst & Hcur & _ & Hv & Hid & Hold).
  unfold rotate, mbind, PyM_bind, modify. rewrite Heq. rewrite key_ref_ok by (done || lia).
  exists (mkKeyRef (key_id r) (key_version r + 1)). eexists. split; [reflexivity|]. split_and!.
  - etrans; [exact Hst|]. apply (new_key_step t _ _); [lia|done|]. intros id' v'. rewrite Hcur.
    intros [= <- <-]. split; [done|lia].
  - simpl. by rewrite dget_dset_eq.
  - intros id v Hc. rewrite (Hold id v Hc), Hc in Hcur. by injection Hcur as -> ->.
Qed.

(** Encryption and decryption keep the keys. *)
Lemma encrypt_same t r s m k : (encrypt t r s m k).2 = k.
Proof. unfold encrypt, _fernet, mbind, PyM_bind, self. by destruct (dget _ _). Qed.
Lemma decrypt_same t r c k : (decrypt t r c k).2 = k.
Proof. unfold decrypt, _fernet, mbind, PyM_bind, self. destruct (dget _ _) as [f|]; [|done]. cbn. by destruct (fernet_decrypt f c). Qed.

Lemma fernet_ok t r k key : dget (_keys k) (t, key_id r, key_version r) = Some key →
  (∀ s m, encrypt t r s m k = (Ok (fernet_encrypt key s m), k)) ∧
  ∀ s m, decrypt t r (fernet_encrypt key s m) k = (Ok m, k).
Proof.
  intros Hk. unfold encrypt, decrypt, _fernet, mbind, PyM_bind, self. rewrite Hk. split; [done|].
  intros s m. cbn. by rewrite fernet_round.
Qed.

Lemma call_step c k : sound k → step k (run_call c k).2.
Proof.
  intros Hs. destruct c; simpl; unfold generate_key_ref, rewrap, mbind, PyM_bind.
  - destruct (ensure_spec t new_id seed k Hs) as (r & k' & -> & Hst & _). done.
  - destruct (rotate_spec t new_id seed seed' k Hs) as (r & k' & -> & Hst & _). done.
  - rewrite (surjective_pairing (encrypt t r seed plaintext k)), encrypt_same. by destruct (encrypt _ _ _ _ _).1.
  - rewrite (surjective_pairing (decrypt t r ciphertext k)), decrypt_same. by destruct (decrypt _ _ _ _).1.
  - rewrite (surjective_pairing (decrypt t old ciphertext k)), decrypt_same. destruct (decrypt _ _ _ _).1 as [m|]; [|done].
    unfold generate_key_ref. destruct (ensure_spec t new_id seed k Hs) as (r & k' & -> & Hst & _).
    rewrite (surjective_pairing (encrypt t r seed' m k')), encrypt_same. by destruct (encrypt _ _ _ _ _).1.
Qed.

Lemma calls_step cs k : sound k → step k (run_all run_call cs k).
Proof.
  revert k. induction cs as [|c cs IH]; intros k Hs; simpl; [done|]. pose proof (call_step c k Hs) as Hst.
  etrans; [exact Hst|]. apply IH. by apply Hst.
Qed.

(** Rotation loses nothing: whatever was done with the keys before, a tenant is
    given a key reference and encrypts under it; after any further calls, rotations
    included, the ciphertext decrypts under the reference it was stored with, and a
    rewrap answers a ciphertext of the same payload under the current version of
    the same key. *)
Theorem rotation_keeps_evidence_readable cs cs' t i s seed m i' s1 s2 :
  let k := run_all run_call cs empty_kms in
  ∃ r k1 c, generate_key_ref t i s k = (Ok r, k1) ∧ encrypt t r seed m k1 = (Ok c, k1) ∧
    let k2 := run_all run_call cs' k1 in
    decrypt t r c k2 = (Ok m, k2) ∧
    ∃ c' r', rewrap t r c i' s1 s2 k2 = (Ok (c', r'), k2) ∧ key_id r' = key_id r ∧ key_version r ≤ key_version r' ∧
      decrypt t r' c' k2 = (Ok m, k2).
Proof.
  intros k. assert (sound k) as Hs by exact (ks_sound _ _ (calls_step cs _ empty_sound) empty_sound).
  destruct (ensure_spec t i s k Hs) as (r & k1 & Heq & Hst & Hcur & [key Hkey] & _).
  assert (sound k1) as Hs1 by by apply Hst. destruct (fernet_ok t r k1 key Hkey) as [Henc _].
  exists r, k1, (fernet_encrypt key seed m). split; [exact Heq|]. split; [apply Henc|]. intros k2.
  pose proof (calls_step cs' k1 Hs1) as Hst2. fold k2 in Hst2. assert (sound k2) as Hs2 by by apply Hst2.
  pose proof (ks_keys _ _ Hst2 Hs1 _ _ Hkey) as Hkey2. destruct (fernet_ok t r k2 key Hkey2) as [_ Hdec].
  split; [apply Hdec|].
  destruct (kd_keys k2 Hs2 t (key_id r) (key_version r)) as (v & Hv & Hle); [by rewrite Hkey2|].
  destruct (ensure_spec t i' s1 k2 Hs2) as (r' & k3 & Heq3 & _ & Hcur3 & [key' Hkey'] & _ & _ & Hold).
  rewrite (Hold _ _ Hv) in *. clear Hold. rewrite Hv in Hcur3. injection Hcur3 as Hid ->.
  destruct (fernet_ok t r' k2 key' Hkey') as [Henc' Hdec'].
  exists (fernet_encrypt key' s2 m), r'. split_and!; [|done|done|apply Hdec'].
  unfold rewrap, generate_key_ref, mbind, PyM_bind. by rewrite Hdec, Heq3, Henc'.
Qed.
End Keys.

(** ** Instances for the witnesses *)

(** A token that names its key. *)
Definition labelled : Fernet.
Proof.
  refine {| fernet_key := Z; generate_key := fun seed => seed;
            fernet_encrypt := fun k seed m => k :: seed :: m;
            fernet_decrypt := fun k c => match c with k' :: _ :: m => if k' =? k then Some m else None | _ => None end |}.
  intros k seed m. by rewrite Z.eqb_refl.
Defined.

(** The keys of a tenant are generated with seed 7; after the encryption they are
    rotated with seed 8. *)
Lemma rotation_keeps_evidence_readable_witness :
  let t := mkEntityId 1 in
  let k1 := (generate_key_ref (H := labelled) t 5 7 empty_kms).2 in
  ∃ c, encrypt (H := labelled) t (mkKeyRef ("evk-" +:+ str_uuid 5) 1) 9 [1; 2] k1 = (Ok c, k1) ∧
    (decrypt (H := labelled) t (mkKeyRef ("evk-" +:+ str_uuid 5) 1) c (run_all run_call [KRotate t 0 0 8] k1)).1 =
      Ok [1; 2].
Proof.
  intros t k1.
  destruct (rotation_keeps_evidence_readable (H := labelled) [] [KRotate t 0 0 8] t 5 7 9 [1; 2] 0 0 0)
    as (r & k1' & c & Hg & He & Hd & _).
  assert (k1' = k1) as -> by (unfold k1; simpl in Hg; by rewrite Hg).
  assert (r = mkKeyRef ("evk-" +:+ str_uuid 5) 1) as ->.
  { assert ((generate_key_ref (H := labelled) t 5 7 empty_kms).1 = Ok (mkKeyRef ("evk-" +:+ str_uuid 5) 1)) as Hr
      by (vm_compute; reflexivity).
    simpl in Hg. rewrite Hg in Hr. by injection Hr. }
  exists c. split; [exact He|]. by rewrite Hd.
Defined.
End Keys.

(** Crockford's base 32. *)
Definition crockford : string := "0123456789ABCDEFGHJKMNPQRSTVWXYZ".
Fixpoint base32 (w : nat) (n : Z) : string :=
  match w with
  | O => EmptyString
  | S w' => String (default Ascii.zero (String.get (Z.to_nat (Z.land (Z.shiftr n (5 * Z.of_nat w')) 31)) crockford)) (base32 w' n)
  end.
Lemma base32_length w n : String.length (base32 w n) = w.
Proof. induction w as [|w IH]; [done|]. cbn [base32 String.length]. by rewrite IH. Qed.
Definition base32_ulid : UlidText := {| str_ulid := fun t => base32 26 (ulid t); str_ulid_length t := base32_length 26 (ulid t) |}.

Example base32_example : base32 26 (2 ^ 128 - 1) = "7ZZZZZZZZZZZZZZZZZZZZZZZZZ".
Proof. vm_compute. reflexivity. Qed.
