(* ===== verification/EvidenceStore.v ===== *)
(** Persistence of evidence: the JSON columns, the two tables with their keys, the
    identity map of a session, and the two repositories with their optimistic
    locking. *)
From stdpp Require Import base tactics list strings sets sorting.
From Stdlib Require Import ZArith Lia.
From S2P Require Import Prelude PyTypes PyParse PyJson PyStore Sha256 EvidenceData EvidenceChain ExecEvidence.

Local Open Scope Z_scope.

(** ** Tables *)

Record EvidenceRow := mkEvidenceRow {
  er_id : uuid; er_tenant_id : TenantId; er_evidence_type : string; er_payload_hash : string; er_storage_ref : string;
  er_key_id : string; er_key_version : Z; er_action_id : uuid; er_engagement_id : uuid; er_operation_id : uuid;
  er_collected_at : datetime; er_collected_by : string; er_integrity_status : string; er_retention_class : string;
  er_corrections_ref : option uuid; er_custody_chain_json : Json; er_quarantined : bool; er_retention_expired : bool;
  er_created_at : datetime; er_updated_at : datetime; er_row_version : Z }.
#[export] Instance EvidenceRow_settable : Settable EvidenceRow := fun r =>
  mkEvidenceRow (er_id r) (er_tenant_id r) (er_evidence_type r) (er_payload_hash r) (er_storage_ref r) (er_key_id r)
    (er_key_version r) (er_action_id r) (er_engagement_id r) (er_operation_id r) (er_collected_at r)
    (er_collected_by r) (er_integrity_status r) (er_retention_class r) (er_corrections_ref r)
    (er_custody_chain_json r) (er_quarantined r) (er_retention_expired r) (er_created_at r) (er_updated_at r)
    (er_row_version r).

Record ChainRow := mkChainRow {
  hr_id : uuid; hr_tenant_id : TenantId; hr_operation_id : uuid; hr_engagement_id : uuid; hr_state : string;
  hr_chain_hash : string; hr_integrity_status : string; hr_entries_json : Json;
  hr_sealed_by_operator_id : option uuid; hr_sealed_at : option datetime; hr_sealer_role : option string;
  hr_seal_signature : option string; hr_submission_destination_ref : option string; hr_created_at : datetime;
  hr_updated_at : datetime; hr_row_version : Z }.
#[export] Instance ChainRow_settable : Settable ChainRow := fun r =>
  mkChainRow (hr_id r) (hr_tenant_id r) (hr_operation_id r) (hr_engagement_id r) (hr_state r) (hr_chain_hash r)
    (hr_integrity_status r) (hr_entries_json r) (hr_sealed_by_operator_id r) (hr_sealed_at r) (hr_sealer_role r)
    (hr_seal_signature r) (hr_submission_destination_ref r) (hr_created_at r) (hr_updated_at r) (hr_row_version r).

Record EvDb := mkEvDb { eb_evidence : list EvidenceRow; eb_chains : list ChainRow }.
#[export] Instance EvDb_settable : Settable EvDb := fun d => mkEvDb (eb_evidence d) (eb_chains d).
Definition empty_ev_db : EvDb := mkEvDb [] [].

(** ** Mapping *)

(** A value used as a [str]. *)
Definition as_str (j : Json) : option string := match j with JStr s => Some s | _ => None end.

Definition custody_item (r : CustodyRecord) : Json :=
  JObj [("custodian_identity", JStr (custodian_identity r)); ("timestamp", JStr (isoformat (timestamp r)));
        ("action", JStr (CustodyAction.value (action r)))].
Definition custody_to_json (l : list CustodyRecord) : Json := JObj [("records", JArr (map custody_item l))].

Definition custody_of_item (item : Json) : option CustodyRecord :=
  match item with
  | JObj d =>
      k ← dget d "custodian_identity" ≫= as_str;
      s ← dget d "timestamp" ≫= as_str;
      at_ ← fromisoformat s;
      text ← dget d "action" ≫= as_str;
      a ← of_text CustodyAction.value CustodyAction.all text;
      CustodyRecord_new k at_ a
  | _ => None
  end.

(** [json.get(key, [])], a list. *)
Definition items_of {A} (key : string) (dec : Json → option A) (json : Json) : option (list A) :=
  match json with
  | JObj d => match dget_default d key (JArr []) with JArr l => mapM dec l | _ => None end
  | _ => None
  end.

(** [PgExecutionEvidenceRepository._to_model] *)
Definition evidence_to_row (e : ExecutionEvidence) : EvidenceRow :=
  mkEvidenceRow (ee_id e) (ee_tenant_id e) (EvidenceType.value (evidence_type e)) (payload_hash e) (storage_ref e)
    (key_id (encryption_key_ref e)) (key_version (encryption_key_ref e)) (action_ref e) (engagement_ref e)
    (operation_ref e) (collected_at e) (collected_by e) (EvidenceIntegrityStatus.value (integrity_status e))
    (RetentionClass.value (retention_class e)) (corrections_ref e) (custody_to_json (custody_chain e)) (quarantined e)
    (retention_expired e) (ee_created_at e) (ee_updated_at e) (ee_version e).

(** [PgExecutionEvidenceRepository._to_domain] *)
Definition evidence_from_row (r : EvidenceRow) : option ExecutionEvidence :=
  custody ← items_of "records" custody_of_item (er_custody_chain_json r);
  id ← non_nil (er_id r);
  ty ← of_text EvidenceType.value EvidenceType.all (er_evidence_type r);
  hash ← EvidencePayloadHash_new (er_payload_hash r);
  storage ← EvidenceStorageRef_new (er_storage_ref r);
  key ← EvidenceEncryptionKeyRef_new (er_key_id r) (er_key_version r);
  act ← non_nil (er_action_id r);
  engagement ← non_nil (er_engagement_id r);
  operation ← non_nil (er_operation_id r);
  by_ ← CollectedBy_new (er_collected_by r);
  st ← of_text EvidenceIntegrityStatus.value EvidenceIntegrityStatus.all (er_integrity_status r);
  rc ← of_text RetentionClass.value RetentionClass.all (er_retention_class r);
  corrections ← match er_corrections_ref r with Some c => Some <$> non_nil c | None => Some None end;
  Some (mkEvidence id (er_tenant_id r) ty hash storage key act engagement operation (er_collected_at r) by_ st rc
          custody corrections (er_quarantined r) (er_retention_expired r) (er_created_at r) (er_updated_at r)
          (er_row_version r) []).

(** What an update writes. *)
Definition updated_evidence_row (e : ExecutionEvidence) (r : EvidenceRow) : EvidenceRow :=
  r <| er_integrity_status := EvidenceIntegrityStatus.value (integrity_status e) |>
    <| er_custody_chain_json := custody_to_json (custody_chain e) |> <| er_quarantined := quarantined e |>
    <| er_retention_expired := retention_expired e |> <| er_updated_at := ee_updated_at e |>
    <| er_row_version := ee_version e |>.

Definition entry_item (e : ChainEntry) : Json :=
  JObj [("evidence_id", JStr (str_uuid (evidence_id e))); ("sequence", JInt (sequence e));
        ("entry_hash", JStr (entry_hash e))].
Definition entries_to_json (l : list ChainEntry) : Json := JObj [("entries", JArr (map entry_item l))].

Definition entry_of_item (item : Json) : option ChainEntry :=
  match item with
  | JObj d =>
      s ← dget d "evidence_id" ≫= as_str;
      u ← uuid_of_text s;
      n ← dget d "sequence" ≫= py_int;
      h ← dget d "entry_hash" ≫= as_str;
      ChainEntry_new u n h
  | _ => None
  end.

(** [PgEvidenceChainRepository._to_model] *)
Definition chain_to_row (c : EvidenceChain) : ChainRow :=
  mkChainRow (chain_id c) (ch_tenant_id c) (ch_operation_ref c) (ch_engagement_ref c) (ChainState.value (ch_state c))
    (chain_hash c) (ChainIntegrityStatus.value (ch_integrity_status c)) (entries_to_json (entries c))
    (operator_id <$> sealed_by c) (sealed_at <$> sealed_by c) (role <$> sealed_by c) (signature <$> sealed_by c)
    (submission_destination_ref c) (ch_created_at c) (ch_updated_at c) (ch_version c).

(** [PgEvidenceChainRepository._to_domain] *)
Definition chain_from_row (r : ChainRow) : option EvidenceChain :=
  es ← items_of "entries" entry_of_item (hr_entries_json r);
  by_ ← match hr_sealed_by_operator_id r, hr_sealed_at r with
        | Some o, Some at_ =>
            Some <$> SealedBy_new o at_ (default "" (hr_sealer_role r)) (default "" (hr_seal_signature r))
        | _, _ => Some None
        end;
  id ← non_nil (hr_id r);
  operation ← non_nil (hr_operation_id r);
  engagement ← non_nil (hr_engagement_id r);
  hash ← ChainHash_new (hr_chain_hash r);
  st ← of_text ChainState.value ChainState.all (hr_state r);
  integrity ← of_text ChainIntegrityStatus.value ChainIntegrityStatus.all (hr_integrity_status r);
  Some (mkChain id (hr_tenant_id r) operation engagement es hash st integrity by_ (hr_submission_destination_ref r)
          (hr_created_at r) (hr_updated_at r) (hr_row_version r) []).

(** What an update writes. *)
Definition updated_chain_row (c : EvidenceChain) (r : ChainRow) : ChainRow :=
  r <| hr_state := ChainState.value (ch_state c) |> <| hr_chain_hash := chain_hash c |>
    <| hr_integrity_status := ChainIntegrityStatus.value (ch_integrity_status c) |>
    <| hr_entries_json := entries_to_json (entries c) |>
    <| hr_sealed_by_operator_id := operator_id <$> sealed_by c |> <| hr_sealed_at := sealed_at <$> sealed_by c |>
    <| hr_sealer_role := role <$> sealed_by c |> <| hr_seal_signature := signature <$> sealed_by c |>
    <| hr_submission_destination_ref := submission_destination_ref c |> <| hr_updated_at := ch_updated_at c |>
    <| hr_row_version := ch_version c |>.

(** ** Sessions

    A session sees the tables as they are when it asks, with its own writes; a row
    it has loaded it keeps, by primary key, and answers from then on.  The rows it
    has itself inserted are asked for again, which no unit of work of the service
    does. *)

Record EvSession := mkEvSession { es_db : EvDb; es_evidence : list EvidenceRow; es_chains : list ChainRow }.
#[export] Instance EvSession_settable : Settable EvSession := fun s =>
  mkEvSession (es_db s) (es_evidence s) (es_chains s).
Definition new_session (db : EvDb) : EvSession := mkEvSession db [] [].

(** What the repositories raise. *)
Inductive EvStoreError :=
  | OptimisticLockConflict (aggregate_type : string) (aggregate_id : uuid)
  | IntegrityError
  | MultipleResultsFound
  | CorruptRow.

Abbreviation SM := (PyM EvSession EvStoreError).

Definition decoded_row {A} (x : option A) : SM A := match x with Some a => mret a | None => raise CorruptRow end.

Definition has_evidence_id (id : uuid) (r : EvidenceRow) : bool := bool_decide (er_id r = id).
Definition has_chain_id (id : uuid) (r : ChainRow) : bool := bool_decide (hr_id r = id).

(** The row of a result as the session knows it: what it has loaded before is not
    overwritten. *)
Definition identify_evidence (row : EvidenceRow) : SM EvidenceRow :=
  s ← self;
  match find (has_evidence_id (er_id row)) (es_evidence s) with
  | Some known => mret known
  | None => modify (fun s => s <| es_evidence ::= cons row |>);; mret row
  end.
Definition identify_chain (row : ChainRow) : SM ChainRow :=
  s ← self;
  match find (has_chain_id (hr_id row)) (es_chains s) with
  | Some known => mret known
  | None => modify (fun s => s <| es_chains ::= cons row |>);; mret row
  end.

(** [session.get(Model, id)] *)
Definition get_evidence (id : uuid) : SM (option EvidenceRow) :=
  s ← self;
  match find (has_evidence_id id) (es_evidence s) with
  | Some known => mret (Some known)
  | None =>
      match find (has_evidence_id id) (eb_evidence (es_db s)) with
      | Some row => row ← identify_evidence row; mret (Some row)
      | None => mret None
      end
  end.
Definition get_chain (id : uuid) : SM (option ChainRow) :=
  s ← self;
  match find (has_chain_id id) (es_chains s) with
  | Some known => mret (Some known)
  | None =>
      match find (has_chain_id id) (eb_chains (es_db s)) with
      | Some row => row ← identify_chain row; mret (Some row)
      | None => mret None
      end
  end.

(** A [for] loop over the rows of a result. *)
Fixpoint identify_all (rows : list EvidenceRow) : SM (list EvidenceRow) :=
  match rows with
  | [] => mret []
  | row :: rows => row ← identify_evidence row; rows ← identify_all rows; mret (row :: rows)
  end.

(** ** PgExecutionEvidenceRepository *)

Section Store.
Context `{!RowOrder} `{!TenantColumns}.

(** [model.tenant_id != tenant_id.value], negated. *)
Definition tenant_matches (column t : TenantId) : bool := uuid_equals_ulid && bool_decide (column = t).

(** The [UPDATE] of [save]: the row that has the version the session knows. *)
Definition save_evidence (e : ExecutionEvidence) : SM unit :=
  existing ← get_evidence (ee_id e);
  match existing with
  | None => modify (fun s => s <| es_db ::= fun db => db <| eb_evidence ::= fun l => l ++ [evidence_to_row e] |> |>)
  | Some known =>
      let expected := er_row_version known in
      let hit r := has_evidence_id (ee_id e) r && (er_row_version r =? expected) in
      s ← self;
      raise_if (negb (existsb hit (eb_evidence (es_db s)))) (OptimisticLockConflict "ExecutionEvidence" (ee_id e));;
      modify (fun s => s
        <| es_db ::= fun db => db <| eb_evidence ::= map (fun r => if hit r then updated_evidence_row e r else r) |> |>
        <| es_evidence ::= map (fun r => if hit r then updated_evidence_row e r else r) |>)
  end.

(** [find_by_id] *)
Definition find_evidence (id : uuid) (t : TenantId) : SM (option ExecutionEvidence) :=
  model ← get_evidence id;
  match model with
  | None => mret None
  | Some row =>
      if negb (tenant_matches (er_tenant_id row) t) then mret None
      else e ← decoded_row (evidence_from_row row); mret (Some e)
  end.

(** [find_by_action] *)
Definition find_evidence_by_action (act : uuid) (t : TenantId) : SM (list ExecutionEvidence) :=
  s ← self;
  rows ← identify_all (select_order (filter (fun r => er_tenant_id r = t ∧ er_action_id r = act) (eb_evidence (es_db s))));
  decoded_row (mapM evidence_from_row rows).

(** [order_by(collected_at)] *)
Definition by_collected_at (a b : EvidenceRow) : Prop := er_collected_at a <= er_collected_at b.
#[export] Instance by_collected_at_dec : RelDecision by_collected_at.
Proof. intros a b. unfold by_collected_at. apply _. Defined.

(** [find_by_operation] *)
Definition find_evidence_by_operation (operation : uuid) (t : TenantId) (limit offset : Z) : SM (list ExecutionEvidence) :=
  s ← self;
  rows ← identify_all (take (Z.to_nat limit) (drop (Z.to_nat offset) (merge_sort by_collected_at
    (select_order (filter (fun r => er_tenant_id r = t ∧ er_operation_id r = operation) (eb_evidence (es_db s)))))));
  decoded_row (mapM evidence_from_row rows).

(** ** PgEvidenceChainRepository *)

(** What the unique index is on. *)
Definition chain_key (r : ChainRow) : TenantId * uuid := (hr_tenant_id r, hr_operation_id r).

(** [save] *)
Definition save_chain (c : EvidenceChain) : SM unit :=
  existing ← get_chain (chain_id c);
  match existing with
  | None =>
      s ← self;
      let row := chain_to_row c in
      raise_if (bool_decide (chain_key row ∈ map chain_key (eb_chains (es_db s)))) IntegrityError;;
      modify (fun s => s <| es_db ::= fun db => db <| eb_chains ::= fun l => l ++ [row] |> |>)
  | Some known =>
      let expected := hr_row_version known in
      let hit r := has_chain_id (chain_id c) r && (hr_row_version r =? expected) in
      s ← self;
      raise_if (negb (existsb hit (eb_chains (es_db s)))) (OptimisticLockConflict "EvidenceChain" (chain_id c));;
      modify (fun s => s
        <| es_db ::= fun db => db <| eb_chains ::= map (fun r => if hit r then updated_chain_row c r else r) |> |>
        <| es_chains ::= map (fun r => if hit r then updated_chain_row c r else r) |>)
  end.

(** [find_by_id] *)
Definition find_chain (id : uuid) (t : TenantId) : SM (option EvidenceChain) :=
  model ← get_chain id;
  match model with
  | None => mret None
  | Some row =>
      if negb (tenant_matches (hr_tenant_id row) t) then mret None
      else c ← decoded_row (chain_from_row row); mret (Some c)
  end.

(** [find_by_operation]: [scalar_one_or_none] raises on a second row. *)
Definition find_chain_by_operation (operation : uuid) (t : TenantId) : SM (option EvidenceChain) :=
  s ← self;
  match filter (fun r => hr_tenant_id r = t ∧ hr_operation_id r = operation) (eb_chains (es_db s)) with
  | [] => mret None
  | [row] => row ← identify_chain row; c ← decoded_row (chain_from_row row); mret (Some c)
  | _ :: _ :: _ => raise MultipleResultsFound
  end.
End Store.

(** ** What is stored *)

(** What the constructors of a row accept. *)
Record ok_evidence (e : ExecutionEvidence) : Prop := {
  oe_ids : ee_id e ≠ 0 ∧ action_ref e ≠ 0 ∧ engagement_ref e ≠ 0 ∧ operation_ref e ≠ 0;
  oe_hash : _SHA256_RE (payload_hash e) = true;
  oe_storage : sized (storage_ref e) 512 = true;
  oe_key : EvidenceEncryptionKeyRef_new (key_id (encryption_key_ref e)) (key_version (encryption_key_ref e)) =
             Some (encryption_key_ref e);
  oe_by : sized (collected_by e) 256 = true;
  oe_custody : ∀ r, r ∈ custody_chain e → Evidence.custody_ok r ∧ datetime_ok (timestamp r);
  oe_corrections : corrections_ref e ≠ Some 0;
  oe_uuid : uuid_ok (ee_id e)
}.

Record ok_chain (c : EvidenceChain) : Prop := {
  oc_ids : chain_id c ≠ 0 ∧ ch_operation_ref c ≠ 0 ∧ ch_engagement_ref c ≠ 0;
  oc_hash : _SHA256_RE (chain_hash c) = true;
  oc_entries : ∀ e, e ∈ entries c → uuid_ok (evidence_id e) ∧ ChainEntry_new (evidence_id e) (sequence e) (entry_hash e) = Some e;
  oc_seal : ∀ x, sealed_by c = Some x → SealedBy_new (operator_id x) (sealed_at x) (role x) (signature x) = Some x
}.

(** The primary keys and the unique index. *)
Record ev_keys (db : EvDb) : Prop := {
  ek_evidence : NoDup (map er_id (eb_evidence db));
  ek_chains : NoDup (map hr_id (eb_chains db));
  ek_operations : NoDup (map chain_key (eb_chains db))
}.

(** Every row is the row of sound evidence, or of a sound chain. *)
Definition evidence_row_good (r : EvidenceRow) : Prop :=
  ∃ e, r = evidence_to_row e ∧ ok_evidence e ∧ Evidence.sound e.
Definition chain_row_good (r : ChainRow) : Prop := ∃ c, r = chain_to_row c ∧ ok_chain c ∧ Chain.sound c.

Record ev_good (db : EvDb) : Prop := {
  eg_keys : ev_keys db;
  eg_evidence : ∀ r, r ∈ eb_evidence db → evidence_row_good r;
  eg_chains : ∀ r, r ∈ eb_chains db → chain_row_good r
}.

(** What a session knows is what the tables hold: nobody else has written. *)
Record session_ok (s : EvSession) : Prop := {
  sk_good : ev_good (es_db s);
  sk_evidence : ∀ r, r ∈ es_evidence s → r ∈ eb_evidence (es_db s);
  sk_chains : ∀ r, r ∈ es_chains s → r ∈ eb_chains (es_db s)
}.

(** ** Lemmas *)

(** *** Codecs *)

Lemma of_text_evidence_type x : of_text EvidenceType.value EvidenceType.all (EvidenceType.value x) = Some x.
Proof. by destruct x; vm_compute. Qed.
Lemma of_text_evidence_status x :
  of_text EvidenceIntegrityStatus.value EvidenceIntegrityStatus.all (EvidenceIntegrityStatus.value x) = Some x.
Proof. by destruct x; vm_compute. Qed.
Lemma of_text_retention x : of_text RetentionClass.value RetentionClass.all (RetentionClass.value x) = Some x.
Proof. by destruct x; vm_compute. Qed.
Lemma of_text_chain_state x : of_text ChainState.value ChainState.all (ChainState.value x) = Some x.
Proof. by destruct x; vm_compute. Qed.
Lemma of_text_chain_status x :
  of_text ChainIntegrityStatus.value ChainIntegrityStatus.all (ChainIntegrityStatus.value x) = Some x.
Proof. by destruct x; vm_compute. Qed.
Lemma of_text_custody x : of_text CustodyAction.value CustodyAction.all (CustodyAction.value x) = Some x.
Proof. by destruct x; vm_compute. Qed.

Lemma items_of_round {A} key (enc : A → Json) (dec : Json → option A) l : (∀ x, x ∈ l → dec (enc x) = Some x) →
  items_of key dec (JObj [(key, JArr (map enc l))]) = Some l.
Proof.
  intros Hdec. unfold items_of, dget_default. cbn [dget]. rewrite decide_True by done. cbn [default from_option].
  unfold id. apply mapM_Some_2. induction l as [|x l IH]; constructor; [apply Hdec; left|].
  apply IH. intros y Hy. apply Hdec. by right.
Qed.

Lemma custody_round r : Evidence.custody_ok r → datetime_ok (timestamp r) → custody_of_item (custody_item r) = Some r.
Proof.
  intros Hc Ht. unfold custody_of_item, custody_item. json_fields. cbn [as_str mbind option_bind].
  rewrite isoformat_round by done. cbn [mbind option_bind]. rewrite of_text_custody. cbn [mbind option_bind].
  unfold CustodyRecord_new. rewrite Hc. by destruct r.
Qed.

Lemma entry_round e : uuid_ok (evidence_id e) → ChainEntry_new (evidence_id e) (sequence e) (entry_hash e) = Some e →
  entry_of_item (entry_item e) = Some e.
Proof.
  intros Hu He. unfold entry_of_item, entry_item. json_fields. cbn [as_str mbind option_bind].
  rewrite uuid_round by done. exact He.
Qed.

Lemma evidence_round e : ok_evidence e → evidence_from_row (evidence_to_row e) = Some (e <| ee_pending_events := [] |>).
Proof.
  intros [(H1 & H2 & H3 & H4) Hh Hs Hk Hb Hc Hco _]. unfold evidence_from_row. cbn [evidence_to_row er_id er_tenant_id
    er_evidence_type er_payload_hash er_storage_ref er_key_id er_key_version er_action_id er_engagement_id
    er_operation_id er_collected_at er_collected_by er_integrity_status er_retention_class er_corrections_ref
    er_custody_chain_json er_quarantined er_retention_expired er_created_at er_updated_at er_row_version].
  unfold custody_to_json. rewrite items_of_round by (intros r Hr; apply custody_round; by apply Hc).
  cbn [mbind option_bind]. rewrite !non_nil_ok by done. cbn [mbind option_bind].
  rewrite of_text_evidence_type. cbn [mbind option_bind]. unfold EvidencePayloadHash_new. rewrite Hh.
  cbn [mbind option_bind]. unfold EvidenceStorageRef_new. rewrite Hs. cbn [mbind option_bind]. rewrite Hk.
  cbn [mbind option_bind]. unfold CollectedBy_new. rewrite Hb. cbn [mbind option_bind].
  rewrite of_text_evidence_status. cbn [mbind option_bind]. rewrite of_text_retention. cbn [mbind option_bind].
  assert (match corrections_ref e with Some c => Some <$> non_nil c | None => Some None end = Some (corrections_ref e)) as ->.
  { destruct (corrections_ref e) as [c|]; [|done]. rewrite non_nil_ok by (by intros ->). done. }
  by destruct e.
Qed.

Lemma chain_round c : ok_chain c → chain_from_row (chain_to_row c) = Some (c <| ch_pending_events := [] |>).
Proof.
  intros [(H1 & H2 & H3) Hh He Hs]. unfold chain_from_row. cbn [chain_to_row hr_id hr_tenant_id hr_operation_id
    hr_engagement_id hr_state hr_chain_hash hr_integrity_status hr_entries_json hr_sealed_by_operator_id hr_sealed_at
    hr_sealer_role hr_seal_signature hr_submission_destination_ref hr_created_at hr_updated_at hr_row_version].
  unfold entries_to_json. rewrite items_of_round by (intros e Hin; by apply entry_round; apply He).
  cbn [mbind option_bind].
  assert (match operator_id <$> sealed_by c, sealed_at <$> sealed_by c with
          | Some o, Some at_ => Some <$> SealedBy_new o at_ (default "" (role <$> sealed_by c)) (default "" (signature <$> sealed_by c))
          | _, _ => Some None end = Some (sealed_by c)) as ->.
  { destruct (sealed_by c) as [x|]; [|done]. simpl. by rewrite (Hs x eq_refl). }
  cbn [mbind option_bind]. rewrite !non_nil_ok by done. cbn [mbind option_bind].
  unfold ChainHash_new. rewrite Hh. cbn [mbind option_bind]. rewrite of_text_chain_state. cbn [mbind option_bind].
  rewrite of_text_chain_status. by destruct c.
Qed.

#[global] Arguments chain_from_row : simpl never.
#[global] Arguments evidence_from_row : simpl never.

(** *** Sessions *)

Lemma new_session_ok db : ev_good db → session_ok (new_session db).
Proof. intros Hg. split; [done|..]; intros r Hr; by apply not_elem_of_nil in Hr. Qed.

Lemma wp_identify_chain row (Q : ChainRow → EvSession → Prop) X s : session_ok s → row ∈ eb_chains (es_db s) →
  (∀ s', session_ok s' → es_db s' = es_db s → Q row s') → wp (identify_chain row) Q X s.
Proof.
  intros Hok Hrow HQ. unfold identify_chain. wp_step. apply wp_self. unfold has_chain_id.
  destruct (find _ (es_chains s)) as [known|] eqn:Hf.
  - apply find_key_some in Hf as [Hin Hid]. apply (sk_chains _ Hok) in Hin. wp_run.
    assert (known = row) as -> by (apply (nodup_key_inj hr_id (eb_chains (es_db s))); try done; apply (eg_keys _ (sk_good _ Hok))).
    by apply HQ.
  - wp_run. apply HQ; [|done]. destruct Hok as [Hg He Hc]. split; simpl; [done|done|].
    intros r [->|Hr]%elem_of_cons; auto.
Qed.

Lemma wp_identify_evidence row (Q : EvidenceRow → EvSession → Prop) X s : session_ok s → row ∈ eb_evidence (es_db s) →
  (∀ s', session_ok s' → es_db s' = es_db s → Q row s') → wp (identify_evidence row) Q X s.
Proof.
  intros Hok Hrow HQ. unfold identify_evidence. wp_step. apply wp_self. unfold has_evidence_id.
  destruct (find _ (es_evidence s)) as [known|] eqn:Hf.
  - apply find_key_some in Hf as [Hin Hid]. apply (sk_evidence _ Hok) in Hin. wp_run.
    assert (known = row) as -> by (apply (nodup_key_inj er_id (eb_evidence (es_db s))); try done; apply (eg_keys _ (sk_good _ Hok))).
    by apply HQ.
  - wp_run. apply HQ; [|done]. destruct Hok as [Hg He Hc]. split; simpl; [done| |done].
    intros r [->|Hr]%elem_of_cons; auto.
Qed.

Lemma wp_get_chain id (Q : option ChainRow → EvSession → Prop) X s : session_ok s →
  (∀ s', session_ok s' → es_db s' = es_db s → Q (find (has_chain_id id) (eb_chains (es_db s))) s') →
  wp (get_chain id) Q X s.
Proof.
  intros Hok HQ. unfold get_chain. wp_step. apply wp_self. unfold has_chain_id in *.
  destruct (find _ (es_chains s)) as [known|] eqn:Hf.
  - apply find_key_some in Hf as [Hin Hid]. apply (sk_chains _ Hok) in Hin. wp_run.
    rewrite (find_key_unique hr_id _ known) in HQ; [by apply HQ|apply (eg_keys _ (sk_good _ Hok))|done..].
  - destruct (find _ (eb_chains (es_db s))) as [row|] eqn:Hr; [|wp_run; by apply HQ].
    apply find_key_some in Hr as [Hin _]. wp_step. apply wp_identify_chain; [done..|]. intros s' Hok' Hdb. wp_run. by apply HQ.
Qed.

Lemma wp_get_evidence id (Q : option EvidenceRow → EvSession → Prop) X s : session_ok s →
  (∀ s', session_ok s' → es_db s' = es_db s → Q (find (has_evidence_id id) (eb_evidence (es_db s))) s') →
  wp (get_evidence id) Q X s.
Proof.
  intros Hok HQ. unfold get_evidence. wp_step. apply wp_self. unfold has_evidence_id in *.
  destruct (find _ (es_evidence s)) as [known|] eqn:Hf.
  - apply find_key_some in Hf as [Hin Hid]. apply (sk_evidence _ Hok) in Hin. wp_run.
    rewrite (find_key_unique er_id _ known) in HQ; [by apply HQ|apply (eg_keys _ (sk_good _ Hok))|done..].
  - destruct (find _ (eb_evidence (es_db s))) as [row|] eqn:Hr; [|wp_run; by apply HQ].
    apply find_key_some in Hr as [Hin _]. wp_step. apply wp_identify_evidence; [done..|]. intros s' Hok' Hdb. wp_run. by apply HQ.
Qed.

(** A chain, or evidence, of the tables without pending events. *)
Record stored_chain (db : EvDb) (c : EvidenceChain) : Prop := {
  sc_row : chain_to_row c ∈ eb_chains db;
  sc_ok : ok_chain c;
  sc_sound : Chain.sound c;
  sc_pending : ch_pending_events c = []
}.
Record stored_evidence (db : EvDb) (e : ExecutionEvidence) : Prop := {
  se_row : evidence_to_row e ∈ eb_evidence db;
  se_ok : ok_evidence e;
  se_sound : Evidence.sound e;
  se_pending : ee_pending_events e = []
}.

Lemma chain_row_decodes db r : ev_good db → r ∈ eb_chains db →
  ∃ c, chain_from_row r = Some c ∧ stored_chain db c ∧ r = chain_to_row c.
Proof.
  intros Hg Hr. destruct (eg_chains _ Hg r Hr) as (c & -> & Hok & Hs). exists (c <| ch_pending_events := [] |>).
  split; [by apply chain_round|]. split; [|by destruct c].
  destruct c, Hok, Hs. by split.
Qed.

Lemma evidence_row_decodes db r : ev_good db → r ∈ eb_evidence db →
  ∃ e, evidence_from_row r = Some e ∧ stored_evidence db e ∧ r = evidence_to_row e.
Proof.
  intros Hg Hr. destruct (eg_evidence _ Hg r Hr) as (e & -> & Hok & Hs). exists (e <| ee_pending_events := [] |>).
  split; [by apply evidence_round|]. split; [|by destruct e].
  destruct e, Hok, Hs. by split.
Qed.

(** *** Repositories *)

(** Calls have kept the columns an update does not write. *)
Definition chain_of_row (db : EvDb) (c : EvidenceChain) : Prop :=
  ∀ r, r ∈ eb_chains db → hr_id r = chain_id c → updated_chain_row c r = chain_to_row c.
Definition evidence_of_row (db : EvDb) (e : ExecutionEvidence) : Prop :=
  ∀ r, r ∈ eb_evidence db → er_id r = ee_id e → updated_evidence_row e r = evidence_to_row e.

Lemma updated_chain c c' : Chain.fixed c' = Chain.fixed c → updated_chain_row c' (chain_to_row c) = chain_to_row c'.
Proof. destruct c, c'. unfold Chain.fixed. simpl. intros [= -> -> -> -> ->]. reflexivity. Qed.
Lemma updated_evidence e e' : Evidence.content e' = Evidence.content e →
  updated_evidence_row e' (evidence_to_row e) = evidence_to_row e'.
Proof.
  destruct e, e'. unfold Evidence.content. simpl. intros [= -> -> -> -> -> -> -> -> -> -> -> -> -> ->]. reflexivity.
Qed.

(** The rows of a table that an update hits, when the session knows the row. *)
Lemma hit_row {R} (key ver : R → Z) (hit : R → bool) (l : list R) row : row ∈ l →
  (∀ r, hit r = bool_decide (key r = key row) && (ver r =? ver row)) →
  existsb hit l = true ∧ hit row = true ∧ ∀ r, hit r = true → key r = key row.
Proof.
  intros Hin Hhit.
  assert (hit row = true) as Hrow by (by rewrite Hhit, bool_decide_eq_true_2, Z.eqb_refl).
  split_and!; [|done|].
  - apply existsb_exists. exists row. split; [by apply list_elem_of_In|done].
  - intros r. rewrite Hhit. intros Hr. by guards.
Qed.

(** A table whose one row is updated, and what a session knows of it. *)
Lemma updated_known {R} (key : R → uuid) (p : R → bool) (f : R → R) (known rows : list R) :
  (∀ r, r ∈ known → r ∈ rows) →
  ∀ r, r ∈ map (fun r => if p r then f r else r) known → r ∈ map (fun r => if p r then f r else r) rows.
Proof. intros Hk r (x & -> & Hx)%list_elem_of_fmap. apply list_elem_of_fmap. exists x. auto. Qed.

Section Repositories.
Context `{!RowOrder} `{!TenantColumns}.

Lemma wp_find_chain id t (Q : option EvidenceChain → EvSession → Prop) X s : session_ok s →
  (∀ s', session_ok s' → es_db s' = es_db s →
     (∀ c, stored_chain (es_db s) c → chain_id c = id → ch_tenant_id c = t → uuid_equals_ulid = true → False) → Q None s') →
  (∀ c s', session_ok s' → es_db s' = es_db s → stored_chain (es_db s) c → chain_id c = id → ch_tenant_id c = t →
     Q (Some c) s') →
  wp (find_chain id t) Q X s.
Proof.
  intros Hok HN HS. unfold find_chain. wp_step. apply wp_get_chain; [done|]. intros s' Hok' Hdb. unfold has_chain_id.
  destruct (find _ _) as [row|] eqn:Hf.
  2:{ wp_run. apply HN; [done..|]. intros c Hst Hid _ _. by eapply (find_key_none hr_id); [exact Hf|apply Hst|]. }
  apply find_key_some in Hf as [Hin <-].
  destruct (chain_row_decodes _ _ (sk_good _ Hok) Hin) as (c & Hd & Hst & ->).
  unfold tenant_matches. case_bool_decide as Ht; destruct uuid_equals_ulid; cbn [andb negb];
    try (wp_run; apply HN; [done..|]; intros c1 Hst1 Hid1 Ht1 Hu1; try done; apply Ht; rewrite <- Ht1;
         pose proof (nodup_key_inj hr_id _ _ _ (ek_chains _ (eg_keys _ (sk_good _ Hok)))
           (sc_row _ _ Hst1) Hin Hid1) as Heq; apply (f_equal hr_tenant_id) in Heq; exact (eq_sym Heq)).
  unfold decoded_row. rewrite Hd. wp_run. by apply HS.
Qed.

Lemma wp_find_evidence id t (Q : option ExecutionEvidence → EvSession → Prop) X s : session_ok s →
  (∀ s', session_ok s' → es_db s' = es_db s →
     (∀ e, stored_evidence (es_db s) e → ee_id e = id → ee_tenant_id e = t → uuid_equals_ulid = true → False) → Q None s') →
  (∀ e s', session_ok s' → es_db s' = es_db s → stored_evidence (es_db s) e → ee_id e = id → ee_tenant_id e = t →
     Q (Some e) s') →
  wp (find_evidence id t) Q X s.
Proof.
  intros Hok HN HS. unfold find_evidence. wp_step. apply wp_get_evidence; [done|]. intros s' Hok' Hdb. unfold has_evidence_id.
  destruct (find _ _) as [row|] eqn:Hf.
  2:{ wp_run. apply HN; [done..|]. intros e Hst Hid _ _. by eapply (find_key_none er_id); [exact Hf|apply Hst|]. }
  apply find_key_some in Hf as [Hin <-].
  destruct (evidence_row_decodes _ _ (sk_good _ Hok) Hin) as (e & Hd & Hst & ->).
  unfold tenant_matches. case_bool_decide as Ht; destruct uuid_equals_ulid; cbn [andb negb];
    try (wp_run; apply HN; [done..|]; intros e1 Hst1 Hid1 Ht1 Hu1; try done; apply Ht; rewrite <- Ht1;
         pose proof (nodup_key_inj er_id _ _ _ (ek_evidence _ (eg_keys _ (sk_good _ Hok)))
           (se_row _ _ Hst1) Hin Hid1) as Heq; apply (f_equal er_tenant_id) in Heq; exact (eq_sym Heq)).
  unfold decoded_row. rewrite Hd. wp_run. by apply HS.
Qed.

(** An operation has one chain: the lookup does not raise. *)
Lemma wp_find_chain_by_operation operation t (Q : option EvidenceChain → EvSession → Prop) X s : session_ok s →
  ((∀ c, stored_chain (es_db s) c → ch_operation_ref c = operation → ch_tenant_id c = t → False) → Q None s) →
  (∀ c s', session_ok s' → es_db s' = es_db s → stored_chain (es_db s) c → ch_operation_ref c = operation →
     ch_tenant_id c = t → Q (Some c) s') →
  wp (find_chain_by_operation operation t) Q X s.
Proof.
  intros Hok HN HS. unfold find_chain_by_operation. wp_step. apply wp_self.
  set (P := fun r => hr_tenant_id r = t ∧ hr_operation_id r = operation).
  destruct (filter P (eb_chains (es_db s))) as [|row [|row' l]] eqn:Hf.
  - wp_run. apply HN. intros c Hc Ho Ht. apply (not_elem_of_nil (chain_to_row c)). rewrite <- Hf.
    apply list_elem_of_filter. split; [done|apply Hc].
  - assert (row ∈ filter P (eb_chains (es_db s))) as [[Ht Ho] Hin]%list_elem_of_filter by (rewrite Hf; left).
    wp_step. apply wp_identify_chain; [done..|]. intros s' Hok' Hdb.
    destruct (chain_row_decodes _ _ (sk_good _ Hok) Hin) as (c & Hd & Hst & ->).
    unfold decoded_row. rewrite Hd. wp_run. by apply HS.
  - exfalso. assert (NoDup (map chain_key (filter P (eb_chains (es_db s))))) as Hnd.
    { apply (sublist_NoDup _ _ (ek_operations _ (eg_keys _ (sk_good _ Hok)))). apply (fmap_sublist chain_key), sublist_filter. }
    assert (∀ r, r ∈ filter P (eb_chains (es_db s)) → chain_key r = (t, operation)) as Hkey
      by (intros r [[<- <-] _]%list_elem_of_filter; done).
    rewrite Hf in Hnd, Hkey. simpl in Hnd. apply NoDup_cons in Hnd as [Hni _]. apply Hni.
    rewrite (Hkey row) by left. rewrite <- (Hkey row') by (right; left). left.
Qed.

(** A save: a new row, or the row of the aggregate replaced. *)
Lemma wp_save_chain c (Q : unit → EvSession → Prop) X s : session_ok s → ok_chain c → Chain.sound c →
  chain_of_row (es_db s) c →
  (∀ s', session_ok s' → eb_evidence (es_db s') = eb_evidence (es_db s) →
     upserted hr_id (chain_id c) (chain_to_row c) (eb_chains (es_db s)) (eb_chains (es_db s')) → Q tt s') →
  (∀ e s', chain_id c ∉ map hr_id (eb_chains (es_db s)) → es_db s' = es_db s → X e s') → wp (save_chain c) Q X s.
Proof.
  intros Hok Hc Hs Hrow HQ HX. unfold save_chain. wp_step. apply wp_get_chain; [done|]. intros s' Hok' Hdb.
  destruct (sk_good _ Hok') as [[Hk1 Hk2 Hk3] Hge Hgc].
  assert (∀ rows, upserted hr_id (chain_id c) (chain_to_row c) (eb_chains (es_db s')) rows → NoDup (map chain_key rows) →
    ev_good ((es_db s') <| eb_chains := rows |>)) as Hgood.
  { intros rows [Hn _ _ Hall] Hnk. split; [by split|done|]. intros r [->|[Hold _]]%Hall; [by exists c|auto]. }
  unfold has_chain_id. rewrite <- Hdb. destruct (find _ _) as [row|] eqn:Hf.
  - apply find_key_some in Hf as [Hin Hid]. cbv zeta. rewrite <- Hid.
    wp_step. apply wp_self. wp_step.
    match goal with |- context [existsb ?h ?l] => set (hit := h); destruct (hit_row hr_id hr_row_version hit l row Hin)
      as (Hex & Hhit & Hsame) end; [done|].
    rewrite Hex. cbn [negb raise_if]. apply wp_ret, wp_modify.
    assert (updated_chain_row c row = chain_to_row c) as Hupd by (apply Hrow; [by rewrite <- Hdb|done]).
    assert (upserted hr_id (chain_id c) (chain_to_row c) (eb_chains (es_db s'))
      (map (fun r => if hit r then updated_chain_row c r else r) (eb_chains (es_db s')))) as Hup.
    { rewrite <- Hid, <- Hupd. by apply (updated_row hr_id hit (updated_chain_row c)). }
    apply HQ; [|simpl; by rewrite Hdb|simpl; by rewrite <- Hdb].
    split; simpl; [|apply Hok'|by apply (updated_known hr_id), (sk_chains _ Hok')].
    apply (Hgood _ Hup). rewrite map_map. replace (map _ _) with (map chain_key (eb_chains (es_db s'))); [done|].
    apply map_ext. intros r. by destruct (hit r).
  - assert (chain_id c ∉ map hr_id (eb_chains (es_db s'))) as Hnew.
    { intros (r & Heq & Hr)%list_elem_of_fmap. by eapply (find_key_none hr_id). }
    wp_step. apply wp_self. wp_step. apply wp_raise_if; intros Hkey; [apply HX; by rewrite <- ?Hdb|]. stable.
    pose proof (inserted_row hr_id (chain_to_row c) _ Hk2 Hnew) as Hup. apply wp_modify.
    apply HQ; [|simpl; by rewrite Hdb|simpl; by rewrite <- Hdb].
    split; simpl; [|apply Hok'|intros r Hr; apply elem_of_app; left; by apply Hok'].
    apply (Hgood _ Hup). rewrite map_app. apply NoDup_app. split_and!; [done| |apply NoDup_singleton].
    intros x Hx ->%list_elem_of_singleton. done.
Qed.

Lemma wp_save_evidence e (Q : unit → EvSession → Prop) X s : session_ok s → ok_evidence e → Evidence.sound e →
  evidence_of_row (es_db s) e →
  (∀ s', session_ok s' → eb_chains (es_db s') = eb_chains (es_db s) →
     upserted er_id (ee_id e) (evidence_to_row e) (eb_evidence (es_db s)) (eb_evidence (es_db s')) → Q tt s') →
  wp (save_evidence e) Q X s.
Proof.
  intros Hok Hc Hs Hrow HQ. unfold save_evidence. wp_step. apply wp_get_evidence; [done|]. intros s' Hok' Hdb.
  destruct (sk_good _ Hok') as [[Hk1 Hk2 Hk3] Hge Hgc].
  assert (∀ rows, upserted er_id (ee_id e) (evidence_to_row e) (eb_evidence (es_db s')) rows →
    ev_good ((es_db s') <| eb_evidence := rows |>)) as Hgood.
  { intros rows [Hn _ _ Hall]. split; [by split| |done]. intros r [->|[Hold _]]%Hall; [by exists e|auto]. }
  unfold has_evidence_id. rewrite <- Hdb. destruct (find _ _) as [row|] eqn:Hf.
  - apply find_key_some in Hf as [Hin Hid]. cbv zeta. rewrite <- Hid.
    wp_step. apply wp_self. wp_step.
    match goal with |- context [existsb ?h ?l] => set (hit := h); destruct (hit_row er_id er_row_version hit l row Hin)
      as (Hex & Hhit & Hsame) end; [done|].
    rewrite Hex. cbn [negb raise_if]. apply wp_ret, wp_modify.
    assert (updated_evidence_row e row = evidence_to_row e) as Hupd by (apply Hrow; [by rewrite <- Hdb|done]).
    assert (upserted er_id (ee_id e) (evidence_to_row e) (eb_evidence (es_db s'))
      (map (fun r => if hit r then updated_evidence_row e r else r) (eb_evidence (es_db s')))) as Hup.
    { rewrite <- Hid, <- Hupd. by apply (updated_row er_id hit (updated_evidence_row e)). }
    apply HQ; [|simpl; by rewrite Hdb|simpl; by rewrite <- Hdb].
    split; simpl; [by apply Hgood|by apply (updated_known er_id), (sk_evidence _ Hok')|apply Hok'].
  - assert (ee_id e ∉ map er_id (eb_evidence (es_db s'))) as Hnew.
    { intros (r & Heq & Hr)%list_elem_of_fmap. by eapply (find_key_none er_id). }
    pose proof (inserted_row er_id (evidence_to_row e) _ Hk1 Hnew) as Hup. apply wp_modify.
    apply HQ; [|simpl; by rewrite Hdb|simpl; by rewrite <- Hdb].
    split; simpl; [by apply Hgood|intros r Hr; apply elem_of_app; left; by apply Hok'|apply Hok'].
Qed.
End Repositories.

(** *** Concurrent sessions *)

Section Concurrent.
Context `{!RowOrder} `{!TenantColumns}.

(** A session that knows a row of another version than the table holds. *)
Lemma stale_save c known s : find (has_chain_id (chain_id c)) (es_chains s) = Some known →
  (∀ r, r ∈ eb_chains (es_db s) → hr_id r = chain_id c → hr_row_version r ≠ hr_row_version known) →
  save_chain c s = (Err (OptimisticLockConflict "EvidenceChain" (chain_id c)), s).
Proof.
  intros Hk Hv. unfold save_chain, get_chain, self, mbind, PyM_bind. rewrite Hk. cbn.
  match goal with |- context [existsb ?h ?l] => destruct (existsb h l) eqn:Hex end; [|done].
  exfalso. apply existsb_exists in Hex as (r & Hin%list_elem_of_In & Hr). unfold has_chain_id in Hr. guards.
  apply (Hv r Hin); [done|]. by apply Z.eqb_eq.
Qed.

(** What a loaded chain leaves in the session. *)
Lemma loaded_chain id t db c s : ev_good db → find_chain id t (new_session db) = (Ok (Some c), s) →
  session_ok s ∧ es_db s = db ∧ stored_chain db c ∧ chain_id c = id ∧ ch_tenant_id c = t ∧
  find (has_chain_id id) (es_chains s) = Some (chain_to_row c).
Proof.
  intros Hg. unfold find_chain, get_chain, identify_chain, self, modify, mbind, PyM_bind, new_session. cbn.
  destruct (find (has_chain_id id) (eb_chains db)) as [row|] eqn:Hf; [|by intros [=]]. cbn.
  apply find_key_some in Hf as [Hin <-]. destruct (chain_row_decodes db row Hg Hin) as (c0 & Hd & Hst & ->).
  unfold tenant_matches. case_bool_decide as Ht; destruct uuid_equals_ulid; cbn; try (by intros [=]).
  unfold decoded_row. rewrite Hd. cbn. intros [= <- <-]. split_and!; try done.
  - split; simpl; [done|intros r Hr; by apply not_elem_of_nil in Hr|by intros r ->%list_elem_of_singleton].
  - unfold has_chain_id. cbn. by rewrite bool_decide_eq_true_2.
Qed.
End Concurrent.

(** ** Properties *)

#[local] Existing Instance insertion_order.
#[local] Instance equal_columns : TenantColumns := {| binds_entity_id := true; uuid_equals_ulid := true |}.

Lemma open_chain_ok : ok_chain Chain.open_chain.
Proof.
  split; [by vm_compute|vm_compute; reflexivity| |].
  - intros e. replace (entries Chain.open_chain) with [mkEntry 21 1 Chain.hash_a; mkEntry 22 2 Chain.hash_b]
      by (vm_compute; reflexivity).
    intros [->|[->|[]%not_elem_of_nil]%elem_of_cons]%elem_of_cons; (split; [by vm_compute|vm_compute; reflexivity]).
  - intros x Hx. by vm_compute in Hx.
Qed.

(** A chain that is saved is found again: its operation's lookup, and, where a
    UUID equals a ULID, its id's lookup, answer the same chain without pending
    events; the other rows and all evidence stay; and another chain for the same
    operation, as a concurrent request opens it, is refused by the unique index. *)
Theorem saved_chain_is_found `{!RowOrder} `{!TenantColumns} c s s' : session_ok s → ok_chain c → Chain.sound c →
  chain_of_row (es_db s) c → save_chain c s = (Ok tt, s') →
  let next := new_session (es_db s') in
  let found : result EvStoreError (option EvidenceChain) := Ok (Some (c <| ch_pending_events := [] |>)) in
  (find_chain_by_operation (ch_operation_ref c) (ch_tenant_id c) next).1 = found ∧
  (uuid_equals_ulid = true → (find_chain (chain_id c) (ch_tenant_id c) next).1 = found) ∧
  (∀ r, r ∈ eb_chains (es_db s) → hr_id r ≠ chain_id c → r ∈ eb_chains (es_db s')) ∧
  eb_evidence (es_db s') = eb_evidence (es_db s) ∧
  ∀ o, chain_id o ∉ map hr_id (eb_chains (es_db s')) → ch_operation_ref o = ch_operation_ref c →
    ch_tenant_id o = ch_tenant_id c → (save_chain o next).1 = Err IntegrityError.
Proof.
  intros Hs Hok Hsound Hrow Hsave next found.
  assert (session_ok s' ∧ eb_evidence (es_db s') = eb_evidence (es_db s) ∧
    upserted hr_id (chain_id c) (chain_to_row c) (eb_chains (es_db s)) (eb_chains (es_db s'))) as (Hs' & He & Hup).
  { refine (wp_ok (save_chain c) (λ _ s', _) (λ _ _, True) s tt s' _ Hsave). by apply wp_save_chain. }
  destruct Hup as [Hnd Hnew Hkept _]. pose proof (sk_good _ Hs') as Hg.
  assert (∀ r, r ∈ eb_chains (es_db s') → chain_key r = chain_key (chain_to_row c) → r = chain_to_row c) as Huni.
  { intros r Hr Hk. by apply (nodup_key_inj chain_key (eb_chains (es_db s'))); [apply (eg_keys _ Hg)|..]. }
  split_and!; [| |done|done|].
  - unfold find_chain_by_operation, identify_chain, self, modify, mbind, PyM_bind, next, new_session. cbn.
    assert (filter (λ r, hr_tenant_id r = ch_tenant_id c ∧ hr_operation_id r = ch_operation_ref c) (eb_chains (es_db s')) =
      [chain_to_row c]) as ->; [|cbn; unfold decoded_row; by rewrite chain_round].
    clear -Hnd Hnew Huni. induction (eb_chains (es_db s')) as [|r l IH]; [by apply not_elem_of_nil in Hnew|].
    apply NoDup_cons in Hnd as [Hni Hnd]. apply elem_of_cons in Hnew as [<-|Hnew].
    + rewrite filter_cons_True by done. rewrite filter_none; [done|]. intros r' Hr' [H1 H2]. apply Hni.
      rewrite <- (Huni r'); [by apply list_elem_of_fmap_2|by right|]. unfold chain_key. simpl. by rewrite H1, H2.
    + rewrite filter_cons_False; [apply IH; [done..|intros; apply Huni; [by right|done]]|].
      intros [H1 H2]. apply Hni. rewrite (Huni r); [by apply (list_elem_of_fmap_2 hr_id)|left|].
      unfold chain_key. simpl. by rewrite H1, H2.
  - intros Hu. unfold find_chain, get_chain, identify_chain, self, modify, mbind, PyM_bind, next, new_session. cbn.
    assert (find (has_chain_id (chain_id c)) (eb_chains (es_db s')) = Some (chain_to_row c)) as ->
      by (by apply (find_key_unique hr_id)). cbn. unfold tenant_matches.
    rewrite Hu, bool_decide_eq_true_2 by done. cbn. unfold decoded_row. by rewrite chain_round.
  - intros o Ho Hop Ht. unfold save_chain, get_chain, self, mbind, PyM_bind, next, new_session. cbn.
    destruct (find (has_chain_id (chain_id o)) (eb_chains (es_db s'))) as [r|] eqn:Hf.
    { exfalso. apply find_key_some in Hf as [Hin Hid]. apply Ho. rewrite <- Hid. by apply list_elem_of_fmap_2. }
    cbn. rewrite bool_decide_eq_true_2; [done|]. replace (chain_key (chain_to_row o)) with (chain_key (chain_to_row c))
      by (unfold chain_key; simpl; by rewrite Hop, Ht). by apply list_elem_of_fmap_2.
Qed.

(** The chain of operation 3, saved in an empty database. *)
Definition one_chain : EvDb := mkEvDb [] [chain_to_row Chain.open_chain].

Lemma empty_ev_good : ev_good empty_ev_db.
Proof. split; [split; constructor|..]; intros r Hr; by apply not_elem_of_nil in Hr. Qed.

Lemma saved_chain_is_found_witness :
  let next := new_session one_chain in
  (save_chain Chain.open_chain (new_session empty_ev_db)).1 = Ok tt ∧
  (find_chain_by_operation 3 Chain.acme next).1 = Ok (Some (Chain.open_chain <| ch_pending_events := [] |>)) ∧
  (save_chain (Chain.open 10 Chain.acme 3 4 99) next).1 = Err IntegrityError.
Proof.
  intros next.
  assert (save_chain Chain.open_chain (new_session empty_ev_db) = (Ok tt, new_session one_chain)) as Hsave
    by (vm_compute; reflexivity).
  destruct (saved_chain_is_found Chain.open_chain (new_session empty_ev_db) (new_session one_chain)) as (Hop & _ & _ & _ & Hdup);
    [apply new_session_ok, empty_ev_good|apply open_chain_ok|apply Chain.open_chain_sound| |exact Hsave|].
  { intros r Hr. exfalso. apply not_elem_of_nil in Hr. exact Hr. }
  split; [rewrite Hsave; reflexivity|]. split; [exact Hop|].
  apply (Hdup (Chain.open 10 Chain.acme 3 4 99)); [by_compute|vm_compute; reflexivity..].
Defined.


