(* ===== verification/EvidenceApp.v ===== *)
(** [evidence.EvidenceApplicationService]: evidence is encrypted and stored, verified
    against its hash, handed over, and chained; with the unit of work of the context
    and the two in-memory stores its container wires. *)
From stdpp Require Import base tactics list strings sets relations.
From Stdlib Require Import ZArith Lia.
From S2P Require Import Prelude PyTypes PyParse PyJson PyStore Sha256 EvidenceData EvidenceChain ExecEvidence EvidenceVault EvidenceStore.

Local Open Scope Z_scope.

(** ** The world of the service *)

(** [ValueErr] is a [ValueError] that no command catches. *)
Inductive EvError :=
  | ApplicationValidationError (field reason : string)
  | ApplicationNotFoundError (resource resource_id : string)
  | ApplicationConflictError (e : EvidenceException)
  | ApplicationAuthorizationError (message check : string)
  | ApplicationIntegrityError (evidence : uuid) (expected computed : string)
  | ValueErr
  | Domain (e : EvidenceException)
  | Store (e : EvStoreError)
  | Vault (e : VaultError).

Inductive EvPublished :=
  | OfEvidence (e : DomainEvent EvidenceEvent)
  | OfChain (e : DomainEvent ChainEvent).

Section Service.
Context `{!Fernet} `{!UlidText} `{!RowOrder} `{!TenantColumns}.

(** The open session, the durable tables, what was handed to the publisher, and the
    two stores that no transaction covers. *)
Record World := mkWorld {
  w_session : EvSession; w_db : EvDb; w_published : list EvPublished; w_blobs : Blobs; w_kms : Kms }.
#[export] Instance World_settable : Settable World := fun w =>
  mkWorld (w_session w) (w_db w) (w_published w) (w_blobs w) (w_kms w).

Definition empty_world : World :=
  mkWorld (new_session empty_ev_db) empty_ev_db [] (mkBlobs [] []) Keys.empty_kms.

Abbreviation App := (PyM World EvError).

(** [async with self._uow_factory() as uow: body]; what is not committed is rolled
    back. *)
Definition in_uow {A} (body : App A) : App A :=
  fun w =>
    let '(r, w') := body (w <| w_session := new_session (w_db w) |>) in
    (r, w' <| w_session := new_session (w_db w') |>).

Definition uow_commit : App unit := modify (fun w => w <| w_db := es_db (w_session w) |>).

(** A repository, the key management, the blob store. *)
Definition in_session {A} (m : SM A) : App A := fun w =>
  match m (w_session w) with
  | (Ok a, s) => (Ok a, w <| w_session := s |>)
  | (Err e, s) => (Err (Store e), w <| w_session := s |>)
  end.
Definition in_keys {A} (m : PyM Kms VaultError A) : App A := fun w =>
  match m (w_kms w) with
  | (Ok a, k) => (Ok a, w <| w_kms := k |>)
  | (Err e, k) => (Err (Vault e), w <| w_kms := k |>)
  end.
Definition in_blobs {A} (m : PyM Blobs VaultError A) : App A := fun w =>
  match m (w_blobs w) with
  | (Ok a, b) => (Ok a, w <| w_blobs := b |>)
  | (Err e, b) => (Err (Vault e), w <| w_blobs := b |>)
  end.

(** [_publish]: a failing publisher is logged and ignored; the events handed to it
    are recorded. *)
Definition _publish (events : list EvPublished) : App unit :=
  modify (fun w => w <| w_published ::= fun l => l ++ events |>).
Definition evidence_events (e : ExecutionEvidence) : list EvPublished := map OfEvidence (ee_pending_events e).
Definition chain_events (c : EvidenceChain) : list EvPublished := map OfChain (ch_pending_events c).

(** ** Validation *)

(** [validate_uuid] of a [UUID]; an [EntityId] always passes. *)
Definition validate_uuid (u : uuid) (field : string) : App unit :=
  raise_if (u =? 0) (ApplicationValidationError field "must be a valid non-nil UUID").

(** [validate_str] with [allow_empty=False] *)
Definition validate_str (value field : string) (max_len : nat) : App unit :=
  raise_if (empty_str value) (ApplicationValidationError field "must not be empty");;
  raise_if (bool_decide (max_len < String.length value)%nat)
    (ApplicationValidationError field ("must be at most " +:+ str_int (Z.of_nat max_len) +:+ " characters")).

Definition validate_limit (value : Z) : App Z :=
  raise_if (value <? 1) (ApplicationValidationError "limit" "must be 1-1000");;
  mret (Z.max 1 (Z.min value 1000)).

Definition validate_offset (value : Z) : App Z :=
  raise_if (value <? 0) (ApplicationValidationError "offset" "must be >= 0");;
  mret value.

(** [Enum(text)], with the [ValueError] turned into a validation error. *)
Definition parse_enum {A} (field enum : string) (text : A → string) (all : list A) (s : string) : App A :=
  match of_text text all s with
  | Some x => mret x
  | None => raise (ApplicationValidationError field ("'" +:+ s +:+ "' is not a valid " +:+ enum))
  end.

(** A constructor that may raise [ValueError]. *)
Definition construct {A} (x : option A) : App A := match x with Some a => mret a | None => raise ValueErr end.

(** ** Data transfer objects *)

Record ExecutionEvidenceDTO := mkEvidenceDTO {
  ed_evidence_id : uuid; ed_tenant_id : TenantId; ed_evidence_type : string; ed_payload_hash : string;
  ed_storage_ref : string; ed_key_id : string; ed_key_version : Z; ed_action_id : uuid; ed_engagement_id : uuid;
  ed_operation_id : uuid; ed_collected_at : datetime; ed_collected_by : string; ed_integrity_status : string;
  ed_retention_class : string; ed_quarantined : bool; ed_retention_expired : bool;
  ed_custody_chain : list (string * datetime * string); ed_corrects_evidence_id : option uuid; ed_version : Z }.

Definition _evidence_dto (e : ExecutionEvidence) : ExecutionEvidenceDTO :=
  mkEvidenceDTO (ee_id e) (ee_tenant_id e) (EvidenceType.value (evidence_type e)) (payload_hash e) (storage_ref e)
    (key_id (encryption_key_ref e)) (key_version (encryption_key_ref e)) (action_ref e) (engagement_ref e)
    (operation_ref e) (collected_at e) (collected_by e) (EvidenceIntegrityStatus.value (integrity_status e))
    (RetentionClass.value (retention_class e)) (quarantined e) (retention_expired e)
    (map (fun c => (custodian_identity c, timestamp c, CustodyAction.value (action c))) (custody_chain e))
    (corrections_ref e) (ee_version e).

Record EvidenceChainDTO := mkChainDTO {
  cd_chain_id : uuid; cd_tenant_id : TenantId; cd_operation_id : uuid; cd_engagement_id : uuid; cd_state : string;
  cd_chain_hash : string; cd_integrity_status : string; cd_entries : list ChainEntry;
  cd_sealed_by_operator_id : option uuid; cd_sealed_at : option datetime; cd_sealer_role : option string;
  cd_submission_destination_ref : option string; cd_version : Z }.

Definition _chain_dto (c : EvidenceChain) : EvidenceChainDTO :=
  mkChainDTO (chain_id c) (ch_tenant_id c) (ch_operation_ref c) (ch_engagement_ref c) (ChainState.value (ch_state c))
    (chain_hash c) (ChainIntegrityStatus.value (ch_integrity_status c)) (entries c) (operator_id <$> sealed_by c)
    (sealed_at <$> sealed_by c) (role <$> sealed_by c) (submission_destination_ref c) (ch_version c).

Record IntegrityVerificationResultDTO := mkResultDTO { vd_evidence_id : uuid; vd_status : string; vd_payload_hash : string }.

(** ** Steps of a unit of work *)

(** A method of a loaded object: its result and the object it leaves, also when it
    raises. *)
Definition attempt {O A} (m : PyM O EvidenceException A) (o : O) : App (result EvidenceException A * O) := mret (m o).

Definition on_object {O A} (m : PyM O EvidenceException A) (o : O) : App (A * O) :=
  match m o with
  | (Ok a, o') => mret (a, o')
  | (Err e, _) => raise (Domain e)
  end.

Definition load_evidence (id : uuid) (t : TenantId) : App ExecutionEvidence :=
  found ← in_session (find_evidence id t);
  match found with
  | Some e => mret e
  | None => raise (ApplicationNotFoundError "ExecutionEvidence" (str_uuid id))
  end.

Definition load_chain (id : uuid) (t : TenantId) : App EvidenceChain :=
  found ← in_session (find_chain id t);
  match found with
  | Some c => mret c
  | None => raise (ApplicationNotFoundError "EvidenceChain" (str_uuid id))
  end.

(** [save], [commit] and [_publish] of one aggregate. *)
Definition finish_evidence (e : ExecutionEvidence) : App unit :=
  in_session (save_evidence e);;
  uow_commit;;
  _publish (evidence_events e).
Definition finish_chain (c : EvidenceChain) : App unit :=
  in_session (save_chain c);;
  uow_commit;;
  _publish (chain_events c).

(** ** Commands *)

Record CollectEvidence := mkCollect {
  cv_tenant_id : TenantId; cv_action_id : uuid; cv_engagement_id : uuid; cv_operation_id : uuid;
  cv_evidence_type : string; cv_payload : bytes; cv_collected_by : string; cv_retention_class : string;
  cv_corrects_evidence_id : option uuid }.

(** What one collection draws: the ids of the evidence, of a new key and of the
    blob, and the seeds of a new key and of the encryption. *)
Record Draws := mkDraws { d_evidence : uuid; d_key : uuid; d_blob : uuid; d_key_seed : Z; d_encrypt_seed : Z }.

(** The unit of work of [collect_evidence]. *)
Definition collect_tx (e : ExecutionEvidence) (now : datetime) : App ExecutionEvidenceDTO :=
  in_session (save_evidence e);;
  found ← in_session (find_chain_by_operation (operation_ref e) (ee_tenant_id e));
  chained ← match found with
            | Some c =>
                if bool_decide (ch_state c = ChainState.OPEN) then
                  '(_, c) ← on_object (Chain.add_entry (ee_tenant_id e) (ee_id e) (payload_hash e) now) c;
                  in_session (save_chain c);;
                  mret (chain_events c)
                else mret []
            | None => mret []
            end;
  uow_commit;;
  _publish (evidence_events e ++ chained);;
  mret (_evidence_dto e).

Definition collect_evidence (cmd : CollectEvidence) (d : Draws) (now : datetime) : App ExecutionEvidenceDTO :=
  validate_uuid (cv_action_id cmd) "action_id";;
  validate_uuid (cv_engagement_id cmd) "engagement_id";;
  validate_uuid (cv_operation_id cmd) "operation_id";;
  validate_str (cv_collected_by cmd) "collected_by" 256;;
  raise_if (bool_decide (cv_payload cmd = [])) (ApplicationValidationError "payload" "must not be empty");;
  ty ← parse_enum "evidence_type" "EvidenceType" EvidenceType.value EvidenceType.all (cv_evidence_type cmd);
  retention ← parse_enum "retention_class" "RetentionClass" RetentionClass.value RetentionClass.all
                (cv_retention_class cmd);
  let t := cv_tenant_id cmd in
  let hash := BlobStore.hash_payload (cv_payload cmd) in
  key ← in_keys (Keys.generate_key_ref t (d_key d) (d_key_seed d));
  ciphertext ← in_keys (Keys.encrypt t key (d_encrypt_seed d) (cv_payload cmd));
  storage ← in_blobs (BlobStore.put t ciphertext key (d_blob d));
  id ← construct (non_nil (d_evidence d));
  e ← construct (Evidence.collect id t ty hash storage key (cv_action_id cmd) (cv_engagement_id cmd)
                   (cv_operation_id cmd) (cv_collected_by cmd) retention now (cv_corrects_evidence_id cmd));
  in_uow (collect_tx e now).

(** What [verify_evidence_integrity] does with the plaintext: the hashes are
    compared; a violation is saved, committed and published before it is raised. *)
Definition check_plaintext (e : ExecutionEvidence) (t : TenantId) (plaintext : bytes) (now : datetime)
    : App IntegrityVerificationResultDTO :=
  '(r, e) ← attempt (Evidence.verify_integrity t (from_payload plaintext) now) e;
  match r with
  | Err (EvidenceIntegrityViolation id expected computed) =>
      finish_evidence e;;
      raise (ApplicationIntegrityError id expected computed)
  | Err x => raise (Domain x)
  | Ok _ =>
      finish_evidence e;;
      mret (mkResultDTO (ee_id e) (EvidenceIntegrityStatus.value (integrity_status e)) (payload_hash e))
  end.

Definition zero_hash : string := foldr String.append EmptyString (repeat "0" 64).

(** When the ciphertext does not decrypt: a hash of zeros is compared. *)
Definition decrypt_failed (e : ExecutionEvidence) (t : TenantId) (now : datetime)
    : App IntegrityVerificationResultDTO :=
  zeros ← construct (EvidencePayloadHash_new zero_hash);
  '(r, e) ← attempt (Evidence.verify_integrity t zeros now) e;
  match r with
  | Err (EvidenceIntegrityViolation id expected _) =>
      finish_evidence e;;
      raise (ApplicationIntegrityError id expected "decrypt_failed")
  | Err x => raise (Domain x)
  | Ok _ => raise (ApplicationIntegrityError (ee_id e) (payload_hash e) "decrypt_failed")
  end.

(** [try: plaintext = await self._kms.decrypt(...)], with [None] for [ValueError]. *)
Definition try_decrypt (t : TenantId) (key : EvidenceEncryptionKeyRef) (ciphertext : bytes) : App (option bytes) := fun w =>
  match Keys.decrypt t key ciphertext (w_kms w) with
  | (Ok m, k) => (Ok (Some m), w <| w_kms := k |>)
  | (Err VaultValueError, k) => (Ok None, w <| w_kms := k |>)
  | (Err x, k) => (Err (Vault x), w <| w_kms := k |>)
  end.

Definition verify_tx (t : TenantId) (id : uuid) (now : datetime) : App IntegrityVerificationResultDTO :=
  e ← load_evidence id t;
  raise_if (quarantined e) (ApplicationIntegrityError (ee_id e) (payload_hash e) "quarantined");;
  ciphertext ← in_blobs (BlobStore.get t (storage_ref e));
  plaintext ← try_decrypt t (encryption_key_ref e) ciphertext;
  match plaintext with
  | None => decrypt_failed e t now
  | Some m => check_plaintext e t m now
  end.

Definition verify_evidence_integrity (t : TenantId) (id : uuid) (now : datetime) : App IntegrityVerificationResultDTO :=
  validate_uuid id "evidence_id";;
  in_uow (verify_tx t id now).

Definition app_transfer_custody (t : TenantId) (id : uuid) (custodian custody_action : string) (now : datetime)
    : App ExecutionEvidenceDTO :=
  validate_uuid id "evidence_id";;
  validate_str custodian "new_custodian" 256;;
  a ← parse_enum "custody_action" "CustodyAction" CustodyAction.value CustodyAction.all custody_action;
  in_uow (
    e ← load_evidence id t;
    '(_, e) ← on_object (Evidence.transfer_custody t custodian a now) e;
    finish_evidence e;;
    mret (_evidence_dto e)).

Definition request_evidence_deletion (t : TenantId) (id : uuid) (now : datetime) : App ExecutionEvidenceDTO :=
  validate_uuid id "evidence_id";;
  in_uow (
    e ← load_evidence id t;
    '(r, e) ← attempt (Evidence.request_deletion t now) e;
    match r with
    | Err (RetentionWindowActive i c x) => raise (ApplicationConflictError (RetentionWindowActive i c x))
    | Err x => raise (Domain x)
    | Ok _ =>
        finish_evidence e;;
        mret (_evidence_dto e)
    end).

Definition open_evidence_chain (t : TenantId) (operation engagement new_id : uuid) (now : datetime) : App EvidenceChainDTO :=
  validate_uuid operation "operation_id";;
  validate_uuid engagement "engagement_id";;
  in_uow (
    existing ← in_session (find_chain_by_operation operation t);
    match existing with
    | Some c => mret (_chain_dto c)
    | None =>
        id ← construct (non_nil new_id);
        let c := Chain.open id t operation engagement now in
        finish_chain c;;
        mret (_chain_dto c)
    end).

Definition add_evidence_to_chain (t : TenantId) (chain evidence : uuid) (now : datetime) : App EvidenceChainDTO :=
  validate_uuid chain "chain_id";;
  validate_uuid evidence "evidence_id";;
  in_uow (
    c ← load_chain chain t;
    e ← load_evidence evidence t;
    '(_, c) ← on_object (Chain.add_entry t (ee_id e) (payload_hash e) now) c;
    finish_chain c;;
    mret (_chain_dto c)).

Definition seal_evidence_chain (t : TenantId) (chain operator : uuid) (sealer_role sig : string) (now : datetime)
    : App EvidenceChainDTO :=
  validate_uuid chain "chain_id";;
  validate_uuid operator "sealer_operator_id";;
  validate_str sealer_role "sealer_role" 128;;
  validate_str sig "signature" 4096;;
  raise_if (bool_decide (sealer_role ≠ EVIDENCE_SEALER_ROLE))
    (ApplicationAuthorizationError ("Seal requires role '" +:+ EVIDENCE_SEALER_ROLE +:+ "'") "evidence:sealer");;
  in_uow (
    c ← load_chain chain t;
    '(r, c) ← attempt (Chain.seal t operator sealer_role sig now) c;
    match r with
    | Err (SealerRoleRequired x) =>
        raise (ApplicationAuthorizationError
                 ("Evidence chain seal requires role 'evidence:sealer', got '" +:+ x +:+ "'") "evidence:sealer")
    | Err x => raise (Domain x)
    | Ok _ =>
        finish_chain c;;
        mret (_chain_dto c)
    end).

Definition submit_evidence_chain (t : TenantId) (chain : uuid) (destination : string) (now : datetime) : App EvidenceChainDTO :=
  validate_uuid chain "chain_id";;
  validate_str destination "destination_ref" 512;;
  in_uow (
    c ← load_chain chain t;
    '(_, c) ← on_object (Chain.submit t destination now) c;
    finish_chain c;;
    mret (_chain_dto c)).

Definition query_evidence_chain_integrity (t : TenantId) (chain : uuid) (now : datetime) : App ChainIntegrityReport :=
  validate_uuid chain "chain_id";;
  in_uow (
    c ← load_chain chain t;
    '(report, c) ← on_object (Chain.verify_chain_integrity t now) c;
    finish_chain c;;
    mret report).

Definition app_get_evidence (t : TenantId) (id : uuid) : App ExecutionEvidenceDTO :=
  validate_uuid id "evidence_id";;
  in_uow (e ← load_evidence id t; mret (_evidence_dto e)).

Definition list_evidence_by_operation (t : TenantId) (operation : uuid) (limit offset : Z) : App (list ExecutionEvidenceDTO) :=
  validate_uuid operation "operation_id";;
  limit ← validate_limit limit;
  offset ← validate_offset offset;
  in_uow (
    items ← in_session (find_evidence_by_operation operation t limit offset);
    mret (map _evidence_dto items)).

Definition get_evidence_chain (t : TenantId) (id : uuid) : App EvidenceChainDTO :=
  validate_uuid id "chain_id";;
  in_uow (c ← load_chain id t; mret (_chain_dto c)).

Definition get_evidence_chain_by_operation (t : TenantId) (operation : uuid) : App EvidenceChainDTO :=
  validate_uuid operation "operation_id";;
  in_uow (
    found ← in_session (find_chain_by_operation operation t);
    match found with
    | Some c => mret (_chain_dto c)
    | None => raise (ApplicationNotFoundError "EvidenceChain" ("operation=" +:+ str_uuid operation))
    end).
End Service.

(** ** The commands as one type *)

Inductive command :=
  | Collect (cmd : CollectEvidence) (d : Draws)
  | Verify (t : TenantId) (id : uuid)
  | Transfer (t : TenantId) (id : uuid) (custodian custody_action : string)
  | RequestDeletion (t : TenantId) (id : uuid)
  | OpenChain (t : TenantId) (operation engagement new_id : uuid)
  | AddToChain (t : TenantId) (chain evidence : uuid)
  | Seal (t : TenantId) (chain operator : uuid) (sealer_role sig : string)
  | Submit (t : TenantId) (chain : uuid) (destination : string)
  | QueryIntegrity (t : TenantId) (chain : uuid)
  | GetEvidence (t : TenantId) (id : uuid)
  | ListEvidence (t : TenantId) (operation : uuid) (limit offset : Z)
  | GetChain (t : TenantId) (id : uuid)
  | GetChainByOperation (t : TenantId) (operation : uuid).

Section Worlds.
Context `{!Fernet} `{!UlidText} `{!RowOrder} `{!TenantColumns}.

(** [uuid7()] gives new evidence and a new chain an id of its own. *)
Definition command_ok (c : command) (w : World) : Prop :=
  match c with
  | Collect _ d => uuid_ok (d_evidence d) ∧ d_evidence d ∉ map er_id (eb_evidence (w_db w))
  | OpenChain _ _ _ new_id => new_id ∉ map hr_id (eb_chains (w_db w))
  | _ => True
  end.

Definition run_command (c : command) (now : datetime) : PyM World EvError unit :=
  match c with
  | Collect cmd d => collect_evidence cmd d now;; mret tt
  | Verify t id => verify_evidence_integrity t id now;; mret tt
  | Transfer t id k a => app_transfer_custody t id k a now;; mret tt
  | RequestDeletion t id => request_evidence_deletion t id now;; mret tt
  | OpenChain t o g id => open_evidence_chain t o g id now;; mret tt
  | AddToChain t c e => add_evidence_to_chain t c e now;; mret tt
  | Seal t c o r s => seal_evidence_chain t c o r s now;; mret tt
  | Submit t c d => submit_evidence_chain t c d now;; mret tt
  | QueryIntegrity t c => query_evidence_chain_integrity t c now;; mret tt
  | GetEvidence t id => app_get_evidence t id;; mret tt
  | ListEvidence t o l k => list_evidence_by_operation t o l k;; mret tt
  | GetChain t id => get_evidence_chain t id;; mret tt
  | GetChainByOperation t o => get_evidence_chain_by_operation t o;; mret tt
  end.

(** The two stores replaced: a restart of the process, a rotation of keys, blobs
    that are tampered with. *)
Definition vault_changed (b : Blobs) (k : Kms) (w : World) : World := w <| w_blobs := b |> <| w_kms := k |>.

(** A world that commands, and changes of the two stores, lead to. *)
Inductive reachable_world : World → Prop :=
  | rw_empty : reachable_world empty_world
  | rw_command w c now : reachable_world w → command_ok c w → datetime_ok now → reachable_world (run_command c now w).2
  | rw_vault w b k : reachable_world w → reachable_world (vault_changed b k w).
End Worlds.

(** ** Specification *)

(** What is stored stays stored, and has only been called. *)
Record grows (db db' : EvDb) : Prop := {
  gr_evidence : ∀ e, stored_evidence db e → ∃ e', stored_evidence db' e' ∧ Evidence.step e e';
  gr_chains : ∀ c, stored_chain db c → ∃ c', stored_chain db' c' ∧ Chain.step c c'
}.
#[export] Instance grows_preorder : PreOrder grows.
Proof.
  split; [intros db; split; [intros e He; by exists e|intros c Hc; by exists c]|].
  intros a b c [E1 C1] [E2 C2]. split.
  - intros e He. destruct (E1 e He) as (e1 & H1 & S1). destruct (E2 e1 H1) as (e2 & H2 & S2).
    exists e2. split; [done|by etrans].
  - intros x Hx. destruct (C1 x Hx) as (x1 & H1 & S1). destruct (C2 x1 H1) as (x2 & H2 & S2).
    exists x2. split; [done|by etrans].
Qed.

(** ** Lemmas *)

(** *** Calls *)

Definition call_time (c : Evidence.call) : datetime :=
  match c with
  | Evidence.EVerify _ _ now | Evidence.ETransfer _ _ _ now | Evidence.ERequestDeletion _ now
  | Evidence.EMarkExpired _ now => now
  | Evidence.EPopEvents => 0
  end.

Definition appends_at (now : datetime) (e e' : ExecutionEvidence) : Prop :=
  custody_chain e' = custody_chain e ∨
  ∃ r, custody_chain e' = custody_chain e ++ [r] ∧ timestamp r = now.

Lemma call_appends c e :
  wp (Evidence.run_call c) (λ _, appends_at (call_time c) e) (λ _, appends_at (call_time c) e) e.
Proof.
  destruct c; simpl; Evidence.unfold_evidence; wp_run; stable;
    try match goal with H : CustodyRecord_new _ _ _ = Some _ |- _ => apply Evidence.custody_new_ok in H as [-> ?] end;
    first [by left | right; eexists; split; [reflexivity|done]].
Qed.

(** A call keeps what the constructors accept. *)
Lemma evidence_call_ok c e r e' : ok_evidence e → Evidence.sound e → datetime_ok (call_time c) →
  Evidence.run_call c e = (r, e') → ok_evidence e' ∧ Evidence.step e e'.
Proof.
  intros Hok Hs Ht Hrun. pose proof (Evidence.evidence_call_step c e) as Hst. pose proof (call_appends c e) as Hap.
  unfold wp in Hst, Hap. rewrite Hrun in Hst, Hap.
  assert (Evidence.step e e' ∧ appends_at (call_time c) e e') as [Hst' Hap'] by (by destruct r). clear Hst Hap.
  split; [|done]. destruct Hst' as [Hf Hs' _ _ _]. specialize (Hs' Hs).
  destruct Hok as [H1 H2 H3 H4 H5 H6 H7 H8]. unfold Evidence.content in Hf. injection Hf as E1 E2 E3 E4 E5 E6 E7 E8 E9 E10 E11 E12 E13 E14.
  split; rewrite ?E1, ?E4, ?E5, ?E6, ?E7, ?E8, ?E9, ?E11, ?E13; try done.
  intros x Hx. split; [by apply (Evidence.so_custody _ Hs')|].
  destruct Hap' as [Heq|(y & Heq & Hy)]; rewrite Heq in Hx; [by apply H6|].
  apply elem_of_app in Hx as [Hx| ->%list_elem_of_singleton]; [by apply H6|by rewrite Hy].
Qed.

(** A sound chain whose ids are UUIDs is accepted. *)
Lemma chain_ok_of_sound c : Chain.sound c → chain_id c ≠ 0 → ch_operation_ref c ≠ 0 → ch_engagement_ref c ≠ 0 →
  (∀ e, e ∈ entries c → uuid_ok (evidence_id e)) → ok_chain c.
Proof.
  intros [Hh Hn He _ Hs _ _ _] H1 H2 H3 Hu. split; [done|rewrite Hh; apply digest_match| |].
  - intros e Hin. split; [by apply Hu|]. destruct (He e Hin) as [Hid Hre].
    assert (1 ≤ sequence e) as Hseq.
    { assert (sequence e ∈ map sequence (entries c)) as Hs' by (by apply list_elem_of_fmap_2).
      rewrite Hn in Hs'. apply list_elem_of_fmap in Hs' as (i & -> & _). lia. }
    unfold ChainEntry_new. rewrite (proj2 (Z.eqb_neq _ _)) by done. rewrite (proj2 (Z.ltb_ge _ _)) by lia.
    rewrite Hre. by destruct e.
  - intros x Hx. destruct (Hs x Hx) as (Hr & Hsig & Ho & _). unfold SealedBy_new, empty_str.
    rewrite (proj2 (Z.eqb_neq _ _)) by done. rewrite (bool_decide_eq_false_2 (role x = "")) by (by rewrite Hr).
    rewrite bool_decide_eq_false_2 by done. by destruct x.
Qed.

Definition entry_arg (c : Chain.call) : uuid := match c with Chain.CAddEntry _ e _ _ => e | _ => 0 end.

Lemma call_entries c x : wp (Chain.run_call c)
  (λ _ x', ∀ e, e ∈ entries x' → e ∈ entries x ∨ evidence_id e = entry_arg c)
  (λ _ x', ∀ e, e ∈ entries x' → e ∈ entries x ∨ evidence_id e = entry_arg c) x.
Proof.
  destruct c; simpl; Chain.unfold_chain; wp_run; stable; intros e; simpl; try by left.
  match goal with H : ChainEntry_new _ _ _ = Some _ |- _ => apply Chain.entry_new_ok in H as [-> _] end.
  intros [?| ->%list_elem_of_singleton]%elem_of_app; [by left|by right].
Qed.

Lemma chain_call_ok c x r x' : ok_chain x → Chain.sound x → uuid_ok (entry_arg c) → Chain.run_call c x = (r, x') →
  ok_chain x' ∧ Chain.step x x'.
Proof.
  intros Hok Hs Hu Hrun. pose proof (Chain.chain_call_step c x) as Hst. pose proof (call_entries c x) as He.
  unfold wp in Hst, He. rewrite Hrun in Hst, He.
  assert (Chain.step x x' ∧ ∀ e, e ∈ entries x' → e ∈ entries x ∨ evidence_id e = entry_arg c) as [Hst' He'] by (by destruct r).
  split; [|done]. destruct Hst' as [Hf Hs' _ _ _ _]. destruct Hok as [(H1 & H2 & H3) _ Hent _].
  unfold Chain.fixed in Hf. injection Hf as E1 E2 E3 E4 E5.
  apply chain_ok_of_sound; [by apply Hs'|by rewrite E1|by rewrite E3|by rewrite E4|].
  intros e [Hin| ->]%He'; [by apply Hent|done].
Qed.

(** *** Growth *)

Lemma no_pending_e e : ee_pending_events e = [] → e <| ee_pending_events := [] |> = e.
Proof. destruct e. simpl. by intros ->. Qed.
Lemma no_pending_c c : ch_pending_events c = [] → c <| ch_pending_events := [] |> = c.
Proof. destruct c. simpl. by intros ->. Qed.

(** Decoding is injective on what is stored. *)
Lemma stored_evidence_inj db db' e e' : stored_evidence db e → stored_evidence db' e' →
  evidence_to_row e = evidence_to_row e' → e = e'.
Proof.
  intros [_ Hok _ Hp] [_ Hok' _ Hp'] Heq. apply (f_equal evidence_from_row) in Heq. rewrite !evidence_round, !no_pending_e in Heq by done.
  by injection Heq.
Qed.
Lemma stored_chain_inj db db' c c' : stored_chain db c → stored_chain db' c' → chain_to_row c = chain_to_row c' → c = c'.
Proof.
  intros [_ Hok _ Hp] [_ Hok' _ Hp'] Heq. apply (f_equal chain_from_row) in Heq. rewrite !chain_round, !no_pending_c in Heq by done.
  by injection Heq.
Qed.

(** A saved aggregate is stored without its events. *)
Lemma stored_saved_evidence db e : evidence_to_row e ∈ eb_evidence db → ok_evidence e → Evidence.sound e →
  stored_evidence db (e <| ee_pending_events := [] |>) ∧ Evidence.step e (e <| ee_pending_events := [] |>).
Proof.
  intros Hr Hok Hs. split; [|apply (Evidence.evidence_call_step Evidence.EPopEvents e)].
  destruct e, Hok, Hs. by split.
Qed.
Lemma stored_saved_chain db c : chain_to_row c ∈ eb_chains db → ok_chain c → Chain.sound c →
  stored_chain db (c <| ch_pending_events := [] |>) ∧ Chain.step c (c <| ch_pending_events := [] |>).
Proof.
  intros Hr Hok Hs. split; [|apply (Chain.chain_call_step Chain.CPopEvents c)].
  destruct c, Hok, Hs. by split.
Qed.

Lemma evidence_grows db db' e : NoDup (map er_id (eb_evidence db)) → ok_evidence e → Evidence.sound e →
  upserted er_id (ee_id e) (evidence_to_row e) (eb_evidence db) (eb_evidence db') → eb_chains db' = eb_chains db →
  (∀ e0, stored_evidence db e0 → ee_id e0 = ee_id e → Evidence.step e0 e) → grows db db'.
Proof.
  intros Hnd Hok Hs [_ Hnew Hkept _] Hc Hstep. destruct (stored_saved_evidence db' e Hnew Hok Hs) as [Hst Hpop]. split.
  - intros e0 He0. destruct (decide (ee_id e0 = ee_id e)) as [Heq|Hne].
    + eexists. split; [exact Hst|]. etrans; [by apply Hstep|done].
    + exists e0. split; [|done]. destruct He0 as [Hr ? ? ?]. split; [|done..]. by apply Hkept.
  - intros c [Hr ? ? ?]. exists c. split; [|done]. split; [by rewrite Hc|done..].
Qed.

Lemma chain_grows db db' c : ok_chain c → Chain.sound c →
  upserted hr_id (chain_id c) (chain_to_row c) (eb_chains db) (eb_chains db') → eb_evidence db' = eb_evidence db →
  (∀ c0, stored_chain db c0 → chain_id c0 = chain_id c → Chain.step c0 c) → grows db db'.
Proof.
  intros Hok Hs [_ Hnew Hkept _] He Hstep. destruct (stored_saved_chain db' c Hnew Hok Hs) as [Hst Hpop]. split.
  - intros e [Hr ? ? ?]. exists e. split; [|done]. split; [by rewrite He|done..].
  - intros c0 Hc0. destruct (decide (chain_id c0 = chain_id c)) as [Heq|Hne].
    + eexists. split; [exact Hst|]. etrans; [by apply Hstep|done].
    + exists c0. split; [|done]. destruct Hc0 as [Hr ? ? ?]. split; [|done..]. by apply Hkept.
Qed.

(** The stored aggregate of an id is one. *)
Lemma stored_evidence_unique db e e' : ev_good db → stored_evidence db e → stored_evidence db e' → ee_id e = ee_id e' → e = e'.
Proof.
  intros Hg He He' Hid. apply (stored_evidence_inj db db); [done..|].
  apply (nodup_key_inj er_id (eb_evidence db)); [apply (eg_keys _ Hg)|apply He|apply He'|done].
Qed.
Lemma stored_chain_unique db c c' : ev_good db → stored_chain db c → stored_chain db c' → chain_id c = chain_id c' → c = c'.
Proof.
  intros Hg Hc Hc' Hid. apply (stored_chain_inj db db); [done..|].
  apply (nodup_key_inj hr_id (eb_chains db)); [apply (eg_keys _ Hg)|apply Hc|apply Hc'|done].
Qed.

(** *** Transactions *)

Section Transactions.
Context `{!Fernet} `{!UlidText} `{!RowOrder} `{!TenantColumns}.

Definition rolled_back (w w' : World) : Prop := w_db w' = w_db w ∧ w_published w' = w_published w.
Definition committed (w w' : World) : Prop := ev_good (w_db w') ∧ grows (w_db w) (w_db w').

(** An open unit of work that has only read. *)
Record in_tx (w w1 : World) : Prop := {
  it_rolled : rolled_back w w1;
  it_session : session_ok (w_session w1);
  it_view : es_db (w_session w1) = w_db w;
  it_vault : w_blobs w1 = w_blobs w ∧ w_kms w1 = w_kms w
}.

Lemma wp_ev_uow {A} (body : PyM World EvError A) (Q : A → World → Prop) (X : EvError → World → Prop) w : ev_good (w_db w) →
  (∀ w1, in_tx w w1 → wp body (λ a w', Q a (w' <| w_session := new_session (w_db w') |>))
                             (λ e w', X e (w' <| w_session := new_session (w_db w') |>)) w1) → wp (in_uow body) Q X w.
Proof.
  intros Hg Hbody. unfold wp, in_uow. specialize (Hbody (w <| w_session := new_session (w_db w) |>)).
  unfold wp in Hbody. destruct (body _) as [[a|e] w']; apply Hbody; (split; [done|by apply new_session_ok|done|done]).
Qed.

Lemma wp_in_session {A} (m : SM A) (Q : A → World → Prop) X w :
  wp m (λ a s, Q a (w <| w_session := s |>)) (λ e s, X (Store e) (w <| w_session := s |>)) (w_session w) →
  wp (in_session m) Q X w.
Proof. unfold wp, in_session. by destruct (m (w_session w)) as [[]]. Qed.

Lemma in_tx_session w w1 s : in_tx w w1 → session_ok s → es_db s = es_db (w_session w1) → in_tx w (w1 <| w_session := s |>).
Proof. intros [[Hd Hp] Hs Hv Hb] Hok Hdb. split; [done|done|by rewrite <- Hv|done]. Qed.

Lemma wp_load_evidence id t (Q : ExecutionEvidence → World → Prop) X w w1 : in_tx w w1 →
  (∀ e w2, in_tx w w2 → stored_evidence (w_db w) e → ee_id e = id → ee_tenant_id e = t → Q e w2) →
  (∀ w2, in_tx w w2 →
     (∀ e, stored_evidence (w_db w) e → ee_id e = id → ee_tenant_id e = t → uuid_equals_ulid = true → False) →
     X (ApplicationNotFoundError "ExecutionEvidence" (str_uuid id)) w2) →
  wp (load_evidence id t) Q X w1.
Proof.
  intros Hw HQ HX. unfold load_evidence. wp_step. apply wp_in_session.
  apply wp_find_evidence; [apply Hw|..].
  - intros s Hs Hdb Hno. rewrite (it_view _ _ Hw) in Hno. wp_run. apply HX; [by apply in_tx_session|done].
  - intros e s Hs Hdb Hst Hid Ht. wp_run. rewrite (it_view _ _ Hw) in Hst. apply HQ; [by apply in_tx_session|done..].
Qed.

Lemma wp_load_chain id t (Q : EvidenceChain → World → Prop) X w w1 : in_tx w w1 →
  (∀ c w2, in_tx w w2 → stored_chain (w_db w) c → chain_id c = id → ch_tenant_id c = t → Q c w2) →
  (∀ w2, in_tx w w2 →
     (∀ c, stored_chain (w_db w) c → chain_id c = id → ch_tenant_id c = t → uuid_equals_ulid = true → False) →
     X (ApplicationNotFoundError "EvidenceChain" (str_uuid id)) w2) →
  wp (load_chain id t) Q X w1.
Proof.
  intros Hw HQ HX. unfold load_chain. wp_step. apply wp_in_session.
  apply wp_find_chain; [apply Hw|..].
  - intros s Hs Hdb Hno. rewrite (it_view _ _ Hw) in Hno. wp_run. apply HX; [by apply in_tx_session|done].
  - intros c s Hs Hdb Hst Hid Ht. wp_run. rewrite (it_view _ _ Hw) in Hst. apply HQ; [by apply in_tx_session|done..].
Qed.

(** What finishing a unit of work leaves. *)
Record finished (w w' : World) (events : list EvPublished) : Prop := {
  fi_good : ev_good (w_db w');
  fi_published : w_published w' = w_published w ++ events;
  fi_vault : w_blobs w' = w_blobs w ∧ w_kms w' = w_kms w
}.

Lemma wp_finish_evidence e0 e (Q : unit → World → Prop) X w w1 : in_tx w w1 → stored_evidence (w_db w) e0 →
  ok_evidence e → Evidence.step e0 e →
  (∀ w2, finished w w2 (evidence_events e) → grows (w_db w) (w_db w2) →
     stored_evidence (w_db w2) (e <| ee_pending_events := [] |>) → Q tt w2) → wp (finish_evidence e) Q X w1.
Proof.
  intros Hw Hst Hok Hstep HQ. unfold finish_evidence, uow_commit, _publish.
  assert (Evidence.sound e) as Hs by (apply Hstep, Hst).
  assert (ee_id e = ee_id e0) as Hid by (pose proof (Evidence.st_content _ _ Hstep) as Hc; unfold Evidence.content in Hc; by injection Hc).
  pose proof (sk_good _ (it_session _ _ Hw)) as Hg.
  pose proof (it_view _ _ Hw) as Hv.
  wp_step. apply wp_in_session. apply wp_save_evidence; [apply Hw|done|done| |].
  { intros r Hr Hrid. rewrite Hv in *. destruct (evidence_row_decodes _ r Hg Hr) as (e1 & _ & Hst1 & ->).
    rewrite (stored_evidence_unique (w_db w) e1 e0); [|done..|by rewrite <- Hid]. apply updated_evidence, Hstep. }
  intros s Hs' Hc Hup. rewrite Hv in *. wp_run. destruct Hw as [[Hd Hp] _ _ Hb]. apply HQ; simpl.
  - split; simpl; [apply Hs'|by rewrite Hp|done].
  - apply (evidence_grows _ _ e); [apply (eg_keys _ Hg)|done..|].
    intros e1 He1 Heq. rewrite (stored_evidence_unique (w_db w) e1 e0); [done|done..|by rewrite Heq].
  - apply stored_saved_evidence; [apply Hup|done..].
Qed.

Lemma wp_finish_chain c (Q : unit → World → Prop) X w w1 : in_tx w w1 →
  ok_chain c → Chain.sound c → (∀ c0, stored_chain (w_db w) c0 → chain_id c0 = chain_id c → Chain.step c0 c) →
  (∀ w2, finished w w2 (chain_events c) → grows (w_db w) (w_db w2) →
     stored_chain (w_db w2) (c <| ch_pending_events := [] |>) → Q tt w2) →
  (∀ e w2, chain_id c ∉ map hr_id (eb_chains (w_db w)) → rolled_back w w2 → X (Store e) w2) → wp (finish_chain c) Q X w1.
Proof.
  intros Hw Hok Hs Hstep HQ HX. unfold finish_chain, uow_commit, _publish.
  pose proof (sk_good _ (it_session _ _ Hw)) as Hg. pose proof (it_view _ _ Hw) as Hv.
  wp_step. apply wp_in_session. apply wp_save_chain; [apply Hw|done|done| | |intros e s Hn _; apply HX; [by rewrite <- Hv|apply Hw]].
  { intros r Hr Hrid. rewrite Hv in *. destruct (chain_row_decodes _ r Hg Hr) as (c1 & _ & Hst1 & ->).
    apply updated_chain, Hstep; done. }
  intros s Hs' Hc Hup. rewrite Hv in *. wp_run. destruct Hw as [[Hd Hp] _ _ Hb]. apply HQ; simpl.
  - split; simpl; [apply Hs'|by rewrite Hp|done].
  - by apply (chain_grows _ _ c).
  - apply stored_saved_chain; [apply Hup|done..].
Qed.

Lemma wp_ev_uuid u field (Q : unit → World → Prop) X w : (u ≠ 0 → Q tt w) → (u = 0 → ∀ e, X e w) →
  wp (validate_uuid u field) Q X w.
Proof. intros HQ HX. unfold validate_uuid. wp_run; [by apply HX, Z.eqb_eq|]. apply HQ. by apply Z.eqb_neq. Qed.

Lemma wp_ev_str v field n (Q : unit → World → Prop) X w : (sized v n = true → Q tt w) → (∀ e, X e w) →
  wp (validate_str v field n) Q X w.
Proof.
  intros HQ HX. unfold validate_str. wp_run; try done. apply HQ. unfold sized. guards.
  apply andb_true_intro. split; [by match goal with H : empty_str v = false |- _ => rewrite H end|].
  apply bool_decide_eq_true_2. lia.
Qed.

Lemma wp_ev_enum {A} field enum text (all : list A) v (Q : A → World → Prop) X w : (∀ a, Q a w) → (∀ e, X e w) →
  wp (parse_enum field enum text all v) Q X w.
Proof. intros HQ HX. unfold parse_enum. destruct (of_text _ _ _); wp_run; auto. Qed.

Lemma wp_ev_construct {A} (x : option A) (Q : A → World → Prop) X w : (∀ a, x = Some a → Q a w) → (∀ e, X e w) →
  wp (construct x) Q X w.
Proof. intros HQ HX. unfold construct. destruct x; wp_run; auto. Qed.

Lemma wp_in_keys {A} (m : PyM Kms VaultError A) (Q : A → World → Prop) X w :
  wp m (λ a k, Q a (w <| w_kms := k |>)) (λ e k, X (Vault e) (w <| w_kms := k |>)) (w_kms w) → wp (in_keys m) Q X w.
Proof. unfold wp, in_keys. by destruct (m (w_kms w)) as [[]]. Qed.

Lemma wp_in_blobs {A} (m : PyM Blobs VaultError A) (Q : A → World → Prop) X w :
  wp m (λ a b, Q a (w <| w_blobs := b |>)) (λ e b, X (Vault e) (w <| w_blobs := b |>)) (w_blobs w) → wp (in_blobs m) Q X w.
Proof. unfold wp, in_blobs. by destruct (m (w_blobs w)) as [[]]. Qed.

(** A method of a loaded object. *)
Lemma wp_ev_object {O A} (m : PyM O EvidenceException A) o (Q : A * O → World → Prop) X w :
  (∀ a o', m o = (Ok a, o') → Q (a, o') w) → (∀ e, X e w) → wp (on_object m o) Q X w.
Proof. intros HQ HX. unfold on_object. destruct (m o) as [[a|e] o'] eqn:Hm; wp_run; auto. Qed.

(** A key reference and a storage reference are what their constructors accept. *)
Lemma wp_generated_key t i s k : wp (Keys.generate_key_ref t i s)
  (λ r _, EvidenceEncryptionKeyRef_new (key_id r) (key_version r) = Some r) (λ _ _, True) k.
Proof.
  assert (∀ id v k, wp (Keys.key_ref id v) (λ r _, EvidenceEncryptionKeyRef_new (key_id r) (key_version r) = Some r)
    (λ _ _, True) k) as Href.
  { intros id v k0. unfold Keys.key_ref. destruct (EvidenceEncryptionKeyRef_new id v) as [r|] eqn:Hr; wp_run; [|done].
    pose proof Hr as Hr'. unfold EvidenceEncryptionKeyRef_new in Hr'. destruct (negb _); [done|]. destruct (v <? 1); [done|].
    by injection Hr' as <-. }
  unfold Keys.generate_key_ref, Keys._ensure_current. wp_step. apply wp_self.
  destruct (dget _ t) as [[id v]|]; [apply Href|]. wp_step. apply wp_modify. wp_step. apply wp_modify. apply Href.
Qed.

Lemma wp_put t c r i b : wp (BlobStore.put t c r i) (λ ref _, sized ref 512 = true) (λ _ _, True) b.
Proof.
  unfold BlobStore.put, EvidenceStorageRef_new. destruct (sized _ 512) eqn:Hs; wp_run; done.
Qed.

(** Collected evidence is saved, and its hash appended to the open chain of its
    operation. *)
Lemma wp_collect_tx e now (Q : ExecutionEvidenceDTO → World → Prop) X w w1 : in_tx w w1 → ok_evidence e → Evidence.sound e →
  ee_id e ∉ map er_id (eb_evidence (w_db w)) →
  (∀ w2, committed w w2 → w_blobs w2 = w_blobs w → w_kms w2 = w_kms w →
     stored_evidence (w_db w2) (e <| ee_pending_events := [] |>) → Q (_evidence_dto e) w2) →
  (∀ x w2, rolled_back w w2 → X x w2) → wp (collect_tx e now) Q X w1.
Proof.
  intros Hw Hok Hs Hnew HQ HX. pose proof (oe_uuid _ Hok) as Hu. unfold collect_tx, uow_commit, _publish.
  pose proof (sk_good _ (it_session _ _ Hw)) as Hg. pose proof (it_view _ _ Hw) as Hv.
  destruct Hw as [Hroll Hses _ [Hb Hk]].
  assert (∀ r, r ∈ eb_evidence (w_db w) → er_id r ≠ ee_id e) as Hno
    by (intros r Hr Heq; apply Hnew; rewrite <- Heq; by apply list_elem_of_fmap_2).
  wp_step. apply wp_in_session. apply wp_save_evidence; [done..| |].
  { intros r Hr Hrid. rewrite Hv in Hr. by apply Hno in Hr. }
  intros s Hss Hc Hup. rewrite Hv in *.
  assert (grows (w_db w) (es_db s)) as Hgrow.
  { apply (evidence_grows _ _ e); [apply (eg_keys _ Hg)|done..|]. intros e0 He0 Heq. by apply (Hno _ (se_row _ _ He0)) in Heq. }
  assert (stored_evidence (es_db s) (e <| ee_pending_events := [] |>)) as Hst by (apply stored_saved_evidence; [apply Hup|done..]).
  wp_step. apply wp_in_session. cbn [w_session].
  apply wp_find_chain_by_operation; [done| |].
  - intros _. wp_run. apply HQ; simpl; [|done..]. split; simpl; [apply Hss|done].
  - intros c s' Hs' Hdb Hc0 Hop Ht. wp_step. case_bool_decide as Hopen.
    + wp_step. apply wp_ev_object; [|intros x; by apply HX].
      intros [] c' Hadd.
      destruct (chain_call_ok (Chain.CAddEntry (ee_tenant_id e) (ee_id e) (payload_hash e) now) c _ c'
        (sc_ok _ _ Hc0) (sc_sound _ _ Hc0) Hu Hadd) as [Hok' Hstep].
      assert (chain_id c' = chain_id c) as Hid
        by (pose proof (Chain.st_fixed _ _ Hstep) as Hf; unfold Chain.fixed in Hf; by injection Hf).
      pose proof (sk_good _ Hss) as Hgs. assert (Chain.sound c') as Hsound by (apply Hstep, Hc0).
      wp_step. apply wp_in_session. apply wp_save_chain; [done..| | |intros; by apply HX].
      { intros r Hr Hrid. simpl in Hr. rewrite Hdb in Hr.
        destruct (chain_row_decodes _ r Hgs Hr) as (c1 & _ & Hst1 & ->).
        rewrite (stored_chain_unique (es_db s) c1 c); [|done..|by rewrite <- Hid]. apply updated_chain, Hstep. }
      intros s2 Hs2 He2 Hup2. simpl in Hs2, He2, Hup2. rewrite Hdb in He2, Hup2. wp_run. apply HQ; simpl; [|done|done|].
      * split; simpl; [apply Hs2|]. etrans; [exact Hgrow|]. apply (chain_grows _ _ c'); [done..|].
        intros c1 Hc1 Heq. rewrite (stored_chain_unique (es_db s) c1 c); [done|done..|by rewrite Heq].
      * destruct Hst. split; [by rewrite He2|done..].
    + wp_run. apply HQ; simpl; [|done|done|by rewrite Hdb]. split; simpl; [by rewrite Hdb; apply Hss|by rewrite Hdb].
Qed.

(** *** Verification *)

(** What decrypts for the stored evidence, and whether it is what was collected. *)
Definition opened (w : World) (e : ExecutionEvidence) : option bytes :=
  match dget (_blobs (w_blobs w)) (ee_tenant_id e, storage_ref e) with
  | Some ciphertext =>
      match (Keys.decrypt (ee_tenant_id e) (encryption_key_ref e) ciphertext (w_kms w)).1 with
      | Ok m => Some m
      | Err _ => None
      end
  | None => None
  end.
Definition intact (w : World) (e : ExecutionEvidence) : Prop :=
  ∃ m, opened w e = Some m ∧ from_payload m = payload_hash e.
Definition blob_present (w : World) (e : ExecutionEvidence) : Prop :=
  is_Some (dget (_blobs (w_blobs w)) (ee_tenant_id e, storage_ref e)).

Lemma integrity_spec h now e : quarantined e = false → ∃ e',
  Evidence.verify_integrity (ee_tenant_id e) h now e =
    ((if bool_decide (h = payload_hash e) then Ok tt
      else Err (EvidenceIntegrityViolation (ee_id e) (payload_hash e) h)), e') ∧
  ee_id e' = ee_id e ∧ payload_hash e' = payload_hash e ∧
  integrity_status e' = (if bool_decide (h = payload_hash e) then EvidenceIntegrityStatus.VERIFIED
                         else EvidenceIntegrityStatus.TAMPERED) ∧
  quarantined e' = negb (bool_decide (h = payload_hash e)).
Proof.
  intros Hq. unfold Evidence.verify_integrity, Evidence._assert_tenant, self, mbind, PyM_bind, raise_if.
  rewrite (bool_decide_eq_false_2 (_ ≠ _)) by (intros Hn; by apply Hn). cbn. rewrite Hq. cbn.
  case_bool_decide; eexists; (split; [reflexivity|]); cbn; by rewrite ?Hq.
Qed.

(** The ways a verification is refused without a change. *)
Definition unverified (t : TenantId) (id : uuid) (w : World) (x : EvError) : Prop :=
  (∀ e, stored_evidence (w_db w) e → ee_id e = id → ee_tenant_id e = t → uuid_equals_ulid = true → False) ∨
  ∃ e, stored_evidence (w_db w) e ∧ ee_id e = id ∧ ee_tenant_id e = t ∧
    (quarantined e = true ∧ x = ApplicationIntegrityError id (payload_hash e) "quarantined" ∨
     quarantined e = false ∧ ¬ blob_present w e ∧ x = Vault VaultKeyError ∨
     quarantined e = false ∧ blob_present w e ∧ opened w e = None ∧ payload_hash e = zero_hash).

(** The stored evidence after its verification. *)
Record judged (w w2 : World) (e e' : ExecutionEvidence) (status : EvidenceIntegrityStatus.t) : Prop := {
  ju_commit : committed w w2;
  ju_vault : w_blobs w2 = w_blobs w ∧ w_kms w2 = w_kms w;
  ju_stored : stored_evidence (w_db w2) e';
  ju_content : Evidence.content e' = Evidence.content e;
  ju_status : integrity_status e' = status
}.

Lemma finished_judged w w2 e e1 : finished w w2 (evidence_events e1) → grows (w_db w) (w_db w2) →
  stored_evidence (w_db w2) (e1 <| ee_pending_events := [] |>) → Evidence.step e e1 →
  judged w w2 e (e1 <| ee_pending_events := [] |>) (integrity_status e1).
Proof. intros [Hg _ Hv] Hgr Hst Hstep. split; [by split|done|done|apply Hstep|done]. Qed.

Lemma in_tx_same w w1 : in_tx w w1 → in_tx w (w1 <| w_blobs := w_blobs w1 |>) ∧ in_tx w (w1 <| w_kms := w_kms w1 |>).
Proof. by intros [? ? ? ?]. Qed.

Lemma wp_try_decrypt t key ct (Q : option bytes → World → Prop) X w :
  Q (match (Keys.decrypt t key ct (w_kms w)).1 with Ok m => Some m | Err _ => None end) (w <| w_kms := w_kms w |>) →
  wp (try_decrypt t key ct) Q X w.
Proof.
  unfold wp, try_decrypt, Keys.decrypt, Keys._fernet, self, mbind, PyM_bind.
  destruct (dget (_keys (w_kms w)) _) as [f|]; cbn; [|done]. by destruct (fernet_decrypt f ct).
Qed.

(** A verification that was carried out, saved and published. *)
Lemma wp_verified e e1 h now (Q : unit → World → Prop) X w w1 : in_tx w w1 → stored_evidence (w_db w) e → datetime_ok now →
  (Evidence.verify_integrity (ee_tenant_id e) h now e).2 = e1 →
  (∀ w2, judged w w2 e (e1 <| ee_pending_events := [] |>) (integrity_status e1) → Q tt w2) → wp (finish_evidence e1) Q X w1.
Proof.
  intros Hw Hst Hnow Hrun HQ.
  destruct (evidence_call_ok (Evidence.EVerify (ee_tenant_id e) h now) e
    (Evidence.verify_integrity (ee_tenant_id e) h now e).1 e1) as [Hok Hstep]; [apply Hst|apply Hst|done| |].
  { simpl. rewrite <- Hrun. apply surjective_pairing. }
  apply (wp_finish_evidence e e1 _ _ w); [done..|]. intros w2 Hf Hg Hs. apply HQ. by apply finished_judged.
Qed.

Lemma wp_verify_tx t id now (Q : IntegrityVerificationResultDTO → World → Prop) X w w1 : in_tx w w1 → datetime_ok now →
  (∀ e e' w2, stored_evidence (w_db w) e → ee_id e = id → ee_tenant_id e = t → quarantined e = false → intact w e →
     judged w w2 e e' EvidenceIntegrityStatus.VERIFIED → Q (mkResultDTO id "Verified" (payload_hash e)) w2) →
  (∀ x w2, in_tx w w2 → unverified t id w x → X x w2) →
  (∀ e e' w2 c, stored_evidence (w_db w) e → ee_id e = id → ee_tenant_id e = t → quarantined e = false →
     blob_present w e → ¬ intact w e → judged w w2 e e' EvidenceIntegrityStatus.TAMPERED →
     X (ApplicationIntegrityError id (payload_hash e) c) w2) →
  wp (verify_tx t id now) Q X w1.
Proof.
  intros Hw Hnow HQ HU HX. unfold verify_tx. wp_step. apply (wp_load_evidence _ _ _ _ w); [done| |].
  2:{ intros w2 Hw2 Hno. apply HU; [done|by left]. }
  intros e w2 Hw2 Hst Hid Ht. wp_step. apply wp_raise_if; intros Hq.
  { apply HU; [done|]. right. exists e. split_and!; [done..|]. left. by rewrite Hid. }
  pose proof (it_vault _ _ Hw2) as [Hb Hk].
  wp_step. apply wp_in_blobs. unfold BlobStore.get. wp_step. apply wp_self. rewrite Hb, <- Ht.
  destruct (dget (_blobs (w_blobs w)) (ee_tenant_id e, storage_ref e)) as [ct|] eqn:Hct.
  2:{ wp_run. apply HU; [by destruct Hw2; split|]. right. exists e. split_and!; [done..|]. right. left.
      split_and!; [done| |done]. unfold blob_present. rewrite Hct. by intros []. }
  assert (blob_present w e) as Hpres by (unfold blob_present; by rewrite Hct).
  wp_step. wp_step. apply wp_try_decrypt. simpl. rewrite Hk.
  assert (opened w e = match (Keys.decrypt (ee_tenant_id e) (encryption_key_ref e) ct (w_kms w)).1 with
                       | Ok m => Some m | Err _ => None end) as Ho by (unfold opened; by rewrite Hct).
  rewrite <- Ho. clear Ho Hct.
  match goal with |- wp _ _ _ ?w3 => set (w3' := w3); assert (in_tx w w3') as Hw3 by (by destruct Hw2) end.
  clearbody w3'. clear Hw2 Hb Hk w2. destruct (opened w e) as [m|] eqn:Hop.
  - unfold check_plaintext. destruct (integrity_spec (from_payload m) now e Hq) as (e1 & Hrun & E1 & E2 & E3 & E4).
    wp_step. unfold attempt. apply wp_ret. rewrite Hrun. case_bool_decide as Hh.
    + wp_step. apply (wp_verified e e1 (from_payload m) now _ _ w); [done..|by rewrite Hrun|]. intros w2 Hj. wp_run.
      rewrite E1, E2, E3, Hid in *. eapply HQ; [done..| |exact Hj]. by exists m.
    + wp_step. apply (wp_verified e e1 (from_payload m) now _ _ w); [done..|by rewrite Hrun|]. intros w2 Hj. wp_run.
      rewrite E3, Hid in *. eapply HX; [done..| |exact Hj]. intros (m' & Hm & Heq). congruence.
  - unfold decrypt_failed.
    assert (EvidencePayloadHash_new zero_hash = Some zero_hash) as -> by (vm_compute; reflexivity).
    destruct (integrity_spec zero_hash now e Hq) as (e1 & Hrun & E1 & E2 & E3 & E4).
    wp_step. unfold construct. apply wp_ret. wp_step. unfold attempt. apply wp_ret. rewrite Hrun. case_bool_decide as Hh.
    + wp_run. apply HU; [done|]. right. exists e. split_and!; [done..|]. right. right. done.
    + wp_step. apply (wp_verified e e1 zero_hash now _ _ w); [done..|by rewrite Hrun|]. intros w2 Hj. wp_run.
      rewrite E3, Hid in *. eapply HX; [done..| |exact Hj]. intros (m' & Hm & Heq). congruence.
Qed.

(** *** Commands *)

(** A command commits, or it raises: without a change, or after it has recorded
    that evidence is not what was collected. *)
Definition raised (w : World) (e : EvError) (w' : World) : Prop :=
  rolled_back w w' ∨ (∃ i x y, e = ApplicationIntegrityError i x y) ∧ committed w w'.

Lemma raised_in_tx w w1 e : in_tx w w1 → raised w e w1.
Proof. intros [Hr _ _ _]. by left. Qed.

Lemma committed_in_tx w w1 : ev_good (w_db w) → in_tx w w1 → committed w w1.
Proof. intros Hg [[Hd _] _ _ _]. unfold committed. by rewrite Hd. Qed.

Lemma finished_committed w w2 l : finished w w2 l → grows (w_db w) (w_db w2) → committed w w2.
Proof. by intros [Hg _ _] Hgr. Qed.

Ltac ev_step :=
  lazymatch goal with
  | |- wp (validate_uuid _ _) _ _ _ => apply wp_ev_uuid; [intros ?|intros; first [done|by left]]
  | |- wp (validate_str _ _ _) _ _ _ => apply wp_ev_str; [intros ?|intros ?; first [done|by left]]
  | |- wp (parse_enum _ _ _ _ _) _ _ _ => apply wp_ev_enum; [intros ?|intros ?; first [done|by left]]
  | |- wp (construct _) _ _ _ => apply wp_ev_construct; [intros ? ?|intros ?; first [done|by left]]
  | |- wp (raise_if _ _) _ _ _ => apply wp_raise_if; intros ?; [first [done|by left]|]
  | |- wp (in_uow _) _ _ ?w => apply wp_ev_uow; [done|]; intros ? ?
  | _ => wp_step
  end.

(** A command that calls the stored evidence and saves it. *)
Lemma wp_call_evidence c e0 r e w w1 (Q : unit → World → Prop) X : in_tx w w1 → stored_evidence (w_db w) e0 →
  datetime_ok (call_time c) → Evidence.run_call c e0 = (r, e) → (∀ w2, committed w w2 → Q tt w2) →
  wp (finish_evidence e) Q X w1.
Proof.
  intros Hw Hst Ht Hrun HQ.
  destruct (evidence_call_ok c e0 r e (se_ok _ _ Hst) (se_sound _ _ Hst) Ht Hrun) as [Hok Hstep].
  apply (wp_finish_evidence e0 e _ _ w); [done..|]. intros w2 Hf Hg _. by apply HQ, (finished_committed _ _ (evidence_events e)).
Qed.

(** A command that calls the stored chain and saves it. *)
Lemma wp_call_chain c x0 r x w w1 (Q : unit → World → Prop) X : in_tx w w1 → stored_chain (w_db w) x0 →
  uuid_ok (entry_arg c) → Chain.run_call c x0 = (r, x) → (∀ w2, committed w w2 → Q tt w2) →
  wp (finish_chain x) Q X w1.
Proof.
  intros Hw Hst Hu Hrun HQ.
  destruct (chain_call_ok c x0 r x (sc_ok _ _ Hst) (sc_sound _ _ Hst) Hu Hrun) as [Hok Hstep].
  pose proof (sk_good _ (it_session _ _ Hw)) as Hg. rewrite (it_view _ _ Hw) in Hg.
  assert (chain_id x = chain_id x0) as Hid
    by (pose proof (Chain.st_fixed _ _ Hstep) as Hf; unfold Chain.fixed in Hf; by injection Hf).
  apply (wp_finish_chain x _ _ w); [done|done|apply Hstep, Hst| | |].
  - intros c0 Hc0 Heq. rewrite (stored_chain_unique (w_db w) c0 x0); [done|done..|by rewrite Heq].
  - intros w2 Hf Hgr _. by apply HQ, (finished_committed _ _ (chain_events x)).
  - intros e w2 Hn _. exfalso. apply Hn. rewrite Hid. apply (list_elem_of_fmap_2 hr_id _ _ (sc_row _ _ Hst)).
Qed.

Lemma zero_uuid_ok : uuid_ok 0.
Proof. by_compute. Qed.

(** What every command does. *)
Definition keeps_good {A} (m : PyM World EvError A) (w : World) : Prop :=
  wp m (λ _ w', committed w w') (λ e w', raised w e w') w.

Lemma wp_any {S E A} (m : PyM S E A) s : wp m (λ _ _, True) (λ _ _, True) s.
Proof. unfold wp. by destruct (m s) as [[]]. Qed.

Lemma wp_runs {S E A} (m : PyM S E A) (Q : A → S → Prop) X s a s' : m s = (Ok a, s') → Q a s' → wp m Q X s.
Proof. unfold wp. by intros ->. Qed.

Lemma collected_ok id t ty hash storage key act engagement operation by_ retention now corrects e : uuid_ok id → id ≠ 0 →
  act ≠ 0 → engagement ≠ 0 → operation ≠ 0 → _SHA256_RE hash = true → sized storage 512 = true → sized by_ 256 = true →
  EvidenceEncryptionKeyRef_new (key_id key) (key_version key) = Some key → datetime_ok now →
  Evidence.collect id t ty hash storage key act engagement operation by_ retention now corrects = Some e →
  ok_evidence e ∧ Evidence.sound e ∧ ee_id e = id.
Proof.
  intros Hu Hid Ha Hg Ho Hh Hs Hb Hk Hnow (Hsound & Hc & _ & _ & _ & Hcu & Hco)%Evidence.collect_spec.
  unfold Evidence.content in Hc. injection Hc as E1 E2 E3 E4 E5 E6 E7 E8 E9 E10 E11 E12 E13 E14.
  split_and!; [|done|done]. split; rewrite ?E1, ?E4, ?E5, ?E6, ?E7, ?E8, ?E9, ?E11, ?E13; try done.
  intros r Hr. split; [by apply (Evidence.so_custody _ Hsound)|]. rewrite Hcu in Hr. by apply list_elem_of_singleton in Hr as ->.
Qed.

Lemma keeps_collect cmd d now w : ev_good (w_db w) → command_ok (Collect cmd d) w → datetime_ok now →
  keeps_good (collect_evidence cmd d now) w.
Proof.
  intros Hg [Hu Hnew] Hnow. unfold keeps_good, collect_evidence. cbv zeta. repeat ev_step.
  apply wp_in_keys. eapply wp_mono; [apply wp_generated_key|..]; [|intros ? ? _; by left]. intros key k Hkey. cbv beta.
  ev_step. apply wp_in_keys. eapply wp_mono; [apply wp_any|..]; [|intros ? ? _; by left]. intros c k' _. cbv beta.
  ev_step. apply wp_in_blobs. eapply wp_mono; [apply wp_put|..]; [|intros ? ? _; by left]. intros ref b Href. cbv beta.
  do 4 ev_step.
  match goal with H : non_nil _ = Some _ |- _ => apply non_nil_some in H as [Hne ->] end.
  match goal with H : Evidence.collect _ _ _ _ _ _ _ _ _ _ _ _ _ = Some ?e |- _ =>
    apply collected_ok in H as (Hok & Hs & Hid); [|try done; apply digest_match..] end.
  ev_step. apply (wp_collect_tx _ _ _ _ _ _ ltac:(eassumption)); [done|done|by rewrite Hid| |].
  - intros w2 Hc _ _ _. exact Hc.
  - intros x w2 Hr. by left.
Qed.

Lemma keeps_verify t id now w : ev_good (w_db w) → datetime_ok now → keeps_good (verify_evidence_integrity t id now) w.
Proof.
  intros Hg Hnow. unfold keeps_good, verify_evidence_integrity. repeat ev_step.
  apply (wp_verify_tx _ _ _ _ _ w); [done|done|..].
  - intros e e' w2 _ _ _ _ _ Hj. apply Hj.
  - intros x w2 Hw2 _. by apply (raised_in_tx w w2).
  - intros e e' w2 c _ _ _ _ _ _ Hj. right. split; [by eexists _, _, _|apply Hj].
Qed.

(** The methods of evidence that a command calls, and those of a chain. *)
Lemma keeps_transfer t id k a now w : ev_good (w_db w) → datetime_ok now → keeps_good (app_transfer_custody t id k a now) w.
Proof.
  intros Hg Hnow. unfold keeps_good, app_transfer_custody. repeat ev_step.
  apply (wp_load_evidence _ _ _ _ w); [done| |intros w2 Hw2 _; by apply (raised_in_tx w w2)].
  intros e w2 Hw2 Hst _ _. ev_step. apply wp_ev_object; [|intros x; by apply (raised_in_tx w w2)].
  intros [] e' Hrun. repeat ev_step.
  by apply (wp_call_evidence (Evidence.ETransfer t k a0 now) e _ e' w w2 _ _ Hw2 Hst Hnow Hrun).
Qed.

Lemma keeps_deletion t id now w : ev_good (w_db w) → datetime_ok now → keeps_good (request_evidence_deletion t id now) w.
Proof.
  intros Hg Hnow. unfold keeps_good, request_evidence_deletion. repeat ev_step.
  apply (wp_load_evidence _ _ _ _ w); [done| |intros w2 Hw2 _; by apply (raised_in_tx w w2)].
  intros e w2 Hw2 Hst _ _. ev_step. unfold attempt. apply wp_ret.
  destruct (Evidence.request_deletion t now e) as [r e'] eqn:Hrun.
  destruct r as [[]|[]]; wp_run; try (by apply (raised_in_tx w w2)).
  apply (wp_call_evidence (Evidence.ERequestDeletion t now) e _ e' w w2 _ _ Hw2 Hst Hnow Hrun). intros w3 Hc. by wp_run.
Qed.

Lemma keeps_open t o g id now w : ev_good (w_db w) → command_ok (OpenChain t o g id) w →
  keeps_good (open_evidence_chain t o g id now) w.
Proof.
  intros Hg Hnew. simpl in Hnew. unfold keeps_good, open_evidence_chain. repeat ev_step.
  match goal with H : in_tx w ?x |- _ => rename H into Hw; pose proof (it_view _ _ Hw) as Hv end.
  apply wp_in_session. apply wp_find_chain_by_operation; [apply Hw|..].
  - intros _. cbv beta iota zeta. ev_step.
    apply wp_ev_construct; [|intros e; by apply (raised_in_tx w w1)]. intros i [Hne ->]%non_nil_some. ev_step.
    apply (wp_finish_chain _ _ _ w); [by apply in_tx_session; [|apply Hw|]|..].
    + apply chain_ok_of_sound; [apply Chain.open_sound|done..|]. intros e He. exfalso. apply not_elem_of_nil in He. exact He.
    + apply Chain.open_sound.
    + intros c0 Hc0 Hid. exfalso. apply Hnew. simpl in Hid. rewrite <- Hid. apply (list_elem_of_fmap_2 hr_id _ _ (sc_row _ _ Hc0)).
    + intros w2 Hf Hgr _. wp_run. by apply (finished_committed w w2 _ Hf).
    + intros e w2 _ Hr. by left.
  - intros c s Hs Hdb _ _ _. wp_run. apply (committed_in_tx w (_ <| w_session := s |>)); [done|]. by apply in_tx_session.
Qed.

Lemma keeps_add t c e now w : ev_good (w_db w) → keeps_good (add_evidence_to_chain t c e now) w.
Proof.
  intros Hg. unfold keeps_good, add_evidence_to_chain. repeat ev_step.
  apply (wp_load_chain _ _ _ _ w); [done| |intros w2 Hw2 _; by apply (raised_in_tx w w2)].
  intros x w2 Hw2 Hst _ _. ev_step.
  apply (wp_load_evidence _ _ _ _ w); [done| |intros w3 Hw3 _; by apply (raised_in_tx w w3)].
  intros y w3 Hw3 Hsty _ _. ev_step. apply wp_ev_object; [|intros z; by apply (raised_in_tx w w3)].
  intros [] x' Hrun. repeat ev_step.
  apply (wp_call_chain (Chain.CAddEntry t (ee_id y) (payload_hash y) now) x _ x' w w3 _ _ Hw3 Hst (oe_uuid _ (se_ok _ _ Hsty)) Hrun).
  intros w4 Hc. by wp_run.
Qed.

Lemma keeps_seal t c o r sg now w : ev_good (w_db w) → keeps_good (seal_evidence_chain t c o r sg now) w.
Proof.
  intros Hg. unfold keeps_good, seal_evidence_chain. repeat ev_step.
  apply (wp_load_chain _ _ _ _ w); [done| |intros w2 Hw2 _; by apply (raised_in_tx w w2)].
  intros x w2 Hw2 Hst _ _. ev_step. unfold attempt. apply wp_ret.
  destruct (Chain.seal t o r sg now x) as [a x'] eqn:Hrun.
  destruct a as [[]|[]]; wp_run; try (by apply (raised_in_tx w w2)).
  apply (wp_call_chain (Chain.CSeal t o r sg now) x _ x' w w2 _ _ Hw2 Hst zero_uuid_ok Hrun).
  intros w4 Hc. by wp_run.
Qed.

Lemma keeps_submit t c d now w : ev_good (w_db w) → keeps_good (submit_evidence_chain t c d now) w.
Proof.
  intros Hg. unfold keeps_good, submit_evidence_chain. repeat ev_step.
  apply (wp_load_chain _ _ _ _ w); [done| |intros w2 Hw2 _; by apply (raised_in_tx w w2)].
  intros x w2 Hw2 Hst _ _. ev_step. apply wp_ev_object; [|intros z; by apply (raised_in_tx w w2)].
  intros [] x' Hrun. repeat ev_step.
  apply (wp_call_chain (Chain.CSubmit t d now) x _ x' w w2 _ _ Hw2 Hst zero_uuid_ok Hrun).
  intros w4 Hc. by wp_run.
Qed.

Lemma keeps_query t c now w : ev_good (w_db w) → keeps_good (query_evidence_chain_integrity t c now) w.
Proof.
  intros Hg. unfold keeps_good, query_evidence_chain_integrity. repeat ev_step.
  apply (wp_load_chain _ _ _ _ w); [done| |intros w2 Hw2 _; by apply (raised_in_tx w w2)].
  intros x w2 Hw2 Hst _ _. ev_step. apply wp_ev_object; [|intros z; by apply (raised_in_tx w w2)].
  intros report x' Hrun. repeat ev_step.
  apply (wp_call_chain (Chain.CVerify t now) x (Ok tt) x' w w2 _ _ Hw2 Hst zero_uuid_ok).
  { simpl. unfold mbind, PyM_bind. by rewrite Hrun. }
  intros w4 Hc. by wp_run.
Qed.

(** What reads changes nothing. *)
Lemma keeps_read {A B} (m : SM A) (k : A → PyM World EvError B) w : ev_good (w_db w) →
  (∀ a w', rolled_back w w' → wp (k a) (λ _, rolled_back w) (λ _, rolled_back w) w') →
  keeps_good (in_uow (a ← in_session m; k a)) w.
Proof.
  intros Hg Hk. unfold keeps_good. apply wp_ev_uow; [done|]. intros w1 Hw1. ev_step. apply wp_in_session.
  eapply wp_mono; [apply wp_any|..]; cbv beta.
  - intros a s _. eapply wp_mono; [apply (Hk a (w1 <| w_session := s |>)), Hw1|..]; cbv beta.
    + intros b w2 [Hd Hp]. unfold committed. simpl. by rewrite Hd.
    + intros e w2 Hr. by left.
  - intros e s _. left. apply Hw1.
Qed.

Lemma command_spec c now w : ev_good (w_db w) → command_ok c w → datetime_ok now → keeps_good (run_command c now) w.
Proof.
  assert (∀ {A} (m : PyM World EvError A), keeps_good m w → keeps_good (m;; mret tt) w) as Hunit.
  { intros A m Hm. unfold keeps_good. wp_step. eapply wp_mono; [exact Hm|done..]. }
  intros Hg Hok Hnow. destruct c; apply Hunit;
    [by apply keeps_collect|by apply keeps_verify|by apply keeps_transfer|by apply keeps_deletion|by apply keeps_open
    |by apply keeps_add|by apply keeps_seal|by apply keeps_submit|by apply keeps_query|..].
  - unfold keeps_good, app_get_evidence. repeat ev_step.
    apply (wp_load_evidence _ _ _ _ w); [done|intros e w2 Hw2 _ _ _; wp_run; by apply (committed_in_tx w w2)
      |intros w2 Hw2 _; by apply (raised_in_tx w w2)].
  - unfold keeps_good, list_evidence_by_operation, validate_limit, validate_offset. ev_step. ev_step. ev_step.
    do 7 ev_step. apply keeps_read; [done|]. intros a w' Hr. by wp_run.
  - unfold keeps_good, get_evidence_chain. repeat ev_step.
    apply (wp_load_chain _ _ _ _ w); [done|intros e w2 Hw2 _ _ _; wp_run; by apply (committed_in_tx w w2)
      |intros w2 Hw2 _; by apply (raised_in_tx w w2)].
  - unfold keeps_good, get_evidence_chain_by_operation. ev_step. ev_step. apply keeps_read; [done|].
    intros [x|] w' Hr; by wp_run.
Qed.

(** The database of a reachable world is sound. *)
Lemma reachable_ev_good w : reachable_world w → ev_good (w_db w).
Proof.
  induction 1 as [|w c now _ IH Hok Hnow|w b k _ IH]; [apply empty_ev_good| |done].
  pose proof (command_spec c now w IH Hok Hnow) as Hc. unfold keeps_good, wp in Hc.
  destruct (run_command c now w) as [[a|e] w']; simpl; [apply Hc|].
  destruct Hc as [[Hd _]|[_ Hc]]; [by rewrite Hd|apply Hc].
Qed.

(** *** Answers *)

Lemma judged_session w w2 s e e' st : judged w w2 e e' st → judged w (w2 <| w_session := s |>) e e' st.
Proof. intros [Hc Hv Hs H3 H4]. by split. Qed.

(** The verification of stored evidence whose blob is there. *)
Lemma verify_stored e now w : ev_good (w_db w) → datetime_ok now → uuid_equals_ulid = true → stored_evidence (w_db w) e →
  quarantined e = false → blob_present w e → (opened w e = None → payload_hash e ≠ zero_hash) →
  wp (verify_evidence_integrity (ee_tenant_id e) (ee_id e) now)
    (λ a w', a = mkResultDTO (ee_id e) "Verified" (payload_hash e) ∧ intact w e ∧
       ∃ e', judged w w' e e' EvidenceIntegrityStatus.VERIFIED)
    (λ x w', (∃ c, x = ApplicationIntegrityError (ee_id e) (payload_hash e) c) ∧ ¬ intact w e ∧
       ∃ e', judged w w' e e' EvidenceIntegrityStatus.TAMPERED) w.
Proof.
  intros Hg Hnow Hu Hst Hq Hb Hz. unfold verify_evidence_integrity. wp_step.
  apply wp_ev_uuid; [intros Hid|intros H0id; by destruct (oe_ids _ (se_ok _ _ Hst))]. apply wp_ev_uow; [done|]. intros w1 Hw1.
  assert (∀ e1, stored_evidence (w_db w) e1 → ee_id e1 = ee_id e → e1 = e) as Huni
    by (intros; by apply (stored_evidence_unique (w_db w))).
  apply (wp_verify_tx _ _ _ _ _ w); [done|done|..].
  - intros e1 e' w2 Hst1 Hid1 _ _ Hi Hj. rewrite (Huni e1) in * by done. split_and!; [done..|].
    exists e'. by apply judged_session.
  - intros x w2 _ [Hno|(e1 & Hst1 & Hid1 & _ & Hcase)]; exfalso; [by eapply Hno|].
    rewrite (Huni e1) in * by done. destruct Hcase as [[Hq' _]|[(_ & Hnb & _)|(_ & _ & Ho & Hh)]]; [congruence|done|by apply Hz].
  - intros e1 e' w2 c Hst1 Hid1 _ _ _ Hi Hj. rewrite (Huni e1) in * by done. split_and!; [by eexists|done|].
    exists e'. by apply judged_session.
Qed.

(** Evidence that was found tampered with, or whose blob is not there. *)
Lemma verify_refused e now w x : ev_good (w_db w) → datetime_ok now → uuid_equals_ulid = true → stored_evidence (w_db w) e →
  (quarantined e = true ∧ x = ApplicationIntegrityError (ee_id e) (payload_hash e) "quarantined" ∨
   quarantined e = false ∧ ¬ blob_present w e ∧ x = Vault VaultKeyError) →
  wp (verify_evidence_integrity (ee_tenant_id e) (ee_id e) now) (λ _ _, False) (λ y w', y = x ∧ rolled_back w w') w.
Proof.
  intros Hg Hnow Hu Hst Hx. unfold verify_evidence_integrity. wp_step.
  apply wp_ev_uuid; [intros Hid|intros H0id; by destruct (oe_ids _ (se_ok _ _ Hst))]. apply wp_ev_uow; [done|].
  intros w1 Hw1.
  assert (∀ e1, stored_evidence (w_db w) e1 → ee_id e1 = ee_id e → e1 = e) as Huni
    by (intros; by apply (stored_evidence_unique (w_db w))).
  apply (wp_verify_tx _ _ _ _ _ w); [done|done|..].
  - intros e1 e' w2 Hst1 Hid1 _ Hq (m & Ho & _) _. rewrite (Huni e1) in * by done. destruct Hx as [[? _]|(_ & Hnb & _)]; [congruence|].
    apply Hnb. unfold opened in Ho. unfold blob_present. by destruct (dget _ _).
  - intros y w2 Hw2 [Hno|(e1 & Hst1 & Hid1 & _ & Hcase)]; [exfalso; by eapply Hno|].
    rewrite (Huni e1) in * by done. split; [|apply Hw2].
    destruct Hx as [[Hq ->]|(Hq & Hnb & ->)], Hcase as [[Hq' Hy]|[(Hq' & _ & Hy)|(Hq' & Hb & _)]]; congruence || done.
  - intros e1 e' w2 c Hst1 Hid1 _ Hq Hb _ _. rewrite (Huni e1) in * by done. by destruct Hx as [[? _]|(_ & Hnb & _)]; [congruence|].
Qed.

(** The integrity query of a stored chain. *)
Lemma query_stored c now w : ev_good (w_db w) → uuid_equals_ulid = true → stored_chain (w_db w) c →
  wp (query_evidence_chain_integrity (ch_tenant_id c) (chain_id c) now)
    (λ a _, a = mkReport (chain_id c) "Verified" (chain_hash c) (chain_hash c) (Z.of_nat (length (entries c))))
    (λ _ _, False) w.
Proof.
  intros Hg Hu Hst. unfold query_evidence_chain_integrity. wp_step.
  apply wp_ev_uuid; [intros Hid|intros H0id; by destruct (oc_ids _ (sc_ok _ _ Hst))]. apply wp_ev_uow; [done|].
  intros w1 Hw1. wp_step. apply (wp_load_chain _ _ _ _ w); [done| |intros w2 _ Hno; by eapply Hno].
  intros x w2 Hw2 Hstx Hidx _. assert (x = c) as -> by (by apply (stored_chain_unique (w_db w))).
  destruct (Chain.verified_report c (entries c) now (sc_sound _ _ Hst) eq_refl) as (c' & Hrun & _).
  replace (c <| entries := entries c |>) with c in Hrun by (by destruct c).
  wp_step. unfold on_object. rewrite Hrun. apply wp_ret. cbv beta iota. wp_step.
  apply (wp_call_chain (Chain.CVerify (ch_tenant_id c) now) c (Ok tt) c' w w2 _ _ Hw2 Hst zero_uuid_ok).
  { simpl. unfold mbind, PyM_bind. by rewrite Hrun. }
  intros w3 _. by wp_run.
Qed.

(** Evidence whose blob is a ciphertext of what was collected, under a key that is
    there. *)
Definition readable (w : World) (e : ExecutionEvidence) (m : bytes) : Prop :=
  ∃ key seed, dget (_keys (w_kms w)) (ee_tenant_id e, key_id (encryption_key_ref e), key_version (encryption_key_ref e)) = Some key ∧
    dget (_blobs (w_blobs w)) (ee_tenant_id e, storage_ref e) = Some (fernet_encrypt key seed m) ∧ from_payload m = payload_hash e.

Lemma readable_intact w e m : readable w e m → intact w e ∧ blob_present w e ∧ opened w e ≠ None.
Proof.
  intros (key & seed & Hk & Hb & Hm). destruct (Keys.fernet_ok _ _ _ _ Hk) as [_ Hd].
  assert (opened w e = Some m) as Ho by (unfold opened; by rewrite Hb, Hd).
  split_and!; [by exists m|unfold blob_present; by rewrite Hb|by rewrite Ho].
Qed.

Lemma readable_later w e m k : readable w e m → Keys.sound (w_kms w) → Keys.step (w_kms w) k →
  readable (w <| w_kms := k |>) e m.
Proof. intros (key & seed & Hk & Hb & Hm) Hs Hst. exists key, seed. split_and!; [by apply (Keys.ks_keys _ _ Hst)|done..]. Qed.

Lemma collected_spec cmd d now w : ev_good (w_db w) → command_ok (Collect cmd d) w → datetime_ok now → Keys.sound (w_kms w) →
  wp (collect_evidence cmd d now)
    (λ dto w', ∃ e, stored_evidence (w_db w') e ∧ dto = _evidence_dto e ∧ committed w w' ∧ Keys.sound (w_kms w') ∧
       ee_id e = d_evidence d ∧ ee_tenant_id e = cv_tenant_id cmd ∧ payload_hash e = from_payload (cv_payload cmd) ∧
       integrity_status e = EvidenceIntegrityStatus.UNKNOWN ∧ quarantined e = false ∧ readable w' e (cv_payload cmd))
    (λ x w', rolled_back w w') w.
Proof.
  intros Hg [Hu Hnew] Hnow Hks. unfold collect_evidence. cbv zeta.
  repeat ev_step.
  destruct (Keys.ensure_spec (cv_tenant_id cmd) (d_key d) (d_key_seed d) _ Hks) as (key & k & Hkey & Hst & _ & [fk Hfk] & Hv & Hsz & _).
  assert (Keys.sound k) as Hks' by (by apply Hst). destruct (Keys.fernet_ok _ _ _ _ Hfk) as [Henc _].
  apply wp_in_keys. eapply wp_runs; [exact Hkey|]. cbv beta.
  ev_step. apply wp_in_keys. eapply wp_runs; [apply Henc|]. cbv beta.
  ev_step. apply wp_in_blobs. unfold BlobStore.put, EvidenceStorageRef_new.
  destruct (sized _ 512) eqn:Href; wp_run; [|done].
  do 3 ev_step. set (ref := "evidence://" +:+ _) in *. clearbody ref.
  match goal with H : non_nil _ = Some _ |- _ => apply non_nil_some in H as [Hne ->] end.
  match goal with H : Evidence.collect _ _ _ _ _ _ _ _ _ _ _ _ _ = Some ?x |- _ =>
    rename H into Hcol, x into e; pose proof Hcol as (_ & Hc & _ & Hq & Hst0 & _)%Evidence.collect_spec end.
  apply collected_ok in Hcol as (Hok & Hs & Hid);
    [|try done; first [apply digest_match|unfold EvidenceEncryptionKeyRef_new; rewrite Hsz; simpl;
       rewrite (proj2 (Z.ltb_ge _ _)) by lia; by destruct key]..].
  unfold Evidence.content in Hc. injection Hc as _ Ht _ Hh Href' Hkr _ _ _ _ _ _ _ _.
  ev_step. apply (wp_collect_tx _ _ _ _ _ _ ltac:(eassumption)); [done|done|by rewrite Hid| |].
  - intros w2 Hc2 Hb2 Hk2 Hst2. exists (e <| ee_pending_events := [] |>). simpl. rewrite Hk2. split_and!; try done.
    unfold readable. simpl. rewrite Hb2, Hk2. simpl. exists fk, (d_encrypt_seed d).
    rewrite Ht, Hkr, Href', Hh. split_and!; [done|by rewrite dget_dset_eq|done].
  - intros x w2 Hr. exact Hr.
Qed.

End Transactions.

(** ** Properties *)

(** C18. What the service has stored is sound: whatever commands ran, in any order,
    answered or refused, and however the blob store and the keys were changed in
    between, every row decodes to sound evidence or to a sound chain; an operation
    has one chain; and where a UUID equals a ULID, the integrity query of any
    stored chain answers [Verified]. *)
Theorem stored_evidence_is_sound `{!Fernet} `{!UlidText} `{!RowOrder} `{!TenantColumns} w : reachable_world w →
  NoDup (map er_id (eb_evidence (w_db w))) ∧ NoDup (map chain_key (eb_chains (w_db w))) ∧
  (∀ r, r ∈ eb_evidence (w_db w) → ∃ e, evidence_from_row r = Some e ∧ evidence_to_row e = r ∧ Evidence.sound e) ∧
  ∀ r, r ∈ eb_chains (w_db w) → ∃ c, chain_from_row r = Some c ∧ chain_to_row c = r ∧ Chain.sound c ∧
    (uuid_equals_ulid = true → ∀ now, (query_evidence_chain_integrity (ch_tenant_id c) (chain_id c) now w).1 =
       Ok (mkReport (chain_id c) "Verified" (chain_hash c) (chain_hash c) (Z.of_nat (length (entries c))))).
Proof.
  intros Hg%reachable_ev_good. split_and!; [apply (eg_keys _ Hg)|apply (eg_keys _ Hg)|..].
  - intros r Hr. destruct (evidence_row_decodes _ r Hg Hr) as (e & Hd & Hst & ->). exists e. split_and!; [done..|apply Hst].
  - intros r Hr. destruct (chain_row_decodes _ r Hg Hr) as (c & Hd & Hst & ->). exists c. split_and!; [done..|apply Hst|].
    intros Hu now. pose proof (query_stored c now w Hg Hu Hst) as Hq. unfold wp in Hq.
    by destruct (query_evidence_chain_integrity _ _ now w) as [[a|x] w'] eqn:E; [rewrite Hq|].
Qed.

(** A command of the evidence service extends what is stored or leaves it: no
    evidence and no chain is ever lost, every stored one has only been called on,
    so that custody and entries are appended to and content, seals and quarantine
    stay; and a command that raises has changed no row and published nothing, but
    for the verification that found evidence tampered with, which commits that. *)
Theorem evidence_command_extends `{!Fernet} `{!UlidText} `{!RowOrder} `{!TenantColumns} w c now r w' : reachable_world w →
  command_ok c w → datetime_ok now → run_command c now w = (r, w') →
  (∀ e, stored_evidence (w_db w) e → ∃ e', stored_evidence (w_db w') e' ∧ Evidence.step e e') ∧
  (∀ x, stored_chain (w_db w) x → ∃ x', stored_chain (w_db w') x' ∧ Chain.step x x') ∧
  ∀ e, r = Err e → (∀ i a b, e ≠ ApplicationIntegrityError i a b) → w_db w' = w_db w ∧ w_published w' = w_published w.
Proof.
  intros Hg%reachable_ev_good Hok Hnow Hrun. pose proof (command_spec c now w Hg Hok Hnow) as Hc.
  unfold keeps_good, wp in Hc. rewrite Hrun in Hc.
  assert (grows (w_db w) (w_db w')) as [Hge Hgc].
  { destruct r; [apply Hc|]. by destruct Hc as [[-> _]|[_ [_ Hc]]]. }
  split_and!; [done..|]. intros e -> Hne. destruct Hc as [Hr|[(i & a & b & He) _]]; [exact Hr|by apply Hne in He].
Qed.


(** A collection can be verified: when [collect_evidence] answers, the evidence
    it answered is stored, unverified and with the hash of the payload; and after
    any calls of the key management, rotations included, its verification answers
    [Verified]. *)
Theorem collected_evidence_verifies `{!Fernet} `{!UlidText} `{!RowOrder} `{!TenantColumns} w cmd d now dto w' cs later :
  reachable_world w → command_ok (Collect cmd d) w → datetime_ok now → Keys.sound (w_kms w) → uuid_equals_ulid = true →
  datetime_ok later → from_payload (cv_payload cmd) ≠ zero_hash → collect_evidence cmd d now w = (Ok dto, w') →
  ed_evidence_id dto = d_evidence d ∧ ed_payload_hash dto = from_payload (cv_payload cmd) ∧ ed_integrity_status dto = "Unknown" ∧
  let w2 := vault_changed (w_blobs w') (run_all Keys.run_call cs (w_kms w')) w' in
  (verify_evidence_integrity (cv_tenant_id cmd) (d_evidence d) later w2).1 =
    Ok (mkResultDTO (d_evidence d) "Verified" (from_payload (cv_payload cmd))).
Proof.
  intros Hg%reachable_ev_good Hok Hnow Hks Hu Hl Hz Hrun.
  destruct (wp_ok _ _ _ _ _ _ (collected_spec cmd d now w Hg Hok Hnow Hks) Hrun)
    as (e & Hst & -> & [Hg' _] & Hks' & Hid & Ht & Hh & Hstatus & Hq & Hr).
  cbn. rewrite Hid, Hh, Hstatus. split_and!; [done..|].
  pose proof (Keys.calls_step cs _ Hks') as Hstep. set (k := run_all Keys.run_call cs (w_kms w')) in *. clearbody k.
  apply (readable_later w' e _ k) in Hr; [|done..]. apply readable_intact in Hr as (Hi & Hb & Ho).
  assert (wp (verify_evidence_integrity (cv_tenant_id cmd) (d_evidence d) later)
    (λ a _, a = mkResultDTO (d_evidence d) "Verified" (from_payload (cv_payload cmd))) (λ _ _, False)
    (vault_changed (w_blobs w') k w')) as Hv.
  { rewrite <- Ht, <- Hid, <- Hh. eapply wp_mono; [apply (verify_stored e later (vault_changed (w_blobs w') k w')); try done|..]; cbv beta.
    - intros a w2 (-> & _). done.
    - intros x w2 (_ & Hn & _). by apply Hn. }
  unfold wp in Hv. by destruct (verify_evidence_integrity _ _ later _) as [[a|x] w2]; [rewrite Hv|].
Qed.

(** A restart loses the evidence: the container gives the service the stores
    that live in memory, and when the process is started again on the same
    database, no stored evidence can be verified: every verification of evidence
    that is not quarantined raises the [KeyError] of the blob store, which no
    command handles, and changes nothing. *)
Theorem restart_loses_evidence `{!Fernet} `{!UlidText} `{!RowOrder} `{!TenantColumns} w e now : reachable_world w →
  uuid_equals_ulid = true → stored_evidence (w_db w) e → quarantined e = false → datetime_ok now →
  ∃ w', verify_evidence_integrity (ee_tenant_id e) (ee_id e) now (vault_changed (mkBlobs [] []) Keys.empty_kms w) =
    (Err (Vault VaultKeyError), w') ∧ w_db w' = w_db w ∧ w_published w' = w_published w.
Proof.
  intros Hg%reachable_ev_good Hu Hst Hq Hnow.
  pose proof (verify_refused e now (vault_changed (mkBlobs [] []) Keys.empty_kms w) (Vault VaultKeyError) Hg Hnow Hu Hst) as Hr.
  destruct (verify_evidence_integrity _ _ now _) as [r w'] eqn:Hrun.
  assert (wp (verify_evidence_integrity (ee_tenant_id e) (ee_id e) now) (λ _ _, False)
    (λ y w', y = Vault VaultKeyError ∧ rolled_back w w') (vault_changed (mkBlobs [] []) Keys.empty_kms w)) as Hv.
  { apply Hr. right. split_and!; [done| |done]. by intros []. }
  unfold wp in Hv. rewrite Hrun in Hv. destruct r as [a|x]; [done|]. destruct Hv as [-> Hv]. by exists w'.
Qed.

(** *** Witnesses *)

#[local] Existing Instances Keys.labelled base32_ulid insertion_order equal_columns.

(** Output of an action of operation 3 is collected, the chain of the operation is
    opened, and the evidence is added to it. *)
Definition noon : datetime := 1000000000000000.
Definition collect_output : CollectEvidence :=
  mkCollect Chain.acme 2 4 3 (EvidenceType.value EvidenceType.COMMAND_OUTPUT) [111; 117; 116] "ann"
    (RetentionClass.value RetentionClass.STANDARD) None.
Definition output_draws : Draws := mkDraws 21 5 6 7 9.
Definition one_output : World := (run_command (Collect collect_output output_draws) noon empty_world).2.
Definition with_chain : World := (run_command (OpenChain Chain.acme 3 4 9) noon one_output).2.
Definition chained_output : World := (run_command (AddToChain Chain.acme 9 21) noon with_chain).2.

Lemma noon_ok : datetime_ok noon.
Proof. unfold datetime_ok. by_compute. Qed.

Lemma one_output_reachable : reachable_world one_output.
Proof.
  refine (rw_command _ (Collect collect_output output_draws) noon rw_empty _ noon_ok). split; [split; by vm_compute|].
  intros Hin. apply not_elem_of_nil in Hin. exact Hin.
Qed.
Lemma chained_output_reachable : reachable_world chained_output.
Proof.
  refine (rw_command with_chain (AddToChain Chain.acme 9 21) noon _ I noon_ok).
  refine (rw_command one_output (OpenChain Chain.acme 3 4 9) noon one_output_reachable _ noon_ok).
  by_compute.
Qed.

(** The evidence of [one_output], as it is stored. *)
Lemma output_stored : ∃ e, stored_evidence (w_db one_output) e ∧ ee_id e = 21 ∧ ee_tenant_id e = Chain.acme ∧
  quarantined e = false ∧ payload_hash e = from_payload [111; 117; 116] ∧
  storage_ref e = "evidence://" +:+ str_ulid Chain.acme +:+ "/" +:+ str_uuid 6.
Proof.
  pose proof (reachable_ev_good _ one_output_reachable) as Hg.
  destruct (eb_evidence (w_db one_output)) as [|r [|r' l]] eqn:Hr; [vm_compute in Hr; discriminate Hr| |vm_compute in Hr; discriminate Hr].
  destruct (evidence_row_decodes _ r Hg) as (e & Hd & Hst & Heq); [rewrite Hr; left|]. exists e. split; [exact Hst|].
  assert (er_id r = 21 ∧ er_tenant_id r = Chain.acme ∧ er_quarantined r = false ∧ er_payload_hash r = from_payload [111; 117; 116] ∧
    er_storage_ref r = "evidence://" +:+ str_ulid Chain.acme +:+ "/" +:+ str_uuid 6) as Hf.
  { vm_compute in Hr. injection Hr as <-. vm_compute. split_and!; reflexivity. }
  rewrite Heq in Hf. exact Hf.
Qed.

Lemma stored_evidence_is_sound_witness : ∃ r c, eb_chains (w_db chained_output) = [r] ∧ chain_from_row r = Some c ∧
  (query_evidence_chain_integrity (ch_tenant_id c) (chain_id c) noon chained_output).1 =
    Ok (mkReport (chain_id c) "Verified" (chain_hash c) (chain_hash c) (Z.of_nat (length (entries c)))) ∧
  map evidence_id (entries c) = [21].
Proof.
  destruct (stored_evidence_is_sound chained_output chained_output_reachable) as (_ & _ & _ & Hc).
  destruct (eb_chains (w_db chained_output)) as [|r [|r' l]] eqn:Hr; [vm_compute in Hr; discriminate Hr| |vm_compute in Hr; discriminate Hr].
  destruct (Hc r) as (c & Hd & _ & _ & Hq); [left|]. exists r, c. split_and!; [reflexivity|exact Hd|apply Hq; reflexivity|].
  assert ((chain_from_row r ≫= λ c, Some (map evidence_id (entries c))) = Some [21]) as Hm.
  { vm_compute in Hr. injection Hr as <-. vm_compute. reflexivity. }
  rewrite Hd in Hm. cbn [mbind option_bind] in Hm. injection Hm as Hm. exact Hm.
Defined.

Lemma evidence_command_extends_witness :
  let w' := (run_command (Seal Chain.acme 9 7 "evidence:sealer" "") noon chained_output).2 in
  w_db w' = w_db chained_output ∧ w_published w' = w_published chained_output.
Proof.
  intros w'.
  apply (evidence_command_extends chained_output (Seal Chain.acme 9 7 "evidence:sealer" "") noon
    (Err (ApplicationValidationError "signature" "must not be empty")) w') with
    (e := ApplicationValidationError "signature" "must not be empty");
    [apply chained_output_reachable|exact I|apply noon_ok|vm_compute; reflexivity|reflexivity|discriminate].
Defined.

(** The blob is tampered with. *)
Definition tampered_output : World :=
  vault_changed (BlobStore.tamper Chain.acme ("evidence://" +:+ str_ulid Chain.acme +:+ "/" +:+ str_uuid 6) (w_blobs one_output)).2
    (w_kms one_output) one_output.


(** The keys of the tenant are rotated after the collection. *)
Lemma collected_evidence_verifies_witness :
  let w1 := (collect_evidence collect_output output_draws noon empty_world).2 in
  (verify_evidence_integrity Chain.acme 21 noon
     (vault_changed (w_blobs w1) (run_all Keys.run_call [Keys.KRotate Chain.acme 0 0 8] (w_kms w1)) w1)).1 =
    Ok (mkResultDTO 21 "Verified" (from_payload [111; 117; 116])).
Proof.
  destruct (collect_evidence collect_output output_draws noon empty_world) as [[dto|x] w1] eqn:Hrun.
  - apply (collected_evidence_verifies empty_world collect_output output_draws noon dto w1 [Keys.KRotate Chain.acme 0 0 8] noon);
      [apply rw_empty| |apply noon_ok|apply Keys.empty_sound|reflexivity|apply noon_ok|vm_compute; discriminate|exact Hrun].
    split; [split; by vm_compute|]. intros Hin. apply not_elem_of_nil in Hin. exact Hin.
  - exfalso. apply (f_equal (λ p, match p.1 with Ok _ => true | Err _ => false end)) in Hrun. vm_compute in Hrun. discriminate Hrun.
Defined.

Lemma restart_loses_evidence_witness :
  (verify_evidence_integrity Chain.acme 21 noon (vault_changed (mkBlobs [] []) Keys.empty_kms one_output)).1 =
    Err (Vault VaultKeyError).
Proof.
  destruct output_stored as (e & Hst & Hid & Ht & Hq & _).
  destruct (restart_loses_evidence one_output e noon one_output_reachable eq_refl Hst Hq noon_ok) as (w' & Hrun & _).
  rewrite Hid, Ht in Hrun. rewrite Hrun. reflexivity.
Defined.
