(* ===== verification/PyRegex.v ===== *)
(** Regular expressions of [re], without groups that are read back: a matcher by
    derivatives, decided to be the language of the expression. *)
From stdpp Require Import base tactics list strings.
From Stdlib Require Import ZArith Lia.
From S2P Require Import Prelude PyTypes PyParse.

(** ** Expressions and what they match *)

(** A set of characters is its decision. *)
Inductive regex :=
  | Void
  | Eps
  | Chars (p : Ascii.ascii → bool)
  | Cat (r1 r2 : regex)
  | Alt (r1 r2 : regex)
  | Star (r : regex).

Definition Plus (r : regex) : regex := Cat r (Star r).
Definition Opt (r : regex) : regex := Alt r Eps.
Definition Lit (c : Ascii.ascii) : regex := Chars (fun d => bool_decide (d = c)).

(** [sre] reads a pattern so: *)
Inductive matches : regex → string → Prop :=
  | m_eps : matches Eps ""
  | m_chars p c : p c = true → matches (Chars p) (String c "")
  | m_cat r1 r2 s1 s2 : matches r1 s1 → matches r2 s2 → matches (Cat r1 r2) (s1 +:+ s2)
  | m_alt_l r1 r2 s : matches r1 s → matches (Alt r1 r2) s
  | m_alt_r r1 r2 s : matches r2 s → matches (Alt r1 r2) s
  | m_star_nil r : matches (Star r) ""
  | m_star_app r s1 s2 : matches r s1 → matches (Star r) s2 → matches (Star r) (s1 +:+ s2).

(** ** The matcher *)

Fixpoint nullable (r : regex) : bool :=
  match r with
  | Void | Chars _ => false
  | Eps | Star _ => true
  | Cat r1 r2 => nullable r1 && nullable r2
  | Alt r1 r2 => nullable r1 || nullable r2
  end.

(** What is left of an expression after a character. *)
Fixpoint deriv (c : Ascii.ascii) (r : regex) : regex :=
  match r with
  | Void | Eps => Void
  | Chars p => if p c then Eps else Void
  | Cat r1 r2 => if nullable r1 then Alt (Cat (deriv c r1) r2) (deriv c r2) else Cat (deriv c r1) r2
  | Alt r1 r2 => Alt (deriv c r1) (deriv c r2)
  | Star r => Cat (deriv c r) (Star r)
  end.

Fixpoint matchb (r : regex) (s : string) : bool :=
  match s with
  | EmptyString => nullable r
  | String c s => matchb (deriv c r) s
  end.

(** [re.compile("^r$").match(s)]: [$] is the end of the text, and the place before
    a line feed that ends it. *)
Definition line_feed : Ascii.ascii := Ascii.ascii_of_nat 10.
Definition re_match (r : regex) (s : string) : bool := matchb (Cat r (Opt (Lit line_feed))) s.

(** Classes of characters. *)
Definition in_range (lo hi : nat) (c : Ascii.ascii) : bool :=
  let n := Ascii.nat_of_ascii c in ((lo <=? n) && (n <=? hi))%nat.
Definition is_digit (c : Ascii.ascii) : bool := in_range 48 57 c.
Definition is_lower (c : Ascii.ascii) : bool := in_range 97 122 c.
Definition is_upper (c : Ascii.ascii) : bool := in_range 65 90 c.
Definition is_char (d c : Ascii.ascii) : bool := bool_decide (c = d).

(** ** The matcher decides the language *)

Lemma append_eq_nil a b : a +:+ b = "" ↔ a = "" ∧ b = "".
Proof. destruct a; [by rewrite append_nil; naive_solver|]. split; [done|]. by intros [? _]. Qed.

Lemma nullable_spec r : nullable r = true ↔ matches r "".
Proof.
  split.
  - induction r as [| |p|r1 IH1 r2 IH2|r1 IH1 r2 IH2|r IH]; simpl; try done.
    + intros _. constructor.
    + intros [H1 H2]%andb_prop. apply (m_cat r1 r2 "" ""); auto.
    + intros [H1|H2]%orb_prop; [apply m_alt_l|apply m_alt_r]; auto.
    + intros _. constructor.
  - assert (∀ s, matches r s → s = "" → nullable r = true) as Hs; [|intros Hm; by apply (Hs "")].
    induction 1 as [|p c Hp|r1 r2 s1 s2 _ IH1 _ IH2|r1 r2 s _ IH|r1 r2 s _ IH|r|r s1 s2 _ IH1 _ IH2]; simpl; intros Heq; try done.
    + apply append_eq_nil in Heq as [-> ->]. by rewrite IH1, IH2.
    + by rewrite IH.
    + by rewrite IH, orb_true_r.
Qed.

(** A character before a concatenation is before its first part, or before the
    second when the first is empty. *)
Lemma append_eq_cons a b c s : a +:+ b = String c s → (a = "" ∧ b = String c s) ∨ ∃ a', a = String c a' ∧ a' +:+ b = s.
Proof.
  destruct a as [|d a]; [rewrite append_nil; by left|]. rewrite append_cons. intros [= -> <-]. right. by exists a.
Qed.

Lemma cat_cons r1 r2 c s : matches (Cat r1 r2) (String c s) ↔
  (matches r1 "" ∧ matches r2 (String c s)) ∨ ∃ s1 s2, s = s1 +:+ s2 ∧ matches r1 (String c s1) ∧ matches r2 s2.
Proof.
  split.
  - intros Hm. inversion Hm as [| |? ? s1 s2 H1 H2 Heq1 Heq| | | |]; subst.
    apply append_eq_cons in Heq as [[-> ->]|(a' & -> & <-)]; [by left|]. right. by exists a', s2.
  - intros [[H1 H2]|(s1 & s2 & -> & H1 & H2)]; [by apply (m_cat r1 r2 "" _)|].
    rewrite <- append_cons. by constructor.
Qed.

Lemma star_cons r c s : matches (Star r) (String c s) ↔
  ∃ s1 s2, s = s1 +:+ s2 ∧ matches r (String c s1) ∧ matches (Star r) s2.
Proof.
  split.
  - intros Hm. remember (Star r) as q eqn:Hq. remember (String c s) as t eqn:Ht. revert Hq s Ht.
    induction Hm as [|p d Hp|r1 r2 s1 s2 H1 _ H2 _|r1 r2 t H _|r1 r2 t H _|r0|r0 s1 s2 H1 _ H2 IH2]; intros Hq s Ht; try discriminate.
    injection Hq as ->. apply append_eq_cons in Ht as [[-> ->]|(a' & -> & <-)]; [by apply IH2|]. by exists a', s2.
  - intros (s1 & s2 & -> & H1 & H2). rewrite <- append_cons. by constructor.
Qed.

Lemma deriv_spec c r s : matches (deriv c r) s ↔ matches r (String c s).
Proof.
  revert s. induction r as [| |p|r1 IH1 r2 IH2|r1 IH1 r2 IH2|r IH]; intros s; cbn [deriv].
  - split; inversion 1.
  - split; inversion 1.
  - destruct (p c) eqn:Hp.
    + split; [inversion 1; subst; by constructor|]. inversion 1; subst. constructor.
    + split; [inversion 1|]. inversion 1; subst. congruence.
  - assert (matches (Cat (deriv c r1) r2) s ↔ ∃ s1 s2, s = s1 +:+ s2 ∧ matches r1 (String c s1) ∧ matches r2 s2) as Hcat.
    { split.
      - inversion 1; subst. eexists _, _. split; [done|]. by rewrite <- IH1.
      - intros (s1 & s2 & -> & H1 & H2). constructor; [by apply IH1|done]. }
    rewrite cat_cons, <- nullable_spec. destruct (nullable r1).
    + rewrite <- Hcat, <- IH2. split; [inversion 1; auto|intros [[_ H]|H]; [by apply m_alt_r|by apply m_alt_l]].
    + rewrite <- Hcat. naive_solver.
  - split; inversion 1; subst; (by apply m_alt_l, IH1) || by apply m_alt_r, IH2.
  - rewrite star_cons. split.
    + inversion 1; subst. eexists _, _. split; [done|]. by rewrite <- IH.
    + intros (s1 & s2 & -> & H1 & H2). constructor; [by apply IH|done].
Qed.

Lemma matchb_spec r s : matchb r s = true ↔ matches r s.
Proof.
  revert r. induction s as [|c s IH]; intros r; cbn [matchb]; [apply nullable_spec|]. by rewrite IH, deriv_spec.
Qed.

Lemma re_match_spec r s : re_match r s = true ↔ ∃ t, matches r t ∧ (s = t ∨ s = t +:+ String line_feed "").
Proof.
  unfold re_match. rewrite matchb_spec. split.
  - intros Hm. inversion Hm as [| |? ? s1 s2 H1 H2| | | |]; subst. exists s1. split; [done|].
    inversion H2 as [| | |? ? ? Hl|? ? ? Hr| |]; subst.
    + inversion Hl as [|? ? Hc| | | | |]; subst. apply bool_decide_eq_true in Hc as ->. by right.
    + inversion Hr; subst. left. by rewrite string_append_empty.
  - intros (t & Ht & [->| ->]).
    + rewrite <- (string_append_empty t). constructor; [done|]. apply m_alt_r. constructor.
    + constructor; [done|]. apply m_alt_l. constructor. by apply bool_decide_eq_true.
Qed.

#[global] Arguments re_match : simpl never.
