(* ===== verification/PayloadData.v ===== *)
(** Data of [payload.domain]: enumerations, value objects with their constructors,
    exceptions and events of payloads and of execution plugins. *)
From stdpp Require Import base tactics list strings sets.
From Stdlib Require Import ZArith Lia.
From S2P Require Import Prelude PyTypes PyParse PyJson PyStore PyRegex Sha256 EvidenceData.

Local Open Scope Z_scope.

(** ** Enumerations *)

Module PayloadType.
Inductive t := SCRIPT | BINARY | CONTAINER_IMAGE | NETWORK_PROBE | CONFIG_PAYLOAD | QUERY_PAYLOAD.
Definition value (x : t) : string :=
  match x with
  | SCRIPT => "Script" | BINARY => "Binary" | CONTAINER_IMAGE => "ContainerImage" | NETWORK_PROBE => "NetworkProbe"
  | CONFIG_PAYLOAD => "ConfigPayload" | QUERY_PAYLOAD => "QueryPayload"
  end.
Definition all : list t := [SCRIPT; BINARY; CONTAINER_IMAGE; NETWORK_PROBE; CONFIG_PAYLOAD; QUERY_PAYLOAD].
End PayloadType.

Module PayloadApprovalState.
Inductive t := SUBMITTED | UNDER_REVIEW | APPROVED | DEPRECATED | REVOKED.
#[export] Instance eq_dec : EqDecision t.
Proof. solve_decision. Defined.
Definition value (x : t) : string :=
  match x with
  | SUBMITTED => "Submitted" | UNDER_REVIEW => "UnderReview" | APPROVED => "Approved" | DEPRECATED => "Deprecated"
  | REVOKED => "Revoked"
  end.
Definition all : list t := [SUBMITTED; UNDER_REVIEW; APPROVED; DEPRECATED; REVOKED].
End PayloadApprovalState.
Export (hints) PayloadApprovalState.

Module ImpactCeiling.
Inductive t := OBSERVE | PROBE | EXPLOIT | DESTRUCT.
#[export] Instance eq_dec : EqDecision t.
Proof. solve_decision. Defined.
Definition value (x : t) : string :=
  match x with OBSERVE => "Observe" | PROBE => "Probe" | EXPLOIT => "Exploit" | DESTRUCT => "Destruct" end.
Definition all : list t := [OBSERVE; PROBE; EXPLOIT; DESTRUCT].
End ImpactCeiling.
Export (hints) ImpactCeiling.

Module PluginType.
Inductive t :=
  SSH_EXECUTOR | API_CALL_EXECUTOR | CONTAINER_EXEC_EXECUTOR | KUBERNETES_PLUGIN | CLOUD_API_PLUGIN
  | CUSTOM_WEBHOOK_PLUGIN.
Definition value (x : t) : string :=
  match x with
  | SSH_EXECUTOR => "SshExecutor" | API_CALL_EXECUTOR => "ApiCallExecutor"
  | CONTAINER_EXEC_EXECUTOR => "ContainerExecExecutor" | KUBERNETES_PLUGIN => "KubernetesPlugin"
  | CLOUD_API_PLUGIN => "CloudApiPlugin" | CUSTOM_WEBHOOK_PLUGIN => "CustomWebhookPlugin"
  end.
Definition all : list t :=
  [SSH_EXECUTOR; API_CALL_EXECUTOR; CONTAINER_EXEC_EXECUTOR; KUBERNETES_PLUGIN; CLOUD_API_PLUGIN; CUSTOM_WEBHOOK_PLUGIN].
End PluginType.

Module PluginApprovalState.
Inductive t := SUBMITTED | APPROVED | REVOKED.
#[export] Instance eq_dec : EqDecision t.
Proof. solve_decision. Defined.
Definition value (x : t) : string :=
  match x with SUBMITTED => "Submitted" | APPROVED => "Approved" | REVOKED => "Revoked" end.
Definition all : list t := [SUBMITTED; APPROVED; REVOKED].
End PluginApprovalState.
Export (hints) PluginApprovalState.

Module PluginTrustLevel.
Inductive t := HIGH_TRUST | STANDARD_TRUST | LOW_TRUST.
Definition value (x : t) : string :=
  match x with HIGH_TRUST => "HighTrust" | STANDARD_TRUST => "StandardTrust" | LOW_TRUST => "LowTrust" end.
Definition all : list t := [HIGH_TRUST; STANDARD_TRUST; LOW_TRUST].
End PluginTrustLevel.

(** ** Value objects

    A value object around one value is that value; [X_new] is the constructor with
    its [__post_init__], [None] is [ValueError].  Identifiers are UUIDs that are not
    nil ([non_nil]). *)

Definition dot : Ascii.ascii := Ascii.ascii_of_nat 46.
Definition hyphen : Ascii.ascii := Ascii.ascii_of_nat 45.
Definition underscore : Ascii.ascii := Ascii.ascii_of_nat 95.

Definition key_char (c : Ascii.ascii) : bool := is_lower c || is_digit c || is_char underscore c.
Definition _PAYLOAD_KEY_RE : regex := Cat (Plus (Chars key_char)) (Plus (Cat (Lit dot) (Plus (Chars key_char)))).

Definition version_sep (c : Ascii.ascii) : bool := is_char dot c || is_char hyphen c.
Definition suffix_char (c : Ascii.ascii) : bool := is_upper c || is_lower c || is_digit c || version_sep c.
Definition _SEMVER_RE : regex :=
  Cat (Plus (Chars is_digit)) (Cat (Lit dot) (Cat (Plus (Chars is_digit)) (Cat (Lit dot) (Cat (Plus (Chars is_digit))
    (Opt (Cat (Chars version_sep) (Plus (Chars suffix_char)))))))).

Definition PayloadKey_new (v : string) : option string := if re_match _PAYLOAD_KEY_RE v then Some v else None.
Definition PayloadVersionRef_new (v : string) : option string := if re_match _SEMVER_RE v then Some v else None.

(** [len(value) != 64 or any(c not in digits for c in value)], negated. *)
Fixpoint all_chars (p : Ascii.ascii → bool) (s : string) : bool :=
  match s with EmptyString => true | String c s => p c && all_chars p s end.
Definition sha256_text (v : string) : bool := bool_decide (String.length v = 64%nat) && all_chars is_hex v.
Definition PayloadHash_new (v : string) : option string := if sha256_text v then Some v else None.
Definition PluginHash_new (v : string) : option string := if sha256_text v then Some v else None.

Definition non_empty_str (v : string) : option string := if empty_str v then None else Some v.
Definition PayloadStorageRef_new (v : string) : option string := non_empty_str v.
Definition PayloadSignature_new (v : string) : option string := non_empty_str v.
Definition PluginVersion_new (v : string) : option string := non_empty_str v.

Definition non_empty_list {A} (l : list A) : option (list A) := match l with [] => None | _ => Some l end.
Definition PayloadCapabilities_new (technique_ids : list string) : option (list string) := non_empty_list technique_ids.
Definition PluginCapabilities_new (technique_ids : list string) : option (list string) := non_empty_list technique_ids.

Record PayloadVersionSnapshot := mkVersionSnapshot {
  vs_version : string; vs_payload_hash : string; vs_storage_ref : string; vs_technique_ids : list string;
  vs_published_at : datetime; vs_vulnerability_refs : list string }.

(** ** Exceptions

    [ValueError] is that of a constructor; a repository raises its own. *)

Inductive PayloadException :=
  | InvalidArgument (message : string)
  | InvalidStateTransition (from_state to_state : string) (aggregate : uuid)
  | TenantMismatch (expected actual : TenantId)
  | CisoApprovalRequired (payload : uuid)
  | PayloadHashMismatch (payload : uuid) (expected computed : string)
  | PayloadNotApproved (payload : uuid) (state : string)
  | PayloadRevokedError (payload : uuid).

(** ** Events *)

Inductive PayloadEvent :=
  | PayloadRegistered (payload_key payload_type impact_ceiling : string)
  | PayloadVersionPublished (version payload_hash storage_ref : string)
  | PayloadApproved (version : string) (approved_by : uuid) (ciso_approved : bool)
  | PayloadDeprecated (reason : string)
  | PayloadRevoked (reason : string) (revoked_by : uuid)
  | PayloadHashVerified (version payload_hash : string)
  | PayloadHashMismatchDetected (version expected_hash computed_hash : string).

Inductive PluginEvent :=
  | PluginRegistered (plugin_type plugin_version : string)
  | PluginApproved (approved_by : uuid)
  | PluginRevoked (reason : string) (revoked_by : uuid).

(** ** Lemmas *)

(** One or more characters of a class. *)
Lemma chars_star p s : matches (Star (Chars p)) s ↔ all_chars p s = true.
Proof.
  induction s as [|c s IH]; [split; [done|constructor]|]. rewrite star_cons. cbn [all_chars]. rewrite andb_true_iff, <- IH. split.
  - intros (s1 & s2 & -> & H1 & H2). inversion H1 as [|? ? Hp| | | | |]; subst. by rewrite append_nil.
  - intros [Hp Hs]. exists "", s. by split_and!; [|constructor|].
Qed.

Lemma chars_plus p s : matches (Plus (Chars p)) s ↔ s ≠ "" ∧ all_chars p s = true.
Proof.
  unfold Plus. destruct s as [|c s].
  - split; [|by intros [? _]]. intros Hm. apply nullable_spec in Hm. done.
  - rewrite cat_cons. cbn [all_chars]. rewrite andb_true_iff. split.
    + intros [[Hm _]|(s1 & s2 & -> & H1 & H2)]; [inversion Hm|]. inversion H1; subst. rewrite append_nil. by rewrite <- chars_star.
    + intros (_ & Hp & Hs). right. exists "", s. split_and!; [done|by constructor|by apply chars_star].
Qed.

(** A part of a key. *)
Definition key_part (s : string) : Prop := s ≠ "" ∧ all_chars key_char s = true.

Lemma dotted_parts s : matches (Star (Cat (Lit dot) (Plus (Chars key_char)))) s ↔
  ∃ parts, Forall key_part parts ∧ s = foldr (λ p r, String dot (p +:+ r)) "" parts.
Proof.
  split.
  - intros Hm. remember (Star (Cat (Lit dot) (Plus (Chars key_char)))) as q eqn:Hq. revert Hq.
    induction Hm as [| | | | | |r s1 s2 H1 _ H2 IH2]; try discriminate; intros Hq.
    + by exists [].
    + injection Hq as ->. destruct IH2 as (parts & Hp & ->); [done|].
      inversion H1 as [| |? ? a b Ha Hb| | | |]; subst. inversion Ha as [|? ? Hc| | | | |]; subst.
      apply bool_decide_eq_true in Hc as ->. apply chars_plus in Hb. exists (b :: parts). by split; [constructor|].
  - intros (parts & Hp & ->). induction Hp as [|p parts Hp _ IH]; [constructor|]. cbn [foldr].
    change (String dot (p +:+ foldr (λ p r, String dot (p +:+ r)) "" parts)) with (String dot p +:+ foldr (λ p r, String dot (p +:+ r)) "" parts).
    constructor; [|done]. change (String dot p) with (String dot "" +:+ p). constructor; [|by apply chars_plus].
    constructor. by apply bool_decide_eq_true.
Qed.

Lemma join_dots p parts : join "." (p :: parts) = p +:+ foldr (λ p r, String dot (p +:+ r)) "" parts.
Proof.
  revert p. induction parts as [|q parts IH]; intros p; [cbn; by rewrite string_append_empty|].
  change (join "." (p :: q :: parts)) with (p +:+ "." +:+ join "." (q :: parts)). by rewrite IH.
Qed.

Lemma key_pattern s : matches _PAYLOAD_KEY_RE s ↔ ∃ parts, (2 ≤ length parts)%nat ∧ Forall key_part parts ∧ s = join "." parts.
Proof.
  unfold _PAYLOAD_KEY_RE. split.
  - intros Hm. inversion Hm as [| |? ? a b Ha Hb| | | |]; subst. apply chars_plus in Ha.
    inversion Hb as [| |? ? b1 b2 Hb1 Hb2| | | |]; subst. inversion Hb1 as [| |? ? d q Hd Hq| | | |]; subst.
    inversion Hd as [|? ? Hc| | | | |]; subst. apply bool_decide_eq_true in Hc as ->. apply chars_plus in Hq.
    apply dotted_parts in Hb2 as (parts & Hp & ->). exists (a :: q :: parts). rewrite join_dots.
    split_and!; [simpl; lia|constructor; [done|by constructor]|done].
  - intros (parts & Hlen & Hp & ->). destruct parts as [|a [|q parts]]; [simpl in Hlen; lia..|].
    apply Forall_cons in Hp as [Ha Hp]. apply Forall_cons in Hp as [Hq Hp]. rewrite join_dots. cbn [foldr].
    constructor; [by apply chars_plus|].
    change (String dot (q +:+ ?r)) with (String dot q +:+ r). constructor; [|apply dotted_parts; by exists parts].
    change (String dot q) with (String dot "" +:+ q). constructor; [|by apply chars_plus]. constructor. by apply bool_decide_eq_true.
Qed.

(** A payload key is a category and a name: [PayloadKey] accepts exactly the
    texts of two or more parts between dots, each of one or more lower case letters,
    digits and underscores, and, as [$] has it, such a text before a line feed. *)
Theorem payload_key_is_dotted v : is_Some (PayloadKey_new v) ↔
  ∃ parts, (2 ≤ length parts)%nat ∧ (∀ p, p ∈ parts → p ≠ "" ∧ all_chars key_char p = true) ∧
    (v = join "." parts ∨ v = join "." parts +:+ String line_feed "").
Proof.
  unfold PayloadKey_new. transitivity (re_match _PAYLOAD_KEY_RE v = true).
  { destruct (re_match _ _); split; [done|intros _; by eexists|by intros []|done]. }
  rewrite re_match_spec. split.
  - intros (t & (parts & Hlen & Hp & ->)%key_pattern & Hv). exists parts. rewrite Forall_forall in Hp. done.
  - intros (parts & Hlen & Hp & Hv). exists (join "." parts). split; [|done]. apply key_pattern. exists parts.
    rewrite Forall_forall. done.
Qed.

Example semver_examples :
  map PayloadVersionRef_new ["1.0.12"; "1.0"; "1.2.3-rc.1"; "v1.2.3"; "1.2.3-"] =
    [Some "1.0.12"; None; Some "1.2.3-rc.1"; None; None].
Proof. vm_compute. reflexivity. Qed.
