(* ===== verification/PayloadAggregate.v ===== *)
(** The aggregate [payload.domain.aggregates.payload.Payload]: an offensive artifact
    in versions, approved before it may be dispatched. *)
From stdpp Require Import base tactics list strings sets relations.
From Stdlib Require Import ZArith Lia.
From S2P Require Import Prelude PyTypes PyStore Sha256 PayloadData.

Local Open Scope Z_scope.

Record Payload := mkPayload {
  pl_id : uuid;
  pl_tenant_id : TenantId;
  payload_key : string;
  payload_type : PayloadType.t;
  impact_ceiling : ImpactCeiling.t;
  approval_state : PayloadApprovalState.t;
  versions : list PayloadVersionSnapshot;
  current_version : option string;
  approved_for : list string;
  pl_signature : option string;
  pl_created_at : datetime;
  pl_updated_at : datetime;
  pl_version : Z;
  pl_pending_events : list (DomainEvent PayloadEvent)
}.
#[export] Instance Payload_settable : Settable Payload := fun p =>
  mkPayload (pl_id p) (pl_tenant_id p) (payload_key p) (payload_type p) (impact_ceiling p) (approval_state p)
    (versions p) (current_version p) (approved_for p) (pl_signature p) (pl_created_at p) (pl_updated_at p)
    (pl_version p) (pl_pending_events p).

(** The methods, in a name space of their own. *)
Module PL.

Import PayloadApprovalState.

Definition _ALLOWED (s : PayloadApprovalState.t) : list PayloadApprovalState.t :=
  match s with
  | SUBMITTED => [UNDER_REVIEW; APPROVED; REVOKED]
  | UNDER_REVIEW => [APPROVED; REVOKED; DEPRECATED]
  | APPROVED => [DEPRECATED; REVOKED]
  | DEPRECATED => [REVOKED]
  | REVOKED => []
  end.

Abbreviation M := (PyM Payload PayloadException).

Definition _emit (now : datetime) (e : PayloadEvent) : M unit :=
  modify (fun p => p <| pl_pending_events ::= fun l => l ++ [mkEvent now (pl_tenant_id p) (pl_id p) e] |>).

Definition pop_events : M (list (DomainEvent PayloadEvent)) :=
  p ← self;
  modify (fun p => p <| pl_pending_events := [] |>);;
  mret (pl_pending_events p).

Definition _mutate (now : datetime) : M unit :=
  modify (fun p => p <| pl_updated_at := now |> <| pl_version ::= Z.add 1 |>).

Definition _assert_tenant (t : TenantId) : M unit :=
  p ← self;
  raise_if (bool_decide (t ≠ pl_tenant_id p)) (TenantMismatch (pl_tenant_id p) t).

Definition _transition (to_state : PayloadApprovalState.t) : M unit :=
  p ← self;
  raise_if (bool_decide (to_state ∉ _ALLOWED (approval_state p)))
    (InvalidStateTransition (value (approval_state p)) (value to_state) (pl_id p));;
  modify (fun p => p <| approval_state := to_state |>).

Definition has_version (v : string) (s : PayloadVersionSnapshot) : bool := bool_decide (vs_version s = v).

Definition _current_snapshot : M PayloadVersionSnapshot :=
  p ← self;
  match current_version p, versions p with
  | Some v, _ :: _ =>
      match find (has_version v) (reverse (versions p)) with
      | Some snap => mret snap
      | None => raise (InvalidArgument "current_version not found in versions")
      end
  | _, _ => raise (InvalidArgument "payload has no published version")
  end.

(** [register]; [id] is drawn with [uuid7()]. *)
Definition register (id : uuid) (t : TenantId) (key : string) (ty : PayloadType.t) (ceiling : ImpactCeiling.t)
    (classes : list string) (now : datetime) : Payload :=
  snd (_emit now (PayloadRegistered key (PayloadType.value ty) (ImpactCeiling.value ceiling))
    (mkPayload id t key ty ceiling SUBMITTED [] None classes None now now 0 [])).

Definition publish_version (t : TenantId) (v hash storage : string) (techniques : list string) (now : datetime)
    (vulnerability_refs : list string) : M unit :=
  _assert_tenant t;;
  p ← self;
  raise_if (bool_decide (approval_state p = REVOKED)) (PayloadRevokedError (pl_id p));;
  raise_if (existsb (has_version v) (versions p)) (InvalidArgument ("version already published: " +:+ v));;
  modify (fun p => p <| versions ::= fun l => l ++ [mkVersionSnapshot v hash storage techniques now vulnerability_refs] |>);;
  modify (fun p => p <| current_version := Some v |>);;
  p ← self;
  when (bool_decide (approval_state p = SUBMITTED)) (_transition UNDER_REVIEW);;
  _mutate now;;
  _emit now (PayloadVersionPublished v hash storage).

Definition approve (t : TenantId) (approved_by : uuid) (sig : string) (now : datetime) (ciso_approved : bool)
    (engagement_classes : option (list string)) : M unit :=
  _assert_tenant t;;
  p ← self;
  match current_version p with
  | None => raise (InvalidArgument "cannot approve payload without a published version")
  | Some v =>
      raise_if (bool_decide (impact_ceiling p = ImpactCeiling.DESTRUCT) && negb ciso_approved) (CisoApprovalRequired (pl_id p));;
      _transition APPROVED;;
      modify (fun p => p <| pl_signature := Some sig |>);;
      match engagement_classes with
      | Some classes => modify (fun p => p <| approved_for := classes |>)
      | None => mret tt
      end;;
      _mutate now;;
      _emit now (PayloadApproved v approved_by ciso_approved)
  end.

Definition deprecate (t : TenantId) (reason : string) (now : datetime) : M unit :=
  _assert_tenant t;;
  raise_if (empty_str reason) (InvalidArgument "deprecation reason must not be empty");;
  _transition DEPRECATED;;
  _mutate now;;
  _emit now (PayloadDeprecated reason).

Definition revoke (t : TenantId) (reason : string) (revoked_by : uuid) (now : datetime) : M unit :=
  _assert_tenant t;;
  raise_if (empty_str reason) (InvalidArgument "revocation reason must not be empty");;
  _transition REVOKED;;
  _mutate now;;
  _emit now (PayloadRevoked reason revoked_by).

(** The guard that [verify_hash] and [assert_dispatchable] share. *)
Definition _assert_approved : M unit :=
  p ← self;
  raise_if (bool_decide (approval_state p = REVOKED)) (PayloadRevokedError (pl_id p));;
  raise_if (bool_decide (approval_state p ≠ APPROVED)) (PayloadNotApproved (pl_id p) (value (approval_state p))).

Definition verify_hash (t : TenantId) (computed_hash : string) (now : datetime) : M unit :=
  _assert_tenant t;;
  _assert_approved;;
  snap ← _current_snapshot;
  if bool_decide (computed_hash = vs_payload_hash snap) then
    _emit now (PayloadHashVerified (vs_version snap) (vs_payload_hash snap))
  else
    _emit now (PayloadHashMismatchDetected (vs_version snap) (vs_payload_hash snap) computed_hash);;
    p ← self;
    raise (PayloadHashMismatch (pl_id p) (vs_payload_hash snap) computed_hash).

Definition assert_dispatchable : M PayloadVersionSnapshot :=
  _assert_approved;;
  _current_snapshot.

Inductive call :=
  | PPublish (t : TenantId) (v hash storage : string) (techniques : list string) (now : datetime) (refs : list string)
  | PApprove (t : TenantId) (approved_by : uuid) (sig : string) (now : datetime) (ciso : bool) (classes : option (list string))
  | PDeprecate (t : TenantId) (reason : string) (now : datetime)
  | PRevoke (t : TenantId) (reason : string) (revoked_by : uuid) (now : datetime)
  | PVerifyHash (t : TenantId) (computed_hash : string) (now : datetime)
  | PAssertDispatchable
  | PPopEvents.

Definition run_call (c : call) : M unit :=
  match c with
  | PPublish t v h s ts now refs => publish_version t v h s ts now refs
  | PApprove t o s now ciso cs => approve t o s now ciso cs
  | PDeprecate t r now => deprecate t r now
  | PRevoke t r o now => revoke t r o now
  | PVerifyHash t h now => verify_hash t h now
  | PAssertDispatchable => assert_dispatchable;; mret tt
  | PPopEvents => pop_events;; mret tt
  end.

(** ** What a payload keeps *)

(** Versions are published once, the current one is the last; a payload is submitted
    exactly until its first version, and signed once it is approved. *)
Record sound (p : Payload) : Prop := {
  so_versions : NoDup (map vs_version (versions p));
  so_current : current_version p = vs_version <$> last (versions p);
  so_submitted : approval_state p = SUBMITTED → versions p = [];
  so_published : versions p = [] → approval_state p ∈ [SUBMITTED; REVOKED];
  so_signed : approval_state p = APPROVED → pl_signature p ≠ None;
  so_version : 0 ≤ pl_version p
}.

(** What is fixed by the registration, and what an approval vouches for. *)
Definition fixed (p : Payload) :=
  (pl_id p, pl_tenant_id p, payload_key p, payload_type p, impact_ceiling p, pl_created_at p).
Definition record (p : Payload) :=
  (approval_state p, versions p, current_version p, (approved_for p, pl_signature p), pl_updated_at p, pl_version p).

Definition rank (s : PayloadApprovalState.t) : nat :=
  match s with SUBMITTED => 0 | UNDER_REVIEW => 1 | APPROVED => 2 | DEPRECATED => 3 | REVOKED => 4 end.

(** One call: versions are only appended, the state never goes back, and a revoked
    payload stays as it is. *)
Record step (p p' : Payload) : Prop := {
  st_fixed : fixed p' = fixed p;
  st_sound : sound p → sound p';
  st_versions : versions p `prefix_of` versions p';
  st_rank : (rank (approval_state p) ≤ rank (approval_state p'))%nat;
  st_revoked : approval_state p = REVOKED → record p' = record p;
  st_version : pl_version p ≤ pl_version p'
}.

#[export] Instance step_preorder : PreOrder step.
Proof.
  split; [by intros p; split|]. intros a b c [F1 S1 E1 R1 Z1 V1] [F2 S2 E2 R2 Z2 V2].
  split; [congruence|auto|by etrans|lia| |lia]. intros Hr. specialize (Z1 Hr). rewrite <- Z1. apply Z2.
  unfold record in Z1. by injection Z1 as ->.
Qed.

(** ** Lemmas *)

Ltac unfold_payload :=
  unfold publish_version, approve, deprecate, revoke, verify_hash, assert_dispatchable, _assert_approved,
    _current_snapshot, pop_events, _assert_tenant, _transition, _mutate, _emit in *.

Lemma existsb_version v l : existsb (has_version v) l = false → v ∉ map vs_version l.
Proof.
  intros Hex (s & -> & Hs)%list_elem_of_fmap. apply not_true_iff_false in Hex. apply Hex, existsb_exists.
  exists s. split; [by apply list_elem_of_In|]. by apply bool_decide_eq_true.
Qed.

(** What keeps a payload sound: nothing but its events, a version appended, or a
    transition. *)
Lemma sound_same p p' : record p' = record p → sound p → sound p'.
Proof.
  unfold record. intros Hr. injection Hr as E1 E2 E3 E4 E5 E6 E7. intros [H1 H2 H3 H4 H5 H6].
  split; rewrite ?E1, ?E2, ?E3, ?E5, ?E7; done.
Qed.

Lemma sound_published p p' snap : sound p → vs_version snap ∉ map vs_version (versions p) →
  versions p' = versions p ++ [snap] → current_version p' = Some (vs_version snap) → pl_signature p' = pl_signature p →
  approval_state p' = (if bool_decide (approval_state p = SUBMITTED) then UNDER_REVIEW else approval_state p) →
  pl_version p ≤ pl_version p' → sound p'.
Proof.
  intros [H1 H2 H3 H4 H5 H6] Hnew Hv Hc Hsg Hst Hver. split.
  - rewrite Hv, map_app. apply NoDup_app. split_and!; [done| |apply NoDup_singleton].
    intros x Hx ->%list_elem_of_singleton. done.
  - rewrite Hv, last_snoc. exact Hc.
  - rewrite Hst. case_bool_decide; done.
  - rewrite Hv. intros Hn. by destruct (versions p).
  - rewrite Hst, Hsg. case_bool_decide; done.
  - lia.
Qed.

Lemma sound_moved p p' : sound p → versions p' = versions p → current_version p' = current_version p →
  approval_state p' ∈ _ALLOWED (approval_state p) → (approval_state p' ∈ [DEPRECATED; REVOKED] ∨ current_version p ≠ None) →
  (approval_state p' = APPROVED → pl_signature p' ≠ None) → pl_version p ≤ pl_version p' → sound p'.
Proof.
  intros [H1 H2 H3 H4 H5 H6] Hv Hc Hst Hor Hsg Hver. split; rewrite ?Hv, ?Hc; try done.
  - intros Hs. rewrite Hs in Hst. exfalso. revert Hst. destruct (approval_state p); by_compute.
  - intros Hn. destruct Hor as [Hor|Hne]; [|by rewrite H2, Hn in Hne]. specialize (H4 Hn).
    revert Hst Hor H4. destruct (approval_state p), (approval_state p'); by_compute.
  - lia.
Qed.

Lemma allowed_rank s s' : s' ∈ _ALLOWED s → (rank s ≤ rank s')%nat ∧ s ≠ REVOKED.
Proof. destruct s, s'; by_compute. Qed.

(** A transition of a payload whose state is fixed by the guards. *)
Ltac moved := match goal with H : _ ∈ _ALLOWED _ |- _ => pose proof (allowed_rank _ _ H) as [Hrank Hnr] end.

Ltac still_sound x Hs :=
  first
    [ eapply (sound_published x); [exact Hs| |reflexivity|reflexivity|reflexivity| |simpl; lia];
      simpl; first [by apply existsb_version|by rewrite bool_decide_eq_false_2|by rewrite bool_decide_eq_true_2]
    | eapply (sound_moved x); [exact Hs|reflexivity|reflexivity|done| |done|simpl; lia];
      first [left; by_compute | right; congruence] ].

Lemma payload_call_step c : follows run_call step c.
Proof.
  intros x. destruct c; simpl; unfold_payload; wp_run; stable; try reflexivity.
  all: split; simpl; try done; try lia; try (by apply prefix_app_r); try (by intros ->).
  all: try (intros Hs; by apply (sound_same x)).
  all: simpl in *; try (match goal with H : approval_state _ = SUBMITTED |- _ => rewrite H in * end; simpl; try lia).
  all: try (exfalso; match goal with H : _ ∉ _ |- _ => revert H end; by_compute).
  all: try (moved; simpl in *; by (lia || intros ?)).
  all: intros Hs; still_sound x Hs.
Qed.

Lemma register_sound id t key ty ceiling classes now : sound (register id t key ty ceiling classes now).
Proof. split; simpl; try done; [constructor|]. intros _. by_compute. Qed.

(** The published version that is current. *)
Lemma snapshot_spec p : sound p → approval_state p ∉ [SUBMITTED; REVOKED] → ∃ snap, last (versions p) = Some snap ∧
  current_version p = Some (vs_version snap) ∧ _current_snapshot p = (Ok snap, p).
Proof.
  intros Hs Hst. pose proof (so_published _ Hs) as Hp. pose proof (so_current _ Hs) as Hc.
  destruct (versions p) as [|snap l _] eqn:Hv using rev_ind; [exfalso; by apply Hst, Hp|].
  rewrite last_snoc in *. exists snap. split_and!; [done|done|].
  unfold _current_snapshot, self, mbind, PyM_bind. rewrite Hc, Hv. cbn [fmap option_fmap option_map].
  rewrite reverse_app, reverse_singleton. cbn [app find]. unfold has_version at 1. rewrite bool_decide_eq_true_2 by done.
  by destruct l.
Qed.

Lemma gate_spec p : sound p →
  match approval_state p with
  | APPROVED => ∃ snap, last (versions p) = Some snap ∧ assert_dispatchable p = (Ok snap, p)
  | REVOKED => assert_dispatchable p = (Err (PayloadRevokedError (pl_id p)), p)
  | s => assert_dispatchable p = (Err (PayloadNotApproved (pl_id p) (value s)), p)
  end.
Proof.
  intros Hs. pose proof (snapshot_spec p Hs) as Hsnap.
  unfold assert_dispatchable, _assert_approved, self, mbind, PyM_bind, raise_if.
  destruct (approval_state p); try reflexivity. destruct Hsnap as (snap & Hl & _ & Hrun); [by_compute|].
  exists snap. split; [done|]. simpl. exact Hrun.
Qed.

(** The hash check of an approved payload leaves all but an event, and that of another
    one is refused. *)
Lemma hash_check_spec p h now : sound p → approval_state p = APPROVED → ∃ snap p', last (versions p) = Some snap ∧
  verify_hash (pl_tenant_id p) h now p =
    ((if bool_decide (h = vs_payload_hash snap) then Ok tt
      else Err (PayloadHashMismatch (pl_id p) (vs_payload_hash snap) h)), p') ∧ record p' = record p ∧ fixed p' = fixed p ∧
  pl_pending_events p' = pl_pending_events p ++ [mkEvent now (pl_tenant_id p) (pl_id p)
    (if bool_decide (h = vs_payload_hash snap) then PayloadHashVerified (vs_version snap) (vs_payload_hash snap)
     else PayloadHashMismatchDetected (vs_version snap) (vs_payload_hash snap) h)].
Proof.
  intros Hs Ha. destruct (snapshot_spec p Hs) as (snap & Hl & _ & Hrun); [rewrite Ha; by_compute|]. exists snap.
  assert (_assert_tenant (pl_tenant_id p) p = (Ok tt, p)) as Ht.
  { unfold _assert_tenant, self, mbind, PyM_bind, raise_if. by rewrite (bool_decide_eq_false_2 (_ ≠ pl_tenant_id p)) by (intros Hn; by apply Hn). }
  assert (_assert_approved p = (Ok tt, p)) as Hap by (unfold _assert_approved, self, mbind, PyM_bind, raise_if; by rewrite Ha).
  unfold verify_hash, mbind, PyM_bind. rewrite Ht, Hap, Hrun.
  case_bool_decide; eexists; (split; [done|]); (split; [reflexivity|done]).
Qed.

Definition gate_error (p : Payload) : PayloadException :=
  if bool_decide (approval_state p = REVOKED) then PayloadRevokedError (pl_id p)
  else PayloadNotApproved (pl_id p) (value (approval_state p)).

Lemma hash_check_refused p h now : approval_state p ≠ APPROVED → verify_hash (pl_tenant_id p) h now p = (Err (gate_error p), p).
Proof.
  intros Ha. unfold verify_hash, gate_error, _assert_tenant, _assert_approved, self, mbind, PyM_bind, raise_if.
  rewrite (bool_decide_eq_false_2 (_ ≠ pl_tenant_id p)) by (intros Hn; by apply Hn). cbn -[_current_snapshot].
  case_bool_decide; [done|]. by rewrite bool_decide_eq_true_2.
Qed.

(** The approval that a signature is of. *)
Definition approval_of (c : call) (p : Payload) : Prop :=
  ∃ t o sig now ciso classes, c = PApprove t o sig now ciso classes ∧ pl_signature p = Some sig ∧
    (impact_ceiling p = ImpactCeiling.DESTRUCT → ciso = true).

Lemma call_signature c x :
  wp (run_call c) (λ _ x', pl_signature x' = pl_signature x ∨ approval_of c x')
                  (λ _ x', pl_signature x' = pl_signature x ∨ approval_of c x') x.
Proof.
  destruct c; simpl; unfold_payload; wp_run; stable; try (by left);
    right; eexists _, _, _, _, _, _; (split; [reflexivity|]); (split; [reflexivity|]); simpl; intros Hd;
    match goal with H : _ && negb ?b = false |- _ => rewrite Hd, bool_decide_eq_true_2 in H by done; by destruct b end.
Qed.

Lemma calls_signature cs x : pl_signature (run_all run_call cs x) = pl_signature x ∨
  ∃ c, c ∈ cs ∧ approval_of c (run_all run_call cs x).
Proof.
  revert x. induction cs as [|c cs IH]; intros x; [by left|]. simpl.
  pose proof (call_signature c x) as Hc. pose proof (run_all_follows run_call step cs (run_call c x).2 payload_call_step) as Hst.
  assert (pl_signature (run_call c x).2 = pl_signature x ∨ approval_of c (run_call c x).2) as Hc'
    by (unfold wp in Hc; by destruct (run_call c x) as [[]]).
  destruct (IH (run_call c x).2) as [Heq|(c' & Hin & Hc2)].
  - destruct Hc' as [Hsame|(t & o & sg & now & ciso & classes & -> & Hs & Hd)]; [left; congruence|].
    right. exists (PApprove t o sg now ciso classes). split; [left|]. eexists _, _, _, _, _, _.
    split; [reflexivity|]. split; [congruence|]. destruct Hst as [Hf _ _ _ _ _]. unfold fixed in Hf. injection Hf as _ _ _ _ E _.
    intros Hce. apply Hd. etrans; [symmetry; exact E|exact Hce].
  - right. exists c'. split; [by right|done].
Qed.

(** ** Properties *)


(** A revoked payload is final: once it is [Revoked] no call, answered or
    refused, changes its state, versions, signature, classes or version, and it is
    neither dispatched nor verified. *)
Theorem revoked_payload_is_final p cs h now : approval_state p = REVOKED →
  let p' := run_all run_call cs p in
  record p' = record p ∧ assert_dispatchable p' = (Err (PayloadRevokedError (pl_id p)), p') ∧
  verify_hash (pl_tenant_id p) h now p' = (Err (PayloadRevokedError (pl_id p)), p').
Proof.
  intros Hr p'. destruct (run_all_follows run_call step cs p payload_call_step) as [Hf _ _ _ Hrev _]. fold p' in Hf, Hrev.
  specialize (Hrev Hr). clearbody p'. assert (approval_state p' = REVOKED ∧ pl_id p' = pl_id p ∧ pl_tenant_id p' = pl_tenant_id p)
    as (Hr' & Hid & Ht) by (unfold record, fixed in *; split_and!; congruence).
  split; [done|]. rewrite <- Hid, <- Ht. unfold verify_hash, assert_dispatchable, _assert_tenant, _assert_approved, self, mbind, PyM_bind, raise_if.
  rewrite Hr'. rewrite (bool_decide_eq_false_2 (_ ≠ pl_tenant_id p')) by (intros Hn; by apply Hn). split; [reflexivity|].
  cbn -[_current_snapshot]. by rewrite Hr'.
Qed.

(** C26. An approval does not cover the version it was given for only: publishing a
    new version of an [Approved] payload leaves it approved, under the old
    signature; the new artifact, which nobody approved, is what is dispatched and
    verified, and the approved one fails the hash check. *)
Theorem new_version_escapes_approval p v hash storage techniques refs now : sound p → approval_state p = APPROVED →
  v ∉ map vs_version (versions p) →
  ∃ p', publish_version (pl_tenant_id p) v hash storage techniques now refs p = (Ok tt, p') ∧
    approval_state p' = APPROVED ∧ pl_signature p' = pl_signature p ∧
    assert_dispatchable p' = (Ok (mkVersionSnapshot v hash storage techniques now refs), p') ∧
    (verify_hash (pl_tenant_id p) hash now p').1 = Ok tt ∧
    ∀ snap, last (versions p) = Some snap → vs_payload_hash snap ≠ hash →
      (verify_hash (pl_tenant_id p) (vs_payload_hash snap) now p').1 =
        Err (PayloadHashMismatch (pl_id p) hash (vs_payload_hash snap)).
Proof.
  intros Hs Ha Hv.
  assert (wp (publish_version (pl_tenant_id p) v hash storage techniques now refs)
    (λ _ p', approval_state p' = APPROVED ∧ pl_signature p' = pl_signature p ∧ fixed p' = fixed p ∧
       versions p' = versions p ++ [mkVersionSnapshot v hash storage techniques now refs]) (λ _ _, False) p) as Hwp.
  { unfold publish_version, _assert_tenant, _transition, _mutate, _emit. wp_run; stable; try congruence; try done.
    all: try (simpl in *; congruence).
    match goal with H : existsb _ _ = true |- _ => apply existsb_exists in H as (s & Hin%list_elem_of_In & Heq%bool_decide_eq_true) end.
    apply Hv. rewrite <- Heq. by apply list_elem_of_fmap_2. }
  unfold wp in Hwp. pose proof (payload_call_step (PPublish (pl_tenant_id p) v hash storage techniques now refs) p) as Hst.
  unfold wp in Hst. simpl in Hst. destruct (publish_version _ _ _ _ _ _ _ p) as [[[]|e] p'] eqn:Hrun; [|done].
  destruct Hwp as (Ha' & Hsg & Hf & Hvs). assert (sound p') as Hs' by by apply Hst.
  exists p'. split; [done|]. split; [done|]. split; [done|].
  pose proof (gate_spec p' Hs') as Hg. rewrite Ha', Hvs, last_snoc in Hg. destruct Hg as (snap & [= <-] & Hg). split; [done|].
  assert (pl_id p' = pl_id p ∧ pl_tenant_id p' = pl_tenant_id p) as [Hid Ht] by (unfold fixed in Hf; split; congruence).
  rewrite <- Ht, <- Hid. split.
  - destruct (hash_check_spec p' hash now Hs' Ha') as (snap & p2 & Hl & Hr2 & _). rewrite Hvs, last_snoc in Hl. injection Hl as <-.
    rewrite Hr2. by rewrite bool_decide_eq_true_2.
  - intros snap _ Hne. destruct (hash_check_spec p' (vs_payload_hash snap) now Hs' Ha') as (snap2 & p2 & Hl & Hr2 & _).
    rewrite Hvs, last_snoc in Hl. injection Hl as <-. rewrite Hr2. by rewrite bool_decide_eq_false_2.
Qed.

(** A destructive wiper: published, approved with the CISO's approval. *)
Definition acme : TenantId := mkEntityId 1.
Definition hash_a : string := sha256_hex "a".
Definition hash_b : string := sha256_hex "b".
Definition wiper : Payload :=
  register 5 acme "impact.wiper" PayloadType.BINARY ImpactCeiling.DESTRUCT ["Internal"] 10.
Definition approving : list call :=
  [PPublish acme "1.0.0" hash_a "s3://a" ["T1485"] 11 []; PApprove acme 7 "sig" 12 true None].
Definition approved_wiper : Payload := run_all run_call approving wiper.

Lemma approved_wiper_sound : sound approved_wiper.
Proof.
  destruct (run_all_follows run_call step approving wiper payload_call_step) as [_ Hs _ _ _ _]. apply Hs, register_sound.
Qed.

Lemma revoked_payload_is_final_witness :
  let revoked := run_all run_call [PRevoke acme "leaked" 7 20] approved_wiper in
  let p' := run_all run_call [PPublish acme "2.0.0" hash_b "s3://b" ["T1485"] 21 []; PApprove acme 7 "sig" 22 true None] revoked in
  record p' = record revoked ∧ assert_dispatchable p' = (Err (PayloadRevokedError 5), p').
Proof.
  intros revoked p'.
  destruct (revoked_payload_is_final revoked
    [PPublish acme "2.0.0" hash_b "s3://b" ["T1485"] 21 []; PApprove acme 7 "sig" 22 true None] hash_a 23) as (Hr & Ha & _);
    [vm_compute; reflexivity|]. split; [exact Hr|exact Ha].
Defined.

Lemma new_version_escapes_approval_witness : ∃ p',
  publish_version acme "2.0.0" hash_b "s3://b" ["T1485"] 21 [] approved_wiper = (Ok tt, p') ∧ approval_state p' = APPROVED ∧
  assert_dispatchable p' = (Ok (mkVersionSnapshot "2.0.0" hash_b "s3://b" ["T1485"] 21 []), p').
Proof.
  destruct (new_version_escapes_approval approved_wiper "2.0.0" hash_b "s3://b" ["T1485"] [] 21) as (p' & H1 & H2 & _ & H4 & _);
    [apply approved_wiper_sound|vm_compute; reflexivity|by_compute|]. by exists p'.
Defined.
End PL.
Export (hints) PL.
