(* ===== verification/PluginRegistration.v ===== *)
(** The aggregate
    [payload.domain.aggregates.plugin_registration.PluginRegistration]: a plugin that
    executes payloads, approved once and revoked for good. *)
From stdpp Require Import base tactics list strings sets relations.
From Stdlib Require Import ZArith Lia.
From S2P Require Import Prelude PyTypes PyStore PayloadData.

Local Open Scope Z_scope.

Record PluginRegistration := mkPlugin {
  pg_id : uuid;
  pg_tenant_id : TenantId;
  pg_name : string;
  plugin_type : PluginType.t;
  plugin_version : string;
  plugin_hash : string;
  capabilities : list string;
  trust_level : PluginTrustLevel.t;
  pg_approval_state : PluginApprovalState.t;
  pg_created_at : datetime;
  pg_updated_at : datetime;
  pg_version : Z;
  pg_pending_events : list (DomainEvent PluginEvent)
}.
#[export] Instance PluginRegistration_settable : Settable PluginRegistration := fun p =>
  mkPlugin (pg_id p) (pg_tenant_id p) (pg_name p) (plugin_type p) (plugin_version p) (plugin_hash p) (capabilities p)
    (trust_level p) (pg_approval_state p) (pg_created_at p) (pg_updated_at p) (pg_version p) (pg_pending_events p).

Module PG.

Import PluginApprovalState.

Definition _ALLOWED (s : PluginApprovalState.t) : list PluginApprovalState.t :=
  match s with SUBMITTED => [APPROVED; REVOKED] | APPROVED => [REVOKED] | REVOKED => [] end.

Abbreviation M := (PyM PluginRegistration PayloadException).

Definition _emit (now : datetime) (e : PluginEvent) : M unit :=
  modify (fun p => p <| pg_pending_events ::= fun l => l ++ [mkEvent now (pg_tenant_id p) (pg_id p) e] |>).

Definition pop_events : M (list (DomainEvent PluginEvent)) :=
  p ← self;
  modify (fun p => p <| pg_pending_events := [] |>);;
  mret (pg_pending_events p).

Definition _mutate (now : datetime) : M unit :=
  modify (fun p => p <| pg_updated_at := now |> <| pg_version ::= Z.add 1 |>).

Definition _assert_tenant (t : TenantId) : M unit :=
  p ← self;
  raise_if (bool_decide (t ≠ pg_tenant_id p)) (TenantMismatch (pg_tenant_id p) t).

Definition _transition (to_state : PluginApprovalState.t) : M unit :=
  p ← self;
  raise_if (bool_decide (to_state ∉ _ALLOWED (pg_approval_state p)))
    (InvalidStateTransition (value (pg_approval_state p)) (value to_state) (pg_id p));;
  modify (fun p => p <| pg_approval_state := to_state |>).

(** [register]; [id] is drawn with [uuid7()]. *)
Definition register (id : uuid) (t : TenantId) (name : string) (ty : PluginType.t) (v hash : string)
    (techniques : list string) (trust : PluginTrustLevel.t) (now : datetime) : result PayloadException PluginRegistration :=
  if empty_str name then Err (InvalidArgument "plugin name must not be empty")
  else Ok (snd (_emit now (PluginRegistered (PluginType.value ty) v)
    (mkPlugin id t name ty v hash techniques trust SUBMITTED now now 0 []))).

Definition approve (t : TenantId) (approved_by : uuid) (now : datetime) : M unit :=
  _assert_tenant t;;
  _transition APPROVED;;
  _mutate now;;
  _emit now (PluginApproved approved_by).

Definition revoke (t : TenantId) (reason : string) (revoked_by : uuid) (now : datetime) : M unit :=
  _assert_tenant t;;
  raise_if (empty_str reason) (InvalidArgument "revocation reason must not be empty");;
  _transition REVOKED;;
  _mutate now;;
  _emit now (PluginRevoked reason revoked_by).

Inductive call :=
  | GApprove (t : TenantId) (approved_by : uuid) (now : datetime)
  | GRevoke (t : TenantId) (reason : string) (revoked_by : uuid) (now : datetime)
  | GPopEvents.

Definition run_call (c : call) : M unit :=
  match c with
  | GApprove t o now => approve t o now
  | GRevoke t r o now => revoke t r o now
  | GPopEvents => pop_events;; mret tt
  end.

(** ** What a plugin keeps *)

(** What a registration gives for good. *)
Definition manifest (p : PluginRegistration) :=
  (pg_id p, pg_tenant_id p, pg_name p, plugin_type p, plugin_version p, plugin_hash p, capabilities p, trust_level p,
   pg_created_at p).

Definition rank (s : PluginApprovalState.t) : nat := match s with SUBMITTED => 0 | APPROVED => 1 | REVOKED => 2 end.

(** One call: the state moves forward by as many steps as the version. *)
Record step (p p' : PluginRegistration) : Prop := {
  st_manifest : manifest p' = manifest p;
  st_rank : (rank (pg_approval_state p) ≤ rank (pg_approval_state p'))%nat;
  st_moves : pg_version p ≤ pg_version p' ≤
    pg_version p + (Z.of_nat (rank (pg_approval_state p')) - Z.of_nat (rank (pg_approval_state p)));
  st_same : pg_approval_state p' = pg_approval_state p → pg_updated_at p' = pg_updated_at p
}.

#[export] Instance step_preorder : PreOrder step.
Proof.
  split; [by intros p; split; try lia|]. intros a b c [M1 R1 V1 U1] [M2 R2 V2 U2].
  split; [congruence|lia|lia|]. intros Hs. assert (pg_approval_state b = pg_approval_state a) as Hb.
  { rewrite Hs in R2. destruct (pg_approval_state a), (pg_approval_state b); simpl in *; done || lia. }
  rewrite U2 by congruence. by apply U1.
Qed.

Lemma plugin_call_step c : follows run_call step c.
Proof.
  intros x. destruct c; simpl; unfold approve, revoke, pop_events, _assert_tenant, _transition, _mutate, _emit; wp_run; stable;
    try reflexivity.
  all: split; simpl; try done; try lia.
  all: match goal with H : _ ∈ _ALLOWED ?s |- _ => destruct s eqn:Hs; simpl in H; revert H end.
  all: first [by_compute|simpl; intros _; try lia; try done].
Qed.
End PG.
Export (hints) PG.
