(* ===== verification/PayloadStore.v ===== *)
(** Persistence of payloads and plugins: the JSON columns, the two tables with their
    keys, and the two repositories with their optimistic locking. *)
From stdpp Require Import base tactics list strings sets sorting.
From Stdlib Require Import ZArith Lia.
From S2P Require Import Prelude PyTypes PyParse PyJson PyStore PyRegex PayloadData PayloadAggregate PluginRegistration.

Local Open Scope Z_scope.

(** ** Tables *)

Record PayloadRow := mkPayloadRow {
  yr_id : uuid; yr_tenant_id : TenantId; yr_payload_key : string; yr_payload_type : string; yr_impact_ceiling : string;
  yr_approval_state : string; yr_current_version : option string; yr_versions_json : Json;
  yr_engagement_classes_json : Json; yr_signature : option string; yr_created_at : datetime; yr_updated_at : datetime;
  yr_row_version : Z }.
#[export] Instance PayloadRow_settable : Settable PayloadRow := fun r =>
  mkPayloadRow (yr_id r) (yr_tenant_id r) (yr_payload_key r) (yr_payload_type r) (yr_impact_ceiling r)
    (yr_approval_state r) (yr_current_version r) (yr_versions_json r) (yr_engagement_classes_json r) (yr_signature r)
    (yr_created_at r) (yr_updated_at r) (yr_row_version r).

Record PluginRow := mkPluginRow {
  gr_id : uuid; gr_tenant_id : TenantId; gr_name : string; gr_plugin_type : string; gr_plugin_version : string;
  gr_plugin_hash : string; gr_technique_ids_json : Json; gr_trust_level : string; gr_approval_state : string;
  gr_created_at : datetime; gr_updated_at : datetime; gr_row_version : Z }.
#[export] Instance PluginRow_settable : Settable PluginRow := fun r =>
  mkPluginRow (gr_id r) (gr_tenant_id r) (gr_name r) (gr_plugin_type r) (gr_plugin_version r) (gr_plugin_hash r)
    (gr_technique_ids_json r) (gr_trust_level r) (gr_approval_state r) (gr_created_at r) (gr_updated_at r)
    (gr_row_version r).

Record PayloadDb := mkPayloadDb { yb_payloads : list PayloadRow; yb_plugins : list PluginRow }.
#[export] Instance PayloadDb_settable : Settable PayloadDb := fun d => mkPayloadDb (yb_payloads d) (yb_plugins d).
Definition empty_payload_db : PayloadDb := mkPayloadDb [] [].

(** What the repositories raise. *)
Inductive PayloadStoreError :=
  | OptimisticLockConflict (aggregate_type : string) (aggregate_id : uuid)
  | IntegrityError
  | MultipleResultsFound
  | CorruptRow.

(** ** Mapping *)

(** [str] and [if x] of a JSON value and of a column. *)
Definition as_text (j : Json) : option string := match j with JStr s => Some s | _ => None end.
Definition truthy_text (x : option string) : option string := x ≫= non_empty_str.

(** [item[key]], of a text, and [tuple(x)] of an array of texts; nothing writes
    another value there. *)
Definition text_field (d : list (string * Json)) (key : string) : option string := j ← dget d key; as_text j.
Definition text_list (j : Json) : option (list string) := match j with JArr l => mapM as_text l | _ => None end.

Definition version_item (v : PayloadVersionSnapshot) : Json :=
  JObj [("version", JStr (vs_version v)); ("payload_hash", JStr (vs_payload_hash v)); ("storage_ref", JStr (vs_storage_ref v));
        ("technique_ids", json_strs (vs_technique_ids v)); ("published_at", JStr (isoformat (vs_published_at v)));
        ("vulnerability_refs", json_strs (vs_vulnerability_refs v))].
Definition _versions_to_json (l : list PayloadVersionSnapshot) : Json := JArr (map version_item l).

Definition version_of_item (item : Json) : option PayloadVersionSnapshot :=
  match item with
  | JObj d =>
      v ← text_field d "version"; v ← PayloadVersionRef_new v;
      h ← text_field d "payload_hash"; h ← PayloadHash_new h;
      s ← text_field d "storage_ref"; s ← PayloadStorageRef_new s;
      ts ← dget d "technique_ids"; ts ← text_list ts; ts ← PayloadCapabilities_new ts;
      at_ ← text_field d "published_at"; at_ ← fromisoformat at_;
      refs ← to_str_list (dget_default d "vulnerability_refs" JNull);
      Some (mkVersionSnapshot v h s ts at_ refs)
  | _ => None
  end.

(** [_versions_from_json]: a list, or an object that holds one; other values, which
    nothing writes, are refused. *)
Definition _versions_from_json (raw : Json) : option (list PayloadVersionSnapshot) :=
  match raw with
  | JArr l => mapM version_of_item l
  | JObj d => match dget_default d "versions" (JArr []) with JArr l => mapM version_of_item l | _ => None end
  | _ => None
  end.

(** [PayloadModel(...)] of [save]. *)
Definition payload_to_row (p : Payload) : PayloadRow :=
  mkPayloadRow (pl_id p) (pl_tenant_id p) (payload_key p) (PayloadType.value (payload_type p))
    (ImpactCeiling.value (impact_ceiling p)) (PayloadApprovalState.value (approval_state p)) (current_version p)
    (_versions_to_json (versions p)) (json_strs (approved_for p)) (pl_signature p) (pl_created_at p) (pl_updated_at p)
    (pl_version p).

(** [PgPayloadRepository._to_domain] *)
Definition payload_from_row (r : PayloadRow) : option Payload :=
  vs ← _versions_from_json (yr_versions_json r);
  id ← non_nil (yr_id r);
  key ← PayloadKey_new (yr_payload_key r);
  ty ← of_text PayloadType.value PayloadType.all (yr_payload_type r);
  ceiling ← of_text ImpactCeiling.value ImpactCeiling.all (yr_impact_ceiling r);
  st ← of_text PayloadApprovalState.value PayloadApprovalState.all (yr_approval_state r);
  current ← match truthy_text (yr_current_version r) with Some v => Some <$> PayloadVersionRef_new v | None => Some None end;
  classes ← to_str_list (yr_engagement_classes_json r);
  Some (mkPayload id (yr_tenant_id r) key ty ceiling st vs current classes (truthy_text (yr_signature r))
          (yr_created_at r) (yr_updated_at r) (yr_row_version r) []).

(** What an update writes. *)
Definition updated_payload_row (p : Payload) (r : PayloadRow) : PayloadRow :=
  r <| yr_approval_state := PayloadApprovalState.value (approval_state p) |> <| yr_current_version := current_version p |>
    <| yr_versions_json := _versions_to_json (versions p) |> <| yr_engagement_classes_json := json_strs (approved_for p) |>
    <| yr_signature := pl_signature p |> <| yr_updated_at := pl_updated_at p |> <| yr_row_version := pl_version p |>.

Definition plugin_to_row (p : PluginRegistration) : PluginRow :=
  mkPluginRow (pg_id p) (pg_tenant_id p) (pg_name p) (PluginType.value (plugin_type p)) (plugin_version p) (plugin_hash p)
    (json_strs (capabilities p)) (PluginTrustLevel.value (trust_level p)) (PluginApprovalState.value (pg_approval_state p))
    (pg_created_at p) (pg_updated_at p) (pg_version p).

(** [PgPluginRegistrationRepository._to_domain] *)
Definition plugin_from_row (r : PluginRow) : option PluginRegistration :=
  id ← non_nil (gr_id r);
  ty ← of_text PluginType.value PluginType.all (gr_plugin_type r);
  v ← PluginVersion_new (gr_plugin_version r);
  h ← PluginHash_new (gr_plugin_hash r);
  ts ← to_str_list (gr_technique_ids_json r); ts ← PluginCapabilities_new ts;
  trust ← of_text PluginTrustLevel.value PluginTrustLevel.all (gr_trust_level r);
  st ← of_text PluginApprovalState.value PluginApprovalState.all (gr_approval_state r);
  Some (mkPlugin id (gr_tenant_id r) (gr_name r) ty v h ts trust st (gr_created_at r) (gr_updated_at r)
          (gr_row_version r) []).

Definition updated_plugin_row (p : PluginRegistration) (r : PluginRow) : PluginRow :=
  r <| gr_approval_state := PluginApprovalState.value (pg_approval_state p) |> <| gr_updated_at := pg_updated_at p |>
    <| gr_row_version := pg_version p |>.

(** ** Queries *)

Definition scalar_one_or_none {R} (l : list R) : result PayloadStoreError (option R) :=
  match l with [] => Ok None | [r] => Ok (Some r) | _ :: _ :: _ => Err MultipleResultsFound end.

Definition decoded_row {A} (x : option A) : result PayloadStoreError A :=
  match x with Some a => Ok a | None => Err CorruptRow end.

(** [self._to_domain(model) if model else None] *)
Definition decode_found {R A} (dec : R → option A) (found : result PayloadStoreError (option R))
    : result PayloadStoreError (option A) :=
  match found with
  | Ok None => Ok None
  | Ok (Some r) => match decoded_row (dec r) with Ok a => Ok (Some a) | Err e => Err e end
  | Err e => Err e
  end.

(** [version == actual + 1 or version == actual] *)
Definition accepts (v actual : Z) : bool := (v =? actual + 1) || (v =? actual).

Section Store.
Context `{!RowOrder} `{!TenantColumns}.

(** [row.tenant_id != aggregate.tenant_id.value], negated. *)
Definition tenant_equal (column t : TenantId) : bool := uuid_equals_ulid && bool_decide (column = t).

Definition payload_rows (id : uuid) (db : PayloadDb) : list PayloadRow := filter (fun r => yr_id r = id) (yb_payloads db).
Definition plugin_rows (id : uuid) (db : PayloadDb) : list PluginRow := filter (fun r => gr_id r = id) (yb_plugins db).

(** What the unique index is on. *)
Definition payload_index (r : PayloadRow) : TenantId * string := (yr_tenant_id r, yr_payload_key r).

(** [PgPayloadRepository.save]; it sets the version of the payload to that of its
    row. *)
Definition save_payload (p : Payload) (db : PayloadDb) : result PayloadStoreError (PayloadDb * Payload) :=
  match scalar_one_or_none (payload_rows (pl_id p) db) with
  | Err e => Err e
  | Ok None =>
      let p := p <| pl_version := 1 |> in
      let row := payload_to_row p in
      if bool_decide (payload_index row ∈ map payload_index (yb_payloads db)) then Err IntegrityError
      else Ok (db <| yb_payloads ::= fun l => l ++ [row] |>, p)
  | Ok (Some row) =>
      if negb (tenant_equal (yr_tenant_id row) (pl_tenant_id p)) then Err (OptimisticLockConflict "Payload" (pl_id p))
      else
        let actual := yr_row_version row in
        if negb (accepts (pl_version p) actual) then Err (OptimisticLockConflict "Payload" (pl_id p))
        else
          let p := p <| pl_version := actual + 1 |> in
          let hit r := bool_decide (yr_id r = pl_id p ∧ yr_tenant_id r = pl_tenant_id p ∧ yr_row_version r = actual) in
          if negb (existsb hit (yb_payloads db)) then Err (OptimisticLockConflict "Payload" (pl_id p))
          else Ok (db <| yb_payloads ::= map (fun r => if hit r then updated_payload_row p r else r) |>, p)
  end.

Definition find_payload (id : uuid) (t : TenantId) (db : PayloadDb) : result PayloadStoreError (option Payload) :=
  decode_found payload_from_row (scalar_one_or_none (filter (fun r => yr_id r = id ∧ yr_tenant_id r = t) (yb_payloads db))).

Definition find_by_key (key : string) (t : TenantId) (db : PayloadDb) : result PayloadStoreError (option Payload) :=
  decode_found payload_from_row
    (scalar_one_or_none (filter (fun r => yr_payload_key r = key ∧ yr_tenant_id r = t) (yb_payloads db))).

(** [order_by(created_at.desc()).limit(limit).offset(offset)] *)
Definition newest_first {R} (created_at : R → datetime) (a b : R) : Prop := created_at b <= created_at a.
#[export] Instance newest_first_dec {R} (created_at : R → datetime) : RelDecision (newest_first created_at).
Proof. intros a b. unfold newest_first. apply _. Defined.
Definition page {R} (created_at : R → datetime) (limit offset : Z) (l : list R) : list R :=
  take (Z.to_nat limit) (drop (Z.to_nat offset) (merge_sort (newest_first created_at) (select_order l))).

Definition list_payloads_of (t : TenantId) (limit offset : Z) (db : PayloadDb) : result PayloadStoreError (list Payload) :=
  decoded_row (mapM payload_from_row (page yr_created_at limit offset (filter (fun r => yr_tenant_id r = t) (yb_payloads db)))).

(** [PgPluginRegistrationRepository.save] *)
Definition save_plugin (p : PluginRegistration) (db : PayloadDb) : result PayloadStoreError (PayloadDb * PluginRegistration) :=
  match scalar_one_or_none (plugin_rows (pg_id p) db) with
  | Err e => Err e
  | Ok None =>
      let p := p <| pg_version := 1 |> in
      Ok (db <| yb_plugins ::= fun l => l ++ [plugin_to_row p] |>, p)
  | Ok (Some row) =>
      if negb (tenant_equal (gr_tenant_id row) (pg_tenant_id p)) then Err (OptimisticLockConflict "PluginRegistration" (pg_id p))
      else
        let actual := gr_row_version row in
        if negb (accepts (pg_version p) actual) then Err (OptimisticLockConflict "PluginRegistration" (pg_id p))
        else
          let p := p <| pg_version := actual + 1 |> in
          let hit r := bool_decide (gr_id r = pg_id p ∧ gr_tenant_id r = pg_tenant_id p ∧ gr_row_version r = actual) in
          if negb (existsb hit (yb_plugins db)) then Err (OptimisticLockConflict "PluginRegistration" (pg_id p))
          else Ok (db <| yb_plugins ::= map (fun r => if hit r then updated_plugin_row p r else r) |>, p)
  end.

Definition find_plugin (id : uuid) (t : TenantId) (db : PayloadDb) : result PayloadStoreError (option PluginRegistration) :=
  decode_found plugin_from_row (scalar_one_or_none (filter (fun r => gr_id r = id ∧ gr_tenant_id r = t) (yb_plugins db))).

Definition list_plugins_of (t : TenantId) (limit offset : Z) (db : PayloadDb)
    : result PayloadStoreError (list PluginRegistration) :=
  decoded_row (mapM plugin_from_row (page gr_created_at limit offset (filter (fun r => gr_tenant_id r = t) (yb_plugins db)))).
End Store.

(** ** What is stored *)

(** What the constructors accept. *)
Record ok_version (s : PayloadVersionSnapshot) : Prop := {
  ov_version : PayloadVersionRef_new (vs_version s) = Some (vs_version s);
  ov_hash : PayloadHash_new (vs_payload_hash s) = Some (vs_payload_hash s);
  ov_storage : PayloadStorageRef_new (vs_storage_ref s) = Some (vs_storage_ref s);
  ov_techniques : PayloadCapabilities_new (vs_technique_ids s) = Some (vs_technique_ids s);
  ov_published : datetime_ok (vs_published_at s)
}.

Record ok_payload (p : Payload) : Prop := {
  oy_id : pl_id p ≠ 0;
  oy_key : PayloadKey_new (payload_key p) = Some (payload_key p);
  oy_versions : ∀ s, s ∈ versions p → ok_version s;
  oy_signature : ∀ s, pl_signature p = Some s → PayloadSignature_new s = Some s
}.

Record ok_plugin (p : PluginRegistration) : Prop := {
  og_id : pg_id p ≠ 0;
  og_version : PluginVersion_new (plugin_version p) = Some (plugin_version p);
  og_hash : PluginHash_new (plugin_hash p) = Some (plugin_hash p);
  og_capabilities : PluginCapabilities_new (capabilities p) = Some (capabilities p)
}.

(** A payload, or a plugin, as the repository would answer it. *)
Record stored_payload (db : PayloadDb) (p : Payload) : Prop := {
  sy_row : payload_to_row p ∈ yb_payloads db;
  sy_ok : ok_payload p;
  sy_sound : PL.sound p;
  sy_events : pl_pending_events p = []
}.

Record stored_plugin (db : PayloadDb) (p : PluginRegistration) : Prop := {
  sg_row : plugin_to_row p ∈ yb_plugins db;
  sg_ok : ok_plugin p;
  sg_events : pg_pending_events p = []
}.

(** The keys, and every row the row of a payload that is sound, or of a plugin. *)
Record pl_good (db : PayloadDb) : Prop := {
  yg_payload_ids : NoDup (map yr_id (yb_payloads db));
  yg_payload_keys : NoDup (map payload_index (yb_payloads db));
  yg_plugin_ids : NoDup (map gr_id (yb_plugins db));
  yg_payloads : ∀ r, r ∈ yb_payloads db → ∃ p, r = payload_to_row p ∧ stored_payload db p;
  yg_plugins : ∀ r, r ∈ yb_plugins db → ∃ p, r = plugin_to_row p ∧ stored_plugin db p
}.

(** ** Lemmas *)

(** *** Codecs *)

Lemma of_text_payload_type x : of_text PayloadType.value PayloadType.all (PayloadType.value x) = Some x.
Proof. by destruct x; vm_compute. Qed.
Lemma of_text_impact x : of_text ImpactCeiling.value ImpactCeiling.all (ImpactCeiling.value x) = Some x.
Proof. by destruct x; vm_compute. Qed.
Lemma of_text_payload_state x :
  of_text PayloadApprovalState.value PayloadApprovalState.all (PayloadApprovalState.value x) = Some x.
Proof. by destruct x; vm_compute. Qed.
Lemma of_text_plugin_type x : of_text PluginType.value PluginType.all (PluginType.value x) = Some x.
Proof. by destruct x; vm_compute. Qed.
Lemma of_text_plugin_state x :
  of_text PluginApprovalState.value PluginApprovalState.all (PluginApprovalState.value x) = Some x.
Proof. by destruct x; vm_compute. Qed.
Lemma of_text_trust x : of_text PluginTrustLevel.value PluginTrustLevel.all (PluginTrustLevel.value x) = Some x.
Proof. by destruct x; vm_compute. Qed.

Lemma text_list_round l : text_list (json_strs l) = Some l.
Proof. unfold text_list, json_strs. apply mapM_Some_2. induction l as [|x l IH]; constructor; done. Qed.

Lemma version_round s : ok_version s → version_of_item (version_item s) = Some s.
Proof.
  intros [H1 H2 H3 H4 H5]. unfold version_of_item, version_item, text_field. json_fields. cbn [as_text mbind option_bind].
  rewrite H1. cbn [mbind option_bind]. rewrite H2. cbn [mbind option_bind]. rewrite H3. cbn [mbind option_bind].
  rewrite text_list_round. cbn [mbind option_bind]. rewrite H4. cbn [mbind option_bind]. rewrite isoformat_round by done.
  cbn [mbind option_bind]. rewrite strs_round. by destruct s.
Qed.

Lemma versions_round l : (∀ s, s ∈ l → ok_version s) → _versions_from_json (_versions_to_json l) = Some l.
Proof.
  intros Hl. unfold _versions_from_json, _versions_to_json. apply mapM_Some_2.
  induction l as [|x l IH]; constructor; [by apply version_round, Hl; left|]. apply IH. intros y Hy. apply Hl. by right.
Qed.

Lemma version_not_empty v : PayloadVersionRef_new v = Some v → non_empty_str v = Some v.
Proof.
  unfold non_empty_str, empty_str. intros Hv. case_bool_decide as He; [|done]. subst. revert Hv. by_compute.
Qed.

(** The current version of a sound payload is one of its versions. *)
Lemma current_ok p v : ok_payload p → PL.sound p → current_version p = Some v → PayloadVersionRef_new v = Some v.
Proof.
  intros Hok Hs Hc. rewrite (PL.so_current _ Hs) in Hc. destruct (last (versions p)) as [s|] eqn:Hl; [|done].
  injection Hc as <-. apply Hok. apply last_Some in Hl as (l & ->). apply elem_of_app. right. left.
Qed.

Lemma payload_round p : ok_payload p → PL.sound p →
  payload_from_row (payload_to_row p) = Some (p <| pl_pending_events := [] |>).
Proof.
  intros Hok Hs. destruct (Hok) as [H1 H2 H3 H4]. unfold payload_from_row. cbn [payload_to_row yr_id yr_tenant_id yr_payload_key
    yr_payload_type yr_impact_ceiling yr_approval_state yr_current_version yr_versions_json yr_engagement_classes_json
    yr_signature yr_created_at yr_updated_at yr_row_version].
  rewrite versions_round by done. cbn [mbind option_bind]. rewrite non_nil_ok by done. cbn [mbind option_bind].
  rewrite H2. cbn [mbind option_bind]. rewrite of_text_payload_type. cbn [mbind option_bind].
  rewrite of_text_impact. cbn [mbind option_bind]. rewrite of_text_payload_state. cbn [mbind option_bind].
  assert (match truthy_text (current_version p) with Some v => Some <$> PayloadVersionRef_new v | None => Some None end =
    Some (current_version p)) as ->.
  { destruct (current_version p) as [v|] eqn:Hc; [|done]. pose proof (current_ok p v Hok Hs Hc) as Hv.
    cbn [truthy_text mbind option_bind]. rewrite version_not_empty by done. by rewrite Hv. }
  cbn [mbind option_bind]. rewrite strs_round. cbn [mbind option_bind].
  assert (truthy_text (pl_signature p) = pl_signature p) as ->.
  { destruct (pl_signature p) as [s|]; [|done]. by apply H4. }
  by destruct p.
Qed.

Lemma plugin_round p : ok_plugin p → plugin_from_row (plugin_to_row p) = Some (p <| pg_pending_events := [] |>).
Proof.
  intros [H1 H2 H3 H4]. unfold plugin_from_row. cbn [plugin_to_row gr_id gr_tenant_id gr_name gr_plugin_type gr_plugin_version
    gr_plugin_hash gr_technique_ids_json gr_trust_level gr_approval_state gr_created_at gr_updated_at gr_row_version].
  rewrite non_nil_ok by done. cbn [mbind option_bind]. rewrite of_text_plugin_type. cbn [mbind option_bind].
  rewrite H2. cbn [mbind option_bind]. rewrite H3. cbn [mbind option_bind]. rewrite strs_round. cbn [mbind option_bind].
  rewrite H4. cbn [mbind option_bind]. rewrite of_text_trust. cbn [mbind option_bind]. rewrite of_text_plugin_state.
  by destruct p.
Qed.

#[global] Arguments payload_from_row : simpl never.
#[global] Arguments plugin_from_row : simpl never.

(** *** Queries *)

(** A selection that fixes a key has at most one row. *)
Lemma one_row {R K} (key : R → K) (P : R → Prop) `{∀ r, Decision (P r)} (k : K) (l : list R) :
  NoDup (map key l) → (∀ r, P r → key r = k) →
  (scalar_one_or_none (filter P l) = Ok None ∧ ∀ r, r ∈ l → ¬ P r) ∨
  ∃ r, scalar_one_or_none (filter P l) = Ok (Some r) ∧ r ∈ l ∧ P r.
Proof.
  intros Hnd Hk. destruct (filter P l) as [|r [|r' rest]] eqn:Hf.
  - left. split; [done|]. intros r Hr HP. apply (not_elem_of_nil r). rewrite <- Hf. by apply list_elem_of_filter.
  - right. exists r. split; [done|]. assert (r ∈ filter P l) as [? ?]%list_elem_of_filter by (rewrite Hf; left). done.
  - exfalso. assert (r ∈ filter P l) as [HP ?]%list_elem_of_filter by (rewrite Hf; left).
    assert (r' ∈ filter P l) as [HP' ?]%list_elem_of_filter by (rewrite Hf; right; left).
    assert (r = r') as Heq by (apply (nodup_key_inj key l); [done..|by rewrite (Hk r HP), (Hk r' HP')]).
    assert (NoDup (r :: r' :: rest)) as Hn by (rewrite <- Hf; by apply NoDup_filter, (NoDup_fmap_1 key)).
    apply NoDup_cons in Hn as [Hn _]. apply Hn. rewrite Heq. left.
Qed.

Lemma no_pending_payload p : pl_pending_events p = [] → p <| pl_pending_events := [] |> = p.
Proof. destruct p. simpl. by intros ->. Qed.
Lemma no_pending_plugin p : pg_pending_events p = [] → p <| pg_pending_events := [] |> = p.
Proof. destruct p. simpl. by intros ->. Qed.

Lemma stored_decodes db p : stored_payload db p → payload_from_row (payload_to_row p) = Some p.
Proof. intros [_ Hok Hs Hp]. by rewrite payload_round, no_pending_payload. Qed.
Lemma stored_plugin_decodes db p : stored_plugin db p → plugin_from_row (plugin_to_row p) = Some p.
Proof. intros [_ Hok Hp]. by rewrite plugin_round, no_pending_plugin. Qed.

(** The stored payload of an id is one. *)
Lemma stored_unique db p q : pl_good db → stored_payload db p → stored_payload db q → pl_id p = pl_id q → p = q.
Proof.
  intros Hg Hp Hq Hid. pose proof (stored_decodes _ _ Hp) as Hd. pose proof (stored_decodes _ _ Hq) as Hd'.
  assert (payload_to_row p = payload_to_row q) as Heq
    by (apply (nodup_key_inj yr_id (yb_payloads db)); [apply (yg_payload_ids _ Hg)|apply Hp|apply Hq|done]).
  rewrite Heq in Hd. congruence.
Qed.
Lemma stored_plugin_unique db p q : pl_good db → stored_plugin db p → stored_plugin db q → pg_id p = pg_id q → p = q.
Proof.
  intros Hg Hp Hq Hid. pose proof (stored_plugin_decodes _ _ Hp) as Hd. pose proof (stored_plugin_decodes _ _ Hq) as Hd'.
  assert (plugin_to_row p = plugin_to_row q) as Heq
    by (apply (nodup_key_inj gr_id (yb_plugins db)); [apply (yg_plugin_ids _ Hg)|apply Hp|apply Hq|done]).
  rewrite Heq in Hd. congruence.
Qed.

(** What a query for one payload answers. *)
Definition answers (db : PayloadDb) (P : Payload → Prop) (r : result PayloadStoreError (option Payload)) : Prop :=
  match r with
  | Ok (Some p) => stored_payload db p ∧ P p
  | Ok None => ∀ p, stored_payload db p → ¬ P p
  | Err _ => False
  end.

Lemma payload_query {K} (key : PayloadRow → K) (P : PayloadRow → Prop) `{∀ r, Decision (P r)} (k : K) db : pl_good db →
  NoDup (map key (yb_payloads db)) → (∀ r, P r → key r = k) →
  answers db (fun p => P (payload_to_row p)) (decode_found payload_from_row (scalar_one_or_none (filter P (yb_payloads db)))).
Proof.
  intros Hg Hnd Hk. destruct (one_row key P k (yb_payloads db) Hnd Hk) as [[-> Hno]|(r & -> & Hr & HP)].
  - intros p Hp. apply Hno, Hp.
  - destruct (yg_payloads _ Hg r Hr) as (p & -> & Hp). unfold decode_found, decoded_row. by rewrite (stored_decodes _ _ Hp).
Qed.

Section Repositories.
Context `{!RowOrder} `{!TenantColumns}.

Lemma find_payload_spec id t db : pl_good db →
  answers db (fun p => pl_id p = id ∧ pl_tenant_id p = t) (find_payload id t db).
Proof.
  intros Hg. apply (payload_query yr_id (fun r => yr_id r = id ∧ yr_tenant_id r = t) id db Hg (yg_payload_ids _ Hg)).
  by intros r [? _].
Qed.

Lemma find_by_key_spec key t db : pl_good db →
  answers db (fun p => payload_key p = key ∧ pl_tenant_id p = t) (find_by_key key t db).
Proof.
  intros Hg. apply (payload_query payload_index (fun r => yr_payload_key r = key ∧ yr_tenant_id r = t) (t, key) db Hg
    (yg_payload_keys _ Hg)). intros r [<- <-]. done.
Qed.

Lemma find_plugin_spec id t db : pl_good db →
  match find_plugin id t db with
  | Ok (Some p) => stored_plugin db p ∧ pg_id p = id ∧ pg_tenant_id p = t
  | Ok None => ∀ p, stored_plugin db p → ¬ (pg_id p = id ∧ pg_tenant_id p = t)
  | Err _ => False
  end.
Proof.
  intros Hg. unfold find_plugin.
  destruct (one_row gr_id (fun r => gr_id r = id ∧ gr_tenant_id r = t) id (yb_plugins db) (yg_plugin_ids _ Hg))
    as [[-> Hno]|(r & -> & Hr & HP)]; [by intros r [? _]| |].
  - intros p Hp. apply (Hno (plugin_to_row p)), Hp.
  - destruct (yg_plugins _ Hg r Hr) as (p & -> & Hp). unfold decode_found, decoded_row.
    by rewrite (stored_plugin_decodes _ _ Hp).
Qed.

(** A list answers stored payloads, and nothing that the mapping refuses. *)
Lemma list_payloads_spec t limit offset db : pl_good db →
  ∃ l, list_payloads_of t limit offset db = Ok l ∧ ∀ p, p ∈ l → stored_payload db p ∧ pl_tenant_id p = t.
Proof.
  intros Hg. unfold list_payloads_of. set (rows := page _ _ _ _).
  assert (∀ r, r ∈ rows → ∃ p, r = payload_to_row p ∧ stored_payload db p ∧ pl_tenant_id p = t) as Hrows.
  { intros r Hr. unfold rows, page in Hr. apply (subseteq_take _ _ r), (subseteq_drop _ _ r) in Hr. rewrite merge_sort_Permutation, select_order_perm in Hr.
    apply list_elem_of_filter in Hr as [Ht Hr]. destruct (yg_payloads _ Hg r Hr) as (p & -> & Hp). by exists p. }
  clearbody rows. assert (∃ l, mapM payload_from_row rows = Some l ∧
    ∀ p, p ∈ l → stored_payload db p ∧ pl_tenant_id p = t) as (l & -> & Hl); [|by exists l].
  induction rows as [|r rows IH]; [exists []; split; [done|]; by intros p Hp%not_elem_of_nil|].
  destruct (Hrows r) as (p & -> & Hp & Ht); [left|]. destruct IH as (l & Hm & Hl); [intros r Hr; apply Hrows; by right|].
  exists (p :: l). split; [cbn [mapM]; rewrite (stored_decodes _ _ Hp); cbn; by rewrite Hm|].
  intros q [->|Hq]%elem_of_cons; auto.
Qed.
End Repositories.

(** *** Saves *)

Lemma row_of_version p v : payload_to_row (p <| pl_version := v |>) = (payload_to_row p) <| yr_row_version := v |>.
Proof. by destruct p. Qed.

Lemma updated_payload q p : PL.fixed q = PL.fixed p → updated_payload_row p (payload_to_row q) = payload_to_row p.
Proof. destruct q, p. unfold PL.fixed. simpl. intros [= -> -> -> -> -> ->]. reflexivity. Qed.
Lemma updated_plugin q p : PG.manifest q = PG.manifest p → updated_plugin_row p (plugin_to_row q) = plugin_to_row p.
Proof. destruct q, p. unfold PG.manifest. simpl. intros [= -> -> -> -> -> -> -> -> ->]. reflexivity. Qed.

(** Tables with one row of payloads, or of plugins, new or replaced. *)
Record saved_payload (db db' : PayloadDb) (p : Payload) : Prop := {
  sp_good : pl_good db';
  sp_rows : upserted yr_id (pl_id p) (payload_to_row p) (yb_payloads db) (yb_payloads db');
  sp_plugins : yb_plugins db' = yb_plugins db
}.
Record saved_plugin (db db' : PayloadDb) (p : PluginRegistration) : Prop := {
  sn_good : pl_good db';
  sn_rows : upserted gr_id (pg_id p) (plugin_to_row p) (yb_plugins db) (yb_plugins db');
  sn_payloads : yb_payloads db' = yb_payloads db
}.

Lemma saved_payload_intro db rows p : pl_good db → ok_payload p → PL.sound p → NoDup (map payload_index rows) →
  upserted yr_id (pl_id p) (payload_to_row p) (yb_payloads db) rows → saved_payload db (db <| yb_payloads := rows |>) p.
Proof.
  intros [H1 H2 H3 H4 H5] Hok Hs Hk Hup. split; [|done|done]. split; simpl; try done; [apply Hup| |].
  - intros r Hr. pose proof (up_all _ _ _ _ _ Hup r Hr) as [->|[Hold Hne]].
    + exists (p <| pl_pending_events := [] |>). split; [by destruct p|]. destruct p, Hok, Hs. split; done || by split.
    + destruct (H4 r Hold) as (q & -> & [Hq ? ? ?]). exists q. by split.
  - intros r Hr. destruct (H5 r Hr) as (q & -> & [Hq ? ?]). exists q. by split.
Qed.

Lemma saved_plugin_intro db rows p : pl_good db → ok_plugin p →
  upserted gr_id (pg_id p) (plugin_to_row p) (yb_plugins db) rows → saved_plugin db (db <| yb_plugins := rows |>) p.
Proof.
  intros [H1 H2 H3 H4 H5] Hok Hup. split; [|done|done]. split; simpl; try done; [apply Hup| |].
  - intros r Hr. destruct (H4 r Hr) as (q & -> & [Hq ? ? ?]). exists q. by split.
  - intros r Hr. pose proof (up_all _ _ _ _ _ Hup r Hr) as [->|[Hold Hne]].
    + exists (p <| pg_pending_events := [] |>). split; [by destruct p|]. destruct p, Hok. split; done || by split.
    + destruct (H5 r Hold) as (q & -> & [Hq ? ?]). exists q. by split.
Qed.

Lemma ok_version_of p v : ok_payload p → ok_payload (p <| pl_version := v |>).
Proof. by destruct p; intros []; split. Qed.
Lemma sound_version_of p v : PL.sound p → 0 <= v → PL.sound (p <| pl_version := v |>).
Proof. by destruct p; intros [] ?; split. Qed.

Section Saves.
Context `{!RowOrder} `{!TenantColumns}.

(** When a save is accepted: the row is that of the tenant and of the version the
    payload was loaded with, or the id and the key are new. *)
Definition payload_saveable (db : PayloadDb) (p : Payload) : Prop :=
  (uuid_equals_ulid = true ∧ ∃ q, stored_payload db q ∧ pl_id q = pl_id p ∧ accepts (pl_version p) (pl_version q) = true) ∨
  (∀ q, stored_payload db q → pl_id q ≠ pl_id p ∧ (payload_key q, pl_tenant_id q) ≠ (payload_key p, pl_tenant_id p)).
Definition plugin_saveable (db : PayloadDb) (p : PluginRegistration) : Prop :=
  (uuid_equals_ulid = true ∧ ∃ q, stored_plugin db q ∧ pg_id q = pg_id p ∧ accepts (pg_version p) (pg_version q) = true) ∨
  (∀ q, stored_plugin db q → pg_id q ≠ pg_id p).

Lemma accepts_version v a : accepts v a = true → v = a ∨ v = a + 1.
Proof. unfold accepts. intros [Hv|Hv]%orb_true_iff; apply Z.eqb_eq in Hv; auto. Qed.

Lemma save_payload_spec p db : pl_good db → ok_payload p → PL.sound p →
  (∀ q, stored_payload db q → pl_id q = pl_id p → PL.fixed q = PL.fixed p) →
  match save_payload p db with
  | Ok (db', p') => saved_payload db db' p' ∧ ∃ v, p' = p <| pl_version := v |> ∧ 0 <= v ∧
      ∀ q, stored_payload db q → pl_id q = pl_id p → v = pl_version q + 1
  | Err _ => ¬ payload_saveable db p
  end.
Proof.
  intros Hg Hok Hs Hfix. unfold save_payload, payload_rows.
  destruct (one_row yr_id (fun r => yr_id r = pl_id p) (pl_id p) (yb_payloads db) (yg_payload_ids _ Hg))
    as [[-> Hno]|(r & -> & Hr & Hid)]; [done| |].
  - cbv zeta. case_bool_decide as Hk.
    + intros [(_ & q & Hq & Hid & _)|Hfree]; [by apply (Hno (payload_to_row q)), Hid; apply Hq|].
      apply list_elem_of_fmap in Hk as (r & Heq & Hr). destruct (yg_payloads _ Hg r Hr) as (q & -> & Hq).
      apply (Hfree q Hq). destruct p. unfold payload_index in Heq. simpl in *. congruence.
    + split; [|exists 1; split_and!; [done|done|]; intros q Hq Hid; exfalso; by apply (Hno (payload_to_row q)), Hid; apply Hq]. apply (saved_payload_intro db (yb_payloads db ++ [payload_to_row (p <| pl_version := 1 |>)]));
        [done|by apply ok_version_of|by apply sound_version_of|..].
      * rewrite map_app. apply NoDup_app. split_and!; [apply (yg_payload_keys _ Hg)| |apply NoDup_singleton].
        intros x Hx ->%list_elem_of_singleton. done.
      * apply (inserted_row yr_id (payload_to_row (p <| pl_version := 1 |>))); [apply (yg_payload_ids _ Hg)|].
        intros (r & Heq & Hr)%list_elem_of_fmap. apply (Hno r Hr). destruct p. simpl in *. congruence.
  - destruct (yg_payloads _ Hg r Hr) as (q & -> & Hq). pose proof (Hfix q Hq Hid) as Hf.
    assert (pl_tenant_id q = pl_tenant_id p) as Ht by (unfold PL.fixed in Hf; congruence).
    assert (∀ x, stored_payload db x → pl_id x = pl_id p → x = q) as Huniq
      by (intros x Hx Hxid; apply (stored_unique db); [done..|by rewrite Hxid, <- Hid]).
    unfold tenant_equal. cbn [payload_to_row yr_tenant_id yr_row_version]. rewrite Ht, bool_decide_eq_true_2 by done.
    destruct uuid_equals_ulid eqn:Hu; cbn [andb negb].
    2:{ intros [(Hu' & _)|Hfree]; [congruence|]. destruct (Hfree q Hq) as [Hn _]. exact (Hn Hid). }
    destruct (accepts (pl_version p) (pl_version q)) eqn:Hacc; cbn [negb].
    2:{ intros [(_ & x & Hx & Hxid & Hxa)|Hfree]; [rewrite (Huniq x Hx Hxid) in Hxa; congruence|]. destruct (Hfree q Hq) as [Hn _]. exact (Hn Hid). }
    cbv zeta. set (p' := p <| pl_version := pl_version q + 1 |>). set (hit := fun r => bool_decide _).
    assert (0 <= pl_version q) as Hv by apply Hq. assert (pl_id p' = pl_id p) as Hid' by (by destruct p).
    assert (hit (payload_to_row q) = true) as Hhit.
    { unfold hit. apply bool_decide_eq_true_2. cbn. unfold p'. destruct p. simpl in *. done. }
    rewrite (proj2 (existsb_exists hit (yb_payloads db))) by (exists (payload_to_row q); split; [by apply list_elem_of_In|done]).
    cbn [negb]. split; [|exists (pl_version q + 1); split_and!; [done|lia|]; intros x Hx Hxid; by rewrite (Huniq x Hx Hxid)].
    assert (PL.fixed q = PL.fixed p') as Hf' by (rewrite Hf; by destruct p).
    apply (saved_payload_intro db (map (fun r => if hit r then updated_payload_row p' r else r) (yb_payloads db)));
      [done|by apply ok_version_of|apply sound_version_of; [done|lia]|..].
    + rewrite map_map. replace (map _ _) with (map payload_index (yb_payloads db)); [apply (yg_payload_keys _ Hg)|].
      apply map_ext. intros r. destruct (hit r); [by destruct r|done].
    + rewrite <- (updated_payload q p' Hf'), Hid'. rewrite <- Hid.
      apply (updated_row yr_id hit (updated_payload_row p')); [apply (yg_payload_ids _ Hg)|done|done| |].
      * intros r Hh. unfold hit in Hh. apply bool_decide_eq_true in Hh as (-> & _). rewrite Hid'. by rewrite <- Hid.
      * by destruct q.
Qed.

Lemma save_plugin_spec p db : pl_good db → ok_plugin p → (∀ q, stored_plugin db q → pg_id q = pg_id p → PG.manifest q = PG.manifest p) →
  match save_plugin p db with
  | Ok (db', p') => saved_plugin db db' p' ∧ ∃ v, p' = p <| pg_version := v |> ∧
      ∀ q, stored_plugin db q → pg_id q = pg_id p → v = pg_version q + 1
  | Err _ => ¬ plugin_saveable db p
  end.
Proof.
  intros Hg Hok Hfix. assert (∀ v, ok_plugin (p <| pg_version := v |>)) as Hok' by (intros v; by destruct p, Hok; split).
  unfold save_plugin, plugin_rows.
  destruct (one_row gr_id (fun r => gr_id r = pg_id p) (pg_id p) (yb_plugins db) (yg_plugin_ids _ Hg))
    as [[-> Hno]|(r & -> & Hr & Hid)]; [done| |].
  - split; [|exists 1; split; [done|]; intros q Hq Hid; exfalso; by apply (Hno (plugin_to_row q)), Hid; apply Hq]. apply (saved_plugin_intro db (yb_plugins db ++ [plugin_to_row (p <| pg_version := 1 |>)])); [done|done|].
    apply (inserted_row gr_id (plugin_to_row (p <| pg_version := 1 |>))); [apply (yg_plugin_ids _ Hg)|].
    intros (r & Heq & Hr)%list_elem_of_fmap. apply (Hno r Hr). destruct p. simpl in *. congruence.
  - destruct (yg_plugins _ Hg r Hr) as (q & -> & Hq). pose proof (Hfix q Hq Hid) as Hf.
    assert (pg_tenant_id q = pg_tenant_id p) as Ht by (unfold PG.manifest in Hf; congruence).
    assert (∀ x, stored_plugin db x → pg_id x = pg_id p → x = q) as Huniq
      by (intros x Hx Hxid; apply (stored_plugin_unique db); [done..|by rewrite Hxid, <- Hid]).
    unfold tenant_equal. cbn [plugin_to_row gr_tenant_id gr_row_version]. rewrite Ht, bool_decide_eq_true_2 by done.
    destruct uuid_equals_ulid eqn:Hu; cbn [andb negb].
    2:{ intros [(Hu' & _)|Hfree]; [congruence|]. exact (Hfree q Hq Hid). }
    destruct (accepts (pg_version p) (pg_version q)) eqn:Hacc; cbn [negb].
    2:{ intros [(_ & x & Hx & Hxid & Hxa)|Hfree]; [rewrite (Huniq x Hx Hxid) in Hxa; congruence|]. exact (Hfree q Hq Hid). }
    cbv zeta. set (p' := p <| pg_version := pg_version q + 1 |>). set (hit := fun r => bool_decide _).
    assert (pg_id p' = pg_id p) as Hid' by (by destruct p).
    assert (hit (plugin_to_row q) = true) as Hhit.
    { unfold hit. apply bool_decide_eq_true_2. cbn. unfold p'. destruct p. simpl in *. done. }
    rewrite (proj2 (existsb_exists hit (yb_plugins db))) by (exists (plugin_to_row q); split; [by apply list_elem_of_In|done]).
    cbn [negb]. split; [|exists (pg_version q + 1); split; [done|]; intros x Hx Hxid; by rewrite (Huniq x Hx Hxid)].
    assert (PG.manifest q = PG.manifest p') as Hf' by (rewrite Hf; by destruct p).
    apply (saved_plugin_intro db (map (fun r => if hit r then updated_plugin_row p' r else r) (yb_plugins db))); [done|apply Hok'|].
    rewrite <- (updated_plugin q p' Hf'), Hid'. rewrite <- Hid.
    apply (updated_row gr_id hit (updated_plugin_row p')); [apply (yg_plugin_ids _ Hg)|done|done| |].
    + intros r Hh. unfold hit in Hh. apply bool_decide_eq_true in Hh as (-> & _). rewrite Hid'. by rewrite <- Hid.
    + by destruct q.
Qed.
End Saves.
