(* ===== verification/PayloadApp.v ===== *)
(** [payload.PayloadApplicationService]: payloads and plugins are registered, approved,
    verified and revoked, each command in a unit of work; a revocation asks the
    operation context, through a port, to supersede the plans that use the payload. *)
From stdpp Require Import base tactics list strings sets relations.
From Stdlib Require Import ZArith Lia.
From S2P Require Import Prelude PyTypes PyParse PyStore PyRegex PayloadData PayloadAggregate PluginRegistration PayloadStore.

Local Open Scope Z_scope.

(** [IPlanInvalidationPort], with the state behind it and what it raises. *)
Class PlanInvalidationPort := {
  Plans : Type;
  PlanError : Type;
  invalidate_plans_for_payload : TenantId → uuid → PyM Plans PlanError nat
}.

(** [DegradedPlanInvalidationAdapter]: its state is the calls it records. *)
Definition DegradedPlanInvalidationAdapter : PlanInvalidationPort := {|
  Plans := list (TenantId * uuid);
  PlanError := Empty_set;
  invalidate_plans_for_payload t payload := (modify (fun l => l ++ [(t, payload)]);; mret 0%nat)
|}.

(** ** The world of the service *)

(** The reason of a validation error: a text, or [str(exc)] of the [ValueError] of a
    constructor. *)
Inductive Reason := Because (text : string) | OfValueError.

(** The message of a conflict: a key that is taken, or [str(exc)]. *)
Inductive Conflict := KeyRegistered (key : string) | OfException (e : PayloadException).

Section Service.
Context `{!PlanInvalidationPort} `{!RowOrder} `{!TenantColumns}.

Inductive PlError :=
  | ApplicationValidationError (field : string) (reason : Reason)
  | ApplicationNotFoundError (resource resource_id : string)
  | ApplicationConflictError (message : Conflict)
  | ApplicationIntegrityError (payload_id expected_hash computed_hash : string)
  | Domain (e : PayloadException)
  | Store (e : PayloadStoreError)
  | PortFailure (e : PlanError).

Inductive PlPublished :=
  | OfPayload (e : DomainEvent PayloadEvent)
  | OfPlugin (e : DomainEvent PluginEvent).

(** What the open session sees, the durable tables, what was handed to the publisher,
    and the state behind the port. *)
Record World := mkWorld { w_view : PayloadDb; w_db : PayloadDb; w_published : list PlPublished; w_plans : Plans }.
#[export] Instance World_settable : Settable World := fun w => mkWorld (w_view w) (w_db w) (w_published w) (w_plans w).

Definition empty_world (plans : Plans) : World := mkWorld empty_payload_db empty_payload_db [] plans.

Abbreviation App := (PyM World PlError).

(** [async with self._uow_factory() as uow: body]: a new session; what is not
    committed is rolled back. *)
Definition in_uow {A} (body : App A) : App A := fun w =>
  let '(r, w') := body (w <| w_view := w_db w |>) in (r, w' <| w_view := w_db w' |>).

(** [uow.commit()] *)
Definition uow_commit : App unit := modify (fun w => w <| w_db := w_view w |>).

(** A query and a save of a repository. *)
Definition query {A} (q : PayloadDb → result PayloadStoreError A) : App A := fun w =>
  match q (w_view w) with Ok a => (Ok a, w) | Err e => (Err (Store e), w) end.
Definition write {O} (f : O → PayloadDb → result PayloadStoreError (PayloadDb * O)) (o : O) : App O := fun w =>
  match f o (w_view w) with
  | Ok (db, o') => (Ok o', w <| w_view := db |>)
  | Err e => (Err (Store e), w)
  end.

(** The port. *)
Definition in_plans {A} (m : PyM Plans PlanError A) : App A := fun w =>
  match m (w_plans w) with
  | (Ok a, p) => (Ok a, w <| w_plans := p |>)
  | (Err e, p) => (Err (PortFailure e), w <| w_plans := p |>)
  end.

(** [_publish]: a failing publisher is logged and ignored; the events handed to it
    are recorded. *)
Definition _publish (events : list PlPublished) : App unit :=
  modify (fun w => w <| w_published ::= fun l => l ++ events |>).

(** ** Validation *)

(** [validate_uuid] of a [UUID]; an [EntityId] always passes. *)
Definition validate_uuid (value : uuid) (field : string) : App unit :=
  raise_if (value =? 0) (ApplicationValidationError field (Because "must be a valid non-nil UUID")).

(** [validate_str] with [allow_empty=False] *)
Definition validate_str (value field : string) (max_len : nat) : App unit :=
  raise_if (bool_decide (String.length value = 0%nat)) (ApplicationValidationError field (Because "must not be empty"));;
  raise_if (bool_decide (max_len < String.length value)%nat)
    (ApplicationValidationError field (Because ("must be at most " +:+ str_int (Z.of_nat max_len) +:+ " characters"))).

Definition validate_limit (value : Z) : App Z :=
  raise_if (value <? 1) (ApplicationValidationError "limit" (Because "must be 1-1000"));;
  mret (Z.max 1 (Z.min value 1000)).

Definition validate_offset (value : Z) : App Z :=
  raise_if (value <? 0) (ApplicationValidationError "offset" (Because "must be >= 0"));;
  mret value.

(** [try: X(value) except ValueError as exc: raise ApplicationValidationError(field, str(exc))] *)
Definition parse {A} (field : string) (x : option A) : App A :=
  match x with Some a => mret a | None => raise (ApplicationValidationError field OfValueError) end.

(** ** Data transfer objects *)

Record PayloadDTO := mkPayloadDTO {
  yd_payload_id : string; yd_tenant_id : TenantId; yd_payload_key : string; yd_payload_type : string;
  yd_impact_ceiling : string; yd_approval_state : string; yd_current_version : option string;
  yd_versions : list PayloadVersionSnapshot; yd_engagement_classes : list string; yd_version : Z;
  yd_created_at : datetime; yd_updated_at : datetime }.

(** [PayloadVersionDTO] has the fields of a snapshot. *)
Definition _payload_dto (p : Payload) : PayloadDTO :=
  mkPayloadDTO (str_uuid (pl_id p)) (pl_tenant_id p) (payload_key p) (PayloadType.value (payload_type p))
    (ImpactCeiling.value (impact_ceiling p)) (PayloadApprovalState.value (approval_state p)) (current_version p)
    (versions p) (approved_for p) (pl_version p) (pl_created_at p) (pl_updated_at p).

Record PluginDTO := mkPluginDTO {
  gd_plugin_id : string; gd_tenant_id : TenantId; gd_name : string; gd_plugin_type : string; gd_plugin_version : string;
  gd_plugin_hash : string; gd_technique_ids : list string; gd_trust_level : string; gd_approval_state : string;
  gd_version : Z; gd_created_at : datetime; gd_updated_at : datetime }.

Definition _plugin_dto (p : PluginRegistration) : PluginDTO :=
  mkPluginDTO (str_uuid (pg_id p)) (pg_tenant_id p) (pg_name p) (PluginType.value (plugin_type p)) (plugin_version p)
    (plugin_hash p) (capabilities p) (PluginTrustLevel.value (trust_level p))
    (PluginApprovalState.value (pg_approval_state p)) (pg_version p) (pg_created_at p) (pg_updated_at p).

Record HashVerificationResultDTO := mkHashResult { hd_payload_id : string; hd_status : string; hd_payload_hash : string }.

(** ** Steps of a unit of work *)

Definition load_payload (id : uuid) (t : TenantId) : App Payload :=
  found ← query (find_payload id t);
  match found with Some p => mret p | None => raise (ApplicationNotFoundError "Payload" (str_uuid id)) end.

Definition load_plugin (id : uuid) (t : TenantId) : App PluginRegistration :=
  found ← query (find_plugin id t);
  match found with Some p => mret p | None => raise (ApplicationNotFoundError "PluginRegistration" (str_uuid id)) end.

(** A method of a loaded object; the exceptions that [caught] names become
    conflicts. *)
Definition on_object {O} (caught : PayloadException → bool) (m : PyM O PayloadException unit) (o : O) : App O :=
  match m o with
  | (Ok _, o') => mret o'
  | (Err e, _) => raise (if caught e then ApplicationConflictError (OfException e) else Domain e)
  end.

(** [save], [commit] and [_publish] of one aggregate. *)
Definition finish_payload (p : Payload) : App Payload :=
  p ← write save_payload p;
  uow_commit;;
  _publish (map OfPayload (pl_pending_events p));;
  mret (p <| pl_pending_events := [] |>).
Definition finish_plugin (p : PluginRegistration) : App PluginRegistration :=
  p ← write save_plugin p;
  uow_commit;;
  _publish (map OfPlugin (pg_pending_events p));;
  mret (p <| pg_pending_events := [] |>).

Definition is_transition (e : PayloadException) : bool := match e with InvalidStateTransition _ _ _ => true | _ => false end.
Definition is_revoked (e : PayloadException) : bool := match e with PayloadRevokedError _ => true | _ => false end.
Definition is_ciso (e : PayloadException) : bool := match e with CisoApprovalRequired _ => true | _ => false end.
Definition is_not_approved (e : PayloadException) : bool := match e with PayloadNotApproved _ _ => true | _ => false end.

(** ** Commands

    [PayloadId(...)] and [OperatorId(...)] of an id that was validated do not
    raise. *)

Definition register_payload (t : TenantId) (key type_ ceiling : string) (classes : list string) (new_id : uuid) (now : datetime)
    : App PayloadDTO :=
  validate_str key "payload_key" 256;;
  key ← parse "payload" (PayloadKey_new key);
  ty ← parse "payload" (of_text PayloadType.value PayloadType.all type_);
  ceiling ← parse "payload" (of_text ImpactCeiling.value ImpactCeiling.all ceiling);
  in_uow (
    existing ← query (find_by_key key t);
    raise_if (bool_decide (existing ≠ None)) (ApplicationConflictError (KeyRegistered key));;
    p ← finish_payload (PL.register new_id t key ty ceiling classes now);
    mret (_payload_dto p)).

Definition publish_payload_version (t : TenantId) (id : uuid) (version hash storage : string) (techniques refs : list string)
    (now : datetime) : App PayloadDTO :=
  validate_uuid id "payload_id";;
  validate_str version "version" 64;;
  validate_str hash "payload_hash" 64;;
  validate_str storage "storage_ref" 512;;
  version ← parse "version" (PayloadVersionRef_new version);
  hash ← parse "version" (PayloadHash_new hash);
  storage ← parse "version" (PayloadStorageRef_new storage);
  techniques ← parse "version" (PayloadCapabilities_new techniques);
  in_uow (
    p ← load_payload id t;
    p ← on_object (fun e => is_revoked e || is_transition e) (PL.publish_version t version hash storage techniques now refs) p;
    p ← finish_payload p;
    mret (_payload_dto p)).

Definition approve_payload (t : TenantId) (id approved_by : uuid) (sig : string) (ciso_approved : bool)
    (classes : option (list string)) (now : datetime) : App PayloadDTO :=
  validate_uuid id "payload_id";;
  validate_uuid approved_by "approved_by";;
  validate_str sig "signature" 4096;;
  in_uow (
    p ← load_payload id t;
    p ← on_object (fun e => is_ciso e || is_transition e) (PL.approve t approved_by sig now ciso_approved classes) p;
    p ← finish_payload p;
    mret (_payload_dto p)).

Definition deprecate_payload (t : TenantId) (id : uuid) (reason : string) (now : datetime) : App PayloadDTO :=
  validate_uuid id "payload_id";;
  validate_str reason "reason" 2048;;
  in_uow (
    p ← load_payload id t;
    p ← on_object is_transition (PL.deprecate t reason now) p;
    p ← finish_payload p;
    mret (_payload_dto p)).

(** The cascade comes after the commit. *)
Definition revoke_payload (t : TenantId) (id : uuid) (reason : string) (revoked_by : uuid) (now : datetime) : App PayloadDTO :=
  validate_uuid id "payload_id";;
  validate_uuid revoked_by "revoked_by";;
  validate_str reason "reason" 2048;;
  p ← in_uow (
    p ← load_payload id t;
    p ← on_object is_transition (PL.revoke t reason revoked_by now) p;
    p ← finish_payload p;
    mret p);
  in_plans (invalidate_plans_for_payload t id);;
  mret (_payload_dto p).

Definition verify_tx (t : TenantId) (id : uuid) (computed : string) (now : datetime) : App HashVerificationResultDTO :=
  p ← load_payload id t;
  match PL.verify_hash t computed now p with
  | (Err (PayloadHashMismatch _ expected computed), p) =>
      finish_payload p;;
      raise (ApplicationIntegrityError (str_uuid id) expected computed)
  | (Err e, _) => raise (if is_revoked e || is_not_approved e then ApplicationConflictError (OfException e) else Domain e)
  | (Ok _, p) =>
      p ← finish_payload p;
      match PL.assert_dispatchable p with
      | (Ok snap, _) => mret (mkHashResult (str_uuid (pl_id p)) "Verified" (vs_payload_hash snap))
      | (Err e, _) => raise (Domain e)
      end
  end.

Definition verify_payload_hash (t : TenantId) (id : uuid) (computed_hash : string) (now : datetime)
    : App HashVerificationResultDTO :=
  validate_uuid id "payload_id";;
  validate_str computed_hash "computed_hash" 64;;
  computed ← parse "computed_hash" (PayloadHash_new computed_hash);
  in_uow (verify_tx t id computed now).

Definition register_plugin (t : TenantId) (name type_ version hash : string) (techniques : list string) (trust : string)
    (new_id : uuid) (now : datetime) : App PluginDTO :=
  validate_str name "name" 256;;
  validate_str hash "plugin_hash" 64;;
  ty ← parse "plugin" (of_text PluginType.value PluginType.all type_);
  trust ← parse "plugin" (of_text PluginTrustLevel.value PluginTrustLevel.all trust);
  hash ← parse "plugin" (PluginHash_new hash);
  techniques ← parse "plugin" (PluginCapabilities_new techniques);
  version ← parse "plugin" (PluginVersion_new version);
  in_uow (
    match PG.register new_id t name ty version hash techniques trust now with
    | Err e => raise (Domain e)
    | Ok p =>
        p ← finish_plugin p;
        mret (_plugin_dto p)
    end).

Definition approve_plugin (t : TenantId) (id approved_by : uuid) (now : datetime) : App PluginDTO :=
  validate_uuid id "plugin_id";;
  validate_uuid approved_by "approved_by";;
  in_uow (
    p ← load_plugin id t;
    p ← on_object is_transition (PG.approve t approved_by now) p;
    p ← finish_plugin p;
    mret (_plugin_dto p)).

Definition revoke_plugin (t : TenantId) (id : uuid) (reason : string) (revoked_by : uuid) (now : datetime) : App PluginDTO :=
  validate_uuid id "plugin_id";;
  validate_uuid revoked_by "revoked_by";;
  validate_str reason "reason" 2048;;
  in_uow (
    p ← load_plugin id t;
    p ← on_object is_transition (PG.revoke t reason revoked_by now) p;
    p ← finish_plugin p;
    mret (_plugin_dto p)).

(** ** Queries *)

Definition get_payload (t : TenantId) (id : uuid) : App PayloadDTO :=
  validate_uuid id "payload_id";;
  in_uow (p ← load_payload id t; mret (_payload_dto p)).

Definition list_payloads (t : TenantId) (limit offset : Z) : App (list PayloadDTO) :=
  limit ← validate_limit limit;
  offset ← validate_offset offset;
  in_uow (items ← query (list_payloads_of t limit offset); mret (map _payload_dto items)).

Definition get_plugin (t : TenantId) (id : uuid) : App PluginDTO :=
  validate_uuid id "plugin_id";;
  in_uow (p ← load_plugin id t; mret (_plugin_dto p)).

Definition list_plugins (t : TenantId) (limit offset : Z) : App (list PluginDTO) :=
  limit ← validate_limit limit;
  offset ← validate_offset offset;
  in_uow (items ← query (list_plugins_of t limit offset); mret (map _plugin_dto items)).

(** ** The commands as one type *)

Inductive command :=
  | RegisterPayload (t : TenantId) (key type_ ceiling : string) (classes : list string) (new_id : uuid)
  | PublishPayloadVersion (t : TenantId) (id : uuid) (version hash storage : string) (techniques refs : list string)
  | ApprovePayload (t : TenantId) (id approved_by : uuid) (sig : string) (ciso : bool) (classes : option (list string))
  | DeprecatePayload (t : TenantId) (id : uuid) (reason : string)
  | RevokePayload (t : TenantId) (id : uuid) (reason : string) (revoked_by : uuid)
  | VerifyPayloadHash (t : TenantId) (id : uuid) (computed_hash : string)
  | RegisterPlugin (t : TenantId) (name type_ version hash : string) (techniques : list string) (trust : string) (new_id : uuid)
  | ApprovePlugin (t : TenantId) (id approved_by : uuid)
  | RevokePlugin (t : TenantId) (id : uuid) (reason : string) (revoked_by : uuid)
  | GetPayload (t : TenantId) (id : uuid)
  | ListPayloads (t : TenantId) (limit offset : Z)
  | GetPlugin (t : TenantId) (id : uuid)
  | ListPlugins (t : TenantId) (limit offset : Z).

Definition run_command (now : datetime) (c : command) : App unit :=
  match c with
  | RegisterPayload t k ty ce cl i => register_payload t k ty ce cl i now;; mret tt
  | PublishPayloadVersion t i v h s ts rs => publish_payload_version t i v h s ts rs now;; mret tt
  | ApprovePayload t i o s c cl => approve_payload t i o s c cl now;; mret tt
  | DeprecatePayload t i r => deprecate_payload t i r now;; mret tt
  | RevokePayload t i r o => revoke_payload t i r o now;; mret tt
  | VerifyPayloadHash t i h => verify_payload_hash t i h now;; mret tt
  | RegisterPlugin t n ty v h ts tr i => register_plugin t n ty v h ts tr i now;; mret tt
  | ApprovePlugin t i o => approve_plugin t i o now;; mret tt
  | RevokePlugin t i r o => revoke_plugin t i r o now;; mret tt
  | GetPayload t i => get_payload t i;; mret tt
  | ListPayloads t l o => list_payloads t l o;; mret tt
  | GetPlugin t i => get_plugin t i;; mret tt
  | ListPlugins t l o => list_plugins t l o;; mret tt
  end.

(** [uuid7()] gives a new aggregate an id that is not nil and not in use; clocks give
    times in range. *)
Definition command_ok (c : command) (w : World) : Prop :=
  match c with
  | RegisterPayload _ _ _ _ _ i => i ≠ 0 ∧ i ∉ map yr_id (yb_payloads (w_db w))
  | RegisterPlugin _ _ _ _ _ _ _ i => i ≠ 0 ∧ i ∉ map gr_id (yb_plugins (w_db w))
  | _ => True
  end.

(** A world that commands lead to. *)
Inductive reachable_world : World → Prop :=
  | rw_empty plans : reachable_world (empty_world plans)
  | rw_command w c now : reachable_world w → command_ok c w → datetime_ok now → reachable_world (run_command now c w).2.

(** Commands, each with the time it reads. *)
Definition run_commands (cs : list (command * datetime)) (w : World) : World :=
  foldl (fun w c => (run_command c.2 c.1 w).2) w cs.
End Service.

(** ** Specification *)

(** What is stored stays stored, and has only been called. *)
Record grows (db db' : PayloadDb) : Prop := {
  gr_payloads : ∀ p, stored_payload db p → ∃ p', stored_payload db' p' ∧ PL.step p p';
  gr_plugins : ∀ p, stored_plugin db p → ∃ p', stored_plugin db' p' ∧ PG.step p p'
}.
#[export] Instance payload_grows_preorder : PreOrder grows.
Proof.
  split; [intros db; split; intros p Hp; by exists p|]. intros a b c [Y1 G1] [Y2 G2]. split; intros p Hp.
  - destruct (Y1 p Hp) as (q & Hq & S1). destruct (Y2 q Hq) as (r & Hr & S2). exists r. split; [done|by etrans].
  - destruct (G1 p Hp) as (q & Hq & S1). destruct (G2 q Hq) as (r & Hr & S2). exists r. split; [done|by etrans].
Qed.

(** ** Lemmas *)

(** *** Calls *)

(** The arguments of a call are what the constructors accept. *)
Definition call_args_ok (c : PL.call) : Prop :=
  match c with
  | PL.PPublish _ v h s ts now refs => ok_version (mkVersionSnapshot v h s ts now refs)
  | PL.PApprove _ _ sig _ _ _ => PayloadSignature_new sig = Some sig
  | _ => True
  end.

Lemma payload_call_ok c x : ok_payload x → call_args_ok c → wp (PL.run_call c) (λ _, ok_payload) (λ _, ok_payload) x.
Proof.
  intros Hok Hargs. destruct c; simpl in Hargs |- *; PL.unfold_payload; wp_run; stable; try exact Hok;
    split; try apply Hok; simpl; try (intros ? [= <-]; done).
  all: intros y [Hy| ->%list_elem_of_singleton]%elem_of_app; [by apply Hok|done].
Qed.

(** Which results of a call are saved: an answer, and a hash that does not match. *)
Definition saved_result (r : result PayloadException unit) : bool :=
  match r with Ok _ => true | Err (PayloadHashMismatch _ _ _) => true | Err _ => false end.
Definition saves (c : PL.call) : bool := match c with PL.PPopEvents => false | _ => true end.

(** A revoked payload is never saved again. *)
Lemma saved_call_live c x r x' : saves c = true → PL.run_call c x = (r, x') → saved_result r = true →
  approval_state x ≠ PayloadApprovalState.REVOKED.
Proof.
  intros Hc Hrun. assert (wp (PL.run_call c) (λ _ _, approval_state x ≠ PayloadApprovalState.REVOKED)
    (λ e _, saved_result (Err e) = true → approval_state x ≠ PayloadApprovalState.REVOKED) x) as Hwp.
  { destruct c; simpl in Hc |- *; PL.unfold_payload; wp_run; stable; try done.
    all: try (by intros _).
    all: intros Hr; simpl in *; rewrite Hr in *; first [done|match goal with Hin : _ ∈ _ |- _ => revert Hin; by_compute end]. }
  unfold wp in Hwp. rewrite Hrun in Hwp. destruct r; [by intros _|done].
Qed.

(** A plugin that answers a call moves forward by one version. *)
Definition plugin_moves (c : PG.call) : bool := match c with PG.GPopEvents => false | _ => true end.

Lemma plugin_call_moves c x : plugin_moves c = true → ok_plugin x →
  wp (PG.run_call c) (λ _ x', ok_plugin x' ∧ pg_version x' = pg_version x + 1 ∧
    (PG.rank (pg_approval_state x) < PG.rank (pg_approval_state x'))%nat) (λ _ _, True) x.
Proof.
  intros Hc Hok. destruct c; simpl in Hc |- *; try done;
    unfold PG.approve, PG.revoke, PG._assert_tenant, PG._transition, PG._mutate, PG._emit; wp_run; stable; try done.
  all: split_and!; [by destruct Hok; split|simpl; lia|].
  all: match goal with H : _ ∈ PG._ALLOWED ?st |- _ => revert H; simpl; destruct st; by_compute end.
Qed.

(** *** Saved payloads and plugins *)

(** A payload as its save leaves it. *)
Definition saved_as (p : Payload) (v : Z) : Payload := (p <| pl_version := v |>) <| pl_pending_events := [] |>.
Definition saved_plugin_as (p : PluginRegistration) (v : Z) : PluginRegistration :=
  (p <| pg_version := v |>) <| pg_pending_events := [] |>.

Lemma saved_as_step q p : PL.step q p → approval_state q ≠ PayloadApprovalState.REVOKED → 0 <= pl_version q →
  PL.step q (saved_as p (pl_version q + 1)).
Proof.
  intros [Hf Hs Hv Hr _ _] Hq H0. split; [by rewrite <- Hf; destruct p| |by destruct p|by destruct p|done|destruct p; simpl; lia].
  intros Hsq. specialize (Hs Hsq). destruct p, Hs. split; simpl in *; done || lia.
Qed.

Lemma saved_plugin_step q p : PG.step q p → pg_version p = pg_version q + 1 → PG.step q (saved_plugin_as p (pg_version q + 1)).
Proof.
  intros [Hf Hr Hv Hu] Hp. split; [by rewrite <- Hf; destruct p|by destruct p|destruct p; simpl in *; lia|by destruct p].
Qed.

Lemma stored_after db db' p v : ok_payload p → PL.sound p → 0 <= v → saved_payload db db' (p <| pl_version := v |>) →
  stored_payload db' (saved_as p v).
Proof.
  intros Hok Hs Hv [_ [_ Hnew _ _] _]. destruct p, Hok, Hs. split; [exact Hnew|by split|by split|done].
Qed.
Lemma stored_plugin_after db db' p v : ok_plugin p → saved_plugin db db' (p <| pg_version := v |>) →
  stored_plugin db' (saved_plugin_as p v).
Proof. intros Hok [_ [_ Hnew _ _] _]. destruct p, Hok. split; [exact Hnew|by split|done]. Qed.

Lemma payload_grows db db' p v : pl_good db → ok_payload p → PL.sound p → 0 <= v →
  saved_payload db db' (p <| pl_version := v |>) →
  (∀ q, stored_payload db q → pl_id q = pl_id p → PL.step q (saved_as p v)) → grows db db'.
Proof.
  intros Hg Hok Hs Hv Hsv Hstep. pose proof (stored_after _ _ _ _ Hok Hs Hv Hsv) as Hst. destruct Hsv as [_ [_ _ Hkept _] Hpl].
  split; intros q Hq.
  - destruct (decide (pl_id q = pl_id p)) as [Heq|Hne]; [exists (saved_as p v); auto|]. exists q. split; [|done].
    destruct Hq as [Hr ? ? ?]. split; [|done..]. apply Hkept; [done|]. by destruct p.
  - exists q. split; [|done]. destruct Hq as [Hr ? ?]. split; [by rewrite Hpl|done..].
Qed.

Lemma plugin_grows db db' p v : pl_good db → ok_plugin p → saved_plugin db db' (p <| pg_version := v |>) →
  (∀ q, stored_plugin db q → pg_id q = pg_id p → PG.step q (saved_plugin_as p v)) → grows db db'.
Proof.
  intros Hg Hok Hsv Hstep. pose proof (stored_plugin_after _ _ _ _ Hok Hsv) as Hst. destruct Hsv as [_ [_ _ Hkept _] Hpl].
  split; intros q Hq.
  - exists q. split; [|done]. destruct Hq as [Hr ? ? ?]. split; [by rewrite Hpl|done..].
  - destruct (decide (pg_id q = pg_id p)) as [Heq|Hne]; [exists (saved_plugin_as p v); auto|]. exists q. split; [|done].
    destruct Hq as [Hr ? ?]. split; [|done..]. apply Hkept; [done|]. by destruct p.
Qed.

(** *** Units of work *)

Section Transactions.
Context `{!PlanInvalidationPort} `{!RowOrder} `{!TenantColumns}.

(** Nothing that lasts has changed. *)
Definition rolled_back (w w' : World) : Prop :=
  w_db w' = w_db w ∧ w_published w' = w_published w ∧ w_plans w' = w_plans w.

(** A unit of work that has only read. *)
Definition in_tx (w w1 : World) : Prop := w_view w1 = w_db w ∧ rolled_back w w1.

(** A unit of work that has committed, with the events it published. *)
Record committed (w w' : World) (events : list PlPublished) : Prop := {
  cm_good : pl_good (w_db w');
  cm_grows : grows (w_db w) (w_db w');
  cm_published : w_published w' = w_published w ++ events;
  cm_plans : w_plans w' = w_plans w
}.

Lemma wp_pl_uow {A} (body : PyM World PlError A) (Q : A → World → Prop) X w :
  (∀ w1, in_tx w w1 → wp body (λ a w2, ∀ w3, rolled_back w2 w3 → Q a w3) (λ e w2, ∀ w3, rolled_back w2 w3 → X e w3) w1) →
  wp (in_uow body) Q X w.
Proof.
  intros Hb. specialize (Hb (w <| w_view := w_db w |>)). unfold wp, in_uow in *.
  destruct (body _) as [[a|e] w2]; apply Hb; split; done.
Qed.

Lemma wp_pl_query {A} (q : PayloadDb → result PayloadStoreError A) (Q : A → World → Prop) X w w1 : in_tx w w1 →
  (∀ a, q (w_db w) = Ok a → Q a w1) → (∀ e, q (w_db w) = Err e → X (Store e) w1) → wp (query q) Q X w1.
Proof. intros [Hv _] HQ HX. unfold wp, query. rewrite Hv. destruct (q (w_db w)); auto. Qed.

Lemma wp_load_payload id t (Q : Payload → World → Prop) X w w1 : pl_good (w_db w) → in_tx w w1 →
  (∀ p, stored_payload (w_db w) p → pl_id p = id → pl_tenant_id p = t → Q p w1) →
  ((∀ p, stored_payload (w_db w) p → ¬ (pl_id p = id ∧ pl_tenant_id p = t)) →
     X (ApplicationNotFoundError "Payload" (str_uuid id)) w1) → wp (load_payload id t) Q X w1.
Proof.
  intros Hg Hw HQ HX. unfold load_payload. wp_step. pose proof (find_payload_spec id t _ Hg) as Hf.
  apply (wp_pl_query _ _ _ w); [done| |]; intros r Hr; rewrite Hr in Hf; [|done]. destruct r as [p|]; wp_run; [|by apply HX].
  destruct Hf as (Hst & Hid & Ht). by apply HQ.
Qed.

Lemma wp_load_plugin id t (Q : PluginRegistration → World → Prop) X w w1 : pl_good (w_db w) → in_tx w w1 →
  (∀ p, stored_plugin (w_db w) p → pg_id p = id → pg_tenant_id p = t → Q p w1) →
  (X (ApplicationNotFoundError "PluginRegistration" (str_uuid id)) w1) → wp (load_plugin id t) Q X w1.
Proof.
  intros Hg Hw HQ HX. unfold load_plugin. wp_step. pose proof (find_plugin_spec id t _ Hg) as Hf.
  apply (wp_pl_query _ _ _ w); [done| |]; intros r Hr; rewrite Hr in Hf; [|done]. destruct r as [p|]; wp_run; [|by apply HX].
  destruct Hf as (Hst & Hid & Ht). by apply HQ.
Qed.

Lemma wp_pl_object {O} (caught : PayloadException → bool) (m : PyM O PayloadException unit) o (Q : O → World → Prop) X w :
  (∀ o', m o = (Ok tt, o') → Q o' w) →
  (∀ e o', m o = (Err e, o') → X (if caught e then ApplicationConflictError (OfException e) else Domain e) w) →
  wp (on_object caught m o) Q X w.
Proof. intros HQ HX. unfold on_object. destruct (m o) as [[[]|e] o'] eqn:Hm; wp_run; [by apply HQ|by eapply HX]. Qed.

(** Saving a payload that is new, or was loaded and called. *)
Lemma wp_finish_payload p (Q : Payload → World → Prop) X w w1 : pl_good (w_db w) → in_tx w w1 → ok_payload p → PL.sound p →
  (∀ q, stored_payload (w_db w) q → pl_id q = pl_id p → PL.step q p ∧ approval_state q ≠ PayloadApprovalState.REVOKED) →
  (∀ v w2, committed w w2 (map OfPayload (pl_pending_events p)) → stored_payload (w_db w2) (saved_as p v) →
     Q (saved_as p v) w2) →
  (∀ e, ¬ payload_saveable (w_db w) p → X (Store e) w1) → wp (finish_payload p) Q X w1.
Proof.
  intros Hg [Hv (Hd & Hp & Hpl)] Hok Hs Hstep HQ HX. unfold finish_payload. wp_step. unfold wp, write. rewrite Hv.
  pose proof (save_payload_spec p (w_db w) Hg Hok Hs) as Hsave.
  destruct (save_payload p (w_db w)) as [[db' p']|e]; [|apply HX, Hsave; intros q Hq Hid; symmetry; by apply Hstep].
  destruct Hsave as (Hsv & v & -> & Hv0 & Hver); [intros q Hq Hid; symmetry; by apply Hstep|].
  assert (grows (w_db w) db') as Hgr.
  { apply (payload_grows _ _ p v); try done. intros q Hq Hid. rewrite (Hver q Hq Hid). destruct (Hstep q Hq Hid).
    apply saved_as_step; [done..|apply Hq]. }
  apply (HQ v); [|by apply (stored_after (w_db w))]. split; simpl; [apply Hsv|done| |done]. by destruct p; rewrite Hp.
Qed.

Lemma wp_finish_plugin p (Q : PluginRegistration → World → Prop) X w w1 : pl_good (w_db w) → in_tx w w1 → ok_plugin p →
  (∀ q, stored_plugin (w_db w) q → pg_id q = pg_id p → PG.step q p ∧ pg_version p = pg_version q + 1) →
  (∀ v w2, committed w w2 (map OfPlugin (pg_pending_events p)) → stored_plugin (w_db w2) (saved_plugin_as p v) →
     Q (saved_plugin_as p v) w2) →
  (∀ e, X (Store e) w1) → wp (finish_plugin p) Q X w1.
Proof.
  intros Hg [Hv (Hd & Hp & Hpl)] Hok Hstep HQ HX. unfold finish_plugin. wp_step. unfold wp, write. rewrite Hv.
  assert (∀ q, stored_plugin (w_db w) q → pg_id q = pg_id p → PG.manifest q = PG.manifest p) as Hm
    by (intros q Hq Hid; symmetry; by apply Hstep).
  pose proof (save_plugin_spec p (w_db w) Hg Hok Hm) as Hsave.
  destruct (save_plugin p (w_db w)) as [[db' p']|e]; [|apply HX].
  destruct Hsave as (Hsv & v & -> & Hver).
  assert (grows (w_db w) db') as Hgr.
  { apply (plugin_grows _ _ p v); try done. intros q Hq Hid. rewrite (Hver q Hq Hid). destruct (Hstep q Hq Hid).
    by apply saved_plugin_step. }
  apply (HQ v); [|by apply (stored_plugin_after (w_db w))]. split; simpl; [apply Hsv|done| |done]. by destruct p; rewrite Hp.
Qed.

(** A call of a loaded payload, saved. *)
Lemma loaded_call c r p p1 db : pl_good db → stored_payload db p → call_args_ok c → saves c = true →
  PL.run_call c p = (r, p1) → saved_result r = true →
  ok_payload p1 ∧ PL.sound p1 ∧ PL.step p p1 ∧
  ∀ q, stored_payload db q → pl_id q = pl_id p1 → PL.step q p1 ∧ approval_state q ≠ PayloadApprovalState.REVOKED.
Proof.
  intros Hg Hst Hargs Hc Hrun Hr. pose proof (payload_call_ok c p (sy_ok _ _ Hst) Hargs) as Hok. pose proof (PL.payload_call_step c p) as Hs.
  pose proof (saved_call_live c p r p1 Hc Hrun Hr) as Hl. unfold wp in Hok, Hs. rewrite Hrun in Hok, Hs.
  assert (ok_payload p1 ∧ PL.step p p1) as [Hok1 Hs1] by (by destruct r). split_and!; [done|by apply Hs1, Hst|done|].
  intros q Hq Hid. assert (q = p) as ->; [|done]. apply (stored_unique db); [done..|]. rewrite Hid.
  pose proof (PL.st_fixed _ _ Hs1) as Hf. unfold PL.fixed in Hf. congruence.
Qed.

(** A command that calls one method of a payload. *)
Lemma wp_payload_command {A} c caught t id (k : Payload → PyM World PlError A) (Q : A → World → Prop) X w w1 :
  pl_good (w_db w) → in_tx w w1 → call_args_ok c → saves c = true →
  (∀ p p1 v w2, stored_payload (w_db w) p → pl_id p = id → pl_tenant_id p = t → PL.run_call c p = (Ok tt, p1) →
     committed w w2 (map OfPayload (pl_pending_events p1)) → stored_payload (w_db w2) (saved_as p1 v) →
     wp (k (saved_as p1 v)) Q X w2) →
  (∀ e, match e with PortFailure _ | ApplicationIntegrityError _ _ _ => False | _ => True end → X e w1) →
  wp (p ← load_payload id t; p ← on_object caught (PL.run_call c) p; p ← finish_payload p; k p) Q X w1.
Proof.
  intros Hg Hw Hargs Hc HQ HX. wp_step. apply (wp_load_payload _ _ _ _ w); [done|done| |intros _; by apply HX].
  intros p Hp Hid Ht. wp_step. apply wp_pl_object; [|intros e o' _; apply HX; by destruct (caught e)].
  intros p1 Hrun. destruct (loaded_call c (Ok tt) p p1 _ Hg Hp Hargs Hc Hrun eq_refl) as (Hok & Hs & _ & Hst).
  wp_step. apply (wp_finish_payload _ _ _ w); [done..| |intros e _; by apply HX]. intros v w2 Hcm Hsv. by eapply HQ.
Qed.

Lemma wp_plugin_command {A} c caught t id (k : PluginRegistration → PyM World PlError A) (Q : A → World → Prop) X w w1 :
  pl_good (w_db w) → in_tx w w1 → plugin_moves c = true →
  (∀ p p1 v w2, stored_plugin (w_db w) p → pg_id p = id → pg_tenant_id p = t → PG.run_call c p = (Ok tt, p1) →
     committed w w2 (map OfPlugin (pg_pending_events p1)) → stored_plugin (w_db w2) (saved_plugin_as p1 v) →
     wp (k (saved_plugin_as p1 v)) Q X w2) →
  (∀ e, match e with PortFailure _ | ApplicationIntegrityError _ _ _ => False | _ => True end → X e w1) →
  wp (p ← load_plugin id t; p ← on_object caught (PG.run_call c) p; p ← finish_plugin p; k p) Q X w1.
Proof.
  intros Hg Hw Hc HQ HX. wp_step. apply (wp_load_plugin _ _ _ _ w); [done|done| |by apply HX].
  intros p Hp Hid Ht. wp_step. apply wp_pl_object; [|intros e o' _; apply HX; by destruct (caught e)].
  intros p1 Hrun. pose proof (plugin_call_moves c p Hc (sg_ok _ _ Hp)) as Hmv. pose proof (PG.plugin_call_step c p) as Hs.
  unfold wp in Hmv, Hs. rewrite Hrun in Hmv, Hs. destruct Hmv as (Hok & Hver & _).
  wp_step. apply (wp_finish_plugin _ _ _ w); [done..| | |intros e; by apply HX].
  - intros q Hq Hqid. assert (q = p) as ->; [|done]. apply (stored_plugin_unique (w_db w)); [done..|]. rewrite Hqid.
    pose proof (PG.st_manifest _ _ Hs) as Hf. unfold PG.manifest in Hf. congruence.
  - intros v w2 Hcm Hsv. by eapply HQ.
Qed.

(** What a hash check leaves of a payload. *)
Definition checked (p p' : Payload) : Prop :=
  PL.fixed p' = PL.fixed p ∧ approval_state p' = approval_state p ∧ versions p' = versions p ∧
  approved_for p' = approved_for p ∧ pl_signature p' = pl_signature p.

Lemma wp_pl_verify_tx t id computed now (Q : HashVerificationResultDTO → World → Prop) X w w1 : pl_good (w_db w) → in_tx w w1 →
  (∀ p snap p' w2, stored_payload (w_db w) p → pl_id p = id → pl_tenant_id p = t → last (versions p) = Some snap →
     approval_state p = PayloadApprovalState.APPROVED → stored_payload (w_db w2) p' → checked p p' →
     if bool_decide (computed = vs_payload_hash snap) then
       committed w w2 [OfPayload (mkEvent now t id (PayloadHashVerified (vs_version snap) (vs_payload_hash snap)))] →
       Q (mkHashResult (str_uuid id) "Verified" (vs_payload_hash snap)) w2
     else
       committed w w2 [OfPayload (mkEvent now t id (PayloadHashMismatchDetected (vs_version snap) (vs_payload_hash snap) computed))] →
       X (ApplicationIntegrityError (str_uuid id) (vs_payload_hash snap) computed) w2) →
  (∀ p, stored_payload (w_db w) p → pl_id p = id → pl_tenant_id p = t → approval_state p ≠ PayloadApprovalState.APPROVED →
     X (ApplicationConflictError (OfException (PL.gate_error p))) w1) →
  ((∀ p, stored_payload (w_db w) p → ¬ (pl_id p = id ∧ pl_tenant_id p = t)) →
     X (ApplicationNotFoundError "Payload" (str_uuid id)) w1) →
  (∀ e, uuid_equals_ulid = false → X (Store e) w1) → wp (verify_tx t id computed now) Q X w1.
Proof.
  intros Hg Hw HQ HG HN HS. unfold verify_tx. wp_step. apply (wp_load_payload _ _ _ _ w); [done..| |done].
  intros p Hp Hid Ht. pose proof (HG p Hp Hid Ht) as HG'. destruct (decide (approval_state p = PayloadApprovalState.APPROVED)) as [Ha|Ha].
  2:{ rewrite <- Ht, (PL.hash_check_refused p computed now Ha). specialize (HG' Ha). unfold PL.gate_error in *.
      case_bool_decide; by apply wp_raise. }
  destruct (PL.hash_check_spec p computed now (sy_sound _ _ Hp) Ha) as (snap & p1 & Hl & Hrun & Hrec & Hfix & Hev).
  rewrite Ht in Hrun. rewrite (sy_events _ _ Hp), Ht, Hid in Hev.
  destruct (loaded_call (PL.PVerifyHash t computed now) _ p p1 _ Hg Hp I eq_refl Hrun) as (Hok & Hs & _ & Hst);
    [by case_bool_decide|].
  assert (∀ e, ¬ payload_saveable (w_db w) p1 → X (Store e) w1) as HX.
  { intros e Hn. apply HS. destruct uuid_equals_ulid eqn:Hu; [|done]. exfalso. apply Hn. left. split; [done|]. exists p.
    unfold PL.record, PL.fixed in *. split_and!; [done|congruence|]. unfold accepts.
    replace (pl_version p1) with (pl_version p) by congruence. by rewrite Z.eqb_refl, orb_true_r. }
  assert (∀ v, checked p (saved_as p1 v)) as Hc.
  { intros v. unfold checked, PL.record, PL.fixed in *. destruct p1. simpl in *. split_and!; congruence. }
  rewrite Hrun. specialize (λ p' w2, HQ p snap p' w2 Hp Hid Ht Hl Ha). case_bool_decide as Hh; wp_step;
    apply (wp_finish_payload _ _ _ w); try done; intros v w2 Hcm Hsv; rewrite Hev in Hcm.
  - pose proof (PL.gate_spec _ (sy_sound _ _ Hsv)) as Hgate. destruct (Hc v) as (Hcf & Hca & Hcv & _). rewrite Hca, Ha, Hcv, Hl in Hgate.
    destruct Hgate as (snap' & [= <-] & ->). apply wp_ret. assert (pl_id (saved_as p1 v) = id) as -> by (unfold PL.fixed in Hcf; congruence).
    by apply (HQ (saved_as p1 v) w2).
  - apply wp_raise. rewrite Hid in *. by apply (HQ (saved_as p1 v) w2).
Qed.

(** What a command leaves: what is stored has only been called, and a command that
    raises has changed nothing, but for a hash that does not match, and a cascade
    that fails after the revocation was committed. *)
Definition outcome (c : command) (w : World) (e : option PlError) (w' : World) : Prop :=
  pl_good (w_db w') ∧ grows (w_db w) (w_db w') ∧
  match e with
  | None => True
  | Some (PortFailure _) => ∃ t id reason by_, c = RevokePayload t id reason by_
  | Some (ApplicationIntegrityError _ _ _) => ∃ t id h, c = VerifyPayloadHash t id h ∧ w_plans w' = w_plans w
  | Some _ => rolled_back w w'
  end.

(** An answer, and an exception that has changed nothing. *)
Definition plain (e : option PlError) : Prop :=
  match e with Some (PortFailure _) | Some (ApplicationIntegrityError _ _ _) => False | _ => True end.

Lemma rolled_outcome c w e w' : pl_good (w_db w) → rolled_back w w' → plain e → outcome c w e w'.
Proof.
  intros Hg Hr He. pose proof Hr as (Hd & Hp & Hpl). unfold outcome. rewrite Hd. split_and!; [done|done|]. by destruct e as [[]|].
Qed.

Lemma rolled_trans w w1 w2 : rolled_back w w1 → rolled_back w1 w2 → rolled_back w w2.
Proof. unfold rolled_back. intros (-> & -> & ->). done. Qed.

Lemma committed_outcome c w w2 w3 evs : committed w w2 evs → rolled_back w2 w3 → outcome c w None w3.
Proof. intros [Hg Hgr _ Hpl] (Hd & _ & Hpl'). unfold outcome. by rewrite Hd. Qed.
End Transactions.

Section Commands.
Context `{!PlanInvalidationPort} `{!RowOrder} `{!TenantColumns}.

(** A constructor answers the text it is given. *)
Lemma accepted_key v k : PayloadKey_new v = Some k → PayloadKey_new k = Some k.
Proof. unfold PayloadKey_new. case_match; [|done]. intros [= <-]. by case_match. Qed.
Lemma accepted_version v k : PayloadVersionRef_new v = Some k → PayloadVersionRef_new k = Some k.
Proof. unfold PayloadVersionRef_new. case_match; [|done]. intros [= <-]. by case_match. Qed.
Lemma accepted_hash v k : PayloadHash_new v = Some k → PayloadHash_new k = Some k.
Proof. unfold PayloadHash_new. case_match; [|done]. intros [= <-]. by case_match. Qed.
Lemma accepted_text v k : non_empty_str v = Some k → non_empty_str k = Some k.
Proof. unfold non_empty_str. destruct (empty_str v) eqn:Hv; [done|]. intros [= <-]. by rewrite Hv. Qed.
Lemma accepted_list {A} (v k : list A) : non_empty_list v = Some k → non_empty_list k = Some k.
Proof. destruct v; [done|]. by intros [= <-]. Qed.
Lemma sized_text v : bool_decide (String.length v = 0%nat) = false → non_empty_str v = Some v.
Proof. unfold non_empty_str, empty_str. intros Hv. guards. case_bool_decide; [by subst|done]. Qed.

Lemma wp_pl_read {A B} (q : PayloadDb → result PayloadStoreError A) (f : A → B) (Q : B → World → Prop) X w :
  (∀ a w', rolled_back w w' → Q a w') → (∀ e w', rolled_back w w' → X (Store e) w') →
  wp (in_uow (a ← query q; mret (f a))) Q X w.
Proof.
  intros HQ HX. apply wp_pl_uow. intros w1 Hw. wp_step.
  apply (wp_pl_query _ _ _ w); [done|intros a _; wp_run|intros e _]; intros w3 Hr;
    [apply HQ|apply HX]; (eapply rolled_trans; [apply Hw|done]).
Qed.

Lemma wp_payload_run c now w : pl_good (w_db w) → command_ok c w → datetime_ok now →
  wp (run_command now c) (λ _, outcome c w None) (λ e, outcome c w (Some e)) w.
Proof.
  intros Hg Hc Hnow. assert (∀ e, plain (Some e) → outcome c w (Some e) w) as Hsame by (intros e; by apply rolled_outcome).
  destruct c; cbn [run_command]; wp_step;
    unfold register_payload, publish_payload_version, approve_payload, deprecate_payload, revoke_payload, verify_payload_hash,
      register_plugin, approve_plugin, revoke_plugin, get_payload, list_payloads, get_plugin, list_plugins,
      validate_uuid, validate_str, validate_limit, validate_offset, parse; wp_run; try by apply Hsame.
  all: try (apply wp_pl_read; [intros a w' Hr; wp_run|intros e w' Hr]; by apply rolled_outcome).
  all: apply wp_pl_uow; intros w1 Hw; match goal with Hs : ∀ e, _ → outcome ?c _ _ _ |- _ => set (cmd := c) in * end.
  all: assert (∀ e w3, rolled_back w1 w3 → plain e → outcome cmd w e w3) as Hrolled
    by (intros e w3 Hr He; apply rolled_outcome; [done| |done]; eapply rolled_trans; [apply Hw|done]).
  - destruct Hc as [Hid Hnew]. wp_step. apply (wp_pl_query _ _ _ w); [done|intros a _|intros e _ w3 Hr; by apply Hrolled].
    wp_run; [intros w3 Hr; by apply Hrolled|]. apply (wp_finish_payload _ _ _ w); [done|done| |apply PL.register_sound| | |].
    + split; try done; [by eapply accepted_key|by intros snap Hs%not_elem_of_nil].
    + intros q [Hq _ _ _] Hqid. exfalso. apply Hnew. apply list_elem_of_fmap. exists (payload_to_row q). by split; [symmetry|].
    + intros v w2 Hcm _. wp_run. intros w3 Hr. wp_run. by eapply committed_outcome.
    + intros e _ w3 Hr. by apply Hrolled.
  - apply (wp_payload_command (PL.PPublish t s s0 s1 l now refs) _ _ _ _ _ _ w); try done.
    + split; simpl; [by eapply accepted_version|by eapply accepted_hash|by eapply accepted_text|by eapply accepted_list|done].
    + intros p p1 v w2 _ _ _ _ Hcm _. wp_run. intros w3 Hr. wp_run. by eapply committed_outcome.
    + intros e He w3 Hr. apply Hrolled; [done|by destruct e].
  - apply (wp_payload_command (PL.PApprove t approved_by sig now ciso classes) _ _ _ _ _ _ w); try done.
    + by apply sized_text.
    + intros p p1 v w2 _ _ _ _ Hcm _. wp_run. intros w3 Hr. wp_run. by eapply committed_outcome.
    + intros e He w3 Hr. apply Hrolled; [done|by destruct e].
  - apply (wp_payload_command (PL.PDeprecate t reason now) _ _ _ _ _ _ w); try done.
    + intros p p1 v w2 _ _ _ _ Hcm _. wp_run. intros w3 Hr. wp_run. by eapply committed_outcome.
    + intros e He w3 Hr. apply Hrolled; [done|by destruct e].
  - apply (wp_payload_command (PL.PRevoke t reason revoked_by now) _ _ _ _ _ _ w); try done.
    + intros p p1 v w2 _ _ _ _ Hcm _. wp_run. intros w3 Hr. wp_run.
      destruct (committed_outcome cmd _ _ _ _ Hcm Hr) as (Hg3 & Hgr & _). unfold wp, in_plans.
      by destruct (invalidate_plans_for_payload t id (w_plans w3)) as [[n|e] pl]; split_and!; [..|eexists _, _, _, _].
    + intros e He w3 Hr. apply Hrolled; [done|by destruct e].
  - apply (wp_pl_verify_tx _ _ _ _ _ _ w); try done.
    + intros p snap p' w2 _ _ _ _ _ _ _. match goal with |- context [bool_decide ?P] => destruct (bool_decide P) end; intros Hcm w3 Hr; wp_run; [by eapply committed_outcome|].
      destruct (committed_outcome cmd _ _ _ _ Hcm Hr) as (Hg3 & Hgr & _). split_and!; [done|done|]. exists t, id, computed_hash.
      split; [done|]. etrans; [apply Hr|apply Hcm].
    + intros p _ _ _ _ w3 Hr. by apply Hrolled.
    + intros _ w3 Hr. by apply Hrolled.
    + intros e _ w3 Hr. by apply Hrolled.
  - unfold PG.register. destruct (empty_str name); cbv iota; [apply wp_raise; intros w3 Hr; by apply Hrolled|]. destruct Hc as [Hid Hnew]. wp_step.
    apply (wp_finish_plugin _ _ _ w); [done|done| | | |intros e w3 Hr; by apply Hrolled].
    + split; simpl; [done|by eapply accepted_text|by eapply accepted_hash|by eapply accepted_list].
    + intros q [Hq _ _] Hqid. exfalso. apply Hnew. apply list_elem_of_fmap. exists (plugin_to_row q). by split; [symmetry|].
    + intros v w2 Hcm _. wp_run. intros w3 Hr. wp_run. by eapply committed_outcome.
  - apply (wp_plugin_command (PG.GApprove t approved_by now) _ _ _ _ _ _ w); try done.
    + intros p p1 v w2 _ _ _ _ Hcm _. wp_run. intros w3 Hr. wp_run. by eapply committed_outcome.
    + intros e He w3 Hr. apply Hrolled; [done|by destruct e].
  - apply (wp_plugin_command (PG.GRevoke t reason revoked_by now) _ _ _ _ _ _ w); try done.
    + intros p p1 v w2 _ _ _ _ Hcm _. wp_run. intros w3 Hr. wp_run. by eapply committed_outcome.
    + intros e He w3 Hr. apply Hrolled; [done|by destruct e].
  - wp_step. apply (wp_load_payload _ _ _ _ w); [done..| |intros _ w3 Hr; by apply Hrolled].
    intros p _ _ _. wp_run. intros w3 Hr. wp_run. by apply Hrolled.
  - wp_step. apply (wp_load_plugin _ _ _ _ w); [done..| |intros w3 Hr; by apply Hrolled].
    intros p _ _ _. wp_run. intros w3 Hr. wp_run. by apply Hrolled.
Qed.

Lemma empty_payload_good : pl_good empty_payload_db.
Proof. split; try apply NoDup_nil_2; intros r Hr; by apply not_elem_of_nil in Hr. Qed.

Lemma pl_reachable_good w : reachable_world w → pl_good (w_db w).
Proof.
  induction 1 as [plans|w c now _ IH Hc Hnow]; [apply empty_payload_good|]. pose proof (wp_payload_run c now w IH Hc Hnow) as Hwp.
  unfold wp in Hwp. destruct (run_command now c w) as [[[]|e] w']; by destruct Hwp as [Hg _].
Qed.

(** Commands whose new ids are new. *)
Fixpoint all_ok (cs : list (command * datetime)) (w : World) : Prop :=
  match cs with
  | [] => True
  | c :: cs => command_ok c.1 w ∧ datetime_ok c.2 ∧ all_ok cs (run_command c.2 c.1 w).2
  end.

Lemma pl_run_commands_reachable cs w : reachable_world w → all_ok cs w → reachable_world (run_commands cs w).
Proof.
  revert w. induction cs as [|[c now] cs IH]; intros w Hw; [done|]. intros (Hc & Hnow & Hcs).
  apply IH; [by apply rw_command|done].
Qed.

(** Commands only add to what is stored. *)
Lemma pl_run_commands_grows cs w : reachable_world w → all_ok cs w → grows (w_db w) (w_db (run_commands cs w)).
Proof.
  revert w. induction cs as [|[c now] cs IH]; intros w Hw; [done|]. intros (Hc & Hnow & Hcs). etrans.
  - pose proof (wp_payload_run c now w (pl_reachable_good _ Hw) Hc Hnow) as Hwp. unfold wp in Hwp.
    instantiate (1 := w_db (run_command now c w).2). destruct (run_command now c w) as [[[]|e] w']; by destruct Hwp as (_ & Hgr & _).
  - apply (IH (run_command now c w).2); [by apply rw_command|done].
Qed.
End Commands.

(** *** The revocation *)

Lemma revoke_revokes t reason by_ now x : wp (PL.revoke t reason by_ now)
  (λ _ x', PL.fixed x' = PL.fixed x ∧ approval_state x' = PayloadApprovalState.REVOKED) (λ _ _, True) x.
Proof. unfold PL.revoke, PL._assert_tenant, PL._transition, PL._mutate, PL._emit. by wp_run. Qed.

Section Revocation.
Context `{!PlanInvalidationPort} `{!RowOrder} `{!TenantColumns}.

Lemma committed_rolled w w2 w3 evs : committed w w2 evs → rolled_back w2 w3 → committed w w3 evs.
Proof. intros [Hg Hgr Hp Hpl] (Hd & Hp' & Hpl'). by split; rewrite ?Hd, ?Hp', ?Hpl'. Qed.

(** Revoking commits the payload as revoked, and then asks the port. *)
Lemma wp_revoke t id reason by_ now (Q : PayloadDTO → World → Prop) X w : pl_good (w_db w) →
  (∀ p p2 evs w2, stored_payload (w_db w) p → pl_id p = id → pl_tenant_id p = t →
     approval_state p ≠ PayloadApprovalState.REVOKED → committed w w2 evs → stored_payload (w_db w2) p2 →
     PL.fixed p2 = PL.fixed p → approval_state p2 = PayloadApprovalState.REVOKED →
     match invalidate_plans_for_payload t id (w_plans w) with
     | (Ok _, pl) => Q (_payload_dto p2) (w2 <| w_plans := pl |>)
     | (Err e, pl) => X (PortFailure e) (w2 <| w_plans := pl |>)
     end) →
  (∀ e w3, plain (Some e) → rolled_back w w3 → X e w3) → wp (revoke_payload t id reason by_ now) Q X w.
Proof.
  intros Hg HQ HX. unfold revoke_payload, validate_uuid, validate_str. wp_run; try by apply HX.
  apply wp_pl_uow. intros w1 Hw. apply (wp_payload_command (PL.PRevoke t reason by_ now) _ _ _ _ _ _ w); try done.
  - intros p p1 v w2 Hp Hid Ht Hrun Hcm Hst. wp_run. intros w3 Hr. wp_step.
    pose proof (saved_call_live (PL.PRevoke t reason by_ now) p _ p1 eq_refl Hrun eq_refl) as Hlive.
    pose proof (wp_ok _ _ _ _ _ _ (revoke_revokes t reason by_ now p) Hrun) as [Hf Hrev].
    specialize (HQ p (saved_as p1 v) _ w3 Hp Hid Ht Hlive (committed_rolled _ _ _ _ Hcm Hr)).
    rewrite (proj1 Hr) in HQ. specialize (HQ Hst). assert (w_plans w3 = w_plans w) as Hpl
      by (destruct Hr as (_ & _ & ->); apply Hcm).
    unfold wp, in_plans. rewrite Hpl. destruct (invalidate_plans_for_payload t id (w_plans w)) as [[n|e] pl];
      apply HQ; by destruct p1.
  - intros e He w3 Hr. apply HX; [by destruct e|by eapply rolled_trans; [apply Hw|]].
Qed.

(** A revoked payload is not revoked again, and the port is not asked. *)
Lemma revoke_refused p reason by_ now w : pl_good (w_db w) → stored_payload (w_db w) p →
  approval_state p = PayloadApprovalState.REVOKED →
  ∃ x, (revoke_payload (pl_tenant_id p) (pl_id p) reason by_ now w).1 = Err x ∧
    rolled_back w (revoke_payload (pl_tenant_id p) (pl_id p) reason by_ now w).2.
Proof.
  intros Hg Hp Hrev. set (m := revoke_payload _ _ _ _ _).
  assert (wp m (λ _ _, False) (λ _ w3, rolled_back w w3) w) as Hwp.
  { apply wp_revoke; [done| |done]. intros q q2 evs w2 Hq Hid _ Hlive. exfalso. apply Hlive.
    by rewrite (stored_unique (w_db w) q p). }
  unfold wp in Hwp. destruct (m w) as [[d|x] w']; [done|]. by exists x.
Qed.
End Revocation.

(** ** Properties *)

Section Properties.
Context `{!PlanInvalidationPort} `{!RowOrder} `{!TenantColumns}.

(** C24. A command only extends what is stored: through any command every stored
    payload and plugin stays stored and has gone through calls of its methods alone, so
    versions are only appended, states only move forward and a revoked payload stays as
    it was.  A command that raises has changed nothing and published nothing, but for a
    hash that does not match, which is recorded, and a revocation whose cascade fails. *)
Theorem payload_command_extends c now w r w' : reachable_world w → command_ok c w → datetime_ok now →
  run_command now c w = (r, w') →
  (∀ p, stored_payload (w_db w) p → ∃ p', stored_payload (w_db w') p' ∧ PL.step p p') ∧
  (∀ p, stored_plugin (w_db w) p → ∃ p', stored_plugin (w_db w') p' ∧ PG.step p p') ∧
  (∀ e, r = Err e → match e with
     | PortFailure _ => ∃ t id reason by_, c = RevokePayload t id reason by_
     | ApplicationIntegrityError _ _ _ => ∃ t id h, c = VerifyPayloadHash t id h ∧ w_plans w' = w_plans w
     | _ => rolled_back w w'
     end).
Proof.
  intros Hw Hc Hnow Hrun. pose proof (wp_payload_run c now w (pl_reachable_good _ Hw) Hc Hnow) as Hwp. unfold wp in Hwp.
  rewrite Hrun in Hwp. destruct r as [[]|e]; destruct Hwp as (_ & [Hy Hn] & He); (split_and!; [done|done|]).
  - done.
  - by intros e' [= <-].
Qed.


(** C27. A cascade that fails cannot be repeated: when the port raises, the payload is
    revoked and committed all the same, and after any further commands a second
    revocation is refused before it asks the port, so that the plans which use the
    payload are superseded by nobody. *)
Theorem failed_cascade_is_not_retried t id reason by_ now w e w' cs reason' by' now' : reachable_world w → datetime_ok now →
  revoke_payload t id reason by_ now w = (Err (PortFailure e), w') → all_ok cs w' →
  let w2 := run_commands cs w' in
  ∃ p, stored_payload (w_db w2) p ∧ pl_id p = id ∧ pl_tenant_id p = t ∧ approval_state p = PayloadApprovalState.REVOKED ∧
  ∃ x, (revoke_payload t id reason' by' now' w2).1 = Err x ∧ rolled_back w2 (revoke_payload t id reason' by' now' w2).2.
Proof.
  intros Hw Hnow Hrun Hcs w2. pose proof (pl_reachable_good _ Hw) as Hg.
  assert (wp (revoke_payload t id reason by_ now) (λ _ _, True) (λ e w', match e with PortFailure _ =>
    ∃ p, stored_payload (w_db w') p ∧ pl_id p = id ∧ pl_tenant_id p = t ∧ approval_state p = PayloadApprovalState.REVOKED
    | _ => True end) w) as Hwp.
  { apply wp_revoke; [done| |by intros []]. intros p p2 evs w3 _ Hid Ht _ _ Hst Hf Hrev. destruct (invalidate_plans_for_payload _ _ _) as [[n|x] pl]; [done|].
    exists p2. unfold PL.fixed in Hf. split_and!; [done|congruence..|done]. }
  destruct (wp_err _ _ _ _ _ _ Hwp Hrun) as (p & Hp & Hid & Ht & Hrev).
  assert (reachable_world w') as Hw'.
  { pose proof (rw_command w (RevokePayload t id reason by_) now Hw I Hnow) as Hrc. cbn [run_command] in Hrc.
    replace ((revoke_payload t id reason by_ now;; mret tt) w).2 with w' in Hrc; [done|]. unfold mbind, PyM_bind. by rewrite Hrun. }
  destruct (gr_payloads _ _ (pl_run_commands_grows cs w' Hw' Hcs) p Hp) as (p2 & Hp2 & Hst).
  pose proof (PL.st_revoked _ _ Hst Hrev) as Hrec. pose proof (PL.st_fixed _ _ Hst) as Hfix. unfold PL.record, PL.fixed in *.
  assert (pl_id p2 = id ∧ pl_tenant_id p2 = t ∧ approval_state p2 = PayloadApprovalState.REVOKED) as (Hid2 & Ht2 & Hrev2)
    by (split_and!; congruence).
  exists p2. split_and!; [done..|]. rewrite <- Hid2, <- Ht2. apply revoke_refused; [|done|done].
  by apply pl_reachable_good, pl_run_commands_reachable.
Qed.
End Properties.

(** ** Witnesses *)

Lemma early_datetime t : 0 <= t <= 1000 → datetime_ok t.
Proof. intros Ht. unfold datetime_ok. rewrite (Z.div_small t) by lia. vm_compute. by split. Qed.

(** A wiper of [acme], published and approved by the CISO. *)
Definition wiper_commands (id : uuid) : list (command * datetime) :=
  [(RegisterPayload PL.acme "impact.wiper" "Binary" "Destruct" ["Internal"] id, 10);
   (PublishPayloadVersion PL.acme id "1.0.0" PL.hash_a "s3://a" ["T1485"] [], 11);
   (ApprovePayload PL.acme id 7 "sig" true None, 12)].

Lemma wiper_commands_reachable `{!PlanInvalidationPort} `{!RowOrder} `{!TenantColumns} id plans : id ≠ 0 →
  reachable_world (run_commands (wiper_commands id) (empty_world plans)).
Proof.
  intros Hid. apply (pl_run_commands_reachable (wiper_commands id) (empty_world plans)); [apply rw_empty|].
  unfold wiper_commands. cbn [all_ok fst snd command_ok].
  refine (conj (conj _ _) (conj _ (conj I (conj _ (conj I (conj _ I)))))); [done|apply not_elem_of_nil|apply early_datetime; lia..].
Qed.

#[local] Existing Instance insertion_order.

(** Columns whose UUID equals the ULID of the same bits. *)
Definition equal_ids : TenantColumns := {| binds_entity_id := true; uuid_equals_ulid := true |}.
#[local] Existing Instance equal_ids.

(** An operation context that does not answer; it counts what it was asked. *)
Definition silent_operations : PlanInvalidationPort := {|
  Plans := nat;
  PlanError := unit;
  invalidate_plans_for_payload _ _ := (modify S;; raise tt)
|}.

Definition wiper_world (port : PlanInvalidationPort) (plans : Plans) : World :=
  run_commands (wiper_commands 5) (empty_world plans).

Lemma wiper_world_reachable port plans : reachable_world (wiper_world port plans).
Proof. unfold wiper_world. apply (wiper_commands_reachable 5 plans). discriminate. Qed.

(** The payload it stores. *)
Definition stored_wiper : Payload :=
  mkPayload 5 PL.acme "impact.wiper" PayloadType.BINARY ImpactCeiling.DESTRUCT PayloadApprovalState.APPROVED
    [mkVersionSnapshot "1.0.0" PL.hash_a "s3://a" ["T1485"] 11 []] (Some "1.0.0") ["Internal"] (Some "sig") 10 12 3 [].

Lemma wiper_is_stored port plans : stored_payload (w_db (wiper_world port plans)) stored_wiper.
Proof.
  pose proof (find_payload_spec 5 PL.acme _ (pl_reachable_good _ (wiper_world_reachable port plans))) as Hf.
  assert (find_payload 5 PL.acme (w_db (wiper_world port plans)) = Ok (Some stored_wiper)) as Hr by (vm_compute; reflexivity).
  rewrite Hr in Hf. apply Hf.
Qed.

(** Revoking the wiper, with the adapter that only records. *)
Lemma payload_command_extends_witness :
  let w := wiper_world DegradedPlanInvalidationAdapter [] in
  let w' := (run_command 20 (RevokePayload PL.acme 5 "leaked" 7) w).2 in
  ∃ p', stored_payload (w_db w') p' ∧ PL.step stored_wiper p'.
Proof.
  intros w w'.
  destruct (payload_command_extends (RevokePayload PL.acme 5 "leaked" 7) 20 w _ w' (wiper_world_reachable _ _) I
    (early_datetime 20 ltac:(lia)) (surjective_pairing _)) as (Hp & _). apply Hp, wiper_is_stored.
Defined.


(** The wiper is revoked while the operation context does not answer, and once more
    with a new reason. *)
Definition silent_world : World := (revoke_payload PL.acme 5 "leaked" 7 20 (wiper_world silent_operations 0%nat)).2.

Lemma silent_revocation : revoke_payload PL.acme 5 "leaked" 7 20 (wiper_world silent_operations 0%nat) =
  (Err (@PortFailure silent_operations tt), silent_world) ∧ w_plans silent_world = 1%nat.
Proof.
  assert ((revoke_payload PL.acme 5 "leaked" 7 20 (wiper_world silent_operations 0%nat)).1 =
    Err (@PortFailure silent_operations tt)) as Hr by (vm_compute; reflexivity).
  split; [|vm_compute; reflexivity]. rewrite <- Hr. apply surjective_pairing.
Qed.

Lemma failed_cascade_is_not_retried_witness :
  ∃ x, (revoke_payload PL.acme 5 "again" 7 21 silent_world).1 = Err x ∧
    w_plans (revoke_payload PL.acme 5 "again" 7 21 silent_world).2 = 1%nat.
Proof.
  generalize silent_revocation. generalize silent_world. intros w' [Hrun Hpl].
  destruct (@failed_cascade_is_not_retried silent_operations insertion_order equal_ids PL.acme 5 "leaked" 7 20 _ tt w'
    [] "again" 7 21 (wiper_world_reachable _ _) (early_datetime 20 ltac:(lia)) Hrun I) as (p & _ & _ & _ & _ & x & Hx & (_ & _ & Hpl2)).
  exists x. split; [exact Hx|]. etrans; [exact Hpl2|exact Hpl].
Defined.
