(* ===== verification/PayloadCascade.v ===== *)
(** The cascade of a revocation: [payload]'s [OperationPlanInvalidationAdapter], which
    asks the operation context to supersede the plans that use a payload. *)
From stdpp Require Import base tactics list strings sets relations.
From Stdlib Require Import ZArith Lia.
From S2P Require Import Prelude PyTypes PyParse PyJson PyStore OperationData OperationAggregate PlanVersion OperationStore OperationApp.
From S2P Require Import PyRegex PayloadData PayloadAggregate PluginRegistration PayloadStore PayloadApp.

Local Open Scope Z_scope.

Section Cascade.
Context `{!RowOrder} `{!TenantColumns} `{!EngagementQueryPort} `{!VulnerabilityQueryPort}.

(** [OperationPlanInvalidationAdapter], around the operation context, whose service
    reads its own clock. *)
Definition OperationPlanInvalidationAdapter (clock : datetime) : PlanInvalidationPort := {|
  Plans := OperationApp.World;
  PlanError := OpError;
  invalidate_plans_for_payload t payload := invalidate_plans_referencing_payload t payload clock
|}.

(** No plan version of the tenant that uses the payload is signed or executing. *)
Definition withdrawn (t : TenantId) (payload : uuid) (db : OpDb) : Prop :=
  ∀ row o s r, row ∈ ob_plans db → vr_tenant_id row = t → vr_snapshot row = dumps (plan_payload o) →
    s ∈ step_values o → technique_ref s = Some r → payload_id r = str_uuid payload → ¬ in_force_row row.

Lemma cascade_spec t payload clock w : OperationApp.reachable_world w →
  wp (invalidate_plans_referencing_payload t payload clock)
    (λ n w', invalidated t (str_uuid payload) n (OperationApp.w_db w) (OperationApp.w_db w'))
    (λ _ w', OperationApp.w_db w' = OperationApp.w_db w) w.
Proof.
  intros Hw. unfold invalidate_plans_referencing_payload. repeat input_step; try done.
  apply wp_op_in_uow, wp_invalidate_tx; [by apply op_reachable_good| |done]. intros l db' _ Hi. unfold OperationApp._publish. by wp_run.
Qed.

Lemma invalidated_withdraws t payload n db db' : invalidated t (str_uuid payload) n db db' → withdrawn t payload db'.
Proof.
  intros Hi row o s r Hrow Ht Hsn Hs Hr Hp Hforce. apply (iv_none _ _ _ _ _ Hi row Hrow). split_and!; [done| |done].
  rewrite Hsn. by apply (snapshot_mentions_payload o s r).
Qed.

(** C3. With the adapter of the operation context a revocation reaches the plans: when
    [revoke_payload] answers, the payload is stored revoked and no plan of its tenant
    that uses it is signed or executing any more.  When the cascade raises, the payload
    is stored revoked and every plan is as it was; in every other failure both
    contexts are as they were. *)
Theorem revocation_reaches_plans clock t id reason by_ now (w : @World (OperationPlanInvalidationAdapter clock)) :
  reachable_world w → OperationApp.reachable_world (w_plans w) →
  let r := (revoke_payload t id reason by_ now w).1 in
  let w' := (revoke_payload t id reason by_ now w).2 in
  let revoked := ∃ p, stored_payload (w_db w') p ∧ pl_id p = id ∧ pl_tenant_id p = t ∧
                   approval_state p = PayloadApprovalState.REVOKED in
  match r with
  | Ok _ => revoked ∧ withdrawn t id (OperationApp.w_db (w_plans w'))
  | Err (PortFailure _) => revoked ∧ OperationApp.w_db (w_plans w') = OperationApp.w_db (w_plans w)
  | Err _ => rolled_back w w'
  end.
Proof.
  intros Hw Ho. cbv zeta.
  set (revoked (w' : @World (OperationPlanInvalidationAdapter clock)) := ∃ p, stored_payload (w_db w') p ∧ pl_id p = id ∧ pl_tenant_id p = t ∧
                   approval_state p = PayloadApprovalState.REVOKED).
  enough (wp (@revoke_payload (OperationPlanInvalidationAdapter clock) _ t id reason by_ now) (λ _ w', revoked w' ∧ withdrawn t id (OperationApp.w_db (w_plans w')))
    (λ e w', match e with PortFailure _ => revoked w' ∧ OperationApp.w_db (w_plans w') = OperationApp.w_db (w_plans w)
             | _ => rolled_back w w' end) w) as Hwp by (unfold wp in Hwp; by destruct (revoke_payload _ _ _ _ _ w) as [[d|e] w']).
  apply wp_revoke; [by apply pl_reachable_good| |by intros [] w3; simpl].
  intros p p2 evs w2 _ Hid Ht _ _ Hst Hf Hrev. pose proof (cascade_spec t id clock (w_plans w) Ho) as Hc. unfold wp in Hc.
  assert (∀ pl, revoked (w2 <| w_plans := pl |>)) as Hr by (intros pl; exists p2; unfold PL.fixed in Hf; split_and!; [done|congruence..|done]).
  cbn [invalidate_plans_for_payload OperationPlanInvalidationAdapter].
  destruct (invalidate_plans_referencing_payload t id clock (w_plans w)) as [[n|e] pl]; (split; [apply Hr|]); [|done].
  by eapply invalidated_withdraws.
Qed.
End Cascade.

(** ** Witness *)

#[local] Existing Instance insertion_order.
#[local] Existing Instance converting_columns.
#[local] Existing Instance staging_engagement.
#[local] Existing Instance DegradedVulnerabilityQueryAdapter.

(** Next to an operation whose signed plan uses payload 77: the payload, approved. *)
Definition approved_77 : @World (OperationPlanInvalidationAdapter 8) :=
  run_commands (wiper_commands 77) (@empty_world (OperationPlanInvalidationAdapter 8) signed_world).

Lemma approved_77_plans : w_plans approved_77 = signed_world.
Proof. vm_compute. reflexivity. Qed.
Lemma approved_77_reachable : reachable_world approved_77.
Proof. unfold approved_77. apply wiper_commands_reachable. discriminate. Qed.

Lemma revocation_of_77 : is_ok (revoke_payload PL.acme 77 "leaked" 7 20 approved_77).1 = true ∧
  map vr_state (ob_plans (OperationApp.w_db (w_plans (revoke_payload PL.acme 77 "leaked" 7 20 approved_77).2))) = ["Superseded"].
Proof. vm_compute. split; reflexivity. Qed.

Lemma revocation_reaches_plans_witness : ∃ d w',
  revoke_payload PL.acme 77 "leaked" 7 20 approved_77 = (Ok d, w') ∧
  (∃ p, stored_payload (w_db w') p ∧ pl_id p = 77 ∧ approval_state p = PayloadApprovalState.REVOKED) ∧
  withdrawn PL.acme 77 (OperationApp.w_db (w_plans w')) ∧
  map vr_state (ob_plans (OperationApp.w_db (w_plans w'))) = ["Superseded"].
Proof.
  assert (OperationApp.reachable_world (w_plans approved_77)) as Ho by (rewrite approved_77_plans; apply signed_world_reachable).
  generalize revocation_of_77 approved_77_reachable Ho. clear Ho. generalize approved_77. intros w [Hok Hs] Hw Ho.
  pose proof (revocation_reaches_plans 8 PL.acme 77 "leaked" 7 20 w Hw Ho) as Hr. cbv zeta in Hr.
  destruct (revoke_payload PL.acme 77 "leaked" 7 20 w) as [[d|e] w']; [|discriminate Hok]. cbn [fst snd] in Hr, Hs.
  destruct Hr as ((p & Hp & Hid & _ & Hrev) & Hwd). exists d, w'. split; [reflexivity|]. split; [by exists p|]. split; [exact Hwd|exact Hs].
Defined.
