(* ===== verification/OperatorData.v ===== *)
(** Data of [red_team_operator.domain]: clearance levels and what they allow, value
    objects with their constructors, exceptions and events. *)
From stdpp Require Import base tactics list strings sets.
From Stdlib Require Import ZArith Lia.
From S2P Require Import Prelude PyTypes.

Local Open Scope Z_scope.

(** ** Enumerations *)

Module OperatorClearanceLevel.
Inductive t := L1 | L2 | L3 | L4_CISO.
#[export] Instance eq_dec : EqDecision t.
Proof. solve_decision. Defined.
Definition value (x : t) : string := match x with L1 => "L1" | L2 => "L2" | L3 => "L3" | L4_CISO => "L4_CISO" end.
Definition all : list t := [L1; L2; L3; L4_CISO].
End OperatorClearanceLevel.
Export (hints) OperatorClearanceLevel.

Module OperatorState.
Inductive t := ACTIVE | SUSPENDED | REVOKED.
#[export] Instance eq_dec : EqDecision t.
Proof. solve_decision. Defined.
Definition value (x : t) : string := match x with ACTIVE => "Active" | SUSPENDED => "Suspended" | REVOKED => "Revoked" end.
Definition all : list t := [ACTIVE; SUSPENDED; REVOKED].
End OperatorState.
Export (hints) OperatorState.

Module ApprovalScope.
Inductive t := ENGAGEMENT_APPROVAL | OPERATION_APPROVAL | PAYLOAD_APPROVAL.
#[export] Instance eq_dec : EqDecision t.
Proof. solve_decision. Defined.
Definition value (x : t) : string :=
  match x with
  | ENGAGEMENT_APPROVAL => "EngagementApproval" | OPERATION_APPROVAL => "OperationApproval"
  | PAYLOAD_APPROVAL => "PayloadApproval"
  end.
Definition all : list t := [ENGAGEMENT_APPROVAL; OPERATION_APPROVAL; PAYLOAD_APPROVAL].
End ApprovalScope.
Export (hints) ApprovalScope.

Module OperatorImpact.
Inductive t := OBSERVE | PROBE | EXPLOIT | DESTRUCT.
#[export] Instance eq_dec : EqDecision t.
Proof. solve_decision. Defined.
Definition value (x : t) : string :=
  match x with OBSERVE => "Observe" | PROBE => "Probe" | EXPLOIT => "Exploit" | DESTRUCT => "Destruct" end.
End OperatorImpact.
Export (hints) OperatorImpact.

(** ** Clearance *)

Definition clearance_rank (level : OperatorClearanceLevel.t) : Z :=
  match level with
  | OperatorClearanceLevel.L1 => 1 | OperatorClearanceLevel.L2 => 2 | OperatorClearanceLevel.L3 => 3
  | OperatorClearanceLevel.L4_CISO => 4
  end.

Definition impact_rank (ceiling : OperatorImpact.t) : Z :=
  match ceiling with
  | OperatorImpact.OBSERVE => 1 | OperatorImpact.PROBE => 2 | OperatorImpact.EXPLOIT => 3 | OperatorImpact.DESTRUCT => 4
  end.

Definition max_impact_ceiling (level : OperatorClearanceLevel.t) : OperatorImpact.t :=
  match level with
  | OperatorClearanceLevel.L1 => OperatorImpact.OBSERVE
  | OperatorClearanceLevel.L2 => OperatorImpact.PROBE
  | OperatorClearanceLevel.L3 => OperatorImpact.EXPLOIT
  | OperatorClearanceLevel.L4_CISO => OperatorImpact.DESTRUCT
  end.

Definition min_clearance_for_scope (scope : ApprovalScope.t) : OperatorClearanceLevel.t :=
  match scope with
  | ApprovalScope.ENGAGEMENT_APPROVAL => OperatorClearanceLevel.L3
  | ApprovalScope.OPERATION_APPROVAL => OperatorClearanceLevel.L3
  | ApprovalScope.PAYLOAD_APPROVAL => OperatorClearanceLevel.L3
  end.

Definition clearance_meets_scope (level : OperatorClearanceLevel.t) (scope : ApprovalScope.t) : bool :=
  clearance_rank (min_clearance_for_scope scope) <=? clearance_rank level.

Definition can_authorize_ceiling (level : OperatorClearanceLevel.t) (ceiling : OperatorImpact.t) : bool :=
  impact_rank ceiling <=? impact_rank (max_impact_ceiling level).

(** ** Exceptions and events *)

Inductive OperatorException :=
  | InvalidArgument (field reason : string)
  | InvalidStateTransition (current attempted : string) (aggregate : uuid)
  | TenantMismatch (expected actual : TenantId)
  | OperatorNotAuthorized (reason : string) (operator : uuid).

Inductive OperatorEvent :=
  | OperatorActivated (identity_ref clearance_level : string)
  | OperatorSuspended (reason authority : string)
  | OperatorRevoked (reason authority : string)
  | OperatorClearanceLevelChanged (previous_level new_level authority : string)
  | OperatorAddedToEngagement (engagement : uuid)
  | OperatorRemovedFromEngagement (engagement : uuid).

(** ** Value objects

    A value object around a tuple is that list; [X_new] is its [__post_init__]. *)

(** The loop of [OperatorCertifications]: the categories, stripped, of which none is
    empty or repeats another one in lower case. *)
Fixpoint normalize (seen : list string) (categories : list string) : result OperatorException (list string) :=
  match categories with
  | [] => Ok []
  | raw :: rest =>
      let cat := strip raw in
      if empty_str cat then Err (InvalidArgument "OperatorCertifications" "category must not be empty")
      else if bool_decide (lower cat ∈ seen) then
        Err (InvalidArgument "OperatorCertifications" ("duplicate category: " +:+ cat))
      else match normalize (lower cat :: seen) rest with Ok l => Ok (cat :: l) | Err e => Err e end
  end.
Definition OperatorCertifications_new (categories : list string) : result OperatorException (list string) :=
  normalize [] categories.

(** The first element that occurs twice. *)
Fixpoint first_duplicate {A} `{EqDecision A} (seen l : list A) : option A :=
  match l with
  | [] => None
  | x :: l => if bool_decide (x ∈ seen) then Some x else first_duplicate (x :: seen) l
  end.

Definition ApprovalAuthority_new (scopes : list ApprovalScope.t) : result OperatorException (list ApprovalScope.t) :=
  match first_duplicate [] scopes with
  | Some s => Err (InvalidArgument "ApprovalAuthority" ("duplicate scope: " +:+ ApprovalScope.value s))
  | None => Ok scopes
  end.
Definition authority_includes (scope : ApprovalScope.t) (scopes : list ApprovalScope.t) : bool := bool_decide (scope ∈ scopes).
Definition with_granted (scope : ApprovalScope.t) (scopes : list ApprovalScope.t)
    : result OperatorException (list ApprovalScope.t) :=
  if bool_decide (scope ∈ scopes) then Ok scopes else ApprovalAuthority_new (scopes ++ [scope]).
Definition with_revoked (scope : ApprovalScope.t) (scopes : list ApprovalScope.t)
    : result OperatorException (list ApprovalScope.t) :=
  if bool_decide (scope ∉ scopes) then Ok scopes else ApprovalAuthority_new (filter (fun s => s ≠ scope) scopes).

(** The loop of [ActiveEngagementRefs]. *)
Fixpoint check_engagements (seen l : list uuid) : option OperatorException :=
  match l with
  | [] => None
  | eid :: l =>
      if eid =? 0 then Some (InvalidArgument "ActiveEngagementRefs" "engagement id must not be nil")
      else if bool_decide (eid ∈ seen) then
        Some (InvalidArgument "ActiveEngagementRefs" ("duplicate engagement: " +:+ str_uuid eid))
      else check_engagements (eid :: seen) l
  end.
Definition ActiveEngagementRefs_new (ids : list uuid) : result OperatorException (list uuid) :=
  match check_engagements [] ids with Some e => Err e | None => Ok ids end.
Definition engagements_include (eid : uuid) (ids : list uuid) : bool := bool_decide (eid ∈ ids).
Definition with_added (eid : uuid) (ids : list uuid) : result OperatorException (list uuid) :=
  if bool_decide (eid ∈ ids) then Ok ids else ActiveEngagementRefs_new (ids ++ [eid]).
Definition with_removed (eid : uuid) (ids : list uuid) : result OperatorException (list uuid) :=
  if bool_decide (eid ∉ ids) then Ok ids else ActiveEngagementRefs_new (filter (fun e => e ≠ eid) ids).

(** ** Lemmas *)

(** *** Stripping *)

Lemma rstrip_head c s : is_space c = false → ∃ t, rstrip (String c s) = String c t.
Proof. intros Hc. simpl. destruct (rstrip s); [rewrite Hc|]; by eexists. Qed.

Lemma rstrip_rstrip s : rstrip (rstrip s) = rstrip s.
Proof.
  induction s as [|c s IH]; [done|]. simpl. destruct (rstrip s) as [|c' s'] eqn:Hs.
  - destruct (is_space c) eqn:Hc; [done|]. simpl. by rewrite Hc.
  - change (rstrip (String c (String c' s'))) with
      (match rstrip (String c' s') with "" => if is_space c then "" else String c "" | t => String c t end). by rewrite IH.
Qed.

Lemma lstrip_head s : lstrip s = "" ∨ ∃ c t, lstrip s = String c t ∧ is_space c = false.
Proof. induction s as [|c s IH]; [by left|]. simpl. destruct (is_space c) eqn:Hc; [done|]. right. by exists c, s. Qed.

Lemma strip_strip s : strip (strip s) = strip s.
Proof.
  unfold strip. destruct (lstrip_head s) as [->|(c & t & -> & Hc)]; [done|].
  destruct (rstrip_head c t Hc) as (t' & Ht). rewrite Ht. simpl lstrip. rewrite Hc. rewrite <- Ht. apply rstrip_rstrip.
Qed.

(** *** Value objects *)

(** What the constructor of certifications answers is a fixed point of it. *)
Lemma normalize_fixed seen l l' : normalize seen l = Ok l' → normalize seen l' = Ok l'.
Proof.
  revert seen l'. induction l as [|x l IH]; intros seen l'; simpl; [by intros [= <-]|].
  destruct (empty_str (strip x)) eqn:He; [done|]. destruct (bool_decide (lower (strip x) ∈ seen)) eqn:Hs; [done|].
  destruct (normalize (lower (strip x) :: seen) l) as [l0|e] eqn:Hn; [|done]. intros [= <-]. simpl.
  rewrite strip_strip, He, Hs. by rewrite (IH _ _ Hn).
Qed.

Lemma first_duplicate_none {A} `{EqDecision A} (seen l : list A) :
  first_duplicate seen l = None ↔ NoDup l ∧ ∀ x, x ∈ l → x ∉ seen.
Proof.
  revert seen. induction l as [|x l IH]; intros seen; simpl.
  - split; [intros _; split; [constructor|by intros x Hx%not_elem_of_nil]|done].
  - case_bool_decide as Hx.
    + split; [done|]. intros [_ Hall]. exfalso. by apply (Hall x); [left|].
    + rewrite IH, NoDup_cons. split.
      * intros [Hn Hall]. split_and!; [|done|].
        -- intros Hin. by apply (Hall x Hin); left.
        -- intros y [->|Hy]%elem_of_cons; [done|]. intros Hs. by apply (Hall y Hy); right.
      * intros [[Hxl Hn] Hall]. split; [done|]. intros y Hy [->|Hs]%elem_of_cons; [done|]. by apply (Hall y); [right|].
Qed.

Lemma authority_new_spec l l' : ApprovalAuthority_new l = Ok l' ↔ l' = l ∧ NoDup l.
Proof.
  unfold ApprovalAuthority_new. destruct (first_duplicate [] l) eqn:Hd.
  - split; [done|]. intros [_ Hn]. exfalso. assert (first_duplicate [] l = None) as Hx; [|congruence].
    apply first_duplicate_none. split; [done|]. intros x _. apply not_elem_of_nil.
  - apply first_duplicate_none in Hd as [Hn _]. split; [by intros [= <-]|by intros [-> _]].
Qed.

Lemma check_engagements_none seen l : check_engagements seen l = None ↔ NoDup l ∧ ∀ x, x ∈ l → x ≠ 0 ∧ x ∉ seen.
Proof.
  revert seen. induction l as [|x l IH]; intros seen; simpl.
  - split; [intros _; split; [constructor|by intros x Hx%not_elem_of_nil]|done].
  - destruct (Z.eqb_spec x 0) as [->|Hx0]; [split; [done|]; intros [_ Hall]; exfalso; destruct (Hall 0) as [Hz _]; [left|done]|].
    case_bool_decide as Hx.
    + split; [done|]. intros [_ Hall]. exfalso. destruct (Hall x) as [_ Hz]; [left|done].
    + rewrite IH, NoDup_cons. split.
      * intros [Hn Hall]. split_and!; [|done|].
        -- intros Hin. destruct (Hall x Hin) as [_ Hz]. apply Hz. left.
        -- intros y [->|Hy]%elem_of_cons; [done|]. destruct (Hall y Hy) as [Hy0 Hys]. split; [done|]. intros Hs. apply Hys. by right.
      * intros [[Hxl Hn] Hall]. split; [done|]. intros y Hy. destruct (Hall y) as [Hy0 Hys]; [by right|]. split; [done|].
        by intros [->|Hs]%elem_of_cons.
Qed.

Lemma engagements_new_spec l l' : ActiveEngagementRefs_new l = Ok l' ↔ l' = l ∧ NoDup l ∧ 0 ∉ l.
Proof.
  unfold ActiveEngagementRefs_new. destruct (check_engagements [] l) eqn:Hd.
  - split; [done|]. intros (_ & Hn & H0). exfalso. assert (check_engagements [] l = None) as Hx; [|congruence].
    apply check_engagements_none. split; [done|]. intros x Hx. split; [by intros ->|apply not_elem_of_nil].
  - apply check_engagements_none in Hd as [Hn Hall]. split; [|by intros (-> & _)].
    intros [= <-]. split_and!; [done|done|]. intros H0. by destruct (Hall 0 H0).
Qed.

Lemma with_granted_spec s l a : NoDup l → with_granted s l = Ok a → NoDup a ∧ ∀ x, x ∈ a → x = s ∨ x ∈ l.
Proof.
  intros Hl. unfold with_granted. case_bool_decide.
  - intros [= <-]. split; [done|]. by right.
  - intros [-> Hn]%authority_new_spec. split; [done|]. intros x [Hx| ->%list_elem_of_singleton]%elem_of_app; auto.
Qed.
Lemma with_revoked_spec s l a : NoDup l → with_revoked s l = Ok a → NoDup a ∧ a ⊆ l.
Proof.
  intros Hl. unfold with_revoked. case_bool_decide.
  - by intros [= <-].
  - intros [-> Hn]%authority_new_spec. split; [done|]. by intros x [_ Hx]%list_elem_of_filter.
Qed.
Lemma with_added_spec e l a : NoDup l ∧ 0 ∉ l → with_added e l = Ok a → NoDup a ∧ 0 ∉ a.
Proof.
  intros Hl. unfold with_added. case_bool_decide; [by intros [= <-]|]. by intros (-> & Hn)%engagements_new_spec.
Qed.
Lemma with_removed_spec e l a : with_removed e l = Ok a → a ⊆ l ∧ (NoDup l ∧ 0 ∉ l → NoDup a ∧ 0 ∉ a).
Proof.
  unfold with_removed. case_bool_decide; [by intros [= <-]|]. intros (-> & Hn)%engagements_new_spec. split; [|done].
  by intros x [_ Hx]%list_elem_of_filter.
Qed.
