(* ===== verification/OperatorAggregate.v ===== *)
(** The aggregate [red_team_operator.domain.aggregates.red_team_operator.RedTeamOperator]:
    a member of the red team, what the clearance lets the member approve, and the
    engagements the member is on. *)
From stdpp Require Import base tactics list strings sets relations.
From Stdlib Require Import ZArith Lia.
From S2P Require Import Prelude PyTypes OperatorData.

Local Open Scope Z_scope.

Record RedTeamOperator := mkOperator {
  ro_id : uuid;
  ro_tenant_id : TenantId;
  identity_ref : string;
  display_name : string;
  clearance_level : OperatorClearanceLevel.t;
  ro_state : OperatorState.t;
  certifications : list string;
  approval_authority : list ApprovalScope.t;
  active_engagements : list uuid;
  status_reason : option string;
  status_authority : option string;
  ro_created_at : datetime;
  ro_updated_at : datetime;
  ro_version : Z;
  ro_pending_events : list (DomainEvent OperatorEvent)
}.
#[export] Instance RedTeamOperator_settable : Settable RedTeamOperator := fun o =>
  mkOperator (ro_id o) (ro_tenant_id o) (identity_ref o) (display_name o) (clearance_level o) (ro_state o)
    (certifications o) (approval_authority o) (active_engagements o) (status_reason o) (status_authority o)
    (ro_created_at o) (ro_updated_at o) (ro_version o) (ro_pending_events o).

(** The methods, in a name space of their own. *)
Module RO.

Import OperatorState.

Definition _ALLOWED_TRANSITIONS (s : OperatorState.t) : list OperatorState.t :=
  match s with ACTIVE => [SUSPENDED; REVOKED] | SUSPENDED => [REVOKED] | REVOKED => [] end.

Abbreviation M := (PyM RedTeamOperator OperatorException).

Definition pop_events : M (list (DomainEvent OperatorEvent)) :=
  o ← self;
  modify (fun o => o <| ro_pending_events := [] |>);;
  mret (ro_pending_events o).

Definition _emit (now : datetime) (e : OperatorEvent) : M unit :=
  modify (fun o => o <| ro_pending_events ::= fun l => l ++ [mkEvent now (ro_tenant_id o) (ro_id o) e] |>).

Definition _assert_tenant (t : TenantId) : M unit :=
  o ← self;
  raise_if (bool_decide (t ≠ ro_tenant_id o)) (TenantMismatch (ro_tenant_id o) t).

Definition _mutate (now : datetime) : M unit :=
  modify (fun o => o <| ro_updated_at := now |> <| ro_version ::= Z.add 1 |>).

Definition _transition (to_state : OperatorState.t) : M unit :=
  o ← self;
  raise_if (bool_decide (to_state ∉ _ALLOWED_TRANSITIONS (ro_state o)))
    (InvalidStateTransition (value (ro_state o)) (value to_state) (ro_id o));;
  modify (fun o => o <| ro_state := to_state |>).

Definition inactive (s : OperatorState.t) : string :=
  "operator state " +:+ value s +:+ " may not authorize or execute".

Definition _assert_active_for_mutation : M unit :=
  o ← self;
  raise_if (bool_decide (ro_state o ≠ ACTIVE)) (OperatorNotAuthorized (inactive (ro_state o)) (ro_id o)).

(** [activate]; [id] is the id given, or one drawn with [uuid7()].  The check of the
    scopes is a loop: the first one the clearance does not meet is reported. *)
Definition activate (id : uuid) (t : TenantId) (identity : string) (level : OperatorClearanceLevel.t) (now : datetime)
    (display : option string) (certs : list string) (scopes : list ApprovalScope.t)
    : result OperatorException RedTeamOperator :=
  let ref := strip identity in
  if empty_str ref then Err (InvalidArgument "identity_ref" "required")
  else
    let name := strip (match display with Some d => if empty_str d then ref else d | None => ref end) in
    if empty_str name then Err (InvalidArgument "display_name" "required")
    else match OperatorCertifications_new certs with
    | Err e => Err e
    | Ok certs =>
        match ApprovalAuthority_new scopes with
        | Err e => Err e
        | Ok authority =>
            match find (fun s => negb (clearance_meets_scope level s)) authority with
            | Some s => Err (InvalidArgument "approval_scopes" (ApprovalScope.value s +:+ " requires minimum clearance " +:+
                               OperatorClearanceLevel.value (min_clearance_for_scope s)))
            | None =>
                Ok (snd (_emit now (OperatorActivated ref (OperatorClearanceLevel.value level))
                  (mkOperator id t ref name level ACTIVE certs authority [] None None now now 0 [])))
            end
        end
    end.

(** The checks [suspend] and [revoke] begin with. *)
Definition cleaned (t : TenantId) (reason authority : string) : M (string * string) :=
  _assert_tenant t;;
  let cleaned_reason := strip reason in
  let cleaned_authority := strip authority in
  raise_if (empty_str cleaned_reason) (InvalidArgument "reason" "required");;
  raise_if (empty_str cleaned_authority) (InvalidArgument "authority" "required");;
  mret (cleaned_reason, cleaned_authority).

Definition suspend (reason authority : string) (t : TenantId) (now : datetime) : M unit :=
  '(r, a) ← cleaned t reason authority;
  _transition SUSPENDED;;
  modify (fun o => o <| status_reason := Some r |>);;
  modify (fun o => o <| status_authority := Some a |>);;
  _mutate now;;
  _emit now (OperatorSuspended r a).

Definition revoke (reason authority : string) (t : TenantId) (now : datetime) : M unit :=
  '(r, a) ← cleaned t reason authority;
  _transition REVOKED;;
  modify (fun o => o <| status_reason := Some r |>);;
  modify (fun o => o <| status_authority := Some a |>);;
  o ← self;
  let removed := active_engagements o in
  modify (fun o => o <| active_engagements := [] |>);;
  modify (fun o => o <| approval_authority := [] |>);;
  _mutate now;;
  _emit now (OperatorRevoked r a);;
  for_each removed (fun eid => _emit now (OperatorRemovedFromEngagement eid)).

Definition change_clearance_level (new_level : OperatorClearanceLevel.t) (authority : string) (t : TenantId) (now : datetime)
    : M unit :=
  _assert_tenant t;;
  _assert_active_for_mutation;;
  let cleaned_authority := strip authority in
  raise_if (empty_str cleaned_authority) (InvalidArgument "authority" "required");;
  o ← self;
  raise_if (bool_decide (new_level = clearance_level o)) (InvalidArgument "new_level" "must differ from current clearance");;
  let previous := clearance_level o in
  scopes ← lift (ApprovalAuthority_new (filter (fun s => clearance_meets_scope new_level s = true) (approval_authority o)));
  modify (fun o => o <| approval_authority := scopes |>);;
  modify (fun o => o <| clearance_level := new_level |>);;
  _mutate now;;
  _emit now (OperatorClearanceLevelChanged (OperatorClearanceLevel.value previous) (OperatorClearanceLevel.value new_level)
               cleaned_authority).

Definition add_to_engagement (eid : uuid) (t : TenantId) (now : datetime) : M unit :=
  _assert_tenant t;;
  _assert_active_for_mutation;;
  raise_if (eid =? 0) (InvalidArgument "engagement_id" "must not be nil UUID");;
  o ← self;
  raise_if (engagements_include eid (active_engagements o)) (InvalidArgument "engagement_id" "operator already on engagement");;
  ids ← lift (with_added eid (active_engagements o));
  modify (fun o => o <| active_engagements := ids |>);;
  _mutate now;;
  _emit now (OperatorAddedToEngagement eid).

Definition remove_from_engagement (eid : uuid) (t : TenantId) (now : datetime) : M unit :=
  _assert_tenant t;;
  raise_if (eid =? 0) (InvalidArgument "engagement_id" "must not be nil UUID");;
  o ← self;
  raise_if (negb (engagements_include eid (active_engagements o))) (InvalidArgument "engagement_id" "operator not on engagement");;
  raise_if (bool_decide (ro_state o = REVOKED))
    (InvalidStateTransition (value (ro_state o)) "remove_from_engagement" (ro_id o));;
  ids ← lift (with_removed eid (active_engagements o));
  modify (fun o => o <| active_engagements := ids |>);;
  _mutate now;;
  _emit now (OperatorRemovedFromEngagement eid).

Definition insufficient (level : OperatorClearanceLevel.t) (scope : ApprovalScope.t) : string :=
  "clearance " +:+ OperatorClearanceLevel.value level +:+ " insufficient for " +:+ ApprovalScope.value scope.

Definition grant_approval_authority (scope : ApprovalScope.t) (t : TenantId) (now : datetime) : M unit :=
  _assert_tenant t;;
  _assert_active_for_mutation;;
  o ← self;
  raise_if (negb (clearance_meets_scope (clearance_level o) scope))
    (OperatorNotAuthorized (insufficient (clearance_level o) scope +:+ " (requires " +:+
       OperatorClearanceLevel.value (min_clearance_for_scope scope) +:+ ")") (ro_id o));;
  raise_if (authority_includes scope (approval_authority o))
    (InvalidArgument "scope" ("already granted: " +:+ ApprovalScope.value scope));;
  scopes ← lift (with_granted scope (approval_authority o));
  modify (fun o => o <| approval_authority := scopes |>);;
  _mutate now.

Definition revoke_approval_authority (scope : ApprovalScope.t) (t : TenantId) (now : datetime) : M unit :=
  _assert_tenant t;;
  _assert_active_for_mutation;;
  o ← self;
  raise_if (negb (authority_includes scope (approval_authority o)))
    (InvalidArgument "scope" ("not granted: " +:+ ApprovalScope.value scope));;
  scopes ← lift (with_revoked scope (approval_authority o));
  modify (fun o => o <| approval_authority := scopes |>);;
  _mutate now.

Definition can_authorize_impact (ceiling : OperatorImpact.t) (o : RedTeamOperator) : bool :=
  if bool_decide (ro_state o ≠ ACTIVE) then false else can_authorize_ceiling (clearance_level o) ceiling.

Definition assert_can_approve (scope : ApprovalScope.t) : M unit :=
  o ← self;
  raise_if (bool_decide (ro_state o ≠ ACTIVE)) (OperatorNotAuthorized (inactive (ro_state o)) (ro_id o));;
  raise_if (negb (authority_includes scope (approval_authority o)))
    (OperatorNotAuthorized ("missing approval authority for " +:+ ApprovalScope.value scope) (ro_id o));;
  raise_if (negb (clearance_meets_scope (clearance_level o) scope))
    (OperatorNotAuthorized (insufficient (clearance_level o) scope) (ro_id o)).

Inductive call :=
  | OSuspend (reason authority : string) (t : TenantId) (now : datetime)
  | ORevoke (reason authority : string) (t : TenantId) (now : datetime)
  | OChangeClearance (level : OperatorClearanceLevel.t) (authority : string) (t : TenantId) (now : datetime)
  | OAddToEngagement (eid : uuid) (t : TenantId) (now : datetime)
  | ORemoveFromEngagement (eid : uuid) (t : TenantId) (now : datetime)
  | OGrant (scope : ApprovalScope.t) (t : TenantId) (now : datetime)
  | ORevokeAuthority (scope : ApprovalScope.t) (t : TenantId) (now : datetime)
  | OAssertCanApprove (scope : ApprovalScope.t)
  | OPopEvents.

Definition run_call (c : call) : M unit :=
  match c with
  | OSuspend r a t now => suspend r a t now
  | ORevoke r a t now => revoke r a t now
  | OChangeClearance l a t now => change_clearance_level l a t now
  | OAddToEngagement e t now => add_to_engagement e t now
  | ORemoveFromEngagement e t now => remove_from_engagement e t now
  | OGrant s t now => grant_approval_authority s t now
  | ORevokeAuthority s t now => revoke_approval_authority s t now
  | OAssertCanApprove s => assert_can_approve s
  | OPopEvents => pop_events;; mret tt
  end.

(** ** What an operator keeps *)

(** Each scope is held once and backed by the clearance; each engagement is a member
    once; a revoked operator has neither. *)
Record sound (o : RedTeamOperator) : Prop := {
  so_certifications : OperatorCertifications_new (certifications o) = Ok (certifications o);
  so_scopes : NoDup (approval_authority o);
  so_backed : ∀ s, s ∈ approval_authority o → clearance_meets_scope (clearance_level o) s = true;
  so_engagements : NoDup (active_engagements o) ∧ 0 ∉ active_engagements o;
  so_revoked : ro_state o = REVOKED → approval_authority o = [] ∧ active_engagements o = [];
  so_version : 0 <= ro_version o
}.

(** What is fixed by the activation; what an operator may do. *)
Definition fixed (o : RedTeamOperator) :=
  (ro_id o, ro_tenant_id o, identity_ref o, display_name o, certifications o, ro_created_at o).
Definition record (o : RedTeamOperator) :=
  (clearance_level o, ro_state o, approval_authority o, active_engagements o, status_reason o, status_authority o,
   ro_updated_at o, ro_version o).

Definition rank (s : OperatorState.t) : nat := match s with ACTIVE => 0 | SUSPENDED => 1 | REVOKED => 2 end.

(** One call: the state never goes back; once it is not [Active], clearance, scopes and
    engagements can only be lost. *)
Record step (o o' : RedTeamOperator) : Prop := {
  st_fixed : fixed o' = fixed o;
  st_sound : sound o → sound o';
  st_rank : (rank (ro_state o) ≤ rank (ro_state o'))%nat;
  st_inactive : ro_state o ≠ ACTIVE → clearance_level o' = clearance_level o ∧
    approval_authority o' ⊆ approval_authority o ∧ active_engagements o' ⊆ active_engagements o;
  st_revoked : ro_state o = REVOKED → record o' = record o;
  st_version : ro_version o <= ro_version o'
}.

#[export] Instance operator_step_preorder : PreOrder step.
Proof.
  split; [by intros o; split|]. intros a b c [F1 S1 R1 I1 Z1 V1] [F2 S2 R2 I2 Z2 V2].
  assert (ro_state a ≠ ACTIVE → ro_state b ≠ ACTIVE) as Hab by (intros Ha Hb; rewrite Hb in R1; by destruct (ro_state a); simpl in R1; lia || done).
  split; [congruence|auto|lia| | |lia].
  - intros Ha. destruct (I1 Ha) as (C1 & A1 & E1). destruct (I2 (Hab Ha)) as (C2 & A2 & E2).
    split_and!; [congruence|by etrans|by etrans].
  - intros Hr. specialize (Z1 Hr). rewrite <- Z1. apply Z2. unfold record in Z1. by injection Z1 as _ ->.
Qed.

Ltac unfold_operator :=
  unfold suspend, revoke, change_clearance_level, add_to_engagement, remove_from_engagement, grant_approval_authority,
    revoke_approval_authority, assert_can_approve, pop_events, cleaned, _assert_tenant, _transition, _mutate,
    _assert_active_for_mutation in *.

(** ** Lemmas *)

(** Events change nothing else. *)
Definition quiet (o o' : RedTeamOperator) : Prop := fixed o' = fixed o ∧ record o' = record o.

Lemma quiet_sound o o' : quiet o o' → sound o → sound o'.
Proof.
  intros [Hf Hr] [H1 H2 H3 H4 H5 H6]. unfold fixed, record in *. injection Hf as F1 F2 F3 F4 F5 F6.
  injection Hr as E1 E2 E3 E4 E5 E6 E7 E8. split; rewrite ?F5, ?E1, ?E2, ?E3, ?E4, ?E8; done.
Qed.

Lemma wp_emits now l (f : uuid → OperatorEvent) (Q : unit → RedTeamOperator → Prop) X o :
  (∀ o', quiet o o' → Q tt o') → wp (for_each l (fun e => _emit now (f e))) Q X o.
Proof.
  intros HQ. apply (wp_for_each (λ _ o', quiet o o') l); [done|by intros o' Hq; apply HQ|].
  intros eid l' o' Hq. unfold _emit. by wp_run.
Qed.

(** What a call that passed its guards leaves. *)
Lemma sound_scopes o scopes level : sound o → NoDup scopes → (∀ s, s ∈ scopes → clearance_meets_scope level s = true) →
  ro_state o ≠ REVOKED → ∀ o', certifications o' = certifications o → approval_authority o' = scopes → clearance_level o' = level →
  active_engagements o' = active_engagements o → ro_state o' = ro_state o → ro_version o <= ro_version o' → sound o'.
Proof.
  intros [H1 H2 H3 H4 H5 H6] Hn Hm Hr o' E1 E2 E3 E4 E5 E6. split; rewrite ?E1, ?E2, ?E3, ?E4, ?E5; try done. lia.
Qed.

Lemma sound_engagements o ids : sound o → NoDup ids ∧ 0 ∉ ids → ro_state o ≠ REVOKED →
  ∀ o', certifications o' = certifications o → approval_authority o' = approval_authority o → clearance_level o' = clearance_level o →
  active_engagements o' = ids → ro_state o' = ro_state o → ro_version o <= ro_version o' → sound o'.
Proof.
  intros [H1 H2 H3 H4 H5 H6] Hn Hr o' E1 E2 E3 E4 E5 E6. split; rewrite ?E1, ?E2, ?E3, ?E4, ?E5; try done. lia.
Qed.

Lemma quiet_step o o1 o2 : step o o1 → quiet o1 o2 → step o o2.
Proof.
  intros [F S R I Z V] Hq. pose proof Hq as [Hf Hr]. assert (ro_state o2 = ro_state o1 ∧ clearance_level o2 = clearance_level o1 ∧
    approval_authority o2 = approval_authority o1 ∧ active_engagements o2 = active_engagements o1 ∧ ro_version o2 = ro_version o1)
    as (E1 & E2 & E3 & E4 & E5) by (unfold record in Hr; split_and!; congruence).
  split; rewrite ?E1, ?E2, ?E3, ?E4, ?E5; try done; [congruence| |].
  - intros Hs. eapply quiet_sound; [exact Hq|auto].
  - intros Hrev. rewrite Hr. auto.
Qed.

(** A call that asks for an active operator. *)
Lemma step_active o o' : ro_state o = ACTIVE → fixed o' = fixed o → (sound o → sound o') → ro_version o <= ro_version o' → step o o'.
Proof. intros Ha Hf Hs Hv. split; rewrite ?Ha; try done. simpl. lia. Qed.

Lemma wp_emit now e (Q : unit → RedTeamOperator → Prop) X o : (∀ o', quiet o o' → Q tt o') → wp (_emit now e) Q X o.
Proof. intros HQ. unfold _emit. wp_run. apply HQ. by destruct o. Qed.

Lemma operator_allowed_from s s' : s' ∈ _ALLOWED_TRANSITIONS s → s ≠ REVOKED ∧ (rank s < rank s')%nat.
Proof. destruct s, s'; by_compute. Qed.

Ltac emitted :=
  try (apply wp_emit; intros ? ?; first [apply wp_bind | idtac]);
  try (apply wp_emits; intros ? ?);
  repeat match goal with Hq : quiet _ ?o |- step _ ?o => eapply quiet_step; [clear Hq|exact Hq] end.

Lemma operator_call_step c : follows run_call step c.
Proof.
  intros x. destruct c; simpl; unfold_operator; wp_run; stable; try reflexivity; emitted.
  - apply operator_allowed_from in H2 as [Hlive Hrank]. split; simpl in *; try done; try lia.
    intros [S1 S2 S3 S4 S5 S6]. split; simpl; try done; lia.
  - apply operator_allowed_from in H2 as [Hlive Hrank]. split; simpl in *; try done; try lia.
    + intros [S1 S2 S3 S4 S5 S6]. split; simpl; try done; try lia.
      * apply NoDup_nil_2.
      * by intros s Hs%not_elem_of_nil.
      * split; [apply NoDup_nil_2|apply not_elem_of_nil].
    + intros _. split_and!; [done|apply list_subseteq_nil..].
  - apply step_active; [done|done| |simpl; lia]. intros Hs. apply authority_new_spec in H3 as [-> Hn].
    eapply sound_scopes; [exact Hs|exact Hn| |by rewrite H0|simpl; done..|simpl; lia]. intros s [Hm _]%list_elem_of_filter. exact Hm.
  - apply step_active; [done|done| |simpl; lia]. intros Hs.
    match goal with Ha : with_added _ _ = Ok _ |- _ => apply (with_added_spec _ _ _ (so_engagements _ Hs)) in Ha end.
    eapply sound_engagements; [exact Hs|eassumption|congruence|simpl; done..|simpl; lia].
  - match goal with Ha : with_removed _ _ = Ok _ |- _ => apply with_removed_spec in Ha as [Hsub Hn] end.
    split; simpl; try done; try lia. intros Hs.
    eapply sound_engagements; [exact Hs|apply Hn, Hs|done|simpl; done..|simpl; lia].
  - apply step_active; [done|done| |simpl; lia]. intros Hs. guards.
    match goal with Ha : with_granted _ _ = Ok _ |- _ => apply (with_granted_spec _ _ _ (so_scopes _ Hs)) in Ha as [Hn Hin] end.
    eapply sound_scopes; [exact Hs|exact Hn| |congruence|simpl; done..|simpl; lia].
    intros s [->|Hx]%Hin; [done|by apply (so_backed _ Hs)].
  - apply step_active; [done|done| |simpl; lia]. intros Hs.
    match goal with Ha : with_revoked _ _ = Ok _ |- _ => apply (with_revoked_spec _ _ _ (so_scopes _ Hs)) in Ha as [Hn Hin] end.
    eapply sound_scopes; [exact Hs|exact Hn| |congruence|simpl; done..|simpl; lia].
    intros s Hx. by apply (so_backed _ Hs), Hin.
  - eapply quiet_step; [reflexivity|by destruct x].
Qed.

Lemma activate_sound id t identity level now display certs scopes o :
  activate id t identity level now display certs scopes = Ok o →
  sound o ∧ ro_state o = ACTIVE ∧ ro_id o = id ∧ ro_tenant_id o = t ∧ identity_ref o = strip identity ∧ clearance_level o = level ∧
  approval_authority o = scopes ∧ active_engagements o = [].
Proof.
  unfold activate. destruct (empty_str _); [done|]. destruct (empty_str _); [done|].
  destruct (OperatorCertifications_new certs) as [l|e] eqn:Hc; [|done]. destruct (ApprovalAuthority_new scopes) as [a|e] eqn:Ha; [|done].
  apply authority_new_spec in Ha as [-> Hn]. destruct (find _ scopes) as [s|] eqn:Hf; [done|]. intros [= <-]. split; [|done].
  split; simpl; try done.
  - by eapply normalize_fixed.
  - intros s Hs%list_elem_of_In. pose proof (find_none _ _ Hf s Hs) as Hm. by apply negb_false_iff in Hm.
  - split; [apply NoDup_nil_2|apply not_elem_of_nil].
Qed.

Lemma assert_can_approve_spec s o : sound o →
  (assert_can_approve s o).1 = Ok tt ↔ ro_state o = ACTIVE ∧ s ∈ approval_authority o.
Proof.
  intros Hs. unfold assert_can_approve, self, mbind, PyM_bind, raise_if, authority_includes.
  case_bool_decide as Ha; simpl; [split; [done|by intros [? _]]|].
  case_bool_decide as Hin; simpl; [|split; [done|by intros [_ ?]]]. rewrite (so_backed _ Hs s Hin). done.
Qed.

Lemma can_authorize_spec i o : can_authorize_impact i o = true ↔
  ro_state o = ACTIVE ∧ impact_rank i <= clearance_rank (clearance_level o).
Proof.
  unfold can_authorize_impact, can_authorize_ceiling. case_bool_decide as Ha; [split; [done|by intros [? _]]|].
  rewrite Z.leb_le. split; [intros Hi; split; [done|]|intros [_ Hi]]; by destruct (clearance_level o).
Qed.

(** ** Properties *)

(** C19. An operator approves within the clearance: through any calls, answered or
    refused, every scope held is backed by the clearance; the operator may approve a
    scope exactly while active and holding it, which takes clearance L3 at least, and
    may authorize an impact exactly while active with a clearance of that rank. *)
Theorem operator_approves_within_clearance id t identity level now display certs scopes o cs :
  activate id t identity level now display certs scopes = Ok o →
  let p := run_all run_call cs o in
  fixed p = fixed o ∧ sound p ∧
  (∀ s, (assert_can_approve s p).1 = Ok tt ↔ ro_state p = ACTIVE ∧ s ∈ approval_authority p) ∧
  (∀ s, s ∈ approval_authority p → 3 <= clearance_rank (clearance_level p)) ∧
  (∀ i, can_authorize_impact i p = true ↔ ro_state p = ACTIVE ∧ impact_rank i <= clearance_rank (clearance_level p)).
Proof.
  intros Hact p. destruct (activate_sound _ _ _ _ _ _ _ _ _ Hact) as [Hs _].
  destruct (run_all_follows run_call step cs o operator_call_step) as [Hf Hs' _ _ _ _]. fold p in Hf, Hs'. specialize (Hs' Hs).
  split_and!; [done|done|intros s; by apply assert_can_approve_spec| |intros i; apply can_authorize_spec].
  intros s Hin. pose proof (so_backed _ Hs' s Hin) as Hb. unfold clearance_meets_scope in Hb. apply Z.leb_le in Hb. by destruct s.
Qed.

(** C33. An operator that was suspended or revoked is powerless for good: through any
    calls the operator is never active again, approves no scope, authorizes no impact,
    keeps the clearance and joins no engagement; a revoked one stays as the revocation
    left it, without scopes and engagements. *)
Theorem inactive_operator_is_powerless o cs : sound o → ro_state o ≠ ACTIVE →
  let p := run_all run_call cs o in
  ro_state p ≠ ACTIVE ∧ (∀ s, (assert_can_approve s p).1 ≠ Ok tt) ∧ (∀ i, can_authorize_impact i p = false) ∧
  clearance_level p = clearance_level o ∧ active_engagements p ⊆ active_engagements o ∧
  (ro_state o = REVOKED → record p = record o ∧ approval_authority p = [] ∧ active_engagements p = []).
Proof.
  intros Hs Ha p. destruct (run_all_follows run_call step cs o operator_call_step) as [Hf Hs' Hr Hi Hrev _].
  fold p in Hf, Hs', Hr, Hi, Hrev. specialize (Hs' Hs). destruct (Hi Ha) as (Hc & _ & He).
  assert (ro_state p ≠ ACTIVE) as Hp by (intros Hp; rewrite Hp in Hr; by destruct (ro_state o); simpl in Hr; lia || done).
  split_and!; [done| | |done|done|].
  - intros s Hx. apply assert_can_approve_spec in Hx as [? _]; done.
  - intros i. unfold can_authorize_impact. by rewrite bool_decide_eq_true_2.
  - intros Hro. specialize (Hrev Hro). split; [done|]. apply (so_revoked _ Hs'). unfold record in Hrev. congruence.
Qed.

(** The lead of an engagement of [acme]. *)
Definition acme : TenantId := mkEntityId 1.
Definition lead : result OperatorException RedTeamOperator :=
  activate 7 acme " ana@acme " OperatorClearanceLevel.L4_CISO 10 None [" Web "; "Cloud"] [ApprovalScope.PAYLOAD_APPROVAL].
Definition busy_lead : RedTeamOperator :=
  mkOperator 7 acme "ana@acme" "ana@acme" OperatorClearanceLevel.L4_CISO ACTIVE ["Web"; "Cloud"] [ApprovalScope.PAYLOAD_APPROVAL]
    [] None None 10 10 0 [mkEvent 10 acme 7 (OperatorActivated "ana@acme" "L4_CISO")].

Lemma lead_activated : lead = Ok busy_lead.
Proof. vm_compute. reflexivity. Qed.

(** The lead joins an engagement and is moved to L2: the scope is lost. *)
Lemma operator_approves_within_clearance_witness :
  let p := run_all run_call [OAddToEngagement 3 acme 11; OChangeClearance OperatorClearanceLevel.L2 "ciso" acme 12] busy_lead in
  sound p ∧ approval_authority p = [] ∧ (assert_can_approve ApprovalScope.PAYLOAD_APPROVAL p).1 ≠ Ok tt.
Proof.
  intros p.
  destruct (operator_approves_within_clearance 7 acme " ana@acme " OperatorClearanceLevel.L4_CISO 10 None [" Web "; "Cloud"]
    [ApprovalScope.PAYLOAD_APPROVAL] busy_lead
    [OAddToEngagement 3 acme 11; OChangeClearance OperatorClearanceLevel.L2 "ciso" acme 12] lead_activated) as (_ & Hs & Hap & _ & _).
  split; [exact Hs|]. split; [vm_compute; reflexivity|]. intros Hx. apply Hap in Hx as [_ Hin]. revert Hin. apply not_elem_of_nil.
Defined.

Lemma inactive_operator_is_powerless_witness :
  let o := run_all run_call [OAddToEngagement 3 acme 11; OSuspend "left" "ciso" acme 12] busy_lead in
  let p := run_all run_call [OGrant ApprovalScope.OPERATION_APPROVAL acme 13; OAddToEngagement 4 acme 14] o in
  ro_state p = SUSPENDED ∧ active_engagements p ⊆ [3] ∧ ∀ i, can_authorize_impact i p = false.
Proof.
  intros o p. destruct (activate_sound _ _ _ _ _ _ _ _ _ lead_activated) as [Hs _].
  destruct (run_all_follows run_call step [OAddToEngagement 3 acme 11; OSuspend "left" "ciso" acme 12] busy_lead operator_call_step)
    as [_ Hs' _ _ _ _]. specialize (Hs' Hs).
  destruct (inactive_operator_is_powerless o [OGrant ApprovalScope.OPERATION_APPROVAL acme 13; OAddToEngagement 4 acme 14] Hs')
    as (_ & _ & Hi & _ & He & _); [vm_compute; discriminate|].
  split; [vm_compute; reflexivity|]. split; [exact He|exact Hi].
Defined.
End RO.
Export (hints) RO.
