(* ===== verification/OperatorStore.v ===== *)
(** Persistence of operators: the JSON columns, the table with its key, and the
    repository with its optimistic locking. *)
From stdpp Require Import base tactics list strings sets.
From Stdlib Require Import ZArith Lia.
From S2P Require Import Prelude PyTypes PyParse PyJson PyStore OperatorData OperatorAggregate.

Local Open Scope Z_scope.

(** ** Table *)

Record OperatorRow := mkOperatorRow {
  zr_id : uuid; zr_tenant_id : TenantId; zr_identity_ref : string; zr_display_name : string; zr_clearance_level : string;
  zr_state : string; zr_certifications_json : list string; zr_approval_scopes_json : list string;
  zr_active_engagement_ids_json : list string; zr_status_reason : option string; zr_status_authority : option string;
  zr_created_at : datetime; zr_updated_at : datetime; zr_row_version : Z }.
#[export] Instance OperatorRow_settable : Settable OperatorRow := fun r =>
  mkOperatorRow (zr_id r) (zr_tenant_id r) (zr_identity_ref r) (zr_display_name r) (zr_clearance_level r) (zr_state r)
    (zr_certifications_json r) (zr_approval_scopes_json r) (zr_active_engagement_ids_json r) (zr_status_reason r)
    (zr_status_authority r) (zr_created_at r) (zr_updated_at r) (zr_row_version r).

Abbreviation RoDb := (list OperatorRow).

(** ** Mapping *)

(** A constructor that may raise. *)
Definition constructed {A} (r : result OperatorException A) : option A := match r with Ok a => Some a | Err _ => None end.

Definition _to_domain (row : OperatorRow) : option RedTeamOperator :=
  scopes ← mapM (of_text ApprovalScope.value ApprovalScope.all) (zr_approval_scopes_json row);
  ids ← mapM uuid_of_text (zr_active_engagement_ids_json row);
  id ← non_nil (zr_id row);
  level ← of_text OperatorClearanceLevel.value OperatorClearanceLevel.all (zr_clearance_level row);
  st ← of_text OperatorState.value OperatorState.all (zr_state row);
  certs ← constructed (OperatorCertifications_new (zr_certifications_json row));
  authority ← constructed (ApprovalAuthority_new scopes);
  engagements ← constructed (ActiveEngagementRefs_new ids);
  Some (mkOperator id (zr_tenant_id row) (zr_identity_ref row) (zr_display_name row) level st certs authority engagements
          (zr_status_reason row) (zr_status_authority row) (zr_created_at row) (zr_updated_at row) (zr_row_version row) []).

Definition _from_domain (o : RedTeamOperator) : OperatorRow :=
  mkOperatorRow (ro_id o) (ro_tenant_id o) (identity_ref o) (display_name o)
    (OperatorClearanceLevel.value (clearance_level o)) (OperatorState.value (ro_state o)) (certifications o)
    (map ApprovalScope.value (approval_authority o)) (map str_uuid (active_engagements o)) (status_reason o)
    (status_authority o) (ro_created_at o) (ro_updated_at o) (if 0 <? ro_version o then ro_version o else 1).

(** What an update writes. *)
Definition updated_operator_row (o : RedTeamOperator) (version : Z) (r : OperatorRow) : OperatorRow :=
  r <| zr_identity_ref := identity_ref o |> <| zr_display_name := display_name o |>
    <| zr_clearance_level := OperatorClearanceLevel.value (clearance_level o) |>
    <| zr_state := OperatorState.value (ro_state o) |> <| zr_certifications_json := certifications o |>
    <| zr_approval_scopes_json := map ApprovalScope.value (approval_authority o) |>
    <| zr_active_engagement_ids_json := map str_uuid (active_engagements o) |> <| zr_status_reason := status_reason o |>
    <| zr_status_authority := status_authority o |> <| zr_updated_at := ro_updated_at o |> <| zr_row_version := version |>.

(** ** PgRedTeamOperatorRepository *)

Definition find_row (id : uuid) (db : RoDb) : option OperatorRow := find (fun r => bool_decide (zr_id r = id)) db.

(** [_current_row_version] *)
Definition _current_row_version (id : uuid) (db : RoDb) : Z :=
  match find_row id db with Some r => zr_row_version r | None => -1 end.

Section Repository.
Context `{!RowOrder} `{!TenantColumns}.

(** [save]; it sets the version of the operator to that of its row. *)
Definition save_operator (o : RedTeamOperator) (db : RoDb) : result StoreError (RoDb * RedTeamOperator) :=
  match find_row (ro_id o) db with
  | None => Ok (db ++ [(_from_domain o) <| zr_row_version := 1 |>], o <| ro_version := 1 |>)
  | Some row =>
      if negb (uuid_equals_ulid && bool_decide (zr_tenant_id row = ro_tenant_id o))
      then Err (OptimisticLockConflict (ro_id o) (ro_version o) (-1))
      else
        let actual := zr_row_version row in
        if negb ((ro_version o =? actual + 1) || (ro_version o =? actual))
        then Err (OptimisticLockConflict (ro_id o) (ro_version o) actual)
        else
          let hit r := bool_decide (zr_id r = ro_id o ∧ zr_tenant_id r = ro_tenant_id o ∧ zr_row_version r = actual) in
          if negb (existsb hit db) then Err (OptimisticLockConflict (ro_id o) actual (_current_row_version (ro_id o) db))
          else Ok (map (fun r => if hit r then updated_operator_row o (actual + 1) r else r) db, o <| ro_version := actual + 1 |>)
  end.

(** [find_by_id], of any tenant. *)
Definition find_operator (id : uuid) (db : RoDb) : result StoreError (option RedTeamOperator) :=
  match find_row id db with
  | None => Ok None
  | Some row => match decoded (_to_domain row) with Ok o => Ok (Some o) | Err e => Err e end
  end.

(** [order_by(display_name.asc())] is in the collation of the database: the model
    answers the rows in any order. *)
Definition active_rows (t : TenantId) (db : RoDb) : list OperatorRow :=
  select_order (filter (fun r => zr_tenant_id r = t ∧ zr_state r = OperatorState.value OperatorState.ACTIVE) db).

(** The condition of the loop of [find_authorized_approvers]. *)
Definition approves (scope : ApprovalScope.t) (o : RedTeamOperator) : bool :=
  authority_includes scope (approval_authority o) && clearance_meets_scope (clearance_level o) scope.

Definition find_authorized_approvers (scope : ApprovalScope.t) (t : TenantId) (db : RoDb)
    : result StoreError (list RedTeamOperator) :=
  match decoded (mapM _to_domain (active_rows t db)) with
  | Ok ops => Ok (filter (fun o => approves scope o = true) ops)
  | Err e => Err e
  end.

Definition find_by_tenant (t : TenantId) (include_inactive : bool) (limit offset : Z) (db : RoDb)
    : result StoreError (list RedTeamOperator) :=
  let rows := if include_inactive then select_order (filter (fun r => zr_tenant_id r = t) db) else active_rows t db in
  decoded (mapM _to_domain (take (Z.to_nat limit) (drop (Z.to_nat offset) rows))).
End Repository.

(** ** What is stored *)

(** The ids are UUIDs, the id is not nil; the identity was stripped and fits its
    column. *)
Record ok_operator (o : RedTeamOperator) : Prop := {
  oo_id : ro_id o ≠ 0;
  oo_engagements : ∀ e, e ∈ active_engagements o → uuid_ok e;
  oo_identity : strip (identity_ref o) = identity_ref o ∧ identity_ref o ≠ "" ∧ (String.length (identity_ref o) ≤ 256)%nat
}.

(** A row is that of an operator once saved. *)
Definition operator_row (o : RedTeamOperator) : OperatorRow := (_from_domain o) <| zr_row_version := ro_version o |>.

Record stored_operator (db : RoDb) (o : RedTeamOperator) : Prop := {
  sr_row : operator_row o ∈ db;
  sr_ok : ok_operator o;
  sr_sound : RO.sound o;
  sr_events : ro_pending_events o = []
}.

Record ro_good (db : RoDb) : Prop := {
  rg_ids : NoDup (map zr_id db);
  rg_rows : ∀ r, r ∈ db → ∃ o, r = operator_row o ∧ stored_operator db o
}.

(** ** Lemmas *)

Lemma of_text_scope x : of_text ApprovalScope.value ApprovalScope.all (ApprovalScope.value x) = Some x.
Proof. by destruct x; vm_compute. Qed.
Lemma of_text_clearance x :
  of_text OperatorClearanceLevel.value OperatorClearanceLevel.all (OperatorClearanceLevel.value x) = Some x.
Proof. by destruct x; vm_compute. Qed.
Lemma of_text_operator_state x : of_text OperatorState.value OperatorState.all (OperatorState.value x) = Some x.
Proof. by destruct x; vm_compute. Qed.

Lemma mapM_round {A B} (enc : A → B) (dec : B → option A) l : (∀ x, x ∈ l → dec (enc x) = Some x) → mapM dec (map enc l) = Some l.
Proof.
  intros Hdec. apply mapM_Some_2. induction l as [|x l IH]; constructor; [apply Hdec; left|].
  apply IH. intros y Hy. apply Hdec. by right.
Qed.

Lemma operator_round o : ok_operator o → RO.sound o → _to_domain (operator_row o) = Some (o <| ro_pending_events := [] |>).
Proof.
  intros [Hid He _] [Hc Hn _ [Hne H0] _ _].
  assert (operator_row o = mkOperatorRow (ro_id o) (ro_tenant_id o) (identity_ref o) (display_name o)
    (OperatorClearanceLevel.value (clearance_level o)) (OperatorState.value (ro_state o)) (certifications o)
    (map ApprovalScope.value (approval_authority o)) (map str_uuid (active_engagements o)) (status_reason o)
    (status_authority o) (ro_created_at o) (ro_updated_at o) (ro_version o)) as -> by done.
  unfold _to_domain. cbn [zr_id zr_tenant_id zr_identity_ref zr_display_name zr_clearance_level zr_state zr_certifications_json
    zr_approval_scopes_json zr_active_engagement_ids_json zr_status_reason zr_status_authority zr_created_at zr_updated_at zr_row_version].
  rewrite (mapM_round ApprovalScope.value) by (intros; apply of_text_scope). cbn [mbind option_bind].
  rewrite (mapM_round str_uuid) by (intros x Hx; by apply uuid_round, He). cbn [mbind option_bind].
  rewrite non_nil_ok by done. cbn [mbind option_bind]. rewrite of_text_clearance. cbn [mbind option_bind].
  rewrite of_text_operator_state. cbn [mbind option_bind]. rewrite Hc. cbn [constructed mbind option_bind].
  rewrite (proj2 (authority_new_spec _ _) (conj eq_refl Hn)). cbn [constructed mbind option_bind].
  rewrite (proj2 (engagements_new_spec _ _) (conj eq_refl (conj Hne H0))). by destruct o.
Qed.

#[global] Arguments _to_domain : simpl never.

Lemma no_pending_operator o : ro_pending_events o = [] → o <| ro_pending_events := [] |> = o.
Proof. destruct o. simpl. by intros ->. Qed.

Lemma stored_operator_decodes db o : stored_operator db o → _to_domain (operator_row o) = Some o.
Proof. intros [_ Hok Hs He]. by rewrite operator_round, no_pending_operator. Qed.

Lemma stored_operator_unique db o o' : ro_good db → stored_operator db o → stored_operator db o' → ro_id o = ro_id o' → o = o'.
Proof.
  intros Hg Ho Ho' Hid. pose proof (stored_operator_decodes _ _ Ho) as Hd. pose proof (stored_operator_decodes _ _ Ho') as Hd'.
  assert (operator_row o = operator_row o') as Heq by (apply (nodup_key_inj zr_id db); [apply (rg_ids _ Hg)|apply Ho|apply Ho'|done]).
  rewrite Heq in Hd. congruence.
Qed.

Lemma find_operator_spec id db : ro_good db →
  match find_operator id db with
  | Ok (Some o) => stored_operator db o ∧ ro_id o = id
  | Ok None => ∀ o, stored_operator db o → ro_id o ≠ id
  | Err _ => False
  end.
Proof.
  intros Hg. unfold find_operator, find_row. destruct (find _ db) as [r|] eqn:Hf.
  - apply find_key_some in Hf as [Hr Hid]. destruct (rg_rows _ Hg r Hr) as (o & -> & Ho). unfold decoded.
    by rewrite (stored_operator_decodes _ _ Ho).
  - intros o Ho Hid. by apply (find_key_none zr_id _ (operator_row o) _ Hf), Hid; apply Ho.
Qed.

(** The rows of stored operators are decoded one by one. *)
Lemma decode_operators db rows : ro_good db → (∀ r, r ∈ rows → r ∈ db) →
  ∃ ops, mapM _to_domain rows = Some ops ∧ map operator_row ops = rows ∧ ∀ o, o ∈ ops → stored_operator db o.
Proof.
  intros Hg. induction rows as [|r rows IH]; intros Hrows; [exists []; split_and!; [done|done|]; by intros o Ho%not_elem_of_nil|].
  destruct (rg_rows _ Hg r) as (o & -> & Ho); [apply Hrows; left|]. destruct IH as (ops & Hm & Heq & Hops); [intros r Hr; apply Hrows; by right|].
  exists (o :: ops). split_and!; [cbn [mapM]; rewrite (stored_operator_decodes _ _ Ho); cbn; by rewrite Hm|cbn; by rewrite Heq|].
  intros o' [->|Ho']%elem_of_cons; auto.
Qed.

(** *** Saves *)

(** A save: the row of the operator is written, the others are kept. *)
Record saved_operator (db db' : RoDb) (o : RedTeamOperator) : Prop := {
  sv_good : ro_good db';
  sv_rows : upserted zr_id (ro_id o) (operator_row o) db db'
}.

Lemma ok_operator_version o v : ok_operator o → ok_operator (o <| ro_version := v |>).
Proof. by destruct o; intros []; split. Qed.
Lemma sound_operator_version o v : RO.sound o → 0 <= v → RO.sound (o <| ro_version := v |>).
Proof. by destruct o; intros [] ?; split. Qed.

Lemma saved_operator_intro db rows o : ro_good db → ok_operator o → RO.sound o →
  upserted zr_id (ro_id o) (operator_row o) db rows → saved_operator db rows o.
Proof.
  intros [H1 H2] Hok Hs Hup. split; [|done]. split; [apply Hup|].
  intros r Hr. pose proof (up_all _ _ _ _ _ Hup r Hr) as [->|[Hold Hne]].
  - exists (o <| ro_pending_events := [] |>). split; [by destruct o|]. destruct o, Hok, Hs. split; done || by split.
  - destruct (H2 r Hold) as (q & -> & [Hq ? ? ?]). exists q. by split.
Qed.

Lemma updated_operator q o v : RO.fixed q = RO.fixed o → updated_operator_row o v (operator_row q) = operator_row (o <| ro_version := v |>).
Proof.
  destruct q, o. unfold RO.fixed, operator_row, _from_domain, updated_operator_row. simpl. intros [= -> -> -> -> -> ->]. done.
Qed.

Section Saves.
Context `{!TenantColumns}.

Lemma save_operator_spec o db : ro_good db → ok_operator o → RO.sound o →
  (∀ q, stored_operator db q → ro_id q = ro_id o → RO.fixed q = RO.fixed o) →
  match save_operator o db with
  | Ok (db', o') => saved_operator db db' o' ∧ ∃ v, o' = o <| ro_version := v |> ∧ 0 <= v ∧
      ∀ q, stored_operator db q → ro_id q = ro_id o → v = ro_version q + 1
  | Err _ => ∃ q, stored_operator db q ∧ ro_id q = ro_id o
  end.
Proof.
  intros Hg Hok Hs Hfix. unfold save_operator, find_row. destruct (find _ db) as [r|] eqn:Hf.
  - apply find_key_some in Hf as [Hr Hid]. destruct (rg_rows _ Hg r Hr) as (q & -> & Hq).
    change (zr_id (operator_row q)) with (ro_id q) in Hid. pose proof (Hfix q Hq Hid) as Hfq.
    destruct (negb _); [by exists q|]. cbv zeta. destruct (negb _); [by exists q|]. destruct (negb _); [by exists q|].
    change (zr_row_version (operator_row q)) with (ro_version q). change (zr_tenant_id (operator_row q)) with (ro_tenant_id q).
    assert (0 <= ro_version q) as Hv by apply (RO.so_version _ (sr_sound _ _ Hq)). set (o' := o <| ro_version := ro_version q + 1 |>).
    split; [|exists (ro_version q + 1); split_and!; [done|lia|]; intros x Hx Hxid;
      by rewrite (stored_operator_unique db x q) by (done || congruence)].
    apply saved_operator_intro; [done|by apply ok_operator_version|apply sound_operator_version; [done|lia]|].
    set (hit := fun r => bool_decide (zr_id r = ro_id o ∧ zr_tenant_id r = ro_tenant_id o ∧ zr_row_version r = ro_version q)). unfold o'. rewrite <- (updated_operator q o) by done.
    replace (ro_id (o <| ro_version := ro_version q + 1 |>)) with (zr_id (operator_row q)) by (refine (eq_trans Hid _); by destruct o).
    apply (updated_row zr_id hit (updated_operator_row o (ro_version q + 1))); [apply (rg_ids _ Hg)|done| | |done].
    + apply bool_decide_eq_true_2. split_and!; [done| |done]. unfold RO.fixed in Hfq. simpl. congruence.
    + intros r Hh. apply bool_decide_eq_true in Hh as (-> & _). exact (eq_sym Hid).
  - assert (∀ q, stored_operator db q → ro_id q ≠ ro_id o) as Hno
      by (intros q Hq Hid; by apply (find_key_none zr_id _ (operator_row q) _ Hf), Hid; apply Hq).
    split; [|exists 1; split_and!; [done|done|]; intros q Hq Hid; by destruct (Hno q Hq)].
    apply saved_operator_intro; [done|by apply ok_operator_version|by apply sound_operator_version|].
    assert ((_from_domain o) <| zr_row_version := 1 |> = operator_row (o <| ro_version := 1 |>)) as -> by (by destruct o).
    apply (inserted_row zr_id (operator_row (o <| ro_version := 1 |>))); [apply (rg_ids _ Hg)|].
    intros (r & Heq & Hr)%list_elem_of_fmap. apply (find_key_none zr_id _ r _ Hf Hr). rewrite <- Heq. by destruct o.
Qed.
End Saves.

(** *** Reads *)

Section Reads.
Context `{!RowOrder}.

Lemma in_active_rows t db r : r ∈ active_rows t db ↔ r ∈ db ∧ zr_tenant_id r = t ∧ zr_state r = OperatorState.value OperatorState.ACTIVE.
Proof. unfold active_rows. rewrite select_order_perm, list_elem_of_filter. tauto. Qed.

Lemma find_by_tenant_spec t inactive limit offset db : ro_good db →
  ∃ l, find_by_tenant t inactive limit offset db = Ok l ∧ ∀ o, o ∈ l → stored_operator db o ∧ ro_tenant_id o = t.
Proof.
  intros Hg. unfold find_by_tenant. set (rows := take _ _).
  assert (∀ r, r ∈ rows → r ∈ db ∧ zr_tenant_id r = t) as Hrows.
  { intros r Hr. unfold rows in Hr. apply (subseteq_take _ _ r), (subseteq_drop _ _ r) in Hr. destruct inactive.
    - rewrite select_order_perm in Hr. by apply list_elem_of_filter in Hr as [? ?].
    - apply in_active_rows in Hr. tauto. }
  clearbody rows. destruct (decode_operators db rows Hg) as (ops & -> & Heq & Hops); [intros r Hr; by apply Hrows|].
  exists ops. split; [done|]. intros o Ho. split; [auto|]. destruct (Hrows (operator_row o)) as [_ Ht]; [|done].
  rewrite <- Heq. by apply list_elem_of_fmap_2.
Qed.

(** C34. The approvers that are found are exactly the stored operators of the tenant that
    may approve the scope, each once. *)
Theorem authorized_approvers_are_found scope t db : ro_good db →
  ∃ ops, find_authorized_approvers scope t db = Ok ops ∧ NoDup ops ∧
    ∀ o, o ∈ ops ↔ stored_operator db o ∧ ro_tenant_id o = t ∧ (RO.assert_can_approve scope o).1 = Ok tt.
Proof.
  intros Hg. unfold find_authorized_approvers.
  destruct (decode_operators db (active_rows t db) Hg) as (ops & Hm & Heq & Hops); [by intros r [? _]%in_active_rows|].
  unfold decoded. rewrite Hm. eexists. split; [done|].
  assert (NoDup ops) as Hnd.
  { apply (NoDup_fmap_1 operator_row). change (NoDup (map operator_row ops)). rewrite Heq. unfold active_rows.
    rewrite select_order_perm. apply NoDup_filter, (NoDup_fmap_1 zr_id), Hg. }
  split; [by apply NoDup_filter|]. intros o. rewrite list_elem_of_filter. split.
  - intros [Hap Ho]. pose proof (Hops o Ho) as Hst. assert (operator_row o ∈ active_rows t db) as Hr
      by (rewrite <- Heq; by apply list_elem_of_fmap_2).
    apply in_active_rows in Hr as (_ & Ht & Hs). split_and!; [done|done|]. apply RO.assert_can_approve_spec; [apply Hst|].
    unfold approves, authority_includes in Hap. guards. split; [|done]. unfold operator_row, _from_domain in Hs. simpl in Hs. by destruct (ro_state o).
  - intros (Hst & Ht & Hap%RO.assert_can_approve_spec); [|apply Hst]. destruct Hap as [Ha Hin]. split.
    + unfold approves, authority_includes. rewrite bool_decide_eq_true_2 by done. by apply (RO.so_backed _ (sr_sound _ _ Hst)).
    + assert (operator_row o ∈ map operator_row ops) as (o' & Hr & Ho')%list_elem_of_fmap.
      { rewrite Heq. apply in_active_rows. split; [apply Hst|]. split; [done|]. unfold operator_row, _from_domain. simpl. by rewrite Ha. }
      assert (o = o') as ->; [|done]. pose proof (stored_operator_decodes _ _ Hst) as Hd.
      pose proof (stored_operator_decodes _ _ (Hops o' Ho')) as Hd'. rewrite Hr in Hd. congruence.
Qed.
End Reads.

(** Two operators of one tenant that may approve plans, the second one suspended. *)
#[local] Existing Instance insertion_order.
Definition approver (id : uuid) (st : OperatorState.t) : RedTeamOperator :=
  mkOperator id RO.acme "ana@acme" "Ana" OperatorClearanceLevel.L3 st ["Web"] [ApprovalScope.OPERATION_APPROVAL] [] None None
    10 10 1 [].
Definition approver_rows : RoDb := map operator_row [approver 7 OperatorState.ACTIVE; approver 8 OperatorState.SUSPENDED].

Lemma approver_rows_good : ro_good approver_rows.
Proof.
  split; [by_compute|]. assert (∀ id st, id ≠ 0 → st ≠ OperatorState.REVOKED → operator_row (approver id st) ∈ approver_rows →
    stored_operator approver_rows (approver id st)) as Hst.
  { intros id st Hid Hlive Hin. split; [done| | |done]; split; try done; try (by intros ? ?%not_elem_of_nil).
    - split_and!; by_compute.
    - by_compute.
    - intros s ->%list_elem_of_singleton. done.
    - split; [apply NoDup_nil_2|apply not_elem_of_nil]. }
  intros r (o & -> & [->|[->|[]%not_elem_of_nil]%elem_of_cons]%elem_of_cons)%list_elem_of_fmap; eexists; split; [done| |done|];
    apply Hst; first [done|left|right; left].
Qed.

Lemma authorized_approvers_are_found_witness :
  ∃ ops, find_authorized_approvers ApprovalScope.OPERATION_APPROVAL RO.acme approver_rows = Ok ops ∧
    approver 7 OperatorState.ACTIVE ∈ ops ∧ approver 8 OperatorState.SUSPENDED ∉ ops.
Proof.
  destruct (authorized_approvers_are_found ApprovalScope.OPERATION_APPROVAL RO.acme approver_rows approver_rows_good)
    as (ops & Hf & _ & Hops). exists ops. split; [exact Hf|]. split.
  - vm_compute in Hf. injection Hf as <-. left.
  - intros Hin. apply Hops in Hin as (_ & _ & Hap). vm_compute in Hap. discriminate Hap.
Defined.
