(* ===== verification/OperatorApp.v ===== *)
(** [red_team_operator.OperatorApplicationService] and [OperatorQueryService]: every
    command validates its input, loads the operator in a unit of work, calls it,
    saves, commits and publishes; and what this keeps true of the table. *)
From stdpp Require Import base tactics list strings relations.
From Stdlib Require Import ZArith Lia.
From S2P Require Import Prelude PyTypes PyParse PyJson PyStore OperatorData OperatorAggregate OperatorStore.

Local Open Scope Z_scope.

(** ** The world of the service *)

(** [ValueErr] is the [ValueError] of an identifier, which no command catches. *)
Inductive RoError :=
  | ApplicationValidationError (field reason : string)
  | ApplicationNotFoundError (resource : string) (id : uuid)
  | ValueErr
  | Domain (e : OperatorException)
  | Store (e : StoreError).

Record World := mkWorld { w_db : RoDb; w_published : list (DomainEvent OperatorEvent) }.
#[export] Instance World_settable : Settable World := fun w => mkWorld (w_db w) (w_published w).

Definition empty_world : World := mkWorld [] [].

Abbreviation App := (PyM World RoError).
Abbreviation Tx := (PyM (Session RoDb) RoError).

(** [async with self._uow_factory() as uow: body] *)
Definition in_uow {A} (body : Tx A) : App A := fun w =>
  let '(r, s) := body (mkSession (w_db w) (w_db w)) in (r, w <| w_db := s_durable s |>).

(** A query of the repository, inside a unit of work and, in the query service, on
    the table. *)
Definition query {A} (q : RoDb → result StoreError A) : Tx A := fun s =>
  match q (s_view s) with Ok a => (Ok a, s) | Err e => (Err (Store e), s) end.
Definition read {A} (q : RoDb → result StoreError A) : App A := fun w =>
  match q (w_db w) with Ok a => (Ok a, w) | Err e => (Err (Store e), w) end.

(** [save], which leaves the operator with the version of its row. *)
Definition write `{!TenantColumns} (o : RedTeamOperator) : Tx RedTeamOperator := fun s =>
  match save_operator o (s_view s) with
  | Ok (db, o') => (Ok o', s <| s_view := db |>)
  | Err e => (Err (Store e), s)
  end.

(** [_publish]: called after the commit as the last statement of a unit of work,
    here after it; a failing publisher is logged and ignored, and the events handed
    to it are recorded. *)
Definition _publish (o : RedTeamOperator) : App unit :=
  modify (fun w => w <| w_published ::= fun l => l ++ ro_pending_events o |>).

(** ** Validation *)

(** [validate_uuid] of a [UUID]; an [EntityId] always passes. *)
Definition validate_uuid {S} (u : uuid) (field : string) : PyM S RoError unit :=
  raise_if (u =? 0) (ApplicationValidationError field "must be a valid non-nil UUID").

(** [validate_str] with [allow_empty=False] *)
Definition validate_str {S} (value field : string) (max_len : nat) : PyM S RoError unit :=
  raise_if (bool_decide (String.length value = 0%nat)) (ApplicationValidationError field "must not be empty");;
  raise_if (bool_decide (max_len < String.length value)%nat)
    (ApplicationValidationError field ("must be at most " +:+ str_int (Z.of_nat max_len) +:+ " characters")).

Definition validate_limit {S} (value : Z) : PyM S RoError Z :=
  raise_if (value <? 1) (ApplicationValidationError "limit" "must be 1-1000");;
  mret (Z.max 1 (Z.min value 1000)).

Definition validate_offset {S} (value : Z) : PyM S RoError Z :=
  raise_if (value <? 0) (ApplicationValidationError "offset" "must be >= 0");;
  mret value.

Definition _parse_clearance {S} (value : string) : PyM S RoError OperatorClearanceLevel.t :=
  match of_text OperatorClearanceLevel.value OperatorClearanceLevel.all value with
  | Some l => mret l
  | None => raise (ApplicationValidationError "clearance_level" ("invalid: " +:+ value))
  end.

Definition _parse_scope {S} (value : string) : PyM S RoError ApprovalScope.t :=
  match of_text ApprovalScope.value ApprovalScope.all value with
  | Some s => mret s
  | None => raise (ApplicationValidationError "scope" ("invalid: " +:+ value))
  end.

Fixpoint parse_scopes {S} (values : list string) : PyM S RoError (list ApprovalScope.t) :=
  match values with
  | [] => mret []
  | raw :: rest => s ← _parse_scope raw; l ← parse_scopes rest; mret (s :: l)
  end.

(** [OperatorId(value)] *)
Definition OperatorId_new {S} (u : uuid) : PyM S RoError uuid :=
  match non_nil u with Some u => mret u | None => raise ValueErr end.

(** ** Data transfer object *)

Record OperatorDTO := mkOperatorDTO {
  rd_operator_id : uuid; rd_tenant_id : TenantId; rd_identity_ref : string; rd_display_name : string;
  rd_clearance_level : string; rd_max_impact_ceiling : string; rd_state : string; rd_certifications : list string;
  rd_approval_scopes : list string; rd_active_engagement_ids : list uuid; rd_status_reason : option string;
  rd_status_authority : option string; rd_created_at : datetime; rd_updated_at : datetime; rd_version : Z }.

Definition from_aggregate (o : RedTeamOperator) : OperatorDTO :=
  mkOperatorDTO (ro_id o) (ro_tenant_id o) (identity_ref o) (display_name o)
    (OperatorClearanceLevel.value (clearance_level o)) (OperatorImpact.value (max_impact_ceiling (clearance_level o)))
    (OperatorState.value (ro_state o)) (certifications o) (map ApprovalScope.value (approval_authority o))
    (active_engagements o) (status_reason o) (status_authority o) (ro_created_at o) (ro_updated_at o) (ro_version o).

(** ** Transactions *)

(** An [InvalidArgument] is reported as a validation error, what else the domain
    raises as it is. *)
Definition translated (e : OperatorException) : RoError :=
  match e with InvalidArgument f r => ApplicationValidationError f r | e => Domain e end.

Definition on_operator (m : RO.M unit) (o : RedTeamOperator) : Tx RedTeamOperator :=
  match m o with
  | (Ok _, o') => mret o'
  | (Err e, _) => raise (translated e)
  end.

(** The operator that was found, of the tenant that asks. *)
Definition of_tenant {S} (id : uuid) (t : TenantId) (found : option RedTeamOperator) : PyM S RoError RedTeamOperator :=
  match found with
  | Some o => if bool_decide (ro_tenant_id o = t) then mret o else raise (ApplicationNotFoundError "RedTeamOperator" id)
  | None => raise (ApplicationNotFoundError "RedTeamOperator" id)
  end.

Definition _load (id : uuid) (t : TenantId) : Tx RedTeamOperator :=
  found ← query (find_operator id);
  of_tenant id t found.

Section Service.
Context `{!RowOrder} `{!TenantColumns}.

(** What all commands but the first do once their input is parsed. *)
Definition operator_command (t : TenantId) (id : uuid) (c : RO.call) : App OperatorDTO :=
  id ← OperatorId_new id;
  o ← in_uow (
    o ← _load id t;
    o ← on_operator (RO.run_call c) o;
    o ← write o;
    commit;;
    mret o);
  _publish o;;
  mret (from_aggregate o).

(** ** Commands *)

Record ActivateOperatorCommand := mkActivateCommand {
  ac_tenant_id : TenantId; ac_identity_ref : string; ac_clearance_level : string; ac_display_name : option string;
  ac_certifications : list string; ac_approval_scopes : list string; ac_operator_id : option uuid }.

(** The unit of work of [activate_operator]; [given] is the id of the command. *)
Definition activation (given : option uuid) (o : RedTeamOperator) : App OperatorDTO :=
  o ← in_uow (
    match given with
    | Some _ =>
        existing ← query (find_operator (ro_id o));
        match existing with Some _ => raise (ApplicationValidationError "operator_id" "already exists") | None => mret tt end
    | None => mret tt
    end;;
    o ← write o;
    commit;;
    mret o);
  _publish o;;
  mret (from_aggregate o).

(** [new_id] is what [uuid7()] would draw. *)
Definition activate_operator (cmd : ActivateOperatorCommand) (new_id : uuid) (now : datetime) : App OperatorDTO :=
  validate_str (ac_identity_ref cmd) "identity_ref" 256;;
  match ac_display_name cmd with Some d => validate_str d "display_name" 256 | None => mret tt end;;
  match ac_operator_id cmd with Some u => validate_uuid u "operator_id" | None => mret tt end;;
  clearance ← _parse_clearance (ac_clearance_level cmd);
  scopes ← parse_scopes (ac_approval_scopes cmd);
  oid ← match ac_operator_id cmd with Some u => OperatorId_new u | None => OperatorId_new new_id end;
  o ← match RO.activate oid (ac_tenant_id cmd) (ac_identity_ref cmd) clearance now (ac_display_name cmd)
              (ac_certifications cmd) scopes with
      | Ok o => mret o
      | Err e => raise (translated e)
      end;
  activation (ac_operator_id cmd) o.

Definition suspend_operator (t : TenantId) (id : uuid) (reason authority : string) (now : datetime) : App OperatorDTO :=
  validate_uuid id "operator_id";;
  validate_str reason "reason" 1024;;
  validate_str authority "authority" 256;;
  operator_command t id (RO.OSuspend reason authority t now).

Definition revoke_operator (t : TenantId) (id : uuid) (reason authority : string) (now : datetime) : App OperatorDTO :=
  validate_uuid id "operator_id";;
  validate_str reason "reason" 1024;;
  validate_str authority "authority" 256;;
  operator_command t id (RO.ORevoke reason authority t now).

(** The level is parsed after the id is built. *)
Definition change_clearance (t : TenantId) (id : uuid) (new_level authority : string) (now : datetime) : App OperatorDTO :=
  validate_uuid id "operator_id";;
  validate_str authority "authority" 256;;
  id ← OperatorId_new id;
  level ← _parse_clearance new_level;
  operator_command t id (RO.OChangeClearance level authority t now).

Definition add_to_engagement (t : TenantId) (id engagement : uuid) (now : datetime) : App OperatorDTO :=
  validate_uuid id "operator_id";;
  validate_uuid engagement "engagement_id";;
  operator_command t id (RO.OAddToEngagement engagement t now).

Definition remove_from_engagement (t : TenantId) (id engagement : uuid) (now : datetime) : App OperatorDTO :=
  validate_uuid id "operator_id";;
  validate_uuid engagement "engagement_id";;
  operator_command t id (RO.ORemoveFromEngagement engagement t now).

Definition grant_approval_authority (t : TenantId) (id : uuid) (scope : string) (now : datetime) : App OperatorDTO :=
  validate_uuid id "operator_id";;
  id ← OperatorId_new id;
  scope ← _parse_scope scope;
  operator_command t id (RO.OGrant scope t now).

Definition revoke_approval_authority (t : TenantId) (id : uuid) (scope : string) (now : datetime) : App OperatorDTO :=
  validate_uuid id "operator_id";;
  id ← OperatorId_new id;
  scope ← _parse_scope scope;
  operator_command t id (RO.ORevokeAuthority scope t now).

(** ** Queries *)

Definition get_operator (t : TenantId) (id : uuid) : App OperatorDTO :=
  validate_uuid id "operator_id";;
  id ← OperatorId_new id;
  found ← read (find_operator id);
  o ← of_tenant id t found;
  mret (from_aggregate o).

Definition list_operators (t : TenantId) (include_inactive : bool) (limit offset : Z) : App (list OperatorDTO) :=
  limit ← validate_limit limit;
  offset ← validate_offset offset;
  ops ← read (find_by_tenant t include_inactive limit offset);
  mret (map from_aggregate ops).

Definition authorized_approvers (t : TenantId) (scope : string) : App (list OperatorDTO) :=
  scope ← _parse_scope scope;
  ops ← read (find_authorized_approvers scope t);
  mret (map from_aggregate ops).

(** ** Runs *)

Inductive command :=
  | ActivateOperator (cmd : ActivateOperatorCommand) (new_id : uuid)
  | SuspendOperator (t : TenantId) (id : uuid) (reason authority : string)
  | RevokeOperator (t : TenantId) (id : uuid) (reason authority : string)
  | ChangeOperatorClearance (t : TenantId) (id : uuid) (new_level authority : string)
  | AddOperatorToEngagement (t : TenantId) (id engagement : uuid)
  | RemoveOperatorFromEngagement (t : TenantId) (id engagement : uuid)
  | GrantApprovalAuthority (t : TenantId) (id : uuid) (scope : string)
  | RevokeApprovalAuthority (t : TenantId) (id : uuid) (scope : string)
  | GetOperator (t : TenantId) (id : uuid)
  | ListOperators (t : TenantId) (include_inactive : bool) (limit offset : Z)
  | FindAuthorizedApprovers (t : TenantId) (scope : string).

Definition run_command (now : datetime) (c : command) : App unit :=
  match c with
  | ActivateOperator cmd id => activate_operator cmd id now;; mret tt
  | SuspendOperator t id r a => suspend_operator t id r a now;; mret tt
  | RevokeOperator t id r a => revoke_operator t id r a now;; mret tt
  | ChangeOperatorClearance t id l a => change_clearance t id l a now;; mret tt
  | AddOperatorToEngagement t id e => add_to_engagement t id e now;; mret tt
  | RemoveOperatorFromEngagement t id e => remove_from_engagement t id e now;; mret tt
  | GrantApprovalAuthority t id s => grant_approval_authority t id s now;; mret tt
  | RevokeApprovalAuthority t id s => revoke_approval_authority t id s now;; mret tt
  | GetOperator t id => get_operator t id;; mret tt
  | ListOperators t i l o => list_operators t i l o;; mret tt
  | FindAuthorizedApprovers t s => authorized_approvers t s;; mret tt
  end.

(** The tenant a command is given. *)
Definition command_tenant (c : command) : TenantId :=
  match c with
  | ActivateOperator cmd _ => ac_tenant_id cmd
  | SuspendOperator t _ _ _ | RevokeOperator t _ _ _ | ChangeOperatorClearance t _ _ _ | AddOperatorToEngagement t _ _
  | RemoveOperatorFromEngagement t _ _ | GrantApprovalAuthority t _ _ | RevokeApprovalAuthority t _ _ | GetOperator t _
  | ListOperators t _ _ _ | FindAuthorizedApprovers t _ => t
  end.

(** The engagement is a UUID, and [uuid7()] draws an id that is not in the table. *)
Definition command_ok (c : command) (w : World) : Prop :=
  match c with
  | ActivateOperator cmd id => ac_operator_id cmd = None → ∀ o, stored_operator (w_db w) o → ro_id o ≠ id
  | AddOperatorToEngagement _ _ e => uuid_ok e
  | _ => True
  end.

Inductive reachable_world : World → Prop :=
  | reach_empty : reachable_world empty_world
  | reach_command c now w : reachable_world w → command_ok c w → reachable_world (run_command now c w).2.

Definition run_commands (cs : list (command * datetime)) (w : World) : World :=
  fold_left (fun w c => (run_command c.2 c.1 w).2) cs w.
End Service.

(** What is stored stays stored, and has only been called, by the tenant [t]; who is new
    is active, of the tenant, and on no engagement. *)
Record extends (t : TenantId) (db db' : RoDb) : Prop := {
  ex_kept : ∀ o, stored_operator db o → ∃ o', stored_operator db' o' ∧ RO.step o o' ∧ (ro_tenant_id o ≠ t → o' = o);
  ex_new : ∀ o', stored_operator db' o' → (∃ o, stored_operator db o ∧ ro_id o = ro_id o') ∨
    (ro_state o' = OperatorState.ACTIVE ∧ ro_tenant_id o' = t ∧ active_engagements o' = [])
}.

(** ** Lemmas *)

Lemma extends_refl t db : extends t db db.
Proof. split; [intros o Ho; by exists o|]. intros o Ho. left. by exists o. Qed.

(** *** Calls *)

(** The arguments of a call are UUIDs; a call that changes the operator. *)
Definition call_args_ok (c : RO.call) : Prop := match c with RO.OAddToEngagement e _ _ => uuid_ok e | _ => True end.
Definition mutates (c : RO.call) : bool := match c with RO.OPopEvents | RO.OAssertCanApprove _ => false | _ => true end.

Lemma with_added_in e l a x : with_added e l = Ok a → x ∈ a → x = e ∨ x ∈ l.
Proof.
  unfold with_added. case_bool_decide; [intros [= <-]; by right|]. intros (-> & _)%engagements_new_spec.
  intros [Hx| ->%list_elem_of_singleton]%elem_of_app; auto.
Qed.

Lemma call_engagements c x : call_args_ok c → (∀ e, e ∈ active_engagements x → uuid_ok e) →
  wp (RO.run_call c) (λ _ x', ∀ e, e ∈ active_engagements x' → uuid_ok e) (λ _ _, True) x.
Proof.
  intros Hargs Hok. assert (∀ o o', RO.quiet o o' → active_engagements o' = active_engagements o) as Hquiet
    by (intros o o' [_ Hr]; unfold RO.record in Hr; congruence).
  destruct c; simpl in Hargs |- *; RO.unfold_operator; wp_run; try done;
    try (apply RO.wp_emit; intros o' Hq; apply Hquiet in Hq; try rewrite Hq; simpl); try exact Hok.
  - apply RO.wp_emits. intros o2 Hq2. apply Hquiet in Hq2. rewrite Hq2, Hq. simpl. by intros e ?%not_elem_of_nil.
  - intros e He. match goal with Ha : with_added _ _ = Ok _ |- _ => destruct (with_added_in _ _ _ _ Ha He) as [->|] end; auto.
  - intros e He. match goal with Ha : with_removed _ _ = Ok _ |- _ => apply with_removed_spec in Ha as [Hsub _] end; auto.
Qed.

Lemma operator_call_ok c o o' : call_args_ok c → ok_operator o → RO.run_call c o = (Ok tt, o') → ok_operator o'.
Proof.
  intros Hargs [H1 H2 H3] Hrun. pose proof (call_engagements c o Hargs H2) as He. pose proof (RO.operator_call_step c o) as Hs.
  unfold wp in He, Hs. rewrite Hrun in He, Hs. pose proof (RO.st_fixed _ _ Hs) as Hf. unfold RO.fixed in Hf.
  injection Hf as F1 F2 F3 F4 F5 F6. split; [by rewrite F1|exact He|by rewrite F3].
Qed.

(** A revoked operator answers no call that changes it. *)
Lemma mutated_live c o o' : mutates c = true → RO.run_call c o = (Ok tt, o') → ro_state o ≠ OperatorState.REVOKED.
Proof.
  intros Hc Hrun. assert (wp (RO.run_call c) (λ _ _, ro_state o ≠ OperatorState.REVOKED) (λ _ _, True) o) as Hwp.
  { destruct c; simpl in Hc |- *; RO.unfold_operator; wp_run; try done; stable; try congruence;
      try (apply RO.wp_emit; intros ? _); try (apply RO.wp_emits; intros ? _);
      match goal with
      | Hin : _ ∈ RO._ALLOWED_TRANSITIONS _ |- _ => by apply RO.operator_allowed_from in Hin as [? _]
      | _ => congruence
      end. }
  unfold wp in Hwp. by rewrite Hrun in Hwp.
Qed.

(** *** Saved operators *)

(** An operator as its save leaves it in the table. *)
Definition saved_as (o : RedTeamOperator) (v : Z) : RedTeamOperator := (o <| ro_version := v |>) <| ro_pending_events := [] |>.

Lemma saved_step q o : RO.step q o → ro_state q ≠ OperatorState.REVOKED → 0 <= ro_version q →
  RO.step q (saved_as o (ro_version q + 1)).
Proof.
  intros [F S R I _ V] Hq H0. split; [by rewrite <- F; destruct o| |by destruct o| |done|destruct o; simpl; lia].
  - intros Hs. specialize (S Hs). destruct o, S. split; simpl in *; done || lia.
  - intros Ha. specialize (I Ha). by destruct o.
Qed.

Lemma ro_stored_after db db' o v : ok_operator o → RO.sound o → 0 <= v → saved_operator db db' (o <| ro_version := v |>) →
  stored_operator db' (saved_as o v).
Proof.
  intros Hok Hs Hv [_ [_ Hnew _ _]]. destruct o, Hok, Hs. split; [exact Hnew|by split|by split|done].
Qed.

(** What a save leaves of the operators that were stored. *)
Lemma save_extends db db' o v : ok_operator o → RO.sound o → 0 <= v → saved_operator db db' (o <| ro_version := v |>) →
  (∀ q, stored_operator db q → ro_id q = ro_id o → RO.step q (saved_as o v)) →
  (∃ q, stored_operator db q ∧ ro_id q = ro_id o) ∨ (ro_state o = OperatorState.ACTIVE ∧ active_engagements o = []) →
  ro_good db → extends (ro_tenant_id o) db db'.
Proof.
  intros Hok Hs Hv Hsv Hstep Hnew Hg. pose proof (ro_stored_after _ _ _ _ Hok Hs Hv Hsv) as Hst. destruct Hsv as [Hg' [_ _ Hkept Hall]].
  assert (ro_id (o <| ro_version := v |>) = ro_id o) as Hid by (by destruct o). rewrite Hid in *. split.
  - intros q Hq. destruct (decide (ro_id q = ro_id o)) as [Heq|Hne].
    + exists (saved_as o v). split_and!; [done|auto|]. pose proof (RO.st_fixed _ _ (Hstep q Hq Heq)) as Hf.
      unfold RO.fixed in Hf. destruct o. simpl in *. congruence.
    + exists q. split_and!; [|done|done]. destruct Hq as [Hr ? ? ?]. split; [|done..]. by apply Hkept.
  - intros o' Ho'. destruct (Hall (operator_row o')) as [Heq|[Hold _]]; [apply Ho'| |].
    + assert (o' = saved_as o v) as ->.
      { apply (stored_operator_unique db'); [done..|]. change (zr_id (operator_row o') = zr_id (operator_row (saved_as o v))).
        rewrite Heq. by destruct o. }
      destruct Hnew as [(q & Hq & Hqid)|[Ha He]]; [left; exists q; split; [done|by destruct o]|right; by destruct o].
    + left. destruct (rg_rows _ Hg _ Hold) as (q & Heq & Hq). exists q. split; [done|].
      change (zr_id (operator_row q) = zr_id (operator_row o')). by rewrite Heq.
Qed.

(** *** Units of work *)

Section Transactions.
Context `{!RowOrder} `{!TenantColumns}.

Lemma wp_ro_uow {A} (body : PyM (Session RoDb) RoError A) (Q : A → World → Prop) X w :
  wp body (λ a s, Q a (w <| w_db := s_durable s |>)) (λ e s, X e (w <| w_db := s_durable s |>)) (mkSession (w_db w) (w_db w)) →
  wp (in_uow body) Q X w.
Proof. unfold wp, in_uow. by destruct (body _) as [[a|e] s]. Qed.

Lemma same_db w : w <| w_db := w_db w |> = w.
Proof. by destruct w. Qed.

Lemma wp_ro_query {A} (q : RoDb → result StoreError A) (Q : A → Session RoDb → Prop) X db :
  (∀ a, q db = Ok a → Q a (mkSession db db)) → (∀ e, q db = Err e → X (Store e) (mkSession db db)) →
  wp (query q) Q X (mkSession db db).
Proof. intros HQ HX. unfold wp, query. simpl. destruct (q db); auto. Qed.

Lemma wp_of_tenant {S} id t found (Q : RedTeamOperator → S → Prop) X s :
  (∀ o, found = Some o → ro_tenant_id o = t → Q o s) → X (ApplicationNotFoundError "RedTeamOperator" id) s →
  wp (of_tenant id t found) Q X s.
Proof. intros HQ HX. unfold of_tenant. destruct found as [o|]; [|done]. case_bool_decide; wp_run; auto. Qed.

Lemma wp_load_operator id t (Q : RedTeamOperator → Session RoDb → Prop) X db : ro_good db →
  (∀ o, stored_operator db o → ro_id o = id → ro_tenant_id o = t → Q o (mkSession db db)) →
  (X (ApplicationNotFoundError "RedTeamOperator" id) (mkSession db db)) → wp (_load id t) Q X (mkSession db db).
Proof.
  intros Hg HQ HX. unfold _load. wp_step. pose proof (find_operator_spec id db Hg) as Hf.
  apply wp_ro_query; intros r Hr; rewrite Hr in Hf; [|done]. apply wp_of_tenant; [|done]. intros o -> Ht. destruct Hf. by apply HQ.
Qed.

Lemma wp_on_operator m o (Q : RedTeamOperator → Session RoDb → Prop) X s :
  (∀ o', m o = (Ok tt, o') → Q o' s) → (∀ e, X e s) → wp (on_operator m o) Q X s.
Proof. intros HQ HX. unfold on_operator. destruct (m o) as [[[]|e] o'] eqn:Hm; wp_run; auto. Qed.

(** Saving an operator that is new, or was loaded and called. *)
Lemma wp_write_operator o (Q : RedTeamOperator → Session RoDb → Prop) X db : ro_good db → ok_operator o → RO.sound o →
  (∀ q, stored_operator db q → ro_id q = ro_id o → RO.step q o ∧ ro_state q ≠ OperatorState.REVOKED) →
  (∃ q, stored_operator db q ∧ ro_id q = ro_id o) ∨ (ro_state o = OperatorState.ACTIVE ∧ active_engagements o = []) →
  (∀ v db', ro_good db' → extends (ro_tenant_id o) db db' → stored_operator db' (saved_as o v) →
     Q (o <| ro_version := v |>) (mkSession db' db')) →
  ((∃ q, stored_operator db q ∧ ro_id q = ro_id o) → ∀ e, X (Store e) (mkSession db db)) →
  wp (o ← write o; commit;; mret o) Q X (mkSession db db).
Proof.
  intros Hg Hok Hs Hstep Hnew HQ HX. wp_step. unfold wp, write. simpl.
  assert (∀ q, stored_operator db q → ro_id q = ro_id o → RO.fixed q = RO.fixed o) as Hfix
    by (intros q Hq Hid; symmetry; apply (RO.st_fixed _ _ (proj1 (Hstep q Hq Hid)))).
  pose proof (save_operator_spec o db Hg Hok Hs Hfix) as Hsave. destruct (save_operator o db) as [[db' o']|e]; [|by apply HX].
  destruct Hsave as (Hsv & v & -> & Hv & Hver). apply (HQ v db'); [apply Hsv| |by apply (ro_stored_after db)].
  apply (save_extends _ _ _ v); try done. intros q Hq Hid. rewrite (Hver q Hq Hid). destruct (Hstep q Hq Hid).
  apply saved_step; [done..|]. apply (RO.so_version _ (sr_sound _ _ Hq)).
Qed.

(** A unit of work that has committed and published. *)
Record committed (t : TenantId) (w w' : World) (events : list (DomainEvent OperatorEvent)) : Prop := {
  cm_good : ro_good (w_db w');
  cm_extends : extends t (w_db w) (w_db w');
  cm_published : w_published w' = w_published w ++ events
}.

Lemma wp_operator_command t id c (Q : OperatorDTO → World → Prop) X w : ro_good (w_db w) → call_args_ok c → mutates c = true →
  (∀ o o1 v w', stored_operator (w_db w) o → ro_id o = id → ro_tenant_id o = t → RO.run_call c o = (Ok tt, o1) →
     committed t w w' (ro_pending_events o1) → stored_operator (w_db w') (saved_as o1 v) → Q (from_aggregate (saved_as o1 v)) w') →
  (∀ e, X e w) → wp (operator_command t id c) Q X w.
Proof.
  intros Hg Hargs Hc HQ HX. unfold operator_command, OperatorId_new, non_nil. wp_step. destruct (id =? 0); wp_step; [by apply HX|].
  wp_step. apply wp_ro_uow. assert (∀ e, X e (w <| w_db := w_db w |>)) as HX' by (intros e; by rewrite same_db).
  wp_step. apply wp_load_operator; [done| |apply HX']. intros o Ho Hid Ht.
  wp_step. apply wp_on_operator; [|intros e; apply HX']. intros o1 Hrun.
  pose proof (operator_call_ok c o o1 Hargs (sr_ok _ _ Ho) Hrun) as Hok. pose proof (RO.operator_call_step c o) as Hs.
  unfold wp in Hs. rewrite Hrun in Hs. pose proof (mutated_live c o o1 Hc Hrun) as Hlive. pose proof (RO.st_fixed _ _ Hs) as Hf.
  assert (ro_id o1 = ro_id o ∧ ro_tenant_id o1 = t) as [Hid1 Ht1] by (unfold RO.fixed in Hf; split; congruence).
  apply wp_write_operator; [done|done|by apply (RO.st_sound _ _ Hs), Ho| |left; by exists o| |intros _ e; apply HX'].
  - intros q Hq Hqid. assert (q = o) as ->; [|done]. apply (stored_operator_unique (w_db w)); [done..|congruence].
  - intros v db' Hg' Hext Hst. rewrite Ht1 in Hext. wp_run. apply (HQ o o1 v); try done.
Qed.

(** An activation fails only when the id is taken. *)
Lemma wp_activation given o (Q : OperatorDTO → World → Prop) X w : ro_good (w_db w) → ok_operator o → RO.sound o →
  ro_state o = OperatorState.ACTIVE → active_engagements o = [] →
  (given = None → ∀ q, stored_operator (w_db w) q → ro_id q ≠ ro_id o) →
  (∀ v w', committed (ro_tenant_id o) w w' (ro_pending_events o) → stored_operator (w_db w') (saved_as o v) →
     Q (from_aggregate (saved_as o v)) w') →
  ((∃ q, stored_operator (w_db w) q ∧ ro_id q = ro_id o) → ∀ e, X e w) → wp (activation given o) Q X w.
Proof.
  intros Hg Hok Hs Ha He Hnew HQ HX. unfold activation. wp_step. apply wp_ro_uow.
  assert ((∃ q, stored_operator (w_db w) q ∧ ro_id q = ro_id o) → ∀ e, X e (w <| w_db := w_db w |>)) as HX'
    by (rewrite same_db; exact HX).
  assert ((∀ q, stored_operator (w_db w) q → ro_id q ≠ ro_id o) →
    wp (o ← write o; commit;; mret o)
       (λ a s, wp (_publish a;; mret (from_aggregate a)) Q X (w <| w_db := s_durable s |>))
       (λ e s, X e (w <| w_db := s_durable s |>)) (mkSession (w_db w) (w_db w))) as Hwrite.
  { intros Hfree. apply wp_write_operator; [done|done|done| |by right| |intros (q & Hq & Hid); by destruct (Hfree q Hq)].
    - intros q Hq Hid. by destruct (Hfree q Hq).
    - intros v db' Hg' Hext Hst. wp_run. by apply (HQ v). }
  wp_step. destruct given as [u|]; [|wp_step; by apply Hwrite, Hnew].
  wp_step. pose proof (find_operator_spec (ro_id o) (w_db w) Hg) as Hf.
  apply wp_ro_query; intros r Hr; rewrite Hr in Hf; [|done]. destruct r as [q|]; wp_step; [|by apply Hwrite].
  apply HX'. by exists q.
Qed.
End Transactions.

(** *** Commands *)

Lemma strip_length s : (String.length (strip s) ≤ String.length s)%nat.
Proof.
  assert (∀ s, String.length (lstrip s) ≤ String.length s)%nat as Hl
    by (intros x; induction x as [|c x IH]; simpl; [done|]; destruct (is_space c); simpl; lia).
  assert (∀ s, String.length (rstrip s) ≤ String.length s)%nat as Hr.
  { intros x. induction x as [|c x IH]; [done|]. simpl. destruct (rstrip x); simpl in *; [destruct (is_space c)|]; simpl; lia. }
  unfold strip. etrans; [apply Hr|apply Hl].
Qed.

Lemma activated_ok id t identity level now display certs scopes o :
  RO.activate id t identity level now display certs scopes = Ok o → id ≠ 0 → (String.length identity ≤ 256)%nat → ok_operator o.
Proof.
  intros Hact Hid Hlen. pose proof Hact as Hact'. apply RO.activate_sound in Hact' as (_ & _ & Hi & _ & Hr & _ & _ & He).
  split; [by rewrite Hi|rewrite He; by intros e ?%not_elem_of_nil|]. rewrite Hr. split_and!; [apply strip_strip| |].
  - intros Hempty. unfold RO.activate in Hact. by rewrite Hempty in Hact.
  - etrans; [apply strip_length|done].
Qed.

Section Commands.
Context `{!RowOrder} `{!TenantColumns}.

(** What a command leaves. *)
Definition outcome (t : TenantId) (w : World) (e : option RoError) (w' : World) : Prop :=
  match e with
  | None => ro_good (w_db w') ∧ extends t (w_db w) (w_db w') ∧ ∃ events, w_published w' = w_published w ++ events
  | Some _ => w' = w
  end.

Lemma outcome_committed t w w' events : committed t w w' events → outcome t w None w'.
Proof. intros [Hg He Hp]. split_and!; [done|done|by exists events]. Qed.
Lemma outcome_same t w : ro_good (w_db w) → outcome t w None w.
Proof. intros Hg. split_and!; [done|apply extends_refl|exists []; by rewrite app_nil_r]. Qed.

(** The operator of an answered call, in a goal about the outcome of its command. *)
Lemma wp_called t id c w : ro_good (w_db w) → call_args_ok c → mutates c = true →
  wp (operator_command t id c) (λ _, outcome t w None) (λ e, outcome t w (Some e)) w.
Proof. intros Hg Hargs Hc. apply wp_operator_command; try done. intros. by eapply outcome_committed. Qed.

Lemma wp_ro_read {A} (q : RoDb → result StoreError A) (Q : A → World → Prop) X w :
  (∀ a, q (w_db w) = Ok a → Q a w) → (∀ e, X (Store e) w) → wp (read q) Q X w.
Proof. intros HQ HX. unfold wp, read. destruct (q (w_db w)); auto. Qed.

Lemma wp_parse_clearance {S} s (Q : OperatorClearanceLevel.t → S → Prop) X w : (∀ l, Q l w) → (∀ e, X e w) → wp (_parse_clearance s) Q X w.
Proof. intros HQ HX. unfold _parse_clearance. destruct (of_text _ _ s); wp_run; auto. Qed.
Lemma wp_parse_scope {S} s (Q : ApprovalScope.t → S → Prop) X w : (∀ l, Q l w) → (∀ e, X e w) → wp (_parse_scope s) Q X w.
Proof. intros HQ HX. unfold _parse_scope. destruct (of_text _ _ s); wp_run; auto. Qed.
Lemma wp_parse_scopes {S} l (Q : list ApprovalScope.t → S → Prop) X w : (∀ a, Q a w) → (∀ e, X e w) → wp (parse_scopes l) Q X w.
Proof.
  intros HQ HX. revert Q HQ. induction l as [|s l IH]; intros Q HQ; cbn [parse_scopes]; wp_run; [auto|].
  apply wp_parse_scope; [|done]. intros sc. wp_step. apply IH. intros a. wp_run. auto.
Qed.
Lemma wp_operator_id {S} u (Q : uuid → S → Prop) X w : (u ≠ 0 → Q u w) → (∀ e, X e w) → wp (OperatorId_new u) Q X w.
Proof. intros HQ HX. unfold OperatorId_new. destruct (non_nil u) as [v|] eqn:Hn; wp_run; [|done]. apply non_nil_some in Hn as [? ->]. auto. Qed.

Lemma wp_validate_str {S} v field n (Q : unit → S → Prop) X w :
  ((String.length v ≤ n)%nat → Q tt w) → (∀ e, X e w) → wp (validate_str v field n) Q X w.
Proof. intros HQ HX. unfold validate_str. wp_run; try done. apply HQ. guards. lia. Qed.

(** A check of an argument that may be missing. *)
Lemma wp_optional {S A} (x : option A) (check : A → PyM S RoError unit) (Q : unit → S → Prop) X w :
  (∀ a (Q' : unit → S → Prop), Q' tt w → wp (check a) Q' X w) → Q tt w →
  wp (match x with Some a => check a | None => mret tt end) Q X w.
Proof. intros Hc HQ. destruct x; [by apply Hc|by wp_run]. Qed.

Lemma wp_activate_operator cmd new_id now w : ro_good (w_db w) →
  (ac_operator_id cmd = None → ∀ o, stored_operator (w_db w) o → ro_id o ≠ new_id) →
  wp (activate_operator cmd new_id now) (λ _, outcome (ac_tenant_id cmd) w None) (λ e, outcome (ac_tenant_id cmd) w (Some e)) w.
Proof.
  intros Hg Hnew. assert (∀ e, outcome (ac_tenant_id cmd) w (Some e) w) as Hsame by done.
  unfold activate_operator. wp_step. apply wp_validate_str; [intros Hlen|done]. wp_step.
  apply wp_optional; [intros d Q HQ; by apply wp_validate_str|]. wp_step. apply wp_optional; [intros u Q HQ; unfold validate_uuid; wp_run; done|].
  wp_step.
  apply wp_parse_clearance; [|done]. intros level. wp_step. apply wp_parse_scopes; [|done]. intros scopes. wp_step.
  assert (∀ oid, oid = default new_id (ac_operator_id cmd) → oid ≠ 0 → wp
    (o ← match RO.activate oid (ac_tenant_id cmd) (ac_identity_ref cmd) level now (ac_display_name cmd) (ac_certifications cmd) scopes with
         | Ok o => mret o | Err e => raise (translated e) end; activation (ac_operator_id cmd) o)
    (λ _, outcome (ac_tenant_id cmd) w None) (λ e, outcome (ac_tenant_id cmd) w (Some e)) w) as Hrest.
  { intros oid Hoid Hnil. wp_step. destruct (RO.activate _ _ _ _ _ _ _ _) as [o|e] eqn:Hact; wp_step; [|done].
    pose proof (activated_ok _ _ _ _ _ _ _ _ _ Hact Hnil Hlen) as Hok.
    apply RO.activate_sound in Hact as (Hs & Ha & Hi & Ht & _ & _ & _ & He). apply wp_activation; try done.
    - intros Hnone. rewrite Hi, Hoid, Hnone. simpl. by apply Hnew.
    - intros v w' Hc _. rewrite Ht in Hc. by eapply outcome_committed. }
  destruct (ac_operator_id cmd) as [u|]; apply wp_operator_id; try done; intros Hu; by apply Hrest.
Qed.

Lemma wp_operator_run c now w : ro_good (w_db w) → command_ok c w →
  wp (run_command now c) (λ _, outcome (command_tenant c) w None) (λ e, outcome (command_tenant c) w (Some e)) w.
Proof.
  intros Hg Hc. pose proof (outcome_same (command_tenant c) w Hg) as Hread.
  destruct c; cbn [run_command command_tenant] in *; wp_step;
    [eapply wp_mono; [by apply wp_activate_operator|intros; by wp_run|done]|..];
    unfold suspend_operator, revoke_operator, change_clearance, add_to_engagement, remove_from_engagement,
      grant_approval_authority, revoke_approval_authority, get_operator, list_operators, authorized_approvers,
      validate_uuid, validate_str, validate_limit, validate_offset; wp_run; try done.
  all: try (apply wp_operator_id; [intros _|done]; try wp_step).
  all: try (first [apply wp_parse_clearance|apply wp_parse_scope]; [intros|done]; try wp_step).
  all: try (eapply wp_mono; [by apply wp_called|intros; by wp_run|done]).
  all: apply wp_ro_read; [intros a _; wp_run|done]; try done.
  apply wp_of_tenant; [intros; by wp_run|done].
Qed.

Lemma ro_reachable_good w : reachable_world w → ro_good (w_db w).
Proof.
  induction 1 as [|c now w _ IH Hc]; [split; [apply NoDup_nil_2|by intros r ?%not_elem_of_nil]|].
  pose proof (wp_operator_run c now w IH Hc) as Hwp. unfold wp in Hwp.
  destruct (run_command now c w) as [[[]|e] w'].
  - apply Hwp.
  - by rewrite Hwp.
Qed.

(** Every command of a run is well-formed where it runs. *)
Fixpoint all_ok (cs : list (command * datetime)) (w : World) : Prop :=
  match cs with
  | [] => True
  | c :: cs => command_ok c.1 w ∧ all_ok cs (run_command c.2 c.1 w).2
  end.

Lemma ro_run_commands_reachable cs w : reachable_world w → all_ok cs w → reachable_world (run_commands cs w).
Proof.
  revert w. induction cs as [|[c now] cs IH]; intros w Hw; [done|]. cbn [all_ok fst snd]. intros [Hc Hcs].
  apply (IH (run_command now c w).2); [by apply reach_command|done].
Qed.
End Commands.

(** ** Properties *)

(** A stored operator that was revoked is stored as it is. *)
Lemma revoked_is_kept t db db' o : extends t db db' → stored_operator db o → ro_state o = OperatorState.REVOKED →
  stored_operator db' o.
Proof.
  intros Hext Ho Hr. destruct (ex_kept _ _ _ Hext o Ho) as (o' & Ho' & [Hf _ _ _ Hrev _] & _).
  specialize (Hrev Hr). pose proof (sr_events _ _ Ho) as He. pose proof (sr_events _ _ Ho') as He'.
  assert (o' = o) as <-; [|done]. clear Ho Ho' Hr. destruct o, o'. unfold RO.fixed, RO.record in Hf, Hrev. simpl in *.
  injection Hf as -> -> -> -> -> ->. injection Hrev as -> -> -> -> -> -> -> ->. by subst.
Qed.

Section Properties.
Context `{!RowOrder} `{!TenantColumns}.

(** A command changes operators as the aggregate allows: what it leaves in the table
    is sound; one that raises has changed nothing, not even the events; after one that
    answers, every operator is still stored and has only been called, those of other
    tenants not at all, and who is new is active and on no engagement. *)
Theorem operator_command_extends c now w r w' : reachable_world w → command_ok c w → run_command now c w = (r, w') →
  ro_good (w_db w') ∧
  match r with
  | Ok _ => extends (command_tenant c) (w_db w) (w_db w') ∧ ∃ events, w_published w' = w_published w ++ events
  | Err _ => w' = w
  end.
Proof.
  intros Hw Hc Hrun. pose proof (ro_reachable_good w Hw) as Hg. pose proof (wp_operator_run c now w Hg Hc) as Hwp.
  unfold wp in Hwp. rewrite Hrun in Hwp. destruct r as [[]|e]; [done|]. by rewrite Hwp.
Qed.

(** C35. A revocation binds an id, not a person: the identity of a revoked operator is
    activated again, under a new id, with any clearance, and is active beside the revoked
    one, which stays stored. *)
Theorem revoked_identity_returns o level new_id now w : reachable_world w → stored_operator (w_db w) o →
  ro_state o = OperatorState.REVOKED → new_id ≠ 0 → (∀ q, stored_operator (w_db w) q → ro_id q ≠ new_id) →
  let cmd := mkActivateCommand (ro_tenant_id o) (identity_ref o) (OperatorClearanceLevel.value level) None [] [] None in
  ∃ dto w' o', activate_operator cmd new_id now w = (Ok dto, w') ∧ stored_operator (w_db w') o ∧
    stored_operator (w_db w') o' ∧ ro_id o' = new_id ∧ identity_ref o' = identity_ref o ∧ ro_tenant_id o' = ro_tenant_id o ∧
    clearance_level o' = level ∧
    ∀ i, RO.can_authorize_impact i o' = true ↔ impact_rank i <= clearance_rank level.
Proof.
  intros Hw Ho Hrev Hid Hfresh cmd. pose proof (ro_reachable_good w Hw) as Hg.
  destruct (oo_identity _ (sr_ok _ _ Ho)) as (Hstrip & Hne & Hlen).
  assert (∃ n, RO.activate new_id (ro_tenant_id o) (identity_ref o) level now None [] [] = Ok n) as [n Hact].
  { unfold RO.activate. rewrite Hstrip. assert (empty_str (identity_ref o) = false) as He by (unfold empty_str; by case_bool_decide).
    rewrite He, Hstrip, He. by eexists. }
  pose proof (activated_ok _ _ _ _ _ _ _ _ _ Hact Hid Hlen) as Hok.
  pose proof (RO.activate_sound _ _ _ _ _ _ _ _ _ Hact) as (Hs & Ha & Hni & Hnt & Hnr & Hnl & _ & Hne').
  assert (wp (activate_operator cmd new_id now) (λ _ w', ∃ v, extends (ro_tenant_id o) (w_db w) (w_db w') ∧
    stored_operator (w_db w') (saved_as n v)) (λ _ _, False) w) as Hwp.
  { unfold activate_operator, cmd, validate_str, _parse_clearance. cbn [ac_identity_ref ac_display_name ac_operator_id
      ac_clearance_level ac_approval_scopes ac_tenant_id ac_certifications parse_scopes].
    rewrite of_text_clearance. wp_run; guards; [by destruct (identity_ref o)|lia|].
    unfold OperatorId_new. rewrite non_nil_ok by done. wp_step. rewrite Hact. wp_step.
    apply wp_activation; try done; [by rewrite Hni|..].
    - intros v w' [_ Hext _] Hst. rewrite Hnt in Hext. by exists v.
    - intros (q & Hq & Hqid). by destruct (Hfresh q Hq); rewrite Hqid. }
  unfold wp in Hwp. destruct (activate_operator cmd new_id now w) as [[dto|e] w']; [|done].
  destruct Hwp as (v & Hext & Hst). exists dto, w', (saved_as n v).
  split_and!; [done|by eapply revoked_is_kept|done|by destruct n|destruct n; simpl in *; congruence|by destruct n|by destruct n|].
  intros i. rewrite RO.can_authorize_spec. assert (ro_state (saved_as n v) = OperatorState.ACTIVE ∧ clearance_level (saved_as n v) = level)
    as [-> ->] by (by destruct n). split; [by intros [_ ?]|done].
Qed.
End Properties.

(** ** A team of [acme] *)

#[local] Existing Instance insertion_order.

(** A driver for which the tenants of columns and entities compare equal. *)
Definition equal_ids : TenantColumns := {| binds_entity_id := true; uuid_equals_ulid := true |}.
#[local] Existing Instance equal_ids.

(** Ana is activated, joins an engagement, and is revoked. *)
Definition ana : ActivateOperatorCommand :=
  mkActivateCommand RO.acme " ana@acme " "L3" (Some "Ana") ["Web"] ["OperationApproval"] None.
Definition ana_commands : list (command * datetime) :=
  [(ActivateOperator ana 7, 10); (AddOperatorToEngagement RO.acme 7 3, 11); (RevokeOperator RO.acme 7 "left" "ciso", 12)].
Definition ana_world : World := run_commands ana_commands empty_world.

Definition revoked_ana : RedTeamOperator :=
  mkOperator 7 RO.acme "ana@acme" "Ana" OperatorClearanceLevel.L3 OperatorState.REVOKED ["Web"] [] [] (Some "left")
    (Some "ciso") 10 12 3 [].

Lemma ana_world_is : w_db ana_world = [operator_row revoked_ana].
Proof. vm_compute. reflexivity. Qed.

Lemma ana_world_reachable : reachable_world ana_world.
Proof.
  apply (ro_run_commands_reachable ana_commands empty_world); [apply reach_empty|]. unfold ana_commands.
  cbn [all_ok fst snd command_ok]. refine (conj _ (conj _ (conj I I))); [|by_compute].
  by intros _ o [Hr%not_elem_of_nil _ _ _].
Qed.

Lemma ana_is_stored : stored_operator (w_db ana_world) revoked_ana.
Proof.
  pose proof (find_operator_spec 7 (w_db ana_world) (ro_reachable_good _ ana_world_reachable)) as Hf.
  assert (find_operator 7 (w_db ana_world) = Ok (Some revoked_ana)) as Hr by (vm_compute; reflexivity).
  rewrite Hr in Hf. apply Hf.
Qed.

Lemma ana_is_alone q : stored_operator (w_db ana_world) q → ro_id q = 7.
Proof. intros [Hr _ _ _]. rewrite ana_world_is in Hr. apply list_elem_of_singleton in Hr. exact (f_equal zr_id Hr). Qed.

Lemma revoked_identity_returns_witness :
  ∃ dto w' o', activate_operator (mkActivateCommand RO.acme "ana@acme" "L4_CISO" None [] [] None) 8 20 ana_world = (Ok dto, w') ∧
    stored_operator (w_db w') revoked_ana ∧ stored_operator (w_db w') o' ∧ identity_ref o' = "ana@acme" ∧
    RO.can_authorize_impact OperatorImpact.DESTRUCT o' = true.
Proof.
  destruct (revoked_identity_returns revoked_ana OperatorClearanceLevel.L4_CISO 8 20 ana_world ana_world_reachable ana_is_stored)
    as (dto & w' & o' & Hrun & Hst & Hst' & _ & Hid & _ & _ & Hcan);
    [reflexivity|discriminate|intros q Hq; rewrite (ana_is_alone q Hq); discriminate|].
  exists dto, w', o'. split; [exact Hrun|]. split; [exact Hst|]. split; [exact Hst'|]. split; [exact Hid|].
  apply Hcan. vm_compute. discriminate.
Defined.

(** A grant to the revoked operator is refused, and changes nothing. *)
Lemma operator_command_extends_witness :
  ∃ e, run_command 21 (GrantApprovalAuthority RO.acme 7 "OperationApproval") ana_world = (Err e, ana_world).
Proof.
  destruct (run_command 21 (GrantApprovalAuthority RO.acme 7 "OperationApproval") ana_world) as [r w'] eqn:Hrun.
  pose proof (operator_command_extends (GrantApprovalAuthority RO.acme 7 "OperationApproval") 21 ana_world r w' ana_world_reachable I Hrun) as [_ He].
  destruct r as [[]|e]; [|exists e; rewrite He; reflexivity].
  exfalso. apply (f_equal fst) in Hrun. vm_compute in Hrun. discriminate Hrun.
Defined.
